(* ===== verification/_CoqProject ===== *)
-Q . S2P
Prelude.v
Codec.v
Sha256.v
Address.v
Amount.v
Tx.v
Votes.v
Block.v
Smt.v
Store.v
Keys.v
State.v
Applier.v
Validator.v
Registry.v
Staking.v
ValidatorSet.v
Economics.v
Epoch.v
Voting.v
System.v
BlockExec.v
Gossip.v
Bolt.v
Chain.v
Persist.v
Mempool.v
Vm.v
StateSync.v
Node.v
Genesis.v
Startup.v
Wire.v
Peers.v
P2p.v
BlockSync.v
FastSync.v
Client.v
Indexer.v
Rpc.v
Explorer.v
Hub.v
Harness.v
Config.v
Devnet.v
Cmd.v
Sdk.v
