(* ===== verification/Prelude.v ===== *)
(** * DSN: a verification library (root file)

    DSN is a proof-of-stake blockchain node written in Go. This library
    translates its protocol code into executable definitions and proves what
    makes it correct. The file also holds the shared prelude (bytes, machine
    integers, Go errors and panics, the call monad, tactics, generic lemmas).

    ** The program and its parts

    A transaction ([types]) enters a pool ([mempool]); a proposer chosen by
    stake ([consensus/proposer.go]) executes pending transactions on the state
    ([state], [vm], [staking]), commits a Merkle root and signs a block
    ([consensus/block_builder.go]); validators vote ([consensus/voting.go]),
    and every node re-executes a block that carries a commit proof
    ([consensus/block_validator.go]). Around the transactions of a block,
    [consensus/system.go] runs epoch changes, issuance, rewards and slashing.
    State, blocks, votes and checkpoints go to a bbolt database
    ([state/persistent.go], [state/checkpoint.go], [consensus/persist.go]);
    state snapshots serve fast sync ([state/snapshot.go], [state/restore.go]).
    A node ([node]) starts from a genesis document ([genesis]), produces and
    accepts blocks and exchanges them with its peers ([network]).

    ** Files

    - Codec.v (types/serializer.go), Sha256.v (crypto/sha256), Address.v,
      Amount.v, Tx.v, Votes.v, Block.v: the data types, their validation and
      their binary forms. A writer is a call on a buffer, a reader a call on
      the remaining input; [emits] and [parses] compose round trips.
    - Smt.v (state/smt.go): the sparse Merkle tree as the flat map the code
      keeps. Store.v: the interfaces [KVStore] and [AccountStore] (classes with
      laws) through which components reach the state, with the aliasing of
      account pointers. Keys.v: the string keys of all components and their
      injectivity. State.v (state/memory.go, state/transitions.go):
      [InMemoryState] and the cache of [PersistentState] as instances.
    - Applier.v (state/applier.go): transfers and validator registrations.
    - Validator.v, Registry.v, Staking.v, ValidatorSet.v, Economics.v, Epoch.v
      (package staking): validator records, the registry, bonding, slashing,
      rewards, snapshots of the validator set, issuance, epochs.
    - Voting.v, System.v, BlockExec.v, Gossip.v, Chain.v (package consensus):
      proposers, votes and commit proofs; system transitions and evidence;
      building and validating blocks; the block message; the block store.
    - Bolt.v: the interface of the database. Persist.v (state/persistent.go,
      state/checkpoint.go): the database-backed state. StateSync.v
      (state/snapshot.go, state/restore.go): snapshots, chunks, restoration.
    - Mempool.v (mempool/pool.go): the pool and its persistence.
    - Vm.v (package vm): gas, storage, host functions, deployment and calls.
    - Node.v (node/node.go, node/replay.go, node/recovery.go, node/fastsync.go,
      wallet/wallet.go): a node ties state, pool, database and consensus
      together. Genesis.v (package genesis): validation of the genesis document
      and initialisation from it. Startup.v (node/startup.go): the phases of
      [Start], and [Shutdown].
    - Wire.v (network/message.go and the codecs of the package): frames and
      payloads. Peers.v (network/peer.go, network/peer_discovery.go): the two
      maps of shared peer records, scores, bans, peer exchange. P2p.v
      (network/p2p.go, network/gossip.go, network/discovery.go): connections,
      dispatch of messages, gossip. BlockSync.v (network/blocksync.go) and
      FastSync.v (network/fastsync.go): ranges of blocks and the download of
      snapshots; here the mutex is part of the state, since the code locks it
      twice, and goroutines are tasks of a step relation.
    - Client.v (package wallet, sdk/txbuilder.go, sdk/wallet.go): keys, key
      files, the transactions that the SDK builds. Indexer.v (package indexer):
      blocks, transactions and events in a database of their own. Rpc.v
      (rpc/service, rpc/handlers.go, rpc/server.go): the JSON-RPC methods over
      the node of Node.v. Explorer.v (package explorer): the REST handlers over
      Indexer.v and Rpc.v. Hub.v (package rpc/ws): the WebSocket hub and its
      clients as a machine whose steps may block.
    - Harness.v (consensus/bft_harness.go): simulated rounds over Voting.v and
      BlockExec.v. Config.v (package config, node/config.go and its use in
      cmd/dsn): where the settings of a node come from. Devnet.v
      (cmd/dsn/devnet.go): the local network, a node of Node.v that produces
      blocks at each tick, and its faucet over Rpc.v. Cmd.v (genesis_cmd.go,
      wallet_cmd.go, validator_cmd.go and contract_cmd.go of cmd/dsn): what the
      commands write, and their requests to a node of Rpc.v. Sdk.v (the HTTP
      client of package sdk): retries, errors, pages, and methods over a node.

    Go calls are functions [S → res A * S] (the monad [go]): the state after
    an error is the state the code leaves behind. [res] has values, errors and
    panics. 64-bit integers are [Z] with the wrap-around written out at every
    operation that can wrap.

    ** What the theorems show

    - Consensus: a block built by a proposer validates, unless a contract
      emitted an event (BlockExec.v); an accepted block is what its header says
      of the very state it was executed from; commit proofs are accepted
      exactly when valid, and conflicting proofs expose double signers, for
      snapshots within the bounds of the arithmetic (Voting.v); votes are counted exactly; enough precommits give a proof;
      the weighted proposer schedule is exactly fair.
    - Transactions: transfers are applied exactly under their conditions and
      never twice (Applier.v); registrations move stake; the pool's map, index
      and listing agree, and accepted nonces are consecutive (Mempool.v).
    - Staking: the registry implements an abstract registry over every history
      (Registry.v); the active set, bonding, release, slashing, rewards and
      issuance are exact and conserve tokens; the epoch transition is one
      simultaneous step of every validator (Epoch.v); the epoch counter follows
      the chain and evidence is punished once (System.v).
    - State: the root is a function of the contents and a revert restores a
      snapshot (State.v); what a commit writes is what a restart finds
      (Persist.v); a snapshot restored elsewhere gives the same state
      (StateSync.v); blocks, votes and evidence are stored atomically and found
      again (Chain.v).
    - Contracts: failed executions change nothing, contracts cannot touch the
      protocol's state, gas stays within the limit (Vm.v).
    - Nodes: what a node commits it finds after a restart; fork choice is by
      height; replay is exactly the system transitions; fast sync reaches the
      checkpoint; blocks that arrive by gossip are never adopted (Node.v). A
      genesis document is accepted exactly under its conditions and initialised
      exactly (Genesis.v); the first start and the pinned genesis (Startup.v).
    - Network: what a decoder accepts is well typed (Gossip.v); the two peer
      maps agree, scores stay in range, the best peers are the best (Peers.v);
      transactions arrive, gossiped frames do not (P2p.v); ranges are served
      exactly (BlockSync.v); a fast sync never downloads (FastSync.v).
    - Access: a database filled by the indexer answers every query as the
      history of indexed blocks does, prefix scans lose nothing, catching up
      ends and indexes the blocks that the node has (Indexer.v); requests other than submissions
      leave the node as it was, submitted transactions are found as pending,
      gas is never estimated (Rpc.v); the pages of the explorer are the indexed
      blocks in descending order (Explorer.v); the tables of the hub agree in
      every reachable state but for the changes that are half done, and a slow
      subscriber blocks it (Hub.v).
    - Clients: key files and hexadecimal transactions are read back; what the
      SDK builds moves nothing, and a signature does not protect the payload
      (Client.v); the attempts and waits of a request with retries are exact,
      pages show every item once, the SDK reads accounts but neither balances
      nor missing things, and sends no transaction (Sdk.v).
    - Simulation and configuration: what a simulated height commits, and that
      its safety check cannot fail (Harness.v); validation is exact, merging is
      associative, the environment keeps a configuration valid (Config.v).
    - Commands: the blocks of the local network form one chain and its faucet
      pays (Devnet.v); the genesis document of a development network is
      accepted and usable, wallet keys and signatures are read back, and the
      commands that register a validator or deploy a contract never succeed
      (Cmd.v).

    ** Parameters, fuel and bounds

    Code outside the repository is a parameter with its documented behaviour
    as laws: bbolt (classes [BoltDB], [BoltLaws], with an in-memory instance),
    the WebAssembly engine wazero (class [Wazero]), Ed25519 (class [Ed25519]:
    theorems hold for any pair of functions), the hasher interface (class
    [Hasher], instantiated with SHA-256 where the code does), and the clock
    (arguments). No theorem assumes collision resistance: claims about hashed
    data are about the hashed bytes or up to a collision. Map iteration whose
    order Go leaves open is either shown irrelevant or an argument.

    Loops that are not structural take fuel computed from their input (the
    length of the data, the number of registered validators, the 256 levels of
    the tree, the 25 halvings of a gas estimate, the 101 blocks of a page, the
    heights to catch up with), and the theorems show that it suffices; where a
    loop of the code does not end, no fuel suffices and a theorem says so
    (BlockSync.v, Indexer.v). The run of a contract is
    a finite tree because the engine stops a module at the deadline of its
    context.

    ** Not modelled

    Locks and goroutines, except in FastSync.v and Hub.v: elsewhere a call is
    one step, as if it held its mutex for its whole body, and histories are
    sequences of calls. In Hub.v a step is one critical section, and the loops
    that run without the lock take a step for each turn. TCP, the accept loop, timers and the floating-point
    token buckets of network/gossip.go: their answers are arguments. JSON and
    TOML (parameters), HTTP routing, CORS and the rate limiter of rpc; the
    WebSocket client of the SDK; the flags, the printing and the terminal
    user interface of cmd; telemetry; the drivers in tools and integration; the
    floating-point simulation of staking/economics_sim.go; the contract-side
    bindings of sdk/wasm. *)

From Stdlib Require Export ZArith Lia Strings.Byte.
From stdpp Require Export base gmap strings countable sorting.
From stdpp Require Export numbers pretty list.

#[global] Open Scope Z_scope.
#[global] Set Default Goal Selector "!".

(** ** Bytes

    A Go [byte] is a [Byte.byte]; [b2z] and [z2b] are the conversions
    [uint64(b)] and [byte(v)] (the latter truncates modulo 256). *)

Abbreviation byte := Byte.byte.
Abbreviation bytes := (list Byte.byte).

Definition b2z (b : byte) : Z := Z.of_N (Byte.to_N b).

Definition z2b (z : Z) : byte :=
  match Byte.of_N (Z.to_N (z mod 256)) with
  | Some b => b
  | None => x00
  end.

Lemma b2z_range b : 0 <= b2z b < 256.
Proof.
  unfold b2z. pose proof (Byte.to_N_bounded b). lia.
Qed.

Lemma b2z_z2b z : b2z (z2b z) = z mod 256.
Proof.
  unfold b2z, z2b. pose proof (Z.mod_pos_bound z 256 ltac:(lia)) as Hb.
  destruct (Byte.of_N _) eqn:E.
  - apply Byte.to_of_N in E. rewrite E. lia.
  - apply Byte.of_N_None_iff in E. lia.
Qed.

Lemma z2b_b2z b : z2b (b2z b) = b.
Proof.
  unfold z2b. rewrite Z.mod_small by apply b2z_range.
  unfold b2z. rewrite N2Z.id, Byte.of_to_N. done.
Qed.

Lemma b2z_inj a b : b2z a = b2z b → a = b.
Proof. intros H. rewrite <- (z2b_b2z a), <- (z2b_b2z b). by rewrite H. Qed.

#[global] Instance byte_eq_dec : EqDecision byte.
Proof.
  intros a b. destruct (Byte.eqb a b) eqn:E.
  - left. by apply Byte.byte_dec_bl.
  - right. intros ->. by rewrite (Byte.byte_dec_lb (x:=b) eq_refl) in E.
Defined.

#[global] Instance byte_countable : Countable byte :=
  inj_countable' b2z z2b z2b_b2z.

#[global] Instance byte_inhabited : Inhabited byte := populate x00.

(** ** Machine integers

    Unsigned Go integers are kept as [Z]; every arithmetic operation of the
    source that can leave its width is wrapped explicitly. *)

Definition u8 (z : Z) : Z := z mod 2 ^ 8.
Definition u16 (z : Z) : Z := z mod 2 ^ 16.
Definition u32 (z : Z) : Z := z mod 2 ^ 32.
Definition u64 (z : Z) : Z := z mod 2 ^ 64.

(** [fits w v]: the integer [v] is a value of an unsigned [8*w]-bit type. *)
Definition fits (w : nat) (v : Z) : Prop := 0 <= v < 256 ^ Z.of_nat w.

#[global] Instance fits_dec w v : Decision (fits w v).
Proof. unfold fits. apply _. Defined.

Definition is_u64 (v : Z) : Prop := 0 <= v < 2 ^ 64.
Definition is_u128 (v : Z) : Prop := 0 <= v < 2 ^ 128.

Lemma fits_u64 v : fits 8 v ↔ is_u64 v.
Proof. unfold fits, is_u64. change (256 ^ Z.of_nat 8) with (2 ^ 64). done. Qed.

Lemma fits_u128 v : fits 16 v ↔ is_u128 v.
Proof. unfold fits, is_u128. change (256 ^ Z.of_nat 16) with (2 ^ 128). done. Qed.

Lemma u64_small z : is_u64 z → u64 z = z.
Proof. apply Z.mod_small. Qed.

Lemma u64_is_u64 z : is_u64 (u64 z).
Proof. apply Z.mod_pos_bound. lia. Qed.

Lemma u64_idemp z : u64 (u64 z) = u64 z.
Proof. apply u64_small, u64_is_u64. Qed.

Lemma u64_add_l a b : u64 (u64 a + b) = u64 (a + b).
Proof. unfold u64. by rewrite Zplus_mod_idemp_l. Qed.

Lemma u64_add_r a b : u64 (a + u64 b) = u64 (a + b).
Proof. unfold u64. by rewrite Zplus_mod_idemp_r. Qed.

(** ** Big-endian byte strings *)

(** [be n v]: the [n] low-order bytes of [v], most significant first
    ([binary.BigEndian.PutUint16/32/64] and [big.Int.FillBytes]). *)
Fixpoint be (n : nat) (v : Z) : bytes :=
  match n with
  | O => []
  | S n' => z2b (Z.shiftr v (8 * Z.of_nat n')) :: be n' v
  end.

(** [unbe l]: the unsigned big-endian value of a byte string
    ([binary.BigEndian.Uint16/32/64] and [big.Int.SetBytes]). *)
Definition unbe (l : bytes) : Z :=
  fold_left (λ acc b, acc * 256 + b2z b) l 0.

Lemma length_be n v : length (be n v) = n.
Proof. induction n; simpl; auto. Qed.

Lemma unbe_acc l acc :
  fold_left (λ a b, a * 256 + b2z b) l acc = acc * 256 ^ Z.of_nat (length l) + unbe l.
Proof.
  unfold unbe. revert acc. induction l as [|b l IH]; intros acc; cbn [fold_left length].
  - change (256 ^ Z.of_nat 0) with 1. lia.
  - rewrite IH, (IH (0 * 256 + _)). rewrite Nat2Z.inj_succ, Z.pow_succ_r by lia. ring.
Qed.

Lemma unbe_cons b l : unbe (b :: l) = b2z b * 256 ^ Z.of_nat (length l) + unbe l.
Proof. unfold unbe at 1. cbn [fold_left]. by rewrite unbe_acc. Qed.

Lemma unbe_app l k : unbe (l ++ k) = unbe l * 256 ^ Z.of_nat (length k) + unbe k.
Proof. unfold unbe at 1. rewrite fold_left_app. by rewrite unbe_acc. Qed.

Lemma pow256_pos n : 0 < 256 ^ Z.of_nat n.
Proof. apply Z.pow_pos_nonneg; lia. Qed.

Lemma unbe_range l : 0 <= unbe l < 256 ^ Z.of_nat (length l).
Proof.
  induction l as [|b l IH]; [cbn; lia|].
  rewrite unbe_cons. cbn [length].
  rewrite Nat2Z.inj_succ, Z.pow_succ_r by lia.
  pose proof (b2z_range b). nia.
Qed.

Lemma unbe_fits l n : length l = n → fits n (unbe l).
Proof. intros <-. apply unbe_range. Qed.

Lemma unbe_be n v : unbe (be n v) = v mod 256 ^ Z.of_nat n.
Proof.
  induction n as [|n IH].
  - cbn. by rewrite Z.mod_1_r.
  - cbn [be]. rewrite unbe_cons, IH, length_be, b2z_z2b.
    rewrite Z.shiftr_div_pow2 by lia.
    replace (2 ^ (8 * Z.of_nat n)) with (256 ^ Z.of_nat n)
      by (rewrite Z.pow_mul_r by lia; done).
    rewrite Nat2Z.inj_succ, Z.pow_succ_r by lia.
    pose proof (pow256_pos n).
    rewrite (Z.mul_comm 256), Z.rem_mul_r by lia. lia.
Qed.

Lemma unbe_be_small n v : fits n v → unbe (be n v) = v.
Proof. intros H. rewrite unbe_be. by apply Z.mod_small. Qed.

Lemma unbe_inj l k : length l = length k → unbe l = unbe k → l = k.
Proof.
  revert k. induction l as [|b l IH]; intros [|c k] Hlen He; try done.
  simpl in Hlen. injection Hlen as Hlen.
  rewrite !unbe_cons, Hlen in He.
  pose proof (unbe_range l) as Hl. pose proof (unbe_range k) as Hk. rewrite Hlen in Hl.
  pose proof (pow256_pos (length k)).
  assert (b2z b = b2z c) as Hbc by nia.
  f_equal; [by apply b2z_inj|]. apply IH; [done|nia].
Qed.

Lemma be_unbe n l : length l = n → be n (unbe l) = l.
Proof.
  intros Hl. apply unbe_inj; [by rewrite length_be|].
  rewrite unbe_be. apply Z.mod_small. subst n. apply unbe_range.
Qed.

Lemma be_inj n v w : fits n v → fits n w → be n v = be n w → v = w.
Proof. intros Hv Hw H. rewrite <- (unbe_be_small n v), <- (unbe_be_small n w); congruence. Qed.

Lemma unbe_replicate0 n : unbe (replicate n x00) = 0.
Proof.
  induction n as [|n IH]; [done|]. cbn [replicate]. rewrite unbe_cons, IH. cbn. lia.
Qed.

Lemma unbe_zeros_app n l : unbe (replicate n x00 ++ l) = unbe l.
Proof. rewrite unbe_app, unbe_replicate0. lia. Qed.

(** [Bytes] of [math/big.Int]: the minimal big-endian encoding ([[]] for zero). *)
Definition nat_bytelen (v : Z) : nat :=
  if v <=? 0 then O else S (Z.to_nat (Z.log2 v / 8)).

Definition big_bytes (v : Z) : bytes := be (nat_bytelen v) v.

Lemma nat_bytelen_fits v : 0 <= v → fits (nat_bytelen v) v.
Proof.
  intros Hv. unfold nat_bytelen, fits. destruct (Z.leb_spec v 0).
  - replace v with 0 by lia. done.
  - split; [done|]. pose proof (Z.log2_nonneg v) as Hn.
    assert (0 <= Z.log2 v / 8) by (apply Z.div_pos; lia).
    rewrite Nat2Z.inj_succ, Z2Nat.id by done.
    replace 256 with (2 ^ 8) by done. rewrite <- Z.pow_mul_r by lia.
    pose proof (Z.log2_spec v ltac:(lia)) as [_ Hlt].
    eapply Z.lt_le_trans; [exact Hlt|]. apply Z.pow_le_mono_r; [lia|].
    pose proof (Z.mul_succ_div_gt (Z.log2 v) 8 ltac:(lia)). lia.
Qed.

Lemma unbe_big_bytes v : 0 <= v → unbe (big_bytes v) = v.
Proof. intros Hv. apply unbe_be_small. by apply nat_bytelen_fits. Qed.

Lemma nat_bytelen_le n v : fits n v → (nat_bytelen v <= n)%nat.
Proof.
  unfold fits, nat_bytelen. intros [Hlo Hhi]. destruct (Z.leb_spec v 0) as [|Hp]; [lia|].
  assert (0 <= Z.log2 v / 8) by (apply Z.div_pos; [apply Z.log2_nonneg|lia]).
  apply Nat2Z.inj_le. rewrite Nat2Z.inj_succ, Z2Nat.id by done.
  apply Z.le_succ_l. apply Z.div_lt_upper_bound; [lia|].
  apply Z.log2_lt_pow2; [done|].
  replace (8 * Z.of_nat n) with (8 * Z.of_nat n) by done.
  rewrite Z.pow_mul_r by lia. done.
Qed.

Lemma length_big_bytes_le n v : fits n v → (length (big_bytes v) <= n)%nat.
Proof. intros H. unfold big_bytes. rewrite length_be. by apply nat_bytelen_le. Qed.

(** Padding the minimal encoding on the left gives the fixed-width one:
    [copy(buf[16-len(b):], b)]. *)
Lemma pad_big_bytes n v :
  fits n v → replicate (n - length (big_bytes v)) x00 ++ big_bytes v = be n v.
Proof.
  intros Hf. pose proof (length_big_bytes_le n v Hf).
  apply unbe_inj.
  - rewrite length_app, length_replicate, length_be. lia.
  - rewrite unbe_zeros_app, unbe_big_bytes by (destruct Hf; done).
    by rewrite unbe_be_small.
Qed.

(** ** Fixed-size byte arrays: Go's [[n]byte] *)

Record arr (n : nat) : Type := mk_arr {
  arr_bytes :> bytes;
  arr_len : bool_decide (length arr_bytes = n);
}.
Arguments mk_arr {_} _ _.
Arguments arr_bytes {_} _.
Arguments arr_len {_} _.

Lemma arr_length {n} (a : arr n) : length a = n.
Proof. destruct a as [l H]. exact (bool_decide_unpack _ H). Qed.

Lemma arr_eq {n} (a b : arr n) : arr_bytes a = arr_bytes b → a = b.
Proof.
  destruct a as [l Hl], b as [k Hk]. simpl. intros ->. f_equal. apply proof_irrel.
Qed.

#[global] Instance arr_eq_dec n : EqDecision (arr n).
Proof.
  intros a b. destruct (decide (arr_bytes a = arr_bytes b)) as [H|H].
  - left. by apply arr_eq.
  - right. intros ->. done.
Defined.

(** [arr_copy n l]: [var a [n]byte; copy(a[:], l)]: the prefix of [l] that
    fits, zero-filled. *)
Lemma arr_copy_len n (l : bytes) :
  length (take n l ++ replicate (n - length l) x00) = n.
Proof. rewrite length_app, length_take, length_replicate. lia. Qed.

Definition arr_copy (n : nat) (l : bytes) : arr n :=
  mk_arr (take n l ++ replicate (n - length l) x00)
         (bool_decide_pack _ (arr_copy_len n l)).

Definition arr_zero (n : nat) : arr n := arr_copy n [].

Lemma arr_copy_exact n (l : bytes) : length l = n → arr_bytes (arr_copy n l) = l.
Proof.
  intros <-. simpl. rewrite take_ge by done. rewrite Nat.sub_diag. simpl. apply app_nil_r.
Qed.

Lemma arr_copy_arr {n} (a : arr n) : arr_copy n a = a.
Proof. apply arr_eq, arr_copy_exact, arr_length. Qed.

Lemma arr_copy_app {n} (a : arr n) (l : bytes) : arr_copy n (a ++ l) = a.
Proof.
  apply arr_eq. simpl. rewrite length_app, arr_length.
  replace (n - (n + length l))%nat with O by lia. simpl. rewrite app_nil_r.
  rewrite take_app_le by (rewrite arr_length; lia). apply take_ge. by rewrite arr_length.
Qed.

#[global] Instance arr_inhabited n : Inhabited (arr n) := populate (arr_zero n).

#[global] Program Instance arr_countable n : Countable (arr n) :=
  inj_countable' (λ a : arr n, unbe a) (λ z, arr_copy n (be n z)) _.
Next Obligation.
  intros n a. simpl. apply arr_eq. rewrite be_unbe by apply arr_length.
  apply arr_copy_exact, arr_length.
Qed.

Lemma arr_unbe_inj {n} (a b : arr n) : unbe a = unbe b → a = b.
Proof. intros H. apply arr_eq, unbe_inj; [by rewrite !arr_length|done]. Qed.

(** [bytes.Compare] and string comparison: lexicographic on bytes. *)
Fixpoint bytes_compare (a b : bytes) : comparison :=
  match a, b with
  | [], [] => Eq
  | [], _ :: _ => Lt
  | _ :: _, [] => Gt
  | x :: a', y :: b' =>
      match b2z x ?= b2z y with
      | Eq => bytes_compare a' b'
      | c => c
      end
  end.

(** On arrays of one length the lexicographic order is the numeric order. *)
Lemma bytes_compare_unbe (a b : bytes) :
  length a = length b → bytes_compare a b = (unbe a ?= unbe b).
Proof.
  revert b. induction a as [|x a IH]; intros [|y b] Hlen; try done.
  injection Hlen as Hlen. cbn [bytes_compare]. rewrite !unbe_cons, Hlen.
  pose proof (unbe_range a) as Ha. pose proof (unbe_range b) as Hb. rewrite Hlen in Ha.
  pose proof (pow256_pos (length b)).
  destruct (Z.compare_spec (b2z x) (b2z y)) as [He|Hl|Hg].
  - rewrite He, IH by done. symmetry. apply Z.add_compare_mono_l.
  - symmetry. apply Z.compare_lt_iff. nia.
  - symmetry. apply Z.compare_gt_iff. nia.
Qed.

Lemma arr_compare_unbe {n} (a b : arr n) : bytes_compare a b = (unbe a ?= unbe b).
Proof. apply bytes_compare_unbe. by rewrite !arr_length. Qed.

(** The lexicographic order is a strict total order on byte strings. *)
Lemma bytes_compare_eq a b : bytes_compare a b = Eq ↔ a = b.
Proof.
  revert b. induction a as [|x a IH]; intros [|y b]; cbn; try done.
  destruct (Z.compare_spec (b2z x) (b2z y)) as [He|Hl|Hg].
  - rewrite IH. apply b2z_inj in He as ->. split; [by intros ->|by intros [=]].
  - split; [done|]. intros [= -> ->]. lia.
  - split; [done|]. intros [= -> ->]. lia.
Qed.

Lemma bytes_compare_antisym a b : bytes_compare b a = CompOpp (bytes_compare a b).
Proof.
  revert b. induction a as [|x a IH]; intros [|y b]; cbn; try done.
  rewrite (Z.compare_antisym (b2z x) (b2z y)).
  destruct (b2z x ?= b2z y); cbn; [apply IH|done|done].
Qed.

Lemma bytes_compare_trans a b c :
  bytes_compare a b = Lt → bytes_compare b c = Lt → bytes_compare a c = Lt.
Proof.
  revert b c. induction a as [|x a IH]; intros [|y b] [|z c]; cbn; try done.
  destruct (Z.compare_spec (b2z x) (b2z y)), (Z.compare_spec (b2z y) (b2z z)),
    (Z.compare_spec (b2z x) (b2z z)); try done; try lia. apply IH.
Qed.

Definition bytes_lt (a b : bytes) : bool :=
  match bytes_compare a b with Lt => true | _ => false end.

Lemma bytes_lt_true a b : bytes_lt a b = true ↔ bytes_compare a b = Lt.
Proof. unfold bytes_lt. by destruct (bytes_compare a b). Qed.

Lemma bytes_lt_total a b : bytes_lt a b = false → bytes_lt b a = false → a = b.
Proof.
  unfold bytes_lt. rewrite (bytes_compare_antisym a b).
  destruct (bytes_compare a b) eqn:E; cbn; [|done|done]. intros _ _. by apply bytes_compare_eq.
Qed.

Lemma bytes_lt_asym a b : bytes_lt a b = true → bytes_lt b a = false.
Proof.
  unfold bytes_lt. rewrite (bytes_compare_antisym a b). by destruct (bytes_compare a b).
Qed.

Lemma bytes_lt_trans a b c : bytes_lt b a = false → bytes_lt c b = false → bytes_lt c a = false.
Proof.
  intros Hba Hcb. destruct (bytes_lt c a) eqn:Hca; [|done].
  destruct (bytes_lt a b) eqn:Hab.
  - rewrite bytes_lt_true in Hca, Hab.
    assert (bytes_lt c b = true) by (by apply bytes_lt_true, (bytes_compare_trans c a b)).
    congruence.
  - assert (a = b) as -> by (by apply bytes_lt_total). congruence.
Qed.

(** ** Errors, results and the Go monad

    [go S A] is a Go call that may mutate the state [S] and returns a value,
    an error or a panic. The state reached is part of every outcome: Go does
    not roll anything back when a function returns an error. *)

(** Sentinel errors of the packages (types/errors.go, staking/validator.go,
    consensus/block_validator.go, mempool/errors.go, state/errors.go,
    vm/errors.go), the two end-of-input errors of package io, the anonymous
    errors [fmt.Errorf(msg)] (the format string; arguments are not rendered)
    and the wrapping form [fmt.Errorf(msg + ": %w", err)]. *)
Inductive error :=
  | EOF | ErrUnexpectedEOF
  (* types *)
  | ErrInvalidAddress | ErrAmountOverflow | ErrAmountUnderflow | ErrInvalidSignature
  | ErrNonceMismatch | ErrDuplicateIntent | ErrMaxFeeExceeded | ErrInvalidTimestamp
  | ErrNegativeBalance | ErrInvalidEncoding | ErrPayloadTooLarge
  | ErrInvalidEvidenceType | ErrEvidenceMismatch | ErrDuplicateEvidence
  | ErrContractNotFound | ErrGasLimitExceeded | ErrContractSizeExceeded
  | ErrCallDepthExceeded | ErrInvalidContractID | ErrContractAlreadyExists
  (* state *)
  | ErrInvalidSnapshot
  (* staking *)
  | ErrInvalidTransition | ErrValidatorNotFound | ErrValidatorExists
  | ErrInsufficientStake | ErrValidatorJailed | ErrValidatorNotActive
  | ErrValidatorNotPending | ErrValidatorNotUnstaking
  (* consensus *)
  | ErrEventsRootMismatch | ErrWrongHeight | ErrWrongPreviousHash | ErrWrongProposer
  | ErrInvalidBlockSignature | ErrWrongValidatorRoot | ErrStateRootMismatch
  | ErrTxRootMismatch | ErrFeeSummaryMismatch | ErrWrongValidatorSetHash
  | ErrWrongEpoch | ErrInvalidCommitProof
  (* mempool *)
  | ErrMempoolFull | ErrAlreadyInPool | ErrPoolInsufficientStake
  (* vm *)
  | ErrVmGasLimitExceeded | ErrStorageKeyTooLarge | ErrStorageValueTooLarge
  | ErrVmContractNotFound | ErrVmCallDepthExceeded | ErrCodeTooLarge | ErrInvalidWasm
  | ErrHostFunction | ErrInvalidImport
  (* anonymous, wrapping and field-validation errors *)
  | Errorf (msg : string)
  | Wrapf (msg : string) (e : error)
  | ValidationError (e : error) (field : string).

#[global] Instance error_eq_dec : EqDecision error.
Proof. solve_decision. Defined.

(** [errors.Is]: does the chain of wrapped errors contain [t]? *)
Fixpoint is_error (e t : error) : bool :=
  bool_decide (e = t) ||
  match e with
  | Wrapf _ e' | ValidationError e' _ => is_error e' t
  | _ => false
  end.

Inductive res (A : Type) : Type :=
  | Ok (a : A)
  | Err (e : error)
  | Panic.
Arguments Ok {A} _.
Arguments Err {A} _.
Arguments Panic {A}.

#[global] Instance res_eq_dec {A} `{EqDecision A} : EqDecision (res A).
Proof. solve_decision. Defined.

Lemma Ok_inj {A} (a b : A) : Ok a = Ok b → a = b.
Proof. by intros [=]. Qed.

#[global] Instance res_ret : MRet res := λ A a, Ok a.
#[global] Instance res_bind : MBind res := λ A B f r,
  match r with Ok a => f a | Err e => Err e | Panic => Panic end.

#[global] Instance res_fmap : FMap res := λ A B f r,
  match r with Ok a => Ok (f a) | Err e => Err e | Panic => Panic end.

Definition go (S A : Type) : Type := S → S * res A.

#[global] Instance go_ret S : MRet (go S) := λ A a s, (s, Ok a).
#[global] Instance go_bind S : MBind (go S) := λ A B f m s,
  match m s with
  | (s', Ok a) => f a s'
  | (s', Err e) => (s', Err e)
  | (s', Panic) => (s', Panic)
  end.

(** [throw e]: [return ..., e]. [gopanic]: [panic(...)] or a run-time panic. *)
Definition throw {S A} (e : error) : go S A := λ s, (s, Err e).
Definition gopanic {S A} : go S A := λ s, (s, Panic).

(** Read-only access to the state, a pure fallible computation, and a guard
    [if c { return e }]. *)
Definition gets {S A} (f : S → A) : go S A := λ s, (s, Ok (f s)).
Definition modify {S} (f : S → S) : go S unit := λ s, (f s, Ok tt).
Definition lift {S A} (r : res A) : go S A := λ s, (s, r).
Definition guard_err {S} (c : bool) (e : error) : go S unit :=
  if c then throw e else mret tt.

(** [if err := m; err != nil { return fmt.Errorf(msg + ": %w", err) }]. *)
Definition wrap {S A} (msg : string) (m : go S A) : go S A := λ s,
  match m s with
  | (s', Err e) => (s', Err (Wrapf msg e))
  | r => r
  end.

Definition wrap_res {A} (msg : string) (r : res A) : res A :=
  match r with Err e => Err (Wrapf msg e) | _ => r end.

(** [v, err := m; if err != nil { ... }]: the error becomes a value. *)
Definition try {S A} (m : go S A) : go S (error + A) := λ s,
  match m s with
  | (s', Ok a) => (s', Ok (inr a))
  | (s', Err e) => (s', Ok (inl e))
  | (s', Panic) => (s', Panic)
  end.

(** [for _, x := range l { body }]. *)
Fixpoint for_each {S A} (l : list A) (body : A → go S unit) : go S unit :=
  match l with
  | [] => mret tt
  | x :: l' => body x ;; for_each l' body
  end.

(** [for i := 0; i < n; i++ { out = append(out, body(i)) }]. *)
Fixpoint repeat_go {S A} (n : nat) (body : go S A) : go S (list A) :=
  match n with
  | O => mret []
  | S n' => x ← body; xs ← repeat_go n' body; mret (x :: xs)
  end.

Lemma omap_length_le {A B} (f : A → option B) (l : list A) : (length (omap f l) <= length l)%nat.
Proof. induction l as [|x l IH]; [done|]. cbn. destruct (f x); cbn; lia. Qed.

Section go_laws.
Context {S : Type}.

Lemma go_bind_ok {A B} (m : go S A) (f : A → go S B) s s' a :
  m s = (s', Ok a) → (m ≫= f) s = f a s'.
Proof. intros H. unfold mbind, go_bind. by rewrite H. Qed.

Lemma go_bind_err {A B} (m : go S A) (f : A → go S B) s s' e :
  m s = (s', Err e) → (m ≫= f) s = (s', Err e).
Proof. intros H. unfold mbind, go_bind. by rewrite H. Qed.

Lemma go_bind_panic {A B} (m : go S A) (f : A → go S B) s s' :
  m s = (s', Panic) → (m ≫= f) s = (s', Panic).
Proof. intros H. unfold mbind, go_bind. by rewrite H. Qed.

(** Inversion: a successful sequence is a successful prefix and suffix. *)
Lemma go_bind_inv {A B} (m : go S A) (f : A → go S B) s s'' b :
  (m ≫= f) s = (s'', Ok b) →
  ∃ s' a, m s = (s', Ok a) ∧ f a s' = (s'', Ok b).
Proof.
  unfold mbind, go_bind. destruct (m s) as [s' [a|e|]] eqn:E; intros H; [eauto|done|done].
Qed.

Lemma go_ret_inv {A} (a b : A) (s s' : S) :
  (mret a : go S A) s = (s', Ok b) → s' = s ∧ b = a.
Proof. by intros [= <- <-]. Qed.

Lemma lift_inv {A} (r : res A) (s s' : S) b :
  lift r s = (s', Ok b) → s' = s ∧ r = Ok b.
Proof. unfold lift. by intros [= <- <-]. Qed.

Lemma guard_err_inv c e (s s' : S) u :
  guard_err c e s = (s', Ok u) → s' = s ∧ c = false.
Proof. unfold guard_err. destruct c; [done|]. by intros [= <- <-]. Qed.

Lemma wrap_inv {A} msg (m : go S A) s s' a :
  wrap msg m s = (s', Ok a) → m s = (s', Ok a).
Proof. unfold wrap. destruct (m s) as [? [?|?|]]; naive_solver. Qed.

Lemma wrap_ok {A} msg (m : go S A) s s' a :
  m s = (s', Ok a) → wrap msg m s = (s', Ok a).
Proof. intros H. unfold wrap. by rewrite H. Qed.

Lemma go_bind_assoc {A B C} (m : go S A) (f : A → go S B) (g : B → go S C) s :
  ((m ≫= f) ≫= g) s = (m ≫= λ a, f a ≫= g) s.
Proof.
  unfold mbind, go_bind. by destruct (m s) as [s' [a|e|]].
Qed.

Lemma for_each_app {A} (l k : list A) (body : A → go S unit) s :
  for_each (l ++ k) body s = (for_each l body;; for_each k body) s.
Proof.
  revert s. induction l as [|x l IH]; intros s; [done|]. cbn [for_each app].
  rewrite go_bind_assoc. unfold mbind, go_bind. destruct (body x s) as [s' [u|e|]]; [|done..].
  apply IH.
Qed.
End go_laws.

(** [go_inv H]: split a successful run [H : m s = (s', Ok a)] of a sequence of
    calls into the runs of its parts. *)
Ltac go_step H :=
  lazymatch type of H with
  | (mbind _ _) _ = (_, Ok _) =>
      let s1 := fresh "s" in let a1 := fresh "a" in let H1 := fresh "Hrun" in
      apply go_bind_inv in H as (s1 & a1 & H1 & H)
  | (mret _) _ = (_, Ok _) => apply go_ret_inv in H as [-> ->]
  | lift _ _ = (_, Ok _) => apply lift_inv in H as [-> H]
  | guard_err _ _ _ = (_, Ok _) => apply guard_err_inv in H as [-> H]
  | wrap _ _ _ = (_, Ok _) => apply wrap_inv in H
  | throw _ _ = (_, Ok _) => discriminate H
  | gopanic _ = (_, Ok _) => discriminate H
  end.
Ltac go_inv H := repeat (go_step H).

(** [bool_hyps]: turn boolean guards in the context into propositions. *)
Ltac bool_hyps :=
  repeat match goal with
  | H : negb _ = false |- _ => apply negb_false_iff in H
  | H : negb _ = true |- _ => apply negb_true_iff in H
  | H : bool_decide _ = true |- _ => apply bool_decide_eq_true in H
  | H : bool_decide _ = false |- _ => apply bool_decide_eq_false in H
  | H : (_ <? _) = true |- _ => apply Z.ltb_lt in H
  | H : (_ <? _) = false |- _ => apply Z.ltb_ge in H
  | H : (_ <=? _) = true |- _ => apply Z.leb_le in H
  | H : (_ <=? _) = false |- _ => apply Z.leb_gt in H
  | H : (_ =? _) = true |- _ => apply Z.eqb_eq in H
  | H : (_ =? _) = false |- _ => apply Z.eqb_neq in H
  | H : _ || _ = false |- _ => apply orb_false_iff in H as [? ?]
  | H : _ && _ = true |- _ => apply andb_true_iff in H as [? ?]
  end.

(** *** Frame conditions

    [preserves R m]: whatever the outcome, the state [m] leaves is related by
    [R] to the one it started from. *)
Definition preserves {S A} (R : S → S → Prop) (m : go S A) : Prop := ∀ s, R s (m s).1.

Create HintDb preserves.

Section preserves.
Context {S : Type} (R : S → S → Prop) `{!PreOrder R}.

Lemma preserves_bind {A B} (m : go S A) (f : A → go S B) :
  preserves R m → (∀ a, preserves R (f a)) → preserves R (m ≫= f).
Proof.
  intros Hm Hf s. specialize (Hm s). unfold mbind, go_bind.
  destruct (m s) as [s' [a|e|]]; simpl in *; [|done|done]. by etrans; [|apply Hf].
Qed.

Lemma preserves_ret {A} (a : A) : preserves R (mret a : go S A).
Proof. by intros s. Qed.

Lemma preserves_lift {A} (r : res A) : preserves R (lift r).
Proof. by intros s. Qed.

Lemma preserves_throw {A} e : preserves R (throw e : go S A).
Proof. by intros s. Qed.

Lemma preserves_panic {A} : preserves R (gopanic : go S A).
Proof. by intros s. Qed.

Lemma preserves_gets {A} (f : S → A) : preserves R (gets f).
Proof. by intros s. Qed.

Lemma preserves_guard c e : preserves R (guard_err c e).
Proof. intros s. unfold guard_err. by destruct c. Qed.

Lemma preserves_wrap {A} msg (m : go S A) : preserves R m → preserves R (wrap msg m).
Proof. intros Hm s. specialize (Hm s). unfold wrap. by destruct (m s) as [s' [a|e|]]. Qed.

Lemma preserves_try {A} (m : go S A) : preserves R m → preserves R (try m).
Proof. intros Hm s. specialize (Hm s). unfold try. by destruct (m s) as [s' [a|e|]]. Qed.

Lemma preserves_for_each {A} (l : list A) body :
  (∀ x, x ∈ l → preserves R (body x)) → preserves R (for_each l body).
Proof.
  induction l as [|x l IH]; intros Hb; [apply preserves_ret|]. simpl.
  apply preserves_bind; [apply Hb; left|]. intros _. apply IH. intros y Hy. apply Hb. by right.
Qed.
End preserves.

#[export] Hint Resolve preserves_bind preserves_ret preserves_lift preserves_throw
  preserves_panic preserves_gets preserves_guard preserves_wrap preserves_try
  preserves_for_each : preserves.

(** [frame]: discharge a frame condition by the structure of the program. *)
Ltac frame :=
  repeat first
    [ progress intros
    | apply preserves_bind; [try exact _|..]
    | progress (auto with nocore preserves typeclass_instances)
    | case_match ].

(** A run whose outcome is known: evaluate the outcome, keep the state. *)
Lemma run_outcome {S A} (p : S * A) a : p.2 = a → p = (p.1, a).
Proof. destruct p. by intros <-. Qed.

(** ** Sums *)

Fixpoint zsum (l : list Z) : Z :=
  match l with [] => 0 | x :: l' => x + zsum l' end.

Lemma zsum_app l k : zsum (l ++ k) = zsum l + zsum k.
Proof. induction l as [|x l IH]; cbn; lia. Qed.

Lemma zsum_nonneg l : Forall (Z.le 0) l → 0 <= zsum l.
Proof. induction 1; cbn; lia. Qed.

Lemma zsum_perm l k : l ≡ₚ k → zsum l = zsum k.
Proof. induction 1; cbn; lia. Qed.

#[global] Instance zsum_proper : Proper ((≡ₚ) ==> (=)) zsum.
Proof. intros l k. apply zsum_perm. Qed.

Lemma zsum_elem_le x l : Forall (Z.le 0) l → x ∈ l → x <= zsum l.
Proof.
  induction 1 as [|y l Hy Hl IH]; intros Hin; [by apply not_elem_of_nil in Hin|].
  pose proof (zsum_nonneg l Hl). cbn. apply elem_of_cons in Hin as [->|Hin]; [lia|].
  specialize (IH Hin). lia.
Qed.

(** The sum of a measure over the values of a finite map. *)
Definition map_zsum `{Countable K} {A} (f : A → Z) (m : gmap K A) : Z :=
  zsum (f <$> (map_to_list m).*2).

Section map_zsum.
Context `{Countable K} {A : Type} (f : A → Z).
Implicit Types m : gmap K A.

Lemma map_zsum_empty : map_zsum f (∅ : gmap K A) = 0.
Proof. unfold map_zsum. by rewrite map_to_list_empty. Qed.

Lemma map_zsum_insert_None m k a :
  m !! k = None → map_zsum f (<[k:=a]> m) = f a + map_zsum f m.
Proof. intros Hk. unfold map_zsum. by rewrite (map_to_list_insert m k a Hk). Qed.

Lemma map_zsum_delete m k a :
  m !! k = Some a → map_zsum f m = f a + map_zsum f (delete k m).
Proof.
  intros Hk. rewrite <- (insert_id m k a Hk) at 1.
  rewrite <- insert_delete_eq. apply map_zsum_insert_None, lookup_delete_eq.
Qed.

Lemma map_zsum_insert_Some m k a b :
  m !! k = Some a → map_zsum f (<[k:=b]> m) = map_zsum f m - f a + f b.
Proof.
  intros Hk. rewrite (map_zsum_delete m k a Hk).
  rewrite <- (insert_delete_eq m k b), map_zsum_insert_None by apply lookup_delete_eq. lia.
Qed.

Lemma map_zsum_zero m : (∀ k a, m !! k = Some a → f a = 0) → map_zsum f m = 0.
Proof.
  induction m as [|k a m Hk IH] using map_ind; intros Hf; [apply map_zsum_empty|].
  rewrite map_zsum_insert_None by done. rewrite (Hf k a) by apply lookup_insert_eq.
  rewrite IH; [done|]. intros k' a' E. apply (Hf k' a'). rewrite lookup_insert_ne; [done|]. by intros ->; rewrite Hk in E.
Qed.

Lemma map_zsum_nonneg m : (∀ k a, m !! k = Some a → 0 <= f a) → 0 <= map_zsum f m.
Proof.
  intros Hf. unfold map_zsum. apply zsum_nonneg, Forall_forall. intros z Hz.
  apply list_elem_of_fmap in Hz as (a & -> & Ha).
  apply list_elem_of_fmap in Ha as ([k a'] & -> & Hk).
  apply elem_of_map_to_list in Hk. eauto.
Qed.

Lemma map_zsum_lookup_le m k a :
  (∀ k a, m !! k = Some a → 0 <= f a) → m !! k = Some a → f a <= map_zsum f m.
Proof.
  intros Hf Hk. rewrite (map_zsum_delete m k a Hk).
  assert (0 <= map_zsum f (delete k m)); [|lia].
  apply map_zsum_nonneg. intros k' a' Hl. apply lookup_delete_Some in Hl as [_ Hl]. eauto.
Qed.
End map_zsum.

(** ** [sort.Slice]

    Go's [sort.Slice(l, less)] is not stable. The model sorts with a merge
    sort; whenever [less] is a strict total order on the elements, every
    sorted permutation is this one ([sort_slice_unique]), so the choice of
    algorithm does not matter. *)

Definition not_after {A} (less : A → A → bool) (x y : A) : Prop := less y x = false.

#[global] Instance not_after_dec {A} (less : A → A → bool) x y :
  Decision (not_after less x y).
Proof. unfold not_after. apply _. Defined.

Definition sort_slice {A} (less : A → A → bool) (l : list A) : list A :=
  merge_sort (not_after less) l.

Class LessOrder {A} (less : A → A → bool) : Prop := {
  less_asym x y : less x y = true → less y x = false;
  less_trans x y z : less y x = false → less z y = false → less z x = false;
}.

Section sort_slice.
Context {A} (less : A → A → bool).

Lemma sort_slice_perm l : sort_slice less l ≡ₚ l.
Proof. apply merge_sort_Permutation. Qed.

Lemma sort_slice_length l : length (sort_slice less l) = length l.
Proof. apply Permutation_length, sort_slice_perm. Qed.

Context `{!LessOrder less}.

Lemma sort_slice_sorted l : StronglySorted (not_after less) (sort_slice less l).
Proof.
  apply Sorted_StronglySorted; [|apply Sorted_merge_sort].
  - intros x y z. apply less_trans.
  - intros x y. destruct (less y x) eqn:E; [|by left]. right. by apply less_asym.
Qed.
End sort_slice.

(** Sorting by a byte-string key. *)
Definition less_by {A} (key : A → bytes) (x y : A) : bool := bytes_lt (key x) (key y).

#[global] Instance less_by_order {A} (key : A → bytes) : LessOrder (less_by key).
Proof.
  split; unfold less_by; [intros x y; apply bytes_lt_asym|intros x y z; apply bytes_lt_trans].
Qed.

(** Two sorted permutations coincide when elements that compare equal are
    equal. *)
Lemma sort_slice_unique {A} (less : A → A → bool) (l k : list A) :
  (∀ x y, x ∈ l → y ∈ l → less x y = false → less y x = false → x = y) →
  StronglySorted (not_after less) l →
  StronglySorted (not_after less) k →
  l ≡ₚ k → l = k.
Proof.
  revert k. induction l as [|x l IH]; intros k Htot Hl Hk Hp.
  - by apply Permutation_nil_l.
  - destruct k as [|y k]; [by apply Permutation_nil_r in Hp|].
    apply StronglySorted_inv in Hl as [Hl Hx]. apply StronglySorted_inv in Hk as [Hk Hy].
    rewrite Forall_forall in Hx, Hy.
    assert (x = y) as ->.
    { assert (x ∈ y :: k) as Hxk by (rewrite <- Hp; apply elem_of_cons; by left).
      assert (y ∈ x :: l) as Hyl by (rewrite Hp; apply elem_of_cons; by left).
      apply elem_of_cons in Hxk as [|Hxk]; [done|].
      apply elem_of_cons in Hyl as [|Hyl]; [done|].
      apply Htot; [apply elem_of_cons; auto..| |]; [by apply Hy|by apply Hx]. }
    f_equal. apply IH; [|done|done|by apply Permutation_cons_inv in Hp].
    intros a b Ha Hb. apply Htot; apply elem_of_cons; auto.
Qed.

(** Any sorted permutation of a list with distinct keys is the one computed. *)
Lemma sort_by_key_unique {A} (key : A → bytes) (l k : list A) :
  (∀ x y, x ∈ l → y ∈ l → key x = key y → x = y) →
  k ≡ₚ l → StronglySorted (not_after (less_by key)) k → k = sort_slice (less_by key) l.
Proof.
  intros Hkey Hp Hs. symmetry. apply (sort_slice_unique (less_by key)).
  - intros x y Hx Hy H1 H2. rewrite sort_slice_perm in Hx, Hy.
    apply Hkey; [done..|]. by apply bytes_lt_total.
  - apply sort_slice_sorted, _.
  - done.
  - by rewrite sort_slice_perm.
Qed.

(** ** Hints and small tactics shared by the components *)

Create HintDb dsn.
Create Rewrite HintDb dsn_len.
#[export] Hint Resolve u64_is_u64 unbe_fits length_be arr_length b2z_range : dsn.
#[export] Hint Rewrite @length_app @length_be @arr_length @length_replicate : dsn_len.

(** [len]: arithmetic about lengths of concatenated byte strings. *)
Ltac len := autorewrite with dsn_len in *; simpl in *; lia.

(** [skip]: drop whole fields in front of a concatenation. *)
Ltac skip :=
  repeat (rewrite drop_app_ge by (rewrite ?length_be, ?arr_length; lia);
          rewrite ?length_be, ?arr_length; cbn [Nat.sub]; rewrite ?drop_0).
