(* ===== verification/Codec.v ===== *)
(** * Binary encoding

    [io.Writer] and [io.Reader] over byte buffers ([bytes.Buffer],
    [bytes.Reader]), the fixed-width big-endian primitives of
    [encoding/binary], and the length-prefixed fields of types/serializer.go.

    A writer is a [go bytes unit] call whose state is the buffer written so
    far; a reader is a [go bytes A] call whose state is the input that
    remains. [emits] and [parses] are the specifications that compose along
    sequences of calls: round trips of records are obtained from the round
    trips of their fields by [emit] and [parse]. *)

From S2P Require Import Prelude.

(** ** Writers *)

(** [w.Write(data)] on a [bytes.Buffer]: appends, never fails. *)
Definition Write (data : bytes) : go bytes unit := λ buf, (buf ++ data, Ok tt).

(** [binary.Write(w, binary.BigEndian, v)] for an unsigned integer of [n] bytes. *)
Definition write_uint (n : nat) (v : Z) : go bytes unit := Write (be n v).

(** ** Readers *)

(** [io.ReadFull(r, buf)] with [len(buf) = n]: all [n] bytes, or [EOF] when
    nothing could be read, or [ErrUnexpectedEOF] after a partial read (which
    consumes the input). *)
Definition ReadFull (n : nat) : go bytes bytes := λ inp,
  if decide (n <= length inp)%nat then (drop n inp, Ok (take n inp))
  else match inp with
       | [] => ([], Err EOF)
       | _ => ([], Err ErrUnexpectedEOF)
       end.

(** [binary.Read(r, binary.BigEndian, &v)] for an unsigned integer of [n] bytes. *)
Definition read_uint (n : nat) : go bytes Z := bs ← ReadFull n; mret (unbe bs).

(** [io.ReadFull(r, a[:])] into a fixed-size array. *)
Definition read_arr (n : nat) : go bytes (arr n) := bs ← ReadFull n; mret (arr_copy n bs).

(** [Read] of [bytes.Reader] into a slice of length [n > 0]: as many bytes as
    there are, [EOF] only at the end. *)
Definition read_some (n : nat) : go bytes bytes := λ inp,
  match inp with
  | [] => ([], Err EOF)
  | _ => (drop n inp, Ok (take n inp))
  end.

(** Run a writer on a fresh [bytes.Buffer]. *)
Definition run_writer (m : go bytes unit) : bytes * res unit := m [].

(** Run a reader on [bytes.NewReader(data)]. *)
Definition run_reader {A} (m : go bytes A) (data : bytes) : res A := (m data).2.

Lemma ReadFull_length n inp rest bs : ReadFull n inp = (rest, Ok bs) → length bs = n.
Proof.
  unfold ReadFull. case_decide; [intros [= _ <-]; rewrite length_take; lia|]. by destruct inp.
Qed.

Lemma read_uint_fits n inp rest v : read_uint n inp = (rest, Ok v) → fits n v.
Proof.
  unfold read_uint. intros Hr. go_step Hr. go_inv Hr. by eapply unbe_fits, ReadFull_length.
Qed.

(** ** types/serializer.go *)

Definition MaxVarBytesLength : Z := 1 * 1024 * 1024.

Definition writeVarBytes (data : bytes) : go bytes unit :=
  guard_err (MaxVarBytesLength <? Z.of_nat (length data)) ErrInvalidEncoding;;
  Write (be 4 (u32 (Z.of_nat (length data))));;
  Write data.

Definition readVarBytes : go bytes bytes :=
  lengthBuf ← ReadFull 4;
  guard_err (negb (bool_decide (length lengthBuf = 4%nat))) ErrInvalidEncoding;;
  let len := unbe lengthBuf in
  guard_err (MaxVarBytesLength <? len) ErrPayloadTooLarge;;
  data ← ReadFull (Z.to_nat len);
  guard_err (negb (bool_decide (u32 (Z.of_nat (length data)) = len))) ErrInvalidEncoding;;
  mret data.

(** ** Specifications *)

(** The call appends exactly [bs] and succeeds, whatever the buffer holds. *)
Definition emits (m : go bytes unit) (bs : bytes) : Prop :=
  ∀ buf, m buf = (buf ++ bs, Ok tt).

(** [make([]T, count)] and [make([]T, 0, count)] panic when the elements
    exceed the address space of 2^48 bytes. *)
Definition makeslice (elemSize count : Z) : go bytes unit :=
  if 2 ^ 48 <? elemSize * count then gopanic else mret tt.

(** The call consumes exactly the prefix [bs] and returns [a], whatever follows. *)
Definition parses {A} (m : go bytes A) (bs : bytes) (a : A) : Prop :=
  ∀ rest, m (bs ++ rest) = (rest, Ok a).

(** An encoder and a decoder of one record: on well-formed values the bytes
    that the encoder appends are read back by the decoder. *)
Class RoundTrip {A} (wf : A → Prop) (enc : A → go bytes unit) (dec : go bytes A) : Prop :=
  round_trip a : wf a → ∃ bs, emits (enc a) bs ∧ parses dec bs a.

Create HintDb codec.

Section emits.
Lemma emits_Write bs : emits (Write bs) bs.
Proof. done. Qed.

Lemma emits_uint n v : emits (write_uint n v) (be n v).
Proof. done. Qed.

Lemma emits_ret : emits (mret tt) [].
Proof. intros buf. by rewrite app_nil_r. Qed.

Lemma emits_bind m k bs bs' : emits m bs → emits k bs' → emits (m ;; k) (bs ++ bs').
Proof. intros Hm Hk buf. unfold mbind, go_bind. by rewrite Hm, Hk, app_assoc. Qed.

Lemma emits_guard c e k bs : c = false → emits k bs → emits (guard_err c e ;; k) bs.
Proof. intros -> Hk buf. apply Hk. Qed.

Lemma emits_wrap msg m bs : emits m bs → emits (wrap msg m) bs.
Proof. intros Hm buf. unfold wrap. by rewrite Hm. Qed.

Lemma emits_fun m bs bs' : emits m bs → emits m bs' → bs = bs'.
Proof. intros H1 H2. specialize (H1 []). rewrite H2 in H1. by injection H1. Qed.

Lemma emits_varbytes data :
  Z.of_nat (length data) <= MaxVarBytesLength →
  emits (writeVarBytes data) (be 4 (Z.of_nat (length data)) ++ data).
Proof.
  intros Hlen. apply emits_guard; [lia|].
  unfold u32. rewrite Z.mod_small by (unfold MaxVarBytesLength in *; lia).
  apply emits_bind; done.
Qed.

Lemma emits_for_each {A} (f : A → go bytes unit) (g : A → bytes) l :
  Forall (λ x, emits (f x) (g x)) l → emits (for_each l f) (concat (g <$> l)).
Proof.
  induction 1; cbn [for_each]; [apply emits_ret|]. by apply emits_bind.
Qed.
End emits.

Section parses.
Lemma ReadFull_app n bs rest :
  length bs = n → ReadFull n (bs ++ rest) = (rest, Ok bs).
Proof.
  intros <-. unfold ReadFull. rewrite length_app, decide_True by lia.
  by rewrite drop_app_length, take_app_length.
Qed.

Lemma parses_ReadFull n bs : length bs = n → parses (ReadFull n) bs bs.
Proof. intros H rest. by apply ReadFull_app. Qed.

Lemma parses_ret {A} (a : A) : parses (mret a) [] a.
Proof. done. Qed.

Lemma parses_bind {A B} (m : go bytes A) (k : A → go bytes B) bs bs' a b :
  parses m bs a → parses (k a) bs' b → parses (m ≫= k) (bs ++ bs') b.
Proof.
  intros Hm Hk rest. rewrite <- app_assoc. unfold mbind, go_bind. by rewrite Hm.
Qed.

Lemma parses_bind_last {A B} (m : go bytes A) (k : A → go bytes B) bs a b :
  parses m bs a → parses (k a) [] b → parses (m ≫= k) bs b.
Proof. intros Hm Hk. rewrite <- (app_nil_r bs). eapply parses_bind; eauto. Qed.

Lemma parses_guard {B} c e (k : unit → go bytes B) bs b :
  c = false → parses (k tt) bs b → parses (guard_err c e ≫= k) bs b.
Proof. intros -> Hk rest. apply Hk. Qed.

Lemma parses_wrap {A} msg (m : go bytes A) bs a : parses m bs a → parses (wrap msg m) bs a.
Proof. intros Hm rest. unfold wrap. by rewrite Hm. Qed.

Lemma parses_uint n v : fits n v → parses (read_uint n) (be n v) v.
Proof.
  intros Hv. unfold read_uint. eapply parses_bind_last.
  - apply parses_ReadFull, length_be.
  - rewrite unbe_be_small by done. apply parses_ret.
Qed.

Lemma parses_arr n (a : arr n) : parses (read_arr n) a a.
Proof.
  unfold read_arr. eapply parses_bind_last.
  - apply parses_ReadFull, arr_length.
  - rewrite arr_copy_arr. apply parses_ret.
Qed.

Lemma parses_varbytes data :
  Z.of_nat (length data) <= MaxVarBytesLength →
  parses readVarBytes (be 4 (Z.of_nat (length data)) ++ data) data.
Proof.
  intros Hlen. unfold readVarBytes.
  assert (fits 4 (Z.of_nat (length data))) as Hf
    by (unfold fits, MaxVarBytesLength in *; change (256 ^ Z.of_nat 4) with (2^32); lia).
  eapply parses_bind; [apply parses_ReadFull, length_be|].
  rewrite length_be, bool_decide_true by done. apply parses_guard; [done|].
  rewrite unbe_be_small by done. apply parses_guard; [lia|].
  rewrite Nat2Z.id. eapply parses_bind_last; [by apply parses_ReadFull|].
  apply parses_guard.
  - rewrite bool_decide_true; [done|]. unfold u32. apply Z.mod_small. apply Hf.
  - apply parses_ret.
Qed.

Lemma parses_repeat {A} (m : go bytes A) (g : A → bytes) l :
  Forall (λ x, parses m (g x) x) l →
  parses (repeat_go (length l) m) (concat (g <$> l)) l.
Proof.
  induction 1 as [|x l Hx Hl IH]; cbn [repeat_go length]; [apply parses_ret|].
  rewrite fmap_cons; cbn [concat]. eapply parses_bind; [exact Hx|].
  eapply parses_bind_last; [exact IH|]. apply parses_ret.
Qed.
End parses.

(** A step that reads nothing. *)
Lemma parses_skip {A B} (m : go bytes A) (k : A → go bytes B) bs a b :
  parses m [] a → parses (k a) bs b → parses (m ≫= k) bs b.
Proof. intros Hm Hk rest. unfold mbind, go_bind. rewrite (Hm (bs ++ rest) : m (bs ++ rest) = _). apply Hk. Qed.

Lemma parses_makeslice n c : n * c <= 2 ^ 48 → parses (makeslice n c) [] tt.
Proof. intros Hc rest. unfold makeslice. by rewrite (proj2 (Z.ltb_ge _ _)). Qed.

(** The bytes a writer appends. *)
Definition wire (m : go bytes unit) : bytes := (m []).1.

Section round_trip.
Context {A} {wf : A → Prop} {enc : A → go bytes unit} {dec : go bytes A}.
Context `{!RoundTrip wf enc dec}.

Lemma rt_emits a : wf a → emits (enc a) (wire (enc a)).
Proof. intros (bs & He & _)%round_trip. unfold wire. by rewrite (He []). Qed.

Lemma rt_parses a : wf a → parses dec (wire (enc a)) a.
Proof. intros (bs & He & Hp)%round_trip. unfold wire. by rewrite (He []). Qed.

Lemma rt_emits_list l :
  Forall wf l → emits (for_each l enc) (concat ((λ a, wire (enc a)) <$> l)).
Proof.
  intros Hl. apply (emits_for_each _ (λ a, wire (enc a))).
  eapply Forall_impl; [exact Hl|]. apply rt_emits.
Qed.

Lemma rt_parses_list l :
  Forall wf l →
  parses (repeat_go (length l) dec) (concat ((λ a, wire (enc a)) <$> l)) l.
Proof.
  intros Hl. apply (parses_repeat _ (λ a, wire (enc a))).
  eapply Forall_impl; [exact Hl|]. apply rt_parses.
Qed.

(** Distinct well-formed values have distinct encodings. *)
Lemma rt_inj a b : wf a → wf b → wire (enc a) = wire (enc b) → a = b.
Proof.
  intros Ha Hb H. pose proof (rt_parses a Ha []) as P. rewrite H, (rt_parses b Hb []) in P.
  by injection P.
Qed.
End round_trip.

(** [emit] and [parse] run through the body of an encoder or a decoder, field
    by field, leaving the side conditions on the values to the [codec]
    database. *)
#[export] Hint Resolve emits_Write emits_uint emits_varbytes emits_ret : codec.
#[export] Hint Resolve parses_ret parses_arr parses_uint parses_varbytes : codec.
#[export] Hint Resolve parses_ReadFull : codec.
#[export] Hint Extern 1 (length _ = _) => (len || done) : codec.

Ltac emit :=
  repeat first
    [ solve [eauto with codec]
    | eapply emits_guard; [solve [eauto with codec | lia]|]
    | eapply emits_bind; [solve [eauto with codec | lia]|] ].

Ltac parse :=
  repeat first
    [ eapply parses_guard; [solve [eauto with codec | lia]|]
    | eapply parses_bind; [solve [eauto with codec | lia]|]; cbv beta
    | eapply parses_bind_last; [solve [eauto with codec | lia]|]; cbv beta
    | solve [eauto with codec] ].
