(* ===== verification/Sha256.v ===== *)
(** * SHA-256 (package crypto/sha256)

    The hash function of the standard library that the program uses, as
    specified in FIPS 180-4, executable. Nothing below relies on
    cryptographic properties: theorems about hashed data are stated about the
    hashed bytes or up to a collision. *)

From S2P Require Import Prelude.

Definition w32 (z : Z) : Z := Z.land z 4294967295.

Definition rotr (n x : Z) : Z := w32 (Z.lor (Z.shiftr x n) (Z.shiftl x (32 - n))).

Definition Ch (x y z : Z) : Z := Z.lxor (Z.land x y) (Z.land (Z.lxor x 4294967295) z).
Definition Maj (x y z : Z) : Z := Z.lxor (Z.lxor (Z.land x y) (Z.land x z)) (Z.land y z).
Definition bsig0 (x : Z) : Z := Z.lxor (Z.lxor (rotr 2 x) (rotr 13 x)) (rotr 22 x).
Definition bsig1 (x : Z) : Z := Z.lxor (Z.lxor (rotr 6 x) (rotr 11 x)) (rotr 25 x).
Definition ssig0 (x : Z) : Z := Z.lxor (Z.lxor (rotr 7 x) (rotr 18 x)) (Z.shiftr x 3).
Definition ssig1 (x : Z) : Z := Z.lxor (Z.lxor (rotr 17 x) (rotr 19 x)) (Z.shiftr x 10).

(** The constants as FIPS 180-4 defines them (4.2.2, 5.3.3): the first 32
    bits of the fractional parts of the cube roots of the first 64 primes, and
    of the square roots of the first eight. *)

Definition is_prime (n : Z) : bool :=
  forallb (λ d, negb (n mod Z.of_nat d =? 0)) (seq 2 (Z.to_nat n - 2)).

Definition primes (count : nat) : list Z :=
  take count (List.filter is_prime (Z.of_nat <$> seq 2 310)).

(** The integer cube root, one bit at a time. *)
Fixpoint cube_root (bits : nat) (n : Z) (r : Z) : Z :=
  match bits with
  | O => r
  | S b =>
      let r' := r + 2 ^ Z.of_nat b in
      cube_root b n (if r' * r' * r' <=? n then r' else r)
  end.

Definition K256 : list Z :=
  Eval vm_compute in (λ p, w32 (cube_root 40 (p * 2 ^ 96) 0)) <$> primes 64.

Record hstate := mk_hstate { h0 : Z; h1 : Z; h2 : Z; h3 : Z; h4 : Z; h5 : Z; h6 : Z; h7 : Z }.

Definition hstate_of (l : list Z) : hstate :=
  match l with
  | [a; b; c; d; e; f; g; h] => mk_hstate a b c d e f g h
  | _ => mk_hstate 0 0 0 0 0 0 0 0
  end.

Definition H256 : hstate :=
  Eval vm_compute in hstate_of ((λ p, w32 (Z.sqrt (p * 2 ^ 64))) <$> primes 8).

Definition words_of (l : bytes) : list Z :=
  let fix go (fuel : nat) (l : bytes) : list Z :=
    match fuel, l with
    | S f, a :: b :: c :: d :: l' => unbe [a; b; c; d] :: go f l'
    | _, _ => []
    end in go (length l) l.

(** The message schedule: [window] holds the last sixteen words. *)
Fixpoint schedule (n : nat) (window : list Z) : list Z :=
  match n with
  | O => []
  | S n' =>
      match window with
      | w0 :: rest =>
          let wnew := w32 (ssig1 (nth 14 window 0) + nth 9 window 0 + ssig0 (nth 1 window 0) + w0) in
          w0 :: schedule n' (rest ++ [wnew])
      | [] => []
      end
  end.

Definition round (s : hstate) (kw : Z * Z) : hstate :=
  let t1 := w32 (h7 s + bsig1 (h4 s) + Ch (h4 s) (h5 s) (h6 s) + kw.1 + kw.2) in
  let t2 := w32 (bsig0 (h0 s) + Maj (h0 s) (h1 s) (h2 s)) in
  mk_hstate (w32 (t1 + t2)) (h0 s) (h1 s) (h2 s) (w32 (h3 s + t1)) (h4 s) (h5 s) (h6 s).

Definition compress (s : hstate) (block : bytes) : hstate :=
  let ws := schedule 64 (words_of block) in
  let r := fold_left round (zip K256 ws) s in
  mk_hstate (w32 (h0 s + h0 r)) (w32 (h1 s + h1 r)) (w32 (h2 s + h2 r)) (w32 (h3 s + h3 r))
            (w32 (h4 s + h4 r)) (w32 (h5 s + h5 r)) (w32 (h6 s + h6 r)) (w32 (h7 s + h7 r)).

Definition pad (msg : bytes) : bytes :=
  let n := Z.of_nat (length msg) in
  msg ++ x80 :: replicate (Z.to_nat ((55 - n) mod 64)) x00 ++ be 8 (8 * n).

Fixpoint blocks (fuel : nat) (s : hstate) (l : bytes) : hstate :=
  match fuel, l with
  | S f, _ :: _ => blocks f (compress s (take 64 l)) (drop 64 l)
  | _, _ => s
  end.

Definition digest (s : hstate) : bytes :=
  be 4 (h0 s) ++ be 4 (h1 s) ++ be 4 (h2 s) ++ be 4 (h3 s) ++
  be 4 (h4 s) ++ be 4 (h5 s) ++ be 4 (h6 s) ++ be 4 (h7 s).

(** [sha256.Sum256]. *)
Definition Sum256 (msg : bytes) : arr 32 :=
  let p := pad msg in
  arr_copy 32 (digest (blocks (S (length p / 64)) H256 p)).

(** The test vectors of the standard: the empty message, a one-block message
    and a two-block message. *)
Example Sum256_empty :
  unbe (Sum256 []) = 0xe3b0c44298fc1c149afbf4c8996fb92427ae41e4649b934ca495991b7852b855.
Proof. vm_compute. reflexivity. Qed.

Example Sum256_abc :
  unbe (Sum256 [x61; x62; x63]) =
  0xba7816bf8f01cfea414140de5dae2223b00361a396177a9cb410ff61f20015ad.
Proof. vm_compute. reflexivity. Qed.

Example Sum256_two_blocks :
  unbe (Sum256 (replicate 64 x61)) =
  0xffe054fe7ae0cb6dc65c3af9b61d5209f439851db43d0ba5997337df154668eb.
Proof. vm_compute. reflexivity. Qed.

#[global] Opaque Sum256.
