(* ===== verification/Address.v ===== *)
(** * Addresses and hashes (types/address.go, types/hash.go, types/consensus_id.go)

    20-byte addresses, their Base58Check rendering and its parser, 32-byte
    hashes, and the big-endian integer helpers of types/address.go. Go
    strings are Coq [string]s (sequences of bytes); ranging over a string
    decodes UTF-8, as the language does. *)

From S2P Require Import Prelude Codec Sha256.
From Stdlib Require Strings.String.

(** ** Strings *)

Definition str_bytes (s : string) : bytes := String.list_byte_of_string s.
Definition bytes_str (l : bytes) : string := String.string_of_list_byte l.

Lemma str_bytes_str l : str_bytes (bytes_str l) = l.
Proof. apply String.list_byte_of_string_of_list_byte. Qed.

Lemma bytes_str_bytes s : bytes_str (str_bytes s) = s.
Proof. apply String.string_of_list_byte_of_string. Qed.

Lemma bytes_str_inj l k : bytes_str l = bytes_str k → l = k.
Proof. intros H. by rewrite <- (str_bytes_str l), <- (str_bytes_str k), H. Qed.

(** [for _, c := range s]: the runes of [s]; an invalid UTF-8 sequence yields
    U+FFFD for one byte. *)
Definition cont (lo hi : Z) (b : byte) : bool := (lo <=? b2z b) && (b2z b <=? hi).

Definition rune_at (l : bytes) : Z * nat :=
  match l with
  | [] => (65533, 1%nat)
  | b0 :: rest =>
      let c0 := b2z b0 in
      if c0 <? 128 then (c0, 1%nat)
      else if (194 <=? c0) && (c0 <=? 223) then
        match rest with
        | b1 :: _ => if cont 128 191 b1
                     then (Z.lor (Z.shiftl (Z.land c0 31) 6) (Z.land (b2z b1) 63), 2%nat)
                     else (65533, 1%nat)
        | _ => (65533, 1%nat)
        end
      else if (224 <=? c0) && (c0 <=? 239) then
        match rest with
        | b1 :: b2 :: _ =>
            if cont (if c0 =? 224 then 160 else 128) (if c0 =? 237 then 159 else 191) b1
               && cont 128 191 b2
            then (Z.lor (Z.shiftl (Z.land c0 15) 12)
                   (Z.lor (Z.shiftl (Z.land (b2z b1) 63) 6) (Z.land (b2z b2) 63)), 3%nat)
            else (65533, 1%nat)
        | _ => (65533, 1%nat)
        end
      else if (240 <=? c0) && (c0 <=? 244) then
        match rest with
        | b1 :: b2 :: b3 :: _ =>
            if cont (if c0 =? 240 then 144 else 128) (if c0 =? 244 then 143 else 191) b1
               && cont 128 191 b2 && cont 128 191 b3
            then (Z.lor (Z.shiftl (Z.land c0 7) 18)
                   (Z.lor (Z.shiftl (Z.land (b2z b1) 63) 12)
                     (Z.lor (Z.shiftl (Z.land (b2z b2) 63) 6) (Z.land (b2z b3) 63))), 4%nat)
            else (65533, 1%nat)
        | _ => (65533, 1%nat)
        end
      else (65533, 1%nat)
  end.

Fixpoint runes_fuel (fuel : nat) (l : bytes) : list Z :=
  match fuel, l with
  | S f, _ :: _ => let '(r, n) := rune_at l in r :: runes_fuel f (drop n l)
  | _, _ => []
  end.

(** Every rune takes at least one byte: [length] is enough fuel. *)
Definition runes (l : bytes) : list Z := runes_fuel (length l) l.

Definition is_ascii (b : byte) : Prop := b2z b < 128.

Lemma runes_ascii l : Forall is_ascii l → runes l = b2z <$> l.
Proof.
  unfold runes. induction 1 as [|b l Hb Hl IH]; [done|].
  cbn [length runes_fuel rune_at]. unfold is_ascii in Hb.
  destruct (Z.ltb_spec (b2z b) 128); [|lia]. rewrite fmap_cons. f_equal. apply IH.
Qed.

(** ** Addresses and hashes *)

Abbreviation Address := (arr 20).
Abbreviation Hash := (arr 32).
Definition ZeroHash : Hash := arr_zero 32.
Definition ZeroAddress : Address := arr_zero 20.

Definition AddressFromBytes (b : bytes) : res Address :=
  if bool_decide (length b = 20%nat) then Ok (arr_copy 20 b) else Err ErrInvalidAddress.

Lemma AddressFromBytes_arr (a : Address) : AddressFromBytes a = Ok a.
Proof.
  unfold AddressFromBytes. rewrite bool_decide_true by apply arr_length. by rewrite arr_copy_arr.
Qed.

Definition Address_Encode (a : Address) : go bytes unit := Write a.
Definition Address_Decode : go bytes Address := read_arr 20.

Definition Hash_IsZero (h : Hash) : bool := forallb (λ b, bool_decide (b = x00)) (arr_bytes h).

(** [DeriveConsensusID]: the first 20 bytes of the hash of the public key. *)
Definition DeriveConsensusIDFromBytes (pubKey : bytes) : Address :=
  arr_copy 20 (take 20 (Sum256 pubKey)).
Definition DeriveConsensusID (pubKey : arr 32) : Address :=
  DeriveConsensusIDFromBytes pubKey.

(** ** Base58 *)

Definition base58Alphabet : bytes :=
  str_bytes "123456789ABCDEFGHJKLMNPQRSTUVWXYZabcdefghijkmnopqrstuvwxyz".

Definition alpha (i : Z) : byte := nth (Z.to_nat i) base58Alphabet x00.

(** [bytes.IndexByte]: [None] for -1. *)
Fixpoint IndexByte (l : bytes) (b : byte) : option Z :=
  match l with
  | [] => None
  | c :: l' => if decide (c = b) then Some 0 else Z.succ <$> IndexByte l' b
  end.

Fixpoint count_leading (P : Z → bool) (l : list Z) : nat :=
  match l with
  | x :: l' => if P x then S (count_leading P l') else O
  | [] => O
  end.

(** The digit loop [for num.Sign() > 0], least significant digit first. *)
Fixpoint base58_digits (fuel : nat) (num : Z) : bytes :=
  match fuel with
  | O => []
  | S f => if 0 <? num then alpha (num mod 58) :: base58_digits f (num / 58) else []
  end.

(** Each step divides by 58, so [1 + log2 num] steps reach zero. *)
Definition base58_fuel (num : Z) : nat := S (Z.to_nat (Z.log2 num)).

Definition base58Encode (data : bytes) : string :=
  let zeros := count_leading (λ c, c =? 0) (b2z <$> data) in
  let num := unbe data in
  let result := rev (base58_digits (base58_fuel num) num) in
  let result := replicate zeros x31 ++ result in
  match result with
  | [] => "1"
  | _ => bytes_str result
  end.

Definition base58_step (num c : Z) : Z :=
  match IndexByte base58Alphabet (z2b c) with
  | None => num
  | Some idx => num * 58 + idx
  end.

Definition base58Decode (s : string) : bytes :=
  let rs := runes (str_bytes s) in
  let zeros := count_leading (λ c, c =? 49) rs in
  let num := fold_left base58_step rs 0 in
  replicate zeros x00 ++ big_bytes num.

Definition checksum (data : bytes) : bytes := take 4 (Sum256 (Sum256 data)).

Definition base58CheckEncode (payload : bytes) (version : byte) : string :=
  let data := version :: payload in
  base58Encode (data ++ checksum data).

Definition base58CheckDecode (s : string) : res bytes :=
  let data := base58Decode s in
  if bool_decide (length data < 5)%nat then Err ErrInvalidAddress else
  let payload := take (length data - 4) data in
  let check := drop (length data - 4) data in
  if bool_decide (check = checksum payload) then Ok payload else Err ErrInvalidAddress.

Definition Address_String (a : Address) : string := base58CheckEncode a x00.

Definition ParseAddress (s : string) : res Address :=
  if bool_decide (s = "") then Err ErrInvalidAddress else
  payload ← base58CheckDecode s;
  if bool_decide (length payload = 21%nat) then AddressFromBytes (drop 1 payload)
  else Err ErrInvalidAddress.

(** ** Integer helpers of types/address.go *)

Definition ReadUint64 : go bytes Z := read_uint 8.
Definition WriteUint64 (v : Z) : go bytes unit := Write (be 8 v).
Definition ReadUint32 : go bytes Z := read_uint 4.
Definition WriteUint32 (v : Z) : go bytes unit := Write (be 4 v).
Definition ReadUint16 : go bytes Z := read_uint 2.
Definition WriteUint16 (v : Z) : go bytes unit := Write (be 2 v).
Definition ReadBytesFixed (n : nat) : go bytes bytes := ReadFull n.
Definition WriteBytesFixed (data : bytes) : go bytes unit :=
  match data with [] => mret tt | _ => Write data end.

(** The all-zero address renders as in Bitcoin. *)
Example zero_address_string : Address_String ZeroAddress = "1111111111111111111114oLvT2".
Proof. vm_compute. reflexivity. Qed.

(** ** Base58 round trip *)

Lemma alpha_index i : 0 <= i < 58 → IndexByte base58Alphabet (alpha i) = Some i.
Proof.
  intros Hi.
  assert (forallb (λ n, bool_decide (IndexByte base58Alphabet (alpha (Z.of_nat n)) = Some (Z.of_nat n)))
    (seq 0 58) = true) as H by (vm_compute; reflexivity).
  rewrite forallb_forall in H. specialize (H (Z.to_nat i)).
  rewrite Z2Nat.id in H by lia. apply bool_decide_eq_true in H; [done|].
  apply in_seq. lia.
Qed.

Lemma alpha_ascii i : 0 <= i < 58 → is_ascii (alpha i).
Proof.
  intros Hi. unfold is_ascii.
  assert (forallb (λ b, b2z b <? 128) base58Alphabet = true) as H by (vm_compute; reflexivity).
  rewrite forallb_forall in H. apply Z.ltb_lt, H. unfold alpha.
  apply nth_In. change (List.length base58Alphabet) with 58%nat. lia.
Qed.

Lemma alpha_one i : 0 <= i < 58 → b2z (alpha i) = 49 → i = 0.
Proof.
  intros Hi H1. pose proof (alpha_index i Hi) as Hx.
  assert (alpha i = alpha 0) as E.
  { apply b2z_inj. rewrite H1. reflexivity. }
  rewrite E, (alpha_index 0) in Hx by lia. by injection Hx.
Qed.

Lemma base58_step_alpha n i : 0 <= i < 58 → base58_step n (b2z (alpha i)) = n * 58 + i.
Proof. intros Hi. unfold base58_step. by rewrite z2b_b2z, alpha_index. Qed.

Definition digit_char (b : byte) : Prop := ∃ i, 0 <= i < 58 ∧ b = alpha i.

Lemma base58_digits_chars fuel num : Forall digit_char (base58_digits fuel num).
Proof.
  revert num. induction fuel as [|f IH]; intros num; cbn; [done|].
  destruct (0 <? num); [|done]. constructor; [|apply IH].
  exists (num mod 58). split; [apply Z.mod_pos_bound; lia|done].
Qed.

Lemma base58_digits_spec fuel num :
  0 <= num < 2 ^ Z.of_nat fuel →
  fold_right (λ c n, base58_step n (b2z c)) 0 (base58_digits fuel num) = num.
Proof.
  revert num. induction fuel as [|f IH]; intros num [Hlo Hhi]; cbn [base58_digits fold_right].
  - change (2 ^ Z.of_nat 0) with 1 in Hhi. lia.
  - rewrite Nat2Z.inj_succ, Z.pow_succ_r in Hhi by lia.
    destruct (Z.ltb_spec 0 num); [|cbn; lia].
    cbn [fold_right]. rewrite base58_step_alpha by (apply Z.mod_pos_bound; lia).
    rewrite IH.
    + pose proof (Z.div_mod num 58). lia.
    + split; [apply Z.div_pos; lia|]. apply Z.div_lt_upper_bound; lia.
Qed.

Lemma base58_digits_last fuel num b :
  0 <= num < 2 ^ Z.of_nat fuel →
  last (base58_digits fuel num) = Some b → b2z b <> 49.
Proof.
  revert num. induction fuel as [|f IH]; intros num [Hlo Hhi]; cbn [base58_digits]; [done|].
  rewrite Nat2Z.inj_succ, Z.pow_succ_r in Hhi by lia.
  destruct (Z.ltb_spec 0 num); [|done].
  destruct (base58_digits f (num / 58)) as [|c l] eqn:E.
  - intros [= <-] H1. apply alpha_one in H1; [|apply Z.mod_pos_bound; lia].
    assert (0 <= num / 58 < 2 ^ Z.of_nat f) as Hq
      by (split; [apply Z.div_pos; lia|apply Z.div_lt_upper_bound; lia]).
    pose proof (base58_digits_spec f _ Hq) as Hs. rewrite E in Hs. cbn in Hs.
    pose proof (Z.div_mod num 58). lia.
  - intros Hl. eapply (IH (num / 58)); [|by rewrite E].
    split; [apply Z.div_pos; lia|]. apply Z.div_lt_upper_bound; lia.
Qed.

Lemma base58_fuel_enough num : 0 <= num → num < 2 ^ Z.of_nat (base58_fuel num).
Proof.
  intros H. unfold base58_fuel. destruct (Z.eq_dec num 0) as [->|]; [done|].
  rewrite Nat2Z.inj_succ, Z2Nat.id by apply Z.log2_nonneg.
  apply Z.log2_spec. lia.
Qed.

Lemma count_leading_app P l k :
  Forall (λ x, P x = true) l → (∀ x, head k = Some x → P x = false) →
  count_leading P (l ++ k) = length l.
Proof.
  induction 1 as [|x l Hx Hl IH]; intros Hk.
  - destruct k as [|x k]; [done|]. cbn. by rewrite (Hk x eq_refl).
  - cbn. rewrite Hx. cbn. f_equal. by apply IH.
Qed.

(** Every byte string is a run of zero bytes followed by the minimal encoding
    of its value. *)
Lemma leading_zeros_split data :
  data = replicate (count_leading (λ c, c =? 0) (b2z <$> data)) x00 ++ big_bytes (unbe data).
Proof.
  induction data as [|b data IH]; [done|].
  rewrite fmap_cons. cbn [count_leading]. destruct (Z.eqb_spec (b2z b) 0) as [H0|H0].
  - cbn [replicate app]. f_equal.
    + apply b2z_inj. by rewrite H0.
    + rewrite unbe_cons, H0. cbn. exact IH.
  - cbn [replicate app]. unfold big_bytes. symmetry.
    enough (nat_bytelen (unbe (b :: data)) = length (b :: data)) as -> by (by apply be_unbe).
    apply Nat.le_antisymm; [by apply nat_bytelen_le, unbe_fits|].
    pose proof (nat_bytelen_fits (unbe (b :: data)) ltac:(apply unbe_range)) as [_ Hlt].
    destruct (Nat.le_gt_cases (length (b :: data)) (nat_bytelen (unbe (b :: data)))) as [|Hgt];
      [done|].
    assert (256 ^ Z.of_nat (nat_bytelen (unbe (b :: data))) <= 256 ^ Z.of_nat (length data)) as Hle
      by (apply Z.pow_le_mono_r; simpl in Hgt; lia).
    rewrite unbe_cons in Hlt at 1.
    pose proof (b2z_range b). pose proof (unbe_range data). nia.
Qed.

Lemma fold_step_ones n l :
  fold_left base58_step (replicate n 49 ++ l) 0 = fold_left base58_step l 0.
Proof. induction n as [|n IH]; [done|]. cbn [replicate app fold_left]. exact IH. Qed.

Lemma base58Decode_Encode data : data <> [] → base58Decode (base58Encode data) = data.
Proof.
  intros Hne. unfold base58Encode.
  set (zeros := count_leading (λ c, c =? 0) (b2z <$> data)).
  set (num := unbe data). set (ds := base58_digits (base58_fuel num) num).
  assert (0 <= num < 2 ^ Z.of_nat (base58_fuel num)) as Hnum.
  { pose proof (unbe_range data). split; [lia|apply base58_fuel_enough; lia]. }
  pose proof (base58_digits_spec _ _ Hnum) as Hspec. fold ds in Hspec.
  assert (replicate zeros x31 ++ rev ds <> []) as Hres.
  { intros [Hz Hd]%app_eq_nil. apply Hne. rewrite (leading_zeros_split data).
    fold zeros num. destruct zeros; [|done].
    apply (f_equal (@rev byte)) in Hd. rewrite rev_involutive in Hd. rewrite Hd in Hspec.
    cbn in Hspec. by rewrite <- Hspec. }
  destruct (replicate zeros x31 ++ rev ds) as [|c0 rs] eqn:E; [done|]. rewrite <- E. clear Hres.
  unfold base58Decode. rewrite str_bytes_str, runes_ascii.
  2:{ apply Forall_app; split; [by apply Forall_replicate|].
      apply Forall_rev. eapply Forall_impl; [apply base58_digits_chars|].
      intros b (i & Hi & ->). by apply alpha_ascii. }
  rewrite fmap_app, fmap_replicate. change (b2z x31) with 49.
  rewrite count_leading_app.
  - rewrite length_replicate.
    rewrite fold_step_ones.
    assert (∀ l n, fold_left base58_step (b2z <$> l) n = fold_left (λ n c, base58_step n (b2z c)) l n)
      as Hmap by (induction l; cbn; auto).
    rewrite Hmap, <- (fold_left_rev_right (λ c n, base58_step n (b2z c))), rev_involutive.
    rewrite Hspec. symmetry. apply leading_zeros_split.
  - apply Forall_replicate. done.
  - intros x Hx. apply Z.eqb_neq.
    destruct (rev ds) as [|d l] eqn:Er; [done|]. cbn in Hx. injection Hx as <-.
    eapply (base58_digits_last (base58_fuel num) num); [done|]. fold ds.
    rewrite <- (rev_involutive ds), Er. cbn. by rewrite last_snoc.
Qed.

Lemma base58Encode_nonempty data : base58Encode data <> "".
Proof.
  unfold base58Encode. destruct (replicate _ _ ++ _) as [|c l]; [done|].
  intros H. by apply (bytes_str_inj _ []) in H.
Qed.

Lemma base58Encode_inj d1 d2 :
  d1 <> [] → d2 <> [] → base58Encode d1 = base58Encode d2 → d1 = d2.
Proof.
  intros H1 H2 H. rewrite <- (base58Decode_Encode d1), <- (base58Decode_Encode d2) by done.
  by rewrite H.
Qed.

Lemma length_checksum data : length (checksum data) = 4%nat.
Proof. unfold checksum. rewrite length_take, arr_length. done. Qed.

Lemma base58Check_data (data : bytes) (s : string) :
  data <> [] → base58Decode s = data ++ checksum data → base58CheckDecode s = Ok data.
Proof.
  intros Hne Hs. unfold base58CheckDecode. rewrite Hs.
  pose proof (length_checksum data) as Hc.
  assert (length (data ++ checksum data) - 4 = length data)%nat as Hl
    by (rewrite length_app, Hc; lia).
  rewrite bool_decide_false by (rewrite length_app, Hc; destruct data; [done|simpl; lia]).
  rewrite Hl, take_app_length, drop_app_length. by rewrite bool_decide_true.
Qed.

Lemma base58CheckDecode_Encode payload version :
  base58CheckDecode (base58CheckEncode payload version) = Ok (version :: payload).
Proof. apply base58Check_data; [done|]. by apply base58Decode_Encode. Qed.

Lemma ParseAddress_data (a : Address) (s : string) :
  s <> "" → base58CheckDecode s = Ok (x00 :: arr_bytes a) → ParseAddress s = Ok a.
Proof.
  intros Hs Hd. unfold ParseAddress. rewrite bool_decide_false by done. rewrite Hd. simpl.
  rewrite bool_decide_true by (by rewrite arr_length). apply AddressFromBytes_arr.
Qed.

Lemma Address_String_parse (a : Address) : ParseAddress (Address_String a) = Ok a.
Proof.
  apply ParseAddress_data; [apply base58Encode_nonempty|apply base58CheckDecode_Encode].
Qed.

Lemma Address_String_inj (a b : Address) : Address_String a = Address_String b → a = b.
Proof.
  intros H. pose proof (Address_String_parse a) as Ha. rewrite H, Address_String_parse in Ha.
  by injection Ha.
Qed.

(** ** Characters outside the alphabet are skipped *)

Lemma base58_chars data : Forall is_ascii (str_bytes (base58Encode data)).
Proof.
  unfold base58Encode.
  destruct (replicate _ _ ++ _) as [|c l] eqn:E; [by repeat constructor|].
  rewrite str_bytes_str, <- E. apply Forall_app; split; [by apply Forall_replicate|].
  apply Forall_rev. eapply Forall_impl; [apply base58_digits_chars|].
  intros b (i & Hi & ->). by apply alpha_ascii.
Qed.

Lemma count_leading_snoc P l x : P x = false → count_leading P (l ++ [x]) = count_leading P l.
Proof. intros Hx. induction l as [|y l IH]; cbn; [by rewrite Hx|]. by rewrite IH. Qed.

Lemma base58Decode_skip (l : bytes) (b : byte) :
  Forall is_ascii l → is_ascii b → IndexByte base58Alphabet b = None →
  base58Decode (bytes_str (l ++ [b])) = base58Decode (bytes_str l).
Proof.
  intros Hl Hb Hi. unfold base58Decode. rewrite !str_bytes_str, !runes_ascii; [|done|].
  2:{ apply Forall_app; auto. }
  rewrite fmap_app. cbn [fmap list_fmap]. rewrite fold_left_app, count_leading_snoc.
  - cbn [fold_left]. unfold base58_step at 1. by rewrite z2b_b2z, Hi.
  - apply Z.eqb_neq. intros H49. assert (b = x31) as ->.
    { apply b2z_inj. by rewrite H49. }
    by vm_compute in Hi.
Qed.
