(* ===== verification/Amount.v ===== *)
(** * Amounts (types/amount.go)

    Non-negative integers of at most 128 bits over [math/big]. A Go [Amount]
    wraps a [*big.Int]; the nil wrapper [Amount{}] only ever accompanies an
    error and is not a value of the model. *)

From S2P Require Import Prelude.

Definition Amount : Type := Z.

(** The type invariant: what [Add] and [UnmarshalBinary] admit. *)
Definition amount_ok (a : Amount) : Prop := is_u128 a.

(** [BitLen] of [math/big.Int]. *)
Definition BitLen (v : Z) : Z := if v =? 0 then 0 else Z.log2 (Z.abs v) + 1.

Definition NewAmount (v : Z) : Amount := v.

Definition Amount_Add (a b : Amount) : res Amount :=
  let r := a + b in
  if 128 <? BitLen r then Err ErrAmountOverflow else Ok r.

Definition Amount_Cmp (a b : Amount) : comparison := a ?= b.

(** [a.Cmp(b) < 0] *)
Definition Amount_lt (a b : Amount) : bool :=
  match Amount_Cmp a b with Lt => true | _ => false end.

Definition Amount_Sub (a b : Amount) : res Amount :=
  if Amount_lt a b then Err ErrAmountUnderflow else Ok (a - b).

Definition Amount_IsZero (a : Amount) : bool := a =? 0.

Definition Amount_MarshalBinary (a : Amount) : bytes := big_bytes a.

Definition Amount_UnmarshalBinary (data : bytes) : res Amount :=
  if bool_decide (16 < length data)%nat then Err ErrAmountOverflow else Ok (unbe data).

(** ** Lemmas *)

Lemma Amount_lt_spec a b : Amount_lt a b = (a <? b).
Proof. unfold Amount_lt, Amount_Cmp, Z.ltb. by destruct (a ?= b). Qed.

Lemma BitLen_le_128 v : 0 <= v → (128 <? BitLen v) = false ↔ v < 2 ^ 128.
Proof.
  intros Hv. unfold BitLen. destruct (Z.eqb_spec v 0) as [->|]; [done|].
  rewrite Z.abs_eq by done. rewrite Z.ltb_ge. split; intros H.
  - apply Z.log2_lt_cancel. rewrite (Z.log2_pow2 128) by lia. lia.
  - apply Z.log2_lt_pow2 in H; lia.
Qed.

(** [Add] is exact addition, and fails exactly when the sum needs a 129th bit. *)
Lemma Amount_Add_spec a b :
  amount_ok a → amount_ok b →
  Amount_Add a b = if decide (a + b < 2 ^ 128) then Ok (a + b) else Err ErrAmountOverflow.
Proof.
  intros [Ha _] [Hb _]. unfold Amount_Add.
  pose proof (BitLen_le_128 (a + b) ltac:(lia)) as Hl.
  destruct (128 <? BitLen (a + b)); case_decide as Hd; [|done|done|]; exfalso; apply Hl in Hd || apply Hd, Hl; done.
Qed.

Lemma Amount_Add_inv a b c :
  amount_ok a → amount_ok b → Amount_Add a b = Ok c → c = a + b ∧ amount_ok c.
Proof.
  intros Ha Hb. rewrite Amount_Add_spec by done. case_decide; [|done].
  intros [= <-]. unfold amount_ok, is_u128 in *. lia.
Qed.

Lemma Amount_Add_ok a b :
  amount_ok a → amount_ok b → a + b < 2 ^ 128 → Amount_Add a b = Ok (a + b).
Proof. intros Ha Hb H. rewrite Amount_Add_spec by done. by rewrite decide_True. Qed.

Lemma Amount_Sub_spec a b :
  Amount_Sub a b = if decide (a < b) then Err ErrAmountUnderflow else Ok (a - b).
Proof.
  unfold Amount_Sub. rewrite Amount_lt_spec. destruct (Z.ltb_spec a b); case_decide; done || lia.
Qed.

Lemma Amount_Sub_inv a b c : Amount_Sub a b = Ok c → b <= a ∧ c = a - b.
Proof. rewrite Amount_Sub_spec. case_decide; [done|]. intros [= <-]. lia. Qed.

Lemma Amount_Sub_ok a b : b <= a → Amount_Sub a b = Ok (a - b).
Proof. intros H. rewrite Amount_Sub_spec, decide_False by lia. done. Qed.

Lemma is_u64_amount v : is_u64 v → amount_ok v.
Proof. unfold is_u64, amount_ok, is_u128. lia. Qed.

Lemma Amount_unmarshal_marshal a :
  amount_ok a → Amount_UnmarshalBinary (Amount_MarshalBinary a) = Ok a.
Proof.
  intros Ha. unfold Amount_UnmarshalBinary, Amount_MarshalBinary.
  pose proof (length_big_bytes_le 16 a ltac:(by apply fits_u128)).
  rewrite bool_decide_false by lia. rewrite unbe_big_bytes; [done|apply Ha].
Qed.

Lemma Amount_unmarshal_ok data a : Amount_UnmarshalBinary data = Ok a → amount_ok a.
Proof.
  unfold Amount_UnmarshalBinary. case_bool_decide as Hl; [done|]. intros [= <-].
  pose proof (unbe_range data) as [H0 H1]. split; [done|].
  eapply Z.lt_le_trans; [exact H1|]. change (2 ^ 128) with (256 ^ 16).
  apply Z.pow_le_mono_r; lia.
Qed.

#[export] Hint Resolve is_u64_amount : dsn.

(** The amount type is closed under its operations: on amounts of at most
    128 bits, [Add] is exact or reports overflow exactly when the sum leaves
    128 bits, [Sub] is exact or reports underflow exactly when the result
    would be negative, every amount they return is again an amount, and the
    binary form of an amount is read back. *)
Theorem amount_operations_exact (a b : Amount) :
  amount_ok a → amount_ok b →
  Amount_Add a b = (if decide (a + b < 2 ^ 128) then Ok (a + b) else Err ErrAmountOverflow) ∧
  Amount_Sub a b = (if decide (a < b) then Err ErrAmountUnderflow else Ok (a - b)) ∧
  (∀ c, Amount_Add a b = Ok c ∨ Amount_Sub a b = Ok c → amount_ok c) ∧
  Amount_UnmarshalBinary (Amount_MarshalBinary a) = Ok a.
Proof.
  intros Ha Hb. split; [by apply Amount_Add_spec|]. split; [apply Amount_Sub_spec|].
  split; [|by apply Amount_unmarshal_marshal].
  intros c [H|H]; [by apply Amount_Add_inv in H as [_ H]|].
  apply Amount_Sub_inv in H. unfold amount_ok, is_u128 in *. lia.
Qed.

Lemma amount_operations_exact_witness :
  Amount_Add (2 ^ 127) (2 ^ 127) = Err ErrAmountOverflow ∧
  Amount_Sub (2 ^ 127) 1 = Ok (2 ^ 127 - 1).
Proof.
  destruct (amount_operations_exact (2 ^ 127) (2 ^ 127)) as (H & _); [done..|].
  destruct (amount_operations_exact (2 ^ 127) 1) as (_ & H' & _); [done..|].
  split; [exact H|exact H'].
Defined.
