(* ===== verification/Tx.v ===== *)
(** * Transactions (types/transaction.go, types/deploy_contract_tx.go,
      types/call_contract_tx.go, types/timestamp.go, types/hasher.go)

    The transaction record with its validation, intent identifier and binary
    form, the contract and validator-registration payloads it may carry, and
    their decoding from the payload. The clock that [ValidateTimestamp] reads
    is an argument. *)

From S2P Require Import Prelude Codec Sha256 Address.

(** ** Hashers *)

Class Hasher : Type := hash_data : bytes → res Hash.

Definition SHA256Hasher : Hasher := λ data, Ok (Sum256 data).

(** ** Timestamps *)

(** Conversion to [int64] and wrapped [int64] subtraction. *)
Definition s64 (z : Z) : Z := (z + 2 ^ 63) mod 2 ^ 64 - 2 ^ 63.

Definition ValidateTimestamp (now ts : Z) : res unit :=
  let drift := s64 (s64 now - s64 ts) in
  if (drift <? -5) || (5 <? drift) then Err ErrInvalidTimestamp else Ok tt.

(** ** Transactions *)

(** [TxType] is a [uint8]; values other than these four can be decoded. *)
Definition TxTypeStandard : Z := 0.
Definition TxTypeDeployContract : Z := 1.
Definition TxTypeCallContract : Z := 2.
Definition TxTypeValidatorRegistration : Z := 3.

Record Transaction := mkTransaction {
  tx_Version : Z;
  tx_ChainID : Z;
  tx_IntentID : Hash;
  tx_Sender : Address;
  tx_Nonce : Z;
  tx_Payload : bytes;
  tx_Constraints : bytes;
  tx_MaxFee : Z;
  tx_GasLimit : Z;
  tx_Timestamp : Z;
  tx_Signature : bytes;
  tx_TxType : Z;
}.

#[global] Instance Transaction_eq_dec : EqDecision Transaction.
Proof. solve_decision. Defined.

(** [NewTransaction] leaves the intent id and the signature unset. *)
Definition NewTransaction (version chainID : Z) (sender : Address) (nonce : Z)
    (payload constraints : bytes) (maxFee gasLimit timestamp : Z) : Transaction :=
  {| tx_Version := version; tx_ChainID := chainID; tx_IntentID := ZeroHash;
     tx_Sender := sender; tx_Nonce := nonce; tx_Payload := payload;
     tx_Constraints := constraints; tx_MaxFee := maxFee; tx_GasLimit := gasLimit;
     tx_Timestamp := timestamp; tx_Signature := []; tx_TxType := TxTypeStandard |}.

(** The bytes that [ComputeIntentID] hashes. *)
Definition intent_preimage (tx : Transaction) : bytes :=
  tx_Sender tx ++ be 8 (tx_Nonce tx) ++ tx_Payload tx ++ tx_Constraints tx.

Definition ComputeIntentID `{Hasher} (tx : Transaction) : res Hash :=
  hash_data (intent_preimage tx).

Definition Transaction_Validate (now : Z) (tx : Transaction) : res unit :=
  if negb (bool_decide (length (tx_Sender tx) = 20%nat))
  then Err (ValidationError ErrInvalidAddress "Sender") else
  if tx_Nonce tx =? 0 then Err (ValidationError ErrNonceMismatch "Nonce") else
  if bool_decide (length (tx_Signature tx) = 0%nat)
  then Err (ValidationError ErrInvalidSignature "Signature") else
  match ValidateTimestamp now (tx_Timestamp tx) with
  | Err e => Err (ValidationError e "Timestamp")
  | Panic => Panic
  | Ok _ =>
      if tx_MaxFee tx =? 0 then Err (ValidationError ErrMaxFeeExceeded "MaxFee") else Ok tt
  end.

Definition Transaction_Encode (tx : Transaction) : go bytes unit :=
  write_uint 2 (tx_Version tx);;
  write_uint 4 (tx_ChainID tx);;
  Write (tx_IntentID tx);;
  Write (tx_Sender tx);;
  write_uint 8 (tx_Nonce tx);;
  writeVarBytes (tx_Payload tx);;
  writeVarBytes (tx_Constraints tx);;
  write_uint 8 (tx_MaxFee tx);;
  write_uint 8 (tx_GasLimit tx);;
  write_uint 8 (tx_Timestamp tx);;
  guard_err (255 <? Z.of_nat (length (tx_Signature tx))) ErrInvalidSignature;;
  write_uint 1 (u8 (Z.of_nat (length (tx_Signature tx))));;
  Write (tx_Signature tx);;
  write_uint 1 (tx_TxType tx).

(** A missing trailing [TxType] means a standard transaction. *)
Definition read_TxType : go bytes Z :=
  r ← try (read_uint 1);
  match r with
  | inr t => mret t
  | inl _ => mret TxTypeStandard
  end.

Definition Transaction_Decode : go bytes Transaction :=
  version ← read_uint 2;
  chainID ← read_uint 4;
  intentID ← read_arr 32;
  sender ← read_arr 20;
  nonce ← read_uint 8;
  payload ← readVarBytes;
  constraints ← readVarBytes;
  maxFee ← read_uint 8;
  gasLimit ← read_uint 8;
  timestamp ← read_uint 8;
  sigLen ← read_uint 1;
  signature ← ReadFull (Z.to_nat sigLen);
  txType ← read_TxType;
  mret {| tx_Version := version; tx_ChainID := chainID; tx_IntentID := intentID;
          tx_Sender := sender; tx_Nonce := nonce; tx_Payload := payload;
          tx_Constraints := constraints; tx_MaxFee := maxFee; tx_GasLimit := gasLimit;
          tx_Timestamp := timestamp; tx_Signature := signature; tx_TxType := txType |}.

(** The values that Go's field types and the encoder's limits admit. *)
Definition Transaction_wf (tx : Transaction) : Prop :=
  fits 2 (tx_Version tx) ∧ fits 4 (tx_ChainID tx) ∧ fits 8 (tx_Nonce tx) ∧
  Z.of_nat (length (tx_Payload tx)) <= MaxVarBytesLength ∧
  Z.of_nat (length (tx_Constraints tx)) <= MaxVarBytesLength ∧
  fits 8 (tx_MaxFee tx) ∧ fits 8 (tx_GasLimit tx) ∧ fits 8 (tx_Timestamp tx) ∧
  Z.of_nat (length (tx_Signature tx)) <= 255 ∧ fits 1 (tx_TxType tx).

(** ** Contract deployment *)

Definition MaxContractCodeSize : Z := 1 * 1024 * 1024.

Record DeployContractTx := mkDeployContractTx {
  dep_Sender : Address;
  dep_Nonce : Z;
  dep_WasmCode : bytes;
  dep_CodeHash : Hash;
  dep_MaxFee : Z;
  dep_GasLimit : Z;
  dep_Signature : bytes;
}.

Definition DeployContractTx_Validate (tx : DeployContractTx) : res unit :=
  if negb (bool_decide (length (dep_Sender tx) = 20%nat))
  then Err (ValidationError ErrInvalidAddress "Sender") else
  if dep_Nonce tx =? 0 then Err (ValidationError ErrNonceMismatch "Nonce") else
  if bool_decide (length (dep_WasmCode tx) = 0%nat)
  then Err (ValidationError ErrInvalidEncoding "WasmCode") else
  if MaxContractCodeSize <? Z.of_nat (length (dep_WasmCode tx))
  then Err (ValidationError ErrContractSizeExceeded "WasmCode") else
  if dep_MaxFee tx =? 0 then Err (ValidationError ErrMaxFeeExceeded "MaxFee") else
  if dep_GasLimit tx =? 0 then Err (ValidationError ErrGasLimitExceeded "GasLimit") else
  if bool_decide (length (dep_Signature tx) = 0%nat)
  then Err (ValidationError ErrInvalidSignature "Signature") else Ok tt.

Definition DeployContractTx_ComputeIntentID `{Hasher} (tx : DeployContractTx) : res Hash :=
  hash_data (dep_Sender tx ++ be 8 (dep_Nonce tx) ++ dep_CodeHash tx).

Definition DeployContractTx_Encode (tx : DeployContractTx) : go bytes unit :=
  Write (dep_Sender tx);;
  write_uint 8 (dep_Nonce tx);;
  writeVarBytes (dep_WasmCode tx);;
  Write (dep_CodeHash tx);;
  write_uint 8 (dep_MaxFee tx);;
  write_uint 8 (dep_GasLimit tx);;
  guard_err (255 <? Z.of_nat (length (dep_Signature tx))) ErrInvalidSignature;;
  write_uint 1 (u8 (Z.of_nat (length (dep_Signature tx))));;
  Write (dep_Signature tx).

(** The hash computed from the code is overwritten by the hash that follows it
    in the input. *)
Definition DeployContractTx_Decode : go bytes DeployContractTx :=
  sender ← read_arr 20;
  nonce ← read_uint 8;
  code ← readVarBytes;
  codeHash ← read_arr 32;
  maxFee ← read_uint 8;
  gasLimit ← read_uint 8;
  sigLen ← read_uint 1;
  signature ← ReadFull (Z.to_nat sigLen);
  mret {| dep_Sender := sender; dep_Nonce := nonce; dep_WasmCode := code;
          dep_CodeHash := codeHash; dep_MaxFee := maxFee; dep_GasLimit := gasLimit;
          dep_Signature := signature |}.

Definition DeployContractTx_wf (tx : DeployContractTx) : Prop :=
  fits 8 (dep_Nonce tx) ∧ Z.of_nat (length (dep_WasmCode tx)) <= MaxVarBytesLength ∧
  fits 8 (dep_MaxFee tx) ∧ fits 8 (dep_GasLimit tx) ∧
  Z.of_nat (length (dep_Signature tx)) <= 255.

(** ** Contract calls *)

Record CallContractTx := mkCallContractTx {
  call_Sender : Address;
  call_Nonce : Z;
  call_ContractID : Hash;
  call_Entrypoint : string;
  call_Calldata : bytes;
  call_MaxFee : Z;
  call_GasLimit : Z;
  call_Signature : bytes;
}.

Definition CallContractTx_Validate (tx : CallContractTx) : res unit :=
  if negb (bool_decide (length (call_Sender tx) = 20%nat))
  then Err (ValidationError ErrInvalidAddress "Sender") else
  if call_Nonce tx =? 0 then Err (ValidationError ErrNonceMismatch "Nonce") else
  if Hash_IsZero (call_ContractID tx)
  then Err (ValidationError ErrInvalidContractID "ContractID") else
  if bool_decide (call_Entrypoint tx = "")
  then Err (ValidationError ErrInvalidEncoding "Entrypoint") else
  if call_MaxFee tx =? 0 then Err (ValidationError ErrMaxFeeExceeded "MaxFee") else
  if call_GasLimit tx =? 0 then Err (ValidationError ErrGasLimitExceeded "GasLimit") else
  if bool_decide (length (call_Signature tx) = 0%nat)
  then Err (ValidationError ErrInvalidSignature "Signature") else Ok tt.

Definition CallContractTx_ComputeIntentID `{Hasher} (tx : CallContractTx) : res Hash :=
  hash_data (call_Sender tx ++ be 8 (call_Nonce tx) ++ call_ContractID tx
             ++ str_bytes (call_Entrypoint tx)).

Definition CallContractTx_Encode (tx : CallContractTx) : go bytes unit :=
  Write (call_Sender tx);;
  write_uint 8 (call_Nonce tx);;
  Write (call_ContractID tx);;
  writeVarBytes (str_bytes (call_Entrypoint tx));;
  writeVarBytes (call_Calldata tx);;
  write_uint 8 (call_MaxFee tx);;
  write_uint 8 (call_GasLimit tx);;
  guard_err (255 <? Z.of_nat (length (call_Signature tx))) ErrInvalidSignature;;
  write_uint 1 (u8 (Z.of_nat (length (call_Signature tx))));;
  Write (call_Signature tx).

Definition CallContractTx_Decode : go bytes CallContractTx :=
  sender ← read_arr 20;
  nonce ← read_uint 8;
  contractID ← read_arr 32;
  entrypointBytes ← readVarBytes;
  calldata ← readVarBytes;
  maxFee ← read_uint 8;
  gasLimit ← read_uint 8;
  sigLen ← read_uint 1;
  signature ← ReadFull (Z.to_nat sigLen);
  mret {| call_Sender := sender; call_Nonce := nonce; call_ContractID := contractID;
          call_Entrypoint := bytes_str entrypointBytes; call_Calldata := calldata;
          call_MaxFee := maxFee; call_GasLimit := gasLimit; call_Signature := signature |}.

Definition CallContractTx_wf (tx : CallContractTx) : Prop :=
  fits 8 (call_Nonce tx) ∧
  Z.of_nat (length (str_bytes (call_Entrypoint tx))) <= MaxVarBytesLength ∧
  Z.of_nat (length (call_Calldata tx)) <= MaxVarBytesLength ∧
  fits 8 (call_MaxFee tx) ∧ fits 8 (call_GasLimit tx) ∧
  Z.of_nat (length (call_Signature tx)) <= 255.

(** ** Validator registration *)

Record ValidatorRegistrationMsg := mkValidatorRegistrationMsg {
  reg_Address : Address;
  reg_PubKey : bytes;
  reg_Stake : Z;
  reg_Commission : Z;
}.

Definition ValidatorRegistrationMsg_Encode (m : ValidatorRegistrationMsg) : go bytes unit :=
  Write (reg_Address m);;
  guard_err (negb (bool_decide (length (reg_PubKey m) = 32%nat))) ErrInvalidEncoding;;
  Write (reg_PubKey m);;
  write_uint 8 (reg_Stake m);;
  write_uint 8 (reg_Commission m).

Definition ValidatorRegistrationMsg_Decode : go bytes ValidatorRegistrationMsg :=
  address ← read_arr 20;
  pubKey ← ReadFull 32;
  stake ← read_uint 8;
  commission ← read_uint 8;
  mret {| reg_Address := address; reg_PubKey := pubKey;
          reg_Stake := stake; reg_Commission := commission |}.

Definition ValidatorRegistrationMsg_wf (m : ValidatorRegistrationMsg) : Prop :=
  length (reg_PubKey m) = 32%nat ∧ fits 8 (reg_Stake m) ∧ fits 8 (reg_Commission m).

(** [msg.Encode()] returns the bytes of a fresh buffer, or the error. *)
Definition encode_bytes (m : go bytes unit) : res bytes :=
  match run_writer m with
  | (buf, Ok _) => Ok buf
  | (_, Err e) => Err e
  | (_, Panic) => Panic
  end.

Definition NewValidatorRegistrationTx (sender : Address) (nonce : Z)
    (msg : ValidatorRegistrationMsg) (maxFee timestamp chainID : Z) : res Transaction :=
  payload ← encode_bytes (ValidatorRegistrationMsg_Encode msg);
  Ok {| tx_Version := 1; tx_ChainID := chainID; tx_IntentID := ZeroHash;
        tx_Sender := sender; tx_Nonce := nonce; tx_Payload := payload;
        tx_Constraints := []; tx_MaxFee := maxFee; tx_GasLimit := 50000;
        tx_Timestamp := timestamp; tx_Signature := [];
        tx_TxType := TxTypeValidatorRegistration |}.

(** The embedded payloads: [None] when the type of the transaction differs
    (Go returns [nil, nil]). *)
Definition DeployContract (tx : Transaction) : res (option DeployContractTx) :=
  if negb (tx_TxType tx =? TxTypeDeployContract) then Ok None else
  Some <$> run_reader DeployContractTx_Decode (tx_Payload tx).

Definition CallContract (tx : Transaction) : res (option CallContractTx) :=
  if negb (tx_TxType tx =? TxTypeCallContract) then Ok None else
  Some <$> run_reader CallContractTx_Decode (tx_Payload tx).

Definition ValidatorRegistration (tx : Transaction) : res (option ValidatorRegistrationMsg) :=
  if negb (tx_TxType tx =? TxTypeValidatorRegistration) then Ok None else
  Some <$> run_reader ValidatorRegistrationMsg_Decode (tx_Payload tx).

(** ** Round trips *)

Lemma u8_len n : Z.of_nat n <= 255 → u8 (Z.of_nat n) = Z.of_nat n.
Proof. intros H. unfold u8. apply Z.mod_small. lia. Qed.

Lemma fits_u8_len n : Z.of_nat n <= 255 → fits 1 (Z.of_nat n).
Proof. intros H. unfold fits. change (256 ^ Z.of_nat 1) with 256. lia. Qed.

Lemma parses_TxType t : fits 1 t → parses read_TxType (be 1 t) t.
Proof.
  intros Ht rest. unfold read_TxType, mbind, go_bind, try. by rewrite parses_uint.
Qed.

#[export] Hint Resolve parses_TxType fits_u8_len : codec.

#[global] Instance Transaction_RoundTrip :
  RoundTrip Transaction_wf Transaction_Encode Transaction_Decode.
Proof.
  intros tx (Hv & Hc & Hn & Hp & Hk & Hf & Hg & Ht & Hs & Hy). destruct tx; simpl in *.
  eexists. unfold Transaction_Encode, Transaction_Decode; simpl. rewrite u8_len by done.
  split; [emit|]. parse.
Qed.

#[global] Instance DeployContractTx_RoundTrip :
  RoundTrip DeployContractTx_wf DeployContractTx_Encode DeployContractTx_Decode.
Proof.
  intros tx (Hn & Hc & Hf & Hg & Hs). destruct tx; simpl in *.
  eexists. unfold DeployContractTx_Encode, DeployContractTx_Decode; simpl. rewrite u8_len by done.
  split; [emit|]. parse.
Qed.

#[global] Instance CallContractTx_RoundTrip :
  RoundTrip CallContractTx_wf CallContractTx_Encode CallContractTx_Decode.
Proof.
  intros tx (Hn & He & Hc & Hf & Hg & Hs). destruct tx; simpl in *.
  eexists. unfold CallContractTx_Encode, CallContractTx_Decode; simpl. rewrite u8_len by done.
  split; [emit|]. parse. rewrite bytes_str_bytes. parse.
Qed.

#[global] Instance ValidatorRegistrationMsg_RoundTrip :
  RoundTrip ValidatorRegistrationMsg_wf
    ValidatorRegistrationMsg_Encode ValidatorRegistrationMsg_Decode.
Proof.
  intros m (Hk & Hs & Hc). destruct m; simpl in *.
  eexists. unfold ValidatorRegistrationMsg_Encode, ValidatorRegistrationMsg_Decode; simpl.
  rewrite bool_decide_true by done. split; [emit|]. parse.
Qed.
