(* ===== verification/Votes.v ===== *)
(** * Votes, proposals, commit proofs and evidence (types/vote.go,
      types/proposal.go, types/commit.go, types/evidence.go)

    The consensus messages, their signed content, binary forms and structural
    validation. Ed25519 signatures are a parameter of the development: every
    theorem holds for any pair of signing and verification functions. *)

From S2P Require Import Prelude Codec Sha256 Address Tx.

(** Package crypto/ed25519: [Sign(privKey, msg)] and [Verify(pubKey, msg, sig)]. *)
Class Ed25519 : Type := {
  ed25519_Sign : bytes → bytes → bytes;
  ed25519_Verify : bytes → bytes → bytes → bool;
}.

(** A concrete pair of functions for the examples: the signature is the key
    followed by the message. *)
Definition echo_ed25519 : Ed25519 :=
  {| ed25519_Sign privKey msg := privKey ++ msg;
     ed25519_Verify pubKey msg sig := bool_decide (sig = pubKey ++ msg) |}.

(** ** Votes *)

Definition VotePrevote : Z := 1.
Definition VotePrecommit : Z := 2.

Record Vote := mkVote {
  v_VoteType : Z;
  v_Height : Z;
  v_Round : Z;
  v_BlockHash : Hash;
  v_Validator : Address;
  v_Signature : bytes;
}.

#[global] Instance Vote_eq_dec : EqDecision Vote.
Proof. solve_decision. Defined.

(** The signed content: everything but the signature. *)
Definition vote_content (v : Vote) : bytes :=
  be 1 (v_VoteType v) ++ be 8 (v_Height v) ++ be 4 (v_Round v)
  ++ v_BlockHash v ++ v_Validator v.

Definition VoteHash `{Hasher} (v : Vote) : res Hash := hash_data (vote_content v).

Definition Vote_Sign `{Ed25519} (privKey : bytes) (v : Vote) : res Vote :=
  hash ← VoteHash (H := SHA256Hasher) v;
  Ok {| v_VoteType := v_VoteType v; v_Height := v_Height v; v_Round := v_Round v;
        v_BlockHash := v_BlockHash v; v_Validator := v_Validator v;
        v_Signature := ed25519_Sign privKey (arr_bytes hash) |}.

Definition Vote_Verify `{Ed25519} (v : Vote) (pubKey : arr 32) : bool :=
  match VoteHash (H := SHA256Hasher) v with
  | Ok hash => ed25519_Verify pubKey hash (v_Signature v)
  | _ => false
  end.

Definition Vote_Encode (v : Vote) : go bytes unit :=
  write_uint 1 (v_VoteType v);;
  write_uint 8 (v_Height v);;
  write_uint 4 (v_Round v);;
  Write (v_BlockHash v);;
  Write (v_Validator v);;
  write_uint 4 (u32 (Z.of_nat (length (v_Signature v))));;
  Write (v_Signature v).

Definition Vote_Decode : go bytes Vote :=
  voteType ← read_uint 1;
  height ← read_uint 8;
  round ← read_uint 4;
  blockHash ← read_arr 32;
  validator ← read_arr 20;
  sigLen ← read_uint 4;
  guard_err (1024 <? sigLen) (Wrapf "signature too long" ErrInvalidEncoding);;
  signature ← ReadFull (Z.to_nat sigLen);
  mret {| v_VoteType := voteType; v_Height := height; v_Round := round;
          v_BlockHash := blockHash; v_Validator := validator; v_Signature := signature |}.

Definition Vote_Validate (v : Vote) : res unit :=
  if negb (v_VoteType v =? VotePrevote) && negb (v_VoteType v =? VotePrecommit)
  then Err (Errorf "invalid vote type") else
  if bool_decide (length (v_Signature v) = 0%nat) then Err (Errorf "empty signature") else
  if 512 <? Z.of_nat (length (v_Signature v)) then Err (Errorf "signature too long") else Ok tt.

(** Field widths, and the longest signature the decoder accepts. *)
Definition Vote_wf (v : Vote) : Prop :=
  fits 1 (v_VoteType v) ∧ fits 8 (v_Height v) ∧ fits 4 (v_Round v) ∧
  Z.of_nat (length (v_Signature v)) <= 1024.

(** ** Proposals *)

Record Proposal := mkProposal {
  p_Height : Z;
  p_Round : Z;
  p_BlockHash : Hash;
  p_Proposer : Address;
  p_Signature : bytes;
}.

Definition ProposalHash `{Hasher} (p : Proposal) : res Hash :=
  hash_data (be 8 (p_Height p) ++ be 4 (p_Round p) ++ p_BlockHash p ++ p_Proposer p).

Definition Proposal_Sign `{Ed25519} (privKey : bytes) (p : Proposal) : res Proposal :=
  hash ← ProposalHash (H := SHA256Hasher) p;
  Ok {| p_Height := p_Height p; p_Round := p_Round p; p_BlockHash := p_BlockHash p;
        p_Proposer := p_Proposer p; p_Signature := ed25519_Sign privKey (arr_bytes hash) |}.

Definition Proposal_Verify `{Ed25519} (p : Proposal) (pubKey : arr 32) : bool :=
  match ProposalHash (H := SHA256Hasher) p with
  | Ok hash => ed25519_Verify pubKey hash (p_Signature p)
  | _ => false
  end.

Definition Proposal_Encode (p : Proposal) : go bytes unit :=
  write_uint 8 (p_Height p);;
  write_uint 4 (p_Round p);;
  Write (p_BlockHash p);;
  Write (p_Proposer p);;
  write_uint 4 (u32 (Z.of_nat (length (p_Signature p))));;
  Write (p_Signature p).

Definition Proposal_Decode : go bytes Proposal :=
  height ← read_uint 8;
  round ← read_uint 4;
  blockHash ← read_arr 32;
  proposer ← read_arr 20;
  sigLen ← read_uint 4;
  guard_err (1024 <? sigLen) (Wrapf "signature too long" ErrInvalidEncoding);;
  signature ← ReadFull (Z.to_nat sigLen);
  mret {| p_Height := height; p_Round := round; p_BlockHash := blockHash;
          p_Proposer := proposer; p_Signature := signature |}.

Definition Proposal_Validate (p : Proposal) : res unit :=
  if bool_decide (length (p_Signature p) = 0%nat) then Err (Errorf "empty signature") else
  if 512 <? Z.of_nat (length (p_Signature p)) then Err (Errorf "signature too long") else Ok tt.

Definition Proposal_wf (p : Proposal) : Prop :=
  fits 8 (p_Height p) ∧ fits 4 (p_Round p) ∧ Z.of_nat (length (p_Signature p)) <= 1024.

(** ** Commit proofs *)

Record CommitProof := mkCommitProof {
  c_Height : Z;
  c_BlockHash : Hash;
  c_Precommits : list Vote;
  c_TotalPower : Z;
  c_SignedPower : Z;
  c_SetHash : Hash;
}.

#[global] Instance CommitProof_eq_dec : EqDecision CommitProof.
Proof. solve_decision. Defined.

(** Both products are [uint64] products. *)
Definition HasTwoThirdsMajority (c : CommitProof) : bool :=
  if c_TotalPower c =? 0 then false
  else u64 (c_TotalPower c * 2) <=? u64 (c_SignedPower c * 3).

Definition CommitProof_Encode (c : CommitProof) : go bytes unit :=
  write_uint 8 (c_Height c);;
  Write (c_BlockHash c);;
  write_uint 8 (Z.of_nat (length (c_Precommits c)));;
  for_each (c_Precommits c) Vote_Encode;;
  write_uint 8 (c_TotalPower c);;
  write_uint 8 (c_SignedPower c);;
  Write (c_SetHash c).

Definition CommitProof_Decode : go bytes CommitProof :=
  height ← read_uint 8;
  blockHash ← read_arr 32;
  count ← read_uint 8;
  guard_err (10000 <? count) (Wrapf "too many precommits" ErrInvalidEncoding);;
  precommits ← repeat_go (Z.to_nat count) (wrap "precommit" Vote_Decode);
  totalPower ← read_uint 8;
  signedPower ← read_uint 8;
  setHash ← read_arr 32;
  mret {| c_Height := height; c_BlockHash := blockHash; c_Precommits := precommits;
          c_TotalPower := totalPower; c_SignedPower := signedPower; c_SetHash := setHash |}.

Definition CommitProof_Validate (c : CommitProof) : res unit :=
  if bool_decide (length (c_Precommits c) = 0%nat) then Err (Errorf "empty precommits") else
  if c_TotalPower c <? c_SignedPower c then Err (Errorf "signed power exceeds total power") else
  if negb (HasTwoThirdsMajority c) then Err (Errorf "insufficient voting power") else Ok tt.

Definition CommitProofHash `{Hasher} (c : CommitProof) : res Hash :=
  hash_data (be 8 (c_Height c) ++ c_BlockHash c ++ be 8 (c_TotalPower c)
             ++ be 8 (c_SignedPower c) ++ c_SetHash c).

Definition CommitProof_wf (c : CommitProof) : Prop :=
  fits 8 (c_Height c) ∧ Z.of_nat (length (c_Precommits c)) <= 10000 ∧
  Forall Vote_wf (c_Precommits c) ∧ fits 8 (c_TotalPower c) ∧ fits 8 (c_SignedPower c).

(** ** Evidence *)

Definition EvidenceTypeDoubleSign : Z := 1.
Definition EvidenceTypeInvalidCommit : Z := 2.
Definition EvidenceTypeMalformedVote : Z := 3.

(** The implementations of the [Evidence] interface. *)
Inductive Evidence :=
  | DoubleSignEvidence (VoteA VoteB : Vote)
  | InvalidCommitEvidence (Proof_ : CommitProof) (Reason : string)
  | MalformedVoteEvidence (BadVote : Vote) (Reason : string).

#[global] Instance Evidence_eq_dec : EqDecision Evidence.
Proof. solve_decision. Defined.

Definition Evidence_Type (ev : Evidence) : Z :=
  match ev with
  | DoubleSignEvidence _ _ => EvidenceTypeDoubleSign
  | InvalidCommitEvidence _ _ => EvidenceTypeInvalidCommit
  | MalformedVoteEvidence _ _ => EvidenceTypeMalformedVote
  end.

Definition Evidence_Height (ev : Evidence) : Z :=
  match ev with
  | DoubleSignEvidence a _ => v_Height a
  | InvalidCommitEvidence p _ => c_Height p
  | MalformedVoteEvidence v _ => v_Height v
  end.

Definition DoubleSignEvidence_Validate (a b : Vote) : res unit :=
  if negb (v_VoteType a =? v_VoteType b) then Err (Errorf "vote type mismatch") else
  if negb (bool_decide (v_Validator a = v_Validator b))
  then Err (Errorf "validator address mismatch") else
  if negb (v_Height a =? v_Height b) then Err (Errorf "height mismatch") else
  if negb (v_Round a =? v_Round b) then Err (Errorf "round mismatch") else
  if bool_decide (v_BlockHash a = v_BlockHash b)
  then Err (Errorf "block hash must be different for double sign") else
  wrap_res "VoteA validation failed" (Vote_Validate a);;
  wrap_res "VoteB validation failed" (Vote_Validate b).

(** The result of [Proof.Validate()] is discarded. *)
Definition InvalidCommitEvidence_Validate (p : CommitProof) (reason : string) : res unit :=
  if bool_decide (length (str_bytes reason) = 0%nat) then Err (Errorf "empty reason") else Ok tt.

Definition MalformedVoteEvidence_Validate (v : Vote) (reason : string) : res unit :=
  if negb (v_VoteType v =? VotePrevote) && negb (v_VoteType v =? VotePrecommit)
  then Err (Errorf "invalid vote type") else
  if v_Height v =? 0 then Err (Errorf "height must be > 0") else
  if bool_decide (length (str_bytes reason) = 0%nat) then Err (Errorf "empty reason") else Ok tt.

Definition Evidence_Validate (ev : Evidence) : res unit :=
  match ev with
  | DoubleSignEvidence a b => DoubleSignEvidence_Validate a b
  | InvalidCommitEvidence p r => InvalidCommitEvidence_Validate p r
  | MalformedVoteEvidence v r => MalformedVoteEvidence_Validate v r
  end.

Definition write_reason (reason : string) : go bytes unit :=
  write_uint 4 (u32 (Z.of_nat (length (str_bytes reason))));;
  Write (str_bytes reason).

Definition read_reason : go bytes string :=
  reasonLen ← read_uint 4;
  guard_err (1024 <? reasonLen) (Wrapf "reason too long" ErrInvalidEncoding);;
  reason ← ReadFull (Z.to_nat reasonLen);
  mret (bytes_str reason).

Definition DoubleSignEvidence_Encode (a b : Vote) : go bytes unit :=
  write_uint 1 (v_VoteType a);; Vote_Encode a;; Vote_Encode b.

Definition InvalidCommitEvidence_Encode (p : CommitProof) (reason : string) : go bytes unit :=
  CommitProof_Encode p;; write_reason reason.

Definition MalformedVoteEvidence_Encode (v : Vote) (reason : string) : go bytes unit :=
  write_uint 1 (v_VoteType v);; Vote_Encode v;; write_reason reason.

Definition Evidence_Encode (ev : Evidence) : go bytes unit :=
  match ev with
  | DoubleSignEvidence a b => DoubleSignEvidence_Encode a b
  | InvalidCommitEvidence p r => InvalidCommitEvidence_Encode p r
  | MalformedVoteEvidence v r => MalformedVoteEvidence_Encode v r
  end.

Definition DoubleSignEvidence_Decode : go bytes Evidence :=
  read_uint 1;;
  a ← Vote_Decode;
  b ← Vote_Decode;
  mret (DoubleSignEvidence a b).

Definition InvalidCommitEvidence_Decode : go bytes Evidence :=
  p ← CommitProof_Decode;
  r ← read_reason;
  mret (InvalidCommitEvidence p r).

Definition MalformedVoteEvidence_Decode : go bytes Evidence :=
  read_uint 1;;
  v ← Vote_Decode;
  r ← read_reason;
  mret (MalformedVoteEvidence v r).

Definition EncodeEvidence (ev : Evidence) : go bytes unit :=
  write_uint 1 (Evidence_Type ev);; Evidence_Encode ev.

Definition DecodeEvidence : go bytes Evidence :=
  evidenceType ← read_uint 1;
  if evidenceType =? EvidenceTypeDoubleSign then DoubleSignEvidence_Decode else
  if evidenceType =? EvidenceTypeInvalidCommit then InvalidCommitEvidence_Decode else
  if evidenceType =? EvidenceTypeMalformedVote then MalformedVoteEvidence_Decode else
  throw (Wrapf "unknown type" ErrInvalidEvidenceType).

Definition EncodeEvidenceList (evidence : list Evidence) : go bytes unit :=
  write_uint 4 (u32 (Z.of_nat (length evidence)));;
  for_each evidence EncodeEvidence.

Definition DecodeEvidenceList : go bytes (list Evidence) :=
  count ← read_uint 4;
  repeat_go (Z.to_nat count) DecodeEvidence.

(** The reason is not part of the hash. *)
Definition evidence_preimage (ev : Evidence) : go bytes unit :=
  match ev with
  | DoubleSignEvidence a b => DoubleSignEvidence_Encode a b
  | InvalidCommitEvidence p _ => CommitProof_Encode p
  | MalformedVoteEvidence v _ => write_uint 1 (v_VoteType v);; Vote_Encode v
  end.

Definition EvidenceHash `{Hasher} (ev : Evidence) : res Hash :=
  buf ← encode_bytes (evidence_preimage ev);
  hash_data buf.

Definition reason_wf (r : string) : Prop := Z.of_nat (length (str_bytes r)) <= 1024.

Definition Evidence_wf (ev : Evidence) : Prop :=
  match ev with
  | DoubleSignEvidence a b => Vote_wf a ∧ Vote_wf b
  | InvalidCommitEvidence p r => CommitProof_wf p ∧ reason_wf r
  | MalformedVoteEvidence v r => Vote_wf v ∧ reason_wf r
  end.

(** ** Round trips *)

Lemma u32_len n : Z.of_nat n <= 10000 → u32 (Z.of_nat n) = Z.of_nat n.
Proof. intros H. unfold u32. apply Z.mod_small. lia. Qed.

Lemma fits_u32_len n : Z.of_nat n <= 10000 → fits 4 (Z.of_nat n).
Proof. intros H. unfold fits. change (256 ^ Z.of_nat 4) with (2 ^ 32). lia. Qed.

Lemma fits_u64_len n : Z.of_nat n <= 10000 → fits 8 (Z.of_nat n).
Proof. intros H. unfold fits. change (256 ^ Z.of_nat 8) with (2 ^ 64). lia. Qed.

#[export] Hint Extern 2 (fits 4 (Z.of_nat _)) => (apply fits_u32_len; lia) : codec.
#[export] Hint Extern 2 (fits 8 (Z.of_nat _)) => (apply fits_u64_len; lia) : codec.
#[export] Hint Extern 1 (_ = false) => lia : codec.

#[global] Instance Vote_RoundTrip : RoundTrip Vote_wf Vote_Encode Vote_Decode.
Proof.
  intros v (Ht & Hh & Hr & Hs). destruct v; simpl in *.
  eexists. unfold Vote_Encode, Vote_Decode; simpl. rewrite u32_len by lia.
  split; [emit|]. parse.
Qed.

#[global] Instance Proposal_RoundTrip : RoundTrip Proposal_wf Proposal_Encode Proposal_Decode.
Proof.
  intros p (Hh & Hr & Hs). destruct p; simpl in *.
  eexists. unfold Proposal_Encode, Proposal_Decode; simpl. rewrite u32_len by lia.
  split; [emit|]. parse.
Qed.

#[export] Hint Extern 1 (emits (for_each _ _) _) => eapply rt_emits_list : codec.
#[export] Hint Extern 1 (emits (_ _) _) => eapply rt_emits : codec.

Lemma parses_votes l :
  Forall Vote_wf l →
  parses (repeat_go (length l) (wrap "precommit" Vote_Decode))
    (concat ((λ v, wire (Vote_Encode v)) <$> l)) l.
Proof.
  intros Hl. apply (parses_repeat _ (λ v, wire (Vote_Encode v))).
  eapply Forall_impl; [exact Hl|]. intros v Hv. apply parses_wrap, rt_parses, Hv.
Qed.

#[global] Instance CommitProof_RoundTrip :
  RoundTrip CommitProof_wf CommitProof_Encode CommitProof_Decode.
Proof.
  intros c (Hh & Hn & Hv & Ht & Hs). destruct c; simpl in *.
  eexists. unfold CommitProof_Encode, CommitProof_Decode; simpl.
  split; [emit|]. do 3 (eapply parses_bind; [solve [eauto with codec]|]).
  apply parses_guard; [lia|]. rewrite Nat2Z.id.
  eapply parses_bind; [by apply parses_votes|]. parse.
Qed.

#[global] Instance reason_RoundTrip : RoundTrip reason_wf write_reason read_reason.
Proof.
  intros r Hr. unfold reason_wf in Hr. eexists. unfold write_reason, read_reason.
  rewrite u32_len by lia. split; [emit|]. parse. rewrite bytes_str_bytes. parse.
Qed.

Lemma fits_type v : Vote_wf v → fits 1 (v_VoteType v).
Proof. by intros (H & _). Qed.

#[export] Hint Resolve fits_type : codec.
#[export] Hint Extern 1 (parses _ (wire _) _) => eapply rt_parses : codec.

#[global] Instance Evidence_RoundTrip : RoundTrip Evidence_wf EncodeEvidence DecodeEvidence.
Proof.
  intros [a b|p r|v r] [H1 H2]; eexists; (split; [|unfold DecodeEvidence]);
    [unfold EncodeEvidence; cbn [Evidence_Encode]; unfold DoubleSignEvidence_Encode; emit
    | |unfold EncodeEvidence; cbn [Evidence_Encode]; unfold InvalidCommitEvidence_Encode; emit
    | |unfold EncodeEvidence; cbn [Evidence_Encode]; unfold MalformedVoteEvidence_Encode; emit|];
    (eapply parses_bind; [by apply parses_uint|]);
    cbv [Evidence_Type EvidenceTypeDoubleSign EvidenceTypeInvalidCommit
         EvidenceTypeMalformedVote Z.eqb Pos.eqb].
  - unfold DoubleSignEvidence_Decode. parse.
  - unfold InvalidCommitEvidence_Decode. parse.
  - unfold MalformedVoteEvidence_Decode. parse.
Qed.
