(* ===== verification/Block.v ===== *)
(** * Blocks, fee summaries, events and contract metadata (types/block.go,
      types/event.go, types/contract_meta.go) *)

From S2P Require Import Prelude Codec Sha256 Address Tx Votes.

(** ** Events *)

Record Event := mkEvent {
  ev_ContractID : Hash;
  ev_Topic : string;
  ev_Data : bytes;
  ev_BlockHeight : Z;
  ev_TxIndex : Z;
}.

#[global] Instance Event_eq_dec : EqDecision Event.
Proof. solve_decision. Defined.

Definition Event_Encode (e : Event) : go bytes unit :=
  Write (ev_ContractID e);;
  writeVarBytes (str_bytes (ev_Topic e));;
  writeVarBytes (ev_Data e);;
  write_uint 8 (ev_BlockHeight e);;
  write_uint 4 (ev_TxIndex e).

Definition Event_Decode : go bytes Event :=
  contractID ← read_arr 32;
  topicBytes ← readVarBytes;
  data ← readVarBytes;
  blockHeight ← read_uint 8;
  txIndex ← read_uint 4;
  mret {| ev_ContractID := contractID; ev_Topic := bytes_str topicBytes; ev_Data := data;
          ev_BlockHeight := blockHeight; ev_TxIndex := txIndex |}.

Definition Event_wf (e : Event) : Prop :=
  Z.of_nat (length (str_bytes (ev_Topic e))) <= MaxVarBytesLength ∧
  Z.of_nat (length (ev_Data e)) <= MaxVarBytesLength ∧
  fits 8 (ev_BlockHeight e) ∧ fits 4 (ev_TxIndex e).

#[global] Instance Event_RoundTrip : RoundTrip Event_wf Event_Encode Event_Decode.
Proof.
  intros e (Ht & Hd & Hh & Hi). destruct e; simpl in *.
  eexists. unfold Event_Encode, Event_Decode; simpl.
  split; [emit|]. parse. rewrite bytes_str_bytes. parse.
Qed.

(** ** Block headers *)

Record BlockHeader := mkBlockHeader {
  h_Version : Z;
  h_Height : Z;
  h_PreviousHash : Hash;
  h_StateRoot : Hash;
  h_TxRoot : Hash;
  h_ReceiptRoot : Hash;
  h_ValidatorRoot : Hash;
  h_ValidatorSetHash : Hash;
  h_Epoch : Z;
  h_Timestamp : Z;
  h_Proposer : Address;
  h_EventsRoot : Hash;
}.

#[global] Instance BlockHeader_eq_dec : EqDecision BlockHeader.
Proof. solve_decision. Defined.

(** The bytes that [HeaderHash] hashes. *)
Definition header_preimage (h : BlockHeader) : bytes :=
  be 8 (h_Version h) ++ be 8 (h_Height h) ++ h_PreviousHash h ++ h_StateRoot h
  ++ h_TxRoot h ++ h_ReceiptRoot h ++ h_ValidatorRoot h ++ h_ValidatorSetHash h
  ++ be 8 (h_Epoch h) ++ be 8 (h_Timestamp h) ++ h_Proposer h ++ h_EventsRoot h.

Definition HeaderHash `{Hasher} (h : BlockHeader) : res Hash := hash_data (header_preimage h).

Definition BlockHeader_wf (h : BlockHeader) : Prop :=
  fits 8 (h_Version h) ∧ fits 8 (h_Height h) ∧ fits 8 (h_Epoch h) ∧ fits 8 (h_Timestamp h).

(** ** Fees *)

Record FeeSummary := mkFeeSummary {
  TotalFees : Z;
  ValidatorShare : Z;
  BurnShare : Z;
  TreasuryShare : Z;
}.

#[global] Instance FeeSummary_eq_dec : EqDecision FeeSummary.
Proof. solve_decision. Defined.

(** [uint64] arithmetic: the products wrap. *)
Definition NewFeeSummary (totalFees : Z) : FeeSummary :=
  {| TotalFees := totalFees;
     ValidatorShare := u64 (totalFees * 70) / 100;
     BurnShare := u64 (totalFees * 20) / 100;
     TreasuryShare := u64 (totalFees * 10) / 100 |}.

(** ** Blocks *)

Record Block := mkBlock {
  b_Header : BlockHeader;
  b_Transactions : list Transaction;
  b_FeeSummary : FeeSummary;
  b_Signature : bytes;
  b_CommitProof : option CommitProof;
  b_Events : list Event;
  b_Evidence : list Evidence;
}.

Definition NewGenesisBlock (now : Z) (proposer : Address) : Block :=
  {| b_Header :=
       {| h_Version := 1; h_Height := 0; h_PreviousHash := ZeroHash; h_StateRoot := ZeroHash;
          h_TxRoot := ZeroHash; h_ReceiptRoot := ZeroHash; h_ValidatorRoot := ZeroHash;
          h_ValidatorSetHash := ZeroHash; h_Epoch := 0; h_Timestamp := now;
          h_Proposer := proposer; h_EventsRoot := ZeroHash |};
     b_Transactions := []; b_FeeSummary := mkFeeSummary 0 0 0 0; b_Signature := [];
     b_CommitProof := None; b_Events := []; b_Evidence := [] |}.

(** Events that fail to encode are skipped. *)
Definition ComputeEventsRoot (events : list Event) : Hash :=
  match events with
  | [] => ZeroHash
  | _ =>
      Sum256 (concat ((λ ev,
        match encode_bytes (Event_Encode ev) with
        | Ok buf => arr_bytes (Sum256 buf)
        | _ => []
        end) <$> events))
  end.

(** ** Contract metadata *)

Record ContractMetadata := mkContractMetadata {
  m_ContractID : Hash;
  m_CodeHash : Hash;
  m_Deployer : Address;
  m_BlockHeight : Z;
}.

(** A length-prefixed field holding a tagged integer of 1, 3, 5 or 9 bytes. *)
Definition writeVarUint64 (v : Z) : go bytes unit :=
  if v <? 0xFD then writeVarBytes [z2b v]
  else if v <=? 0xFFFF then writeVarBytes (xfd :: be 2 v)
  else if v <=? 0xFFFFFFFF then writeVarBytes (xfe :: be 4 v)
  else writeVarBytes (xff :: be 8 v).

(** The reader expects the tag first, without the length prefix. *)
Definition readVarUint64 : go bytes Z :=
  first ← ReadFull 1;
  match first with
  | [xfd] => read_uint 2
  | [xfe] => read_uint 4
  | [xff] => read_uint 8
  | _ => mret (unbe first)
  end.

Definition ContractMetadata_Encode (m : ContractMetadata) : go bytes unit :=
  Write (m_ContractID m);;
  Write (m_CodeHash m);;
  Write (m_Deployer m);;
  writeVarUint64 (m_BlockHeight m).

Definition ContractMetadata_Decode : go bytes ContractMetadata :=
  contractID ← read_arr 32;
  codeHash ← read_arr 32;
  deployer ← read_arr 20;
  blockHeight ← readVarUint64;
  mret {| m_ContractID := contractID; m_CodeHash := codeHash; m_Deployer := deployer;
          m_BlockHeight := blockHeight |}.

(** ** Lemmas *)

Lemma app_inj_len {A} (l1 l2 k1 k2 : list A) :
  length l1 = length l2 → l1 ++ k1 = l2 ++ k2 → l1 = l2 ∧ k1 = k2.
Proof. intros Hl. apply app_inj_1, Hl. Qed.

(** Split an equation between concatenations of fields of equal widths. *)
Ltac split_fields H :=
  repeat (apply app_inj_len in H as [? H]; [|by rewrite ?length_be, ?arr_length]).

Lemma header_preimage_inj h1 h2 :
  BlockHeader_wf h1 → BlockHeader_wf h2 → header_preimage h1 = header_preimage h2 → h1 = h2.
Proof.
  intros (Hv1 & Hh1 & He1 & Ht1) (Hv2 & Hh2 & He2 & Ht2) H. unfold header_preimage in H.
  split_fields H. destruct h1, h2; simpl in *.
  f_equal; first [by eapply be_inj | by apply arr_eq].
Qed.

(** Each share is the rounded-down percentage of the total. *)
Lemma fee_share total p :
  0 <= total → 0 <= p → total * p < 2 ^ 64 → u64 (total * p) / 100 = total * p / 100.
Proof. intros. rewrite u64_small; [done|]. unfold is_u64. nia. Qed.

Lemma writeVarUint64_head v :
  ∃ bs, emits (writeVarUint64 v) (x00 :: bs).
Proof.
  unfold writeVarUint64.
  destruct (v <? 0xFD), (v <=? 0xFFFF), (v <=? 0xFFFFFFFF);
    (eexists; intros buf; rewrite emits_varbytes;
      [f_equal; f_equal; rewrite ?cons_length, ?length_be; reflexivity
      |unfold MaxVarBytesLength; cbn [length]; rewrite ?length_be; lia]).
Qed.

(** ** Properties *)

(** The header hash covers every field of a block header: two distinct
    headers are hashed from distinct byte strings, so two headers with equal
    SHA-256 header hashes are equal or are themselves a collision of
    SHA-256. *)
Theorem header_hash_binds_all_fields (h1 h2 : BlockHeader) :
  BlockHeader_wf h1 → BlockHeader_wf h2 →
  HeaderHash (H := SHA256Hasher) h1 = HeaderHash (H := SHA256Hasher) h2 →
  h1 = h2 ∨
  (header_preimage h1 ≠ header_preimage h2 ∧
   Sum256 (header_preimage h1) = Sum256 (header_preimage h2)).
Proof.
  intros Hw1 Hw2 H. destruct (decide (h1 = h2)) as [|Hne]; [by left|right]. split.
  - intros Hp. by apply Hne, header_preimage_inj.
  - unfold HeaderHash, hash_data, SHA256Hasher in H. exact (Ok_inj _ _ H).
Qed.

Lemma header_hash_binds_all_fields_witness :
  let h := b_Header (NewGenesisBlock 1700000000 ZeroAddress) in
  h = h ∨ (header_preimage h ≠ header_preimage h ∧
           Sum256 (header_preimage h) = Sum256 (header_preimage h)).
Proof.
  intros h. apply (header_hash_binds_all_fields h h).
  - unfold h, BlockHeader_wf, fits; simpl. lia.
  - unfold h, BlockHeader_wf, fits; simpl. lia.
  - reflexivity.
Defined.

(** The fee summary of a block splits the fees into the rounded-down 70,
    20 and 10 percent shares; the shares never exceed the total and at most
    two units are left unassigned, as long as [70 * total] does not overflow
    64 bits. *)
Theorem fee_summary_split (total : Z) :
  0 <= total → total * 70 < 2 ^ 64 →
  let f := NewFeeSummary total in
  let assigned := ValidatorShare f + BurnShare f + TreasuryShare f in
  TotalFees f = total ∧
  ValidatorShare f = total * 70 / 100 ∧ BurnShare f = total * 20 / 100 ∧
  TreasuryShare f = total * 10 / 100 ∧
  total - 2 <= assigned <= total.
Proof.
  intros H0 H1 f assigned. unfold assigned, f, NewFeeSummary; simpl.
  rewrite !fee_share by lia. repeat (split; [done|]).
  pose proof (Z.div_mod (total * 70) 100). pose proof (Z.mod_pos_bound (total * 70) 100).
  pose proof (Z.div_mod (total * 20) 100). pose proof (Z.mod_pos_bound (total * 20) 100).
  pose proof (Z.div_mod (total * 10) 100). pose proof (Z.mod_pos_bound (total * 10) 100).
  lia.
Qed.

Lemma fee_summary_split_witness :
  NewFeeSummary 1009 = mkFeeSummary 1009 706 201 100 ∧
  1009 - 2 <= 706 + 201 + 100 <= 1009.
Proof.
  split; [reflexivity|].
  destruct (fee_summary_split 1009) as (_ & _ & _ & _ & H); [lia|lia|]. exact H.
Defined.

(** The products wrap at 64 bits: with about 2.6e17 units of fees the validator
    share collapses. *)
Example fee_summary_overflow : ValidatorShare (NewFeeSummary (2 ^ 64 / 70 + 1)) = 0.
Proof. reflexivity. Qed.

(** Contract metadata does not survive its own encoding: whatever block
    height is encoded, the metadata read back has block height zero and the
    length-prefixed height field is left in the input, because the writer
    prefixes the height with a length that the reader does not expect. *)
Theorem contract_metadata_height_lost (m : ContractMetadata) :
  ∃ bs left,
    ContractMetadata_Encode m [] = (bs, Ok tt) ∧
    ContractMetadata_Decode bs =
      (left, Ok {| m_ContractID := m_ContractID m; m_CodeHash := m_CodeHash m;
                   m_Deployer := m_Deployer m; m_BlockHeight := 0 |}).
Proof.
  destruct (writeVarUint64_head (m_BlockHeight m)) as [bs Hbs].
  assert (parses readVarUint64 [x00] 0) as Hr by (intros rest; reflexivity).
  set (pre := arr_bytes (m_ContractID m) ++ m_CodeHash m ++ m_Deployer m ++ [x00]).
  exists (pre ++ bs), bs. split.
  - assert (emits (ContractMetadata_Encode m) (pre ++ bs)) as He; [|apply He].
    unfold pre. rewrite <- !app_assoc. unfold ContractMetadata_Encode.
    do 3 (apply emits_bind; [apply emits_Write|]). exact Hbs.
  - assert (parses ContractMetadata_Decode pre
      {| m_ContractID := m_ContractID m; m_CodeHash := m_CodeHash m;
         m_Deployer := m_Deployer m; m_BlockHeight := 0 |}) as Hp; [|apply Hp].
    unfold pre, ContractMetadata_Decode.
    do 3 (eapply parses_bind; [apply parses_arr|]).
    eapply parses_bind_last; [exact Hr|]. apply parses_ret.
Qed.
