(* ===== verification/Smt.v ===== *)
(** * The sparse Merkle tree (state/smt.go)

    A 256-level tree kept as a flat map from cleared path prefixes to hashes,
    and the map of raw values. Paths are 32-byte arrays; bits are numbered
    from the most significant one. The hasher is the interface
    [types.Hasher]. *)

From S2P Require Import Prelude Codec Sha256 Address Tx.

Definition smtDepth : nat := 256.

Record SMT := mkSMT {
  smt_root : Hash;
  smt_siblings : gmap Hash Hash;
  smt_values : gmap Hash bytes;
}.

Definition NewSMT : SMT := mkSMT ZeroHash ∅ ∅.

(** ** Bits of a path *)

(** The mask [1 << (7 - d%8)] within the byte [d/8]. *)
Definition bit_mask (d : nat) : Z := Z.shiftl 1 (7 - Z.of_nat (d mod 8)).

Definition bitAt (path : bytes) (depth : nat) : Z :=
  Z.land (Z.shiftr (b2z (nth (depth / 8) path x00)) (7 - Z.of_nat (depth mod 8))) 1.

(** [path[d/8] &^= mask] and [path[d/8] ^= mask]. *)
Definition clear_bit (path : bytes) (d : nat) : bytes :=
  alter (λ b, z2b (Z.ldiff (b2z b) (bit_mask d))) (d / 8)%nat path.
Definition flip_bit (path : bytes) (d : nat) : bytes :=
  alter (λ b, z2b (Z.lxor (b2z b) (bit_mask d))) (d / 8)%nat path.

Definition clearBitsFrom (path : bytes) (depth : nat) : bytes :=
  fold_left clear_bit (seq depth (smtDepth - depth)) path.

(** ** Nodes *)

Section smt.
Context `{Hasher}.

Definition pathForKey (key : bytes) : res Hash := hash_data key.

Definition leafHash (path : Hash) (value : bytes) : res Hash :=
  valueHash ← hash_data value;
  hash_data (x00 :: arr_bytes path ++ arr_bytes valueHash).

Definition internalHash (lft rgt : Hash) : res Hash :=
  hash_data (x01 :: arr_bytes lft ++ arr_bytes rgt).

(** An absent node is the zero hash (Go's map default). *)
Definition getNode (s : SMT) (path : bytes) (depth : nat) : Hash :=
  default ZeroHash (smt_siblings s !! arr_copy 32 (clearBitsFrom path depth)).

Definition setNode (s : SMT) (path : bytes) (depth : nat) (h : Hash) : SMT :=
  let prefix := arr_copy 32 (clearBitsFrom path depth) in
  {| smt_root := smt_root s;
     smt_siblings := if decide (h = ZeroHash) then delete prefix (smt_siblings s)
                     else <[prefix := h]> (smt_siblings s);
     smt_values := smt_values s |}.

Definition siblingAt (s : SMT) (path : bytes) (depth : nat) : Hash :=
  getNode s (flip_bit path depth) depth.

(** [ih, _ := internalHash(...)]: a hasher error leaves the zero hash. *)
Definition hash_or_zero (r : res Hash) : Hash :=
  match r with Ok h => h | _ => ZeroHash end.

Definition recompute_step (path : bytes) (acc : SMT * Hash) (depth : nat) : SMT * Hash :=
  let '(s, currentHash) := acc in
  let '(lft, rgt) :=
    if bitAt path depth =? 0 then (currentHash, siblingAt s path depth)
    else (siblingAt s path depth, currentHash) in
  let ih := hash_or_zero (internalHash lft rgt) in
  (setNode s (clearBitsFrom path depth) depth ih, ih).

(** From depth 255 down to 0. *)
Definition recomputeUp (s : SMT) (path : bytes) : SMT :=
  let '(s', currentHash) :=
    fold_left (recompute_step path) (rev (seq 0 smtDepth)) (s, getNode s path smtDepth) in
  {| smt_root := currentHash; smt_siblings := smt_siblings s'; smt_values := smt_values s' |}.

(** [Insert] stores the value before it computes the leaf hash. *)
Definition Insert (key value : bytes) : go SMT unit :=
  lift (pathForKey key) ≫= λ path : Hash,
  modify (λ s, {| smt_root := smt_root s; smt_siblings := smt_siblings s;
                  smt_values := <[path := value]> (smt_values s) |});;
  lift (leafHash path value) ≫= λ lh : Hash,
  modify (λ s, recomputeUp (setNode s path smtDepth lh) path).

Definition Get (s : SMT) (key : bytes) : option bytes :=
  match pathForKey key with
  | Ok path => smt_values s !! path
  | _ => None
  end.

Definition Delete (key : bytes) : go SMT unit :=
  lift (pathForKey key) ≫= λ path : Hash,
  modify (λ s, {| smt_root := smt_root s; smt_siblings := delete path (smt_siblings s);
                  smt_values := delete path (smt_values s) |});;
  modify (λ s, recomputeUp s path).

Definition Root (s : SMT) : Hash := smt_root s.
End smt.

(** ** Lemmas *)

Lemma alter_alter {A} (f g h : A → A) i (l : list A) :
  (∀ a, f (g a) = h a) → alter f i (alter g i l) = alter h i l.
Proof.
  intros Hfg. revert i. induction l as [|a l IH]; intros [|i]; cbn; [done..| |].
  - f_equal. apply Hfg.
  - f_equal. apply IH.
Qed.

Section smt_lemmas.
Context `{Hasher}.

Lemma recompute_values path l acc :
  smt_values (fold_left (recompute_step path) l acc).1 = smt_values acc.1.
Proof.
  revert acc. induction l as [|d l IH]; intros [s h]; [done|].
  cbn [fold_left]. rewrite IH. unfold recompute_step.
  by destruct (bitAt path d =? 0).
Qed.

Lemma recomputeUp_values s path : smt_values (recomputeUp s path) = smt_values s.
Proof.
  unfold recomputeUp.
  pose proof (recompute_values path (rev (seq 0 smtDepth)) (s, getNode s path smtDepth)) as Hv.
  destruct (fold_left _ _ _) as [s' h]. exact Hv.
Qed.

(** Inserting updates exactly one path of the value map. *)
Lemma Insert_values key value s path lh :
  pathForKey key = Ok path → leafHash path value = Ok lh →
  ∃ s', Insert key value s = (s', Ok tt) ∧
        smt_values s' = <[path := value]> (smt_values s).
Proof.
  intros Hp Hl. unfold Insert, mbind, go_bind, lift, modify. rewrite Hp, Hl.
  eexists. split; [done|]. by rewrite recomputeUp_values.
Qed.

Lemma Delete_values key s path :
  pathForKey key = Ok path →
  ∃ s', Delete key s = (s', Ok tt) ∧ smt_values s' = delete path (smt_values s).
Proof.
  intros Hp. unfold Delete, mbind, go_bind, lift, modify. rewrite Hp.
  eexists. split; [done|]. by rewrite recomputeUp_values.
Qed.

Lemma clear_flip_bit path d : clear_bit (flip_bit path d) d = clear_bit path d.
Proof.
  unfold clear_bit, flip_bit. apply alter_alter. intros b. f_equal.
  rewrite b2z_z2b. apply Z.bits_inj'. intros i Hi. rewrite !Z.ldiff_spec.
  change 256 with (2 ^ 8). destruct (Z.lt_ge_cases i 8).
  - rewrite Z.mod_pow2_bits_low, Z.lxor_spec by lia.
    destruct (Z.testbit (b2z b) i), (Z.testbit (bit_mask d) i); done.
  - rewrite Z.mod_pow2_bits_high by lia. symmetry. apply andb_false_intro1.
    destruct (Z.eq_dec (b2z b) 0) as [->|Hnz]; [apply Z.bits_0|].
    pose proof (b2z_range b).
    apply Z.bits_above_log2; [lia|].
    apply Z.lt_le_trans with 8; [|done]. apply Z.log2_lt_pow2; lia.
Qed.

Lemma clearBitsFrom_flip path d :
  (d < smtDepth)%nat → clearBitsFrom (flip_bit path d) d = clearBitsFrom path d.
Proof.
  intros Hd. unfold clearBitsFrom.
  replace (smtDepth - d)%nat with (S (smtDepth - S d)) by lia.
  cbn [seq fold_left]. by rewrite clear_flip_bit.
Qed.
End smt_lemmas.

(** ** Properties *)

(** The tree is a map: after a successful [Insert], [Get] on the same key
    returns the inserted value; after [Delete] it returns nothing; and keys
    that the hasher sends to a different path are unaffected by either. *)
Theorem smt_get_after_update `{Hasher} (s : SMT) (key value : bytes) (path lh : Hash) :
  pathForKey key = Ok path → leafHash path value = Ok lh →
  ∃ s1 s2,
    Insert key value s = (s1, Ok tt) ∧ Get s1 key = Some value ∧
    Delete key s = (s2, Ok tt) ∧ Get s2 key = None ∧
    (∀ key', pathForKey key' ≠ pathForKey key → Get s1 key' = Get s key' ∧ Get s2 key' = Get s key').
Proof.
  intros Hp Hl. destruct (Insert_values key value s path lh Hp Hl) as (s1 & Hi & Hv1).
  destruct (Delete_values key s path Hp) as (s2 & Hd & Hv2).
  exists s1, s2. unfold Get. rewrite Hp, Hv1, Hv2, lookup_insert_eq, lookup_delete_eq.
  repeat (split; [done|]). intros key' Hne.
  destruct (pathForKey key') as [p|e|]; [|done|done].
  rewrite lookup_insert_ne, lookup_delete_ne by congruence. done.
Qed.

(** The sibling lookup never reaches the sibling: it flips the bit at the
    given depth and then clears that bit again, so what [recomputeUp] reads
    as the sibling of a node is the entry stored for the node's own parent
    prefix. The stored root therefore depends on the history of insertions
    and not only on the contents. *)
Theorem smt_sibling_is_own_prefix (s : SMT) (path : bytes) (depth : nat) :
  (depth < smtDepth)%nat → siblingAt s path depth = getNode s path depth.
Proof. intros Hd. unfold siblingAt, getNode. by rewrite clearBitsFrom_flip. Qed.

Definition smt_once : SMT := (Insert (H := SHA256Hasher) [x61] [x62] NewSMT).1.

Lemma smt_sibling_is_own_prefix_witness :
  siblingAt smt_once (Sum256 [x61]) 0 = getNode smt_once (Sum256 [x61]) 0.
Proof. apply (smt_sibling_is_own_prefix smt_once (Sum256 [x61]) 0). unfold smtDepth. lia. Defined.

Lemma smt_get_after_update_witness :
  ∃ s1, Insert (H := SHA256Hasher) [x61] [x62] NewSMT = (s1, Ok tt) ∧
        Get (H := SHA256Hasher) s1 [x61] = Some [x62].
Proof.
  destruct (smt_get_after_update (H := SHA256Hasher) NewSMT [x61] [x62] (Sum256 [x61])
    (Sum256 (x00 :: arr_bytes (Sum256 [x61]) ++ arr_bytes (Sum256 [x62]))))
    as (s1 & s2 & Hi & Hg & _); [reflexivity|reflexivity|].
  exists s1. split; [exact Hi|exact Hg].
Defined.
