(* ===== verification/Store.v ===== *)
(** * State interfaces (state/account.go, staking/registry.go, staking/staking.go)

    Accounts, and the interfaces through which every component reaches the
    state: [KVStore] (byte values under string keys) and [AccountStore]
    (accounts under addresses), with the laws their clients rely on.
    state.InMemoryState and state.PersistentState are instances (State.v).

    Accounts are shared mutable objects: [GetAccount] returns the pointer that
    the map holds, and the methods of [Account] mutate through it, whether or
    not the function that called them later fails. [acc_ptr] keeps that
    aliasing: a [Stored a] pointer denotes the object in the map entry [a], a
    [Fresh acc] pointer an object that no map holds yet. *)

From S2P Require Import Prelude Codec Address Amount Tx Votes Block.

(** ** Accounts *)

Record Account := mkAccount {
  acc_Address : Address;
  acc_Balance : Amount;
  acc_Nonce : Z;
  acc_StorageRoot : Hash;
  acc_CodeHash : Hash;
  acc_Permissions : Z;
  acc_PublicKey : arr 32;
}.

#[global] Instance Account_eq_dec : EqDecision Account.
Proof. solve_decision. Defined.

Definition NewAccount (addr : Address) (publicKey : arr 32) : Account :=
  {| acc_Address := addr; acc_Balance := NewAmount 0; acc_Nonce := 0;
     acc_StorageRoot := ZeroHash; acc_CodeHash := ZeroHash; acc_Permissions := 0;
     acc_PublicKey := publicKey |}.

Definition set_balance (a : Account) (b : Amount) : Account :=
  {| acc_Address := acc_Address a; acc_Balance := b; acc_Nonce := acc_Nonce a;
     acc_StorageRoot := acc_StorageRoot a; acc_CodeHash := acc_CodeHash a;
     acc_Permissions := acc_Permissions a; acc_PublicKey := acc_PublicKey a |}.

Definition AddBalance (amount : Amount) (a : Account) : res Account :=
  newBal ← Amount_Add (acc_Balance a) amount; Ok (set_balance a newBal).

Definition SubBalance (amount : Amount) (a : Account) : res Account :=
  newBal ← Amount_Sub (acc_Balance a) amount; Ok (set_balance a newBal).

Definition IncrementNonce (a : Account) : res Account :=
  Ok {| acc_Address := acc_Address a; acc_Balance := acc_Balance a;
        acc_Nonce := u64 (acc_Nonce a + 1); acc_StorageRoot := acc_StorageRoot a;
        acc_CodeHash := acc_CodeHash a; acc_Permissions := acc_Permissions a;
        acc_PublicKey := acc_PublicKey a |}.

(** [copy(balBuf[16-len(balBytes):], balBytes)] panics on a longer balance. *)
Definition Account_Encode (a : Account) : go bytes unit :=
  Write (acc_Address a);;
  let balBytes := Amount_MarshalBinary (acc_Balance a) in
  (if bool_decide (16 < length balBytes)%nat then gopanic
   else Write (replicate (16 - length balBytes) x00 ++ balBytes));;
  write_uint 8 (acc_Nonce a);;
  Write (acc_StorageRoot a);;
  Write (acc_CodeHash a);;
  write_uint 4 (acc_Permissions a);;
  Write (acc_PublicKey a).

Definition Account_Decode : go bytes Account :=
  addrBytes ← ReadFull 20;
  addr ← lift (AddressFromBytes addrBytes);
  balBuf ← ReadFull 16;
  balance ← lift (Amount_UnmarshalBinary balBuf);
  nonce ← read_uint 8;
  storageRoot ← read_arr 32;
  codeHash ← read_arr 32;
  permissions ← read_uint 4;
  publicKey ← read_arr 32;
  mret {| acc_Address := addr; acc_Balance := balance; acc_Nonce := nonce;
          acc_StorageRoot := storageRoot; acc_CodeHash := codeHash;
          acc_Permissions := permissions; acc_PublicKey := publicKey |}.

Definition Account_wf (a : Account) : Prop :=
  amount_ok (acc_Balance a) ∧ fits 8 (acc_Nonce a) ∧ fits 4 (acc_Permissions a).

Lemma emits_amount16 v :
  amount_ok v →
  emits (if bool_decide (16 < length (Amount_MarshalBinary v))%nat then gopanic
         else Write (replicate (16 - length (Amount_MarshalBinary v)) x00
                     ++ Amount_MarshalBinary v)) (be 16 v).
Proof.
  intros Hv%fits_u128. unfold Amount_MarshalBinary.
  pose proof (length_big_bytes_le 16 v Hv). rewrite bool_decide_false by lia.
  rewrite pad_big_bytes by done. apply emits_Write.
Qed.

Lemma parses_amount16 v :
  amount_ok v →
  parses (balBuf ← ReadFull 16; lift (Amount_UnmarshalBinary balBuf)) (be 16 v) v.
Proof.
  intros Hv%fits_u128. eapply parses_bind_last; [apply parses_ReadFull, length_be|].
  unfold Amount_UnmarshalBinary. rewrite length_be, bool_decide_false by lia.
  rewrite unbe_be_small by done. intros rest. done.
Qed.

Lemma parses_lift {A B} (r : res A) (k : A → go bytes B) bs a b :
  r = Ok a → parses (k a) bs b → parses (lift r ≫= k) bs b.
Proof. intros -> Hk rest. apply Hk. Qed.

#[global] Instance Account_RoundTrip : RoundTrip Account_wf Account_Encode Account_Decode.
Proof.
  intros a (Hb & Hn & Hp). destruct a; simpl in *.
  eexists. unfold Account_Encode, Account_Decode; simpl. split.
  - apply emits_bind; [apply emits_Write|]. apply emits_bind; [by apply emits_amount16|]. emit.
  - eapply parses_bind; [apply parses_ReadFull, arr_length|].
    eapply parses_lift; [apply AddressFromBytes_arr|].
    eapply parses_bind; [apply parses_ReadFull, length_be|].
    eapply parses_lift; [|parse].
    unfold Amount_UnmarshalBinary. rewrite length_be, bool_decide_false by lia.
    by rewrite unbe_be_small by (by apply fits_u128).
Qed.

(** [binary.BigEndian.Uint64(b)]: reads the first eight bytes, panics on a
    shorter slice. *)
Definition Uint64 (b : bytes) : res Z :=
  if bool_decide (length b < 8)%nat then Panic else Ok (unbe (take 8 b)).

Lemma Uint64_be v : fits 8 v → Uint64 (be 8 v) = Ok v.
Proof.
  intros Hv. unfold Uint64. rewrite length_be, bool_decide_false by lia.
  rewrite take_ge by (by rewrite length_be). by rewrite unbe_be_small.
Qed.

Lemma Uint64_app v rest : fits 8 v → Uint64 (be 8 v ++ rest) = Ok v.
Proof.
  intros Hv. unfold Uint64. rewrite length_app, length_be, bool_decide_eq_false_2 by lia.
  rewrite take_app_le by (by rewrite length_be). rewrite take_ge by (by rewrite length_be).
  by rewrite unbe_be_small.
Qed.

(** [v, _ := a.Add(b)]: on overflow [v] is the nil amount, whose methods
    panic. *)
Definition must {A} (r : res A) : res A := match r with Err _ => Panic | _ => r end.

Lemma must_inv {A} (r : res A) a : must r = Ok a → r = Ok a.
Proof. by destruct r. Qed.

(** ** Interfaces *)

(** staking.KVStore: the contents and the two updates. Both implementations
    return a nil error from [SetBytes] and [DeleteBytes]. *)
Class KVStore (S : Type) : Type := {
  kv_map : S → gmap string bytes;
  kv_put : string → bytes → S → S;
  kv_del : string → S → S;
}.

(** staking.AccountReaderWriter: the accounts that the entries point to. *)
Class AccountStore (S : Type) : Type := {
  acc_map : S → gmap Address Account;
  acc_put : Address → Account → S → S;
}.

(** What the clients of staking.StakingState rely on: updates are map updates
    and the two stores do not interfere. *)
Class StakingStore (S : Type) `{KVStore S, AccountStore S} : Prop := {
  kv_map_put k v s : kv_map (kv_put k v s) = <[k := v]> (kv_map s);
  kv_map_del k s : kv_map (kv_del k s) = delete k (kv_map s);
  kv_map_acc_put a acc s : kv_map (acc_put a acc s) = kv_map s;
  acc_map_put a acc s : acc_map (acc_put a acc s) = <[a := acc]> (acc_map s);
  acc_map_kv_put k v s : acc_map (kv_put k v s) = acc_map s;
  acc_map_kv_del k s : acc_map (kv_del k s) = acc_map s;
}.

(** [store]: compute the contents after a sequence of updates. *)
Ltac store :=
  repeat first
    [ rewrite kv_map_put | rewrite kv_map_del | rewrite kv_map_acc_put
    | rewrite acc_map_put | rewrite acc_map_kv_put | rewrite acc_map_kv_del ].

Section operations.
Context {S : Type} `{KVStore S, AccountStore S}.

Definition GetBytes (key : string) : go S (option bytes) := gets (λ s, kv_map s !! key).
Definition SetBytes (key : string) (value : bytes) : go S unit := modify (kv_put key value).
Definition DeleteBytes (key : string) : go S unit := modify (kv_del key).

(** Pointers to accounts. *)
Inductive acc_ptr := Stored (a : Address) | Fresh (acc : Account).

Definition GetAccount (addr : Address) : go S acc_ptr := λ s,
  match acc_map s !! addr with
  | Some _ => (s, Ok (Stored addr))
  | None => (s, Err (Errorf "account not found"))
  end.

(** Reading a field through a pointer; a pointer into the map whose entry is
    gone does not occur in the code below. *)
Definition deref (p : acc_ptr) : go S Account := λ s,
  match p with
  | Fresh acc => (s, Ok acc)
  | Stored a => match acc_map s !! a with Some acc => (s, Ok acc) | None => (s, Panic) end
  end.

(** [p.m(...)] for a mutating method [m]: nothing changes if it fails. *)
Definition mutate (p : acc_ptr) (m : Account → res Account) : go S acc_ptr :=
  acc ← deref p;
  acc' ← lift (m acc);
  match p with
  | Fresh _ => mret (Fresh acc')
  | Stored a => modify (acc_put a acc');; mret p
  end.

(** [SetAccount(addr, p)]: storing the pointer that the entry already holds
    changes nothing. *)
Definition SetAccount (addr : Address) (p : acc_ptr) : go S unit :=
  match p with
  | Fresh acc => modify (acc_put addr acc)
  | Stored a =>
      if decide (a = addr) then mret tt
      else acc ← deref p; modify (acc_put addr acc)
  end.

(** [acc, err := s.GetAccount(addr); if err != nil { acc = NewAccount(addr, [32]byte{}) }]. *)
Definition GetOrNewAccount (addr : Address) : go S acc_ptr :=
  r ← try (GetAccount addr);
  match r with
  | inr p => mret p
  | inl _ => mret (Fresh (NewAccount addr (arr_zero 32)))
  end.
End operations.

(** ** Lemmas *)

Section operation_lemmas.
Context {S : Type} `{StakingStore S}.
Implicit Types (s : S) (a : Address) (p : acc_ptr).

(** The account a pointer denotes in a state. *)
Definition points_to s p : option Account :=
  match p with Fresh acc => Some acc | Stored a => acc_map s !! a end.

Lemma GetAccount_inv s s' a p :
  GetAccount a s = (s', Ok p) → s' = s ∧ p = Stored a ∧ is_Some (acc_map s !! a).
Proof. unfold GetAccount. destruct (acc_map s !! a) eqn:E; naive_solver. Qed.

Lemma GetBytes_inv k s s' o : GetBytes k s = (s', Ok o) → s' = s ∧ o = kv_map s !! k.
Proof. by intros [= <- <-]. Qed.

Lemma SetBytes_inv k v s s' u : SetBytes k v s = (s', Ok u) → s' = kv_put k v s.
Proof. by intros [= <- _]. Qed.

Lemma DeleteBytes_inv k s s' u : DeleteBytes k s = (s', Ok u) → s' = kv_del k s.
Proof. by intros [= <- _]. Qed.

Lemma GetAccount_some s a acc : acc_map s !! a = Some acc → GetAccount a s = (s, Ok (Stored a)).
Proof. intros E. unfold GetAccount. by rewrite E. Qed.

Lemma GetAccount_none s a :
  acc_map s !! a = None → GetAccount a s = (s, Err (Errorf "account not found")).
Proof. intros E. unfold GetAccount. by rewrite E. Qed.

Definition or_new s a : acc_ptr :=
  match acc_map s !! a with Some _ => Stored a | None => Fresh (NewAccount a (arr_zero 32)) end.

Lemma GetOrNewAccount_spec s a :
  GetOrNewAccount a s = (s, Ok (or_new s a)).
Proof.
  unfold or_new, GetOrNewAccount, mbind, go_bind, try, GetAccount. by destruct (acc_map s !! a).
Qed.

Lemma deref_spec s p acc : points_to s p = Some acc → deref p s = (s, Ok acc).
Proof. destruct p; simpl; unfold deref; [|naive_solver]. by intros ->. Qed.

Lemma deref_inv s s' p acc :
  deref p s = (s', Ok acc) → s' = s ∧ points_to s p = Some acc.
Proof. destruct p; unfold deref; simpl; [|naive_solver]. destruct (acc_map s !! a) eqn:E; naive_solver. Qed.

(** A successful method call through a pointer into the map is an update of
    that entry. *)
Lemma mutate_stored_inv s s' a m p :
  mutate (Stored a) m s = (s', Ok p) →
  ∃ acc acc', acc_map s !! a = Some acc ∧ m acc = Ok acc' ∧
              s' = acc_put a acc' s ∧ p = Stored a.
Proof.
  unfold mutate, mbind, go_bind, deref, lift, modify, mret, go_ret.
  destruct (acc_map s !! a) as [acc|] eqn:E; [|done].
  destruct (m acc) as [acc'|e|] eqn:Em; [|done|done]. naive_solver.
Qed.

Lemma mutate_fresh_inv s s' acc m p :
  mutate (Fresh acc) m s = (s', Ok p) →
  ∃ acc', m acc = Ok acc' ∧ s' = s ∧ p = Fresh acc'.
Proof.
  unfold mutate, mbind, go_bind, deref, lift, mret, go_ret.
  destruct (m acc) as [acc'|e|] eqn:Em; [|done|done]. naive_solver.
Qed.

Lemma mutate_stored_ok s a m acc acc' :
  acc_map s !! a = Some acc → m acc = Ok acc' →
  mutate (Stored a) m s = (acc_put a acc' s, Ok (Stored a)).
Proof.
  intros E Em. unfold mutate, mbind, go_bind, deref, lift. by rewrite E, Em.
Qed.

Lemma mutate_stored_err s a m acc e :
  acc_map s !! a = Some acc → m acc = Err e → mutate (Stored a) m s = (s, Err e).
Proof.
  intros E Em. unfold mutate, mbind, go_bind, deref, lift. by rewrite E, Em.
Qed.

Lemma mutate_fresh_ok s acc m acc' :
  m acc = Ok acc' → mutate (Fresh acc) m s = (s, Ok (Fresh acc')).
Proof. intros Em. unfold mutate, mbind, go_bind, deref, lift. by rewrite Em. Qed.

Lemma SetAccount_stored s a : SetAccount a (Stored a) s = (s, Ok tt).
Proof. unfold SetAccount. by rewrite decide_True. Qed.

Lemma SetAccount_fresh s a acc : SetAccount a (Fresh acc) s = (acc_put a acc s, Ok tt).
Proof. done. Qed.

(** [addr]'s object, or a new one, credited and stored back: the pattern of
    every credit in the code. *)
Definition credit (addr : Address) (amount : Amount) : go S unit :=
  p ← GetOrNewAccount addr;
  p' ← mutate p (AddBalance amount);
  SetAccount addr p'.

Definition account_at s a : Account := default (NewAccount a (arr_zero 32)) (acc_map s !! a).
Definition balance_at s a : Amount := acc_Balance (account_at s a).

(** A method call through the pointer of an account that may be new. *)
Lemma mutate_or_new s a m :
  mutate (or_new s a) m s =
  match m (account_at s a) with
  | Ok acc' =>
      match acc_map s !! a with
      | Some _ => (acc_put a acc' s, Ok (Stored a))
      | None => (s, Ok (Fresh acc'))
      end
  | Err e => (s, Err e)
  | Panic => (s, Panic)
  end.
Proof.
  unfold or_new, account_at, mutate, mbind, go_bind, deref, lift.
  destruct (acc_map s !! a) as [acc|] eqn:E; simpl.
  - rewrite E. by destruct (m acc).
  - by destruct (m (NewAccount a (arr_zero 32))).
Qed.

Lemma credit_spec s a amount :
  credit a amount s =
  match AddBalance amount (account_at s a) with
  | Ok acc' => (acc_put a acc' s, Ok tt)
  | Err e => (s, Err e)
  | Panic => (s, Panic)
  end.
Proof.
  unfold credit. rewrite (go_bind_ok _ _ s s _ (GetOrNewAccount_spec s a)).
  unfold mbind, go_bind. rewrite mutate_or_new.
  destruct (AddBalance amount (account_at s a)); [|done|done].
  destruct (acc_map s !! a); [|done]. apply SetAccount_stored.
Qed.

(** Balances of all accounts, and the sum of them. *)
Definition total_balance s : Z := map_zsum acc_Balance (acc_map s).

Definition balances_ok s : Prop := ∀ a acc, acc_map s !! a = Some acc → amount_ok (acc_Balance acc).

Lemma total_balance_put s a acc :
  total_balance (acc_put a acc s) = total_balance s - balance_at s a + acc_Balance acc.
Proof.
  unfold total_balance, balance_at, account_at. store.
  destruct (acc_map s !! a) as [old|] eqn:E; simpl.
  - by apply map_zsum_insert_Some.
  - rewrite map_zsum_insert_None by done. unfold NewAmount. lia.
Qed.

Lemma balance_at_put s a acc a' :
  balance_at (acc_put a acc s) a' = if decide (a = a') then acc_Balance acc else balance_at s a'.
Proof.
  unfold balance_at, account_at. store. rewrite lookup_insert. by case_decide.
Qed.

Lemma balance_at_put_eq s a acc : balance_at (acc_put a acc s) a = acc_Balance acc.
Proof. rewrite balance_at_put. by rewrite decide_True. Qed.

Lemma balance_at_put_ne s a acc a' :
  a' ≠ a → balance_at (acc_put a acc s) a' = balance_at s a'.
Proof. intros Hne. rewrite balance_at_put. by rewrite decide_False. Qed.

Lemma balance_at_kv_put s k v a : balance_at (kv_put k v s) a = balance_at s a.
Proof. unfold balance_at, account_at. by store. Qed.

Lemma balance_at_kv_del s k a : balance_at (kv_del k s) a = balance_at s a.
Proof. unfold balance_at, account_at. by store. Qed.

Lemma total_balance_kv_del s k : total_balance (kv_del k s) = total_balance s.
Proof. unfold total_balance. by store. Qed.

Lemma balances_ok_kv_put s k v : balances_ok (kv_put k v s) ↔ balances_ok s.
Proof. unfold balances_ok. by store. Qed.

Lemma balances_ok_kv_del s k : balances_ok (kv_del k s) ↔ balances_ok s.
Proof. unfold balances_ok. by store. Qed.

Lemma total_balance_kv_put s k v : total_balance (kv_put k v s) = total_balance s.
Proof. unfold total_balance. by store. Qed.

Lemma balances_ok_put s a acc :
  balances_ok s → amount_ok (acc_Balance acc) → balances_ok (acc_put a acc s).
Proof.
  intros Hs Ha a' acc'. store. rewrite lookup_insert.
  case_decide; [naive_solver|apply Hs].
Qed.

Lemma balances_ok_at s a : balances_ok s → amount_ok (balance_at s a).
Proof.
  intros Hs. unfold balance_at, account_at. destruct (acc_map s !! a) eqn:E; simpl; [eauto|done].
Qed.

Lemma AddBalance_inv amount acc acc' :
  amount_ok (acc_Balance acc) → amount_ok amount → AddBalance amount acc = Ok acc' →
  acc' = set_balance acc (acc_Balance acc + amount) ∧ amount_ok (acc_Balance acc + amount).
Proof.
  intros Ha Hb. unfold AddBalance, mbind, res_bind.
  destruct (Amount_Add _ _) eqn:E; [|done|done]. intros [= <-].
  apply Amount_Add_inv in E as [-> Hok]; done.
Qed.

Lemma SubBalance_inv amount acc acc' :
  SubBalance amount acc = Ok acc' →
  acc' = set_balance acc (acc_Balance acc - amount) ∧ amount <= acc_Balance acc.
Proof.
  unfold SubBalance, mbind, res_bind.
  destruct (Amount_Sub _ _) eqn:E; [|done|done]. intros [= <-].
  apply Amount_Sub_inv in E as [? ->]. done.
Qed.

Lemma SubBalance_ok amount acc :
  amount <= acc_Balance acc →
  SubBalance amount acc = Ok (set_balance acc (acc_Balance acc - amount)).
Proof. intros Hle. unfold SubBalance, mbind, res_bind. by rewrite Amount_Sub_ok. Qed.

Lemma AddBalance_ok amount acc :
  amount_ok (acc_Balance acc) → amount_ok amount → acc_Balance acc + amount < 2 ^ 128 →
  AddBalance amount acc = Ok (set_balance acc (acc_Balance acc + amount)).
Proof. intros. unfold AddBalance, mbind, res_bind. by rewrite Amount_Add_ok. Qed.

Lemma AddBalance_overflow amount acc :
  amount_ok (acc_Balance acc) → amount_ok amount → 2 ^ 128 <= acc_Balance acc + amount →
  AddBalance amount acc = Err ErrAmountOverflow.
Proof.
  intros. unfold AddBalance, mbind, res_bind. rewrite Amount_Add_spec by done.
  by rewrite decide_False by lia.
Qed.

Lemma set_balance_id acc b : b = acc_Balance acc → set_balance acc b = acc.
Proof. intros ->. by destruct acc. Qed.

Lemma total_balance_nonneg s : balances_ok s → 0 <= total_balance s.
Proof. intros Hs. apply map_zsum_nonneg. intros k acc Hk. apply (Hs k acc Hk). Qed.

Lemma balance_le_total s a : balances_ok s → balance_at s a <= total_balance s.
Proof.
  intros Hs. unfold balance_at, account_at. destruct (acc_map s !! a) as [acc|] eqn:E; simpl.
  - eapply map_zsum_lookup_le; [|exact E]. intros k x Hk. apply (Hs k x Hk).
  - by apply total_balance_nonneg.
Qed.
End operation_lemmas.

(** [run_inv]: invert every successful run in the context down to the state
    updates it made. *)
Ltac run_inv :=
  repeat match goal with
  | x : unit |- _ => destruct x
  | H : _ = (_, Ok _) |- _ =>
      first
        [ go_step H
        | apply GetBytes_inv in H as [-> ->]
        | apply SetBytes_inv in H as ->
        | apply DeleteBytes_inv in H as ->
        | apply GetAccount_inv in H as (-> & -> & ?) ]
  end.

(** [balances]: compute balances and their sum after a sequence of updates. *)
Ltac balances :=
  repeat first
    [ rewrite total_balance_put | rewrite total_balance_kv_put | rewrite total_balance_kv_del
    | rewrite balance_at_put_eq | rewrite balance_at_put_ne by congruence
    | rewrite balance_at_kv_put | rewrite balance_at_kv_del
    | rewrite balances_ok_kv_put | rewrite balances_ok_kv_del ].

(** ** Frames: what touches accounts and what touches the key-value store *)

Definition same_accounts {S} `{AccountStore S} (s s' : S) : Prop := acc_map s' = acc_map s.
Definition same_kv {S} `{KVStore S} (s s' : S) : Prop := kv_map s' = kv_map s.

#[global] Instance same_accounts_preorder {S} `{AccountStore S} : PreOrder (same_accounts (S := S)).
Proof. unfold same_accounts. split; [done|]. intros s1 s2 s3. congruence. Qed.
#[global] Instance same_kv_preorder {S} `{KVStore S} : PreOrder (same_kv (S := S)).
Proof. unfold same_kv. split; [done|]. intros s1 s2 s3. congruence. Qed.

Section frames.
Context {S : Type} `{StakingStore S}.

Lemma frame_GetBytes k : preserves (same_accounts (S := S)) (GetBytes k).
Proof. by intros s. Qed.
Lemma frame_SetBytes k v : preserves (same_accounts (S := S)) (SetBytes k v).
Proof. intros s. unfold same_accounts. simpl. by store. Qed.
Lemma frame_DeleteBytes k : preserves (same_accounts (S := S)) (DeleteBytes k).
Proof. intros s. unfold same_accounts. simpl. by store. Qed.

Lemma frame_GetAccount a : preserves (same_kv (S := S)) (GetAccount a).
Proof. intros s. unfold GetAccount. by destruct (acc_map s !! a). Qed.
Lemma frame_deref p : preserves (same_kv (S := S)) (deref p).
Proof. intros s. destruct p; simpl; [|done]. by destruct (acc_map s !! a). Qed.
Lemma frame_acc_put a acc : preserves (same_kv (S := S)) (modify (acc_put a acc)).
Proof. intros s. unfold same_kv. simpl. by store. Qed.
End frames.

#[export] Hint Resolve frame_GetBytes frame_SetBytes frame_DeleteBytes
  frame_GetAccount frame_deref frame_acc_put : preserves.

Section more_frames.
Context {S : Type} `{StakingStore S}.

Lemma frame_mutate p m : preserves (same_kv (S := S)) (mutate p m).
Proof. unfold mutate. frame. Qed.
Lemma frame_SetAccount a p : preserves (same_kv (S := S)) (SetAccount a p).
Proof. unfold SetAccount. frame. Qed.
Lemma frame_GetOrNewAccount a : preserves (same_kv (S := S)) (GetOrNewAccount a).
Proof. unfold GetOrNewAccount. frame. Qed.
Lemma frame_credit a v : preserves (same_kv (S := S)) (credit a v).
Proof. intros s. rewrite credit_spec. unfold same_kv. case_match; simpl; by store. Qed.
End more_frames.

#[export] Hint Resolve frame_mutate frame_SetAccount frame_GetOrNewAccount frame_credit : preserves.
