(* ===== verification/Keys.v ===== *)
(** * Keys of the key-value store (staking/registry.go, staking/economics.go,
      staking/slashing.go, staking/snapshot.go, consensus/slashing.go,
      state/memory.go)

    The string keys under which the components keep their data, rendered as
    the code renders them. [key] is the type of all of them; [render_inj]
    shows that distinct keys are distinct strings, so no component can
    overwrite another one's entries. *)

From S2P Require Import Prelude Address.


(** ** Hexadecimal and decimal *)

Definition hex_char (d : Z) : Ascii.ascii :=
  nth (Z.to_nat d) (String.list_ascii_of_string "0123456789abcdef") Ascii.Space.

(** [fmt.Sprintf("%x", b)] and [hex.EncodeToString(b)]. *)
Fixpoint hex (l : bytes) : string :=
  match l with
  | [] => ""
  | b :: l' => String (hex_char (b2z b / 16)) (String (hex_char (b2z b mod 16)) (hex l'))
  end.

(** [strconv.FormatUint(v, 10)] and [%d] of an unsigned integer. *)
Definition dec (v : Z) : string := pretty v.

(** ** The keys *)

Definition keyValidatorCount : string := "validator/count".
Definition validatorKey (id : Address) : string := "validator/" +:+ hex id.
Definition validatorBySeqKey (seq : Z) : string := "validator/by-seq/" +:+ dec seq.
Definition validatorPubkeyKey (pubKey : bytes) : string := "validator/pubkey/" +:+ hex pubKey.
Definition validatorOperatorKey (addr : Address) : string :=
  "validator/operator/" +:+ Address_String addr.
Definition keyTotalBonded : string := "staking/total_bonded".
Definition keyUnstakeCooldown : string := "staking/unstake_cooldown".
Definition keySlashParams : string := "staking/slash_params".
Definition keyCurrentEpoch : string := "epoch/current".
Definition keyBlocksPerEpoch : string := "epoch/blocks_per_epoch".
Definition snapshotKey (epoch : Z) : string := "snapshot/" +:+ dec epoch.
Definition keyLatestEpoch : string := "snapshot/latest".
Definition KeyTotalSupply : string := "economics/total_supply".
Definition KeyTreasurySupply : string := "economics/treasury_supply".
Definition KeyIssuedSupply : string := "economics/issued_supply".
Definition KeyEpochIssuance (epoch : Z) : string := "economics/epoch_issuance/" +:+ dec epoch.
Definition KeyEpochValidatorPool (epoch : Z) : string :=
  "economics/epoch_validator_pool/" +:+ dec epoch.
Definition evidenceProcessedKey (h : Hash) : string := "evidence/processed/" +:+ hex h.
Definition codeKey (contractID : Hash) : string := "code:" +:+ hex contractID.
Definition metaKey (contractID : Hash) : string := "meta:" +:+ hex contractID.
Definition storageKey (contractID keyHash : Hash) : string :=
  "storage:" +:+ hex contractID +:+ ":" +:+ hex keyHash.

Inductive key :=
  | KValidatorCount
  | KValidator (id : Address)
  | KBySeq (seq : Z)
  | KPubkey (pubKey : bytes)
  | KOperator (addr : Address)
  | KTotalBonded
  | KUnstakeCooldown
  | KSlashParams
  | KCurrentEpoch
  | KBlocksPerEpoch
  | KSnapshot (epoch : Z)
  | KLatestEpoch
  | KTotalSupply
  | KTreasurySupply
  | KIssuedSupply
  | KEpochIssuance (epoch : Z)
  | KEpochValidatorPool (epoch : Z)
  | KEvidenceProcessed (h : Hash)
  | KCode (contractID : Hash)
  | KMeta (contractID : Hash)
  | KStorage (contractID keyHash : Hash).

Definition render (k : key) : string :=
  match k with
  | KValidatorCount => keyValidatorCount
  | KValidator id => validatorKey id
  | KBySeq seq => validatorBySeqKey seq
  | KPubkey pk => validatorPubkeyKey pk
  | KOperator a => validatorOperatorKey a
  | KTotalBonded => keyTotalBonded
  | KUnstakeCooldown => keyUnstakeCooldown
  | KSlashParams => keySlashParams
  | KCurrentEpoch => keyCurrentEpoch
  | KBlocksPerEpoch => keyBlocksPerEpoch
  | KSnapshot e => snapshotKey e
  | KLatestEpoch => keyLatestEpoch
  | KTotalSupply => KeyTotalSupply
  | KTreasurySupply => KeyTreasurySupply
  | KIssuedSupply => KeyIssuedSupply
  | KEpochIssuance e => KeyEpochIssuance e
  | KEpochValidatorPool e => KeyEpochValidatorPool e
  | KEvidenceProcessed h => evidenceProcessedKey h
  | KCode c => codeKey c
  | KMeta c => metaKey c
  | KStorage c k => storageKey c k
  end.

(** ** Injectivity *)

Lemma hex_char_inj a b : 0 <= a < 16 → 0 <= b < 16 → hex_char a = hex_char b → a = b.
Proof.
  intros Ha Hb H.
  assert (forallb (λ i, forallb (λ j,
    bool_decide (hex_char (Z.of_nat i) = hex_char (Z.of_nat j) → i = j)) (seq 0 16)) (seq 0 16)
    = true) as Hall by (vm_compute; reflexivity).
  rewrite forallb_forall in Hall.
  specialize (Hall (Z.to_nat a) ltac:(apply in_seq; lia)).
  rewrite forallb_forall in Hall.
  specialize (Hall (Z.to_nat b) ltac:(apply in_seq; lia)).
  apply bool_decide_eq_true in Hall. rewrite !Z2Nat.id in Hall by lia.
  specialize (Hall H). lia.
Qed.

Lemma hex_inj l k : hex l = hex k → l = k.
Proof.
  revert k. induction l as [|b l IH]; intros [|c k]; simpl; try done.
  intros [= H1 H2 H3]. f_equal; [|by apply IH].
  pose proof (b2z_range b). pose proof (b2z_range c).
  apply hex_char_inj in H1; [|split; [apply Z.div_pos; lia|apply Z.div_lt_upper_bound; lia]..].
  apply hex_char_inj in H2; [|apply Z.mod_pos_bound; lia..].
  apply b2z_inj. pose proof (Z.div_mod (b2z b) 16). pose proof (Z.div_mod (b2z c) 16). lia.
Qed.

Lemma dec_inj a b : dec a = dec b → a = b.
Proof. apply (inj (pretty (A := Z))). Qed.

(** Two words over disjoint alphabets differ: [chars P s] says that every
    character of [s] satisfies [P]. *)
Fixpoint chars (P : Ascii.ascii → bool) (s : string) : bool :=
  match s with
  | "" => true
  | String c s' => P c && chars P s'
  end.

Definition is_hex (c : Ascii.ascii) : bool :=
  existsb (Ascii.eqb c) (String.list_ascii_of_string "0123456789abcdef").
Definition is_dec (c : Ascii.ascii) : bool :=
  existsb (Ascii.eqb c) (String.list_ascii_of_string "0123456789-").

Lemma hex_char_is_hex d : 0 <= d < 16 → is_hex (hex_char d) = true.
Proof.
  intros Hd. unfold is_hex. apply existsb_exists. exists (hex_char d). split.
  - apply nth_In. cbn. lia.
  - apply Ascii.eqb_refl.
Qed.

Lemma hex_chars l : chars is_hex (hex l) = true.
Proof.
  induction l as [|b l IH]; [done|]. cbn [hex chars]. pose proof (b2z_range b).
  rewrite IH, !hex_char_is_hex; [done| |].
  - apply Z.mod_pos_bound; lia.
  - split; [apply Z.div_pos; lia|apply Z.div_lt_upper_bound; lia].
Qed.

Lemma pretty_char_is_dec n : is_dec (pretty_N_char n) = true.
Proof. unfold pretty_N_char. repeat case_match; reflexivity. Qed.

Lemma pretty_go_chars n s : chars is_dec s = true → chars is_dec (pretty_N_go n s) = true.
Proof.
  revert s. induction (N.lt_wf_0 n) as [n _ IH]; intros s Hs.
  destruct (decide (0 < n)%N) as [Hp|Hp].
  - rewrite pretty_N_go_step by done. apply IH; [by apply N.div_lt|].
    cbn [chars]. by rewrite pretty_char_is_dec, Hs.
  - replace n with 0%N by lia. by rewrite pretty_N_go_0.
Qed.

Lemma dec_chars v : chars is_dec (dec v) = true.
Proof.
  assert (∀ n, chars is_dec (pretty_N n) = true) as HN.
  { intros n. unfold pretty_N. case_decide; [done|]. by apply pretty_go_chars. }
  unfold dec, pretty, pretty_Z. destruct v; [done|apply HN|].
  change (chars is_dec ("-" +:+ pretty_N (N.pos p)) = true). cbn [chars String.append]. apply HN.
Qed.

Lemma hex_app_inj (a b : Hash) s t : hex a +:+ s = hex b +:+ t → a = b ∧ s = t.
Proof.
  assert (∀ l k : bytes, length l = length k → hex l +:+ s = hex k +:+ t → l = k ∧ s = t) as Haux.
  { induction l as [|x l IH]; intros [|y k] Hlen H; try done.
    simpl in H. injection H as H1 H2 H3. injection Hlen as Hlen.
    destruct (IH k Hlen H3) as [-> ->]. split; [|done]. f_equal.
    apply (f_equal (λ c, String c "")) in H1. apply (f_equal (λ c, String c "")) in H2.
    assert (hex [x] = hex [y]) as Hxy by (simpl; congruence).
    apply hex_inj in Hxy. congruence. }
  intros H. destruct (Haux a b) as [Hab Hst]; [by rewrite !arr_length|done|].
  split; [by apply arr_eq|done].
Qed.

(** [hex x] is not a word with another letter; [dec x] neither. *)
Lemma hex_not l s : chars is_hex s = false → hex l ≠ s.
Proof. intros Hs H. pose proof (hex_chars l) as Hc. by rewrite H, Hs in Hc. Qed.

Lemma dec_not v s : chars is_dec s = false → dec v ≠ s.
Proof. intros Hs H. pose proof (dec_chars v) as Hc. by rewrite H, Hs in Hc. Qed.

Lemma append_cancel p a b : p +:+ a = p +:+ b → a = b.
Proof. apply (inj (String.append p)). Qed.

(** Distinct keys are distinct strings. *)
Lemma render_inj k1 k2 : render k1 = render k2 → k1 = k2.
Proof.
  destruct k1, k2; try reflexivity; try discriminate; intros H;
    first
      [ apply (append_cancel _ (hex _) (hex _)) in H; apply hex_inj in H; f_equal;
        first [exact H | by apply arr_eq]
      | apply (append_cancel _ (dec _) (dec _)) in H; apply dec_inj in H; by f_equal
      | apply (append_cancel _ (Address_String _) (Address_String _)) in H;
        apply Address_String_inj in H; by f_equal
      | apply (append_cancel "validator/" (hex _) _) in H; by apply hex_not in H
      | apply (append_cancel "snapshot/" (dec _) _) in H; by apply dec_not in H
      | symmetry in H; apply (append_cancel "validator/" (hex _) _) in H; by apply hex_not in H
      | symmetry in H; apply (append_cancel "snapshot/" (dec _) _) in H; by apply dec_not in H
      | idtac ].
  apply (append_cancel "storage:") in H. apply hex_app_inj in H as [-> H].
  apply (append_cancel ":") in H. apply hex_inj in H. f_equal. by apply arr_eq.
Qed.

Lemma render_ne k1 k2 : k1 ≠ k2 → render k1 ≠ render k2.
Proof. intros Hne H. by apply Hne, render_inj. Qed.

Lemma validatorPubkeyKey_inj a b : validatorPubkeyKey a = validatorPubkeyKey b → a = b.
Proof. intros E. assert (KPubkey a = KPubkey b) as Ek by exact (render_inj (KPubkey a) (KPubkey b) E). congruence. Qed.

Lemma validatorOperatorKey_inj a b : validatorOperatorKey a = validatorOperatorKey b → a = b.
Proof. intros E. assert (KOperator a = KOperator b) as Ek by exact (render_inj (KOperator a) (KOperator b) E). congruence. Qed.

Lemma validatorBySeqKey_inj a b : validatorBySeqKey a = validatorBySeqKey b → a = b.
Proof. intros E. assert (KBySeq a = KBySeq b) as Ek by exact (render_inj (KBySeq a) (KBySeq b) E). congruence. Qed.

(** [key_ne] decides disequalities between rendered keys; [kv_simpl] computes
    lookups after updates. *)
Ltac reify_key s :=
  lazymatch s with
  | keyValidatorCount => constr:(KValidatorCount)
  | validatorKey ?x => constr:(KValidator x)
  | validatorBySeqKey ?x => constr:(KBySeq x)
  | validatorPubkeyKey ?x => constr:(KPubkey x)
  | validatorOperatorKey ?x => constr:(KOperator x)
  | keyTotalBonded => constr:(KTotalBonded)
  | keyUnstakeCooldown => constr:(KUnstakeCooldown)
  | keySlashParams => constr:(KSlashParams)
  | keyCurrentEpoch => constr:(KCurrentEpoch)
  | keyBlocksPerEpoch => constr:(KBlocksPerEpoch)
  | snapshotKey ?x => constr:(KSnapshot x)
  | keyLatestEpoch => constr:(KLatestEpoch)
  | KeyTotalSupply => constr:(KTotalSupply)
  | KeyTreasurySupply => constr:(KTreasurySupply)
  | KeyIssuedSupply => constr:(KIssuedSupply)
  | KeyEpochIssuance ?x => constr:(KEpochIssuance x)
  | KeyEpochValidatorPool ?x => constr:(KEpochValidatorPool x)
  | evidenceProcessedKey ?x => constr:(KEvidenceProcessed x)
  | codeKey ?x => constr:(KCode x)
  | metaKey ?x => constr:(KMeta x)
  | storageKey ?x ?y => constr:(KStorage x y)
  end.

Ltac key_ne :=
  lazymatch goal with
  | |- ?a ≠ ?b =>
      let ka := reify_key a in let kb := reify_key b in
      apply (render_ne ka kb); congruence
  end.

Ltac kv_simpl :=
  repeat match goal with
  | |- context [ <[?k := ?v]> ?m !! ?k' ] =>
      first [ constr_eq k k'; rewrite (lookup_insert_eq m k v)
            | rewrite (lookup_insert_ne m k k' v) by key_ne ]
  | |- context [ delete ?k ?m !! ?k' ] =>
      first [ constr_eq k k'; rewrite (lookup_delete_eq m k)
            | rewrite (lookup_delete_ne m k k') by key_ne ]
  end.

(** Keys are compared through [render_inj], never by unfolding them. *)
#[global] Opaque keyValidatorCount validatorKey validatorBySeqKey validatorPubkeyKey
  validatorOperatorKey keyTotalBonded keyUnstakeCooldown keySlashParams keyCurrentEpoch
  keyBlocksPerEpoch snapshotKey keyLatestEpoch KeyTotalSupply KeyTreasurySupply KeyIssuedSupply
  KeyEpochIssuance KeyEpochValidatorPool evidenceProcessedKey codeKey metaKey storageKey.
