(* ===== verification/State.v ===== *)
(** * The state database (state/memory.go, state/transitions.go, state/persistent.go)

    [InMemoryState]: accounts, the generic key-value store, the tree of the
    last commit and the stack of snapshots; [PersistentState]: the cached
    accounts and entries of the database-backed variant. Both are instances
    of the interfaces of Store.v. Locks are not modelled: every exported
    method holds the mutex for its whole body, so methods are atomic. *)

From S2P Require Import Prelude Codec Sha256 Address Amount Tx Votes Block Store Smt Keys.

(** ** InMemoryState *)

(** Snapshots are deep copies: their accounts are values. *)
Record snapshot := mkSnapshot {
  snap_accounts : gmap Address Account;
  snap_kvstore : gmap string bytes;
}.

Record InMemoryState := mkInMemoryState {
  accounts : gmap Address Account;
  kvstore : gmap string bytes;
  smt : SMT;
  snapshots : list snapshot;
}.

Definition NewInMemoryState : InMemoryState := mkInMemoryState ∅ ∅ NewSMT [].

#[global] Instance InMemoryState_KVStore : KVStore InMemoryState := {
  kv_map := kvstore;
  kv_put k v s := mkInMemoryState (accounts s) (<[k := v]> (kvstore s)) (smt s) (snapshots s);
  kv_del k s := mkInMemoryState (accounts s) (delete k (kvstore s)) (smt s) (snapshots s);
}.

#[global] Instance InMemoryState_AccountStore : AccountStore InMemoryState := {
  acc_map := accounts;
  acc_put a acc s := mkInMemoryState (<[a := acc]> (accounts s)) (kvstore s) (smt s) (snapshots s);
}.

#[global] Instance InMemoryState_StakingStore : StakingStore InMemoryState.
Proof. by split. Qed.

Definition DeleteAccount (addr : Address) : go InMemoryState unit :=
  modify (λ s, mkInMemoryState (delete addr (accounts s)) (kvstore s) (smt s) (snapshots s)).

(** *** Commit *)

(** Addresses and keys are ordered as byte strings. *)
Definition addr_less : Address * Account → Address * Account → bool :=
  less_by (λ e, arr_bytes e.1).
Definition str_less : string * bytes → string * bytes → bool :=
  less_by (λ e, str_bytes e.1).

(** Encode an account into a fresh buffer and insert it. *)
Definition commit_account `{Hasher} (e : Address * Account) : go SMT unit :=
  buf ← lift (encode_bytes (Account_Encode e.2));
  Insert e.1 buf.

Definition commit_kv `{Hasher} (e : string * bytes) : go SMT unit :=
  Insert (str_bytes e.1) e.2.

(** The tree is rebuilt from the accounts in address order and the entries in
    key order. *)
Definition build_smt `{Hasher} (accs : gmap Address Account) (kvs : gmap string bytes) : go SMT unit :=
  for_each (sort_slice addr_less (map_to_list accs)) commit_account;;
  for_each (sort_slice str_less (map_to_list kvs)) commit_kv.

Definition Commit `{Hasher} : go InMemoryState Hash := λ s,
  let '(t, r) := build_smt (accounts s) (kvstore s) NewSMT in
  let s' := mkInMemoryState (accounts s) (kvstore s) t (snapshots s) in
  (s', r' ← r; Ok (Root t)).

Definition GetStateRoot (s : InMemoryState) : Hash := Root (smt s).

(** *** Snapshots *)

Definition Snapshot : go InMemoryState Z := λ s,
  (mkInMemoryState (accounts s) (kvstore s) (smt s)
     (snapshots s ++ [mkSnapshot (accounts s) (kvstore s)]),
   Ok (Z.of_nat (length (snapshots s)))).

Definition RevertToSnapshot (id : Z) : go InMemoryState unit := λ s,
  if (id <? 0) || (Z.of_nat (length (snapshots s)) <=? id) then (s, Err ErrInvalidSnapshot) else
  match snapshots s !! Z.to_nat id with
  | None => (s, Panic)
  | Some snap =>
      (mkInMemoryState (snap_accounts snap) (snap_kvstore snap) (smt s)
         (take (Z.to_nat id) (snapshots s)), Ok tt)
  end.

(** *** Contract storage *)

Section contract_storage.
Context {S : Type} `{KVStore S, AccountStore S}.

Definition GetCode (contractID : Hash) : go S bytes :=
  val ← GetBytes (codeKey contractID);
  match val with None => throw ErrContractNotFound | Some v => mret v end.

Definition SetCode (contractID : Hash) (code : bytes) : go S unit :=
  SetBytes (codeKey contractID) code.

Definition GetContractMeta (contractID : Hash) : go S ContractMetadata :=
  val ← GetBytes (metaKey contractID);
  match val with
  | None => throw ErrContractNotFound
  | Some v => lift (run_reader ContractMetadata_Decode v)
  end.

Definition SetContractMeta (contractID : Hash) (meta : ContractMetadata) : go S unit :=
  buf ← lift (encode_bytes (ContractMetadata_Encode meta));
  SetBytes (metaKey contractID) buf.

Definition GetContractStorage (contractID : Hash) (key : bytes) : go S bytes :=
  val ← GetBytes (storageKey contractID (Sum256 key));
  match val with None => throw (Errorf "storage key not found") | Some v => mret v end.

Definition SetContractStorage (contractID : Hash) (key value : bytes) : go S unit :=
  guard_err (64 * 1024 <? Z.of_nat (length value)) (Errorf "storage value exceeds 64 KiB limit");;
  SetBytes (storageKey contractID (Sum256 key)) value.
End contract_storage.

(** ** State transitions (state/transitions.go) *)

Section transitions.
Context {S : Type} `{KVStore S, AccountStore S}.

Definition Transfer (from to : Address) (amount : Amount) : go S unit :=
  if decide (from = to) then mret tt else
  sender ← wrap "sender" (GetAccount from);
  receiver ← GetOrNewAccount to;
  acc ← deref sender;
  guard_err (Amount_lt (acc_Balance acc) amount) (Errorf "insufficient balance");;
  sender ← mutate sender (SubBalance amount);
  receiver ← mutate receiver (AddBalance amount);
  SetAccount from sender;;
  SetAccount to receiver.

Definition Mint (addr : Address) (amount : Amount) : go S unit :=
  acc ← wrap "account not found" (GetAccount addr);
  acc ← mutate acc (AddBalance amount);
  SetAccount addr acc.

Definition Burn (addr : Address) (amount : Amount) : go S unit :=
  acc ← wrap "account not found" (GetAccount addr);
  acc ← mutate acc (SubBalance amount);
  SetAccount addr acc.
End transitions.

(** ** PersistentState

    The in-memory part of the database-backed state; Persist.v models how it
    is opened from and committed to a database. *)

Record PersistentState := mkPersistentState {
  ps_cache : gmap Address Account;
  ps_kvstore : gmap string bytes;
  ps_root : Hash;
}.

#[global] Instance PersistentState_KVStore : KVStore PersistentState := {
  kv_map := ps_kvstore;
  kv_put k v s := mkPersistentState (ps_cache s) (<[k := v]> (ps_kvstore s)) (ps_root s);
  kv_del k s := mkPersistentState (ps_cache s) (delete k (ps_kvstore s)) (ps_root s);
}.

#[global] Instance PersistentState_AccountStore : AccountStore PersistentState := {
  acc_map := ps_cache;
  acc_put a acc s := mkPersistentState (<[a := acc]> (ps_cache s)) (ps_kvstore s) (ps_root s);
}.

#[global] Instance PersistentState_StakingStore : StakingStore PersistentState.
Proof. by split. Qed.

(** ** Lemmas on transitions *)

Section transition_lemmas.
Context {S : Type} `{StakingStore S}.
Implicit Types s : S.

(** The whole behaviour of [Transfer] between distinct accounts. *)
Lemma Transfer_spec s from to amount :
  from ≠ to →
  Transfer from to amount s =
  match acc_map s !! from with
  | None => (s, Err (Wrapf "sender" (Errorf "account not found")))
  | Some src =>
      if Amount_lt (acc_Balance src) amount then (s, Err (Errorf "insufficient balance")) else
      let s1 := acc_put from (set_balance src (acc_Balance src - amount)) s in
      match AddBalance amount (account_at s to) with
      | Ok dst => (acc_put to dst s1, Ok tt)
      | Err e => (s1, Err e)
      | Panic => (s1, Panic)
      end
  end.
Proof.
  intros Hne. unfold Transfer. rewrite decide_False by done.
  destruct (acc_map s !! from) as [src|] eqn:Ef.
  2:{ unfold wrap, mbind, go_bind. by rewrite GetAccount_none. }
  rewrite (go_bind_ok _ _ s s (Stored from)) by (by apply wrap_ok, (GetAccount_some s from src)).
  rewrite (go_bind_ok _ _ s s _ (GetOrNewAccount_spec s to)).
  rewrite (go_bind_ok _ _ s s src) by (by apply deref_spec).
  unfold guard_err. destruct (Amount_lt (acc_Balance src) amount) eqn:Elt; [done|].
  unfold mbind at 1, go_bind at 1; simpl.
  rewrite Amount_lt_spec in Elt. apply Z.ltb_ge in Elt.
  rewrite (go_bind_ok _ _ _ _ _ (mutate_stored_ok s from _ src _ Ef (SubBalance_ok _ _ Elt))).
  set (s1 := acc_put from _ s).
  assert (acc_map s1 !! to = acc_map s !! to) as Eto
    by (unfold s1; store; by rewrite lookup_insert_ne).
  assert (or_new s to = or_new s1 to ∧ account_at s to = account_at s1 to) as [-> ->]
    by (unfold or_new, account_at; by rewrite Eto).
  unfold mbind, go_bind. rewrite mutate_or_new.
  destruct (AddBalance amount (account_at s1 to)); [|done|done].
  destruct (acc_map s1 !! to); unfold SetAccount; repeat rewrite decide_True; done.
Qed.

Lemma Transfer_self s a amount : Transfer a a amount s = (s, Ok tt).
Proof. unfold Transfer. by rewrite decide_True. Qed.
End transition_lemmas.

(** ** Lemmas on commits and snapshots *)

Section commit_lemmas.
Context `{Hasher} (Hhash : ∀ data, ∃ h, hash_data data = Ok h).

Lemma Insert_ok key value t : ∃ t', Insert key value t = (t', Ok tt).
Proof.
  destruct (Hhash key) as [path Hp]. destruct (Hhash value) as [vh Hv].
  destruct (Hhash (x00 :: arr_bytes path ++ arr_bytes vh)) as [lh Hl].
  destruct (Insert_values key value t path lh Hp) as (t' & Hi & _); [|by exists t'].
  unfold leafHash, mbind, res_bind. by rewrite Hv, Hl.
Qed.

Lemma for_each_ok {A} (l : list A) (body : A → go SMT unit) t :
  Forall (λ x, ∀ t, ∃ t', body x t = (t', Ok tt)) l → ∃ t', for_each l body t = (t', Ok tt).
Proof.
  intros Hl. revert t. induction Hl as [|x l Hx _ IH]; intros t; [by exists t|].
  destruct (Hx t) as [t1 H1]. destruct (IH t1) as [t2 H2]. exists t2.
  cbn [for_each]. by rewrite (go_bind_ok _ _ _ _ _ H1).
Qed.

Lemma Account_encodes a : amount_ok (acc_Balance a) → ∃ bs, encode_bytes (Account_Encode a) = Ok bs.
Proof.
  intros Hb. destruct a as [ad b n sr ch p pk]; simpl in Hb.
  assert (∃ bs, emits (Account_Encode (mkAccount ad b n sr ch p pk)) bs) as [bs He].
  { eexists. unfold Account_Encode; simpl. apply emits_bind; [apply emits_Write|].
    apply emits_bind; [by apply emits_amount16|]. emit. }
  exists bs. unfold encode_bytes, run_writer. by rewrite (He []).
Qed.

Lemma build_smt_ok (accs : gmap Address Account) (kvs : gmap string bytes) t :
  (∀ a acc, accs !! a = Some acc → amount_ok (acc_Balance acc)) →
  ∃ t', build_smt accs kvs t = (t', Ok tt).
Proof.
  intros Hok. unfold build_smt.
  destruct (for_each_ok (sort_slice addr_less (map_to_list accs)) commit_account t) as [t1 H1].
  { apply Forall_forall. intros [a acc] Hin t0. rewrite sort_slice_perm in Hin.
    apply elem_of_map_to_list in Hin. destruct (Account_encodes acc (Hok a acc Hin)) as [bs Hbs].
    unfold commit_account. cbn [fst snd]. rewrite Hbs. apply Insert_ok. }
  rewrite (go_bind_ok _ _ _ _ _ H1). apply for_each_ok, Forall_forall.
  intros [k v] _ t0. apply Insert_ok.
Qed.

(** [Commit] cannot fail on a state with balances in range. *)
Lemma Commit_ok s :
  balances_ok s →
  ∃ t root, Commit s = (mkInMemoryState (accounts s) (kvstore s) t (snapshots s), Ok root) ∧
    root = Root t ∧ build_smt (accounts s) (kvstore s) NewSMT = (t, Ok tt).
Proof.
  intros Hb. destruct (build_smt_ok (accounts s) (kvstore s) NewSMT Hb) as [t Ht].
  exists t, (Root t). unfold Commit. by rewrite Ht.
Qed.
End commit_lemmas.

Lemma map_to_list_key {K A} `{Countable K} (m : gmap K A) x y :
  x ∈ map_to_list m → y ∈ map_to_list m → x.1 = y.1 → x = y.
Proof.
  destruct x as [k a], y as [k' a']. simpl. intros Hx Hy ->.
  apply elem_of_map_to_list in Hx, Hy. congruence.
Qed.

(** ** Properties *)

(** The state root is a function of the contents. On a state whose
    balances are in range [Commit] always succeeds, keeps accounts, entries and
    snapshots, and two states with the same accounts and entries get the same
    root, whatever tree they held before; the order in which Go iterates over its
    maps does not matter, since any enumeration sorts to the same list. *)
Theorem commit_deterministic `{Hasher} (s t : InMemoryState) :
  (∀ data, ∃ h, hash_data data = Ok h) → balances_ok s →
  accounts t = accounts s → kvstore t = kvstore s →
  (∃ s' t' root, Commit s = (s', Ok root) ∧ Commit t = (t', Ok root) ∧
     GetStateRoot s' = root ∧ GetStateRoot t' = root ∧
     accounts s' = accounts s ∧ kvstore s' = kvstore s ∧ snapshots s' = snapshots s) ∧
  (∀ l, l ≡ₚ map_to_list (accounts s) →
     sort_slice addr_less l = sort_slice addr_less (map_to_list (accounts s))) ∧
  (∀ l, l ≡ₚ map_to_list (kvstore s) →
     sort_slice str_less l = sort_slice str_less (map_to_list (kvstore s))).
Proof.
  intros Hh Hb Ea Ek. destruct (Commit_ok Hh s Hb) as (tr & root & Hc & Hr & Hbuild). split_and!.
  - do 3 eexists. split; [exact Hc|]. unfold Commit. rewrite Ea, Ek, Hbuild, <- Hr. by split_and!.
  - intros l Hl. apply sort_by_key_unique; [|by rewrite sort_slice_perm|apply sort_slice_sorted, _].
    intros x y Hx Hy E. apply (map_to_list_key (accounts s)); [done..|]. by apply arr_eq.
  - intros l Hl. apply sort_by_key_unique; [|by rewrite sort_slice_perm|apply sort_slice_sorted, _].
    intros x y Hx Hy E. apply (map_to_list_key (kvstore s)); [done..|].
    rewrite <- (bytes_str_bytes x.1), E. apply bytes_str_bytes.
Qed.

(** Reverting undoes everything since the snapshot. Whatever happened to
    accounts and entries after [Snapshot] (later snapshots included, as long as
    the earlier ones are still on the stack), [RevertToSnapshot] with the
    identifier it returned restores the accounts and the entries of that moment
    and drops this snapshot and all later ones; an identifier that is not on the
    stack is refused without effect. *)
Theorem revert_restores (s s1 s2 : InMemoryState) (id : Z) :
  Snapshot s = (s1, Ok id) → (∃ later, snapshots s2 = snapshots s1 ++ later) →
  (∃ s3, RevertToSnapshot id s2 = (s3, Ok tt) ∧ accounts s3 = accounts s ∧ kvstore s3 = kvstore s ∧
         snapshots s3 = snapshots s) ∧
  (∀ bad, bad < 0 ∨ Z.of_nat (length (snapshots s2)) <= bad →
     RevertToSnapshot bad s2 = (s2, Err ErrInvalidSnapshot)).
Proof.
  intros Hs [later Hl]. unfold Snapshot in Hs. injection Hs as <- <-. simpl in Hl. split.
  - unfold RevertToSnapshot. rewrite Hl, !length_app, Nat2Z.id. cbn [length].
    rewrite (proj2 (Z.ltb_ge _ 0)) by lia. rewrite (proj2 (Z.leb_gt _ _)) by lia. cbn [orb].
    rewrite <- app_assoc, lookup_app_r, Nat.sub_diag by lia. cbn [lookup list_lookup app].
    eexists. split; [reflexivity|]. simpl. by rewrite take_app_length.
  - intros bad Hbad. unfold RevertToSnapshot. destruct Hbad as [Hlt|Hge].
    + by rewrite (proj2 (Z.ltb_lt _ _) Hlt).
    + by rewrite (proj2 (Z.leb_le _ _) Hge), orb_true_r.
Qed.

(** A successful transfer between two accounts moves exactly the amount:
    the sender's balance decreases by it, the receiver's increases by it, all
    other accounts and the key-value store are untouched, the total of all
    balances is conserved and every balance stays within 128 bits. *)
Theorem transfer_conserves {S} `{StakingStore S} (s s' : S) (from to : Address) (amount : Amount) :
  balances_ok s → amount_ok amount → from ≠ to →
  Transfer from to amount s = (s', Ok tt) →
  balance_at s' from = balance_at s from - amount ∧
  balance_at s' to = balance_at s to + amount ∧
  (∀ a, a ≠ from → a ≠ to → acc_map s' !! a = acc_map s !! a) ∧
  kv_map s' = kv_map s ∧
  total_balance s' = total_balance s ∧ balances_ok s'.
Proof.
  intros Hs Ham Hne. rewrite Transfer_spec by done.
  destruct (acc_map s !! from) as [src|] eqn:Ef; [|done].
  rewrite Amount_lt_spec. destruct (Z.ltb_spec (acc_Balance src) amount) as [|Hle]; [done|].
  destruct (AddBalance amount (account_at s to)) as [dst|e|] eqn:Ea; [|done|done].
  intros [= <-]. apply AddBalance_inv in Ea as [-> Hok]; [|by apply balances_ok_at|done].
  assert (balance_at s from = acc_Balance src) as Hb
    by (unfold balance_at, account_at; by rewrite Ef).
  assert (balance_at s to = acc_Balance (account_at s to)) as Ht by done.
  balances. rewrite Hb; simpl.
  rewrite <- Ht in *. split; [done|]. split; [done|]. split.
  { intros a Ha1 Ha2. store. by rewrite !lookup_insert_ne. }
  split; [by store|]. split; [lia|].
  apply balances_ok_put; [apply balances_ok_put; [done|]|done]. simpl.
  pose proof (Hs from src Ef) as Hsrc. unfold amount_ok, is_u128 in *. lia.
Qed.

Definition acct (a : Address) (b : Amount) : Account := set_balance (NewAccount a (arr_zero 32)) b.
Definition addr_of (v : Z) : Address := arr_copy 20 (be 20 v).
Definition two_accounts : InMemoryState :=
  acc_put (addr_of 2) (acct (addr_of 2) 5)
    (acc_put (addr_of 1) (acct (addr_of 1) 100) NewInMemoryState).

Lemma transfer_conserves_witness :
  total_balance (Transfer (addr_of 1) (addr_of 2) 40 two_accounts).1 = 105.
Proof.
  assert (balances_ok two_accounts) as Hok.
  { unfold two_accounts. repeat (apply balances_ok_put; [|done]). intros a acc. by store. }
  destruct (transfer_conserves two_accounts
    (Transfer (addr_of 1) (addr_of 2) 40 two_accounts).1 (addr_of 1) (addr_of 2) 40)
    as (_ & _ & _ & _ & Ht & _); [exact Hok|done| |apply run_outcome; vm_compute; reflexivity|].
  - intros H. apply (f_equal (λ a : Address, unbe a)) in H. vm_compute in H. discriminate H.
  - rewrite Ht. vm_compute. reflexivity.
Defined.

Lemma commit_deterministic_witness :
  ∃ s' t' root, Commit (H := SHA256Hasher) two_accounts = (s', Ok root) ∧
    Commit (H := SHA256Hasher)
      (mkInMemoryState (accounts two_accounts) (kvstore two_accounts)
         (mkSMT (arr_copy 32 [x01]) ∅ ∅) []) = (t', Ok root).
Proof.
  destruct (commit_deterministic (H := SHA256Hasher) two_accounts
    (mkInMemoryState (accounts two_accounts) (kvstore two_accounts)
       (mkSMT (arr_copy 32 [x01]) ∅ ∅) [])) as [(s' & t' & root & Hs & Ht & _) _].
  - intros data. exists (Sum256 data). reflexivity.
  - unfold two_accounts. repeat (apply balances_ok_put; [|done]). intros a acc. by store.
  - reflexivity.
  - reflexivity.
  - exists s', t', root. split; [exact Hs|exact Ht].
Defined.

Lemma revert_restores_witness :
  ∃ s3, RevertToSnapshot 0 (Transfer (addr_of 1) (addr_of 2) 40 (Snapshot two_accounts).1).1
          = (s3, Ok tt) ∧ accounts s3 = accounts two_accounts.
Proof.
  destruct (revert_restores two_accounts (Snapshot two_accounts).1
    (Transfer (addr_of 1) (addr_of 2) 40 (Snapshot two_accounts).1).1 0)
    as [(s3 & Hr & Ha & _) _].
  - reflexivity.
  - exists []. vm_compute. reflexivity.
  - exists s3. split; [exact Hr|exact Ha].
Defined.
