(* ===== verification/Applier.v ===== *)
(** * Applying transactions (state/applier.go)

    [ApplyTransaction] with its transfer and validator-registration branches.
    The clock is an argument, Ed25519 a parameter. Accounts are mutated in
    place through the pointers of Store.v, so the state after an error is the
    state the code really leaves behind. *)

From S2P Require Import Prelude Codec Sha256 Address Amount Tx Votes Block Smt Store Keys State.

Section applier.
Context {S : Type} `{KVStore S, AccountStore S} `{Ed25519}.

Definition getCurrentEpoch : go S Z :=
  epochBytes ← GetBytes keyCurrentEpoch;
  match epochBytes with
  | None => mret 0
  | Some b => lift (Uint64 b)
  end.

(** Step 6, first branch: recipient (20 bytes) and amount (8 bytes) are the
    head of the payload. *)
Definition apply_transfer (sender : acc_ptr) (tx : Transaction) (feeAmount : Amount) : go S unit :=
  recipientAddr ← wrap "invalid recipient address"
    (lift (AddressFromBytes (take 20 (tx_Payload tx))));
  let transferAmt := NewAmount (unbe (take 8 (drop 20 (tx_Payload tx)))) in
  totalCost ← wrap "total cost overflow" (lift (Amount_Add feeAmount transferAmt));
  acc ← deref sender;
  guard_err (Amount_lt (acc_Balance acc) totalCost)
    (Errorf "insufficient balance for transfer + fee");;
  recipient ← GetOrNewAccount recipientAddr;
  recipient ← wrap "failed to credit recipient" (mutate recipient (AddBalance transferAmt));
  sender ← mutate sender (SubBalance transferAmt);
  SetAccount recipientAddr recipient.

Definition minValidatorStake : Z := 100000.

(** The record written for a new validator. *)
Definition registration_record (tx : Transaction) (regMsg : ValidatorRegistrationMsg)
    (activationEpoch : Z) : bytes :=
  let stakeBytes := Amount_MarshalBinary (NewAmount (reg_Stake regMsg)) in
  reg_PubKey regMsg ++ tx_Sender tx ++ stakeBytes
  ++ replicate (16 - length stakeBytes) x00
  ++ be 2 (u16 (reg_Commission regMsg)) ++ [x00] ++ be 8 activationEpoch.

(** Step 6, second branch. *)
Definition apply_registration (sender : acc_ptr) (tx : Transaction) (feeAmount : Amount) : go S unit :=
  reg ← wrap "invalid validator registration" (lift (ValidatorRegistration tx));
  match reg with
  | None => throw (Errorf "validator registration message is nil")
  | Some regMsg =>
    guard_err (negb (bool_decide (reg_Address regMsg = tx_Sender tx)))
      (Errorf "sender address does not match registration address");;
    guard_err (negb (bool_decide (length (reg_PubKey regMsg) = 32%nat)))
      (Errorf "invalid public key length");;
    guard_err (reg_Stake regMsg <? minValidatorStake) (Errorf "stake amount below minimum");;
    guard_err (10000 <? reg_Commission regMsg) (Errorf "commission rate exceeds max 10000");;
    let stakeAmt := NewAmount (reg_Stake regMsg) in
    totalCost ← wrap "total cost overflow" (lift (Amount_Add feeAmount stakeAmt));
    acc ← deref sender;
    guard_err (Amount_lt (acc_Balance acc) totalCost)
      (Errorf "insufficient balance for stake + fee");;
    sender ← wrap "deduct stake" (mutate sender (SubBalance stakeAmt));
    let consensusID := DeriveConsensusIDFromBytes (reg_PubKey regMsg) in
    exists_ ← GetBytes (validatorKey consensusID);
    guard_err (bool_decide (is_Some exists_)) (Errorf "validator already registered");;
    currentEpoch ← getCurrentEpoch;
    let activationEpoch := u64 (currentEpoch + 1) in
    SetBytes (validatorKey consensusID) (registration_record tx regMsg activationEpoch);;
    SetBytes (validatorPubkeyKey (reg_PubKey regMsg)) consensusID;;
    SetBytes (validatorOperatorKey (tx_Sender tx)) consensusID;;
    countBytes ← GetBytes keyValidatorCount;
    count ← match countBytes with
            | None => mret 1
            | Some b => n ← lift (Uint64 b); mret (u64 (n + 1))
            end;
    SetBytes keyValidatorCount (be 8 count);;
    totalBondedBytes ← GetBytes keyTotalBonded;
    let totalBonded :=
      match totalBondedBytes with
      | None => NewAmount 0
      | Some b => match Amount_UnmarshalBinary b with Ok v => v | _ => NewAmount 0 end
      end in
    newTotalBonded ← lift (must (Amount_Add totalBonded stakeAmt));
    SetBytes keyTotalBonded (Amount_MarshalBinary newTotalBonded)
  end.

(** Step 6: what the transaction does, by its type. *)
Definition apply_payload (sender : acc_ptr) (tx : Transaction) (feeAmount : Amount) : go S unit :=
  if (tx_TxType tx =? TxTypeStandard) || (tx_TxType tx =? 0) then
    if bool_decide (28 <= length (tx_Payload tx))%nat
    then apply_transfer sender tx feeAmount else mret tt
  else if tx_TxType tx =? TxTypeValidatorRegistration
    then apply_registration sender tx feeAmount else mret tt.

(** Steps 7 to 9: the fee, the nonce and the sender's account. *)
Definition settle (sender : acc_ptr) (tx : Transaction) (feeAmount : Amount) : go S Hash :=
  sender ← mutate sender (SubBalance feeAmount);
  sender ← mutate sender IncrementNonce;
  SetAccount (tx_Sender tx) sender;;
  mret (tx_IntentID tx).

Definition ApplyTransaction (now : Z) (tx : Transaction) (height : Z) : go S Hash :=
  wrap "tx validation" (lift (Transaction_Validate now tx));;
  sender ← wrap "sender" (GetAccount (tx_Sender tx));
  acc ← deref sender;
  guard_err (negb (ed25519_Verify (acc_PublicKey acc) (tx_IntentID tx) (tx_Signature tx)))
    (Errorf "invalid signature");;
  guard_err (negb (tx_Nonce tx =? u64 (acc_Nonce acc + 1))) (Errorf "nonce mismatch");;
  let feeAmount := NewAmount (tx_MaxFee tx) in
  guard_err (Amount_lt (acc_Balance acc) feeAmount) (Errorf "insufficient balance for fee");;
  apply_payload sender tx feeAmount;;
  settle sender tx feeAmount.
End applier.

(** ** Lemmas *)

Definition nonce_at {S} `{AccountStore S} (s : S) (a : Address) : Z := acc_Nonce (account_at s a).

(** The recipient and the amount that a transfer payload names. *)
Definition payload_to (tx : Transaction) : Address := arr_copy 20 (take 20 (tx_Payload tx)).
Definition payload_amount (tx : Transaction) : Amount := unbe (take 8 (drop 20 (tx_Payload tx))).

Definition is_transfer (tx : Transaction) : Prop :=
  tx_TxType tx = TxTypeStandard ∧ (28 <= length (tx_Payload tx))%nat.

Section applier_lemmas.
Context {S : Type} `{StakingStore S} `{Ed25519}.
Implicit Types (s : S) (tx : Transaction) (acc : Account).

(** What steps 1 to 5 establish. *)
Record admitted (now : Z) tx s acc : Prop := {
  adm_valid : Transaction_Validate now tx = Ok tt;
  adm_sender : acc_map s !! tx_Sender tx = Some acc;
  adm_signed : ed25519_Verify (acc_PublicKey acc) (tx_IntentID tx) (tx_Signature tx) = true;
  adm_nonce : tx_Nonce tx = u64 (acc_Nonce acc + 1);
  adm_fee : tx_MaxFee tx <= acc_Balance acc;
}.

(** Steps 1 to 5 read only: they fail without effect or hand over to steps
    6 to 9. *)
Lemma ApplyTransaction_cases now tx height s :
  (∃ r, ApplyTransaction now tx height s = (s, r) ∧ (∀ h, r ≠ Ok h) ∧ (∀ acc, ¬ admitted now tx s acc)) ∨
  (∃ acc, admitted now tx s acc ∧
     ApplyTransaction now tx height s =
     (apply_payload (Stored (tx_Sender tx)) tx (tx_MaxFee tx);;
      settle (Stored (tx_Sender tx)) tx (tx_MaxFee tx)) s).
Proof.
  unfold ApplyTransaction.
  destruct (Transaction_Validate now tx) as [[]|e|] eqn:Ev.
  2:{ left. eexists. split; [done|]. split; [done|]. by intros acc []; congruence. }
  2:{ left. eexists. split; [done|]. split; [done|]. by intros acc []; congruence. }
  rewrite (go_bind_ok _ _ s s tt) by done.
  destruct (acc_map s !! tx_Sender tx) as [acc|] eqn:Ea.
  2:{ left. unfold wrap, mbind, go_bind. rewrite GetAccount_none by done.
      eexists. split; [done|]. split; [done|]. by intros acc []; congruence. }
  rewrite (go_bind_ok _ _ s s _ (wrap_ok _ _ _ _ _ (GetAccount_some s _ acc Ea))).
  rewrite (go_bind_ok _ _ s s acc) by (by apply deref_spec).
  assert (∀ acc', admitted now tx s acc' → acc' = acc) as Hu by (intros acc' []; congruence).
  destruct (ed25519_Verify _ _ _) eqn:Es; simpl.
  2:{ left. eexists. split; [done|]. split; [done|].
      intros acc' Ha. pose proof (Hu _ Ha) as ->. destruct Ha. congruence. }
  rewrite (go_bind_ok _ _ s s tt) by done.
  destruct (Z.eqb_spec (tx_Nonce tx) (u64 (acc_Nonce acc + 1))) as [En|En]; simpl.
  2:{ left. eexists. split; [done|]. split; [done|].
      intros acc' Ha. pose proof (Hu _ Ha) as ->. by destruct Ha. }
  rewrite (go_bind_ok _ _ s s tt) by done.
  rewrite Amount_lt_spec. unfold NewAmount. destruct (Z.ltb_spec (acc_Balance acc) (tx_MaxFee tx)) as [|Hf].
  - left. eexists. split; [done|]. split; [done|].
    intros acc' Ha. pose proof (Hu _ Ha) as ->. destruct Ha. lia.
  - right. exists acc. split; [by constructor|]. by rewrite (go_bind_ok _ _ s s tt).
Qed.

(** The sender's account after steps 7 and 8. *)
Definition settled acc (fee : Amount) : Account :=
  {| acc_Address := acc_Address acc; acc_Balance := acc_Balance acc - fee;
     acc_Nonce := u64 (acc_Nonce acc + 1); acc_StorageRoot := acc_StorageRoot acc;
     acc_CodeHash := acc_CodeHash acc; acc_Permissions := acc_Permissions acc;
     acc_PublicKey := acc_PublicKey acc |}.

Lemma settle_ok tx s acc fee :
  acc_map s !! tx_Sender tx = Some acc → fee <= acc_Balance acc →
  ∃ s', settle (Stored (tx_Sender tx)) tx fee s = (s', Ok (tx_IntentID tx)) ∧
        acc_map s' = <[tx_Sender tx := settled acc fee]> (acc_map s) ∧ kv_map s' = kv_map s.
Proof.
  intros Ha Hf. unfold settle.
  rewrite (go_bind_ok _ _ _ _ _ (mutate_stored_ok _ _ _ _ _ Ha (SubBalance_ok _ _ Hf))).
  set (s1 := acc_put _ _ s).
  assert (acc_map s1 !! tx_Sender tx = Some (set_balance acc (acc_Balance acc - fee))) as Ha1
    by (unfold s1; store; apply lookup_insert_eq).
  rewrite (go_bind_ok _ _ _ _ _ (mutate_stored_ok _ _ IncrementNonce _ _ Ha1 eq_refl)).
  rewrite (go_bind_ok _ _ _ _ tt) by apply SetAccount_stored.
  eexists. split; [done|]. unfold s1. store. by rewrite insert_insert_eq.
Qed.

(** A transfer either fails without effect or moves the amount. *)
Lemma apply_transfer_cases tx s acc fee :
  let to := payload_to tx in let amt := payload_amount tx in
  is_transfer tx → balances_ok s → is_u64 fee →
  acc_map s !! tx_Sender tx = Some acc →
  (∃ e, apply_transfer (Stored (tx_Sender tx)) tx fee s = (s, Err e) ∧
        (acc_Balance acc < fee + amt ∨ 2 ^ 128 <= balance_at s to + amt)) ∨
  (∃ s', apply_transfer (Stored (tx_Sender tx)) tx fee s = (s', Ok tt) ∧
         fee + amt <= acc_Balance acc ∧ balance_at s to + amt < 2 ^ 128 ∧
         kv_map s' = kv_map s ∧
         acc_map s' = if decide (to = tx_Sender tx) then acc_map s else
           <[tx_Sender tx := set_balance acc (acc_Balance acc - amt)]>
             (<[to := set_balance (account_at s to) (balance_at s to + amt)]> (acc_map s))).
Proof.
  intros to amt [_ Hlen] Hs Hfee Ha. unfold apply_transfer.
  assert (length (take 20 (tx_Payload tx)) = 20%nat) as Hl by (rewrite length_take; lia).
  unfold AddressFromBytes. rewrite bool_decide_true by done.
  rewrite (go_bind_ok _ _ s s to) by done.
  assert (is_u64 amt) as Hamt.
  { apply fits_u64. apply (unbe_fits _ 8). rewrite length_take, length_drop. lia. }
  pose proof (is_u64_amount _ Hamt) as Hamt'. pose proof (is_u64_amount _ Hfee) as Hfee'.
  unfold NewAmount. fold (payload_amount tx). fold amt.
  rewrite Amount_Add_ok by (done || unfold is_u64 in *; lia).
  rewrite (go_bind_ok _ _ s s (fee + amt)) by done.
  rewrite (go_bind_ok _ _ s s acc) by (by apply deref_spec).
  rewrite Amount_lt_spec. destruct (Z.ltb_spec (acc_Balance acc) (fee + amt)) as [Hlt|Hle].
  { left. eexists. split; [done|]. by left. }
  rewrite (go_bind_ok _ _ s s tt) by done.
  rewrite (go_bind_ok _ _ s s _ (GetOrNewAccount_spec s to)).
  pose proof (balances_ok_at s to Hs) as Hto. unfold wrap, mbind, go_bind.
  rewrite mutate_or_new. unfold balance_at in *.
  destruct (decide (acc_Balance (account_at s to) + amt < 2 ^ 128)) as [Hov|Hov].
  2:{ left. rewrite AddBalance_overflow by (done || lia). eexists. split; [done|]. right. lia. }
  right. rewrite AddBalance_ok by done. unfold account_at in *.
  destruct (decide (to = tx_Sender tx)) as [Heq|Hne].
  - rewrite Heq, Ha in *; simpl in *. set (s1 := acc_put _ _ s).
    assert (acc_map s1 !! tx_Sender tx = Some (set_balance acc (acc_Balance acc + amt))) as Ha1
      by (unfold s1; store; apply lookup_insert_eq).
    assert (amt <= acc_Balance acc + amt) as Hle' by (unfold is_u64 in *; lia).
    rewrite (mutate_stored_ok _ _ (SubBalance amt) _ _ Ha1 (SubBalance_ok amt (set_balance acc _) Hle')).
    rewrite decide_True by done. eexists. split; [done|]. do 2 (split; [done|]). unfold s1. store.
    split; [done|]. rewrite insert_insert_eq; simpl. apply insert_id. rewrite Ha. f_equal.
    destruct acc; unfold set_balance; simpl. f_equal. lia.
  - assert (fee + amt <= acc_Balance acc → amt <= acc_Balance acc) as Hle' by (unfold is_u64 in *; lia).
    destruct (acc_map s !! to) as [dst|] eqn:Et; simpl in *.
    + set (s1 := acc_put to _ s).
      assert (acc_map s1 !! tx_Sender tx = Some acc) as Ha1
        by (unfold s1; store; by rewrite lookup_insert_ne).
      rewrite (mutate_stored_ok _ _ _ _ _ Ha1 (SubBalance_ok _ _ (Hle' Hle))).
      rewrite decide_True by done. eexists. split; [done|]. do 2 (split; [done|]). unfold s1. by store.
    + rewrite (mutate_stored_ok _ _ _ _ _ Ha (SubBalance_ok _ _ (Hle' Hle))).
      eexists. split; [done|]. do 2 (split; [done|]). store. split; [done|].
      by rewrite insert_insert_ne.
Qed.

Lemma apply_payload_transfer tx fee p :
  is_transfer tx → apply_payload p tx fee = apply_transfer p tx fee.
Proof. intros [Ht Hl]. unfold apply_payload. rewrite Ht. simpl. by rewrite bool_decide_true. Qed.

(** The accounts after a transfer transaction was applied. *)
Definition after_transfer tx s acc : gmap Address Account :=
  let to := payload_to tx in let amt := payload_amount tx in
  if decide (to = tx_Sender tx) then <[tx_Sender tx := settled acc (tx_MaxFee tx)]> (acc_map s) else
  <[tx_Sender tx := settled (set_balance acc (acc_Balance acc - amt)) (tx_MaxFee tx)]>
    (<[to := set_balance (account_at s to) (balance_at s to + amt)]> (acc_map s)).

(** When a transfer transaction is applicable. *)
Definition transfer_funded tx s acc : Prop :=
  tx_MaxFee tx + payload_amount tx <= acc_Balance acc ∧
  balance_at s (payload_to tx) + payload_amount tx < 2 ^ 128.

Lemma ApplyTransaction_transfer now tx height s :
  is_transfer tx → balances_ok s → is_u64 (tx_MaxFee tx) →
  (∃ r, ApplyTransaction now tx height s = (s, r) ∧ (∀ h, r ≠ Ok h) ∧
        (∀ acc, ¬ (admitted now tx s acc ∧ transfer_funded tx s acc))) ∨
  (∃ acc s', admitted now tx s acc ∧ transfer_funded tx s acc ∧
     ApplyTransaction now tx height s = (s', Ok (tx_IntentID tx)) ∧
     acc_map s' = after_transfer tx s acc ∧ kv_map s' = kv_map s).
Proof.
  intros Ht Hs Hf. destruct (ApplyTransaction_cases now tx height s) as [(r & Hr & Hn & Ha)|(acc & Ha & ->)].
  { left. exists r. split; [done|]. split; [done|]. intros acc [? _]. by eapply Ha. }
  rewrite apply_payload_transfer by done.
  destruct (apply_transfer_cases tx s acc (tx_MaxFee tx) Ht Hs Hf (adm_sender _ _ _ _ Ha))
    as [(e & He & Hc)|(s1 & Hs1 & Hc & Hov & Hkv & Hacc)].
  { left. rewrite (go_bind_err _ _ _ _ _ He). eexists. split; [done|]. split; [done|].
    intros acc' [Ha' [Hc1 Hc2]].
    assert (acc' = acc) as -> by (destruct Ha, Ha'; congruence). lia. }
  right. rewrite (go_bind_ok _ _ _ _ _ Hs1).
  pose proof (adm_sender _ _ _ _ Ha) as Hsend. pose proof (adm_fee _ _ _ _ Ha) as Hfee.
  unfold after_transfer. destruct (decide (payload_to tx = tx_Sender tx)) as [|Hne].
  - rewrite <- Hacc in Hsend. destruct (settle_ok tx s1 acc _ Hsend Hfee) as (s2 & -> & Ha2 & Hk2).
    exists acc, s2. do 2 (split; [done|]). split; [done|]. rewrite Ha2, Hk2, Hacc. done.
  - set (acc1 := set_balance acc (acc_Balance acc - payload_amount tx)) in *.
    assert (acc_map s1 !! tx_Sender tx = Some acc1) as Hl1 by (rewrite Hacc; apply lookup_insert_eq).
    destruct (settle_ok tx s1 acc1 (tx_MaxFee tx) Hl1 ltac:(simpl; lia)) as (s2 & -> & Ha2 & Hk2).
    exists acc, s2. do 2 (split; [done|]). split; [done|]. rewrite Ha2, Hk2, Hacc.
    by rewrite insert_insert_eq.
Qed.
End applier_lemmas.

(** *** Registrations *)

(** The value under [keyTotalBonded], as the code reads it. *)
Definition bonded_total {S} `{KVStore S} (s : S) : Amount :=
  match kv_map s !! keyTotalBonded with
  | None => NewAmount 0
  | Some b => match Amount_UnmarshalBinary b with Ok v => v | _ => NewAmount 0 end
  end.

Section registration_lemmas.
Context {S : Type} `{StakingStore S} `{Ed25519}.
Implicit Types (s : S) (tx : Transaction) (acc : Account).

Lemma bonded_total_ok s : amount_ok (bonded_total s).
Proof.
  unfold bonded_total. destruct (kv_map s !! keyTotalBonded) as [b|]; [|done].
  unfold Amount_UnmarshalBinary. case_bool_decide as Hl; [done|].
  pose proof (unbe_range b) as Hr. unfold amount_ok, is_u128.
  change (2 ^ 128) with (256 ^ Z.of_nat 16). split; [lia|]. eapply Z.lt_le_trans; [apply Hr|]. apply Z.pow_le_mono_r; lia.
Qed.

Lemma getCurrentEpoch_inv s s' e : getCurrentEpoch s = (s', Ok e) → s' = s.
Proof. unfold getCurrentEpoch. intros Hrun. run_inv. by case_match; run_inv. Qed.

Lemma count_inv (o : option bytes) s s' n :
  match o with Some b => k ← lift (Uint64 b); mret (u64 (k + 1)) | None => mret 1 end s = (s', Ok n) →
  s' = s.
Proof. intros Hrun. by destruct o; run_inv. Qed.

(** Everything a registration that succeeds has checked and written. *)
Lemma apply_registration_inv tx fee s s' acc :
  acc_map s !! tx_Sender tx = Some acc →
  apply_registration (Stored (tx_Sender tx)) tx fee s = (s', Ok tt) →
  ∃ m epoch count,
    let id := DeriveConsensusIDFromBytes (reg_PubKey m) in
    let s1 := acc_put (tx_Sender tx) (set_balance acc (acc_Balance acc - reg_Stake m)) s in
    ValidatorRegistration tx = Ok (Some m) ∧
    reg_Address m = tx_Sender tx ∧ minValidatorStake <= reg_Stake m ∧ reg_Commission m <= 10000 ∧
    (∃ c, Amount_Add fee (reg_Stake m) = Ok c ∧ c <= acc_Balance acc) ∧
    kv_map s !! validatorKey id = None ∧
    Amount_Add (bonded_total s) (reg_Stake m) = Ok (bonded_total s + reg_Stake m) ∧
    s' = kv_put keyTotalBonded (Amount_MarshalBinary (bonded_total s + reg_Stake m))
           (kv_put keyValidatorCount (be 8 count)
              (kv_put (validatorOperatorKey (tx_Sender tx)) id
                 (kv_put (validatorPubkeyKey (reg_PubKey m)) id
                    (kv_put (validatorKey id) (registration_record tx m epoch) s1)))).
Proof.
  intros Ha Hrun. unfold apply_registration in Hrun.
  go_step Hrun. go_inv Hrun0. destruct a as [m|]; [|discriminate Hrun].
  run_inv. bool_hyps.
  apply deref_inv in Hrun6 as [-> Hacc]. simpl in Hacc. simplify_eq.
  apply mutate_stored_inv in Hrun8 as (acc1 & acc2 & Hacc1 & Hsub & -> & ->). simplify_eq.
  apply SubBalance_inv in Hsub as [-> _]. unfold NewAmount in *.
  rewrite Amount_lt_spec in Hrun7. apply Z.ltb_ge in Hrun7.
  apply getCurrentEpoch_inv in Hrun11 as ->. apply count_inv in Hrun16 as ->.
  apply must_inv in Hrun19.
  revert Hrun10 Hrun19. store. kv_simpl. intros Hno%eq_None_not_Some Hadd.
  change (Amount_Add (bonded_total s) (reg_Stake m) = Ok a7) in Hadd.
  assert (a7 = bonded_total s + reg_Stake m) as ->.
  { unfold Amount_Add in Hadd. case_match; [done|]. by apply Ok_inj in Hadd. }
  exists m, (u64 (a3 + 1)), a5. simpl. split_and!; eauto.
Qed.

Lemma apply_payload_registration p tx fee :
  tx_TxType tx = TxTypeValidatorRegistration →
  apply_payload p tx fee = apply_registration (S := S) p tx fee.
Proof. intros Ht. unfold apply_payload. by rewrite Ht. Qed.

(** Decoded registrations have a 32-byte key and a 64-bit stake. *)
Lemma ValidatorRegistration_wf tx m :
  ValidatorRegistration tx = Ok (Some m) →
  length (reg_PubKey m) = 32%nat ∧ is_u64 (reg_Stake m).
Proof.
  unfold ValidatorRegistration, run_reader. case_match; [done|].
  destruct (ValidatorRegistrationMsg_Decode (tx_Payload tx)) as [rest [m'|e|]] eqn:Hd; [|done|done].
  intros Heq. simpl in Heq. apply Ok_inj in Heq. simplify_eq.
  unfold ValidatorRegistrationMsg_Decode in Hd.
  go_inv Hd. simpl. split; [by eapply ReadFull_length|eapply fits_u64; by eapply (read_uint_fits 8)].
Qed.

Lemma registration_stake_ok tx m :
  ValidatorRegistration tx = Ok (Some m) → amount_ok (reg_Stake m).
Proof. intros Hm. apply is_u64_amount. by eapply ValidatorRegistration_wf. Qed.

Lemma apply_registration_duplicate tx fee m s acc :
  ValidatorRegistration tx = Ok (Some m) → acc_map s !! tx_Sender tx = Some acc →
  reg_Address m = tx_Sender tx → minValidatorStake <= reg_Stake m → reg_Commission m <= 10000 →
  is_u64 fee → fee + reg_Stake m <= acc_Balance acc →
  is_Some (kv_map s !! validatorKey (DeriveConsensusIDFromBytes (reg_PubKey m))) →
  apply_registration (Stored (tx_Sender tx)) tx fee s =
  (acc_put (tx_Sender tx) (set_balance acc (acc_Balance acc - reg_Stake m)) s,
   Err (Errorf "validator already registered")).
Proof.
  intros Hm Ha Hadr Hmin Hcom Hf Hle Hex. unfold apply_registration.
  destruct (ValidatorRegistration_wf _ _ Hm) as [Hlen Hst].
  rewrite Hm. rewrite (go_bind_ok _ _ s s (Some m)) by done.
  rewrite (bool_decide_true (reg_Address m = tx_Sender tx)) by done.
  rewrite (bool_decide_true (length (reg_PubKey m) = 32%nat)) by done.
  do 2 rewrite (go_bind_ok _ _ s s tt) by done.
  rewrite (proj2 (Z.ltb_ge _ _) Hmin). rewrite (go_bind_ok _ _ s s tt) by done.
  rewrite (proj2 (Z.ltb_ge _ _) Hcom). rewrite (go_bind_ok _ _ s s tt) by done.
  unfold NewAmount. rewrite Amount_Add_ok by first [by apply is_u64_amount|unfold is_u64 in *; lia].
  rewrite (go_bind_ok _ _ s s (fee + reg_Stake m)) by done.
  rewrite (go_bind_ok _ _ s s acc) by (by apply deref_spec).
  rewrite Amount_lt_spec, (proj2 (Z.ltb_ge _ _) Hle). rewrite (go_bind_ok _ _ s s tt) by done.
  assert (reg_Stake m <= acc_Balance acc) as Hle' by (unfold is_u64 in *; lia).
  rewrite (go_bind_ok _ _ _ _ _ (wrap_ok _ _ _ _ _
    (mutate_stored_ok _ _ _ _ _ Ha (SubBalance_ok _ _ Hle')))).
  unfold mbind, go_bind, GetBytes, gets. store. by rewrite bool_decide_true.
Qed.
End registration_lemmas.

(** *** Nonces *)

Definition same_nonces {S} `{AccountStore S} (s s' : S) : Prop :=
  ∀ a, nonce_at s' a = nonce_at s a.

#[global] Instance same_nonces_preorder {S} `{AccountStore S} : PreOrder (same_nonces (S := S)).
Proof. unfold same_nonces. split; [done|]. intros s1 s2 s3 E1 E2 a. by rewrite E2. Qed.

Section nonce_lemmas.
Context {S : Type} `{StakingStore S} `{Ed25519}.
Implicit Types (s : S) (tx : Transaction) (acc : Account).

Lemma nonce_at_put s a acc a' :
  nonce_at (acc_put a acc s) a' = if decide (a = a') then acc_Nonce acc else nonce_at s a'.
Proof. unfold nonce_at, account_at. store. rewrite lookup_insert. by case_decide. Qed.

Lemma same_nonces_put s a acc :
  acc_Nonce acc = nonce_at s a → same_nonces s (acc_put a acc s).
Proof. intros E a'. rewrite nonce_at_put. case_decide; [by subst|done]. Qed.

Lemma same_accounts_nonces s s' : same_accounts s s' → same_nonces s s'.
Proof. intros E a. unfold nonce_at, account_at. by rewrite E. Qed.

Lemma nonces_frame {A} (m : go S A) : preserves same_accounts m → preserves same_nonces m.
Proof. intros Hm s. apply same_accounts_nonces, Hm. Qed.

(** A method that keeps the nonce. *)
Definition keeps_nonce (m : Account → res Account) : Prop :=
  ∀ acc acc', m acc = Ok acc' → acc_Nonce acc' = acc_Nonce acc.

Lemma AddBalance_keeps amt : keeps_nonce (AddBalance amt).
Proof.
  intros acc acc'. unfold AddBalance, mbind, res_bind. by case_match; intros [= <-].
Qed.

Lemma SubBalance_keeps amt : keeps_nonce (SubBalance amt).
Proof.
  intros acc acc'. unfold SubBalance, mbind, res_bind. by case_match; intros [= <-].
Qed.

Lemma nonces_mutate a m : keeps_nonce m → preserves (same_nonces (S := S)) (mutate (Stored a) m).
Proof.
  intros Hm s. unfold mutate, mbind, go_bind, deref, lift.
  destruct (acc_map s !! a) as [acc|] eqn:Ea; [|done].
  destruct (m acc) as [acc'|e|] eqn:Em; [|done|done]. simpl. apply same_nonces_put.
  rewrite (Hm _ _ Em). unfold nonce_at, account_at. by rewrite Ea.
Qed.

Lemma nonces_deref p : preserves (same_nonces (S := S)) (deref p).
Proof. intros s. destruct p as [a|]; simpl; [|done]. by destruct (acc_map s !! a). Qed.

(** Crediting a possibly new account while another call of [f] that keeps
    nonces runs before the account is stored. *)
Lemma nonces_credit_around msg a amt {A} (m : go S A) :
  preserves same_nonces m →
  preserves (same_nonces (S := S))
    (p ← GetOrNewAccount a; p' ← wrap msg (mutate p (AddBalance amt)); m;; SetAccount a p').
Proof.
  intros Hm s. rewrite (go_bind_ok _ _ _ _ _ (GetOrNewAccount_spec s a)).
  unfold wrap, mbind, go_bind. rewrite mutate_or_new.
  destruct (AddBalance amt (account_at s a)) as [acc'|e|] eqn:Ea; [|done|done].
  apply AddBalance_keeps in Ea. fold (nonce_at s a) in Ea.
  destruct (acc_map s !! a) as [acc|] eqn:El.
  - specialize (Hm (acc_put a acc' s)). destruct (m _) as [s' [x|e|]]; simpl in *;
      (etrans; [by apply (same_nonces_put s a acc')|]); try done.
    by rewrite decide_True.
  - specialize (Hm s). destruct (m s) as [s' [x|e|]]; simpl in *; [|done|done].
    etrans; [exact Hm|]. apply same_nonces_put. by rewrite Hm.
Qed.

Lemma apply_transfer_nonces a tx fee :
  preserves (same_nonces (S := S)) (apply_transfer (Stored a) tx fee).
Proof.
  unfold apply_transfer. pose proof (λ a amt, nonces_mutate a _ (SubBalance_keeps amt)) as Hsub.
  repeat (apply preserves_bind; [exact _|solve [auto using nonces_deref with preserves typeclass_instances]|intros ?]).
  apply (nonces_credit_around _ _ _ (mutate (Stored a) _)), Hsub.
Qed.

Lemma apply_registration_nonces a tx fee :
  preserves (same_nonces (S := S)) (apply_registration (Stored a) tx fee).
Proof.
  unfold apply_registration, getCurrentEpoch.
  pose proof (λ a amt, nonces_mutate a _ (SubBalance_keeps amt)) as Hsub.
  pose proof nonces_deref as Hd.
  pose proof (λ k, nonces_frame _ (frame_GetBytes k)) as Hget.
  pose proof (λ k v, nonces_frame _ (frame_SetBytes k v)) as Hset.
  frame.
Qed.

Lemma apply_payload_nonces a tx fee :
  preserves (same_nonces (S := S)) (apply_payload (Stored a) tx fee).
Proof.
  unfold apply_payload. pose proof apply_transfer_nonces as Ht.
  pose proof apply_registration_nonces as Hr.
  repeat case_match; first [apply Ht|apply Hr|by intros s].
Qed.

Lemma settle_nonces tx fee s s' r :
  settle (Stored (tx_Sender tx)) tx fee s = (s', r) →
  (r = Ok (tx_IntentID tx) ∧
   nonce_at s' (tx_Sender tx) = u64 (nonce_at s (tx_Sender tx) + 1) ∧
   (∀ a, a ≠ tx_Sender tx → nonce_at s' a = nonce_at s a)) ∨
  ((∀ h, r ≠ Ok h) ∧ same_nonces s s').
Proof.
  unfold settle, mutate, mbind, go_bind, deref, lift, modify.
  destruct (acc_map s !! tx_Sender tx) as [acc|] eqn:Ea; [|intros [= <- <-]; by right].
  destruct (SubBalance fee acc) as [acc1|e|] eqn:Es; [|intros [= <- <-]; by right..].
  apply SubBalance_keeps in Es. simpl. store. rewrite lookup_insert_eq. simpl.
  rewrite decide_True by done. intros [= <- <-]. left. split; [done|].
  assert (nonce_at s (tx_Sender tx) = acc_Nonce acc) as ->
    by (unfold nonce_at, account_at; by rewrite Ea).
  split; [rewrite nonce_at_put, decide_True by done; simpl; by rewrite Es|].
  intros a Ha. rewrite !nonce_at_put. by rewrite !decide_False by congruence.
Qed.

(** A call changes nonces only by success, and then only the sender's. *)
Lemma ApplyTransaction_nonces now tx height s s' r :
  ApplyTransaction now tx height s = (s', r) →
  (r = Ok (tx_IntentID tx) ∧ (∃ acc, admitted now tx s acc) ∧
   nonce_at s' (tx_Sender tx) = u64 (nonce_at s (tx_Sender tx) + 1) ∧
   (∀ a, a ≠ tx_Sender tx → nonce_at s' a = nonce_at s a)) ∨
  ((∀ h, r ≠ Ok h) ∧ same_nonces s s').
Proof.
  destruct (ApplyTransaction_cases now tx height s) as [(r' & -> & Hn & _)|(acc & Ha & ->)].
  { intros [= <- <-]. by right. }
  pose proof (apply_payload_nonces (tx_Sender tx) tx (tx_MaxFee tx) s) as Hp.
  unfold mbind, go_bind. destruct (apply_payload _ tx _ s) as [s1 [[]|e|]]; simpl in *;
    [|intros [= <- <-]; by right..].
  intros Hrun. apply settle_nonces in Hrun as [(-> & Hn & Ho)|[Hr Hn]].
  - left. split; [done|]. split; [by exists acc|]. rewrite Hn, Hp. split; [done|].
    intros a Hne. by rewrite Ho, Hp.
  - right. split; [done|]. by etrans.
Qed.

(** Any sequence of calls, whatever their outcomes. *)
Fixpoint apply_seq (l : list (Z * Z * Transaction)) s : S :=
  match l with
  | [] => s
  | (now, height, tx) :: l' => apply_seq l' (ApplyTransaction now tx height s).1
  end.

Lemma apply_seq_nonce l s a :
  0 <= nonce_at s a → nonce_at s a + Z.of_nat (length l) < 2 ^ 64 →
  nonce_at s a <= nonce_at (apply_seq l s) a <= nonce_at s a + Z.of_nat (length l).
Proof.
  revert s. induction l as [|[[now height] tx] l IH]; intros s H0' Hb; [simpl in *; lia|].
  cbn [apply_seq length] in *. destruct (ApplyTransaction now tx height s) as [s1 r] eqn:Hr.
  apply ApplyTransaction_nonces in Hr. cbn [fst].
  assert (nonce_at s1 a = nonce_at s a ∨ nonce_at s1 a = nonce_at s a + 1) as Hs1.
  { destruct Hr as [(_ & _ & Hn & Ho)|[_ Hn]]; [|left; apply Hn].
    destruct (decide (a = tx_Sender tx)) as [->|Hne]; [|left; by apply Ho].
    right. rewrite Hn. apply u64_small. unfold is_u64. lia. }
  specialize (IH s1). destruct Hs1 as [Hs1|Hs1]; rewrite Hs1 in IH; lia.
Qed.

Lemma Transaction_Validate_nonce now tx : Transaction_Validate now tx = Ok tt → tx_Nonce tx ≠ 0.
Proof. unfold Transaction_Validate. by destruct (Z.eqb_spec (tx_Nonce tx) 0); repeat case_match. Qed.
End nonce_lemmas.

(** ** Properties *)

(** C6: a transfer transaction is applied exactly when it passes validation,
    its sender's stored public key verifies its signature over the intent id,
    its nonce is the sender's next one and the sender can pay amount plus
    fee (without the recipient's balance leaving 128 bits); in every other
    case the call returns an error and the state is untouched. *)
Theorem transfer_applied_iff {S} `{StakingStore S} `{Ed25519} (now height : Z) (tx : Transaction) (s : S) :
  is_transfer tx → balances_ok s → is_u64 (tx_MaxFee tx) →
  ((∃ acc, admitted now tx s acc ∧ transfer_funded tx s acc) ↔
   (ApplyTransaction now tx height s).2 = Ok (tx_IntentID tx)) ∧
  ((∀ h, (ApplyTransaction now tx height s).2 ≠ Ok h) →
   (ApplyTransaction now tx height s).1 = s).
Proof.
  intros Ht Hs Hf. destruct (ApplyTransaction_transfer now tx height s Ht Hs Hf)
    as [(r & -> & Hn & Ha)|(acc & s' & Ha & Hfu & -> & _)]; simpl.
  - split; [|done]. split; [intros (acc & Hacc); by destruct (Ha acc)|]. intros E. by edestruct Hn.
  - split; [split; [done|by eauto]|]. intros Hno. by edestruct Hno.
Qed.

(** An applied transfer debits the sender by amount plus fee, credits the
    recipient by the amount, sets the sender's nonce to the transaction's,
    leaves every other account and the key-value store alone, keeps balances
    within 128 bits, and lowers the sum of all balances by exactly the fee. *)
Theorem transfer_effect {S} `{StakingStore S} `{Ed25519} (now height : Z) (tx : Transaction) (s s' : S) (h : Hash) :
  is_transfer tx → balances_ok s → is_u64 (tx_MaxFee tx) → payload_to tx ≠ tx_Sender tx →
  ApplyTransaction now tx height s = (s', Ok h) →
  balance_at s' (tx_Sender tx) = balance_at s (tx_Sender tx) - payload_amount tx - tx_MaxFee tx ∧
  balance_at s' (payload_to tx) = balance_at s (payload_to tx) + payload_amount tx ∧
  nonce_at s' (tx_Sender tx) = tx_Nonce tx ∧
  (∀ a, a ≠ tx_Sender tx → a ≠ payload_to tx → acc_map s' !! a = acc_map s !! a) ∧
  kv_map s' = kv_map s ∧ balances_ok s' ∧
  total_balance s' = total_balance s - tx_MaxFee tx.
Proof.
  intros Ht Hs Hf Hne Hrun. destruct (ApplyTransaction_transfer now tx height s Ht Hs Hf)
    as [(r & Hr & Hn & _)|(acc & s1 & Ha & [Hfu Hov] & Hr & Hacc & Hkv)].
  { rewrite Hrun in Hr. injection Hr as -> <-. by edestruct Hn. }
  rewrite Hr in Hrun. injection Hrun as -> _. clear Hr.
  unfold after_transfer in Hacc. rewrite decide_False in Hacc by done.
  set (dst := set_balance (account_at s (payload_to tx)) _) in Hacc.
  set (src := settled _ _) in Hacc.
  assert (acc_map s' = acc_map (acc_put (tx_Sender tx) src (acc_put (payload_to tx) dst s))) as Heq
    by (by store).
  pose proof (adm_sender _ _ _ _ Ha) as Hsend.
  assert (balance_at s (tx_Sender tx) = acc_Balance acc) as Hb
    by (unfold balance_at, account_at; by rewrite Hsend).
  set (s2 := acc_put _ src _) in Heq.
  assert (∀ a, balance_at s' a = balance_at s2 a) as Hbal
    by (intros a; unfold balance_at, account_at; by rewrite Heq).
  rewrite !Hbal. unfold s2. balances. rewrite Hb.
  split; [simpl; lia|]. split; [done|]. split.
  { unfold nonce_at, account_at. rewrite Hacc, lookup_insert_eq. simpl. symmetry. apply Ha. }
  split; [intros a Ha1 Ha2; rewrite Hacc; by rewrite !lookup_insert_ne|].
  split; [done|]. split.
  - intros a acc0 Ha0. rewrite Heq in Ha0. revert a acc0 Ha0.
    pose proof (Hs _ _ Hsend) as Hsrc. pose proof (balances_ok_at s (payload_to tx) Hs) as Hd.
    pose proof (unbe_range (take 8 (drop 20 (tx_Payload tx)))) as Hr.
    fold (payload_amount tx) in Hr.
    apply balances_ok_put; [apply balances_ok_put; [done|]|];
      unfold amount_ok, is_u128, is_u64 in *; simpl; lia.
  - assert (total_balance s' = total_balance s2) as ->
      by (unfold total_balance; by rewrite Heq).
    unfold s2. balances. rewrite Hb; simpl. lia.
Qed.

(** C7: no replay. Once a transaction of any type was applied, applying it
    again, at any later time and height and after any sequence of other calls
    (shorter than what is left of the 64-bit nonce space), is rejected and
    leaves the state as it was. *)
Theorem replay_rejected {S} `{StakingStore S} `{Ed25519} (now height now' height' : Z)
    (tx : Transaction) (l : list (Z * Z * Transaction)) (s s1 : S) (h : Hash) :
  ApplyTransaction now tx height s = (s1, Ok h) →
  tx_Nonce tx + Z.of_nat (length l) < 2 ^ 64 →
  let s2 := apply_seq l s1 in
  (∀ h', (ApplyTransaction now' tx height' s2).2 ≠ Ok h') ∧
  (ApplyTransaction now' tx height' s2).1 = s2.
Proof.
  intros Hrun Hb s2.
  apply ApplyTransaction_nonces in Hrun as [(_ & (acc & Ha) & Hn & _)|[Hr _]]; [|by edestruct Hr].
  destruct (ApplyTransaction_cases now' tx height' s2) as [(r & -> & Hr & _)|(acc2 & Ha2 & _)]; [done|].
  exfalso. pose proof (Transaction_Validate_nonce _ _ (adm_valid _ _ _ _ Ha)) as Hnz.
  assert (nonce_at s1 (tx_Sender tx) = tx_Nonce tx) as Hs1.
  { rewrite Hn, (adm_nonce _ _ _ _ Ha). unfold nonce_at, account_at.
    by rewrite (adm_sender _ _ _ _ Ha). }
  assert (is_u64 (tx_Nonce tx)) as [Hlo Hhi] by (rewrite (adm_nonce _ _ _ _ Ha); apply u64_is_u64).
  pose proof (apply_seq_nonce l s1 (tx_Sender tx)) as Hseq. rewrite Hs1 in Hseq.
  specialize (Hseq ltac:(lia) Hb). fold s2 in Hseq.
  pose proof (adm_nonce _ _ _ _ Ha2) as Hn2.
  assert (nonce_at s2 (tx_Sender tx) = acc_Nonce acc2) as Hs2
    by (unfold nonce_at, account_at; by rewrite (adm_sender _ _ _ _ Ha2)).
  rewrite Hs2 in Hseq. destruct (decide (acc_Nonce acc2 + 1 < 2 ^ 64)) as [Hsm|Hbig].
  - rewrite u64_small in Hn2 by (unfold is_u64; lia). lia.
  - replace (acc_Nonce acc2 + 1) with (2 ^ 64) in Hn2 by lia. by apply Hnz.
Qed.

(** An applied validator registration moves the stake out of the sender's
    balance into the bonded total and charges the fee: balances plus bonded
    total fall by exactly the fee. The stake is at least the minimum, the
    commission at most 100%, the consensus id was free, and the record and both
    indexes are written under it. *)
Theorem registration_effect {S} `{StakingStore S} `{Ed25519} (now height : Z) (tx : Transaction) (s s' : S) (h : Hash) :
  tx_TxType tx = TxTypeValidatorRegistration → balances_ok s → is_u64 (tx_MaxFee tx) →
  ApplyTransaction now tx height s = (s', Ok h) →
  ∃ m epoch,
    let id := DeriveConsensusIDFromBytes (reg_PubKey m) in
    ValidatorRegistration tx = Ok (Some m) ∧ reg_Address m = tx_Sender tx ∧
    minValidatorStake <= reg_Stake m ∧ reg_Commission m <= 10000 ∧
    balance_at s' (tx_Sender tx) = balance_at s (tx_Sender tx) - reg_Stake m - tx_MaxFee tx ∧
    nonce_at s' (tx_Sender tx) = tx_Nonce tx ∧
    bonded_total s' = bonded_total s + reg_Stake m ∧
    total_balance s' + bonded_total s' = total_balance s + bonded_total s - tx_MaxFee tx ∧
    kv_map s !! validatorKey id = None ∧
    kv_map s' !! validatorKey id = Some (registration_record tx m epoch) ∧
    kv_map s' !! validatorPubkeyKey (reg_PubKey m) = Some (arr_bytes id) ∧
    kv_map s' !! validatorOperatorKey (tx_Sender tx) = Some (arr_bytes id).
Proof.
  intros Ht Hs Hf Hrun.
  destruct (ApplyTransaction_cases now tx height s) as [(r & Hr & Hn & _)|(acc & Ha & Hr)];
    rewrite Hr in Hrun.
  { injection Hrun as -> ->. by edestruct Hn. }
  go_step Hrun. rewrite apply_payload_registration in Hrun0 by done. destruct a.
  pose proof (adm_sender _ _ _ _ Ha) as Hsend.
  apply (apply_registration_inv _ _ _ _ acc Hsend) in Hrun0
    as (m & epoch & count & Hm & Hadr & Hmin & Hcom & (c & Hc & Hle) & Hno & Hadd & ->).
  apply Amount_Add_inv in Hc as [-> _]; [|by apply is_u64_amount|by eapply registration_stake_ok].
  apply Amount_Add_inv in Hadd as [_ Hbok]; [|apply bonded_total_ok|by eapply registration_stake_ok].
  set (acc1 := set_balance acc (acc_Balance acc - reg_Stake m)) in *. set (s1 := kv_put keyTotalBonded _ _) in *.
  assert (acc_map s1 !! tx_Sender tx = Some acc1) as Hs1 by (unfold s1; store; apply lookup_insert_eq).
  destruct (settle_ok tx s1 acc1 (tx_MaxFee tx) Hs1 ltac:(simpl; lia)) as (s2 & Hs2 & Hacc & Hkv).
  rewrite Hs2 in Hrun. injection Hrun as -> _.
  assert (acc_map s' = <[tx_Sender tx := settled acc1 (tx_MaxFee tx)]> (acc_map s)) as Hacc'.
  { rewrite Hacc. unfold s1. store. by rewrite insert_insert_eq. }
  assert (bonded_total s' = bonded_total s + reg_Stake m) as Hbond.
  { unfold bonded_total at 1. rewrite Hkv. unfold s1. store. kv_simpl.
    by rewrite Amount_unmarshal_marshal. }
  assert (total_balance s' = total_balance (acc_put (tx_Sender tx) (settled acc1 (tx_MaxFee tx)) s)) as Htot.
  { unfold total_balance. by rewrite Hacc', acc_map_put. }
  assert (balance_at s (tx_Sender tx) = acc_Balance acc) as Hb
    by (unfold balance_at, account_at; by rewrite Hsend).
  exists m, epoch. simpl. rewrite Hbond, Htot, Hkv. balances. rewrite Hb.
  unfold balance_at at 1, nonce_at, account_at. rewrite Hacc', lookup_insert_eq. simpl.
  unfold s1. store. split_and!; try done; try lia; kv_simpl; try done.
  symmetry. apply Ha.
Qed.

(** The stake of a rejected duplicate registration is lost: the call
    returns an error, but the sender's account, mutated in place, is already
    debited, while neither the bonded total nor any record changes. *)
Theorem registration_duplicate_loses_stake {S} `{StakingStore S} `{Ed25519} (now height : Z)
    (tx : Transaction) (m : ValidatorRegistrationMsg) (s : S) (acc : Account) :
  tx_TxType tx = TxTypeValidatorRegistration → is_u64 (tx_MaxFee tx) →
  admitted now tx s acc → ValidatorRegistration tx = Ok (Some m) →
  reg_Address m = tx_Sender tx → minValidatorStake <= reg_Stake m → reg_Commission m <= 10000 →
  tx_MaxFee tx + reg_Stake m <= acc_Balance acc →
  is_Some (kv_map s !! validatorKey (DeriveConsensusIDFromBytes (reg_PubKey m))) →
  let s' := (ApplyTransaction now tx height s).1 in
  (ApplyTransaction now tx height s).2 = Err (Errorf "validator already registered") ∧
  balance_at s' (tx_Sender tx) = balance_at s (tx_Sender tx) - reg_Stake m ∧
  total_balance s' = total_balance s - reg_Stake m ∧ kv_map s' = kv_map s.
Proof.
  intros Ht Hf Ha Hm Hadr Hmin Hcom Hle Hex.
  destruct (ApplyTransaction_cases now tx height s) as [(r & _ & _ & Hna)|(acc' & Ha' & ->)]; [by destruct (Hna acc)|].
  rewrite apply_payload_registration by done.
  pose proof (adm_sender _ _ _ _ Ha) as Hsend.
  rewrite (go_bind_err _ _ _ _ _ (apply_registration_duplicate _ _ _ _ _ Hm Hsend Hadr Hmin Hcom Hf Hle Hex)).
  simpl. balances. store.
  assert (balance_at s (tx_Sender tx) = acc_Balance acc) as ->
    by (unfold balance_at, account_at; by rewrite Hsend).
  simpl. split_and!; try done. lia.
Qed.

(** ** Examples *)

Definition sample_tx (txType nonce : Z) (payload : bytes) : Transaction :=
  {| tx_Version := 1; tx_ChainID := 1; tx_IntentID := ZeroHash; tx_Sender := addr_of 1;
     tx_Nonce := nonce; tx_Payload := payload; tx_Constraints := []; tx_MaxFee := 10;
     tx_GasLimit := 0; tx_Timestamp := 100; tx_Signature := arr_zero 32 ++ ZeroHash;
     tx_TxType := txType |}.

Definition sample_transfer : Transaction := sample_tx 0 1 (addr_of 2 ++ be 8 40).

Definition sample_registration : Transaction :=
  sample_tx 3 1 (addr_of 1 ++ replicate 32 x07 ++ be 8 100000 ++ be 8 500).

Definition rich_account : InMemoryState :=
  acc_put (addr_of 1) (acct (addr_of 1) 300000) NewInMemoryState.

Definition rich_registered : InMemoryState :=
  kv_put (validatorKey (DeriveConsensusIDFromBytes (replicate 32 x07))) [] rich_account.

Lemma two_accounts_ok : balances_ok two_accounts.
Proof. unfold two_accounts. repeat (apply balances_ok_put; [|done]). intros a acc. by store. Qed.

Lemma rich_account_ok : balances_ok rich_account.
Proof. unfold rich_account. apply balances_ok_put; [|done]. intros a acc. by store. Qed.

Lemma transfer_applied_iff_witness :
  (ApplyTransaction (H1 := echo_ed25519) 101 sample_transfer 7 two_accounts).2 = Ok ZeroHash.
Proof.
  apply (transfer_applied_iff (H2 := echo_ed25519) 101 7 sample_transfer two_accounts).
  - split; [reflexivity|vm_compute; lia].
  - exact two_accounts_ok.
  - done.
  - exists (acct (addr_of 1) 100). split; [split|split]; vm_compute; reflexivity || discriminate.
Defined.

Lemma transfer_effect_witness :
  total_balance (ApplyTransaction (H1 := echo_ed25519) 101 sample_transfer 7 two_accounts).1 = 95.
Proof.
  destruct (transfer_effect (H2 := echo_ed25519) 101 7 sample_transfer two_accounts
    (ApplyTransaction (H1 := echo_ed25519) 101 sample_transfer 7 two_accounts).1 ZeroHash)
    as (_ & _ & _ & _ & _ & _ & Ht).
  - split; [reflexivity|vm_compute; lia].
  - exact two_accounts_ok.
  - done.
  - intros E. apply (f_equal (λ a : Address, unbe a)) in E. vm_compute in E. discriminate E.
  - apply run_outcome. vm_compute. reflexivity.
  - rewrite Ht. vm_compute. reflexivity.
Defined.

Lemma replay_rejected_witness :
  let s1 := (ApplyTransaction (H1 := echo_ed25519) 101 sample_transfer 7 two_accounts).1 in
  (ApplyTransaction (H1 := echo_ed25519) 102 sample_transfer 8 (apply_seq (H2 := echo_ed25519) [(101, 7, sample_transfer)] s1)).2
  ≠ Ok ZeroHash.
Proof.
  apply (replay_rejected (H2 := echo_ed25519) 101 7 102 8 sample_transfer [(101, 7, sample_transfer)]
    two_accounts _ ZeroHash); [|done].
  apply run_outcome. vm_compute. reflexivity.
Defined.

Lemma registration_effect_witness :
  let s' := (ApplyTransaction (H1 := echo_ed25519) 101 sample_registration 7 rich_account).1 in
  total_balance s' + bonded_total s' = 299990.
Proof.
  destruct (registration_effect (H2 := echo_ed25519) 101 7 sample_registration rich_account
    (ApplyTransaction (H1 := echo_ed25519) 101 sample_registration 7 rich_account).1 ZeroHash)
    as (m & epoch & _ & _ & _ & _ & _ & _ & _ & Ht & _).
  - done.
  - exact rich_account_ok.
  - done.
  - apply run_outcome. vm_compute. reflexivity.
  - simpl. rewrite Ht. vm_compute. reflexivity.
Defined.

Lemma registration_duplicate_loses_stake_witness :
  total_balance (ApplyTransaction (H1 := echo_ed25519) 101 sample_registration 7 rich_registered).1 = 200000.
Proof.
  destruct (registration_duplicate_loses_stake (H2 := echo_ed25519) 101 7 sample_registration
    {| reg_Address := addr_of 1; reg_PubKey := replicate 32 x07; reg_Stake := 100000; reg_Commission := 500 |}
    rich_registered (acct (addr_of 1) 300000)) as (_ & _ & Ht & _).
  - reflexivity.
  - done.
  - split; vm_compute; reflexivity || discriminate.
  - vm_compute. reflexivity.
  - reflexivity.
  - done.
  - done.
  - done.
  - vm_compute. eexists. reflexivity.
  - rewrite Ht. vm_compute. reflexivity.
Defined.
