(* ===== verification/Validator.v ===== *)
(** * Validators (staking/validator.go)

    The validator record, its life-cycle (the table of allowed status
    transitions), its binary form and the construction of a pending validator.
    A status is a [uint8]: values outside the five named ones can be decoded,
    and no transition leaves them. *)

From S2P Require Import Prelude Codec Sha256 Address Amount Tx Votes Block Store.

(** ** Status *)

Definition ValidatorPending : Z := 0.
Definition ValidatorActive : Z := 1.
Definition ValidatorJailed : Z := 2.
Definition ValidatorUnstaking : Z := 3.
Definition ValidatorRemoved : Z := 4.

Definition allowedTransitions (from : Z) : list Z :=
  if from =? ValidatorPending then [ValidatorActive]
  else if from =? ValidatorActive then [ValidatorJailed; ValidatorUnstaking]
  else if from =? ValidatorJailed then [ValidatorActive]
  else if from =? ValidatorUnstaking then [ValidatorRemoved]
  else [].

Fixpoint contains_status (l : list Z) (to : Z) : bool :=
  match l with
  | [] => false
  | s :: l' => if s =? to then true else contains_status l' to
  end.

Definition IsValidTransition (from to : Z) : bool := contains_status (allowedTransitions from) to.

Definition MinimumValidatorStake : Z := 100000.
Definition CommissionRateMaxBasisPoints : Z := 10000.

(** ** The record *)

Record Validator := mkValidator {
  val_ConsensusID : Address;
  val_PublicKey : arr 32;
  val_OperatorAddress : Address;
  val_RewardAddress : Address;
  val_BondedStake : Amount;
  val_Status : Z;
  val_CommissionRate : Z;
  val_VotingPower : Z;
  val_JailedUntil : Z;
  val_ActivationEpoch : Z;
  val_UnstakeEpoch : Z;
}.

#[global] Instance Validator_eq_dec : EqDecision Validator.
Proof. solve_decision. Defined.

(** Field assignments [v.Field = x]. *)
Definition set_Status (x : Z) (v : Validator) : Validator :=
  mkValidator (val_ConsensusID v) (val_PublicKey v) (val_OperatorAddress v) (val_RewardAddress v)
    (val_BondedStake v) x (val_CommissionRate v) (val_VotingPower v) (val_JailedUntil v)
    (val_ActivationEpoch v) (val_UnstakeEpoch v).
Definition set_BondedStake (x : Amount) (v : Validator) : Validator :=
  mkValidator (val_ConsensusID v) (val_PublicKey v) (val_OperatorAddress v) (val_RewardAddress v)
    x (val_Status v) (val_CommissionRate v) (val_VotingPower v) (val_JailedUntil v)
    (val_ActivationEpoch v) (val_UnstakeEpoch v).
Definition set_VotingPower (x : Z) (v : Validator) : Validator :=
  mkValidator (val_ConsensusID v) (val_PublicKey v) (val_OperatorAddress v) (val_RewardAddress v)
    (val_BondedStake v) (val_Status v) (val_CommissionRate v) x (val_JailedUntil v)
    (val_ActivationEpoch v) (val_UnstakeEpoch v).
Definition set_JailedUntil (x : Z) (v : Validator) : Validator :=
  mkValidator (val_ConsensusID v) (val_PublicKey v) (val_OperatorAddress v) (val_RewardAddress v)
    (val_BondedStake v) (val_Status v) (val_CommissionRate v) (val_VotingPower v) x
    (val_ActivationEpoch v) (val_UnstakeEpoch v).
Definition set_ActivationEpoch (x : Z) (v : Validator) : Validator :=
  mkValidator (val_ConsensusID v) (val_PublicKey v) (val_OperatorAddress v) (val_RewardAddress v)
    (val_BondedStake v) (val_Status v) (val_CommissionRate v) (val_VotingPower v) (val_JailedUntil v)
    x (val_UnstakeEpoch v).
Definition set_UnstakeEpoch (x : Z) (v : Validator) : Validator :=
  mkValidator (val_ConsensusID v) (val_PublicKey v) (val_OperatorAddress v) (val_RewardAddress v)
    (val_BondedStake v) (val_Status v) (val_CommissionRate v) (val_VotingPower v) (val_JailedUntil v)
    (val_ActivationEpoch v) x.

Definition transitionTo (newStatus : Z) (v : Validator) : res Validator :=
  if negb (IsValidTransition (val_Status v) newStatus)
  then Err (Wrapf "status" ErrInvalidTransition)
  else Ok (set_Status newStatus v).

Definition Validator_Encode (v : Validator) : go bytes unit :=
  Write (val_ConsensusID v);;
  Write (val_PublicKey v);;
  Write (val_OperatorAddress v);;
  Write (val_RewardAddress v);;
  let stakeBytes := Amount_MarshalBinary (val_BondedStake v) in
  (if bool_decide (16 < length stakeBytes)%nat then gopanic
   else Write (replicate (16 - length stakeBytes) x00 ++ stakeBytes));;
  write_uint 1 (val_Status v);;
  write_uint 2 (val_CommissionRate v);;
  write_uint 8 (val_VotingPower v);;
  write_uint 8 (val_JailedUntil v);;
  write_uint 8 (val_ActivationEpoch v);;
  write_uint 8 (val_UnstakeEpoch v).

Definition Validator_Decode : go bytes Validator :=
  consensusID ← read_arr 20;
  publicKey ← read_arr 32;
  operatorBytes ← ReadFull 20;
  operatorAddr ← lift (AddressFromBytes operatorBytes);
  rewardBytes ← ReadFull 20;
  rewardAddr ← lift (AddressFromBytes rewardBytes);
  stakeBuf ← ReadFull 16;
  stake ← lift (Amount_UnmarshalBinary stakeBuf);
  status ← read_uint 1;
  commissionRate ← read_uint 2;
  votingPower ← read_uint 8;
  jailedUntil ← read_uint 8;
  activationEpoch ← read_uint 8;
  unstakeEpoch ← read_uint 8;
  mret {| val_ConsensusID := consensusID; val_PublicKey := publicKey;
          val_OperatorAddress := operatorAddr; val_RewardAddress := rewardAddr;
          val_BondedStake := stake; val_Status := status; val_CommissionRate := commissionRate;
          val_VotingPower := votingPower; val_JailedUntil := jailedUntil;
          val_ActivationEpoch := activationEpoch; val_UnstakeEpoch := unstakeEpoch |}.

Definition ValidateCommissionRate (rate : Z) : res unit :=
  if CommissionRateMaxBasisPoints <? rate then Err (Errorf "commission rate exceeds max") else Ok tt.

Definition NewValidator (consensusID : Address) (pubKey : arr 32) (operatorAddr : Address)
    (stake : Amount) (commission currentEpoch : Z) : res Validator :=
  if Amount_lt stake (NewAmount MinimumValidatorStake)
  then Err (Wrapf "stake" ErrInsufficientStake) else
  _ ← ValidateCommissionRate commission;
  Ok {| val_ConsensusID := consensusID; val_PublicKey := pubKey;
        val_OperatorAddress := operatorAddr; val_RewardAddress := operatorAddr;
        val_BondedStake := stake; val_Status := ValidatorPending;
        val_CommissionRate := commission; val_VotingPower := 0; val_JailedUntil := 0;
        val_ActivationEpoch := u64 (currentEpoch + 1); val_UnstakeEpoch := 0 |}.

(** ** Well-formedness and the binary form *)

Record Validator_wf (v : Validator) : Prop := {
  vwf_stake : amount_ok (val_BondedStake v);
  vwf_status : fits 1 (val_Status v);
  vwf_rate : fits 2 (val_CommissionRate v);
  vwf_power : fits 8 (val_VotingPower v);
  vwf_jailed : fits 8 (val_JailedUntil v);
  vwf_activation : fits 8 (val_ActivationEpoch v);
  vwf_unstake : fits 8 (val_UnstakeEpoch v);
}.

(** The 143 bytes of a record. *)
Definition Validator_bytes (v : Validator) : bytes :=
  val_ConsensusID v ++ val_PublicKey v ++ val_OperatorAddress v ++ val_RewardAddress v
  ++ be 16 (val_BondedStake v) ++ be 1 (val_Status v) ++ be 2 (val_CommissionRate v)
  ++ be 8 (val_VotingPower v) ++ be 8 (val_JailedUntil v) ++ be 8 (val_ActivationEpoch v)
  ++ be 8 (val_UnstakeEpoch v).

Lemma Validator_emits v : amount_ok (val_BondedStake v) → emits (Validator_Encode v) (Validator_bytes v).
Proof.
  intros Hs. unfold Validator_Encode, Validator_bytes.
  do 4 (apply emits_bind; [apply emits_Write|]). apply emits_bind; [by apply emits_amount16|]. emit.
Qed.

Lemma Validator_parses v : Validator_wf v → parses Validator_Decode (Validator_bytes v) v.
Proof.
  intros []. destruct v as [id pk op rew st status rate power jailed act unst]. unfold Validator_Decode, Validator_bytes.
  cbn [val_ConsensusID val_PublicKey val_OperatorAddress val_RewardAddress val_BondedStake
       val_Status val_CommissionRate val_VotingPower val_JailedUntil val_ActivationEpoch
       val_UnstakeEpoch] in *.
  rewrite <- (app_nil_r (be 8 unst)). do 2 (eapply parses_bind; [apply parses_arr|]).
  do 2 (eapply parses_bind; [apply parses_ReadFull, arr_length|];
        eapply parses_lift; [apply AddressFromBytes_arr|]).
  eapply parses_bind; [apply parses_ReadFull, length_be|].
  eapply parses_lift; [|parse].
  unfold Amount_UnmarshalBinary. rewrite length_be, bool_decide_false by lia.
  by rewrite unbe_be_small by (by apply fits_u128).
Qed.

#[global] Instance Validator_RoundTrip : RoundTrip Validator_wf Validator_Encode Validator_Decode.
Proof.
  intros v Hv. eexists. split; [apply Validator_emits, Hv|by apply Validator_parses].
Qed.

Lemma Validator_encode_bytes v :
  amount_ok (val_BondedStake v) → encode_bytes (Validator_Encode v) = Ok (Validator_bytes v).
Proof.
  intros Hs. unfold encode_bytes, run_writer. pose proof (Validator_emits v Hs []) as He.
  by rewrite He.
Qed.

Lemma Validator_decode_bytes v rest :
  Validator_wf v → run_reader Validator_Decode (Validator_bytes v ++ rest) = Ok v.
Proof. intros Hv. unfold run_reader. by rewrite (Validator_parses v Hv rest). Qed.

Lemma Validator_bytes_length v : length (Validator_bytes v) = 143%nat.
Proof. unfold Validator_bytes. rewrite !length_app, !length_be, !arr_length. done. Qed.

(** Which moves the transition table allows. *)
Lemma IsValidTransition_spec a b :
  IsValidTransition a b = true ↔
  (a = ValidatorPending ∧ b = ValidatorActive) ∨ (a = ValidatorActive ∧ b = ValidatorJailed) ∨
  (a = ValidatorActive ∧ b = ValidatorUnstaking) ∨ (a = ValidatorJailed ∧ b = ValidatorActive) ∨
  (a = ValidatorUnstaking ∧ b = ValidatorRemoved).
Proof.
  unfold IsValidTransition, allowedTransitions, ValidatorPending, ValidatorActive, ValidatorJailed,
    ValidatorUnstaking, ValidatorRemoved.
  destruct (Z.eqb_spec a 0), (Z.eqb_spec a 1), (Z.eqb_spec a 2), (Z.eqb_spec a 3); cbn [contains_status];
    destruct (Z.eqb_spec 1 b), (Z.eqb_spec 2 b), (Z.eqb_spec 3 b), (Z.eqb_spec 4 b); split; intros; done || lia.
Qed.

Lemma NewValidator_inv id pk op stake rate epoch v :
  NewValidator id pk op stake rate epoch = Ok v →
  MinimumValidatorStake <= stake ∧ rate <= CommissionRateMaxBasisPoints ∧
  v = mkValidator id pk op op stake ValidatorPending rate 0 0 (u64 (epoch + 1)) 0.
Proof.
  unfold NewValidator, ValidateCommissionRate, mbind, res_bind, NewAmount. rewrite Amount_lt_spec.
  destruct (Z.ltb_spec stake MinimumValidatorStake); [done|].
  destruct (Z.ltb_spec CommissionRateMaxBasisPoints rate); [done|]. by intros [= <-].
Qed.

(** ** Properties *)

(** A well-formed validator is encoded in exactly 143 bytes, and decoding
    those bytes (whatever follows them) gives the validator back. *)
Theorem validator_roundtrip (v : Validator) (rest : bytes) :
  Validator_wf v →
  ∃ bs, encode_bytes (Validator_Encode v) = Ok bs ∧ length bs = 143%nat ∧
        run_reader Validator_Decode (bs ++ rest) = Ok v.
Proof.
  intros Hv. exists (Validator_bytes v). split; [by apply Validator_encode_bytes, Hv|].
  split; [apply Validator_bytes_length|by apply Validator_decode_bytes].
Qed.

Definition sample_validator : Validator :=
  {| val_ConsensusID := arr_copy 20 (be 20 7); val_PublicKey := arr_copy 32 (be 32 9);
     val_OperatorAddress := arr_copy 20 (be 20 1); val_RewardAddress := arr_copy 20 (be 20 1);
     val_BondedStake := 150000; val_Status := ValidatorActive; val_CommissionRate := 500;
     val_VotingPower := 150000; val_JailedUntil := 0; val_ActivationEpoch := 3;
     val_UnstakeEpoch := 0 |}.

Lemma validator_roundtrip_witness :
  ∃ bs, encode_bytes (Validator_Encode sample_validator) = Ok bs ∧ length bs = 143%nat ∧
        run_reader Validator_Decode (bs ++ [x01]) = Ok sample_validator.
Proof.
  apply (validator_roundtrip sample_validator [x01]).
  split; cbn [sample_validator val_BondedStake val_Status val_CommissionRate val_VotingPower
    val_JailedUntil val_ActivationEpoch val_UnstakeEpoch];
    unfold fits, amount_ok, is_u128, ValidatorActive; lia.
Defined.
