(* ===== verification/Registry.v ===== *)
(** * The validator registry (staking/registry.go)

    The registry of validators in the key-value store: the records under the
    consensus ids, the indexes by public key, operator and sequence number, the
    counter and the total of bonded stake; registration, lookup, update, the
    life-cycle operations and the derivation of the active set.

    [Represents s r] relates the store to an abstract registry [r] (the order of
    registration and a map of validators); every operation is shown to refine an
    update of it. *)

From S2P Require Import Prelude Codec Sha256 Address Amount Tx Votes Block Smt Store Keys State Validator.

Section registry.
Context {S : Type} `{KVStore S}.

(** ** Counters *)

Definition ValidatorCount : go S Z :=
  val ← GetBytes keyValidatorCount;
  match val with None => mret 0 | Some b => lift (Uint64 b) end.

Definition setValidatorCount (count : Z) : go S unit := SetBytes keyValidatorCount (be 8 count).

Definition TotalBonded : go S Amount :=
  val ← GetBytes keyTotalBonded;
  match val with None => mret (NewAmount 0) | Some b => lift (Amount_UnmarshalBinary b) end.

Definition setTotalBonded (amt : Amount) : go S unit :=
  SetBytes keyTotalBonded (Amount_MarshalBinary amt).

(** ** Records *)

Definition store_validator (v : Validator) : go S unit :=
  buf ← lift (encode_bytes (Validator_Encode v));
  SetBytes (validatorKey (val_ConsensusID v)) buf.

Definition RegisterValidator (pubKey : arr 32) (operatorAddr : Address) (stake : Amount)
    (commission currentEpoch : Z) : go S Address :=
  let consensusID := DeriveConsensusID pubKey in
  byID ← GetBytes (validatorKey consensusID);
  guard_err (bool_decide (is_Some byID)) (Wrapf "consensus ID" ErrValidatorExists);;
  byKey ← GetBytes (validatorPubkeyKey pubKey);
  guard_err (bool_decide (is_Some byKey)) (Wrapf "public key already registered" ErrValidatorExists);;
  byOp ← GetBytes (validatorOperatorKey operatorAddr);
  guard_err (bool_decide (is_Some byOp)) (Wrapf "operator address" ErrValidatorExists);;
  count ← ValidatorCount;
  v ← lift (NewValidator consensusID pubKey operatorAddr stake commission currentEpoch);
  store_validator v;;
  SetBytes (validatorPubkeyKey pubKey) consensusID;;
  SetBytes (validatorOperatorKey operatorAddr) consensusID;;
  let nextSeq := u64 (count + 1) in
  SetBytes (validatorBySeqKey nextSeq) consensusID;;
  setValidatorCount nextSeq;;
  total ← TotalBonded;
  newTotal ← lift (Amount_Add total stake);
  setTotalBonded newTotal;;
  mret consensusID.

Definition GetValidator (consensusID : Address) : go S Validator :=
  val ← GetBytes (validatorKey consensusID);
  match val with
  | None => throw (Wrapf "consensus ID" ErrValidatorNotFound)
  | Some b => lift (run_reader Validator_Decode b)
  end.

Definition GetValidatorByPubKey (pubKey : arr 32) : go S Validator :=
  idBytes ← GetBytes (validatorPubkeyKey pubKey);
  match idBytes with
  | None => throw (Wrapf "public key" ErrValidatorNotFound)
  | Some b => GetValidator (arr_copy 20 b)
  end.

Definition GetValidatorByOperator (addr : Address) : go S Validator :=
  idBytes ← GetBytes (validatorOperatorKey addr);
  match idBytes with
  | None => throw (Wrapf "operator address" ErrValidatorNotFound)
  | Some b => GetValidator (arr_copy 20 b)
  end.

(** [val = (val << 8) | uint64(b)] over the last eight bytes. *)
Definition stakeToUint64 (stake : Amount) : Z :=
  let data := Amount_MarshalBinary stake in
  if bool_decide (length data = 0%nat) then 0 else
  let data := if bool_decide (8 < length data)%nat then drop (length data - 8) data else data in
  fold_left (λ val b, Z.lor (u64 (Z.shiftl val 8)) (b2z b)) data 0.

Definition stakeToVotingPower (stake : Amount) : Z := stakeToUint64 stake.

Definition with_power (v : Validator) : Validator :=
  set_VotingPower (if val_Status v =? ValidatorActive
                   then stakeToVotingPower (val_BondedStake v) else 0) v.

Definition UpdateValidator (v : Validator) : go S unit := store_validator (with_power v).

(** ** The active set *)

Definition getValidatorIDBySeq (seq : Z) : go S Address :=
  idBytes ← GetBytes (validatorBySeqKey seq);
  match idBytes with
  | None => throw (Wrapf "sequence" ErrValidatorNotFound)
  | Some b => mret (arr_copy 20 b)
  end.

(** [for seq := uint64(1); seq <= count; seq++] *)
Definition seqs (count : Z) : list Z := Z.of_nat <$> seq 1 (Z.to_nat count).

(** The head of each loop over the registry: the id and the record at a
    sequence number, skipped if either is missing. *)
Definition validator_at_seq (seq : Z) : go S (option (Address * Validator)) :=
  r ← try (getValidatorIDBySeq seq);
  match r with
  | inl _ => mret None
  | inr consensusID =>
      rv ← try (GetValidator consensusID);
      match rv with inl _ => mret None | inr v => mret (Some (consensusID, v)) end
  end.

Fixpoint collect_active (l : list Z) : go S (list Validator) :=
  match l with
  | [] => mret []
  | seq :: l' =>
      r ← validator_at_seq seq;
      rest ← collect_active l';
      mret match r with
           | Some (_, v) => if val_Status v =? ValidatorActive then v :: rest else rest
           | None => rest
           end
  end.

(** Voting power descending, consensus id ascending. *)
Definition power_less (v w : Validator) : bool :=
  if negb (val_VotingPower v =? val_VotingPower w) then val_VotingPower w <? val_VotingPower v
  else bytes_lt (val_ConsensusID v) (val_ConsensusID w).

Definition GetActiveValidators : go S (list Validator) :=
  count ← ValidatorCount;
  active ← collect_active (seqs count);
  mret (sort_slice power_less active).

Definition GetActiveValidatorAddresses : go S (list Address) :=
  active ← GetActiveValidators;
  mret (val_OperatorAddress <$> active).

(** ** Life-cycle operations *)

Definition ActivateValidator (consensusID : Address) (epoch : Z) : go S unit :=
  v ← GetValidator consensusID;
  guard_err (negb (val_Status v =? ValidatorPending)) (Wrapf "validator" ErrValidatorNotPending);;
  v ← lift (transitionTo ValidatorActive v);
  let v := set_ActivationEpoch epoch v in
  let v := set_VotingPower (stakeToVotingPower (val_BondedStake v)) v in
  UpdateValidator v.

Definition JailValidator (consensusID : Address) (untilEpoch : Z) : go S unit :=
  v ← GetValidator consensusID;
  guard_err (negb (val_Status v =? ValidatorActive)) (Wrapf "validator" ErrValidatorNotActive);;
  v ← lift (transitionTo ValidatorJailed v);
  let v := set_JailedUntil untilEpoch v in
  let v := set_VotingPower 0 v in
  UpdateValidator v.

Definition UnjailValidator (consensusID : Address) : go S unit :=
  v ← GetValidator consensusID;
  guard_err (negb (val_Status v =? ValidatorJailed)) (Wrapf "validator is not jailed" ErrValidatorJailed);;
  v ← lift (transitionTo ValidatorActive v);
  let v := set_JailedUntil 0 v in
  let v := set_VotingPower (stakeToVotingPower (val_BondedStake v)) v in
  UpdateValidator v.

Definition StartUnstake (consensusID : Address) (unstakeEpoch : Z) : go S unit :=
  v ← GetValidator consensusID;
  v ← lift (transitionTo ValidatorUnstaking v);
  let v := set_UnstakeEpoch unstakeEpoch v in
  let v := set_VotingPower 0 v in
  UpdateValidator v.

Definition RemoveValidator (consensusID : Address) : go S unit :=
  v ← GetValidator consensusID;
  guard_err (negb (val_Status v =? ValidatorUnstaking)) (Wrapf "validator" ErrValidatorNotUnstaking);;
  v ← lift (transitionTo ValidatorRemoved v);
  let v := set_VotingPower 0 v in
  total ← TotalBonded;
  newTotal ← lift (Amount_Sub total (val_BondedStake v));
  setTotalBonded newTotal;;
  DeleteBytes (validatorPubkeyKey (val_PublicKey v));;
  DeleteBytes (validatorOperatorKey (val_OperatorAddress v));;
  UpdateValidator v.
End registry.

(** ** The abstract registry *)

Record registry := mkRegistry {
  order : list Address;
  vals : gmap Address Validator;
}.

Definition empty_registry : registry := mkRegistry [] ∅.

(** The stake of a validator that counts as bonded: that of every validator
    not yet removed. *)
Definition live_stake (v : Validator) : Amount :=
  if val_Status v =? ValidatorRemoved then 0 else val_BondedStake v.

Definition total_stake (r : registry) : Amount := map_zsum live_stake (vals r).

(** What every stored record satisfies, voting power aside. *)
Record Validator_core (id : Address) (v : Validator) : Prop := {
  core_id : val_ConsensusID v = id;
  core_key : DeriveConsensusID (val_PublicKey v) = id;
  core_stake : amount_ok (val_BondedStake v);
  core_status : 0 <= val_Status v <= 4;
  core_rate : fits 2 (val_CommissionRate v);
  core_jailed : fits 8 (val_JailedUntil v);
  core_activation : fits 8 (val_ActivationEpoch v);
  core_unstake : fits 8 (val_UnstakeEpoch v);
}.

(** Voting power is the bonded stake for active validators and zero for all
    others. *)
Definition Validator_ok (id : Address) (v : Validator) : Prop :=
  Validator_core id v ∧
  val_VotingPower v = if val_Status v =? ValidatorActive then u64 (val_BondedStake v) else 0.

Definition count_value (o : option bytes) : res Z :=
  match o with None => Ok 0 | Some b => Uint64 b end.
Definition total_value (o : option bytes) : res Amount :=
  match o with None => Ok 0 | Some b => Amount_UnmarshalBinary b end.

(** The store holds the registry [r]: the counter, the sequence index, the
    records, the total, and the two indexes, which list exactly the validators
    that are not removed. *)
Record Represents {S} `{KVStore S} (s : S) (r : registry) : Prop := {
  rep_count : count_value (kv_map s !! keyValidatorCount) = Ok (Z.of_nat (length (order r)));
  rep_seq i id : order r !! i = Some id →
    kv_map s !! validatorBySeqKey (Z.of_nat i + 1) = Some (arr_bytes id);
  rep_nodup : NoDup (order r);
  rep_dom id : id ∈ order r ↔ is_Some (vals r !! id);
  rep_val id : kv_map s !! validatorKey id = Validator_bytes <$> (vals r !! id);
  rep_ok id v : vals r !! id = Some v → Validator_ok id v;
  rep_total : total_value (kv_map s !! keyTotalBonded) = Ok (total_stake r);
  rep_total_ok : amount_ok (total_stake r);
  rep_pub id v : vals r !! id = Some v → val_Status v ≠ ValidatorRemoved →
    kv_map s !! validatorPubkeyKey (val_PublicKey v) = Some (arr_bytes id);
  rep_pub_inv pk b : kv_map s !! validatorPubkeyKey pk = Some b →
    ∃ id v, b = arr_bytes id ∧ vals r !! id = Some v ∧ arr_bytes (val_PublicKey v) = pk ∧
      val_Status v ≠ ValidatorRemoved;
  rep_op id v : vals r !! id = Some v → val_Status v ≠ ValidatorRemoved →
    kv_map s !! validatorOperatorKey (val_OperatorAddress v) = Some (arr_bytes id);
  rep_op_inv a b : kv_map s !! validatorOperatorKey a = Some b →
    ∃ id v, b = arr_bytes id ∧ vals r !! id = Some v ∧ val_OperatorAddress v = a ∧
      val_Status v ≠ ValidatorRemoved;
}.

Arguments rep_count {_ _ _ _} _.
Arguments rep_seq {_ _ _ _} _ _ _ _.
Arguments rep_nodup {_ _ _ _} _.
Arguments rep_dom {_ _ _ _} _ _.
Arguments rep_val {_ _ _ _} _ _.
Arguments rep_ok {_ _ _ _} _ _ _ _.
Arguments rep_total {_ _ _ _} _.
Arguments rep_total_ok {_ _ _ _} _.
Arguments rep_pub {_ _ _ _} _ _ _ _ _.
Arguments rep_pub_inv {_ _ _ _} _ _ _ _.
Arguments rep_op {_ _ _ _} _ _ _ _ _.
Arguments rep_op_inv {_ _ _ _} _ _ _ _.

(** ** Lemmas *)

(** *** Conversion of stakes *)

Lemma drop_be k m v : drop k (be (k + m) v) = be m v.
Proof. induction k as [|k IH]; [done|]. exact IH. Qed.

Lemma lor_byte x b : 0 <= x → Z.lor (Z.shiftl x 8) (b2z b) = x * 256 + b2z b.
Proof.
  intros Hx. pose proof (b2z_range b) as Hb. symmetry.
  rewrite Z.shiftl_mul_pow2 by lia. change (2 ^ 8) with 256.
  rewrite <- Z.lxor_lor, <- Z.add_nocarry_lxor; [done| |];
    (apply Z.bits_inj'; intros i Hi; rewrite Z.land_spec, Z.bits_0;
     change 256 with (2 ^ 8); destruct (decide (i < 8));
     [rewrite Z.mul_pow2_bits_low by done; done
     |rewrite (Z.bits_above_log2 (b2z b)); [apply andb_false_r|lia|];
      destruct (decide (b2z b = 0)) as [->|]; [simpl; lia|];
      apply Z.lt_le_trans with 8; [|lia]; apply Z.log2_lt_pow2; lia]).
Qed.

Lemma shift_fold data acc :
  0 <= acc → acc * 256 ^ Z.of_nat (length data) + unbe data < 2 ^ 64 →
  fold_left (λ val b, Z.lor (u64 (Z.shiftl val 8)) (b2z b)) data acc
  = acc * 256 ^ Z.of_nat (length data) + unbe data.
Proof.
  revert acc. induction data as [|b data IH]; intros acc Ha Hlt.
  - simpl. unfold unbe; simpl. lia.
  - cbn [fold_left length] in *. rewrite unbe_cons in *.
    rewrite Nat2Z.inj_succ, Z.pow_succ_r in * by lia.
    pose proof (b2z_range b) as Hb. pose proof (unbe_range data) as Hd.
    pose proof (pow256_pos (length data)) as Hp.
    assert (acc * 256 + b2z b < 2 ^ 64) as Hs by nia.
    rewrite u64_small by (unfold is_u64; rewrite Z.shiftl_mul_pow2 by lia; lia).
    rewrite lor_byte by done. rewrite IH; [ring|nia|nia].
Qed.

(** The conversion keeps the 64 low-order bits. *)
Lemma stakeToUint64_spec v : 0 <= v → stakeToUint64 v = u64 v.
Proof.
  intros Hv. unfold stakeToUint64, Amount_MarshalBinary.
  pose proof (unbe_big_bytes v Hv) as Hu.
  assert (∀ data, (length data <= 8)%nat →
    fold_left (λ val b, Z.lor (u64 (Z.shiftl val 8)) (b2z b)) data 0 = unbe data) as Hfold.
  { intros data Hl. rewrite shift_fold; [lia|done|].
    pose proof (unbe_range data). eapply Z.le_lt_trans with (unbe data); [lia|].
    eapply Z.lt_le_trans; [apply unbe_range|]. change (2 ^ 64) with (256 ^ Z.of_nat 8).
    apply Z.pow_le_mono_r; lia. }
  case_bool_decide as H0.
  { apply nil_length_inv in H0. rewrite H0 in Hu. by rewrite <- Hu. }
  case_bool_decide as H8.
  - rewrite Hfold by (rewrite length_drop; lia).
    unfold big_bytes at 2. set (n := nat_bytelen v).
    assert (length (big_bytes v) = n) as Hn by apply length_be. rewrite Hn in *.
    replace n with ((n - 8) + 8)%nat at 2 by lia. rewrite drop_be, unbe_be. done.
  - rewrite Hfold by lia. rewrite Hu. symmetry. apply u64_small. rewrite <- Hu.
    split; [apply unbe_range|]. eapply Z.lt_le_trans; [apply unbe_range|].
    change (2 ^ 64) with (256 ^ Z.of_nat 8). apply Z.pow_le_mono_r; lia.
Qed.

(** *** Records *)

Lemma Validator_ok_wf id v : Validator_ok id v → Validator_wf v.
Proof.
  intros [[] Hp]. split; try done.
  - unfold fits. lia.
  - rewrite Hp. case_match; [|done]. apply fits_u64, u64_is_u64.
Qed.

(** Storing a record recomputes its voting power. *)
Lemma with_power_ok id v : Validator_core id v → Validator_ok id (with_power v).
Proof.
  intros Hc. split; [destruct Hc; by split|]. unfold with_power; simpl.
  case_match; [|done]. apply stakeToUint64_spec. by destruct Hc as [_ _ [? _]].
Qed.

Lemma core_set_Status id v x : 0 <= x <= 4 → Validator_core id v → Validator_core id (set_Status x v).
Proof. intros Hx []. by split. Qed.
Lemma core_set_VotingPower id v x : Validator_core id v → Validator_core id (set_VotingPower x v).
Proof. intros []. by split. Qed.
Lemma core_set_JailedUntil id v x :
  fits 8 x → Validator_core id v → Validator_core id (set_JailedUntil x v).
Proof. intros Hx []. by split. Qed.
Lemma core_set_ActivationEpoch id v x :
  fits 8 x → Validator_core id v → Validator_core id (set_ActivationEpoch x v).
Proof. intros Hx []. by split. Qed.
Lemma core_set_UnstakeEpoch id v x :
  fits 8 x → Validator_core id v → Validator_core id (set_UnstakeEpoch x v).
Proof. intros Hx []. by split. Qed.
Lemma core_set_BondedStake id v x :
  amount_ok x → Validator_core id v → Validator_core id (set_BondedStake x v).
Proof. intros Hx []. by split. Qed.
(** [core]: a record built by field assignments from a stored one. *)
Ltac core :=
  intros; repeat first
    [ apply core_set_VotingPower | apply core_set_JailedUntil | apply core_set_ActivationEpoch
    | apply core_set_UnstakeEpoch | apply core_set_BondedStake | apply core_set_Status; [by split|] ].

Definition upd (id : Address) (v : Validator) (r : registry) : registry :=
  mkRegistry (order r) (<[id := v]> (vals r)).

Section represents.
Context {S : Type} `{StakingStore S}.
Implicit Types (s : S) (r : registry) (id : Address) (v : Validator).

Lemma ValidatorCount_spec s : ValidatorCount s = (s, count_value (kv_map s !! keyValidatorCount)).
Proof.
  unfold ValidatorCount, mbind, go_bind, GetBytes, gets. by destruct (kv_map s !! keyValidatorCount).
Qed.

Lemma TotalBonded_spec s : TotalBonded s = (s, total_value (kv_map s !! keyTotalBonded)).
Proof.
  unfold TotalBonded, mbind, go_bind, GetBytes, gets. by destruct (kv_map s !! keyTotalBonded).
Qed.

Lemma GetValidator_spec s r id :
  Represents s r →
  GetValidator id s =
  (s, match vals r !! id with
      | Some v => Ok v
      | None => Err (Wrapf "consensus ID" ErrValidatorNotFound)
      end).
Proof.
  intros Hr. unfold GetValidator, mbind, go_bind, GetBytes, gets. rewrite (rep_val Hr).
  destruct (vals r !! id) as [v|] eqn:Ev; simpl; [|done]. unfold lift. f_equal.
  rewrite <- (app_nil_r (Validator_bytes v)). apply Validator_decode_bytes.
  by eapply Validator_ok_wf, rep_ok.
Qed.

Lemma store_validator_spec s v :
  amount_ok (val_BondedStake v) →
  store_validator v s = (kv_put (validatorKey (val_ConsensusID v)) (Validator_bytes v) s, Ok tt).
Proof.
  intros Hs. unfold store_validator, mbind, go_bind, lift. by rewrite Validator_encode_bytes.
Qed.

Lemma UpdateValidator_spec s id v :
  Validator_core id v →
  UpdateValidator v s = (kv_put (validatorKey id) (Validator_bytes (with_power v)) s, Ok tt).
Proof.
  intros []. unfold UpdateValidator. rewrite store_validator_spec by done. simpl. by subst id.
Qed.

Lemma live_stake_range id v : Validator_ok id v → 0 <= live_stake v <= val_BondedStake v.
Proof. intros [[_ _ [? ?] _ _ _ _ _] _]. unfold live_stake. case_match; lia. Qed.

Lemma live_stake_le s r id v : Represents s r → vals r !! id = Some v → live_stake v <= total_stake r.
Proof.
  intros Hr Hv. eapply map_zsum_lookup_le; [|exact Hv]. intros k w Hw.
  eapply live_stake_range, (rep_ok Hr k w Hw).
Qed.

(** The record of a validator that is not removed is replaced; the total
    follows, and the indexes are cleared if it is removed now. *)
Lemma represents_update s s' r id v v' :
  Represents s r → vals r !! id = Some v → val_Status v ≠ ValidatorRemoved →
  Validator_ok id v' → val_PublicKey v' = val_PublicKey v →
  val_OperatorAddress v' = val_OperatorAddress v →
  total_value (kv_map s' !! keyTotalBonded) = Ok (total_stake r - live_stake v + live_stake v') →
  amount_ok (total_stake r - live_stake v + live_stake v') →
  kv_map s' !! validatorKey id = Some (Validator_bytes v') →
  (∀ k, k ≠ validatorKey id → k ≠ keyTotalBonded →
        k ≠ validatorPubkeyKey (val_PublicKey v) → k ≠ validatorOperatorKey (val_OperatorAddress v) →
        kv_map s' !! k = kv_map s !! k) →
  let idx := if val_Status v' =? ValidatorRemoved then None else Some (arr_bytes id) in
  kv_map s' !! validatorPubkeyKey (val_PublicKey v) = idx →
  kv_map s' !! validatorOperatorKey (val_OperatorAddress v) = idx →
  Represents s' (upd id v' r).
Proof.
  intros Hr Hv Hnr Hok Hpk Hop Htot Htok Hrec Hsame idx Hpub Hope.
  assert (total_stake (upd id v' r) = total_stake r - live_stake v + live_stake v') as Ets
    by (by apply map_zsum_insert_Some).
  split; simpl.
  - rewrite Hsame by key_ne. apply (rep_count Hr).
  - intros i x Hi. rewrite Hsame by key_ne. by apply (rep_seq Hr).
  - apply (rep_nodup Hr).
  - intros x. rewrite (rep_dom Hr), lookup_insert. case_decide; [subst; by rewrite Hv|done].
  - intros x. rewrite lookup_insert. case_decide as Hx; [by subst|].
    rewrite Hsame by key_ne. apply (rep_val Hr).
  - intros x w. rewrite lookup_insert. case_decide; [|apply (rep_ok Hr)]. naive_solver.
  - by rewrite Ets.
  - by rewrite Ets.
  - intros x w. rewrite lookup_insert. case_decide as Hx.
    + intros [= <-] Hw. rewrite Hpk, Hpub. unfold idx. subst x. by rewrite (proj2 (Z.eqb_neq _ _) Hw).
    + intros Hw Hns. rewrite Hsame; [by apply (rep_pub Hr)|key_ne|key_ne| |key_ne].
      intros Heq. apply validatorPubkeyKey_inj, arr_eq in Heq. apply Hx. destruct (rep_ok Hr x w Hw) as [[_ <- _ _ _ _ _ _] _].
      destruct (rep_ok Hr id v Hv) as [[_ <- _ _ _ _ _ _] _]. by rewrite Heq.
  - intros pk b Hb. destruct (decide (pk = arr_bytes (val_PublicKey v))) as [->|Hne].
    + rewrite Hpub in Hb. unfold idx in Hb. case_match eqn:Hs; [done|]. injection Hb as <-.
      exists id, v'. rewrite lookup_insert_eq, Hpk. bool_hyps. done.
    + rewrite Hsame in Hb by key_ne. destruct (rep_pub_inv Hr pk b Hb) as (x & w & -> & Hw & <- & Hs).
      exists x, w. rewrite lookup_insert_ne by (intros ->; congruence). done.
  - intros x w. rewrite lookup_insert. case_decide as Hx.
    + intros [= <-] Hw. rewrite Hop, Hope. unfold idx. subst x. by rewrite (proj2 (Z.eqb_neq _ _) Hw).
    + intros Hw Hns. rewrite Hsame; [by apply (rep_op Hr)|key_ne|key_ne|key_ne|].
      intros Heq. apply validatorOperatorKey_inj in Heq.
      pose proof (rep_op Hr x w Hw Hns) as H1'. rewrite Heq, (rep_op Hr id v Hv Hnr) in H1'.
      injection H1' as H1'. apply Hx. by apply arr_eq.
  - intros a b Hb. destruct (decide (a = val_OperatorAddress v)) as [->|Hne].
    + rewrite Hope in Hb. unfold idx in Hb. case_match eqn:Hs; [done|]. injection Hb as <-.
      exists id, v'. rewrite lookup_insert_eq, Hop. bool_hyps. done.
    + rewrite Hsame in Hb by key_ne. destruct (rep_op_inv Hr a b Hb) as (x & w & -> & Hw & <- & Hs).
      exists x, w. rewrite lookup_insert_ne by (intros ->; congruence). done.
Qed.
End represents.

(** ** The specification of the operations

    Calls of the registry and what they do to the abstract registry. *)

Inductive reg_call :=
  | CRegister (pubKey : arr 32) (operatorAddr : Address) (stake : Amount) (commission epoch : Z)
  | CActivate (id : Address) (epoch : Z)
  | CJail (id : Address) (untilEpoch : Z)
  | CUnjail (id : Address)
  | CStartUnstake (id : Address) (unstakeEpoch : Z)
  | CRemove (id : Address).

Definition run_call {S} `{KVStore S} (c : reg_call) : go S unit :=
  match c with
  | CRegister pk op stake rate epoch => RegisterValidator pk op stake rate epoch;; mret tt
  | CActivate id epoch => ActivateValidator id epoch
  | CJail id until => JailValidator id until
  | CUnjail id => UnjailValidator id
  | CStartUnstake id epoch => StartUnstake id epoch
  | CRemove id => RemoveValidator id
  end.

(** A validator moves from one status to another; its voting power is its
    stake exactly when the new status is active. *)
Definition move (to : Z) (v : Validator) : Validator :=
  set_VotingPower (if to =? ValidatorActive then u64 (val_BondedStake v) else 0) (set_Status to v).

Definition operator_taken (op : Address) (r : registry) : bool :=
  existsb (λ v, bool_decide (val_OperatorAddress v = op) && negb (val_Status v =? ValidatorRemoved))
    (map_to_list (vals r)).*2.

Definition with_validator (id : Address) (r : registry) (from : Z) (e : error)
    (f : Validator → Validator) : res registry :=
  match vals r !! id with
  | None => Err (Wrapf "consensus ID" ErrValidatorNotFound)
  | Some v => if val_Status v =? from then Ok (upd id (f v) r) else Err e
  end.

Definition spec_call (c : reg_call) (r : registry) : res registry :=
  match c with
  | CRegister pk op stake rate epoch =>
      let id := DeriveConsensusID pk in
      if bool_decide (is_Some (vals r !! id)) then Err (Wrapf "consensus ID" ErrValidatorExists) else
      if operator_taken op r then Err (Wrapf "operator address" ErrValidatorExists) else
      v ← NewValidator id pk op stake rate epoch;
      Ok (mkRegistry (order r ++ [id]) (<[id := v]> (vals r)))
  | CActivate id epoch =>
      with_validator id r ValidatorPending (Wrapf "validator" ErrValidatorNotPending)
        (λ v, set_ActivationEpoch epoch (move ValidatorActive v))
  | CJail id until =>
      with_validator id r ValidatorActive (Wrapf "validator" ErrValidatorNotActive)
        (λ v, set_JailedUntil until (move ValidatorJailed v))
  | CUnjail id =>
      with_validator id r ValidatorJailed (Wrapf "validator is not jailed" ErrValidatorJailed)
        (λ v, set_JailedUntil 0 (move ValidatorActive v))
  | CStartUnstake id epoch =>
      with_validator id r ValidatorActive (Wrapf "status" ErrInvalidTransition)
        (λ v, set_UnstakeEpoch epoch (move ValidatorUnstaking v))
  | CRemove id =>
      with_validator id r ValidatorUnstaking (Wrapf "validator" ErrValidatorNotUnstaking)
        (move ValidatorRemoved)
  end.

(** Arguments are values of their Go types, and a registration keeps the
    counter in 64 and the total in 128 bits. *)
Definition call_ok (c : reg_call) (r : registry) : Prop :=
  match c with
  | CRegister _ _ stake rate epoch =>
      amount_ok stake ∧ fits 2 rate ∧ total_stake r + stake < 2 ^ 128 ∧
      Z.of_nat (length (order r)) + 1 < 2 ^ 64
  | CActivate _ e | CJail _ e | CStartUnstake _ e => fits 8 e
  | CUnjail _ | CRemove _ => True
  end.

Section calls.
Context {S : Type} `{StakingStore S}.
Implicit Types (s : S) (r : registry) (id : Address) (v : Validator).

(** Replacing a record without touching the total or the indexes. *)
Lemma represents_put s r id v v' :
  Represents s r → vals r !! id = Some v → val_Status v ≠ ValidatorRemoved →
  val_Status v' ≠ ValidatorRemoved → val_BondedStake v' = val_BondedStake v →
  Validator_ok id v' → val_PublicKey v' = val_PublicKey v →
  val_OperatorAddress v' = val_OperatorAddress v →
  Represents (kv_put (validatorKey id) (Validator_bytes v') s) (upd id v' r).
Proof.
  intros Hr Hv Hs Hs' Hst Hok Hpk Hop.
  assert (live_stake v' = live_stake v) as Hlive.
  { unfold live_stake. by rewrite !(proj2 (Z.eqb_neq _ _)), Hst. }
  apply (represents_update s _ r id v v'); try done; store; kv_simpl; try done.
  - rewrite (rep_total Hr). f_equal. lia.
  - replace (total_stake r - live_stake v + live_stake v') with (total_stake r) by lia.
    apply (rep_total_ok Hr).
  - intros k Hk _ _ _. by rewrite lookup_insert_ne.
  - rewrite (proj2 (Z.eqb_neq _ _) Hs'). by apply (rep_pub Hr).
  - rewrite (proj2 (Z.eqb_neq _ _) Hs'). by apply (rep_op Hr).
Qed.

(** The common part of the life-cycle operations that keep a validator
    bonded: [g] is the record the code stores, [f] the specified one. *)
Lemma lifecycle_refines s r id v (f g : Validator → Validator) :
  Represents s r → vals r !! id = Some v → val_Status v ≠ ValidatorRemoved →
  Validator_core id (g v) → with_power (g v) = f v → val_Status (f v) ≠ ValidatorRemoved →
  val_BondedStake (f v) = val_BondedStake v → val_PublicKey (f v) = val_PublicKey v →
  val_OperatorAddress (f v) = val_OperatorAddress v →
  ∃ s', UpdateValidator (g v) s = (s', Ok tt) ∧ Represents s' (upd id (f v) r) ∧ same_accounts s s'.
Proof.
  intros Hr Hv Hs Hc Hfg Hsf Hst Hpk Hop. rewrite (UpdateValidator_spec s id) by done.
  eexists. split; [done|]. rewrite Hfg. split; [|unfold same_accounts; by store].
  apply (represents_put s r id v); try done. rewrite <- Hfg. by apply with_power_ok.
Qed.

Lemma transitionTo_ok from to v :
  val_Status v = from → IsValidTransition from to = true → transitionTo to v = Ok (set_Status to v).
Proof. intros <- Ht. unfold transitionTo. by rewrite Ht. Qed.

Lemma with_power_active v st :
  0 <= val_BondedStake v → val_Status v = ValidatorActive →
  with_power (set_VotingPower st v) = set_VotingPower (u64 (val_BondedStake v)) v.
Proof.
  intros Hb Hs. unfold with_power; simpl. rewrite Hs; simpl.
  unfold stakeToVotingPower. by rewrite stakeToUint64_spec.
Qed.

Lemma with_power_inactive v st :
  val_Status v ≠ ValidatorActive → with_power (set_VotingPower st v) = set_VotingPower 0 v.
Proof. intros Hs. unfold with_power; simpl. by rewrite (proj2 (Z.eqb_neq _ _) Hs). Qed.

(** The three steps every operation starts with: read the record, check the
    status, move it. *)
Lemma read_and_move s r id from to e (k : Validator → go S unit) :
  Represents s r → IsValidTransition from to = true →
  (v ← GetValidator id;
   guard_err (negb (val_Status v =? from)) e;;
   v ← lift (transitionTo to v); k v) s =
  match vals r !! id with
  | None => (s, Err (Wrapf "consensus ID" ErrValidatorNotFound))
  | Some v => if val_Status v =? from then k (set_Status to v) s else (s, Err e)
  end.
Proof.
  intros Hr Ht. unfold mbind at 1, go_bind at 1. rewrite (GetValidator_spec s r id Hr).
  destruct (vals r !! id) as [v|]; [|done].
  destruct (Z.eqb_spec (val_Status v) from) as [Hf|Hf]; simpl; [|done].
  rewrite (go_bind_ok _ _ s s tt) by done. by rewrite (transitionTo_ok from) by done.
Qed.

Lemma run_lifecycle s r id from to e (f g : Validator → Validator) :
  Represents s r → IsValidTransition from to = true → to ≠ ValidatorRemoved →
  (∀ v, Validator_core id v → Validator_core id (g (set_Status to v))) →
  (∀ v, 0 <= val_BondedStake v → with_power (g (set_Status to v)) = f v) →
  (∀ v, val_Status (f v) = to ∧ val_BondedStake (f v) = val_BondedStake v ∧
        val_PublicKey (f v) = val_PublicKey v ∧ val_OperatorAddress (f v) = val_OperatorAddress v) →
  match with_validator id r from e f with
  | Ok r' => ∃ s', (v ← GetValidator id;
                    guard_err (negb (val_Status v =? from)) e;;
                    v ← lift (transitionTo to v); UpdateValidator (g v)) s = (s', Ok tt) ∧
                   Represents s' r' ∧ same_accounts s s'
  | Err e' => (v ← GetValidator id;
               guard_err (negb (val_Status v =? from)) e;;
               v ← lift (transitionTo to v); UpdateValidator (g v)) s = (s, Err e')
  | Panic => False
  end.
Proof.
  intros Hr Ht Hto Hg Hp Hf. unfold with_validator.
  rewrite (read_and_move s r id from to e _ Hr Ht).
  destruct (vals r !! id) as [v|] eqn:Hv; [|done].
  destruct (Z.eqb_spec (val_Status v) from) as [Hst|]; [|done].
  destruct (Hf v) as (Hf1 & Hf2 & Hf3 & Hf4). pose proof (rep_ok Hr id v Hv) as [Hc _].
  apply (lifecycle_refines s r id v f (λ v, g (set_Status to v))); try done.
  - rewrite Hst. intros ->. by apply IsValidTransition_spec in Ht as [[]|[[]|[[]|[[]|[]]]]].
  - by apply Hg.
  - apply Hp. by destruct Hc as [_ _ [? _]].
  - by rewrite Hf1.
Qed.

(** [StartUnstake] has no status guard of its own: the table decides. *)
Lemma StartUnstake_eq id epoch s r :
  Represents s r →
  StartUnstake id epoch s =
  (v ← GetValidator id;
   guard_err (negb (val_Status v =? ValidatorActive)) (Wrapf "status" ErrInvalidTransition);;
   v ← lift (transitionTo ValidatorUnstaking v);
   UpdateValidator (set_VotingPower 0 (set_UnstakeEpoch epoch v))) s.
Proof.
  intros Hr. unfold StartUnstake, mbind, go_bind. rewrite (GetValidator_spec s r id Hr).
  destruct (vals r !! id) as [v|]; [|done].
  destruct (Z.eqb_spec (val_Status v) ValidatorActive) as [Hs|Hs]; [done|].
  unfold transitionTo. destruct (IsValidTransition _ _) eqn:Ht; [|done].
  apply IsValidTransition_spec in Ht as [[]|[[]|[[]|[[]|[]]]]]; done.
Qed.

Lemma RemoveValidator_refines s r id :
  Represents s r →
  match spec_call (CRemove id) r with
  | Ok r' => ∃ s', RemoveValidator id s = (s', Ok tt) ∧ Represents s' r' ∧ same_accounts s s'
  | Err e => RemoveValidator id s = (s, Err e)
  | Panic => False
  end.
Proof.
  intros Hr. unfold spec_call, with_validator, RemoveValidator.
  rewrite (read_and_move s r id _ _ _ _ Hr) by done.
  destruct (vals r !! id) as [v|] eqn:Hv; [|done].
  destruct (Z.eqb_spec (val_Status v) ValidatorUnstaking) as [Hst|]; [|done].
  pose proof (rep_ok Hr id v Hv) as [Hc _]. pose proof (live_stake_le s r id v Hr Hv) as Hle.
  assert (live_stake v = val_BondedStake v) as Hlive by (unfold live_stake; by rewrite Hst).
  pose proof (rep_total_ok Hr) as Htok. destruct (core_stake _ _ Hc) as [Hst0 _].
  unfold mbind at 1, go_bind at 1. rewrite TotalBonded_spec, (rep_total Hr).
  cbn [val_BondedStake val_PublicKey val_OperatorAddress set_VotingPower set_Status].
  rewrite (go_bind_ok _ _ s s (total_stake r - live_stake v))
    by (rewrite Amount_Sub_ok by lia; by rewrite Hlive).
  do 3 (rewrite (go_bind_ok _ _ _ _ tt) by done).
  rewrite (UpdateValidator_spec _ id) by (apply core_set_VotingPower, core_set_Status; [by split|done]).
  rewrite with_power_inactive by done. eexists. split; [done|].
  split; [|unfold same_accounts; by store].
  assert (amount_ok (total_stake r - live_stake v)) as Hok.
  { unfold amount_ok, is_u128 in *. lia. }
  assert (live_stake (move ValidatorRemoved v) = 0) as Hz by done.
  apply (represents_update s _ r id v); try done; rewrite ?Hz, ?Z.add_0_r; store; kv_simpl; try done.
  - by rewrite Hst.
  - change (move ValidatorRemoved v) with (set_VotingPower 0 (set_Status ValidatorRemoved v)).
    rewrite <- (with_power_inactive (set_Status ValidatorRemoved v) 0) by done.
    apply with_power_ok, core_set_VotingPower, core_set_Status; [by split|done].
  - by apply Amount_unmarshal_marshal.
  - intros k Hk1 Hk2 Hk3 Hk4. rewrite lookup_insert_ne, !lookup_delete_ne, lookup_insert_ne; done.
Qed.

Lemma operator_taken_spec s r a :
  Represents s r → operator_taken a r = bool_decide (is_Some (kv_map s !! validatorOperatorKey a)).
Proof.
  intros Hr. apply eq_true_iff_eq. unfold operator_taken. rewrite existsb_exists, bool_decide_eq_true.
  split.
  - intros (v & Hin & Hv). apply list_elem_of_In in Hin. apply list_elem_of_fmap in Hin as ([id w] & -> & Hin).
    apply elem_of_map_to_list in Hin. bool_hyps. simpl in *. subst a.
    eexists. by apply (rep_op Hr id w).
  - intros [b Hb]. destruct (rep_op_inv Hr a b Hb) as (id & v & _ & Hv & <- & Hs). exists v. split.
    + apply list_elem_of_In, list_elem_of_fmap. exists (id, v). split; [done|]. by apply elem_of_map_to_list.
    + rewrite bool_decide_true by done. by rewrite (proj2 (Z.eqb_neq _ _) Hs).
Qed.

(** Adding a fresh pending validator. *)
Lemma represents_register s s' r id v :
  Represents s r → vals r !! id = None → Validator_ok id v → val_Status v ≠ ValidatorRemoved →
  (kv_map s !! validatorOperatorKey (val_OperatorAddress v) = None) →
  amount_ok (total_stake r + val_BondedStake v) → Z.of_nat (length (order r)) + 1 < 2 ^ 64 →
  kv_map s' =
    <[keyTotalBonded := Amount_MarshalBinary (total_stake r + val_BondedStake v)]>
    (<[keyValidatorCount := be 8 (Z.of_nat (length (order r)) + 1)]>
    (<[validatorBySeqKey (Z.of_nat (length (order r)) + 1) := arr_bytes id]>
    (<[validatorOperatorKey (val_OperatorAddress v) := arr_bytes id]>
    (<[validatorPubkeyKey (val_PublicKey v) := arr_bytes id]>
    (<[validatorKey id := Validator_bytes v]> (kv_map s)))))) →
  Represents s' (mkRegistry (order r ++ [id]) (<[id := v]> (vals r))).
Proof.
  intros Hr Hv Hok Hns Hop Htok Hcnt Hkv.
  assert (total_stake (mkRegistry (order r ++ [id]) (<[id := v]> (vals r)))
          = total_stake r + val_BondedStake v) as Ets.
  { unfold total_stake; simpl. rewrite map_zsum_insert_None by done. unfold live_stake at 1.
    rewrite (proj2 (Z.eqb_neq _ _) Hns). lia. }
  assert (∀ x w, vals r !! x = Some w → x ≠ id) as Hfresh by (intros x w Hw ->; congruence).
  split; simpl; rewrite ?Hkv, ?Ets; try done.
  - kv_simpl. rewrite length_app; simpl. rewrite Nat2Z.inj_add. apply Uint64_be.
    unfold fits. change (256 ^ Z.of_nat 8) with (2 ^ 64). lia.
  - intros i x Hi. apply lookup_app_Some in Hi as [Hi|[Hlen Hi]].
    + pose proof (lookup_lt_Some _ _ _ Hi).
      kv_simpl. rewrite lookup_insert_ne by (intros E%validatorBySeqKey_inj; lia).
      kv_simpl. by apply (rep_seq Hr).
    + apply list_lookup_singleton_Some in Hi as [Hi <-].
      replace i with (length (order r)) by lia. by kv_simpl.
  - apply NoDup_app. split; [apply (rep_nodup Hr)|]. split; [|apply NoDup_singleton].
    intros x Hx ->%list_elem_of_singleton. apply (rep_dom Hr) in Hx. rewrite Hv in Hx. by destruct Hx.
  - intros x. rewrite elem_of_app, list_elem_of_singleton, (rep_dom Hr), lookup_insert.
    case_decide; [subst; split; [done|by right]|]. split; [intros [?| ->]|]; eauto. done.
  - intros x. destruct (decide (id = x)) as [<-|Hx]; [by kv_simpl|].
    kv_simpl. rewrite (lookup_insert_ne (vals r)) by done. apply (rep_val Hr).
  - intros x w. rewrite lookup_insert. case_decide; [naive_solver|apply (rep_ok Hr)].
  - kv_simpl. by apply Amount_unmarshal_marshal.
  - intros x w. rewrite lookup_insert. case_decide as Hx; [intros [= <-] _; subst; by kv_simpl|].
    intros Hw Hs. kv_simpl. rewrite lookup_insert_ne; [kv_simpl; by apply (rep_pub Hr)|].
    intros E%validatorPubkeyKey_inj%arr_eq. destruct (rep_ok Hr x w Hw) as [[_ Hk _ _ _ _ _ _] _].
    destruct Hok as [[_ Hk' _ _ _ _ _ _] _]. congruence.
  - intros pk b. destruct (decide (pk = arr_bytes (val_PublicKey v))) as [->|Hne].
    + kv_simpl. intros [= <-]. exists id, v. by rewrite lookup_insert_eq.
    + kv_simpl. intros Hb. destruct (rep_pub_inv Hr pk b Hb) as (x & w & -> & Hw & Hpk & Hs).
      exists x, w. rewrite lookup_insert_ne by (symmetry; eauto). done.
  - intros x w. rewrite lookup_insert. case_decide as Hx; [intros [= <-] _; subst; by kv_simpl|].
    intros Hw Hs. kv_simpl. rewrite lookup_insert_ne; [kv_simpl; by apply (rep_op Hr)|].
    intros E%validatorOperatorKey_inj. pose proof (rep_op Hr x w Hw Hs). congruence.
  - intros a b. destruct (decide (a = val_OperatorAddress v)) as [->|Hne].
    + kv_simpl. intros [= <-]. exists id, v. by rewrite lookup_insert_eq.
    + kv_simpl. intros Hb. destruct (rep_op_inv Hr a b Hb) as (x & w & -> & Hw & Hpk & Hs).
      exists x, w. rewrite lookup_insert_ne by (symmetry; eauto). done.
Qed.

Lemma RegisterValidator_refines s r pk op stake rate epoch :
  Represents s r → call_ok (CRegister pk op stake rate epoch) r →
  match spec_call (CRegister pk op stake rate epoch) r with
  | Ok r' => ∃ s', RegisterValidator pk op stake rate epoch s = (s', Ok (DeriveConsensusID pk)) ∧
                   Represents s' r' ∧ same_accounts s s'
  | Err e => RegisterValidator pk op stake rate epoch s = (s, Err e)
  | Panic => False
  end.
Proof.
  intros Hr (Hst & Hrate & Htot & Hcnt). unfold spec_call, RegisterValidator.
  set (id := DeriveConsensusID pk).
  rewrite (go_bind_ok _ _ s s (kv_map s !! validatorKey id)) by done.
  rewrite (rep_val Hr). destruct (vals r !! id) as [v0|] eqn:Hv; [done|].
  rewrite (bool_decide_false (is_Some (None : option Validator))) by (by intros [? ?]).
  rewrite (bool_decide_false (is_Some (Validator_bytes <$> None))) by (by intros [? ?]).
  rewrite (go_bind_ok _ _ s s tt) by done.
  rewrite (go_bind_ok _ _ s s (kv_map s !! validatorPubkeyKey pk)) by done.
  destruct (kv_map s !! validatorPubkeyKey pk) as [b|] eqn:Hpk.
  { exfalso. destruct (rep_pub_inv Hr _ _ Hpk) as (x & w & _ & Hw & Hk & _).
    apply arr_eq in Hk. destruct (rep_ok Hr x w Hw) as [[_ Hid _ _ _ _ _ _] _].
    rewrite Hk in Hid. fold id in Hid. congruence. }
  rewrite (bool_decide_false (is_Some (None : option bytes))) by (by intros [? ?]).
  rewrite (go_bind_ok _ _ s s tt) by done.
  rewrite (go_bind_ok _ _ s s (kv_map s !! validatorOperatorKey op)) by done.
  rewrite (operator_taken_spec s r op Hr).
  destruct (kv_map s !! validatorOperatorKey op) as [b|] eqn:Hop; [done|].
  rewrite (bool_decide_false (is_Some (None : option bytes))) by (by intros [? ?]).
  rewrite (go_bind_ok _ _ s s tt) by done.
  rewrite (go_bind_ok _ _ s s (Z.of_nat (length (order r))))
    by (by rewrite ValidatorCount_spec, (rep_count Hr)).
  destruct (NewValidator id pk op stake rate epoch) as [v|e|] eqn:Hnew;
    [|done|unfold NewValidator, ValidateCommissionRate, mbind, res_bind in Hnew; by repeat case_match].
  rewrite (go_bind_ok _ _ s s v) by done.
  apply NewValidator_inv in Hnew as (Hmin & Hmax & ->). set (v := mkValidator _ _ _ _ _ _ _ _ _ _ _).
  assert (Validator_ok id v) as Hok.
  { split; [|done]. split; try done. apply fits_u64, u64_is_u64. }
  assert (amount_ok (total_stake r + stake)) as Htok.
  { pose proof (rep_total_ok Hr). unfold amount_ok, is_u128 in *. lia. }
  rewrite (go_bind_ok _ _ _ _ tt) by (by apply store_validator_spec).
  do 4 (rewrite (go_bind_ok _ _ _ _ tt) by done).
  rewrite (go_bind_ok _ _ _ _ (total_stake r))
    by (rewrite TotalBonded_spec; store; kv_simpl; by rewrite (rep_total Hr)).
  rewrite (Amount_Add_ok _ _ (rep_total_ok Hr) Hst Htot).
  rewrite (go_bind_ok _ _ _ _ (total_stake r + stake)) by done.
  rewrite (go_bind_ok _ _ _ _ tt) by done. eexists. split; [done|].
  split; [|unfold same_accounts; by store].
  apply (represents_register s _ r id v Hr Hv Hok); try done. store.
  rewrite u64_small by (unfold is_u64; lia). done.
Qed.

Lemma run_call_refines s r c :
  Represents s r → call_ok c r →
  match spec_call c r with
  | Ok r' => ∃ s', run_call c s = (s', Ok tt) ∧ Represents s' r' ∧ same_accounts s s'
  | Err e => run_call c s = (s, Err e)
  | Panic => False
  end.
Proof.
  intros Hr Hc. destruct c as [pk op stake rate epoch|id e|id e|id|id e|id]; simpl in Hc.
  - pose proof (RegisterValidator_refines s r pk op stake rate epoch Hr Hc) as Hreg.
    cbn [run_call]. destruct (spec_call _ r) as [r'|e|]; [|by rewrite (go_bind_err _ _ _ _ _ Hreg)|done].
    destruct Hreg as (s' & Hrun & Hr' & Ha). rewrite (go_bind_ok _ _ _ _ _ Hrun). by eexists.
  - apply (run_lifecycle s r id ValidatorPending ValidatorActive _ _
      (λ v, set_VotingPower (stakeToVotingPower (val_BondedStake v)) (set_ActivationEpoch e v))); [done|done|done|by core|intros v Hb|done].
    by rewrite with_power_active.
  - apply (run_lifecycle s r id ValidatorActive ValidatorJailed _ _
      (λ v, set_VotingPower 0 (set_JailedUntil e v))); [done|done|done|by core|intros v Hb|done].
    by rewrite with_power_inactive.
  - apply (run_lifecycle s r id ValidatorJailed ValidatorActive _ _
      (λ v, set_VotingPower (stakeToVotingPower (val_BondedStake v)) (set_JailedUntil 0 v))); [done|done|done|by core|intros v Hb|done].
    by rewrite with_power_active.
  - cbn [run_call]. rewrite (StartUnstake_eq id e s r Hr).
    apply (run_lifecycle s r id ValidatorActive ValidatorUnstaking _ _
      (λ v, set_VotingPower 0 (set_UnstakeEpoch e v))); [done|done|done|by core|intros v Hb|done].
    by rewrite with_power_inactive.
  - by apply RemoveValidator_refines.
Qed.

(** *** The active set *)

Definition active_of r (ids : list Address) : list Validator :=
  omap (λ id, match vals r !! id with
              | Some v => if val_Status v =? ValidatorActive then Some v else None
              | None => None
              end) ids.

Lemma validator_at_seq_spec s r i id :
  Represents s r → order r !! i = Some id →
  validator_at_seq (Z.of_nat i + 1) s =
  (s, Ok match vals r !! id with Some v => Some (id, v) | None => None end).
Proof.
  intros Hr Hi. unfold validator_at_seq, mbind at 1, go_bind at 1, try at 1, getValidatorIDBySeq,
    mbind at 1, go_bind at 1, GetBytes, gets. rewrite (rep_seq Hr i id Hi). simpl.
  rewrite arr_copy_arr. unfold mbind, go_bind, try. rewrite (GetValidator_spec s r id Hr).
  by destruct (vals r !! id).
Qed.

Lemma collect_active_spec s r k ids :
  Represents s r → drop k (order r) = ids →
  collect_active (Z.of_nat <$> seq (1 + k) (length ids)) s = (s, Ok (active_of r ids)).
Proof.
  intros Hr. revert k. induction ids as [|id ids IH]; intros k Hd; [done|].
  assert (order r !! k = Some id) as Hk.
  { rewrite <- (Nat.add_0_r k), <- lookup_drop, Hd. done. }
  assert (drop (1 + k) (order r) = ids) as Hd'.
  { rewrite Nat.add_comm, <- drop_drop, Hd. done. }
  cbn [length seq fmap list_fmap collect_active].
  replace (Z.of_nat (1 + k)) with (Z.of_nat k + 1) by lia.
  rewrite (go_bind_ok _ _ _ _ _ (validator_at_seq_spec s r k id Hr Hk)).
  rewrite (go_bind_ok _ _ _ _ _ (IH (1 + k)%nat Hd')).
  unfold mret, go_ret. f_equal. f_equal. cbn [active_of omap list_omap].
  destruct (vals r !! id) as [v|]; [|done]. by destruct (val_Status v =? ValidatorActive).
Qed.

Lemma GetActiveValidators_spec s r :
  Represents s r →
  GetActiveValidators s = (s, Ok (sort_slice power_less (active_of r (order r)))).
Proof.
  intros Hr. unfold GetActiveValidators.
  rewrite (go_bind_ok _ _ s s (Z.of_nat (length (order r))))
    by (by rewrite ValidatorCount_spec, (rep_count Hr)).
  unfold seqs. rewrite Nat2Z.id. change 1%nat with (1 + 0)%nat.
  by rewrite (go_bind_ok _ _ s s _ (collect_active_spec s r 0 (order r) Hr eq_refl)).
Qed.

Lemma active_of_spec s r v :
  Represents s r →
  v ∈ active_of r (order r) ↔
  ∃ id, vals r !! id = Some v ∧ val_Status v = ValidatorActive.
Proof.
  intros Hr. unfold active_of. rewrite list_elem_of_omap. split.
  - intros (id & _ & Hv). exists id. destruct (vals r !! id) as [w|]; [|done].
    destruct (Z.eqb_spec (val_Status w) ValidatorActive); naive_solver.
  - intros (id & Hv & Hs). exists id. rewrite Hv, Hs. split; [|done].
    apply (rep_dom Hr). by eexists.
Qed.

Lemma active_of_id s r v w :
  Represents s r → v ∈ active_of r (order r) → w ∈ active_of r (order r) →
  val_ConsensusID v = val_ConsensusID w → v = w.
Proof.
  intros Hr Hv Hw Heq. apply (active_of_spec s r v Hr) in Hv as (x & Hx & _).
  apply (active_of_spec s r w Hr) in Hw as (y & Hy & _).
  destruct (rep_ok Hr x v Hx) as [[Ex _ _ _ _ _ _ _] _].
  destruct (rep_ok Hr y w Hy) as [[Ey _ _ _ _ _ _ _] _]. congruence.
Qed.

Lemma active_of_NoDup s r : Represents s r → NoDup (active_of r (order r)).
Proof.
  intros Hr. pose proof (rep_nodup Hr) as Hnd. unfold active_of.
  induction Hnd as [|id ids Hid Hnd IH]; simpl; [constructor|].
  destruct (vals r !! id) as [v|] eqn:Hv; [|done].
  destruct (val_Status v =? ValidatorActive); [|done]. constructor; [|done].
  rewrite list_elem_of_omap. intros (y & Hy & Hw).
  destruct (vals r !! y) as [w|] eqn:Ey; [|done]. case_match; [|done]. injection Hw as ->.
  destruct (rep_ok Hr id v Hv) as [[Ex _ _ _ _ _ _ _] _].
  destruct (rep_ok Hr y v Ey) as [[Ey' _ _ _ _ _ _ _] _]. congruence.
Qed.
End calls.

#[global] Instance power_less_order : LessOrder power_less.
Proof.
  split; unfold power_less.
  - intros v w. destruct (Z.eqb_spec (val_VotingPower v) (val_VotingPower w)) as [E|E]; simpl.
    + rewrite (proj2 (Z.eqb_eq _ _) (eq_sym E)). simpl. apply bytes_lt_asym.
    + rewrite (proj2 (Z.eqb_neq _ _) (not_eq_sym E)). simpl. intros H. bool_hyps. apply Z.ltb_ge. lia.
  - intros x y z.
    destruct (Z.eqb_spec (val_VotingPower y) (val_VotingPower x)) as [E1|E1],
      (Z.eqb_spec (val_VotingPower z) (val_VotingPower y)) as [E2|E2],
      (Z.eqb_spec (val_VotingPower z) (val_VotingPower x)) as [E3|E3]; simpl; try lia.
    apply bytes_lt_trans.
Qed.

(** The order of the active set: voting power descending, then consensus ID
    ascending. *)
Definition ranked (v w : Validator) : Prop :=
  val_VotingPower w < val_VotingPower v ∨
  val_VotingPower v = val_VotingPower w ∧
  (val_ConsensusID v = val_ConsensusID w ∨ bytes_compare (val_ConsensusID v) (val_ConsensusID w) = Lt).

Lemma power_less_ranked v w : not_after power_less v w ↔ ranked v w.
Proof.
  unfold not_after, power_less, ranked, bytes_lt.
  rewrite (bytes_compare_antisym (val_ConsensusID v)).
  destruct (Z.eqb_spec (val_VotingPower w) (val_VotingPower v)) as [E|E]; simpl.
  - destruct (bytes_compare (val_ConsensusID v) (val_ConsensusID w)) eqn:Hc; simpl.
    + apply bytes_compare_eq, arr_eq in Hc. intuition.
    + intuition.
    + split; [done|]. intros [?|[_ [He|?]]]; [lia| |done].
      rewrite He, (proj2 (bytes_compare_eq _ _)) in Hc by done. done.
  - rewrite Z.ltb_ge. intuition lia.
Qed.

Lemma ranked_sorted l : StronglySorted (not_after power_less) l ↔ StronglySorted ranked l.
Proof.
  induction l as [|v l IH]; [by split; constructor|].
  split; intros Hs; inversion Hs as [|?? Hl Hv]; subst; constructor; try (by apply IH);
    (eapply Forall_impl; [exact Hv|]); intros w; by rewrite power_less_ranked.
Qed.

Lemma power_less_total v w :
  power_less v w = false → power_less w v = false → val_ConsensusID v = val_ConsensusID w.
Proof.
  unfold power_less. destruct (Z.eqb_spec (val_VotingPower v) (val_VotingPower w)) as [E|E]; simpl.
  - rewrite (proj2 (Z.eqb_eq _ _) (eq_sym E)). simpl. intros H1 H2. apply arr_eq. by apply bytes_lt_total.
  - rewrite (proj2 (Z.eqb_neq _ _) (not_eq_sym E)). simpl. intros H1 H2. bool_hyps. lia.
Qed.

(** *** Histories *)

Lemma represents_empty {S} `{KVStore S} (s : S) : kv_map s = ∅ → Represents s empty_registry.
Proof.
  intros He. split; simpl; rewrite ?He; try done.
  - constructor.
  - intros id. rewrite elem_of_nil, lookup_empty. split; [done|]. by intros [? ?].
Qed.

(** The store determines the records ... *)
Lemma represents_vals {S} `{KVStore S} (s : S) (r : registry) (m : gmap Address Validator) :
  Represents s r → (∀ id, kv_map s !! validatorKey id = Validator_bytes <$> (m !! id)) →
  (∀ id v, m !! id = Some v → Validator_wf v) → vals r = m.
Proof.
  intros Hr Hm Hwf. apply map_eq. intros id. pose proof (Hm id) as E1. rewrite (rep_val Hr id) in E1.
  destruct (vals r !! id) as [v|] eqn:Ev, (m !! id) as [w|] eqn:Ew; try done.
  injection E1 as E1. f_equal.
  pose proof (Validator_decode_bytes v [] (Validator_ok_wf id v (rep_ok Hr id v Ev))) as D1.
  pose proof (Validator_decode_bytes w [] (Hwf id w Ew)) as D2.
  rewrite E1, D2 in D1. by apply Ok_inj in D1.
Qed.

(** ... and the whole registry it represents. *)
Lemma represents_unique {S} `{KVStore S} (s : S) (r r0 : registry) :
  Represents s r → Represents s r0 → r0 = r.
Proof.
  intros Hr Hr0. assert (vals r0 = vals r) as Ev.
  { apply (represents_vals s); [done|apply (rep_val Hr)|]. intros id v Hv.
    by eapply Validator_ok_wf, (rep_ok Hr). }
  assert (order r0 = order r) as Eo.
  { pose proof (rep_count Hr0) as E1. rewrite (rep_count Hr) in E1. apply Ok_inj in E1.
    apply list_eq_same_length with (length (order r)); [done|lia|].
    intros i x y Hi Hx Hy. pose proof (rep_seq Hr0 i x Hx) as E2. rewrite (rep_seq Hr i y Hy) in E2.
    injection E2 as E2. by apply arr_eq. }
  destruct r0, r; simpl in *; congruence.
Qed.

(** A sequence of calls, successful or not, on the store and on the registry. *)
Fixpoint run_calls {S} `{KVStore S} (l : list reg_call) (s : S) : S :=
  match l with [] => s | c :: l' => run_calls l' (run_call c s).1 end.

Definition spec_or_same (c : reg_call) (r : registry) : registry :=
  match spec_call c r with Ok r' => r' | _ => r end.

Fixpoint spec_calls (l : list reg_call) (r : registry) : registry :=
  match l with [] => r | c :: l' => spec_calls l' (spec_or_same c r) end.

Fixpoint calls_ok (l : list reg_call) (r : registry) : Prop :=
  match l with [] => True | c :: l' => call_ok c r ∧ calls_ok l' (spec_or_same c r) end.

Lemma run_calls_refines {S} `{StakingStore S} (l : list reg_call) (s : S) (r : registry) :
  Represents s r → calls_ok l r →
  Represents (run_calls l s) (spec_calls l r) ∧ same_accounts s (run_calls l s).
Proof.
  revert s r. induction l as [|c l IH]; intros s r Hr; [done|]. intros [Hc Hl]. simpl.
  pose proof (run_call_refines s r c Hr Hc) as Href. unfold spec_or_same in *.
  destruct (spec_call c r) as [r1|e|]; [|by rewrite Href; apply IH|done].
  destruct Href as (s1 & Hrun & Hr1 & Ha). rewrite Hrun. simpl.
  destruct (IH s1 r1 Hr1 Hl) as [HR HA]. split; [done|]. by etrans.
Qed.

(** One call, successful or not. *)
Definition reg_step {S} `{KVStore S} (s s' : S) : Prop :=
  ∃ c r, Represents s r ∧ call_ok c r ∧ (run_call c s).1 = s'.

(** What a call may do to a validator that is already registered. *)
Definition evolves (v v' : Validator) : Prop :=
  rtc (λ a b, IsValidTransition a b = true) (val_Status v) (val_Status v') ∧
  val_ConsensusID v' = val_ConsensusID v ∧ val_PublicKey v' = val_PublicKey v ∧
  val_OperatorAddress v' = val_OperatorAddress v ∧ val_BondedStake v' = val_BondedStake v.

#[global] Instance evolves_preorder : PreOrder evolves.
Proof.
  split; [by split|]. intros v1 v2 v3 (T1 & A1 & B1 & C1 & D1) (T2 & A2 & B2 & C2 & D2).
  split; [by etrans|]. by rewrite A2, B2, C2, D2.
Qed.

Lemma with_validator_evolves id r from e f r' :
  with_validator id r from e f = Ok r' →
  (∀ v, val_Status v = from → evolves v (f v)) →
  ∀ x v, vals r !! x = Some v → ∃ v', vals r' !! x = Some v' ∧ evolves v v'.
Proof.
  unfold with_validator. intros Hw Hf x v Hx. destruct (vals r !! id) as [w|] eqn:Hid; [|done].
  destruct (Z.eqb_spec (val_Status w) from) as [Hs|]; [|done]. injection Hw as <-. simpl.
  rewrite lookup_insert. case_decide; [|by exists v]. subst.
  rewrite Hid in Hx. injection Hx as ->. exists (f v). split; [done|]. by apply Hf.
Qed.

Lemma spec_call_evolves c r r' :
  spec_call c r = Ok r' →
  ∀ x v, vals r !! x = Some v → ∃ v', vals r' !! x = Some v' ∧ evolves v v'.
Proof.
  destruct c as [pk op stake rate epoch|id e|id e|id|id e|id]; cbn [spec_call]; intros Hs x v Hx.
  1:{ case_bool_decide as Hn; [done|]. case_match; [done|].
      destruct (NewValidator _ _ _ _ _ _) as [w|?|]; [|done|done]. injection Hs as <-. simpl.
      exists v. rewrite lookup_insert_ne by (intros <-; apply Hn; by eexists). by split. }
  all: eapply with_validator_evolves; [exact Hs| |exact Hx].
  all: intros w Hw; split; [|done]; apply rtc_once; simpl; by rewrite Hw.
Qed.

(** ** Properties *)

(** C8: every registry operation (registration, activation, jailing,
    unjailing, start of unstaking, removal) implements its specification on the
    abstract registry: it succeeds exactly when the specification does, leaves a
    store that represents the specified registry (records, indexes, counter and
    total of bonded stake) and touches no account; otherwise it returns the
    specified error and the state is unchanged. *)
Theorem registry_refines {S} `{StakingStore S} (s : S) (r : registry) (c : reg_call) :
  Represents s r → call_ok c r →
  match spec_call c r with
  | Ok r' => ∃ s', run_call c s = (s', Ok tt) ∧ Represents s' r' ∧ same_accounts s s'
  | Err e => run_call c s = (s, Err e)
  | Panic => False
  end.
Proof. apply run_call_refines. Qed.

(** C9: across any history of registry calls, successful or not, the store
    keeps representing a registry; no validator disappears, its identity,
    operator and stake stay, and its status only ever moves along the table
    of allowed transitions (so a removed validator stays removed). *)
Theorem registry_history {S} `{StakingStore S} (s s' : S) (r : registry) :
  Represents s r → rtc reg_step s s' →
  ∃ r', Represents s' r' ∧
    ∀ id v, vals r !! id = Some v → ∃ v', vals r' !! id = Some v' ∧ evolves v v'.
Proof.
  intros Hr Hsteps. revert r Hr.
  induction Hsteps as [s|s s1 s2 (c & r0 & Hr0 & Hc & <-) _ IH]; intros r Hr.
  { exists r. split; [done|]. intros id v Hv. by exists v. }
  assert (r0 = r) as -> by (by eapply represents_unique).
  pose proof (run_call_refines s r c Hr Hc) as Href. destruct (spec_call c r) as [r1|e|] eqn:Hspec.
  - destruct Href as (s1 & Hrun & Hr1 & _). rewrite Hrun in IH. destruct (IH r1 Hr1) as (r' & Hr' & Hev).
    exists r'. split; [done|]. intros id v Hv.
    destruct (spec_call_evolves c r r1 Hspec id v Hv) as (v1 & Hv1 & Hev1).
    destruct (Hev id v1 Hv1) as (v' & Hv' & Hev'). exists v'. split; [done|]. by etrans.
  - rewrite Href in IH. by apply IH.
  - done.
Qed.

(** The active set. [GetActiveValidators] returns every active validator
    exactly once and nothing else, each with voting power equal to its bonded
    stake modulo 2^64, in the order of voting power (descending) and consensus
    id (ascending); this order is total, so any other sorted list of the same
    validators is this one, whatever sorting algorithm the library uses. *)
Theorem active_set_exact {S} `{StakingStore S} (s : S) (r : registry) :
  Represents s r →
  ∃ l, GetActiveValidators s = (s, Ok l) ∧ NoDup l ∧
    (∀ v, v ∈ l ↔ ∃ id, vals r !! id = Some v ∧ val_Status v = ValidatorActive) ∧
    (∀ v, v ∈ l → val_VotingPower v = u64 (val_BondedStake v)) ∧
    StronglySorted ranked l ∧
    (∀ l', l' ≡ₚ l → StronglySorted ranked l' → l' = l).
Proof.
  intros Hr. eexists. split; [by apply GetActiveValidators_spec|].
  assert (∀ v, v ∈ sort_slice power_less (active_of r (order r)) ↔
            ∃ id, vals r !! id = Some v ∧ val_Status v = ValidatorActive) as Hin.
  { intros v. rewrite sort_slice_perm. by apply (active_of_spec s). }
  split; [rewrite sort_slice_perm; by apply (active_of_NoDup s)|]. split; [done|]. split.
  { intros v Hv. apply Hin in Hv as (id & Hv & Hs). destruct (rep_ok Hr id v Hv) as [_ ->]. by rewrite Hs. }
  split; [apply ranked_sorted, sort_slice_sorted, _|]. intros l' Hp Hs%ranked_sorted.
  symmetry. apply (sort_slice_unique power_less); [|apply sort_slice_sorted, _|done|done].
  intros x y Hx Hy H1' H2'. rewrite sort_slice_perm in Hx, Hy.
  apply (active_of_id s r); [done..|]. by apply power_less_total.
Qed.

(** Two registered validators, the first of them active. *)
Definition sample_key (n : Z) : arr 32 := arr_copy 32 (be 32 n).
Definition sample_id (n : Z) : Address := DeriveConsensusID (sample_key n).
Definition sample_calls : list reg_call :=
  [CRegister (sample_key 1) (addr_of 1) 150000 500 0;
   CRegister (sample_key 2) (addr_of 2) 200000 0 0;
   CActivate (sample_id 1) 1].
Definition sample_registry : registry := spec_calls sample_calls empty_registry.
Definition sample_store : InMemoryState := run_calls sample_calls NewInMemoryState.

Lemma sample_store_represents : Represents sample_store sample_registry.
Proof.
  apply (run_calls_refines sample_calls NewInMemoryState empty_registry).
  - by apply represents_empty.
  - vm_compute. repeat split; discriminate.
Qed.

Lemma registry_refines_witness :
  match spec_call (CJail (sample_id 1) 5) sample_registry with
  | Ok r' => ∃ s', run_call (CJail (sample_id 1) 5) sample_store = (s', Ok tt)
                   ∧ Represents s' r' ∧ same_accounts sample_store s'
  | Err e => run_call (CJail (sample_id 1) 5) sample_store = (sample_store, Err e)
  | Panic => False
  end.
Proof. apply registry_refines; [exact sample_store_represents|done]. Defined.

Lemma registry_history_witness :
  ∃ r', Represents (run_call (CJail (sample_id 1) 5) sample_store).1 r'.
Proof.
  destruct (registry_history sample_store (run_call (CJail (sample_id 1) 5) sample_store).1
    sample_registry) as (r' & Hr' & _); [exact sample_store_represents| |by exists r'].
  apply rtc_once. exists (CJail (sample_id 1) 5), sample_registry.
  split; [exact sample_store_represents|]. done.
Defined.

Lemma active_set_exact_witness :
  ∃ l, GetActiveValidators sample_store = (sample_store, Ok l) ∧ length l = 1%nat.
Proof.
  destruct (active_set_exact sample_store sample_registry) as (l & Hl & _);
    [exact sample_store_represents|]. exists l. split; [exact Hl|].
  transitivity (match (GetActiveValidators sample_store).2 with Ok k => length k | _ => 0%nat end);
    [by rewrite Hl|vm_compute; reflexivity].
Defined.
