(* ===== verification/Staking.v ===== *)
(** * Bonding, slashing and fee rewards (staking/staking.go, staking/slashing.go,
      the epoch counter of staking/epoch.go)

    Operations that move stake: [Bond], [Slash], [ReleaseStake] and [ApplySlash]
    on the registry of Registry.v, and [DistributeRewards], which credits the
    active validators with their shares of the fees. *)

From S2P Require Import Prelude Codec Sha256 Address Amount Tx Votes Block Smt Store Keys State Applier.
From S2P Require Import Validator Registry.

(** ** Proportional shares

    The loop that [DistributeRewards] and [DistributeValidatorRewards] share:
    rounded-down portions in 64-bit arithmetic, the remainder to the first
    entry. *)

Definition portion (amount totalPower power : Z) : Z := u64 (amount * power) / totalPower.

Definition distributed (amount totalPower : Z) (powers : list Z) : Z :=
  fold_left (λ acc p, u64 (acc + portion amount totalPower p)) powers 0.

Definition reward_list (amount totalPower : Z) (powers : list Z) : list Z :=
  let rewards := portion amount totalPower <$> powers in
  let remainder := u64 (amount - distributed amount totalPower powers) in
  match rewards with
  | [] => []
  | r0 :: rest => if 0 <? remainder then u64 (r0 + remainder) :: rest else rewards
  end.

Section staking.
Context {S : Type} `{KVStore S, AccountStore S}.

(** ** staking.go *)

Definition Bond (from consensusID : Address) (amount : Amount) : go S Amount :=
  acc ← wrap "sender account" (GetAccount from);
  a ← deref acc;
  guard_err (Amount_lt (acc_Balance a) amount) (Errorf "insufficient balance");;
  v ← GetValidator consensusID;
  guard_err (negb (val_Status v =? ValidatorPending) && negb (val_Status v =? ValidatorActive))
    (Errorf "validator cannot accept stake in status");;
  acc ← mutate acc (SubBalance amount);
  SetAccount from acc;;
  newStake ← lift (Amount_Add (val_BondedStake v) amount);
  let v := set_BondedStake newStake v in
  total ← TotalBonded;
  newTotal ← lift (Amount_Add total amount);
  setTotalBonded newTotal;;
  UpdateValidator v;;
  mret (val_BondedStake v).

Definition Slash (consensusID : Address) (amount : Amount) : go S Amount :=
  v ← GetValidator consensusID;
  let slashed := if negb (Amount_lt (val_BondedStake v) amount) then amount else val_BondedStake v in
  newStake ← lift (Amount_Sub (val_BondedStake v) slashed);
  let v := set_BondedStake newStake v in
  total ← TotalBonded;
  newTotal ← lift (Amount_Sub total slashed);
  setTotalBonded newTotal;;
  UpdateValidator v;;
  mret slashed.

Definition ReleaseStake (consensusID : Address) : go S unit :=
  v ← GetValidator consensusID;
  guard_err (negb (val_Status v =? ValidatorUnstaking)) (Wrapf "validator" ErrValidatorNotUnstaking);;
  acc ← wrap "validator account not found" (GetAccount (val_OperatorAddress v));
  acc ← mutate acc (AddBalance (val_BondedStake v));
  SetAccount (val_OperatorAddress v) acc;;
  RemoveValidator consensusID.

Definition NewValidatorAccount (addr : Address) : Account := NewAccount addr (arr_zero 32).

Definition amountFraction (amount : Amount) (numerator denominator : Z) : Amount :=
  NewAmount (u64 (stakeToUint64 amount * numerator) / denominator).

Definition validatorShareToUint64 (amount : Amount) : Z := stakeToUint64 amount.

(** [totalPower += v.VotingPower] *)
Definition sum_power (l : list Validator) : Z :=
  fold_left (λ acc v, u64 (acc + val_VotingPower v)) l 0.

(** One turn of the crediting loop. *)
Definition pay_reward (x : Address * Z) : go S unit :=
  if x.2 =? 0 then mret tt else credit x.1 (NewAmount x.2).

Definition DistributeRewards (totalFees : Amount) : go S (Amount * Amount * Amount) :=
  let validatorShare := amountFraction totalFees 70 100 in
  let burnShare := amountFraction totalFees 20 100 in
  let treasuryShare := amountFraction totalFees 10 100 in
  if Amount_IsZero totalFees then mret (NewAmount 0, NewAmount 0, NewAmount 0) else
  active ← GetActiveValidators;
  if bool_decide (length active = 0%nat) || Amount_IsZero validatorShare
  then mret (validatorShare, burnShare, treasuryShare) else
  let totalPower := sum_power active in
  if totalPower =? 0 then mret (validatorShare, burnShare, treasuryShare) else
  let vp := validatorShareToUint64 validatorShare in
  let rewards := reward_list vp totalPower (val_VotingPower <$> active) in
  for_each (zip (val_OperatorAddress <$> active) rewards) pay_reward;;
  mret (validatorShare, burnShare, treasuryShare).

(** ** The epoch counter (epoch.go) *)

Definition CurrentEpoch : go S Z :=
  val ← GetBytes keyCurrentEpoch;
  match val with None => mret 0 | Some b => lift (Uint64 b) end.

Definition setCurrentEpoch (epoch : Z) : go S unit := SetBytes keyCurrentEpoch (be 8 epoch).

(** ** slashing.go *)

Definition SlashDoublePrevote : Z := 1.
Definition SlashDoublePrecommit : Z := 2.
Definition SlashInvalidCommit : Z := 3.

Record SlashParams := mkSlashParams {
  PercentDoublePrevote : Z;
  PercentDoublePrecommit : Z;
  PercentInvalidCommit : Z;
  JailEpochs : Z;
}.

Definition DefaultSlashParams : SlashParams := mkSlashParams 500 1000 2000 10.

Definition SetSlashParams (p : SlashParams) : go S unit :=
  SetBytes keySlashParams (be 8 (PercentDoublePrevote p) ++ be 8 (PercentDoublePrecommit p)
                           ++ be 8 (PercentInvalidCommit p) ++ be 8 (JailEpochs p)).

Definition GetSlashParams : go S SlashParams :=
  val ← GetBytes keySlashParams;
  match val with
  | None => mret DefaultSlashParams
  | Some b =>
      if bool_decide (length b < 32)%nat then mret DefaultSlashParams else
      mret (mkSlashParams (unbe (take 8 b)) (unbe (take 8 (drop 8 b)))
              (unbe (take 8 (drop 16 b))) (unbe (take 8 (drop 24 b))))
  end.

Definition OffenseFromEvidence (ev : Evidence) : res Z :=
  match ev with
  | DoubleSignEvidence voteA _ =>
      if v_VoteType voteA =? VotePrevote then Ok SlashDoublePrevote
      else if v_VoteType voteA =? VotePrecommit then Ok SlashDoublePrecommit
      else Err (Errorf "unsupported vote type in double sign")
  | InvalidCommitEvidence _ _ => Ok SlashInvalidCommit
  | MalformedVoteEvidence _ _ => Err (Errorf "malformed vote evidence is not slashable")
  end.

Definition amountToUint64 (amt : Amount) : Z :=
  let data := Amount_MarshalBinary amt in
  if bool_decide (length data = 0%nat) then 0 else
  let data := if bool_decide (8 < length data)%nat then drop (length data - 8) data else data in
  fold_left (λ val b, Z.lor (u64 (Z.shiftl val 8)) (b2z b)) data 0.

Definition SlashAmount (slashPercent : Z) (stake : Amount) : res Amount :=
  if 10000 <? slashPercent then Err (Errorf "slash percent exceeds max 10000") else
  Ok (NewAmount (u64 (amountToUint64 stake * slashPercent) / 10000)).

Definition ApplySlash (consensusID : Address) (slashPercent jailEpochs : Z) : go S unit :=
  v ← GetValidator consensusID;
  guard_err (val_Status v =? ValidatorRemoved) (Errorf "cannot slash removed validator");;
  slashAmount ← lift (SlashAmount slashPercent (val_BondedStake v));
  if Amount_IsZero slashAmount then mret tt else
  newStake ← wrap "slash underflow" (lift (Amount_Sub (val_BondedStake v) slashAmount));
  let v := set_BondedStake newStake v in
  total ← TotalBonded;
  newTotal ← wrap "update total bonded" (lift (Amount_Sub total slashAmount));
  setTotalBonded newTotal;;
  v ← (if val_Status v =? ValidatorActive then
         currentEpoch ← CurrentEpoch;
         v ← wrap "jail validator" (lift (transitionTo ValidatorJailed v));
         mret (set_VotingPower 0 (set_JailedUntil (u64 (currentEpoch + jailEpochs)) v))
       else mret v);
  UpdateValidator v.

Definition SlashValidator (consensusID : Address) (ev : Evidence) : go S unit :=
  offense ← lift (OffenseFromEvidence ev);
  params ← GetSlashParams;
  slashPercent ← (if offense =? SlashDoublePrevote then mret (PercentDoublePrevote params)
                  else if offense =? SlashDoublePrecommit then mret (PercentDoublePrecommit params)
                  else if offense =? SlashInvalidCommit then mret (PercentInvalidCommit params)
                  else throw (Errorf "unknown slash offense"));
  ApplySlash consensusID slashPercent (JailEpochs params).
End staking.

(** ** Lemmas *)

(** All tokens: what the accounts hold and what is bonded. *)
Definition supply {S} `{KVStore S, AccountStore S} (s : S) (r : registry) : Z :=
  total_balance s + total_stake r.

(** *** Shares *)

(** The rounded-down shares never add up to more than the amount. *)
Lemma floor_sum_le amount total powers :
  0 <= amount → 0 < total → Forall (Z.le 0) powers →
  zsum ((λ p, amount * p / total) <$> powers) * total <= amount * zsum powers.
Proof.
  intros Ha Ht Hp. induction Hp as [|p l Hp Hl IH]; [simpl; lia|].
  rewrite fmap_cons. cbn [zsum length].
  pose proof (Z.mul_div_le (amount * p) total Ht).
  rewrite Z.mul_add_distr_r, Z.mul_add_distr_l. lia.
Qed.

(** ... and at most one unit per validator is lost. *)
Lemma floor_sum_ge amount total powers :
  0 <= amount → 0 < total → Forall (Z.le 0) powers →
  amount * zsum powers <= zsum ((λ p, amount * p / total) <$> powers) * total
                          + Z.of_nat (length powers) * (total - 1).
Proof.
  intros Ha Ht Hp. induction Hp as [|p l Hp Hl IH]; [simpl; lia|].
  rewrite fmap_cons. cbn [zsum length].
  pose proof (Z.mod_pos_bound (amount * p) total Ht) as Hm. rewrite Z.mod_eq in Hm by lia.
  rewrite Nat2Z.inj_succ, Z.mul_add_distr_r, Z.mul_add_distr_l. lia.
Qed.

Section shares.
Context (amount total : Z) (powers : list Z).
Hypothesis (Hamount : is_u64 amount) (Htotal : total = zsum powers) (Hpos : 0 < total).
Hypothesis (Hpowers : Forall (Z.le 0) powers) (Hsmall : amount * total < 2 ^ 64).

Lemma portion_exact p : p ∈ powers → portion amount total p = amount * p / total.
Proof.
  intros Hp. unfold portion. rewrite u64_small; [done|]. rewrite Forall_forall in Hpowers.
  pose proof (Hpowers p Hp). pose proof (zsum_elem_le p powers) as Hle.
  rewrite Forall_forall in Hle. specialize (Hle Hpowers Hp). unfold is_u64 in *. nia.
Qed.

Lemma portions_exact :
  portion amount total <$> powers = (λ p, amount * p / total) <$> powers.
Proof. apply list_fmap_ext. intros i p Hp. apply portion_exact. by eapply list_elem_of_lookup_2. Qed.

Lemma portions_nonneg : Forall (Z.le 0) ((λ p, amount * p / total) <$> powers).
Proof.
  apply Forall_fmap. eapply Forall_impl; [exact Hpowers|]. intros p Hp. simpl.
  apply Z.div_pos; [|done]. unfold is_u64 in *. nia.
Qed.

Lemma portions_le : zsum ((λ p, amount * p / total) <$> powers) <= amount.
Proof.
  pose proof (floor_sum_le amount total powers ltac:(apply Hamount) Hpos Hpowers). nia.
Qed.

Lemma distributed_exact :
  distributed amount total powers = zsum ((λ p, amount * p / total) <$> powers).
Proof.
  pose proof portions_nonneg as Hnn. pose proof portions_le as Hle.
  unfold distributed. rewrite <- portions_exact in *.
  change (zsum (portion amount total <$> powers)) with (0 + zsum (portion amount total <$> powers)).
  assert (∀ l acc, 0 <= acc → Forall (Z.le 0) (portion amount total <$> l) →
    acc + zsum (portion amount total <$> l) <= amount →
    fold_left (λ acc p, u64 (acc + portion amount total p)) l acc
    = acc + zsum (portion amount total <$> l)) as Haux.
  { induction l as [|p l IH]; intros acc Ha Hl Hs; [simpl; lia|].
    rewrite fmap_cons in *. cbn [zsum fold_left] in *.
    apply Forall_cons in Hl as [Hp Hl]. pose proof (zsum_nonneg _ Hl).
    unfold is_u64 in Hamount. rewrite u64_small by (unfold is_u64; lia). rewrite IH; [lia|lia|done|lia]. }
  apply Haux; [done|done|lia].
Qed.

(** The rewards add up to the amount; every validator but the first receives
    its rounded-down share, the first also the remainder, which is less than
    one unit per validator. *)
Lemma reward_list_spec :
  ∃ p0 rest rem, powers = p0 :: rest ∧ 0 <= rem < Z.of_nat (length powers) ∧
    reward_list amount total powers
    = (amount * p0 / total + rem) :: ((λ p, amount * p / total) <$> rest) ∧
    zsum (reward_list amount total powers) = amount ∧
    Forall (Z.le 0) (reward_list amount total powers).
Proof.
  unfold reward_list. rewrite distributed_exact, portions_exact.
  pose proof portions_nonneg as Hnn. pose proof portions_le as Hle.
  pose proof (floor_sum_ge amount total powers ltac:(apply Hamount) Hpos Hpowers) as Hge.
  destruct powers as [|p0 rest]; [simpl in *; lia|].
  set (sum := zsum ((λ p, amount * p / total) <$> p0 :: rest)) in *. exists p0, rest, (amount - sum).
  assert (0 <= sum) by (by apply zsum_nonneg).
  assert (amount - sum < Z.of_nat (length (p0 :: rest))) as Hlt.
  { rewrite <- Htotal in Hge. apply Z.nle_gt. intros Hn.
    apply (Z.mul_le_mono_nonneg_r _ _ total) in Hn; [|lia].
    cbn [length] in *. lia. }
  split; [done|]. split; [lia|].
  rewrite u64_small by (unfold is_u64 in *; lia). cbn [fmap list_fmap] in *.
  apply Forall_cons in Hnn as [Hp0 Hrest]. pose proof (zsum_nonneg _ Hrest) as Hr0.
  assert (sum = amount * p0 / total + zsum ((λ p, amount * p / total) <$> rest)) as Esum by done.
  destruct (Z.ltb_spec 0 (amount - sum)) as [Hrem|Hrem].
  - rewrite u64_small by (unfold is_u64 in *; lia). split; [done|]. cbn [zsum]. split; [lia|].
    constructor; [lia|done].
  - replace (amount * p0 / total + (amount - sum)) with (amount * p0 / total) by lia.
    split; [done|]. cbn [zsum]. split; [lia|]. by constructor.
Qed.
End shares.

Section stake_lemmas.
Context {S : Type} `{StakingStore S}.
Implicit Types (s : S) (r : registry) (id : Address) (v : Validator).

(** Whether a store represents a registry depends on its entries only. *)
Lemma represents_kv s s' r : kv_map s' = kv_map s → Represents s r → Represents s' r.
Proof. intros E []. split; rewrite ?E; auto; intros *; rewrite E; auto. Qed.

(** A new stake for a validator that stays bonded, with the total adjusted. *)
Lemma represents_restake s s' r id v v' :
  let t := total_stake r - val_BondedStake v + val_BondedStake v' in
  Represents s r → vals r !! id = Some v → val_Status v ≠ ValidatorRemoved →
  val_Status v' ≠ ValidatorRemoved → Validator_ok id v' →
  val_PublicKey v' = val_PublicKey v → val_OperatorAddress v' = val_OperatorAddress v →
  amount_ok t →
  kv_map s' = <[validatorKey id := Validator_bytes v']>
                (<[keyTotalBonded := Amount_MarshalBinary t]> (kv_map s)) →
  Represents s' (upd id v' r) ∧ total_stake (upd id v' r) = t.
Proof.
  intros t Hr Hv Hs Hs' Hok Hpk Hop Ht Hkv.
  assert (live_stake v = val_BondedStake v) as Hl
    by (unfold live_stake; by rewrite (proj2 (Z.eqb_neq _ _) Hs)).
  assert (live_stake v' = val_BondedStake v') as Hl'
    by (unfold live_stake; by rewrite (proj2 (Z.eqb_neq _ _) Hs')).
  split; [|unfold total_stake; simpl; rewrite (map_zsum_insert_Some _ _ _ v) by done; by rewrite Hl, Hl'].
  apply (represents_update s _ r id v v'); try done; rewrite ?Hl, ?Hl'; fold t; rewrite ?Hkv; kv_simpl; try done.
  - by apply Amount_unmarshal_marshal.
  - intros k Hk1 Hk2 _ _. by rewrite !lookup_insert_ne.
  - rewrite (proj2 (Z.eqb_neq _ _) Hs'). by apply (rep_pub Hr).
  - rewrite (proj2 (Z.eqb_neq _ _) Hs'). by apply (rep_op Hr).
Qed.

Lemma stake_nonneg s r id v : Represents s r → vals r !! id = Some v → amount_ok (val_BondedStake v).
Proof. intros Hr Hv. by destruct (rep_ok Hr id v Hv) as [[] _]. Qed.

Lemma bonded_le_total s r id v :
  Represents s r → vals r !! id = Some v → val_Status v ≠ ValidatorRemoved →
  val_BondedStake v <= total_stake r.
Proof.
  intros Hr Hv Hs. pose proof (live_stake_le s r id v Hr Hv) as Hl. unfold live_stake in Hl.
  by rewrite (proj2 (Z.eqb_neq _ _) Hs) in Hl.
Qed.

(** *** Bond *)

Definition bondable v : Prop := val_Status v = ValidatorPending ∨ val_Status v = ValidatorActive.

#[global] Instance bondable_dec v : Decision (bondable v).
Proof. unfold bondable. apply _. Defined.

(** The record after bonding. *)
Definition bonded (amount : Amount) v : Validator :=
  with_power (set_BondedStake (val_BondedStake v + amount) v).

(** When bonding is possible. *)
Definition can_bond s r (from id : Address) (amount : Amount) : Prop :=
  (∃ acc, acc_map s !! from = Some acc ∧ amount <= acc_Balance acc) ∧
  (∃ v, vals r !! id = Some v ∧ bondable v).

Lemma Bond_cases s r from id amount :
  Represents s r → balances_ok s → 0 <= amount → supply s r < 2 ^ 128 →
  (∃ e, Bond from id amount s = (s, Err e) ∧
     ¬ can_bond s r from id amount) ∨
  (∃ acc v s', acc_map s !! from = Some acc ∧ amount <= acc_Balance acc ∧
     vals r !! id = Some v ∧ bondable v ∧
     Bond from id amount s = (s', Ok (val_BondedStake v + amount)) ∧
     acc_map s' = <[from := set_balance acc (acc_Balance acc - amount)]> (acc_map s) ∧
     Represents s' (upd id (bonded amount v) r) ∧
     total_stake (upd id (bonded amount v) r) = total_stake r + amount).
Proof.
  intros Hr Hs Ham Hsup. unfold Bond, can_bond. destruct (acc_map s !! from) as [acc|] eqn:Ha.
  2:{ left. unfold wrap, mbind, go_bind. rewrite GetAccount_none by done. eexists. split; [done|].
      intros [(? & ? & _) _]. congruence. }
  rewrite (go_bind_ok _ _ s s _ (wrap_ok _ _ _ _ _ (GetAccount_some s _ acc Ha))).
  rewrite (go_bind_ok _ _ s s acc) by (by apply deref_spec).
  rewrite Amount_lt_spec. destruct (Z.ltb_spec (acc_Balance acc) amount) as [Hlt|Hle].
  { left. eexists. split; [done|]. intros [(? & [= <-] & ?) _]. lia. }
  rewrite (go_bind_ok _ _ s s tt) by done.
  pose proof (GetValidator_spec s r id Hr) as Hget. destruct (vals r !! id) as [v|] eqn:Hv.
  2:{ left. rewrite (go_bind_err _ _ _ _ _ Hget). eexists. split; [done|]. by intros [_ (? & ? & _)]. }
  rewrite (go_bind_ok _ _ _ _ _ Hget).
  destruct (decide (bondable v)) as [Hb|Hb].
  2:{ left. rewrite !(proj2 (Z.eqb_neq _ _)) by (intros E; apply Hb; unfold bondable; tauto).
      eexists. split; [done|]. intros [_ (? & [= <-] & ?)]. done. }
  right. exists acc, v. assert (negb (val_Status v =? ValidatorPending) &&
    negb (val_Status v =? ValidatorActive) = false) as -> by (by destruct Hb as [-> | ->]).
  rewrite (go_bind_ok _ _ s s tt) by done.
  rewrite (go_bind_ok _ _ _ _ _ (mutate_stored_ok _ _ _ _ _ Ha (SubBalance_ok _ _ Hle))).
  rewrite (go_bind_ok _ _ _ _ _ (SetAccount_stored _ _)). set (s1 := acc_put from _ s).
  assert (val_Status v ≠ ValidatorRemoved) as Hnr by (by destruct Hb as [-> | ->]).
  pose proof (stake_nonneg s r id v Hr Hv) as Hst. pose proof (bonded_le_total s r id v Hr Hv Hnr) as Hbt.
  assert (acc_Balance acc <= total_balance s) as Hbal.
  { pose proof (balance_le_total s from Hs) as Hx. unfold balance_at, account_at in Hx. by rewrite Ha in Hx. }
  unfold supply in Hsup. pose proof (rep_total_ok Hr) as Htok.
  assert (amount_ok amount) as Ham' by (unfold amount_ok, is_u128 in *; lia).
  rewrite Amount_Add_ok by (done || unfold amount_ok, is_u128 in *; lia).
  rewrite (go_bind_ok _ _ _ _ (val_BondedStake v + amount)) by done.
  rewrite (go_bind_ok _ _ s1 s1 (total_stake r))
    by (rewrite TotalBonded_spec; unfold s1; store; by rewrite (rep_total Hr)).
  rewrite Amount_Add_ok by (done || unfold amount_ok, is_u128 in *; lia).
  rewrite (go_bind_ok _ _ _ _ (total_stake r + amount)) by done.
  rewrite (go_bind_ok _ _ _ _ tt) by done.
  assert (Validator_core id (set_BondedStake (val_BondedStake v + amount) v)) as Hcore.
  { apply core_set_BondedStake; [unfold amount_ok, is_u128 in *; lia|]. by destruct (rep_ok Hr id v Hv). }
  rewrite (go_bind_ok _ _ _ _ tt) by (by apply UpdateValidator_spec).
  eexists. do 4 (split; [done|]). split; [reflexivity|]. unfold s1. store. split; [done|].
  replace (total_stake r + amount) with
    (total_stake r - val_BondedStake v + val_BondedStake (bonded amount v)) by (simpl; lia).
  apply (represents_restake s _ r id v); try done.
  - by apply with_power_ok.
  - simpl. unfold amount_ok, is_u128 in *. lia.
  - by store.
Qed.

(** *** ReleaseStake *)

Lemma total_stake_removed r id v :
  vals r !! id = Some v → val_Status v ≠ ValidatorRemoved →
  total_stake (upd id (move ValidatorRemoved v) r) = total_stake r - val_BondedStake v.
Proof.
  intros Hv Hs. unfold total_stake; simpl. rewrite (map_zsum_insert_Some _ _ _ v) by done.
  unfold live_stake at 2 3. simpl. rewrite (proj2 (Z.eqb_neq _ _) Hs). lia.
Qed.

(** When stake can be released. *)
Definition can_release s r id : Prop :=
  ∃ v, vals r !! id = Some v ∧ val_Status v = ValidatorUnstaking ∧
       is_Some (acc_map s !! val_OperatorAddress v).

Lemma ReleaseStake_cases s r id :
  Represents s r → balances_ok s → supply s r < 2 ^ 128 →
  (∃ e, ReleaseStake id s = (s, Err e) ∧
     ¬ can_release s r id) ∨
  (∃ v acc s', vals r !! id = Some v ∧ val_Status v = ValidatorUnstaking ∧
     acc_map s !! val_OperatorAddress v = Some acc ∧ ReleaseStake id s = (s', Ok tt) ∧
     acc_map s' = <[val_OperatorAddress v := set_balance acc (acc_Balance acc + val_BondedStake v)]> (acc_map s) ∧
     Represents s' (upd id (move ValidatorRemoved v) r)).
Proof.
  intros Hr Hs Hsup. unfold ReleaseStake, can_release.
  pose proof (GetValidator_spec s r id Hr) as Hget. destruct (vals r !! id) as [v|] eqn:Hv.
  2:{ left. rewrite (go_bind_err _ _ _ _ _ Hget). eexists. split; [done|]. by intros (? & ? & _). }
  rewrite (go_bind_ok _ _ _ _ _ Hget).
  destruct (Z.eqb_spec (val_Status v) ValidatorUnstaking) as [Hst|Hst].
  2:{ left. eexists. split; [done|]. by intros (? & [= <-] & ? & _). }
  rewrite (go_bind_ok _ _ s s tt) by done.
  destruct (acc_map s !! val_OperatorAddress v) as [acc|] eqn:Ha.
  2:{ left. rewrite (go_bind_err _ _ s s (Wrapf "validator account not found" (Errorf "account not found")))
        by (unfold wrap; by rewrite GetAccount_none).
      eexists. split; [done|]. intros (? & [= <-] & _ & [? ?]). congruence. }
  right. exists v, acc.
  assert (val_Status v ≠ ValidatorRemoved) as Hnr by (by rewrite Hst).
  pose proof (bonded_le_total s r id v Hr Hv Hnr) as Hbt. pose proof (stake_nonneg s r id v Hr Hv) as Hst'.
  assert (acc_Balance acc <= total_balance s) as Hbal.
  { pose proof (balance_le_total s (val_OperatorAddress v) Hs) as Hx.
    unfold balance_at, account_at in Hx. by rewrite Ha in Hx. }
  pose proof (Hs _ _ Ha) as Hacc. unfold supply in Hsup.
  assert (AddBalance (val_BondedStake v) acc
          = Ok (set_balance acc (acc_Balance acc + val_BondedStake v))) as Hadd
    by (apply AddBalance_ok; [done..|lia]).
  rewrite (go_bind_ok _ _ s s _ (wrap_ok _ _ _ _ _ (GetAccount_some s _ acc Ha))).
  rewrite (go_bind_ok _ _ _ _ _ (mutate_stored_ok _ _ _ _ _ Ha Hadd)).
  rewrite (go_bind_ok _ _ _ _ _ (SetAccount_stored _ _)). set (s1 := acc_put _ _ s).
  assert (Represents s1 r) as Hr1 by (apply (represents_kv s); [unfold s1; by store|done]).
  pose proof (RemoveValidator_refines s1 r id Hr1) as Hrem.
  unfold spec_call, with_validator in Hrem. rewrite Hv, Hst in Hrem.
  destruct Hrem as (s' & Hrun & Hr' & Hsame). exists s'. do 3 (split; [done|]). split; [done|].
  split; [|done]. rewrite Hsame. unfold s1. by store.
Qed.

(** *** ApplySlash *)

Lemma amountToUint64_spec a : 0 <= a → amountToUint64 a = u64 a.
Proof. apply stakeToUint64_spec. Qed.

Lemma CurrentEpoch_spec s : CurrentEpoch s = (s, count_value (kv_map s !! keyCurrentEpoch)).
Proof.
  unfold CurrentEpoch, mbind, go_bind, GetBytes, gets. by destruct (kv_map s !! keyCurrentEpoch).
Qed.

(** The share that is slashed. *)
Definition slash_share (percent : Z) v : Amount := val_BondedStake v * percent / 10000.

(** The record of a slashed validator: an active one is also jailed. *)
Definition slashed (percent until : Z) v : Validator :=
  let v1 := set_BondedStake (val_BondedStake v - slash_share percent v) v in
  if val_Status v =? ValidatorActive then set_JailedUntil until (move ValidatorJailed v1) else v1.

Lemma slash_share_range percent v :
  0 <= val_BondedStake v → 0 <= percent <= 10000 →
  0 <= slash_share percent v <= val_BondedStake v.
Proof.
  intros Hv Hp. unfold slash_share. split; [apply Z.div_pos; nia|].
  apply Z.div_le_upper_bound; nia.
Qed.

Lemma SlashAmount_share percent v :
  amount_ok (val_BondedStake v) → 0 <= percent <= 10000 → val_BondedStake v * 10000 < 2 ^ 64 →
  SlashAmount percent (val_BondedStake v) = Ok (slash_share percent v).
Proof.
  intros Ha Hp Hsm. pose proof Ha as [Hst0 Hst1]. unfold SlashAmount. rewrite (proj2 (Z.ltb_ge _ _)) by lia.
  rewrite amountToUint64_spec by done. rewrite !u64_small; [done|unfold is_u64; lia|].
  rewrite u64_small by (unfold is_u64; lia). unfold is_u64. nia.
Qed.

(** A share that rounds to nothing ends the operation before the status is
    looked at: the validator is not even jailed. *)
Lemma ApplySlash_nothing s r id v percent jail :
  Represents s r → vals r !! id = Some v → val_Status v ≠ ValidatorRemoved →
  0 <= percent <= 10000 → val_BondedStake v * 10000 < 2 ^ 64 → slash_share percent v = 0 →
  ApplySlash id percent jail s = (s, Ok tt).
Proof.
  intros Hr Hv Hnr Hp Hsm Hz. unfold ApplySlash.
  pose proof (GetValidator_spec s r id Hr) as Hget. rewrite Hv in Hget.
  rewrite (go_bind_ok _ _ _ _ _ Hget), (proj2 (Z.eqb_neq _ _) Hnr).
  rewrite (go_bind_ok _ _ s s tt) by done.
  rewrite (SlashAmount_share percent v (stake_nonneg s r id v Hr Hv) Hp Hsm).
  rewrite (go_bind_ok _ _ s s (slash_share percent v)) by done. by rewrite Hz.
Qed.

Lemma ApplySlash_ok s r id v percent jail epoch :
  Represents s r → vals r !! id = Some v → val_Status v ≠ ValidatorRemoved →
  0 <= percent <= 10000 → val_BondedStake v * 10000 < 2 ^ 64 → 0 < slash_share percent v →
  count_value (kv_map s !! keyCurrentEpoch) = Ok epoch →
  ∃ s', ApplySlash id percent jail s = (s', Ok tt) ∧ same_accounts s s' ∧
    Represents s' (upd id (slashed percent (u64 (epoch + jail)) v) r) ∧
    total_stake (upd id (slashed percent (u64 (epoch + jail)) v) r)
    = total_stake r - slash_share percent v.
Proof.
  intros Hr Hv Hnr Hp Hsm Hpos Hep. unfold ApplySlash.
  pose proof (GetValidator_spec s r id Hr) as Hget. rewrite Hv in Hget.
  rewrite (go_bind_ok _ _ _ _ _ Hget), (proj2 (Z.eqb_neq _ _) Hnr).
  rewrite (go_bind_ok _ _ s s tt) by done.
  pose proof (stake_nonneg s r id v Hr Hv) as Hst. pose proof Hst as [Hst0 Hst1].
  pose proof (slash_share_range percent v Hst0 Hp) as Hsh.
  pose proof (bonded_le_total s r id v Hr Hv Hnr) as Hbt. pose proof (rep_total_ok Hr) as Htok.
  rewrite (SlashAmount_share percent v Hst Hp Hsm).
  rewrite (go_bind_ok _ _ s s (slash_share percent v)) by done.
  unfold Amount_IsZero. rewrite (proj2 (Z.eqb_neq _ _)) by lia.
  rewrite Amount_Sub_ok by lia.
  rewrite (go_bind_ok _ _ s s (val_BondedStake v - slash_share percent v)) by done.
  rewrite (go_bind_ok _ _ s s (total_stake r)) by (by rewrite TotalBonded_spec, (rep_total Hr)).
  rewrite Amount_Sub_ok by lia.
  rewrite (go_bind_ok _ _ s s (total_stake r - slash_share percent v)) by done.
  rewrite (go_bind_ok _ _ _ _ tt) by done.
  set (s1 := kv_put keyTotalBonded _ s). set (v1 := set_BondedStake _ v).
  destruct (rep_ok Hr id v Hv) as [Hc Hpow].
  assert (Validator_core id v1) as Hc1.
  { apply core_set_BondedStake; [|done]. unfold amount_ok, is_u128 in *. lia. }
  assert (∃ w, (if val_Status v1 =? ValidatorActive then
      currentEpoch ← CurrentEpoch;
      v ← wrap "jail validator" (lift (transitionTo ValidatorJailed v1));
      mret (set_VotingPower 0 (set_JailedUntil (u64 (currentEpoch + jail)) v))
    else mret v1) s1 = (s1, Ok w) ∧ Validator_core id w ∧
    with_power w = slashed percent (u64 (epoch + jail)) v) as (w & Hw & Hwc & Hwp).
  { unfold slashed. fold v1. change (val_Status v1) with (val_Status v).
    destruct (Z.eqb_spec (val_Status v) ValidatorActive) as [Ha|Ha].
    - exists (set_VotingPower 0 (set_JailedUntil (u64 (epoch + jail)) (set_Status ValidatorJailed v1))).
      split; [|split].
      + rewrite (go_bind_ok _ _ s1 s1 epoch)
          by (rewrite CurrentEpoch_spec; unfold s1; store; kv_simpl; by rewrite Hep).
        by rewrite (transitionTo_ok ValidatorActive) by done.
      + apply core_set_VotingPower, core_set_JailedUntil, core_set_Status; [|by split|done].
        apply fits_u64, u64_is_u64.
      + by rewrite with_power_inactive.
    - exists v1. split; [done|]. split; [done|]. unfold with_power.
      change (val_Status v1) with (val_Status v). rewrite (proj2 (Z.eqb_neq _ _) Ha).
      rewrite ?(proj2 (Z.eqb_neq _ _) Ha) in Hpow. unfold v1. destruct v; simpl in *. by subst. }
  rewrite (go_bind_ok _ _ _ _ _ Hw), (UpdateValidator_spec s1 id w Hwc), Hwp.
  eexists. split; [done|]. split; [unfold same_accounts, s1; by store|].
  assert (val_BondedStake (slashed percent (u64 (epoch + jail)) v)
          = val_BondedStake v - slash_share percent v) as Hbs
    by (unfold slashed; by destruct (val_Status v =? ValidatorActive)).
  replace (total_stake r - slash_share percent v) with
    (total_stake r - val_BondedStake v + val_BondedStake (slashed percent (u64 (epoch + jail)) v)) by lia.
  apply (represents_restake s _ r id v); try done; rewrite ?Hbs;
    try (unfold slashed; by destruct (val_Status v =? ValidatorActive)).
  - rewrite <- Hwp. by apply with_power_ok.
  - unfold amount_ok, is_u128 in *. lia.
  - unfold s1. store. repeat f_equal. lia.
Qed.

(** *** Rewards *)

Lemma sum_power_spec (l : list Validator) acc :
  0 <= acc → Forall (λ v, 0 <= val_VotingPower v) l → acc + zsum (val_VotingPower <$> l) < 2 ^ 64 →
  fold_left (λ acc v, u64 (acc + val_VotingPower v)) l acc = acc + zsum (val_VotingPower <$> l).
Proof.
  intros Ha Hl. revert acc Ha. induction Hl as [|v l Hv Hl IH]; intros acc Ha Hlt; [simpl; lia|].
  rewrite fmap_cons in *. cbn [zsum fold_left] in *.
  assert (0 <= zsum (val_VotingPower <$> l)) by (apply zsum_nonneg, Forall_fmap; exact Hl).
  rewrite u64_small by (unfold is_u64; lia). rewrite IH; lia.
Qed.

(** One account is credited with every reward that names it. *)
Definition rewards_of (a : Address) (l : list (Address * Z)) : Z :=
  zsum ((λ x, if decide (x.1 = a) then x.2 else 0) <$> l).

Lemma pay_reward_ok x s :
  balances_ok s → 0 <= x.2 → total_balance s + x.2 < 2 ^ 128 →
  ∃ s', pay_reward x s = (s', Ok tt) ∧ kv_map s' = kv_map s ∧ balances_ok s' ∧
    total_balance s' = total_balance s + x.2 ∧
    ∀ a, balance_at s' a = balance_at s a + (if decide (x.1 = a) then x.2 else 0).
Proof.
  intros Hs Hx Hb. unfold pay_reward. destruct (Z.eqb_spec x.2 0) as [E|E].
  { exists s. rewrite E, Z.add_0_r. split_and!; [done..|]. intros a. case_decide; lia. }
  pose proof (balances_ok_at s x.1 Hs) as Hat. pose proof (balance_le_total s x.1 Hs) as Hle.
  unfold NewAmount. rewrite credit_spec, AddBalance_ok; [|done|unfold amount_ok, is_u128 in *..].
  2:{ pose proof (total_balance_nonneg s Hs). lia. }
  2:{ unfold balance_at in *. lia. }
  eexists. split; [done|]. store. split; [done|]. fold (balance_at s x.1). split; [|split].
  - apply balances_ok_put; [done|]. simpl. unfold amount_ok, is_u128 in *. lia.
  - balances. simpl. lia.
  - intros a. rewrite balance_at_put. case_decide; subst; simpl; lia.
Qed.

Lemma pay_all (body : Address * Z → go S unit) l s :
  (∀ x s s', pay_reward x s = (s', Ok tt) → body x s = (s', Ok tt)) →
  balances_ok s → Forall (Z.le 0) l.*2 → total_balance s + zsum l.*2 < 2 ^ 128 →
  ∃ s', for_each l body s = (s', Ok tt) ∧ kv_map s' = kv_map s ∧ balances_ok s' ∧
    total_balance s' = total_balance s + zsum l.*2 ∧
    ∀ a, balance_at s' a = balance_at s a + rewards_of a l.
Proof.
  intros Hbody. revert s. induction l as [|x l IH]; intros s Hs Hl Hb.
  { exists s. cbn [fmap list_fmap zsum]. rewrite Z.add_0_r. split_and!; [done..|]. intros a. unfold rewards_of. simpl. lia. }
  rewrite fmap_cons in *. cbn [zsum for_each] in *.
  apply Forall_cons in Hl as [Hx Hl]. pose proof (zsum_nonneg _ Hl).
  destruct (pay_reward_ok x s Hs Hx ltac:(lia)) as (s1 & Hrun & Hkv & Hs1 & Ht1 & Hb1).
  destruct (IH s1 Hs1 Hl ltac:(lia)) as (s2 & Hrun2 & Hkv2 & Hs2 & Ht2 & Hb2).
  exists s2. rewrite (go_bind_ok _ _ _ _ _ (Hbody _ _ _ Hrun)). split; [done|].
  split; [congruence|]. split; [done|]. split; [lia|].
  intros a. rewrite Hb2, Hb1. unfold rewards_of. rewrite fmap_cons. cbn [zsum]. lia.
Qed.

Lemma amountFraction_small fees p :
  0 <= fees → 0 <= p → fees * p < 2 ^ 64 → fees < 2 ^ 64 → amountFraction fees p 100 = fees * p / 100.
Proof.
  intros. unfold amountFraction, NewAmount. rewrite stakeToUint64_spec by done.
  rewrite (u64_small fees) by (by split). by rewrite u64_small by (unfold is_u64; nia).
Qed.

Lemma reward_list_length amount total powers :
  length (reward_list amount total powers) = length powers.
Proof. unfold reward_list. destruct powers; simpl; [done|]. case_match; simpl; by rewrite length_fmap. Qed.

(** *** Records too short to be validators *)

Lemma ReadFull_consumes n inp rest bs :
  ReadFull n inp = (rest, Ok bs) → length inp = (n + length rest)%nat.
Proof.
  unfold ReadFull. case_decide as Hn; [intros [= <- _]; rewrite length_drop; lia|]. by destruct inp.
Qed.

Lemma Validator_Decode_length inp rest v :
  Validator_Decode inp = (rest, Ok v) → (143 <= length inp)%nat.
Proof.
  unfold Validator_Decode, read_arr, read_uint. intros Hd. run_inv.
  repeat match goal with H : ReadFull _ _ = _ |- _ => apply ReadFull_consumes in H end. lia.
Qed.

Lemma registration_record_length tx m epoch :
  length (reg_PubKey m) = 32%nat → amount_ok (reg_Stake m) →
  length (registration_record tx m epoch) = 79%nat.
Proof.
  intros Hk Hst. unfold registration_record, Amount_MarshalBinary, NewAmount.
  apply fits_u128 in Hst. pose proof (length_big_bytes_le 16 _ Hst).
  rewrite !length_app, length_replicate, !length_be, arr_length, Hk. cbn [length]. lia.
Qed.
End stake_lemmas.

(** ** Properties *)

(** Bonding conserves tokens. [Bond] succeeds exactly when the sender holds
    the amount and the validator is pending or active; the sender's balance goes
    down and the validator's stake and the total go up by exactly the amount (the
    voting power is recomputed), so accounts plus bonded stake is unchanged; every
    failure leaves the state untouched. *)
Theorem bond_conserves_supply {S} `{StakingStore S} (s : S) (r : registry) (from id : Address) (amount : Amount) :
  Represents s r → balances_ok s → 0 <= amount → supply s r < 2 ^ 128 →
  (can_bond s r from id amount ∧
   ∃ v s', vals r !! id = Some v ∧
     Bond from id amount s = (s', Ok (val_BondedStake v + amount)) ∧
     Represents s' (upd id (bonded amount v) r) ∧
     balance_at s' from = balance_at s from - amount ∧
     supply s' (upd id (bonded amount v) r) = supply s r) ∨
  (¬ can_bond s r from id amount ∧ ∃ e, Bond from id amount s = (s, Err e)).
Proof.
  intros Hr Hs Ham Hsup. destruct (Bond_cases s r from id amount Hr Hs Ham Hsup)
    as [(e & He & Hn)|(acc & v & s' & Ha & Hle & Hv & Hb & Hrun & Hacc & Hr' & Ht)].
  - right. split; [done|]. by exists e.
  - left. split; [split; eauto|]. exists v, s'. do 3 (split; [done|]).
    assert (balance_at s from = acc_Balance acc) as Hbal by (unfold balance_at, account_at; by rewrite Ha).
    split; [unfold balance_at at 1, account_at; by rewrite Hacc, lookup_insert_eq, Hbal|].
    unfold supply. rewrite Ht.
    assert (total_balance s' = total_balance (acc_put from (set_balance acc (acc_Balance acc - amount)) s)) as ->
      by (unfold total_balance; by rewrite Hacc, acc_map_put).
    balances. rewrite Hbal. simpl. lia.
Qed.

(** Releasing stake conserves tokens. [ReleaseStake] succeeds exactly when
    the validator is unstaking and its operator account exists; the whole bonded
    stake goes to that account, the validator is removed and no longer counts in
    the total; every failure leaves the state untouched. *)
Theorem release_conserves_supply {S} `{StakingStore S} (s : S) (r : registry) (id : Address) :
  Represents s r → balances_ok s → supply s r < 2 ^ 128 →
  (can_release s r id ∧
   ∃ v s', vals r !! id = Some v ∧ ReleaseStake id s = (s', Ok tt) ∧
     Represents s' (upd id (move ValidatorRemoved v) r) ∧
     balance_at s' (val_OperatorAddress v) = balance_at s (val_OperatorAddress v) + val_BondedStake v ∧
     supply s' (upd id (move ValidatorRemoved v) r) = supply s r) ∨
  (¬ can_release s r id ∧ ∃ e, ReleaseStake id s = (s, Err e)).
Proof.
  intros Hr Hs Hsup. destruct (ReleaseStake_cases s r id Hr Hs Hsup)
    as [(e & He & Hn)|(v & acc & s' & Hv & Hst & Ha & Hrun & Hacc & Hr')].
  - right. split; [done|]. by exists e.
  - left. split; [by exists v; eauto|]. exists v, s'. do 3 (split; [done|]).
    assert (balance_at s (val_OperatorAddress v) = acc_Balance acc) as Hbal
      by (unfold balance_at, account_at; by rewrite Ha).
    split; [unfold balance_at at 1, account_at; by rewrite Hacc, lookup_insert_eq, Hbal|].
    unfold supply. rewrite (total_stake_removed r id v Hv) by (by rewrite Hst).
    assert (total_balance s' = total_balance (acc_put (val_OperatorAddress v)
      (set_balance acc (acc_Balance acc + val_BondedStake v)) s)) as ->
      by (unfold total_balance; by rewrite Hacc, acc_map_put).
    balances. rewrite Hbal. simpl. lia.
Qed.

(** Slashing takes exactly the rounded-down percentage. For a validator
    that is not removed (and whose stake times 10000 fits 64 bits), [ApplySlash]
    lowers its bonded stake and the total of bonded stake by
    floor(stake * percent / 10000), never below zero; an active validator is
    jailed until the current epoch plus the jail term and loses its voting
    power, any other keeps its status; no account changes. *)
Theorem slash_exact {S} `{StakingStore S} (s : S) (r : registry) (id : Address) (v : Validator)
    (percent jail epoch : Z) :
  Represents s r → vals r !! id = Some v → val_Status v ≠ ValidatorRemoved →
  0 <= percent <= 10000 → val_BondedStake v * 10000 < 2 ^ 64 → 0 < slash_share percent v →
  CurrentEpoch s = (s, Ok epoch) →
  ∃ s' v', ApplySlash id percent jail s = (s', Ok tt) ∧ same_accounts s s' ∧
    Represents s' (upd id v' r) ∧
    val_BondedStake v' = val_BondedStake v - val_BondedStake v * percent / 10000 ∧
    0 <= val_BondedStake v' ∧
    total_stake (upd id v' r) = total_stake r - val_BondedStake v * percent / 10000 ∧
    (val_Status v = ValidatorActive →
       val_Status v' = ValidatorJailed ∧ val_VotingPower v' = 0 ∧ val_JailedUntil v' = u64 (epoch + jail)) ∧
    (val_Status v ≠ ValidatorActive → val_Status v' = val_Status v).
Proof.
  intros Hr Hv Hnr Hp Hsm Hpos Hep. rewrite CurrentEpoch_spec in Hep. injection Hep as Hep.
  destruct (ApplySlash_ok s r id v percent jail epoch Hr Hv Hnr Hp Hsm Hpos Hep) as (s' & Hrun & Ha & Hr' & Ht).
  exists s', (slashed percent (u64 (epoch + jail)) v). do 3 (split; [done|]).
  pose proof (stake_nonneg s r id v Hr Hv) as [Hst0 _].
  pose proof (slash_share_range percent v Hst0 Hp) as Hsh.
  assert (val_BondedStake (slashed percent (u64 (epoch + jail)) v)
          = val_BondedStake v - slash_share percent v) as Hbs
    by (unfold slashed; by destruct (val_Status v =? ValidatorActive)).
  split; [done|]. split; [rewrite Hbs; lia|]. split; [done|]. unfold slashed. split.
  - intros ->. done.
  - intros Hna. by rewrite (proj2 (Z.eqb_neq _ _) Hna).
Qed.

(** Fee rewards are paid out exactly. Of the fees of a block, the 70%
    validator share is credited in full to the operators of the active
    validators: each receives its rounded-down share by voting power, the first
    (most powerful) also the remainder, which is less than one unit per
    validator. The burn and treasury shares are only reported: no account is
    credited with them. (The products must fit 64 bits.) *)
Theorem fee_rewards_exact {S} `{StakingStore S} (s : S) (fees : Amount) (active : list Validator) :
  let powers := val_VotingPower <$> active in
  let total := zsum powers in
  let share := fees * 70 / 100 in
  balances_ok s → GetActiveValidators s = (s, Ok active) →
  Forall (λ v, 0 <= val_VotingPower v) active → 0 < total < 2 ^ 64 →
  0 < share → fees * 70 < 2 ^ 64 → share * total < 2 ^ 64 → total_balance s + share < 2 ^ 128 →
  ∃ s' rewards, DistributeRewards fees s = (s', Ok (share, fees * 20 / 100, fees * 10 / 100)) ∧
    zsum rewards = share ∧
    (∃ p0 rest rem, powers = p0 :: rest ∧ 0 <= rem < Z.of_nat (length active) ∧
       rewards = (share * p0 / total + rem) :: ((λ p, share * p / total) <$> rest)) ∧
    (∀ a, balance_at s' a = balance_at s a + rewards_of a (zip (val_OperatorAddress <$> active) rewards)) ∧
    total_balance s' = total_balance s + share ∧ kv_map s' = kv_map s.
Proof.
  intros powers total share Hs Hact Hpow Htot Hshare Hf70 Hprod Hsup.
  assert (0 <= fees) as Hf0.
  { destruct (Z.le_gt_cases 0 fees) as [|Hneg]; [done|]. exfalso.
    assert (share <= 0) by (apply Z.div_le_upper_bound; lia). lia. }
  assert (Forall (Z.le 0) powers) as Hpow' by (by apply Forall_fmap).
  assert (is_u64 share) as Hsh.
  { split; [lia|]. apply Z.div_lt_upper_bound; lia. }
  destruct (reward_list_spec share total powers Hsh eq_refl ltac:(lia) Hpow' Hprod)
    as (p0 & rest & rem & Hp & Hrem & Hlist & Hsum & Hnn).
  set (rewards := reward_list share total powers) in *.
  assert ((zip (val_OperatorAddress <$> active) rewards).*2 = rewards) as Hzip.
  { apply snd_zip. unfold rewards. rewrite reward_list_length. unfold powers. by rewrite !length_fmap. }
  destruct (pay_all pay_reward (zip (val_OperatorAddress <$> active) rewards) s ltac:(done) Hs)
    as (s' & Hrun & Hkv & _ & Ht & Hb); rewrite ?Hzip, ?Hsum; [done|done|].
  rewrite Hzip, Hsum in Ht. exists s', rewards. split.
  - unfold DistributeRewards. rewrite !amountFraction_small by lia. fold share.
    unfold Amount_IsZero. rewrite (proj2 (Z.eqb_neq fees 0)) by (intros ->; done).
    rewrite (go_bind_ok _ _ _ _ _ Hact).
    rewrite (bool_decide_false (length active = 0%nat)) by (intros ->%nil_length_inv; done).
    rewrite (proj2 (Z.eqb_neq share 0)) by lia. cbn [orb].
    assert (sum_power active = total) as ->.
    { unfold sum_power. rewrite sum_power_spec; [done..|]. fold powers. fold total. lia. }
    rewrite (proj2 (Z.eqb_neq total 0)) by lia.
    unfold validatorShareToUint64. rewrite stakeToUint64_spec, u64_small by (done || lia).
    fold powers. fold rewards. by rewrite (go_bind_ok _ _ _ _ _ Hrun).
  - split; [done|]. split; [|by split_and!]. exists p0, rest, rem.
    rewrite Hp in Hrem. unfold powers in Hp. rewrite <- Hp, length_fmap in Hrem. done.
Qed.

(** A validator registered by a transaction never reaches the registry.
    The record that [ApplyTransaction] writes has 79 bytes instead of 143, so
    [GetValidator] fails on it for the consensus id that was just registered. *)
Theorem registered_by_tx_not_decodable {S} `{StakingStore S} `{Ed25519} (now height : Z)
    (tx : Transaction) (s s' : S) (h : Hash) (m : ValidatorRegistrationMsg) :
  tx_TxType tx = TxTypeValidatorRegistration → ValidatorRegistration tx = Ok (Some m) →
  ApplyTransaction now tx height s = (s', Ok h) →
  ∀ v, (GetValidator (DeriveConsensusIDFromBytes (reg_PubKey m)) s').2 ≠ Ok v.
Proof.
  intros Ht Hm Hrun v.
  destruct (ApplyTransaction_cases now tx height s) as [(rr & Hr & Hn & _)|(acc & Ha & Hr)];
    rewrite Hr in Hrun; [injection Hrun as -> ->; by edestruct Hn|].
  go_step Hrun. rewrite apply_payload_registration in Hrun0 by done. destruct a.
  apply (apply_registration_inv _ _ _ _ acc (adm_sender _ _ _ _ Ha)) in Hrun0
    as (m' & epoch & count & Hm' & _ & _ & _ & _ & _ & _ & ->).
  assert (m' = m) as -> by (rewrite Hm in Hm'; by injection Hm').
  destruct (ValidatorRegistration_wf _ _ Hm) as [Hk Hst].
  pose proof (registration_record_length tx m epoch Hk (is_u64_amount _ Hst)) as Hlen.
  set (s1 := kv_put keyTotalBonded _ _) in Hrun.
  assert (kv_map s' = kv_map s1) as Hkv.
  { unfold settle in Hrun. run_inv. pose proof (frame_mutate (Stored (tx_Sender tx)) (SubBalance (tx_MaxFee tx)) s1) as F1.
    rewrite Hrun0 in F1. pose proof (frame_mutate a IncrementNonce s0) as F2. rewrite Hrun1 in F2.
    pose proof (frame_SetAccount (tx_Sender tx) a0 s2) as F3. rewrite Hrun2 in F3.
    unfold same_kv in *. simpl in *. congruence. }
  unfold GetValidator, mbind, go_bind, GetBytes, gets. rewrite Hkv. unfold s1. store. kv_simpl.
  unfold lift, run_reader. cbn [snd].
  destruct (Validator_Decode (registration_record tx m epoch)) as [rest [w|e|]] eqn:Hd; [|done|done].
  apply Validator_Decode_length in Hd. rewrite Hlen in Hd. lia.
Qed.

(** Slashing a removed validator with [Slash] corrupts the total. [Slash]
    does not look at the status: for a removed validator, whose stake is no longer
    part of the total, it still subtracts the slashed amount from the total, and
    the store no longer represents any registry. *)
Theorem slash_removed_breaks_total {S} `{StakingStore S} (s : S) (r : registry) (id : Address)
    (v : Validator) (amount : Amount) :
  Represents s r → vals r !! id = Some v → val_Status v = ValidatorRemoved →
  0 < amount <= val_BondedStake v → amount <= total_stake r →
  ∃ s', Slash id amount s = (s', Ok amount) ∧ ∀ r', ¬ Represents s' r'.
Proof.
  intros Hr Hv Hst Ham Htot. pose proof (GetValidator_spec s r id Hr) as Hget. rewrite Hv in Hget.
  pose proof (rep_ok Hr id v Hv) as [Hc _]. pose proof (rep_total_ok Hr) as Htok.
  assert (Validator_core id (set_BondedStake (val_BondedStake v - amount) v)) as Hc1.
  { apply core_set_BondedStake; [|done]. destruct (core_stake _ _ Hc). unfold amount_ok, is_u128. lia. }
  set (v1 := set_BondedStake (val_BondedStake v - amount) v) in *.
  unfold Slash. rewrite (go_bind_ok _ _ _ _ _ Hget), Amount_lt_spec, (proj2 (Z.ltb_ge _ _)) by lia.
  cbn [negb]. rewrite Amount_Sub_ok by lia.
  rewrite (go_bind_ok _ _ s s (val_BondedStake v - amount)) by done.
  rewrite (go_bind_ok _ _ s s (total_stake r)) by (by rewrite TotalBonded_spec, (rep_total Hr)).
  rewrite Amount_Sub_ok by done. rewrite (go_bind_ok _ _ s s (total_stake r - amount)) by done.
  rewrite (go_bind_ok _ _ _ _ tt) by done.
  rewrite (go_bind_ok _ _ _ _ tt) by (by apply UpdateValidator_spec).
  eexists. split; [reflexivity|]. intros r' Hr'.
  assert (vals r' = <[id := with_power v1]> (vals r)) as Hvals.
  { eapply represents_vals; [exact Hr'| |].
    - intros x. store. destruct (decide (id = x)) as [<-|Hx]; [by kv_simpl|].
      kv_simpl. rewrite (lookup_insert_ne (vals r)) by done. apply (rep_val Hr).
    - intros x w. rewrite lookup_insert. case_decide; [intros [= <-]|by intros Hw; eapply Validator_ok_wf, (rep_ok Hr)].
      by eapply Validator_ok_wf, with_power_ok. }
  pose proof (rep_total Hr') as Ht. revert Ht. store. kv_simpl. unfold total_value.
  rewrite Amount_unmarshal_marshal by (unfold amount_ok, is_u128 in *; lia).
  intros Ht%Ok_inj. unfold total_stake in Ht at 2. rewrite Hvals in Ht.
  rewrite (map_zsum_insert_Some _ _ _ v) in Ht by done. fold (total_stake r) in Ht.
  unfold live_stake in Ht. cbn [v1 with_power set_VotingPower set_BondedStake val_Status] in Ht.
  rewrite Hst in Ht. simpl in Ht. lia.
Qed.

(** ** Examples *)

(** The store of two validators with funded operators. *)
Definition fund (s : InMemoryState) : InMemoryState :=
  acc_put (addr_of 2) (acct (addr_of 2) 900) (acc_put (addr_of 1) (acct (addr_of 1) 500) s).
Definition funded_store : InMemoryState := fund sample_store.

Definition unstaking_calls : list reg_call := sample_calls ++ [CStartUnstake (sample_id 1) 3].
Definition unstaking_registry : registry := spec_calls unstaking_calls empty_registry.
Definition unstaking_store : InMemoryState := fund (run_calls unstaking_calls NewInMemoryState).

Lemma fund_represents s r : Represents s r → Represents (fund s) r.
Proof. apply represents_kv. unfold fund. by store. Qed.

Lemma fund_balances s : acc_map s = ∅ → balances_ok (fund s).
Proof.
  intros E. unfold fund. do 2 (apply balances_ok_put; [|done]). intros a acc. by rewrite E.
Qed.

Lemma funded_represents : Represents funded_store sample_registry.
Proof. apply fund_represents, sample_store_represents. Qed.

Lemma unstaking_represents : Represents unstaking_store unstaking_registry.
Proof.
  apply fund_represents, (run_calls_refines unstaking_calls NewInMemoryState empty_registry).
  - by apply represents_empty.
  - vm_compute. repeat split; discriminate.
Qed.

Lemma funded_balances : balances_ok funded_store.
Proof.
  apply fund_balances. unfold sample_store.
  destruct (run_calls_refines sample_calls NewInMemoryState empty_registry) as [_ Ha].
  - by apply represents_empty.
  - vm_compute. repeat split; discriminate.
  - by rewrite Ha.
Qed.

Lemma unstaking_balances : balances_ok unstaking_store.
Proof.
  apply fund_balances. destruct (run_calls_refines unstaking_calls NewInMemoryState empty_registry) as [_ Ha].
  - by apply represents_empty.
  - vm_compute. repeat split; discriminate.
  - by rewrite Ha.
Qed.

Lemma sample_v1 :
  ∃ v, vals sample_registry !! sample_id 1 = Some v ∧ val_Status v = ValidatorActive ∧
       val_BondedStake v = 150000.
Proof.
  assert ((λ v, (val_Status v, val_BondedStake v)) <$> (vals sample_registry !! sample_id 1)
          = Some (1, 150000)) as E by (vm_compute; reflexivity).
  destruct (vals sample_registry !! sample_id 1) as [v|]; [|discriminate E].
  exists v. injection E as E1 E2. by rewrite E1, E2.
Qed.

Lemma bond_conserves_supply_witness :
  (can_bond funded_store sample_registry (addr_of 1) (sample_id 1) 200 ∧
   ∃ v s', vals sample_registry !! sample_id 1 = Some v ∧
     Bond (addr_of 1) (sample_id 1) 200 funded_store = (s', Ok (val_BondedStake v + 200)) ∧
     Represents s' (upd (sample_id 1) (bonded 200 v) sample_registry) ∧
     balance_at s' (addr_of 1) = balance_at funded_store (addr_of 1) - 200 ∧
     supply s' (upd (sample_id 1) (bonded 200 v) sample_registry) = supply funded_store sample_registry) ∨
  (¬ can_bond funded_store sample_registry (addr_of 1) (sample_id 1) 200 ∧
   ∃ e, Bond (addr_of 1) (sample_id 1) 200 funded_store = (funded_store, Err e)).
Proof.
  apply bond_conserves_supply; [exact funded_represents|exact funded_balances|done|].
  vm_compute. reflexivity.
Defined.

Lemma release_conserves_supply_witness :
  (can_release unstaking_store unstaking_registry (sample_id 1) ∧
   ∃ v s', vals unstaking_registry !! sample_id 1 = Some v ∧
     ReleaseStake (sample_id 1) unstaking_store = (s', Ok tt) ∧
     Represents s' (upd (sample_id 1) (move ValidatorRemoved v) unstaking_registry) ∧
     balance_at s' (val_OperatorAddress v)
     = balance_at unstaking_store (val_OperatorAddress v) + val_BondedStake v ∧
     supply s' (upd (sample_id 1) (move ValidatorRemoved v) unstaking_registry)
     = supply unstaking_store unstaking_registry) ∨
  (¬ can_release unstaking_store unstaking_registry (sample_id 1) ∧
   ∃ e, ReleaseStake (sample_id 1) unstaking_store = (unstaking_store, Err e)).
Proof.
  apply release_conserves_supply; [exact unstaking_represents|exact unstaking_balances|].
  vm_compute. reflexivity.
Defined.

Lemma slash_exact_witness :
  ∃ s', ApplySlash (sample_id 1) 500 10 sample_store = (s', Ok tt) ∧ same_accounts sample_store s'.
Proof.
  destruct sample_v1 as (v & Hv & Hst & Hb).
  destruct (slash_exact sample_store sample_registry (sample_id 1) v 500 10 0)
    as (s' & v' & Hrun & Hacc & _).
  - exact sample_store_represents.
  - exact Hv.
  - rewrite Hst. discriminate.
  - lia.
  - rewrite Hb. lia.
  - unfold slash_share. rewrite Hb. reflexivity.
  - rewrite CurrentEpoch_spec. apply f_equal. vm_compute. reflexivity.
  - exists s'. split; [exact Hrun|exact Hacc].
Defined.

Lemma fee_rewards_exact_witness :
  ∃ s', (DistributeRewards 1000 funded_store).1 = s' ∧ total_balance s' = 2100.
Proof.
  destruct (fee_rewards_exact funded_store 1000
    (sort_slice power_less (active_of sample_registry (order sample_registry))))
    as (s' & rewards & Hrun & _ & _ & _ & Ht & _).
  - exact funded_balances.
  - apply GetActiveValidators_spec. exact funded_represents.
  - apply (bool_decide_unpack _). vm_compute. exact I.
  - vm_compute. split; reflexivity.
  - reflexivity.
  - reflexivity.
  - vm_compute. reflexivity.
  - vm_compute. reflexivity.
  - exists s'. split; [by rewrite Hrun|]. rewrite Ht. vm_compute. reflexivity.
Defined.

Lemma registered_by_tx_not_decodable_witness :
  let s' := (ApplyTransaction (H1 := echo_ed25519) 101 sample_registration 7 rich_account).1 in
  ∀ v, (GetValidator (DeriveConsensusIDFromBytes (replicate 32 x07)) s').2 ≠ Ok v.
Proof.
  apply (registered_by_tx_not_decodable (H2 := echo_ed25519) 101 7 sample_registration rich_account _ ZeroHash
    {| reg_Address := addr_of 1; reg_PubKey := replicate 32 x07; reg_Stake := 100000; reg_Commission := 500 |}).
  - reflexivity.
  - vm_compute. reflexivity.
  - apply run_outcome. vm_compute. reflexivity.
Defined.

(** The second validator stays pending with 200000 bonded; the first was
    removed. *)
Definition removed_calls : list reg_call := unstaking_calls ++ [CRemove (sample_id 1)].
Definition removed_registry : registry := spec_calls removed_calls empty_registry.
Definition removed_store : InMemoryState := run_calls removed_calls NewInMemoryState.

Lemma slash_removed_breaks_total_witness :
  ∃ s', Slash (sample_id 1) 1000 removed_store = (s', Ok 1000) ∧ ∀ r', ¬ Represents s' r'.
Proof.
  assert ((λ v, (val_Status v, val_BondedStake v)) <$> (vals removed_registry !! sample_id 1)
          = Some (4, 150000)) as E by (vm_compute; reflexivity).
  destruct (vals removed_registry !! sample_id 1) as [v|] eqn:Hv; [|discriminate E].
  injection E as Hst Hb.
  apply (slash_removed_breaks_total removed_store removed_registry (sample_id 1) v 1000).
  - apply (run_calls_refines removed_calls NewInMemoryState empty_registry).
    + by apply represents_empty.
    + vm_compute. repeat split; discriminate.
  - exact Hv.
  - exact Hst.
  - rewrite Hb. lia.
  - vm_compute. discriminate.
Defined.
