(* ===== verification/ValidatorSet.v ===== *)
(** * Validator set snapshots (staking/snapshot.go)

    The frozen validator set of an epoch: its construction from the active set,
    its hash, its binary form in the key-value store and the lookups that
    consensus makes in it. *)

From S2P Require Import Prelude Codec Sha256 Address Amount Tx Votes Block Smt Store Keys State.
From S2P Require Import Validator Registry Applier Staking.

Record ValidatorSnapshot := mkValidatorSnapshot {
  snap_Epoch : Z;
  snap_Validators : list Validator;
  snap_TotalPower : Z;
  snap_SetHash : Hash;
}.

#[global] Instance ValidatorSnapshot_eq_dec : EqDecision ValidatorSnapshot.
Proof. solve_decision. Defined.

(** The runtime index, rebuilt on demand: the last entry of an id wins. *)
Definition buildIndexes (l : list Validator) : gmap Address Validator :=
  fold_left (λ m v, <[val_ConsensusID v := v]> m) l ∅.

(** [v.Encode(&vBuf)]: an error would be ignored, a panic not. *)
Definition encode_all (l : list Validator) : go bytes unit := for_each l Validator_Encode.

Definition computeValidatorSetHash (validators : list Validator) : res Hash :=
  if bool_decide (length validators = 0%nat) then Ok ZeroHash else
  buf ← encode_bytes (encode_all validators);
  Ok (Sum256 buf).

Definition Snapshot_MarshalBinary (s : ValidatorSnapshot) : res bytes :=
  encode_bytes (
    write_uint 8 (snap_Epoch s);;
    write_uint 8 (u64 (Z.of_nat (length (snap_Validators s))));;
    for_each (snap_Validators s) Validator_Encode;;
    write_uint 8 (snap_TotalPower s);;
    Write (snap_SetHash s)).

Definition Snapshot_Unmarshal : go bytes ValidatorSnapshot :=
  epoch ← read_uint 8;
  count ← read_uint 8;
  makeslice 8 count;;
  validators ← repeat_go (Z.to_nat count) (wrap "validator" Validator_Decode);
  totalPower ← read_uint 8;
  setHash ← read_some 32;
  mret {| snap_Epoch := epoch; snap_Validators := validators; snap_TotalPower := totalPower;
          snap_SetHash := arr_copy 32 setHash |}.

Definition Snapshot_UnmarshalBinary (data : bytes) : res ValidatorSnapshot :=
  run_reader Snapshot_Unmarshal data.

(** ** Lookups *)

Definition ValidatorByID (s : ValidatorSnapshot) (consensusID : Address) : res Validator :=
  match buildIndexes (snap_Validators s) !! consensusID with
  | None => Err (Errorf "validator not found in snapshot epoch")
  | Some v => Ok v
  end.

Definition ValidatorByPubKey (s : ValidatorSnapshot) (pubKey : arr 32) : res Validator :=
  match find (λ v, bool_decide (val_PublicKey v = pubKey)) (snap_Validators s) with
  | None => Err (Errorf "validator with pubkey not found in snapshot epoch")
  | Some v => Ok v
  end.

Definition GetValidatorPower (s : ValidatorSnapshot) (consensusID : Address) : res Z :=
  v ← ValidatorByID s consensusID; Ok (val_VotingPower v).

Definition HasValidator (s : ValidatorSnapshot) (consensusID : Address) : bool :=
  bool_decide (is_Some (buildIndexes (snap_Validators s) !! consensusID)).

(** ** Storage *)

Section snapshots.
Context {S : Type} `{KVStore S}.

Definition LatestSnapshotEpoch : go S Z :=
  val ← GetBytes keyLatestEpoch;
  match val with None => mret 0 | Some b => lift (Uint64 b) end.

Definition setLatestSnapshotEpoch (epoch : Z) : go S unit :=
  current ← LatestSnapshotEpoch;
  if epoch <=? current then mret tt else SetBytes keyLatestEpoch (be 8 epoch).

Definition CreateSnapshot (epoch : Z) : go S ValidatorSnapshot :=
  active ← wrap "get active validators" GetActiveValidators;
  let totalPower := sum_power active in
  setHash ← lift (computeValidatorSetHash active);
  let snap := {| snap_Epoch := epoch; snap_Validators := active;
                 snap_TotalPower := totalPower; snap_SetHash := setHash |} in
  data ← wrap "marshal snapshot" (lift (Snapshot_MarshalBinary snap));
  wrap "store snapshot" (SetBytes (snapshotKey epoch) data);;
  wrap "update latest epoch" (setLatestSnapshotEpoch epoch);;
  mret snap.

(** [None] when there is no snapshot (Go returns [nil, nil]). *)
Definition GetSnapshot (epoch : Z) : go S (option ValidatorSnapshot) :=
  data ← GetBytes (snapshotKey epoch);
  match data with
  | None => mret None
  | Some d => snap ← wrap "unmarshal snapshot" (lift (Snapshot_UnmarshalBinary d)); mret (Some snap)
  end.
End snapshots.

(** ** Lemmas *)

Record Snapshot_wf (s : ValidatorSnapshot) : Prop := {
  swf_epoch : fits 8 (snap_Epoch s);
  swf_count : Z.of_nat (length (snap_Validators s)) < 2 ^ 64;
  swf_vals : Forall Validator_wf (snap_Validators s);
  swf_power : fits 8 (snap_TotalPower s);
}.

Definition Snapshot_bytes (s : ValidatorSnapshot) : bytes :=
  be 8 (snap_Epoch s) ++ be 8 (Z.of_nat (length (snap_Validators s)))
  ++ concat (Validator_bytes <$> snap_Validators s) ++ be 8 (snap_TotalPower s) ++ snap_SetHash s.

Lemma encode_all_bytes l :
  Forall Validator_wf l → emits (for_each l Validator_Encode) (concat (Validator_bytes <$> l)).
Proof.
  intros Hl. apply emits_for_each. eapply Forall_impl; [exact Hl|].
  intros v Hv. by apply Validator_emits, Hv.
Qed.

Lemma Snapshot_marshal s : Snapshot_wf s → Snapshot_MarshalBinary s = Ok (Snapshot_bytes s).
Proof.
  intros []. unfold Snapshot_MarshalBinary, encode_bytes, run_writer.
  rewrite u64_small by (unfold is_u64; lia).
  match goal with |- context [?m []] => assert (emits m (Snapshot_bytes s)) as He end.
  { unfold Snapshot_bytes. do 2 (apply emits_bind; [solve [eauto with codec]|]).
    apply emits_bind; [by apply encode_all_bytes|]. emit. }
  by rewrite (He []).
Qed.

(** The pointers to the validators fit into memory. *)
Definition Snapshot_fits (s : ValidatorSnapshot) : Prop :=
  8 * Z.of_nat (length (snap_Validators s)) <= 2 ^ 48.

Lemma Snapshot_unmarshal s :
  Snapshot_wf s → Snapshot_fits s → Snapshot_UnmarshalBinary (Snapshot_bytes s) = Ok s.
Proof.
  intros [He Hc Hv Hp] Hfits. unfold Snapshot_fits in Hfits. destruct s as [epoch vs power hash].
  cbn [snap_Epoch snap_Validators snap_TotalPower snap_SetHash] in *.
  unfold Snapshot_UnmarshalBinary, run_reader.
  assert (parses Snapshot_Unmarshal (Snapshot_bytes (mkValidatorSnapshot epoch vs power hash))
    (mkValidatorSnapshot epoch vs power hash)) as Hpar.
  { unfold Snapshot_Unmarshal, Snapshot_bytes.
    cbn [snap_Epoch snap_Validators snap_TotalPower snap_SetHash].
    eapply parses_bind; [by apply parses_uint|].
    eapply parses_bind; [apply parses_uint; unfold fits; change (256 ^ Z.of_nat 8) with (2 ^ 64); lia|].
    eapply parses_skip; [by apply parses_makeslice|].
    rewrite Nat2Z.id. eapply parses_bind.
    { apply (parses_repeat _ Validator_bytes). eapply Forall_impl; [exact Hv|].
      intros v Hwf. by apply parses_wrap, Validator_parses. }
    eapply parses_bind; [by apply parses_uint|].
    intros rest. unfold read_some, mbind, go_bind.
    destruct (hash ++ rest) as [|b l] eqn:El.
    { apply (f_equal length) in El. rewrite length_app, arr_length in El. done. }
    rewrite <- El. rewrite drop_app_length' by (by rewrite arr_length).
    rewrite take_app_length' by (by rewrite arr_length). by rewrite arr_copy_arr. }
  specialize (Hpar []). rewrite app_nil_r in Hpar. by rewrite Hpar.
Qed.

(** A snapshot that does not fit is never read back: the allocation panics. *)
Lemma Snapshot_unmarshal_fits s :
  Snapshot_wf s → Snapshot_UnmarshalBinary (Snapshot_bytes s) ≠ Panic → Snapshot_fits s.
Proof.
  intros [He Hc _ _] Hr. unfold Snapshot_fits. apply Z.le_ngt. intros Hbig. apply Hr.
  unfold Snapshot_UnmarshalBinary, run_reader, Snapshot_Unmarshal, Snapshot_bytes.
  rewrite (go_bind_ok _ _ _ _ _ (parses_uint 8 _ He _)).
  rewrite (go_bind_ok _ _ _ _ _ (parses_uint 8 (Z.of_nat (length (snap_Validators s)))
    ltac:(unfold fits; change (256 ^ Z.of_nat 8) with (2 ^ 64); lia) _)).
  unfold makeslice. by rewrite (proj2 (Z.ltb_lt _ _) Hbig).
Qed.

(** The count of a snapshot is trusted: a record that announces more
    validators than fit into memory makes the node that reads it panic, whatever
    follows the count. *)
Theorem snapshot_count_panics (epoch count : Z) (rest : bytes) :
  0 <= epoch < 2 ^ 64 → 2 ^ 45 < count < 2 ^ 64 →
  Snapshot_UnmarshalBinary (be 8 epoch ++ be 8 count ++ rest) = Panic.
Proof.
  intros He Hc. unfold Snapshot_UnmarshalBinary, run_reader, Snapshot_Unmarshal.
  rewrite (go_bind_ok _ _ _ _ _ (parses_uint 8 epoch ltac:(unfold fits; cbn; lia) _)).
  rewrite (go_bind_ok _ _ _ _ _ (parses_uint 8 count ltac:(unfold fits; cbn; lia) _)).
  unfold makeslice. by rewrite (proj2 (Z.ltb_lt _ _)) by lia.
Qed.

(** *** The index *)

Lemma buildIndexes_go l (m : gmap Address Validator) id v :
  NoDup (val_ConsensusID <$> l) →
  fold_left (λ m v, <[val_ConsensusID v := v]> m) l m !! id = Some v ↔
  (v ∈ l ∧ val_ConsensusID v = id) ∨ ((id ∉ (val_ConsensusID <$> l)) ∧ (m !! id = Some v)).
Proof.
  revert m. induction l as [|w l IH]; intros m Hnd; cbn [fold_left].
  - rewrite elem_of_nil. split; [|by intros [[[] _]|[_ ?]]]. intros ?. right. split; [apply not_elem_of_nil|done].
  - rewrite fmap_cons in *. apply NoDup_cons in Hnd as [Hw Hnd]. rewrite (IH _ Hnd).
    rewrite !elem_of_cons. split.
    + intros [[Hv <-]|[Hid Hm]]; [left; by split; [right|]|].
      rewrite lookup_insert in Hm. case_decide as Hd.
      * injection Hm as <-. left. split; [by left|done].
      * right. split; [|done]. intros [E|?]; [by apply Hd|done].
    + intros [[[->|Hv] <-]|[Hid Hm]].
      * right. split; [done|]. apply lookup_insert_eq.
      * left. by split.
      * right. split; [tauto|]. rewrite lookup_insert_ne; [done|]. intros E. apply Hid. by left.
Qed.

(** With distinct ids the index holds exactly the validators. *)
Lemma buildIndexes_spec l id v :
  NoDup (val_ConsensusID <$> l) →
  buildIndexes l !! id = Some v ↔ v ∈ l ∧ val_ConsensusID v = id.
Proof.
  intros Hnd. unfold buildIndexes. rewrite buildIndexes_go by done. rewrite lookup_empty.
  split; [by intros [?|[_ ?]]|by left].
Qed.

(** *** Frames *)

(** The keys a registry lives under. *)
Inductive registry_key : string → Prop :=
  | rk_count : registry_key keyValidatorCount
  | rk_total : registry_key keyTotalBonded
  | rk_seq i : registry_key (validatorBySeqKey i)
  | rk_val id : registry_key (validatorKey id)
  | rk_pub pk : registry_key (validatorPubkeyKey pk)
  | rk_op a : registry_key (validatorOperatorKey a).

Lemma represents_frame {S} `{KVStore S} (s s' : S) (r : registry) :
  Represents s r → (∀ k, registry_key k → kv_map s' !! k = kv_map s !! k) → Represents s' r.
Proof.
  intros Hr Hk. destruct Hr. split; try done.
  - by rewrite Hk by constructor.
  - intros i id Hi. rewrite Hk by constructor. eauto.
  - intros id. rewrite Hk by constructor. eauto.
  - by rewrite Hk by constructor.
  - intros id v Hv Hs. rewrite Hk by constructor. eauto.
  - intros pk b. rewrite Hk by constructor. eauto.
  - intros id v Hv Hs. rewrite Hk by constructor. eauto.
  - intros a b. rewrite Hk by constructor. eauto.
Qed.

(** [other_key]: a rendered key that is not one of the registry's. *)
Ltac other_key := intros ? []; rewrite ?lookup_insert_ne by key_ne; done.

Section snapshot_lemmas.
Context {S : Type} `{StakingStore S}.
Implicit Types (s : S) (r : registry).

Lemma LatestSnapshotEpoch_spec s :
  LatestSnapshotEpoch s = (s, count_value (kv_map s !! keyLatestEpoch)).
Proof.
  unfold LatestSnapshotEpoch, mbind, go_bind, GetBytes, gets. by destruct (kv_map s !! keyLatestEpoch).
Qed.

Lemma set_latest_spec s epoch cur :
  count_value (kv_map s !! keyLatestEpoch) = Ok cur →
  setLatestSnapshotEpoch epoch s =
  (if epoch <=? cur then s else kv_put keyLatestEpoch (be 8 epoch) s, Ok tt).
Proof.
  intros Hc. unfold setLatestSnapshotEpoch.
  rewrite (go_bind_ok _ _ s s cur) by (by rewrite LatestSnapshotEpoch_spec, Hc).
  by destruct (epoch <=? cur).
Qed.

Lemma GetSnapshot_stored s e snap :
  kv_map s !! snapshotKey e = Some (Snapshot_bytes snap) → Snapshot_wf snap → Snapshot_fits snap →
  GetSnapshot e s = (s, Ok (Some snap)).
Proof.
  intros Hk Hwf Hfits. unfold GetSnapshot, mbind, go_bind, GetBytes, gets. rewrite Hk.
  by rewrite (Snapshot_unmarshal _ Hwf Hfits).
Qed.

(** The snapshot of a represented store. *)
Definition snapshot_of r (epoch : Z) : ValidatorSnapshot :=
  let active := sort_slice power_less (active_of r (order r)) in
  {| snap_Epoch := epoch; snap_Validators := active; snap_TotalPower := sum_power active;
     snap_SetHash := if bool_decide (length active = 0%nat) then ZeroHash
                     else Sum256 (concat (Validator_bytes <$> active)) |}.

Lemma active_wf s r :
  Represents s r → Forall Validator_wf (sort_slice power_less (active_of r (order r))).
Proof.
  intros Hr. apply Forall_forall. intros v Hv. rewrite sort_slice_perm in Hv.
  apply (active_of_spec s r v Hr) in Hv as (id & Hv & _). by eapply Validator_ok_wf, (rep_ok Hr).
Qed.

Lemma sum_power_u64 l : is_u64 (sum_power l).
Proof.
  unfold sum_power. assert (∀ acc, is_u64 acc →
    is_u64 (fold_left (λ acc v, u64 (acc + val_VotingPower v)) l acc)) as Haux.
  { induction l as [|v l IH]; intros acc Ha; [done|]. cbn [fold_left]. apply IH, u64_is_u64. }
  by apply Haux.
Qed.

Lemma snapshot_of_wf s r epoch :
  Represents s r → fits 8 epoch → Z.of_nat (length (order r)) < 2 ^ 64 → Snapshot_wf (snapshot_of r epoch).
Proof.
  intros Hr He Hl. split; cbn [snapshot_of snap_Epoch snap_Validators snap_TotalPower].
  - done.
  - rewrite sort_slice_length. unfold active_of. eapply Z.le_lt_trans; [|exact Hl].
    apply inj_le, omap_length_le.
  - by eapply active_wf.
  - apply fits_u64, sum_power_u64.
Qed.

Lemma set_hash_spec l :
  Forall Validator_wf l →
  computeValidatorSetHash l =
  Ok (if bool_decide (length l = 0%nat) then ZeroHash else Sum256 (concat (Validator_bytes <$> l))).
Proof.
  intros Hl. unfold computeValidatorSetHash. case_bool_decide; [reflexivity|].
  unfold encode_bytes, run_writer, encode_all. rewrite (encode_all_bytes l Hl []). reflexivity.
Qed.

Lemma snapshot_of_fits r epoch : 8 * Z.of_nat (length (order r)) <= 2 ^ 48 → Snapshot_fits (snapshot_of r epoch).
Proof.
  intros Hl. unfold Snapshot_fits. cbn [snapshot_of snap_Validators]. rewrite sort_slice_length.
  assert (length (active_of r (order r)) <= length (order r))%nat by apply omap_length_le. lia.
Qed.

(** The index of the snapshot holds exactly the active validators. *)
Lemma ValidatorByID_spec s r epoch id v :
  Represents s r →
  ValidatorByID (snapshot_of r epoch) id = Ok v ↔
  vals r !! id = Some v ∧ val_Status v = ValidatorActive.
Proof.
  intros Hr. unfold ValidatorByID. cbn [snapshot_of snap_Validators].
  set (l := sort_slice power_less (active_of r (order r))).
  assert (∀ w, w ∈ l ↔ w ∈ active_of r (order r)) as Hin
    by (intros w; unfold l; by rewrite sort_slice_perm).
  assert (NoDup (val_ConsensusID <$> l)) as Hnd.
  { apply NoDup_fmap_2_strong; [|unfold l; rewrite sort_slice_perm; by apply (active_of_NoDup s)].
    intros x y Hx Hy. apply Hin in Hx, Hy. by apply (active_of_id s r). }
  transitivity (buildIndexes l !! id = Some v).
  { destruct (buildIndexes l !! id); split; intros E; inversion E; done. }
  rewrite (buildIndexes_spec l id v Hnd), (Hin v), (active_of_spec s r v Hr). split.
  - intros [(x & Hx & Hs) Hid]. destruct (rep_ok Hr x v Hx) as [[Hc _ _ _ _ _ _ _] _].
    rewrite Hc in Hid. by subst.
  - intros [Hv Hs]. split; [by exists id|]. by destruct (rep_ok Hr id v Hv) as [[] _].
Qed.

Lemma CreateSnapshot_spec s r epoch cur :
  Represents s r → fits 8 epoch → Z.of_nat (length (order r)) < 2 ^ 64 →
  count_value (kv_map s !! keyLatestEpoch) = Ok cur →
  let s1 := kv_put (snapshotKey epoch) (Snapshot_bytes (snapshot_of r epoch)) s in
  CreateSnapshot epoch s =
  (if epoch <=? cur then s1 else kv_put keyLatestEpoch (be 8 epoch) s1, Ok (snapshot_of r epoch)).
Proof.
  intros Hr He Hl Hc s1. unfold CreateSnapshot.
  rewrite (go_bind_ok _ _ _ _ _ (wrap_ok _ _ _ _ _ (GetActiveValidators_spec s r Hr))).
  rewrite (set_hash_spec _ (active_wf s r Hr)).
  match goal with |- context [lift (Ok ?h)] =>
    rewrite (go_bind_ok (lift (Ok h)) _ s s h eq_refl) end. cbv beta zeta.
  match goal with |- context [Snapshot_MarshalBinary ?x] => change x with (snapshot_of r epoch) end.
  rewrite (Snapshot_marshal _ (snapshot_of_wf s r epoch Hr He Hl)).
  rewrite (go_bind_ok _ _ s s (Snapshot_bytes (snapshot_of r epoch))) by done.
  rewrite (go_bind_ok _ _ s s1 tt) by done.
  rewrite (go_bind_ok _ _ _ _ _ (wrap_ok _ _ _ _ _ (set_latest_spec s1 epoch cur
    ltac:(unfold s1; store; kv_simpl; exact Hc)))). done.
Qed.
End snapshot_lemmas.

(** *** Stored snapshots are never rewritten by staking operations *)

Definition same_snapshots {S} `{KVStore S} (s s' : S) : Prop :=
  ∀ e, kv_map s' !! snapshotKey e = kv_map s !! snapshotKey e.

#[global] Instance same_snapshots_preorder {S} `{KVStore S} : PreOrder (same_snapshots (S := S)).
Proof. unfold same_snapshots. split; [done|]. intros s1 s2 s3 E1 E2 e. by rewrite E2. Qed.

(** The operations of the staking component other than the epoch machinery. *)
Inductive staking_call :=
  | KRegistry (c : reg_call)
  | KBond (from id : Address) (amount : Amount)
  | KSlash (id : Address) (amount : Amount)
  | KRelease (id : Address)
  | KApplySlash (id : Address) (percent jail : Z)
  | KSlashValidator (id : Address) (ev : Evidence)
  | KRewards (fees : Amount).

Definition run_staking {S} `{KVStore S, AccountStore S} (c : staking_call) : go S unit :=
  match c with
  | KRegistry c => run_call c
  | KBond from id amount => Bond from id amount;; mret tt
  | KSlash id amount => Slash id amount;; mret tt
  | KRelease id => ReleaseStake id
  | KApplySlash id percent jail => ApplySlash id percent jail
  | KSlashValidator id ev => SlashValidator id ev
  | KRewards fees => DistributeRewards fees;; mret tt
  end.

Section frozen.
Context {S : Type} `{StakingStore S}.

Lemma frozen_set k v :
  (∀ e, k ≠ snapshotKey e) → preserves (same_snapshots (S := S)) (SetBytes k v).
Proof. intros Hk s e. simpl. store. by rewrite lookup_insert_ne. Qed.

Lemma frozen_del k :
  (∀ e, k ≠ snapshotKey e) → preserves (same_snapshots (S := S)) (DeleteBytes k).
Proof. intros Hk s e. simpl. store. by rewrite lookup_delete_ne. Qed.

Lemma frozen_get k : preserves (same_snapshots (S := S)) (GetBytes k).
Proof. by intros s. Qed.

Lemma frozen_kv {A} (m : go S A) : preserves same_kv m → preserves same_snapshots m.
Proof. intros Hm s e. by rewrite (Hm s). Qed.
End frozen.

(** [frozen]: follow a program down to its updates of the store. *)
Ltac frozen :=
  repeat first
    [ progress intros
    | apply frozen_set; intros; key_ne
    | apply frozen_del; intros; key_ne
    | apply frozen_get
    | apply preserves_bind; [exact _|..]
    | apply preserves_wrap | apply preserves_try
    | apply preserves_for_each; [exact _|]
    | apply frozen_kv; solve [auto with preserves]
    | solve [auto with nocore preserves typeclass_instances]
    | case_match ].

Section frozen_calls.
Context {S : Type} `{StakingStore S}.

Lemma frozen_GetValidator id : preserves (same_snapshots (S := S)) (GetValidator id).
Proof. unfold GetValidator. frozen. Qed.
Lemma frozen_TotalBonded : preserves (same_snapshots (S := S)) TotalBonded.
Proof. unfold TotalBonded. frozen. Qed.
Lemma frozen_ValidatorCount : preserves (same_snapshots (S := S)) ValidatorCount.
Proof. unfold ValidatorCount. frozen. Qed.
Lemma frozen_CurrentEpoch : preserves (same_snapshots (S := S)) CurrentEpoch.
Proof. unfold CurrentEpoch. frozen. Qed.
Lemma frozen_UpdateValidator v : preserves (same_snapshots (S := S)) (UpdateValidator v).
Proof. unfold UpdateValidator, store_validator. frozen. Qed.
Lemma frozen_setTotalBonded a : preserves (same_snapshots (S := S)) (setTotalBonded a).
Proof. unfold setTotalBonded. frozen. Qed.
End frozen_calls.

#[export] Hint Resolve frozen_GetValidator frozen_TotalBonded frozen_ValidatorCount
  frozen_CurrentEpoch frozen_UpdateValidator frozen_setTotalBonded : preserves.

Section frozen_ops.
Context {S : Type} `{StakingStore S}.

Lemma frozen_run_call c : preserves (same_snapshots (S := S)) (run_call c).
Proof.
  destruct c; simpl; unfold RegisterValidator, ActivateValidator, JailValidator, UnjailValidator,
    StartUnstake, RemoveValidator, store_validator, setValidatorCount; frozen.
Qed.

Lemma frozen_collect l : preserves (same_snapshots (S := S)) (collect_active l).
Proof.
  induction l as [|x l IH]; simpl; [frozen|]. unfold validator_at_seq, getValidatorIDBySeq. frozen.
Qed.

Lemma frozen_ApplySlash id percent jail : preserves (same_snapshots (S := S)) (ApplySlash id percent jail).
Proof. unfold ApplySlash. frozen. Qed.

Lemma frozen_run_staking c : preserves (same_snapshots (S := S)) (run_staking c).
Proof.
  pose proof frozen_collect. pose proof frozen_ApplySlash. pose proof frozen_run_call.
  destruct c; simpl; unfold Bond, Slash, ReleaseStake, SlashValidator, GetSlashParams,
    DistributeRewards, GetActiveValidators, pay_reward; frozen.
Qed.
End frozen_ops.

(** ** Properties *)

(** A snapshot is what it was created from. [CreateSnapshot] stores, under
    its epoch, the active validators in their order, the sum of their powers and
    the hash of their records; [GetSnapshot] reads exactly this snapshot back,
    [ValidatorByID] finds in it each active validator and nothing else, the
    latest epoch never decreases, and the registry and the accounts are
    untouched. The registry may hold as many validators as there are pointers in
    the address space. *)
Theorem snapshot_roundtrip {S} `{StakingStore S} (s : S) (r : registry) (epoch cur : Z) :
  Represents s r → fits 8 epoch → 8 * Z.of_nat (length (order r)) <= 2 ^ 48 →
  LatestSnapshotEpoch s = (s, Ok cur) →
  ∃ s' snap, CreateSnapshot epoch s = (s', Ok snap) ∧
    GetSnapshot epoch s' = (s', Ok (Some snap)) ∧
    GetActiveValidators s = (s, Ok (snap_Validators snap)) ∧
    snap_TotalPower snap = sum_power (snap_Validators snap) ∧
    (∀ id v, ValidatorByID snap id = Ok v ↔ vals r !! id = Some v ∧ val_Status v = ValidatorActive) ∧
    LatestSnapshotEpoch s' = (s', Ok (Z.max cur epoch)) ∧
    Represents s' r ∧ same_accounts s s'.
Proof.
  intros Hr He Hl Hcur. rewrite LatestSnapshotEpoch_spec in Hcur. injection Hcur as Hcur.
  eexists _, (snapshot_of r epoch). split; [apply CreateSnapshot_spec; try done; lia|].
  set (s1 := kv_put (snapshotKey epoch) _ s). set (s' := if epoch <=? cur then s1 else _).
  assert (kv_map s' !! snapshotKey epoch = Some (Snapshot_bytes (snapshot_of r epoch))) as Hk.
  { unfold s', s1. destruct (epoch <=? cur); store; by kv_simpl. }
  split; [apply GetSnapshot_stored; [done|apply (snapshot_of_wf s); try done; lia|by apply snapshot_of_fits]|].
  split; [by apply GetActiveValidators_spec|]. split; [done|]. split.
  { intros id v. by apply (ValidatorByID_spec s). }
  split.
  { rewrite LatestSnapshotEpoch_spec. apply f_equal. unfold s', s1.
    destruct (Z.leb_spec epoch cur); store; kv_simpl.
    - rewrite Hcur. f_equal. lia.
    - cbn [count_value]. rewrite Uint64_be by done. f_equal. lia. }
  split.
  - apply (represents_frame s); [done|]. unfold s', s1. destruct (epoch <=? cur); store; other_key.
  - unfold same_accounts, s', s1. destruct (epoch <=? cur); by store.
Qed.

(** Snapshots are frozen: no sequence of staking operations (registrations,
    life-cycle changes, bonds, slashes, releases, reward payments), successful
    or not, changes the snapshot stored for any epoch. *)
Theorem snapshot_frozen {S} `{StakingStore S} (s s' : S) (e : Z) :
  rtc (λ a b, ∃ c, (run_staking c a).1 = b) s s' →
  (GetSnapshot e s').2 = (GetSnapshot e s).2.
Proof.
  intros Hsteps. assert (same_snapshots s s') as Hsame.
  { induction Hsteps as [s|s s1 s2 [c <-] _ IH]; [done|].
    etrans; [apply (frozen_run_staking c s)|exact IH]. }
  unfold GetSnapshot, mbind, go_bind, GetBytes, gets. rewrite (Hsame e).
  destruct (kv_map s !! snapshotKey e) as [d|]; [|done].
  unfold wrap, lift. by destruct (Snapshot_UnmarshalBinary d).
Qed.

Lemma snapshot_roundtrip_witness :
  ∃ s' snap, CreateSnapshot 1 sample_store = (s', Ok snap) ∧ GetSnapshot 1 s' = (s', Ok (Some snap)).
Proof.
  destruct (snapshot_roundtrip sample_store sample_registry 1 0) as (s' & snap & Hc & Hg & _).
  - exact sample_store_represents.
  - unfold fits. lia.
  - vm_compute. discriminate.
  - rewrite LatestSnapshotEpoch_spec. apply f_equal. vm_compute. reflexivity.
  - exists s', snap. split; [exact Hc|exact Hg].
Defined.

Lemma snapshot_frozen_witness :
  (GetSnapshot 1 (run_staking (KRegistry (CJail (sample_id 1) 4)) sample_store).1).2
  = (GetSnapshot 1 sample_store).2.
Proof.
  apply (snapshot_frozen sample_store
    (run_staking (KRegistry (CJail (sample_id 1) 4)) sample_store).1 1).
  apply rtc_once. exists (KRegistry (CJail (sample_id 1) 4)). reflexivity.
Defined.
