(* ===== verification/Economics.v ===== *)
(** * Issuance, treasury and epoch rewards (staking/economics.go,
      staking/treasury.go, staking/rewards.go)

    Counters of the supply in the key-value store, the per-epoch issuance, the
    credit of the treasury and the payout of the validators' pool by the powers
    of a stored snapshot. Division by zero panics, as in Go. *)

From S2P Require Import Prelude Codec Sha256 Address Amount Tx Votes Block Smt Store Keys State.
From S2P Require Import Validator Registry Applier Staking ValidatorSet.

Definition YearlyInflationBasisPoints : Z := 500.
Definition BasisPointsDenominator : Z := 10000.
Definition SecondsPerYear : Z := 365 * 24 * 60 * 60.

(** Integer division of unsigned integers. *)
Definition udiv (a b : Z) : res Z := if b =? 0 then Panic else Ok (a / b).
Definition umod (a b : Z) : res Z := if b =? 0 then Panic else Ok (a mod b).

Definition EpochsPerYear (blockTimeSec blocksPerEpoch : Z) : res Z :=
  udiv SecondsPerYear (u64 (blockTimeSec * blocksPerEpoch)).

(** [math/big] for the product; the result is dropped if it exceeds 64 bits. *)
Definition PerEpochIssuance (totalSupply blockTimeSec blocksPerEpoch : Z) : res Z :=
  epochsPerYear ← EpochsPerYear blockTimeSec blocksPerEpoch;
  if epochsPerYear =? 0 then Ok 0 else
  let denom := u64 (epochsPerYear * BasisPointsDenominator) in
  result ← udiv (totalSupply * YearlyInflationBasisPoints) denom;
  if bool_decide (is_u64 result) then Ok result else Ok 0.

Definition TreasuryAddress : Address := arr_zero 20.

Section economics.
Context {S : Type} `{KVStore S, AccountStore S}.

Definition readUint64 (key : string) : go S Z :=
  val ← GetBytes key;
  match val with
  | None => mret 0
  | Some b => if bool_decide (length b < 8)%nat then mret 0 else lift (Uint64 b)
  end.

Definition writeUint64 (key : string) (val : Z) : go S unit := SetBytes key (be 8 val).

(** ** treasury.go *)

Definition CreditTreasury (amount : Z) : go S unit :=
  if amount =? 0 then mret tt else
  currentSupply ← readUint64 KeyTreasurySupply;
  let newTreasurySupply := u64 (currentSupply + amount) in
  wrap "update treasury supply" (writeUint64 KeyTreasurySupply newTreasurySupply);;
  acc ← GetOrNewAccount TreasuryAddress;
  acc ← wrap "add treasury balance" (mutate acc (AddBalance (NewAmount amount)));
  wrap "set treasury account" (SetAccount TreasuryAddress acc).

Definition GetTreasuryBalance : go S Z := readUint64 KeyTreasurySupply.

(** ** economics.go *)

Definition IssueEpochTokens (epoch blockTimeSec blocksPerEpoch : Z) : go S Z :=
  totalSupply ← readUint64 KeyTotalSupply;
  issuance ← lift (PerEpochIssuance totalSupply blockTimeSec blocksPerEpoch);
  if issuance =? 0 then mret 0 else
  let treasuryAmount := u64 (issuance * 10) / 100 in
  let validatorAmount := u64 (issuance * 90) / 100 in
  wrap "credit treasury" (CreditTreasury treasuryAmount);;
  wrap "update total supply" (writeUint64 KeyTotalSupply (u64 (totalSupply + issuance)));;
  currentIssued ← readUint64 KeyIssuedSupply;
  wrap "update issued supply" (writeUint64 KeyIssuedSupply (u64 (currentIssued + issuance)));;
  wrap "store epoch issuance" (writeUint64 (KeyEpochIssuance epoch) issuance);;
  wrap "store epoch validator pool" (writeUint64 (KeyEpochValidatorPool epoch) validatorAmount);;
  mret issuance.

(** ** rewards.go *)

Definition reward_address (v : Validator) : Address :=
  if bool_decide (val_RewardAddress v = ZeroAddress) then val_OperatorAddress v
  else val_RewardAddress v.

Definition DistributeValidatorRewards (epoch : Z) : go S unit :=
  validatorPoolAmount ← readUint64 (KeyEpochValidatorPool epoch);
  if validatorPoolAmount =? 0 then mret tt else
  let snapshotEpoch := u64 (epoch - 1) in
  if snapshotEpoch =? 0 then mret tt else
  snap ← wrap "get snapshot for epoch" (GetSnapshot snapshotEpoch);
  match snap with
  | None => mret tt
  | Some snap =>
      if bool_decide (length (snap_Validators snap) = 0%nat) || (snap_TotalPower snap =? 0)
      then mret tt else
      let totalPower := snap_TotalPower snap in
      let rewards := reward_list validatorPoolAmount totalPower
                       (val_VotingPower <$> snap_Validators snap) in
      for_each (zip (reward_address <$> snap_Validators snap) rewards)
        (λ x, wrap "reward to" (pay_reward x))
  end.
End economics.

(** ** Lemmas *)

Section economics_lemmas.
Context {S : Type} `{StakingStore S}.
Implicit Types (s : S).

(** The value of a counter. *)
Definition counter (o : option bytes) : Z :=
  match o with
  | None => 0
  | Some b => if bool_decide (length b < 8)%nat then 0 else unbe (take 8 b)
  end.

Lemma readUint64_spec k s : readUint64 k s = (s, Ok (counter (kv_map s !! k))).
Proof.
  unfold readUint64, mbind, go_bind, GetBytes, gets, counter.
  destruct (kv_map s !! k) as [b|]; [|done]. case_bool_decide as Hl; [done|].
  unfold lift, Uint64. by rewrite bool_decide_false.
Qed.

Lemma counter_be v : fits 8 v → counter (Some (be 8 v)) = v.
Proof.
  intros Hv. unfold counter. rewrite length_be, bool_decide_false by lia.
  rewrite take_ge by (by rewrite length_be). by apply unbe_be_small.
Qed.

Lemma counter_u64 o : is_u64 (counter o).
Proof.
  unfold counter. destruct o as [b|]; [|done]. case_bool_decide; [done|].
  apply fits_u64. apply (unbe_fits _ 8). rewrite length_take. lia.
Qed.

Lemma CreditTreasury_ok amount s :
  is_u64 amount → 0 < amount → balances_ok s → total_balance s + amount < 2 ^ 128 →
  ∃ s', CreditTreasury amount s = (s', Ok tt) ∧
    kv_map s' = <[KeyTreasurySupply := be 8 (u64 (counter (kv_map s !! KeyTreasurySupply) + amount))]> (kv_map s) ∧
    balances_ok s' ∧ total_balance s' = total_balance s + amount ∧
    (∀ a, balance_at s' a = balance_at s a + if decide (TreasuryAddress = a) then amount else 0).
Proof.
  intros Ham Hpos Hs Hb. unfold CreditTreasury. rewrite (proj2 (Z.eqb_neq _ _)) by lia.
  rewrite (go_bind_ok _ _ _ _ _ (readUint64_spec KeyTreasurySupply s)).
  set (s1 := kv_put KeyTreasurySupply
    (be 8 (u64 (counter (kv_map s !! KeyTreasurySupply) + amount))) s).
  rewrite (go_bind_ok _ _ s s1 tt) by done.
  rewrite (go_bind_ok _ _ s1 s1 _ (GetOrNewAccount_spec s1 _)).
  assert (balances_ok s1) as Hs1 by (unfold s1; by balances).
  assert (total_balance s1 = total_balance s) as Ht1 by (unfold s1; by balances).
  pose proof (balances_ok_at s1 TreasuryAddress Hs1) as Hat.
  pose proof (balance_le_total s1 TreasuryAddress Hs1) as Hle. unfold balance_at in Hat, Hle.
  unfold wrap, mbind, go_bind. rewrite mutate_or_new. unfold NewAmount.
  rewrite AddBalance_ok by (done || lia || by apply is_u64_amount).
  set (acc' := set_balance _ _).
  exists (acc_put TreasuryAddress acc' s1). split.
  { destruct (acc_map s1 !! TreasuryAddress); [|done]. unfold SetAccount. by rewrite decide_True. }
  split; [unfold s1; by store|]. split; [|split].
  - apply balances_ok_put; [done|]. simpl. unfold amount_ok, is_u128, is_u64 in *. lia.
  - balances. rewrite Ht1. simpl. unfold balance_at. lia.
  - intros a. rewrite balance_at_put.
    assert (account_at s1 TreasuryAddress = account_at s TreasuryAddress) as Ea
      by (unfold s1, account_at; by store).
    case_decide; [subst; simpl; by rewrite Ea|]. unfold s1. balances. lia.
Qed.
End economics_lemmas.

(** ** Properties *)

(** Issuance. For any block time and epoch length whose product is between
    one second and one year, the per-epoch issuance is
    floor(supply * 500 / (epochsPerYear * 10000)): the computation never panics
    or overflows, and a year of it is at most 5 percent of the supply. *)
Theorem issuance_bounded (totalSupply blockTimeSec blocksPerEpoch : Z) :
  is_u64 totalSupply → 0 < blockTimeSec * blocksPerEpoch <= SecondsPerYear →
  let epochsPerYear := SecondsPerYear / (blockTimeSec * blocksPerEpoch) in
  ∃ i, PerEpochIssuance totalSupply blockTimeSec blocksPerEpoch = Ok i ∧
    i = totalSupply * 500 / (epochsPerYear * 10000) ∧
    0 <= i ∧ 100 * (epochsPerYear * i) <= 5 * totalSupply.
Proof.
  intros [Hs0 Hs1] [Hp0 Hp1] epy. unfold SecondsPerYear in *.
  assert (1 <= epy <= 31536000) as Hepy.
  { unfold epy. split; [apply Z.div_le_lower_bound; lia|].
    apply Z.div_le_upper_bound; [lia|]. nia. }
  exists (totalSupply * 500 / (epy * 10000)).
  assert (0 <= totalSupply * 500 / (epy * 10000)) as Hi0 by (apply Z.div_pos; lia).
  assert (totalSupply * 500 / (epy * 10000) <= totalSupply) as Hi1
    by (apply Z.div_le_upper_bound; nia).
  split_and!; [|done|done|].
  - unfold PerEpochIssuance, EpochsPerYear, udiv, SecondsPerYear, YearlyInflationBasisPoints,
      BasisPointsDenominator. rewrite (u64_small (blockTimeSec * _)) by (unfold is_u64; lia).
    rewrite (proj2 (Z.eqb_neq (blockTimeSec * _) 0)) by lia. cbn [mbind res_bind].
    fold epy. rewrite (proj2 (Z.eqb_neq epy 0)) by lia.
    rewrite (u64_small (epy * 10000)) by (unfold is_u64; lia).
    rewrite (proj2 (Z.eqb_neq (epy * 10000) 0)) by lia. cbn [mbind res_bind].
    rewrite bool_decide_true; [done|]. unfold is_u64. lia.
  - pose proof (Z.mul_div_le (totalSupply * 500) (epy * 10000) ltac:(lia)) as Hd. nia.
Qed.

(** Epoch issuance is booked consistently. When an epoch issues [i > 0]
    tokens (with counters that do not overflow), the treasury account is credited
    with floor(i/10), the validators' pool of the epoch is floor(9i/10), total and
    issued supply grow by exactly [i], and at most one unit of [i] is in neither
    share; no other account changes. *)
Theorem issuance_booked {S} `{StakingStore S} (s : S) (epoch blockTimeSec blocksPerEpoch i : Z) :
  let supply0 := counter (kv_map s !! KeyTotalSupply) in
  let issued0 := counter (kv_map s !! KeyIssuedSupply) in
  PerEpochIssuance supply0 blockTimeSec blocksPerEpoch = Ok i → 0 < i → i * 90 < 2 ^ 64 →
  supply0 + i < 2 ^ 64 → issued0 + i < 2 ^ 64 →
  balances_ok s → total_balance s + i < 2 ^ 128 →
  ∃ s', IssueEpochTokens epoch blockTimeSec blocksPerEpoch s = (s', Ok i) ∧
    counter (kv_map s' !! KeyTotalSupply) = supply0 + i ∧
    counter (kv_map s' !! KeyIssuedSupply) = issued0 + i ∧
    counter (kv_map s' !! KeyEpochIssuance epoch) = i ∧
    counter (kv_map s' !! KeyEpochValidatorPool epoch) = i * 90 / 100 ∧
    (∀ a, balance_at s' a = balance_at s a + if decide (TreasuryAddress = a) then i * 10 / 100 else 0) ∧
    i - 1 <= i * 10 / 100 + i * 90 / 100 <= i.
Proof.
  intros supply0 issued0 Hi Hpos H90 Hsup Hiss Hs Hb.
  pose proof (counter_u64 (kv_map s !! KeyTotalSupply)) as [Hc0 _]. fold supply0 in Hc0.
  pose proof (counter_u64 (kv_map s !! KeyIssuedSupply)) as [Hc1 _]. fold issued0 in Hc1.
  assert (i - 1 <= i * 10 / 100 + i * 90 / 100 <= i) as Hsplit.
  { pose proof (Z.div_mod (i * 10) 100). pose proof (Z.div_mod (i * 90) 100).
    pose proof (Z.mod_pos_bound (i * 10) 100). pose proof (Z.mod_pos_bound (i * 90) 100). lia. }
  assert (∃ s1, CreditTreasury (i * 10 / 100) s = (s1, Ok tt) ∧
    (∀ k, k ≠ KeyTreasurySupply → kv_map s1 !! k = kv_map s !! k) ∧
    (∀ a, balance_at s1 a = balance_at s a + if decide (TreasuryAddress = a) then i * 10 / 100 else 0))
    as (s1 & Hct & Hkv & Hbal).
  { destruct (Z.eq_dec (i * 10 / 100) 0) as [E|E].
    - exists s. rewrite E. split; [done|]. split; [done|]. intros a. case_decide; lia.
    - pose proof (Z.div_pos (i * 10) 100). pose proof (Z.div_le_upper_bound (i * 10) 100 i).
      destruct (CreditTreasury_ok (i * 10 / 100) s) as (s1 & Hct & Hkv & _ & _ & Hbal);
        [unfold is_u64; lia|lia|done|lia|].
      exists s1. split; [done|]. split; [|done]. intros k Hk. by rewrite Hkv, lookup_insert_ne. }
  unfold IssueEpochTokens.
  rewrite (go_bind_ok _ _ _ _ _ (readUint64_spec KeyTotalSupply s)). fold supply0. rewrite Hi.
  rewrite (go_bind_ok _ _ s s i) by done. rewrite (proj2 (Z.eqb_neq i 0)) by lia.
  rewrite (u64_small (i * 10)), (u64_small (i * 90)) by (unfold is_u64; lia).
  rewrite (go_bind_ok _ _ _ _ _ (wrap_ok _ _ _ _ _ Hct)).
  rewrite (go_bind_ok _ _ _ _ tt) by done.
  rewrite (go_bind_ok _ _ _ _ _ (readUint64_spec KeyIssuedSupply _)). store. kv_simpl.
  rewrite Hkv by key_ne. fold issued0.
  do 3 (rewrite (go_bind_ok _ _ _ _ tt) by done).
  eexists. split; [done|]. store. kv_simpl.
  assert (∀ v, is_u64 v → counter (Some (be 8 v)) = v) as Hcnt by (intros v Hv; by apply counter_be, fits_u64).
  pose proof (Z.div_pos (i * 10) 100). pose proof (Z.div_pos (i * 90) 100).
  rewrite !u64_small by (unfold is_u64; lia). rewrite !Hcnt by (unfold is_u64; lia).
  split_and!; try done; try lia. intros a. balances. apply Hbal.
Qed.

(** The pool of an epoch is paid out exactly, by the powers frozen in the
    snapshot of the epoch before: the rewards sum to the pool, each validator of
    the snapshot receives its rounded-down share (the first also the remainder)
    at its reward address, or at its operator address if it has none, and nothing
    else changes. Later changes of stake or status have no influence. *)
Theorem epoch_rewards_exact {S} `{StakingStore S} (s : S) (epoch : Z) (snap : ValidatorSnapshot) :
  let pool := counter (kv_map s !! KeyEpochValidatorPool epoch) in
  let powers := val_VotingPower <$> snap_Validators snap in
  1 < epoch < 2 ^ 64 → 0 < pool → GetSnapshot (epoch - 1) s = (s, Ok (Some snap)) →
  Forall (Z.le 0) powers → snap_TotalPower snap = zsum powers → 0 < zsum powers →
  pool * zsum powers < 2 ^ 64 → balances_ok s → total_balance s + pool < 2 ^ 128 →
  ∃ s' rewards, DistributeValidatorRewards epoch s = (s', Ok tt) ∧
    zsum rewards = pool ∧
    (∃ p0 rest rem, powers = p0 :: rest ∧ 0 <= rem < Z.of_nat (length powers) ∧
       rewards = (pool * p0 / zsum powers + rem) :: ((λ p, pool * p / zsum powers) <$> rest)) ∧
    (∀ a, balance_at s' a = balance_at s a + rewards_of a (zip (reward_address <$> snap_Validators snap) rewards)) ∧
    total_balance s' = total_balance s + pool ∧ kv_map s' = kv_map s.
Proof.
  intros pool powers He Hpool Hsnap Hpow Htp Hpos Hprod Hs Hb.
  destruct (reward_list_spec pool (zsum powers) powers (counter_u64 _) eq_refl Hpos Hpow Hprod)
    as (p0 & rest & rem & Hp & Hrem & Hlist & Hsum & Hnn).
  set (rewards := reward_list pool (zsum powers) powers) in *.
  assert ((zip (reward_address <$> snap_Validators snap) rewards).*2 = rewards) as Hzip.
  { apply snd_zip. unfold rewards. rewrite reward_list_length. unfold powers. by rewrite !length_fmap. }
  destruct (pay_all (λ x, wrap "reward to" (pay_reward x))
    (zip (reward_address <$> snap_Validators snap) rewards) s
    ltac:(intros x t t' Hx; by apply wrap_ok) Hs)
    as (s' & Hrun & Hkv & _ & Ht & Hbal); rewrite ?Hzip, ?Hsum; [done|done|].
  rewrite Hzip, Hsum in Ht. exists s', rewards. split.
  - unfold DistributeValidatorRewards.
    rewrite (go_bind_ok _ _ _ _ _ (readUint64_spec (KeyEpochValidatorPool epoch) s)). fold pool.
    rewrite (proj2 (Z.eqb_neq pool 0)) by lia. rewrite u64_small by (unfold is_u64; lia).
    rewrite (proj2 (Z.eqb_neq (epoch - 1) 0)) by lia.
    rewrite (go_bind_ok _ _ _ _ _ (wrap_ok _ _ _ _ _ Hsnap)).
    rewrite (bool_decide_false (length (snap_Validators snap) = 0%nat)).
    2:{ intros El. apply (f_equal length) in Hp. unfold powers in Hp. rewrite length_fmap, El in Hp. done. }
    rewrite Htp, (proj2 (Z.eqb_neq (zsum powers) 0)) by lia. cbn [orb]. exact Hrun.
  - split; [done|]. split; [by exists p0, rest, rem|]. by split_and!.
Qed.

Lemma issuance_bounded_witness :
  ∃ i, PerEpochIssuance 1000000000 1 100 = Ok i ∧ 100 * (315360 * i) <= 5 * 1000000000.
Proof.
  destruct (issuance_bounded 1000000000 1 100) as (i & Hi & _ & _ & Hb).
  - unfold is_u64. lia.
  - unfold SecondsPerYear. lia.
  - exists i. split; [exact Hi|exact Hb].
Defined.

(** A store with a supply of one billion; the pool of epoch 2 and the snapshot
    of epoch 1. *)
Definition supplied_store : InMemoryState := kv_put KeyTotalSupply (be 8 1000000000) funded_store.
Definition epoch_store : InMemoryState :=
  kv_put (KeyEpochValidatorPool 2) (be 8 1000)
    (kv_put (snapshotKey 1) (Snapshot_bytes (snapshot_of sample_registry 1)) funded_store).

Lemma issuance_booked_witness :
  ∃ s', IssueEpochTokens 1 1 100 supplied_store = (s', Ok 158) ∧
    counter (kv_map s' !! KeyTotalSupply) = counter (kv_map supplied_store !! KeyTotalSupply) + 158.
Proof.
  destruct (issuance_booked supplied_store 1 1 100 158) as (s' & Hrun & Hsup & _).
  - vm_compute. reflexivity.
  - lia.
  - lia.
  - vm_compute. reflexivity.
  - vm_compute. reflexivity.
  - unfold supplied_store. apply balances_ok_kv_put. exact funded_balances.
  - vm_compute. reflexivity.
  - exists s'. split; [exact Hrun|exact Hsup].
Defined.

Lemma epoch_rewards_exact_witness :
  ∃ s', DistributeValidatorRewards 2 epoch_store = (s', Ok tt) ∧ total_balance s' = 2400.
Proof.
  destruct (epoch_rewards_exact epoch_store 2 (snapshot_of sample_registry 1))
    as (s' & rewards & Hrun & _ & _ & _ & Ht & _).
  - lia.
  - vm_compute. reflexivity.
  - apply GetSnapshot_stored.
    + unfold epoch_store. store. kv_simpl. reflexivity.
    + apply (snapshot_of_wf sample_store); [exact sample_store_represents|unfold fits; lia|].
      vm_compute. reflexivity.
    + apply snapshot_of_fits. vm_compute. discriminate.
  - apply (bool_decide_unpack _). vm_compute. exact I.
  - vm_compute. reflexivity.
  - vm_compute. reflexivity.
  - vm_compute. reflexivity.
  - unfold epoch_store. rewrite !balances_ok_kv_put. exact funded_balances.
  - vm_compute. reflexivity.
  - exists s'. split; [exact Hrun|]. rewrite Ht. vm_compute. reflexivity.
Defined.
