(* ===== verification/Epoch.v ===== *)
(** * Epochs (staking/epoch.go)

    Epoch arithmetic and the epoch transition: three sweeps over the registry
    (activate, release, unjail) and the epoch counter. The sweeps are shown to
    implement one simultaneous step of every validator. *)

From S2P Require Import Prelude Codec Sha256 Address Amount Tx Votes Block Smt Store Keys State.
From S2P Require Import Validator Registry Applier Staking ValidatorSet Economics.

Definition DefaultBlocksPerEpoch : Z := 100.
Definition DefaultUnstakeCooldown : Z := 14.

(** The epoch of a height for a given epoch length. *)
Definition epoch_of (bpe height : Z) : res Z :=
  if height =? 0 then Ok 0 else
  q ← udiv (u64 (height - 1)) bpe; Ok (u64 (q + 1)).

Section epoch.
Context {S : Type} `{KVStore S, AccountStore S}.

Definition BlocksPerEpoch : go S Z :=
  val ← GetBytes keyBlocksPerEpoch;
  match val with None => mret DefaultBlocksPerEpoch | Some b => lift (Uint64 b) end.

Definition SetBlocksPerEpoch (blocks : Z) : go S unit :=
  guard_err (blocks =? 0) (Errorf "blocks per epoch must be > 0");;
  SetBytes keyBlocksPerEpoch (be 8 blocks).

Definition UnstakeCooldown : go S Z :=
  val ← GetBytes keyUnstakeCooldown;
  match val with None => mret DefaultUnstakeCooldown | Some b => lift (Uint64 b) end.

Definition SetUnstakeCooldown (cooldown : Z) : go S unit :=
  guard_err (cooldown =? 0) (Errorf "unstake cooldown must be > 0");;
  SetBytes keyUnstakeCooldown (be 8 cooldown).

Definition EpochAtHeight (height : Z) : go S Z :=
  if height =? 0 then mret 0 else
  bpe ← BlocksPerEpoch;
  lift (epoch_of bpe height).

Definition IsEpochBoundary (height : Z) : go S bool :=
  if height =? 0 then mret false else
  bpe ← BlocksPerEpoch;
  m ← lift (umod height bpe);
  mret (m =? 0).

(** One loop [for seq := 1; seq <= count; seq++] of the transition: the
    validators that satisfy [due] are acted upon. *)
Definition sweep (msg : string) (due : Validator → bool) (act : Address → go S unit) (l : list Z) : go S unit :=
  for_each l (λ seq,
    r ← validator_at_seq seq;
    match r with
    | None => mret tt
    | Some (consensusID, v) => if due v then wrap msg (act consensusID) else mret tt
    end).

Definition due_activation (nextEpoch : Z) (v : Validator) : bool :=
  (val_Status v =? ValidatorPending) && (val_ActivationEpoch v =? nextEpoch).
Definition due_release (nextEpoch : Z) (v : Validator) : bool :=
  (val_Status v =? ValidatorUnstaking) && (val_UnstakeEpoch v <=? nextEpoch).
Definition due_unjail (nextEpoch : Z) (v : Validator) : bool :=
  (val_Status v =? ValidatorJailed) && (val_JailedUntil v <=? nextEpoch).

Definition ProcessEpochTransition (height : Z) : go S unit :=
  currentEpoch ← CurrentEpoch;
  let nextEpoch := u64 (currentEpoch + 1) in
  expectedEpoch ← EpochAtHeight height;
  guard_err (negb (expectedEpoch =? nextEpoch)) (Errorf "epoch mismatch");;
  count ← ValidatorCount;
  sweep "activate validator" (due_activation nextEpoch)
    (λ id, ActivateValidator id nextEpoch) (seqs count);;
  sweep "release validator" (due_release nextEpoch) ReleaseStake (seqs count);;
  sweep "auto-unjail validator" (due_unjail nextEpoch) UnjailValidator (seqs count);;
  setCurrentEpoch nextEpoch.

Record EpochInfo := mkEpochInfo {
  ei_CurrentEpoch : Z;
  ei_BlocksPerEpoch : Z;
  ei_TotalValidators : Z;
  ei_ActiveValidators : Z;
  ei_TotalBonded : Amount;
}.

Definition GetEpochInfo : go S EpochInfo :=
  currentEpoch ← CurrentEpoch;
  totalValidators ← ValidatorCount;
  active ← GetActiveValidators;
  totalBonded ← TotalBonded;
  bpe ← BlocksPerEpoch;
  mret (mkEpochInfo currentEpoch bpe totalValidators (Z.of_nat (length active)) totalBonded).
End epoch.

(** ** Lemmas *)

(** What the transition does to one validator. *)
Definition advance (next : Z) (v : Validator) : Validator :=
  if decide (val_Status v = ValidatorPending ∧ val_ActivationEpoch v = next)
  then set_ActivationEpoch next (move ValidatorActive v)
  else if decide (val_Status v = ValidatorUnstaking ∧ val_UnstakeEpoch v <= next)
  then move ValidatorRemoved v
  else if decide (val_Status v = ValidatorJailed ∧ val_JailedUntil v <= next)
  then set_JailedUntil 0 (move ValidatorActive v)
  else v.

Definition map_registry (f : Validator → Validator) (r : registry) : registry :=
  mkRegistry (order r) (f <$> vals r).

(** What a validator is owed at the account [a] when the epoch [next] begins. *)
Definition owes (next : Z) (a : Address) (v : Validator) : Z :=
  if decide (val_Status v = ValidatorUnstaking ∧ val_UnstakeEpoch v <= next ∧ val_OperatorAddress v = a)
  then val_BondedStake v else 0.

Definition owed (next : Z) (r : registry) (a : Address) : Z := map_zsum (owes next a) (vals r).

Definition credited (x : Z) (acc : Account) : Account := set_balance acc (acc_Balance acc + x).

Lemma owes_status next a v : val_Status v ≠ ValidatorUnstaking → owes next a v = 0.
Proof. intros Hs. unfold owes. rewrite decide_False; [done|]. by intros [? _]. Qed.

Lemma owed_upd next r id v v' a :
  vals r !! id = Some v → owed next (upd id v' r) a = owed next r a - owes next a v + owes next a v'.
Proof. apply map_zsum_insert_Some. Qed.

(** Nobody is owed anything by validators that have advanced. *)
Lemma owed_advance next r a : owed next (map_registry (advance next) r) a = 0.
Proof.
  unfold owed, map_registry. cbn [vals]. apply map_zsum_zero. intros id w Hw.
  rewrite lookup_fmap in Hw. destruct (vals r !! id) as [v|]; [|done]. injection Hw as <-.
  unfold advance. case_decide; [by apply owes_status|]. case_decide; [by apply owes_status|].
  case_decide; [by apply owes_status|]. unfold owes. rewrite decide_False; [done|]. naive_solver.
Qed.

Section sweep.
Context {S : Type} `{StakingStore S}.
Implicit Types (s : S) (r : registry).

(** The invariant of the loops: the store represents a registry, balances are
    in range, the supply is [K], releases can be paid out, and the accounts will
    be [final] when all that is owed has been paid. *)
Record Inv (K next : Z) (final : Address → option Account) s r : Prop := {
  inv_rep : Represents s r;
  inv_bal : balances_ok s;
  inv_supply : supply s r = K;
  inv_ops id v : vals r !! id = Some v → val_Status v = ValidatorUnstaking →
    is_Some (acc_map s !! val_OperatorAddress v);
  inv_paid a : credited (owed next r a) <$> (acc_map s !! a) = final a;
}.

Context (K next : Z) (final : Address → option Account) (msg : string) (due : Validator → bool) (act : Address → go S unit)
        (f : Validator → Validator).
Hypothesis Hact : ∀ s r id v,
  Inv K next final s r → vals r !! id = Some v → due v = true →
  ∃ s', act id s = (s', Ok tt) ∧ Inv K next final s' (upd id (f v) r).

Let g v := if due v then f v else v.

(** A sweep from position [k] on. *)
Lemma sweep_from s r k ids :
  Inv K next final s r → drop k (order r) = ids →
  ∃ s' r', sweep msg due act (Z.of_nat <$> seq (1 + k) (length ids)) s = (s', Ok tt) ∧
    Inv K next final s' r' ∧ order r' = order r ∧
    ∀ id, vals r' !! id = if decide (id ∈ ids) then g <$> (vals r !! id) else vals r !! id.
Proof.
  revert s r k. induction ids as [|id ids IH]; intros s r k Hinv Hd.
  { exists s, r. split; [done|]. split; [done|]. split; [done|].
    intros id. by rewrite decide_False by apply not_elem_of_nil. }
  pose proof (inv_rep _ _ _ _ _ Hinv) as Hr.
  assert (order r !! k = Some id) as Hk by (by rewrite <- (Nat.add_0_r k), <- lookup_drop, Hd).
  assert (drop (1 + k) (order r) = ids) as Hd' by (by rewrite Nat.add_comm, <- drop_drop, Hd).
  assert (id ∉ ids) as Hnin.
  { pose proof (rep_nodup Hr) as Hnd. rewrite <- (take_drop k (order r)), Hd in Hnd.
    apply NoDup_app in Hnd as (_ & _ & Hnd). by apply NoDup_cons in Hnd as [? _]. }
  assert (∃ s1 r1, (r ← validator_at_seq (Z.of_nat (1 + k));
      match r with
      | None => mret tt
      | Some (consensusID, v) => if due v then wrap msg (act consensusID) else mret tt
      end) s = (s1, Ok tt) ∧ Inv K next final s1 r1 ∧ order r1 = order r ∧
      ∀ x, vals r1 !! x = if decide (x = id) then g <$> (vals r !! x) else vals r !! x)
    as (s1 & r1 & Hrun1 & Hinv1 & Ho1 & Hv1).
  { replace (Z.of_nat (1 + k)) with (Z.of_nat k + 1) by lia.
    rewrite (go_bind_ok _ _ _ _ _ (validator_at_seq_spec s r k id Hr Hk)).
    destruct (vals r !! id) as [v|] eqn:Hv.
    2:{ exists s, r. do 3 (split; [done|]). intros x. case_decide; [subst; by rewrite Hv|done]. }
    destruct (due v) eqn:Hdue.
    - destruct (Hact s r id v Hinv Hv Hdue) as (s1 & Hs1 & Hi1). exists s1, (upd id (f v) r).
      split; [by apply wrap_ok|]. split; [done|]. split; [done|]. intros x. simpl.
      rewrite lookup_insert. destruct (decide (x = id)) as [->|Hx]; [|by rewrite decide_False by congruence].
      rewrite decide_True by done. rewrite Hv. simpl. unfold g. by rewrite Hdue.
    - exists s, r. do 3 (split; [done|]). intros x. case_decide; [|done]. subst. rewrite Hv. simpl.
      unfold g. by rewrite Hdue. }
  rewrite <- Ho1 in Hd'. destruct (IH s1 r1 (1 + k)%nat Hinv1 Hd') as (s' & r' & Hrun & Hinv' & Ho & Hv).
  exists s', r'. cbn [length seq fmap list_fmap]. unfold sweep in *. cbn [for_each].
  rewrite (go_bind_ok _ _ _ _ _ Hrun1). split; [exact Hrun|]. split; [done|]. split; [congruence|].
  intros x. rewrite Hv, Hv1. destruct (decide (x = id)) as [->|Hx].
  - rewrite decide_False by done. by rewrite decide_True by (by left).
  - destruct (decide (x ∈ ids)); [by rewrite decide_True by (by right)|].
    rewrite decide_False; [done|]. intros [?|?]%elem_of_cons; done.
Qed.

Lemma sweep_all s r :
  Inv K next final s r →
  ∃ s', sweep msg due act (seqs (Z.of_nat (length (order r)))) s = (s', Ok tt) ∧
        Inv K next final s' (map_registry g r).
Proof.
  intros Hinv. destruct (sweep_from s r 0 (order r) Hinv eq_refl) as (s' & r' & Hrun & Hinv' & Ho & Hv).
  exists s'. unfold seqs. rewrite Nat2Z.id. split; [exact Hrun|].
  replace (map_registry g r) with r'; [done|]. destruct r' as [o m]; simpl in *. subst o.
  unfold map_registry. f_equal. apply map_eq. intros id. rewrite Hv, lookup_fmap.
  pose proof (rep_dom (inv_rep _ _ _ _ _ Hinv) id) as Hdom. case_decide as Hin; [done|].
  destruct (vals r !! id) as [v|] eqn:E; [|done]. exfalso. apply Hin, Hdom. by eexists.
Qed.
End sweep.

Section transition.
Context {S : Type} `{StakingStore S}.
Implicit Types (s : S) (r : registry) (id : Address) (v : Validator).

Lemma total_stake_upd r id v v' :
  vals r !! id = Some v → total_stake (upd id v' r) = total_stake r - live_stake v + live_stake v'.
Proof. apply map_zsum_insert_Some. Qed.

Lemma same_accounts_total s s' : same_accounts s s' → total_balance s' = total_balance s.
Proof. intros E. unfold total_balance. by rewrite E. Qed.

(** The invariant after a registry call that keeps a validator bonded. *)
Lemma Inv_registry K next final s s' r id v v' :
  Inv K next final s r → vals r !! id = Some v → Represents s' (upd id v' r) → same_accounts s s' →
  live_stake v' = live_stake v → val_Status v ≠ ValidatorUnstaking → val_Status v' ≠ ValidatorUnstaking → Inv K next final s' (upd id v' r).
Proof.
  intros [Hr Hb Hk Ho Hp] Hv Hr' Ha Hl Hu' Hu. split; [done| | | |].
  - intros a acc Hacc. rewrite Ha in Hacc. by eapply Hb.
  - unfold supply. rewrite (total_stake_upd r id v v' Hv), (same_accounts_total s s' Ha), Hl.
    unfold supply in Hk. lia.
  - intros x w. simpl. rewrite lookup_insert, Ha. case_decide; [intros [= <-] ?; done|by apply Ho].
  - intros a. rewrite Ha, (owed_upd next r id v v' a Hv), !owes_status by done. rewrite <- (Hp a). do 2 f_equal. lia.
Qed.

Lemma act_activate K next final s r id v :
  fits 8 next → Inv K next final s r → vals r !! id = Some v → due_activation next v = true →
  ∃ s', ActivateValidator id next s = (s', Ok tt) ∧
        Inv K next final s' (upd id (set_ActivationEpoch next (move ValidatorActive v)) r).
Proof.
  intros Hn Hinv Hv Hdue. unfold due_activation in Hdue. bool_hyps.
  pose proof (run_call_refines s r (CActivate id next) (inv_rep _ _ _ _ _ Hinv) Hn) as Href.
  cbn [spec_call with_validator] in Href. unfold with_validator in Href. rewrite Hv in Href.
  destruct (Z.eqb_spec (val_Status v) ValidatorPending) as [Hs|]; [|done].
  destruct Href as (s' & Hrun & Hr' & Ha). exists s'. split; [exact Hrun|].
  eapply Inv_registry; try done; [unfold live_stake; simpl; by rewrite Hs|by rewrite Hs].
Qed.

Lemma act_unjail K next final s r id v :
  Inv K next final s r → vals r !! id = Some v → due_unjail next v = true →
  ∃ s', UnjailValidator id s = (s', Ok tt) ∧
        Inv K next final s' (upd id (set_JailedUntil 0 (move ValidatorActive v)) r).
Proof.
  intros Hinv Hv Hdue. unfold due_unjail in Hdue. bool_hyps.
  pose proof (run_call_refines s r (CUnjail id) (inv_rep _ _ _ _ _ Hinv) I) as Href.
  cbn [spec_call] in Href. unfold with_validator in Href. rewrite Hv in Href.
  destruct (Z.eqb_spec (val_Status v) ValidatorJailed) as [Hs|]; [|done].
  destruct Href as (s' & Hrun & Hr' & Ha). exists s'. split; [exact Hrun|].
  eapply Inv_registry; try done; [unfold live_stake; simpl; by rewrite Hs|by rewrite Hs].
Qed.

Lemma act_release K next final s r id v :
  K < 2 ^ 128 → Inv K next final s r → vals r !! id = Some v → due_release next v = true →
  ∃ s', ReleaseStake id s = (s', Ok tt) ∧ Inv K next final s' (upd id (move ValidatorRemoved v) r).
Proof.
  intros HK [Hr Hb Hk Ho Hp] Hv Hdue. unfold due_release in Hdue. bool_hyps.
  destruct (ReleaseStake_cases s r id Hr Hb ltac:(lia))
    as [(e & _ & Hn)|(w & acc & s' & Hw & Hs & Hacc & Hrun & Hmap & Hr')].
  { exfalso. apply Hn. exists v. split; [done|]. split; [done|]. by eapply Ho. }
  assert (w = v) as -> by congruence.
  pose proof (bonded_le_total s r id v Hr Hv ltac:(by rewrite Hs)) as Hle.
  pose proof (stake_nonneg s r id v Hr Hv) as [Hst0 _].
  exists s'. split; [done|]. set (acc' := set_balance acc _) in Hmap.
  assert (balance_at s (val_OperatorAddress v) = acc_Balance acc) as Hbal
    by (unfold balance_at, account_at; by rewrite Hacc).
  pose proof (balance_le_total s (val_OperatorAddress v) Hb) as Hle'. rewrite Hbal in Hle'.
  pose proof (Hb _ _ Hacc) as Hok. split; [done| | | |].
  - intros a x Hx. rewrite Hmap in Hx. apply lookup_insert_Some in Hx as [[<- <-]|[_ Hx]]; [|by eapply Hb].
    unfold supply in Hk. simpl. unfold amount_ok, is_u128 in *. lia.
  - unfold supply in *. rewrite (total_stake_removed r id v Hv) by (by rewrite Hs).
    assert (total_balance s' = total_balance (acc_put (val_OperatorAddress v) acc' s)) as ->
      by (unfold total_balance; by rewrite Hmap, acc_map_put).
    balances. rewrite Hbal. simpl. lia.
  - intros x u. simpl. rewrite lookup_insert, Hmap. case_decide; [by intros [= <-]|].
    intros Hu Hus. rewrite lookup_insert. case_decide; [done|]. by eapply Ho.
  - intros a. rewrite <- (Hp a), (owed_upd next r id v _ a Hv), Hmap, lookup_insert.
    rewrite (owes_status next a (move ValidatorRemoved v)) by done.
    destruct (decide (val_OperatorAddress v = a)) as [<-|Ha].
    + rewrite Hacc. unfold owes. rewrite decide_True by done. cbn [fmap option_fmap option_map]. f_equal.
      unfold credited, acc'. destruct acc. cbn. f_equal. lia.
    + assert (owes next a v = 0) as -> by (unfold owes; rewrite decide_False; [done|naive_solver]).
      do 2 f_equal. lia.
Qed.

Lemma BlocksPerEpoch_spec s :
  BlocksPerEpoch s = (s, match kv_map s !! keyBlocksPerEpoch with
                         | None => Ok DefaultBlocksPerEpoch | Some b => Uint64 b end).
Proof.
  unfold BlocksPerEpoch, mbind, go_bind, GetBytes, gets. by destruct (kv_map s !! keyBlocksPerEpoch).
Qed.

(** The three conditions of the code. *)
Lemma due_if {A} (b : bool) (P : Prop) `{Decision P} (x y : A) :
  (b = true ↔ P) → (if b then x else y) = if decide P then x else y.
Proof. intros HP. destruct b; case_decide; naive_solver. Qed.

Lemma advance_due next v :
  advance next v =
    if due_activation next v then set_ActivationEpoch next (move ValidatorActive v)
    else if due_release next v then move ValidatorRemoved v
    else if due_unjail next v then set_JailedUntil 0 (move ValidatorActive v)
    else v.
Proof.
  unfold advance, due_activation, due_release, due_unjail. symmetry.
  repeat (erewrite due_if; [|rewrite andb_true_iff, ?Z.eqb_eq, ?Z.leb_le; reflexivity]). done.
Qed.

(** The three sweeps together are one step of every validator. *)
Lemma advance_compose next r :
  map_registry (λ v, if due_unjail next v then set_JailedUntil 0 (move ValidatorActive v) else v)
    (map_registry (λ v, if due_release next v then move ValidatorRemoved v else v)
       (map_registry (λ v, if due_activation next v
          then set_ActivationEpoch next (move ValidatorActive v) else v) r))
  = map_registry (advance next) r.
Proof.
  unfold map_registry. simpl. f_equal. rewrite <- !map_fmap_compose.
  apply map_fmap_ext. intros id v _. simpl. rewrite advance_due.
  destruct (due_activation next v) eqn:Ha; [done|].
  destruct (due_release next v) eqn:Hr; [done|done].
Qed.
End transition.

(** ** Properties *)

(** Epochs partition the heights. With [bpe > 0] blocks per epoch, epoch
    [e >= 1] consists of exactly the heights (e-1)*bpe+1 to e*bpe, and the
    boundary test holds exactly at the last of them. (So with 100 blocks per
    epoch, block 100 still belongs to epoch 1.) *)
Theorem epoch_partition {S} `{StakingStore S} (s : S) (bpe height : Z) :
  BlocksPerEpoch s = (s, Ok bpe) → 0 < bpe → 0 < height < 2 ^ 64 →
  ∃ e, EpochAtHeight height s = (s, Ok e) ∧ 1 <= e ∧
    (e - 1) * bpe < height <= e * bpe ∧
    (∀ e', (e' - 1) * bpe < height <= e' * bpe → e' = e) ∧
    IsEpochBoundary height s = (s, Ok (bool_decide (height = e * bpe))).
Proof.
  intros Hb Hpos Hh. exists ((height - 1) / bpe + 1).
  pose proof (Z.div_mod (height - 1) bpe ltac:(lia)) as Hdm.
  pose proof (Z.mod_pos_bound (height - 1) bpe ltac:(lia)) as Hmb.
  assert (0 <= (height - 1) / bpe) as Hq by (apply Z.div_pos; lia).
  assert ((height - 1) / bpe <= height - 1) as Hq' by (apply Z.div_le_upper_bound; [lia|]; nia).
  split.
  { unfold EpochAtHeight. rewrite (proj2 (Z.eqb_neq height 0)) by lia.
    rewrite (go_bind_ok _ _ _ _ _ Hb). unfold lift, epoch_of, udiv.
    rewrite (proj2 (Z.eqb_neq height 0)), (proj2 (Z.eqb_neq bpe 0)) by lia.
    rewrite u64_small by (unfold is_u64; lia). cbn [mbind res_bind].
    by rewrite u64_small by (unfold is_u64; lia). }
  split; [lia|]. split; [nia|]. split; [intros e' He'; nia|].
  unfold IsEpochBoundary. rewrite (proj2 (Z.eqb_neq height 0)) by lia.
  rewrite (go_bind_ok _ _ _ _ _ Hb). unfold umod. rewrite (proj2 (Z.eqb_neq bpe 0)) by lia.
  unfold lift, mbind, go_bind, mret, go_ret. do 2 f_equal.
  apply eq_true_iff_eq. rewrite Z.eqb_eq, bool_decide_eq_true. split.
  - intros Hm. pose proof (Z.div_mod height bpe ltac:(lia)) as Hd. rewrite Hm in Hd.
    set (q := (height - 1) / bpe) in *. set (q' := height / bpe) in *.
    assert (q < q') by nia. assert (q' < q + 2) by nia. assert (q' = q + 1) as Eq by lia. nia.
  - intros E. rewrite E. apply Z.mod_mul. lia.
Qed.

(** C10: the epoch transition, on a store that represents a registry, with the
    balances in range, a supply below 2^128, an existing operator account for
    every unstaking validator and an epoch counter below 2^64 - 1. At a height of
    the next epoch, every pending validator due then is activated, every
    unstaking validator whose term has passed is removed, every jailed validator
    whose term has passed is reactivated, all others are unchanged; each account
    gains exactly the stakes of the removed validators that it operates and is
    otherwise unchanged; the epoch counter advances by one and no tokens are
    created or lost. At any other height the call fails and changes nothing. *)
Theorem epoch_transition_exact {S} `{StakingStore S} (s : S) (r : registry) (height cur expected : Z) :
  Represents s r → balances_ok s → supply s r < 2 ^ 128 →
  (∀ id v, vals r !! id = Some v → val_Status v = ValidatorUnstaking →
           is_Some (acc_map s !! val_OperatorAddress v)) →
  CurrentEpoch s = (s, Ok cur) → 0 <= cur < 2 ^ 64 - 1 → EpochAtHeight height s = (s, Ok expected) →
  if expected =? cur + 1
  then ∃ s', ProcessEpochTransition height s = (s', Ok tt) ∧
         Represents s' (map_registry (advance (cur + 1)) r) ∧
         CurrentEpoch s' = (s', Ok (cur + 1)) ∧
         (∀ a, acc_map s' !! a = credited (owed (cur + 1) r a) <$> (acc_map s !! a)) ∧
         balances_ok s' ∧ supply s' (map_registry (advance (cur + 1)) r) = supply s r
  else ProcessEpochTransition height s = (s, Err (Errorf "epoch mismatch")).
Proof.
  intros Hr Hb Hsup Hops Hcur Hrange Hexp. unfold ProcessEpochTransition.
  rewrite (go_bind_ok _ _ _ _ _ Hcur), u64_small by (unfold is_u64; lia).
  rewrite (go_bind_ok _ _ _ _ _ Hexp). destruct (expected =? cur + 1); [|done].
  rewrite (go_bind_ok _ _ s s tt) by done.
  rewrite (go_bind_ok _ _ s s (Z.of_nat (length (order r))))
    by (by rewrite ValidatorCount_spec, (rep_count Hr)).
  assert (fits 8 (cur + 1)) as Hfit by (unfold fits; change (256 ^ Z.of_nat 8) with (2 ^ 64); lia).
  set (K := supply s r) in *. set (final := λ a, credited (owed (cur + 1) r a) <$> (acc_map s !! a)).
  assert (Inv K (cur + 1) final s r) as Hinv by (by split).
  destruct (sweep_all K (cur + 1) final "activate validator" (due_activation (cur + 1)) _ _
    (λ s r id v, act_activate K (cur + 1) final s r id v Hfit) s r Hinv) as (s1 & Hrun1 & Hinv1).
  rewrite (go_bind_ok _ _ _ _ _ Hrun1).
  destruct (sweep_all K (cur + 1) final "release validator" (due_release (cur + 1)) _ _
    (λ s r id v, act_release K (cur + 1) final s r id v Hsup) s1 _ Hinv1) as (s2 & Hrun2 & Hinv2).
  rewrite (go_bind_ok _ _ _ _ _ Hrun2).
  destruct (sweep_all K (cur + 1) final "auto-unjail validator" (due_unjail (cur + 1)) _ _
    (λ s r id v, act_unjail K (cur + 1) final s r id v) s2 _ Hinv2) as (s3 & Hrun3 & Hinv3).
  rewrite (go_bind_ok _ _ _ _ _ Hrun3).
  rewrite advance_compose in Hinv3. destruct Hinv3 as [Hr3 Hb3 Hk3 _ Hp3].
  eexists. split; [done|]. split.
  { apply (represents_frame s3); [done|]. store. other_key. }
  split; [rewrite CurrentEpoch_spec; apply f_equal; store; kv_simpl; by apply Uint64_be|].
  split.
  { intros a. fold (final a). rewrite <- (Hp3 a), owed_advance. rewrite acc_map_kv_put.
    destruct (acc_map s3 !! a) as [acc|]; [|done]. cbn [fmap option_fmap option_map]. unfold credited.
    rewrite Z.add_0_r. by destruct acc. }
  split; [by balances|]. unfold supply in *. by balances.
Qed.

Lemma epoch_partition_witness :
  ∃ e, EpochAtHeight 100 sample_store = (sample_store, Ok e) ∧ (e - 1) * 100 < 100 <= e * 100.
Proof.
  destruct (epoch_partition sample_store 100 100) as (e & He & _ & Hr & _).
  - rewrite BlocksPerEpoch_spec. apply f_equal. vm_compute. reflexivity.
  - lia.
  - lia.
  - exists e. split; [exact He|exact Hr].
Defined.

(** A store with a validator whose term ends with epoch 1. *)
Definition leaving_calls : list reg_call := sample_calls ++ [CStartUnstake (sample_id 1) 1].
Definition leaving_registry : registry := spec_calls leaving_calls empty_registry.
Definition leaving_store : InMemoryState := fund (run_calls leaving_calls NewInMemoryState).

Lemma leaving_represents : Represents leaving_store leaving_registry ∧ balances_ok leaving_store.
Proof.
  destruct (run_calls_refines leaving_calls NewInMemoryState empty_registry) as [Hr Ha].
  - by apply represents_empty.
  - vm_compute. repeat split; discriminate.
  - split; [by apply fund_represents|]. apply fund_balances. by rewrite Ha.
Qed.

Lemma leaving_operators id v :
  vals leaving_registry !! id = Some v → val_Status v = ValidatorUnstaking → is_Some (acc_map leaving_store !! val_OperatorAddress v).
Proof.
  assert (map_Forall (λ _ v, val_Status v = ValidatorUnstaking → val_OperatorAddress v = addr_of 1) (vals leaving_registry)) as Hall
    by (apply (bool_decide_unpack _); vm_compute; exact I).
  intros Hv Hs. rewrite (Hall id v Hv Hs). unfold leaving_store, fund. rewrite acc_map_put, lookup_insert_ne, acc_map_put, lookup_insert_eq by done. by eexists.
Qed.

(** The operator gets the stake of 150000 back. *)
Lemma epoch_transition_exact_witness :
  ∃ s', ProcessEpochTransition 100 leaving_store = (s', Ok tt) ∧
    acc_map s' !! addr_of 1 = credited 150000 <$> (acc_map leaving_store !! addr_of 1) ∧
    supply s' (map_registry (advance 1) leaving_registry) = supply leaving_store leaving_registry.
Proof.
  pose proof (epoch_transition_exact leaving_store leaving_registry 100 0 1) as Ht.
  destruct Ht as (s' & Hrun & _ & _ & Hpaid & _ & Hs).
  - apply leaving_represents.
  - apply leaving_represents.
  - vm_compute. reflexivity.
  - exact leaving_operators.
  - rewrite CurrentEpoch_spec. apply f_equal. vm_compute. reflexivity.
  - lia.
  - assert (BlocksPerEpoch leaving_store = (leaving_store, Ok 100)) as Hbpe
      by (rewrite BlocksPerEpoch_spec; apply f_equal; vm_compute; reflexivity).
    unfold EpochAtHeight. cbn [Z.eqb]. rewrite (go_bind_ok _ _ _ _ _ Hbpe). reflexivity.
  - exists s'. split; [exact Hrun|]. split; [|exact Hs]. rewrite (Hpaid (addr_of 1)).
    replace (owed (0 + 1) leaving_registry (addr_of 1)) with 150000 by (vm_compute; reflexivity). reflexivity.
Defined.
