(* ===== verification/Voting.v ===== *)
(** * Proposer selection, vote collection and commit proofs
      (consensus/leader.go, consensus/proposer.go, consensus/validator_set.go,
      consensus/voting.go, [validateCommitProof] of consensus/block_validator.go)

    Who proposes at a height, how the votes of a round are collected against a
    frozen validator snapshot, how a commit proof is built from them and how
    the proof carried by a block is checked. *)

From S2P Require Import Prelude Codec Sha256 Address Amount Tx Votes Block Smt Store Keys State.
From S2P Require Import Validator Registry Applier Staking ValidatorSet.

(** ** Proposers *)

(** [None] stands for the index out of range that cannot happen: the index is
    reduced modulo the length. *)
Definition ProposerAtHeight (height : Z) (validators : list Address) : res Address :=
  if bool_decide (length validators = 0%nat) then Panic else
  match validators !! Z.to_nat (height mod u64 (Z.of_nat (length validators))) with
  | Some a => Ok a
  | None => Panic
  end.

(** The loop of [WeightedProposerAtHeight]; [None] when it falls through. *)
Fixpoint weighted_scan (offset total cumulative : Z) (l : list Validator) : option Address :=
  match l with
  | [] => None
  | v :: l' =>
      let cumulative := u64 (cumulative + val_VotingPower v) in
      if offset <? cumulative then Some (val_ConsensusID v) else
      if bool_decide (length l' = 0%nat) && (u64 (cumulative - total) <=? offset)
      then Some (val_ConsensusID v) else
      weighted_scan offset total cumulative l'
  end.

Definition WeightedProposerAtHeight (height : Z) (validators : list Validator) : res Address :=
  if bool_decide (length validators = 0%nat) then Panic else
  let totalVotingPower := sum_power validators in
  if totalVotingPower =? 0 then
    match validators !! Z.to_nat (height mod u64 (Z.of_nat (length validators))) with
    | Some v => Ok (val_ConsensusID v)
    | None => Panic
    end
  else
    match weighted_scan (height mod totalVotingPower) totalVotingPower 0 validators with
    | Some a => Ok a
    | None => match last validators with Some v => Ok (val_ConsensusID v) | None => Panic end
    end.

Definition SortedValidators (validators : list Address) : list Address :=
  sort_slice (less_by arr_bytes) validators.

Definition ValidatorRoot (validators : list Address) : Hash :=
  if bool_decide (length validators = 0%nat) then ZeroHash
  else Sum256 (concat (arr_bytes <$> SortedValidators validators)).

(** ** Collecting votes *)

Definition VotingThresholdNumerator : Z := 2.
Definition VotingThresholdDenominator : Z := 3.

Record VotingState := mkVotingState {
  vs_height : Z;
  vs_round : Z;
  vs_blockHash : Hash;
  vs_snapshot : ValidatorSnapshot;
  vs_prevotes : gmap Address Vote;
  vs_precommits : gmap Address Vote;
  vs_prevotePower : Z;
  vs_precommitPower : Z;
}.

Definition NewVotingState (height round : Z) (blockHash : Hash) (snapshot : ValidatorSnapshot)
  : VotingState :=
  {| vs_height := height; vs_round := round; vs_blockHash := blockHash;
     vs_snapshot := snapshot; vs_prevotes := ∅; vs_precommits := ∅;
     vs_prevotePower := 0; vs_precommitPower := 0 |}.

Definition set_prevotes (power : Z) (votes : gmap Address Vote) (vs : VotingState) : VotingState :=
  {| vs_height := vs_height vs; vs_round := vs_round vs; vs_blockHash := vs_blockHash vs;
     vs_snapshot := vs_snapshot vs; vs_prevotes := votes; vs_precommits := vs_precommits vs;
     vs_prevotePower := power; vs_precommitPower := vs_precommitPower vs |}.

Definition set_precommits (power : Z) (votes : gmap Address Vote) (vs : VotingState) : VotingState :=
  {| vs_height := vs_height vs; vs_round := vs_round vs; vs_blockHash := vs_blockHash vs;
     vs_snapshot := vs_snapshot vs; vs_prevotes := vs_prevotes vs; vs_precommits := votes;
     vs_prevotePower := vs_prevotePower vs; vs_precommitPower := power |}.

Section voting.
Context `{Ed25519}.

(** The updated counter and map. The vote type is not looked at. *)
Definition addVote (vs : VotingState) (vote : Vote) (power : Z) (votes : gmap Address Vote)
  : res (Z * gmap Address Vote) :=
  if negb (v_Height vote =? vs_height vs) then Err (Errorf "vote height != expected") else
  if negb (v_Round vote =? vs_round vs) then Err (Errorf "vote round != expected") else
  if negb (bool_decide (v_BlockHash vote = vs_blockHash vs))
  then Err (Errorf "vote block hash != expected") else
  if bool_decide (is_Some (votes !! v_Validator vote))
  then Err (Errorf "duplicate vote from validator") else
  match ValidatorByID (vs_snapshot vs) (v_Validator vote) with
  | Ok val =>
      if negb (Vote_Verify vote (val_PublicKey val))
      then Err (Errorf "invalid vote signature from validator") else
      Ok (u64 (power + val_VotingPower val), <[v_Validator vote := vote]> votes)
  | Err _ => Err (Errorf "validator not in snapshot epoch")
  | Panic => Panic
  end.

Definition AddPrevote (vote : Vote) : go VotingState unit := λ vs,
  match addVote vs vote (vs_prevotePower vs) (vs_prevotes vs) with
  | Ok (power, votes) => (set_prevotes power votes vs, Ok tt)
  | Err e => (vs, Err e)
  | Panic => (vs, Panic)
  end.

Definition AddPrecommit (vote : Vote) : go VotingState unit := λ vs,
  match addVote vs vote (vs_precommitPower vs) (vs_precommits vs) with
  | Ok (power, votes) => (set_precommits power votes vs, Ok tt)
  | Err e => (vs, Err e)
  | Panic => (vs, Panic)
  end.
End voting.

(** Both products are [uint64] products. *)
Definition HasPrevoteMajority (vs : VotingState) : bool :=
  if snap_TotalPower (vs_snapshot vs) =? 0 then false else
  u64 (snap_TotalPower (vs_snapshot vs) * VotingThresholdNumerator)
    <=? u64 (vs_prevotePower vs * VotingThresholdDenominator).

Definition HasPrecommitMajority (vs : VotingState) : bool :=
  if snap_TotalPower (vs_snapshot vs) =? 0 then false else
  u64 (snap_TotalPower (vs_snapshot vs) * VotingThresholdNumerator)
    <=? u64 (vs_precommitPower vs * VotingThresholdDenominator).

(** The votes come out of the map in an arbitrary order and are then sorted. *)
Definition BuildCommitProof (vs : VotingState) : res CommitProof :=
  if negb (HasPrecommitMajority vs) then Err (Errorf "no precommit majority") else
  Ok {| c_Height := vs_height vs;
        c_BlockHash := vs_blockHash vs;
        c_Precommits := sort_slice (less_by (λ v, arr_bytes (v_Validator v)))
                          (map_to_list (vs_precommits vs)).*2;
        c_TotalPower := snap_TotalPower (vs_snapshot vs);
        c_SignedPower := vs_precommitPower vs;
        c_SetHash := snap_SetHash (vs_snapshot vs) |}.

(** [Prevotes], [Precommits]: the values of the maps, in an arbitrary order. *)
Definition Prevotes (vs : VotingState) : list Vote := (map_to_list (vs_prevotes vs)).*2.
Definition Precommits (vs : VotingState) : list Vote := (map_to_list (vs_precommits vs)).*2.

(** ** Checking the proof of a block *)

(** [for i := 1; ...]: no vote sorts before its predecessor. *)
Fixpoint precommits_sorted (l : list Vote) : bool :=
  match l with
  | [] => true
  | v :: l' =>
      match l' with
      | [] => true
      | w :: _ => negb (bytes_lt (v_Validator w) (v_Validator v)) && precommits_sorted l'
      end
  end.

Definition proof_error {A} (msg : string) : res A := Err (Wrapf msg ErrInvalidCommitProof).

Section commit_proof.
Context `{Ed25519}.

(** The loop over the precommits: [seen] and [accumulatedPower] are its
    variables; the result is the accumulated power. *)
Fixpoint check_precommits (snap : ValidatorSnapshot) (proof : CommitProof) (l : list Vote)
  (seen : gset Address) (accumulatedPower : Z) : res Z :=
  match l with
  | [] => Ok accumulatedPower
  | vote :: l' =>
      wrap_res "vote" (Vote_Validate vote);;
      if negb (v_VoteType vote =? VotePrecommit) then proof_error "vote is not a precommit" else
      if negb (v_Height vote =? c_Height proof) then proof_error "vote height mismatch" else
      if negb (bool_decide (v_BlockHash vote = c_BlockHash proof))
      then proof_error "vote block hash mismatch" else
      if bool_decide (v_Validator vote ∈ seen) then proof_error "duplicate validator" else
      match ValidatorByID snap (v_Validator vote) with
      | Ok val =>
          if negb (Vote_Verify vote (val_PublicKey val))
          then proof_error "invalid signature from validator" else
          check_precommits snap proof l' ({[v_Validator vote]} ∪ seen)
            (u64 (accumulatedPower + val_VotingPower val))
      | Err _ => proof_error "validator in commit proof"
      | Panic => Panic
      end
  end.

(** Everything [validateCommitProof] checks once it has the snapshot. *)
Definition check_proof (header : BlockHeader) (proof : CommitProof) (snap : ValidatorSnapshot)
  : res unit :=
  if negb (bool_decide (c_SetHash proof = snap_SetHash snap))
  then proof_error "set hash mismatch" else
  if negb (c_Height proof =? h_Height header) then proof_error "height mismatch" else
  expectedHash ← HeaderHash (H := SHA256Hasher) header;
  if negb (bool_decide (c_BlockHash proof = expectedHash))
  then proof_error "block hash mismatch" else
  if negb (c_TotalPower proof =? snap_TotalPower snap)
  then proof_error "total power mismatch" else
  if (length (snap_Validators snap) <? length (c_Precommits proof))%nat
  then proof_error "more precommits than validators" else
  if negb (precommits_sorted (c_Precommits proof))
  then proof_error "precommits not sorted by validator address" else
  accumulatedPower ← check_precommits snap proof (c_Precommits proof) ∅ 0;
  if negb (accumulatedPower =? c_SignedPower proof)
  then proof_error "signed power != accumulated" else
  if negb (HasTwoThirdsMajority proof) then Err (Wrapf "only power" ErrWrongValidatorSetHash)
  else Ok tt.

Definition validateCommitProof {S} `{KVStore S} (block : Block) (epoch : Z) : go S unit :=
  if h_Height (b_Header block) =? 0 then mret tt else
  match b_CommitProof block with
  | None => throw (Wrapf "nil proof" ErrInvalidCommitProof)
  | Some proof =>
      snap ← wrap "get snapshot" (GetSnapshot epoch);
      match snap with
      | None => throw (Wrapf "no snapshot for epoch" ErrInvalidCommitProof)
      | Some snap => lift (check_proof (b_Header block) proof snap)
      end
  end.
End commit_proof.

(** ** Weighted round-robin *)

Definition total_power (l : list Validator) : Z := zsum (val_VotingPower <$> l).

Definition powers_nonneg (l : list Validator) : Prop :=
  Forall (λ v, 0 <= val_VotingPower v) l.

Lemma total_power_cons v l : total_power (v :: l) = val_VotingPower v + total_power l.
Proof. reflexivity. Qed.

Lemma total_power_nonneg l : powers_nonneg l → 0 <= total_power l.
Proof. induction 1; [done|]. rewrite total_power_cons. lia. Qed.

Lemma sum_power_total l :
  powers_nonneg l → total_power l < 2 ^ 64 → sum_power l = total_power l.
Proof.
  intros Hp Ht. unfold sum_power. rewrite sum_power_spec; [done..|].
  fold (total_power l). by rewrite Z.add_0_l.
Qed.

(** The selection without machine arithmetic: the validator whose interval of
    the power range contains the offset. *)
Fixpoint pick (l : list Validator) (o : Z) : option Validator :=
  match l with
  | [] => None
  | v :: l' => if o <? val_VotingPower v then Some v else pick l' (o - val_VotingPower v)
  end.

Lemma weighted_scan_pick l o total c :
  powers_nonneg l → 0 <= c <= o → o < c + total_power l → c + total_power l < 2 ^ 64 →
  weighted_scan o total c l = val_ConsensusID <$> pick l (o - c).
Proof.
  intros Hp. revert c. induction Hp as [|v l Hv Hl IH]; intros c Hc Ho Ht.
  { unfold total_power in Ho. simpl in Ho. lia. }
  rewrite total_power_cons in *. pose proof (total_power_nonneg l Hl). cbn [weighted_scan pick].
  rewrite u64_small by (unfold is_u64; lia).
  destruct (Z.ltb_spec o (c + val_VotingPower v)), (Z.ltb_spec (o - c) (val_VotingPower v));
    [done|lia|lia|].
  rewrite bool_decide_false; cbn [andb].
  - rewrite IH by lia. do 2 f_equal. lia.
  - intros El. apply nil_length_inv in El as ->. unfold total_power in Ho. simpl in Ho. lia.
Qed.

(** How often the proposer with identity [id] is chosen. *)
Definition times (l : list Validator) (id : Address) (offsets : list Z) : Z :=
  Z.of_nat (length (filter (λ o, val_ConsensusID <$> pick l o = Some id) offsets)).

Lemma times_app l id a b : times l id (a ++ b) = times l id a + times l id b.
Proof. unfold times. rewrite filter_app, length_app. lia. Qed.

Lemma times_head v l id os :
  Forall (λ o, o < val_VotingPower v) os →
  times (v :: l) id os = if bool_decide (val_ConsensusID v = id) then Z.of_nat (length os) else 0.
Proof.
  unfold times. induction 1 as [|o os Ho _ IH]; [by case_bool_decide|].
  rewrite filter_cons. cbn [pick] in *. destruct (Z.ltb_spec o (val_VotingPower v)); [|lia].
  cbn [fmap option_fmap option_map]. case_bool_decide as Hid; case_decide; simplify_eq; simpl in *; lia.
Qed.

Lemma times_tail v l id os :
  0 <= val_VotingPower v → Forall (λ o, 0 <= o) os →
  times (v :: l) id ((λ o, val_VotingPower v + o) <$> os) = times l id os.
Proof.
  intros Hv. unfold times. induction 1 as [|o os Ho _ IH]; [done|]. rewrite fmap_cons, !filter_cons.
  cbn [pick] in *. destruct (Z.ltb_spec (val_VotingPower v + o) (val_VotingPower v)); [lia|].
  replace (val_VotingPower v + o - val_VotingPower v) with o by lia.
  case_decide; cbn [length]; lia.
Qed.

(** Over the whole power range, an identity is chosen as often as it has power. *)
Lemma times_range l id :
  powers_nonneg l →
  times l id (seqZ 0 (total_power l))
  = total_power (filter (λ v, val_ConsensusID v = id) l).
Proof.
  induction 1 as [|v l Hv Hl IH]; [done|].
  rewrite total_power_cons, seqZ_app by (try apply total_power_nonneg; done).
  rewrite times_app, times_head.
  2:{ apply Forall_forall. intros o Ho. apply elem_of_seqZ in Ho. lia. }
  replace (seqZ (0 + val_VotingPower v) (total_power l))
    with ((λ o, val_VotingPower v + o) <$> seqZ 0 (total_power l)).
  2:{ rewrite (fmap_add_seqZ (val_VotingPower v) 0). f_equal. lia. }
  rewrite times_tail, IH; [|done|].
  2:{ apply Forall_forall. intros o Ho. apply elem_of_seqZ in Ho. lia. }
  rewrite length_seqZ, filter_cons. case_bool_decide; case_decide; try done.
  rewrite total_power_cons. lia.
Qed.

Lemma filter_id_unique l v :
  NoDup (val_ConsensusID <$> l) → v ∈ l →
  filter (λ w, val_ConsensusID w = val_ConsensusID v) l = [v].
Proof.
  induction l as [|w l IH]; intros Hnd Hv; [by apply not_elem_of_nil in Hv|].
  rewrite fmap_cons in Hnd. apply NoDup_cons in Hnd as [Hw Hnd]. rewrite filter_cons.
  apply elem_of_cons in Hv as [->|Hv].
  - rewrite decide_True by done. f_equal.
    destruct (filter _ l) as [|x k] eqn:E; [done|].
    assert (x ∈ filter (λ u, val_ConsensusID u = val_ConsensusID w) l) as Hx by (rewrite E; left).
    apply list_elem_of_filter in Hx as [Hx Hin]. destruct Hw. rewrite <- Hx.
    by apply list_elem_of_fmap_2.
  - rewrite decide_False; [by apply IH|]. intros E. apply Hw. rewrite E. by apply list_elem_of_fmap_2.
Qed.

Lemma weighted_proposer_pick l h :
  powers_nonneg l → 0 < total_power l < 2 ^ 64 →
  ∃ v, pick l (h mod total_power l) = Some v ∧ v ∈ l ∧
    WeightedProposerAtHeight h l = Ok (val_ConsensusID v).
Proof.
  intros Hp Ht. pose proof (Z.mod_pos_bound h (total_power l) ltac:(lia)) as Ho.
  assert (∀ k o, powers_nonneg k → 0 <= o < total_power k → ∃ v, pick k o = Some v ∧ v ∈ k) as Hpick.
  { clear. intros k o Hk. revert o. induction Hk as [|v k Hv Hk IH]; intros o Ho.
    { unfold total_power in Ho. simpl in Ho. lia. }
    rewrite total_power_cons in Ho. cbn [pick]. destruct (Z.ltb_spec o (val_VotingPower v)).
    - exists v. split; [done|left].
    - destruct (IH (o - val_VotingPower v)) as (w & Hw & Hin); [lia|]. exists w. split; [done|by right]. }
  destruct (Hpick l _ Hp Ho) as (v & Hv & Hin). exists v. split; [done|]. split; [done|].
  unfold WeightedProposerAtHeight. rewrite bool_decide_false.
  2:{ intros E. apply nil_length_inv in E as ->. by apply not_elem_of_nil in Hin. }
  rewrite sum_power_total by (done || lia). rewrite (proj2 (Z.eqb_neq _ 0)) by lia.
  rewrite weighted_scan_pick by (done || lia). by rewrite Z.sub_0_r, Hv.
Qed.

(** The proposer depends on the height modulo the total power only. *)
Lemma proposer_mod l h :
  powers_nonneg l → 0 < total_power l < 2 ^ 64 →
  WeightedProposerAtHeight (h mod total_power l) l = WeightedProposerAtHeight h l.
Proof.
  intros Hp Ht. destruct (weighted_proposer_pick l h Hp Ht) as (v & Hv & _ & ->).
  destruct (weighted_proposer_pick l (h mod total_power l) Hp Ht) as (w & Hw & _ & ->).
  rewrite Z.mod_mod in Hw by lia. congruence.
Qed.

(** Every window of [n] numbers holds each residue once. *)
Lemma window_mod n a : 0 < n → (λ h, h mod n) <$> seqZ a n ≡ₚ seqZ 0 n.
Proof.
  intros Hn. pose proof (Z.div_mod a n ltac:(lia)) as Ea. pose proof (Z.mod_pos_bound a n Hn) as Hr.
  set (q := a / n) in *. set (r := a mod n) in *.
  assert (∀ b k len, 0 <= b → 0 <= len → b + len <= n → (λ h, h mod n) <$> seqZ (k * n + b) len = seqZ b len) as Hmod.
  { intros b k len Hb Hl Hbl. replace (seqZ (k * n + b) len) with (Z.add (k * n) <$> seqZ b len) by (rewrite fmap_add_seqZ; f_equal; lia).
    rewrite <- list_fmap_compose. transitivity (id <$> seqZ b len); [|apply list_fmap_id].
    apply list_fmap_ext. intros i x Hx. apply list_elem_of_lookup_2, elem_of_seqZ in Hx. cbn.
    rewrite Z.add_comm, Z.mod_add, Z.mod_small by lia. done. }
  assert (seqZ a n = seqZ (q * n + r) (n - r) ++ seqZ ((q + 1) * n + 0) r) as ->.
  { replace n with ((n - r) + r) at 1 by lia. rewrite seqZ_app by lia. f_equal; f_equal; lia. }
  rewrite fmap_app, !Hmod by lia. rewrite Permutation_app_comm.
  replace (seqZ 0 n) with (seqZ 0 (r + (n - r))) by (f_equal; lia). rewrite seqZ_app by lia. by rewrite Z.add_0_l.
Qed.

Lemma proposer_window l id a :
  powers_nonneg l → 0 < total_power l < 2 ^ 64 →
  length (filter (λ h, WeightedProposerAtHeight h l = Ok id) (seqZ a (total_power l)))
  = length (filter (λ h, WeightedProposerAtHeight h l = Ok id) (seqZ 0 (total_power l))).
Proof.
  intros Hp Ht. rewrite <- (window_mod (total_power l) a) by lia. induction (seqZ a (total_power l)) as [|h hs IH]; [done|].
  rewrite fmap_cons, !filter_cons, proposer_mod by done. case_decide; cbn [length]; by rewrite IH.
Qed.

(** In any window of [total_power l] heights aligned to it. *)
Lemma proposer_count l id k :
  powers_nonneg l → 0 < total_power l < 2 ^ 64 →
  Z.of_nat (length (filter (λ h, WeightedProposerAtHeight h l = Ok id)
    (seqZ (k * total_power l) (total_power l)))) = times l id (seqZ 0 (total_power l)).
Proof.
  intros Hp Ht. unfold times. f_equal.
  replace (seqZ (k * total_power l) (total_power l))
    with (Z.add (k * total_power l) <$> seqZ 0 (total_power l))
    by (rewrite fmap_add_seqZ; f_equal; lia).
  assert (Forall (λ o, 0 <= o < total_power l) (seqZ 0 (total_power l))) as Ho.
  { apply Forall_forall. intros o Ho. apply elem_of_seqZ in Ho. lia. }
  induction Ho as [|o os Ho _ IH]; [done|]. rewrite fmap_cons, !filter_cons.
  destruct (weighted_proposer_pick l (k * total_power l + o) Hp Ht) as (v & Hv & _ & ->).
  rewrite (Z.add_comm _ o), Z.mod_add, Z.mod_small in Hv by lia. rewrite Hv.
  cbn [fmap option_fmap option_map].
  destruct (decide (val_ConsensusID v = id)) as [Hid|Hid].
  - rewrite decide_True, decide_True by congruence. cbn [length]. by rewrite IH.
  - rewrite decide_False, decide_False by congruence. exact IH.
Qed.

(** ** Voting weight

    The power a set of identities has in a validator list. *)

Definition weight (X : gset Address) (l : list Validator) : Z :=
  total_power (filter (λ v, val_ConsensusID v ∈ X) l).

Lemma weight_empty l : weight ∅ l = 0.
Proof.
  unfold weight. induction l as [|v l IH]; [done|].
  rewrite filter_cons_False by set_solver. exact IH.
Qed.

Lemma weight_bounds l X : powers_nonneg l → 0 <= weight X l <= total_power l.
Proof.
  unfold weight. induction 1 as [|v l Hv _ IH]; [done|]. rewrite filter_cons.
  case_decide; rewrite ?total_power_cons; lia.
Qed.

(** Inclusion and exclusion. *)
Lemma weight_union l X Y : weight (X ∪ Y) l + weight (X ∩ Y) l = weight X l + weight Y l.
Proof.
  unfold weight. induction l as [|v l IH]; [done|]. rewrite !filter_cons.
  destruct (decide (val_ConsensusID v ∈ X)), (decide (val_ConsensusID v ∈ Y)),
    (decide (val_ConsensusID v ∈ X ∪ Y)) as [Hu|Hu], (decide (val_ConsensusID v ∈ X ∩ Y)) as [Hi|Hi];
    rewrite elem_of_union in Hu; rewrite elem_of_intersection in Hi;
    rewrite ?total_power_cons; first [lia|tauto].
Qed.

Lemma weight_insert l X v :
  NoDup (val_ConsensusID <$> l) → v ∈ l → val_ConsensusID v ∉ X →
  weight ({[val_ConsensusID v]} ∪ X) l = weight X l + val_VotingPower v.
Proof.
  intros Hnd Hv HX. pose proof (weight_union l {[val_ConsensusID v]} X) as Hu.
  assert (({[val_ConsensusID v]} : gset Address) ∩ X = ∅) as He by set_solver.
  rewrite He, weight_empty in Hu.
  assert (weight {[val_ConsensusID v]} l = val_VotingPower v); [|lia].
  unfold weight. rewrite (list_filter_iff _ (λ w, val_ConsensusID w = val_ConsensusID v))
    by (intros w; set_solver).
  rewrite filter_id_unique by done. unfold total_power. cbn. lia.
Qed.

(** A snapshot whose numbers are in range: distinct identities, the recorded
    total is the sum of the powers, and three times the total fits a [uint64]
    (so that the threshold products do not wrap). *)
Record snapshot_ok (snap : ValidatorSnapshot) : Prop := {
  sok_powers : powers_nonneg (snap_Validators snap);
  sok_nodup : NoDup (val_ConsensusID <$> snap_Validators snap);
  sok_total : snap_TotalPower snap = total_power (snap_Validators snap);
  sok_range : 3 * total_power (snap_Validators snap) < 2 ^ 64;
}.

Lemma ValidatorByID_elem snap id v :
  NoDup (val_ConsensusID <$> snap_Validators snap) →
  ValidatorByID snap id = Ok v ↔ v ∈ snap_Validators snap ∧ val_ConsensusID v = id.
Proof.
  intros Hnd. rewrite <- (buildIndexes_spec _ id v Hnd). unfold ValidatorByID.
  destruct (buildIndexes _ !! id); naive_solver.
Qed.

Lemma ValidatorByID_cases snap id :
  (∃ v, ValidatorByID snap id = Ok v) ∨ (∃ e, ValidatorByID snap id = Err e).
Proof. unfold ValidatorByID. destruct (buildIndexes _ !! id); eauto. Qed.

(** The power a voter adds to a counter that holds the weight of [X]. *)
Lemma weight_step snap X id val :
  snapshot_ok snap → ValidatorByID snap id = Ok val → id ∉ X →
  u64 (weight X (snap_Validators snap) + val_VotingPower val)
  = weight ({[id]} ∪ X) (snap_Validators snap).
Proof.
  intros [Hp Hnd _ Hr] Hv HX. apply ValidatorByID_elem in Hv as [Hv <-]; [|done].
  rewrite <- (weight_insert (snap_Validators snap) X val Hnd Hv HX). apply u64_small. unfold is_u64.
  pose proof (weight_bounds _ ({[val_ConsensusID val]} ∪ X) Hp). lia.
Qed.

(** ** What an accepted vote is *)

Section votes.
Context `{Ed25519}.

Definition signed_by (snap : ValidatorSnapshot) (v : Vote) : Prop :=
  ∃ val, ValidatorByID snap (v_Validator v) = Ok val ∧ Vote_Verify v (val_PublicKey val) = true.

(** *** Collection *)

Definition collected (vs : VotingState) (v : Vote) : Prop :=
  v_Height v = vs_height vs ∧ v_Round v = vs_round vs ∧ v_BlockHash v = vs_blockHash vs ∧
  signed_by (vs_snapshot vs) v.

Record tally_ok (vs : VotingState) (power : Z) (votes : gmap Address Vote) : Prop := {
  tally_votes a v : votes !! a = Some v → v_Validator v = a ∧ collected vs v;
  tally_power : power = weight (dom votes) (snap_Validators (vs_snapshot vs));
}.

Lemma addVote_ok vs vote power votes :
  snapshot_ok (vs_snapshot vs) → tally_ok vs power votes →
  match addVote vs vote power votes with
  | Ok (power', votes') =>
      votes !! v_Validator vote = None ∧ votes' = <[v_Validator vote := vote]> votes ∧
      tally_ok vs power' votes'
  | Err _ => ¬ (collected vs vote ∧ votes !! v_Validator vote = None)
  | Panic => False
  end.
Proof.
  intros Hok [Hvotes ->]. unfold addVote, collected.
  destruct (Z.eqb_spec (v_Height vote) (vs_height vs)); cbn [negb]; [|tauto].
  destruct (Z.eqb_spec (v_Round vote) (vs_round vs)); cbn [negb]; [|tauto].
  case_bool_decide; cbn [negb]; [|tauto].
  case_bool_decide as Hd; [rewrite <- not_eq_None_Some in Hd; tauto|].
  rewrite <- eq_None_not_Some in Hd.
  destruct (ValidatorByID_cases (vs_snapshot vs) (v_Validator vote)) as [[val Hv]|[er Hv]];
    rewrite Hv; [|intros [(_ & _ & _ & val & Hval & _) _]; congruence].
  destruct (Vote_Verify vote (val_PublicKey val)) eqn:Hsig; cbn [negb].
  2:{ intros [(_ & _ & _ & val' & Hval & Hs) _]. congruence. }
  split; [done|]. split; [done|]. split.
  - intros a v [[<- <-]|[_ Ha]]%lookup_insert_Some; [|by apply Hvotes].
    split; [done|]. split_and!; [done..|]. by exists val.
  - rewrite dom_insert_L. apply weight_step; [done..|]. by apply not_elem_of_dom.
Qed.

Lemma tally_ok_frame vs vs' power votes :
  tally_ok vs power votes →
  vs_height vs' = vs_height vs → vs_round vs' = vs_round vs →
  vs_blockHash vs' = vs_blockHash vs → vs_snapshot vs' = vs_snapshot vs →
  tally_ok vs' power votes.
Proof.
  intros [Hv Hw] Eh Er Eb Es. split; [|by rewrite Es].
  unfold collected. rewrite Eh, Er, Eb, Es. exact Hv.
Qed.

(** One call of a round: a vote handed to one of the two collectors. *)
Inductive vote_call := CastPrevote (v : Vote) | CastPrecommit (v : Vote).

Definition run_vote (c : vote_call) : go VotingState unit :=
  match c with CastPrevote v => AddPrevote v | CastPrecommit v => AddPrecommit v end.

(** The fields that never change, and the two tallies. *)
Record voting_ok (height round : Z) (hash : Hash) (snap : ValidatorSnapshot) (vs : VotingState)
  : Prop := {
  vok_height : vs_height vs = height;
  vok_round : vs_round vs = round;
  vok_hash : vs_blockHash vs = hash;
  vok_snap : vs_snapshot vs = snap;
  vok_prevotes : tally_ok vs (vs_prevotePower vs) (vs_prevotes vs);
  vok_precommits : tally_ok vs (vs_precommitPower vs) (vs_precommits vs);
}.

Lemma voting_ok_new height round hash snap :
  voting_ok height round hash snap (NewVotingState height round hash snap).
Proof. split; try done; (split; [done|]); simpl; by rewrite dom_empty_L, weight_empty. Qed.

Lemma voting_ok_step height round hash snap vs c :
  snapshot_ok snap → voting_ok height round hash snap vs →
  voting_ok height round hash snap (run_vote c vs).1.
Proof.
  intros Hok [Hh Hr Hb Hs Hpre Hcom]. rewrite <- Hs in Hok.
  destruct c as [v|v]; simpl; unfold AddPrevote, AddPrecommit;
    [pose proof (addVote_ok vs v _ _ Hok Hpre) as Ha|pose proof (addVote_ok vs v _ _ Hok Hcom) as Ha];
    destruct (addVote vs v _ _) as [[p m]|e|]; [|done|done| |done|done];
    destruct Ha as (_ & _ & Ha); split; try done; by apply (tally_ok_frame vs).
Qed.

Lemma voting_ok_reachable height round hash snap vs :
  snapshot_ok snap →
  rtc (λ a b, ∃ c, (run_vote c a).1 = b) (NewVotingState height round hash snap) vs →
  voting_ok height round hash snap vs.
Proof.
  intros Hok. remember (NewVotingState height round hash snap) as vs0 eqn:E0. intros Hrtc.
  assert (voting_ok height round hash snap vs0) as Hinit by (subst; apply voting_ok_new).
  clear E0. induction Hrtc as [|x y z [c <-] _ IH]; [done|]. by apply IH, voting_ok_step.
Qed.
End votes.

(** ** What an accepted proof is *)

Section accepted.
Context `{Ed25519}.

Definition counted (snap : ValidatorSnapshot) (proof : CommitProof) (v : Vote) : Prop :=
  Vote_Validate v = Ok tt ∧ v_VoteType v = VotePrecommit ∧ v_Height v = c_Height proof ∧
  v_BlockHash v = c_BlockHash proof ∧ signed_by snap v.

Definition signers (l : list Vote) : gset Address := list_to_set (v_Validator <$> l).

Lemma check_vote_inv snap proof v l seen acc P :
  check_precommits snap proof (v :: l) seen acc = Ok P →
  counted snap proof v ∧ (v_Validator v ∉ seen) ∧
  ∃ val, ValidatorByID snap (v_Validator v) = Ok val ∧
    check_precommits snap proof l ({[v_Validator v]} ∪ seen) (u64 (acc + val_VotingPower val)) = Ok P.
Proof.
  cbn [check_precommits]. unfold mbind, res_bind, wrap_res, proof_error.
  destruct (Vote_Validate v) as [[]|er|] eqn:Hval; [|done|done].
  destruct (Z.eqb_spec (v_VoteType v) VotePrecommit); cbn [negb]; [|done].
  destruct (Z.eqb_spec (v_Height v) (c_Height proof)); cbn [negb]; [|done].
  case_bool_decide; cbn [negb]; [|done]. case_bool_decide; [done|].
  destruct (ValidatorByID_cases snap (v_Validator v)) as [[val Hv]|[er Hv]]; rewrite Hv; [|done].
  destruct (Vote_Verify v (val_PublicKey val)) eqn:Hsig; cbn [negb]; [|done].
  intros Hrec. split; [|split; [done|by exists val]].
  split_and!; [done..|]. by exists val.
Qed.

Lemma check_vote_step snap proof v l seen acc val :
  counted snap proof v → v_Validator v ∉ seen → ValidatorByID snap (v_Validator v) = Ok val →
  check_precommits snap proof (v :: l) seen acc =
  check_precommits snap proof l ({[v_Validator v]} ∪ seen) (u64 (acc + val_VotingPower val)).
Proof.
  intros (Hval & Ht & Hh & Hb & val' & Hv' & Hsig) Hseen Hv.
  cbn [check_precommits]. unfold mbind, res_bind, wrap_res. rewrite Hval.
  rewrite (proj2 (Z.eqb_eq _ _) Ht), (proj2 (Z.eqb_eq _ _) Hh). cbn [negb].
  rewrite bool_decide_true by done. cbn [negb]. rewrite bool_decide_false by done.
  rewrite Hv. assert (val' = val) as -> by congruence. by rewrite Hsig.
Qed.

(** The loop accepts exactly the lists of counted votes of distinct
    validators, and returns their weight. *)
Lemma check_precommits_iff snap proof l seen P :
  snapshot_ok snap →
  check_precommits snap proof l seen (weight seen (snap_Validators snap)) = Ok P ↔
  Forall (counted snap proof) l ∧ NoDup (v_Validator <$> l) ∧
  Forall (λ v, v_Validator v ∉ seen) l ∧
  P = weight (signers l ∪ seen) (snap_Validators snap).
Proof.
  intros Hok. revert seen P. induction l as [|v l IH]; intros seen P.
  { cbn [check_precommits]. unfold signers. simpl. rewrite union_empty_l_L. split.
    - intros [= <-]. split_and!; try done. apply NoDup_nil_2.
    - by intros (_ & _ & _ & ->). }
  replace (signers (v :: l) ∪ seen) with (signers l ∪ ({[v_Validator v]} ∪ seen))
    by (unfold signers; rewrite fmap_cons, list_to_set_cons; clear; set_solver).
  rewrite fmap_cons, NoDup_cons, !Forall_cons. split.
  - intros Hc. apply check_vote_inv in Hc as (Hcount & Hseen & val & Hv & Hrec).
    rewrite (weight_step snap seen _ val) in Hrec by done.
    apply IH in Hrec as (Hall & Hnd & Hfresh & ->). split_and!; try done.
    + intros (w & E & Hw)%list_elem_of_fmap. rewrite Forall_forall in Hfresh.
      apply (Hfresh w Hw). rewrite <- E. set_solver.
    + eapply Forall_impl; [exact Hfresh|]. set_solver.
  - intros ([Hcount Hall] & [Hnv Hnd] & [Hseen Hfresh] & ->).
    pose proof Hcount as (_ & _ & _ & _ & val & Hv & _).
    rewrite (check_vote_step _ _ _ _ _ _ val) by done.
    rewrite (weight_step snap seen _ val) by done. apply IH. split_and!; try done.
    rewrite Forall_forall in Hfresh |- *. intros w Hw. specialize (Hfresh w Hw).
    rewrite elem_of_union, elem_of_singleton. intros [E|?]; [|done].
    apply Hnv. rewrite <- E. by apply list_elem_of_fmap_2.
Qed.

Lemma precommits_sorted_iff l :
  precommits_sorted l = true ↔
  StronglySorted (not_after (less_by (λ v : Vote, arr_bytes (v_Validator v)))) l.
Proof.
  transitivity (Sorted (not_after (less_by (λ v : Vote, arr_bytes (v_Validator v)))) l).
  - induction l as [|v [|w l] IH]; [by split; [constructor|]|by split; [repeat constructor|]|].
    cbn [precommits_sorted] in *. rewrite andb_true_iff, negb_true_iff, IH. split.
    + intros [Hlt Hs]. constructor; [exact Hs|]. constructor. exact Hlt.
    + intros Hs. apply Sorted_inv in Hs as [Hs Hh]. by inversion Hh.
  - split; [|apply StronglySorted_Sorted]. apply Sorted_StronglySorted.
    intros x y z. apply less_trans.
Qed.

(** The threshold in exact arithmetic. *)
Lemma two_thirds_iff c :
  0 <= c_SignedPower c <= c_TotalPower c → 3 * c_TotalPower c < 2 ^ 64 →
  HasTwoThirdsMajority c = true ↔ 0 < c_TotalPower c ∧ 2 * c_TotalPower c <= 3 * c_SignedPower c.
Proof.
  intros Hs Ht. unfold HasTwoThirdsMajority. rewrite !u64_small by (unfold is_u64; lia).
  destruct (Z.eqb_spec (c_TotalPower c) 0); [split; [done|lia]|]. rewrite Z.leb_le. lia.
Qed.

(** The declarative meaning of a valid proof for a block header. *)
Record valid_proof (header : BlockHeader) (proof : CommitProof) (snap : ValidatorSnapshot) : Prop := {
  vp_set : c_SetHash proof = snap_SetHash snap;
  vp_height : c_Height proof = h_Height header;
  vp_hash : c_BlockHash proof = Sum256 (header_preimage header);
  vp_total : c_TotalPower proof = snap_TotalPower snap;
  vp_sorted : StronglySorted (not_after (less_by (λ v : Vote, arr_bytes (v_Validator v))))
    (c_Precommits proof);
  vp_votes : Forall (counted snap proof) (c_Precommits proof);
  vp_distinct : NoDup (v_Validator <$> c_Precommits proof);
  vp_signed : c_SignedPower proof = weight (signers (c_Precommits proof)) (snap_Validators snap);
  vp_quorum : 0 < c_TotalPower proof ∧ 2 * c_TotalPower proof <= 3 * c_SignedPower proof;
}.

Lemma counted_length snap proof l :
  snapshot_ok snap → Forall (counted snap proof) l → NoDup (v_Validator <$> l) →
  (length l <= length (snap_Validators snap))%nat.
Proof.
  intros Hok Hl Hnd. rewrite <- (length_fmap v_Validator l), <- (length_fmap val_ConsensusID (snap_Validators snap)).
  apply submseteq_length, NoDup_submseteq; [done|]. intros a (v & -> & Hv)%list_elem_of_fmap.
  rewrite Forall_forall in Hl. destruct (Hl v Hv) as (_ & _ & _ & _ & val & Hval & _).
  apply ValidatorByID_elem in Hval as [Hin <-]; [|apply Hok]. by apply list_elem_of_fmap_2.
Qed.

Lemma check_proof_iff header proof snap :
  snapshot_ok snap → check_proof header proof snap = Ok tt ↔ valid_proof header proof snap.
Proof.
  intros Hok. pose proof (check_precommits_iff snap proof (c_Precommits proof) ∅) as Hiff.
  rewrite weight_empty in Hiff. unfold check_proof, proof_error.
  change (HeaderHash (H := SHA256Hasher) header) with (Ok (Sum256 (header_preimage header))).
  pose proof (weight_bounds _ (signers (c_Precommits proof)) (sok_powers _ Hok)) as Hw.
  pose proof (sok_range _ Hok) as Hr. pose proof (sok_total _ Hok) as Ht.
  cbn [mbind res_bind]. split.
  - case_bool_decide; cbn [negb]; [|done].
    destruct (Z.eqb_spec (c_Height proof) (h_Height header)); cbn [negb]; [|done].
    case_bool_decide; cbn [negb]; [|done].
    destruct (Z.eqb_spec (c_TotalPower proof) (snap_TotalPower snap)) as [Et|]; cbn [negb]; [|done].
    case_match; [done|]. destruct (precommits_sorted _) eqn:Hs; cbn [negb]; [|done].
    destruct (check_precommits _ _ _ _ _) as [P|er|] eqn:Hc; cbn [mbind res_bind]; [|done|done].
    destruct (proj1 (Hiff P Hok) eq_refl) as (Hall & Hnd & _ & ->). rewrite union_empty_r_L.
    destruct (Z.eqb_spec (weight (signers (c_Precommits proof)) (snap_Validators snap))
      (c_SignedPower proof)) as [Ep|]; cbn [negb]; [|done].
    destruct (HasTwoThirdsMajority proof) eqn:Hq; cbn [negb]; [|done]. intros _.
    apply two_thirds_iff in Hq; [|lia|lia]. split; try done. by apply precommits_sorted_iff.
  - intros [Es Eh Eb Et Hs Hall Hnd Ep Hq].
    rewrite bool_decide_true, (proj2 (Z.eqb_eq _ _) Eh) by done. cbn [negb].
    rewrite bool_decide_true, (proj2 (Z.eqb_eq _ _) Et) by done. cbn [negb].
    rewrite (proj2 (Nat.ltb_ge _ _)) by (by apply (counted_length snap proof)).
    rewrite (proj2 (precommits_sorted_iff _) Hs). cbn [negb].
    rewrite (proj2 (Hiff (c_SignedPower proof) Hok)).
    2:{ split_and!; try done; [|by rewrite union_empty_r_L]. apply Forall_forall. intros v _. apply not_elem_of_empty. }
    cbn [mbind res_bind]. rewrite Z.eqb_refl. cbn [negb].
    by rewrite (proj2 (two_thirds_iff proof ltac:(lia) ltac:(lia)) Hq).
Qed.
End accepted.

(** A tally becomes a list of counted votes when every vote in it is a
    well-formed precommit. *)
Lemma tally_counted `{Ed25519} vs proof (l : list Vote) :
  tally_ok vs (vs_precommitPower vs) (vs_precommits vs) →
  (∀ a v, vs_precommits vs !! a = Some v → Vote_Validate v = Ok tt ∧ v_VoteType v = VotePrecommit) →
  c_Height proof = vs_height vs → c_BlockHash proof = vs_blockHash vs →
  l ≡ₚ Precommits vs →
  Forall (counted (vs_snapshot vs) proof) l ∧ NoDup (v_Validator <$> l) ∧
  signers l = dom (vs_precommits vs).
Proof.
  intros [Hv _] Hwf Eh Eb Hl.
  assert (v_Validator <$> Precommits vs = (map_to_list (vs_precommits vs)).*1) as Hids.
  { unfold Precommits. rewrite <- list_fmap_compose. apply list_fmap_ext.
    intros i [a v] Hi. apply list_elem_of_lookup_2, elem_of_map_to_list in Hi. by apply (Hv a v). }
  split_and!.
  - apply Forall_forall. intros v Hin. rewrite Hl in Hin.
    apply list_elem_of_fmap in Hin as ([a w] & -> & Hin). apply elem_of_map_to_list in Hin.
    destruct (Hv a w Hin) as (_ & H1 & _ & H3 & H4), (Hwf a w Hin) as [H5 H6].
    simpl. split_and!; congruence.
  - rewrite Hl, Hids. apply NoDup_fst_map_to_list.
  - unfold signers. apply set_eq. intros a. rewrite Hl, Hids, elem_of_list_to_set.
    rewrite list_elem_of_fmap, elem_of_dom. split.
    + intros ([b v] & -> & Hin). apply elem_of_map_to_list in Hin. by exists v.
    + intros [v Hin]. exists (a, v). split; [done|]. by apply elem_of_map_to_list.
Qed.

(** The proof built from a round with a majority is valid. *)
Lemma built_proof_valid `{Ed25519} header round snap vs :
  snapshot_ok snap →
  voting_ok (h_Height header) round (Sum256 (header_preimage header)) snap vs →
  (∀ a v, vs_precommits vs !! a = Some v → Vote_Validate v = Ok tt ∧ v_VoteType v = VotePrecommit) →
  HasPrecommitMajority vs = true →
  ∃ proof, BuildCommitProof vs = Ok proof ∧ valid_proof header proof snap.
Proof.
  intros Hok [Eh _ Eb Es _ Hcom] Hwf Hmaj. unfold BuildCommitProof. rewrite Hmaj. cbn [negb].
  eexists. split; [reflexivity|].
  set (l := sort_slice _ _).
  assert (l ≡ₚ Precommits vs) as Hl by apply sort_slice_perm.
  match goal with |- valid_proof _ ?p _ =>
    destruct (tally_counted vs p l Hcom Hwf eq_refl eq_refl Hl) as (Hall & Hnd & Hdom) end.
  rewrite Es in Hall. pose proof (tally_power _ _ _ Hcom) as Hp. rewrite Es in Hp.
  pose proof (weight_bounds _ (dom (vs_precommits vs)) (sok_powers _ Hok)).
  pose proof (sok_total _ Hok). pose proof (sok_range _ Hok).
  split; cbn [c_SetHash c_Height c_BlockHash c_TotalPower c_Precommits c_SignedPower];
    rewrite ?Es; try assumption; try reflexivity.
  - apply sort_slice_sorted, _.
  - by rewrite Hdom.
  - apply (two_thirds_iff {| c_Height := vs_height vs; c_BlockHash := vs_blockHash vs;
      c_Precommits := l; c_TotalPower := snap_TotalPower snap;
      c_SignedPower := vs_precommitPower vs; c_SetHash := snap_SetHash snap |}).
    + cbn [c_TotalPower c_SignedPower]. lia.
    + cbn [c_TotalPower]. lia.
    + unfold HasPrecommitMajority in Hmaj. rewrite Es in Hmaj. exact Hmaj.
Qed.

(** ** Properties *)

(** C20: weighted round-robin is total and exactly fair, for validators with
    distinct identities and no negative power whose total power is positive and
    below 2^64. Every height has a proposer, which is one of the validators, and
    in each window of as many consecutive heights as there is total voting
    power, wherever it starts, every validator proposes exactly as many times as
    its voting power. *)
Theorem weighted_proposer_fair (l : list Validator) :
  powers_nonneg l → NoDup (val_ConsensusID <$> l) → 0 < total_power l < 2 ^ 64 →
  (∀ h, ∃ v, v ∈ l ∧ WeightedProposerAtHeight h l = Ok (val_ConsensusID v)) ∧
  (∀ v a, v ∈ l →
    Z.of_nat (length (filter (λ h, WeightedProposerAtHeight h l = Ok (val_ConsensusID v))
      (seqZ a (total_power l)))) = val_VotingPower v).
Proof.
  intros Hp Hnd Ht. split.
  - intros h. destruct (weighted_proposer_pick l h Hp Ht) as (v & _ & Hv & E). by exists v.
  - intros v a Hv. rewrite proposer_window by done.
    replace (seqZ 0 (total_power l)) with (seqZ (0 * total_power l) (total_power l)) by (f_equal; lia).
    rewrite proposer_count, times_range by done.
    rewrite filter_id_unique by done. unfold total_power. cbn. lia.
Qed.

(** C18: vote counting is exact over a snapshot whose validators have distinct
    identities and powers that are not negative and add up to the recorded
    total, three times which is below 2^64. Whatever sequence of prevotes and
    precommits a round receives, accepted or refused, the height, round, block hash and
    snapshot stay fixed, every stored vote is a correctly signed vote of the
    snapshot's validator it is filed under for this height, round and block, and
    each power counter is the total power of the distinct validators that voted. *)
Theorem votes_counted_exactly `{Ed25519} (height round : Z) (hash : Hash)
    (snap : ValidatorSnapshot) (vs : VotingState) :
  snapshot_ok snap →
  rtc (λ a b, ∃ c, (run_vote c a).1 = b) (NewVotingState height round hash snap) vs →
  voting_ok height round hash snap vs.
Proof. apply voting_ok_reachable. Qed.

(** C3: for a block above height 0 that carries a commit proof, and a stored
    snapshot whose validators have distinct identities and powers that are not
    negative and add up to the recorded total, three times which is below 2^64
    (beyond that the threshold wraps around, see [quorum_threshold_wraps]),
    [validateCommitProof] accepts the proof exactly when it is valid: it names
    the snapshot's set hash and total power and the block's height and hash, its
    precommits are sorted votes of distinct validators of the snapshot for that
    height and block with verifying signatures, the signed power is their total
    power, and that is at least two thirds of the whole. *)
Theorem commit_proof_accepted_iff `{Ed25519} {S} `{KVStore S} (s : S) (block : Block)
    (proof : CommitProof) (epoch : Z) (snap : ValidatorSnapshot) :
  h_Height (b_Header block) ≠ 0 → b_CommitProof block = Some proof →
  GetSnapshot epoch s = (s, Ok (Some snap)) → snapshot_ok snap →
  validateCommitProof block epoch s = (s, Ok tt) ↔ valid_proof (b_Header block) proof snap.
Proof.
  intros Hh Hp Hsnap Hok. unfold validateCommitProof.
  rewrite (proj2 (Z.eqb_neq _ 0) Hh), Hp.
  rewrite (go_bind_ok _ _ _ _ _ (wrap_ok _ _ _ _ _ Hsnap)).
  rewrite <- (check_proof_iff _ _ _ Hok). unfold lift. split; [by intros [= ->]|by intros ->].
Qed.

(** C2: accountable safety, for a snapshot whose validators have distinct
    identities and powers that are not negative and add up to the recorded
    total, three times which is below 2^64 (beyond that the threshold wraps
    around and a proof without votes passes, see [quorum_threshold_wraps]). Two
    accepted commit proofs of this snapshot for two blocks of one height with
    different hashes exhibit validators with at least a third of the total
    power, each of which signed a precommit for both blocks. *)
Theorem conflicting_commits_accountable `{Ed25519} (h1 h2 : BlockHeader) (p1 p2 : CommitProof)
    (snap : ValidatorSnapshot) :
  snapshot_ok snap → h_Height h1 = h_Height h2 → c_BlockHash p1 ≠ c_BlockHash p2 →
  check_proof h1 p1 snap = Ok tt → check_proof h2 p2 snap = Ok tt →
  ∃ culprits : gset Address,
    snap_TotalPower snap <= 3 * weight culprits (snap_Validators snap) ∧
    ∀ a, a ∈ culprits → ∃ val v1 v2,
      ValidatorByID snap a = Ok val ∧ v_Validator v1 = a ∧ v_Validator v2 = a ∧
      v_VoteType v1 = VotePrecommit ∧ v_VoteType v2 = VotePrecommit ∧
      v_Height v1 = v_Height v2 ∧ v_BlockHash v1 ≠ v_BlockHash v2 ∧
      Vote_Verify v1 (val_PublicKey val) = true ∧ Vote_Verify v2 (val_PublicKey val) = true.
Proof.
  intros Hok Hh Hne H1 H2. apply (check_proof_iff _ _ _ Hok) in H1, H2.
  destruct H1 as [_ Eh1 _ Et1 _ Hv1 _ Ep1 Hq1], H2 as [_ Eh2 _ Et2 _ Hv2 _ Ep2 Hq2].
  exists (signers (c_Precommits p1) ∩ signers (c_Precommits p2)). split.
  - pose proof (weight_union (snap_Validators snap) (signers (c_Precommits p1)) (signers (c_Precommits p2))).
    pose proof (weight_bounds _ (signers (c_Precommits p1) ∪ signers (c_Precommits p2)) (sok_powers _ Hok)).
    pose proof (sok_total _ Hok). lia.
  - intros a Ha. apply elem_of_intersection in Ha as [Ha1 Ha2].
    apply elem_of_list_to_set, list_elem_of_fmap in Ha1 as (v1 & E1 & Ha1).
    apply elem_of_list_to_set, list_elem_of_fmap in Ha2 as (v2 & E2 & Ha2).
    rewrite Forall_forall in Hv1, Hv2.
    destruct (Hv1 v1 Ha1) as (_ & T1 & G1 & B1 & val & L1 & S1).
    destruct (Hv2 v2 Ha2) as (_ & T2 & G2 & B2 & val' & L2 & S2).
    rewrite <- E1 in L1. rewrite <- E2 in L2. assert (val' = val) as -> by congruence.
    exists val, v1, v2. split_and!; congruence.
Qed.

(** C19: liveness of commitment. Once the precommits collected for a block reach
    the majority, [BuildCommitProof] succeeds and every node that has the same
    snapshot accepts the block with this proof, provided the block is above
    height 0, the snapshot has distinct identities and a recorded total of its
    powers of which three times is below 2^64, and the collected votes are
    well-formed votes of type precommit (the collector does not check that). *)
Theorem built_proof_accepted `{Ed25519} {S} `{KVStore S} (s : S) (block : Block) (round epoch : Z)
    (snap : ValidatorSnapshot) (vs : VotingState) :
  h_Height (b_Header block) ≠ 0 → snapshot_ok snap → GetSnapshot epoch s = (s, Ok (Some snap)) →
  rtc (λ a b, ∃ c, (run_vote c a).1 = b)
    (NewVotingState (h_Height (b_Header block)) round (Sum256 (header_preimage (b_Header block))) snap) vs →
  (∀ a v, vs_precommits vs !! a = Some v → Vote_Validate v = Ok tt ∧ v_VoteType v = VotePrecommit) →
  HasPrecommitMajority vs = true →
  ∃ proof, BuildCommitProof vs = Ok proof ∧
    (b_CommitProof block = Some proof → validateCommitProof block epoch s = (s, Ok tt)).
Proof.
  intros Hh Hok Hsnap Hrun Hwf Hmaj.
  apply (voting_ok_reachable _ _ _ _ _ Hok) in Hrun.
  destruct (built_proof_valid _ _ _ _ Hok Hrun Hwf Hmaj) as (proof & Hb & Hv).
  exists proof. split; [exact Hb|]. intros Hp. unfold validateCommitProof.
  rewrite (proj2 (Z.eqb_neq _ 0) Hh), Hp.
  rewrite (go_bind_ok _ _ _ _ _ (wrap_ok _ _ _ _ _ Hsnap)).
  unfold lift. apply f_equal. by apply check_proof_iff.
Qed.

(** The range condition on the total power is needed: with a total power
    of [2^63] the threshold product is zero in [uint64] arithmetic and a commit
    proof without a single vote is accepted. *)
Theorem quorum_threshold_wraps `{Ed25519} (header : BlockHeader) (snap : ValidatorSnapshot) :
  snap_TotalPower snap = 2 ^ 63 →
  check_proof header
    {| c_Height := h_Height header; c_BlockHash := Sum256 (header_preimage header);
       c_Precommits := []; c_TotalPower := 2 ^ 63; c_SignedPower := 0;
       c_SetHash := snap_SetHash snap |} snap = Ok tt.
Proof.
  intros Ht. unfold check_proof.
  change (HeaderHash (H := SHA256Hasher) header) with (Ok (Sum256 (header_preimage header))).
  cbn [c_SetHash c_Height c_BlockHash c_TotalPower c_Precommits c_SignedPower mbind res_bind].
  rewrite bool_decide_true, Z.eqb_refl, bool_decide_true, Ht by reflexivity. reflexivity.
Qed.

(** ** Examples *)

Definition voter (n power : Z) : Validator :=
  {| val_ConsensusID := addr_of n; val_PublicKey := sample_key n; val_OperatorAddress := addr_of n;
     val_RewardAddress := addr_of n; val_BondedStake := power; val_Status := ValidatorActive;
     val_CommissionRate := 0; val_VotingPower := power; val_JailedUntil := 0;
     val_ActivationEpoch := 0; val_UnstakeEpoch := 0 |}.

Definition voters : list Validator := [voter 1 3; voter 2 2; voter 3 1].

Definition voters_snap : ValidatorSnapshot :=
  {| snap_Epoch := 1; snap_Validators := voters; snap_TotalPower := 6; snap_SetHash := ZeroHash |}.

Lemma voters_ok : snapshot_ok voters_snap.
Proof.
  split; [apply (bool_decide_unpack _); vm_compute; exact I..|reflexivity|reflexivity].
Qed.

Definition example_header (n : Z) : BlockHeader :=
  {| h_Version := 1; h_Height := 7; h_PreviousHash := ZeroHash; h_StateRoot := ZeroHash;
     h_TxRoot := ZeroHash; h_ReceiptRoot := ZeroHash; h_ValidatorRoot := ZeroHash;
     h_ValidatorSetHash := ZeroHash; h_Epoch := 1; h_Timestamp := n; h_Proposer := addr_of 1;
     h_EventsRoot := ZeroHash |}.

(** The precommit of validator [n] for a header, signed with the example scheme. *)
Definition example_vote (header : BlockHeader) (n : Z) : Vote :=
  let v := {| v_VoteType := VotePrecommit; v_Height := h_Height header; v_Round := 0;
              v_BlockHash := Sum256 (header_preimage header); v_Validator := addr_of n;
              v_Signature := [] |} in
  match Vote_Sign (H := echo_ed25519) (sample_key n) v with Ok v' => v' | _ => v end.

Definition example_round (header : BlockHeader) : VotingState :=
  fold_left (λ vs c, (run_vote (H := echo_ed25519) c vs).1)
    [CastPrecommit (example_vote header 1); CastPrevote (example_vote header 3);
     CastPrecommit (example_vote header 1); CastPrecommit (example_vote header 2)]
    (NewVotingState 7 0 (Sum256 (header_preimage header)) voters_snap).

Definition example_proof (header : BlockHeader) : CommitProof :=
  match BuildCommitProof (example_round header) with
  | Ok p => p
  | _ => {| c_Height := 0; c_BlockHash := ZeroHash; c_Precommits := []; c_TotalPower := 0;
            c_SignedPower := 0; c_SetHash := ZeroHash |}
  end.

Definition example_block : Block :=
  {| b_Header := example_header 0; b_Transactions := []; b_FeeSummary := NewFeeSummary 0;
     b_Signature := []; b_CommitProof := Some (example_proof (example_header 0));
     b_Events := []; b_Evidence := [] |}.

Definition voters_store : InMemoryState :=
  kv_put (snapshotKey 1) (Snapshot_bytes voters_snap) NewInMemoryState.

Lemma voter_wf n power : 0 <= power < 2 ^ 64 → Validator_wf (voter n power).
Proof.
  intros Hp. split; cbn [voter val_BondedStake val_Status val_CommissionRate val_VotingPower
    val_JailedUntil val_ActivationEpoch val_UnstakeEpoch]; unfold amount_ok, is_u128, fits; cbn; try lia; by vm_compute.
Qed.

Lemma voters_stored : GetSnapshot 1 voters_store = (voters_store, Ok (Some voters_snap)).
Proof.
  apply GetSnapshot_stored; [unfold voters_store; store; by kv_simpl| |unfold Snapshot_fits; cbn; lia].
  split; [unfold fits; cbn; lia|cbn; lia| |unfold fits; cbn; lia].
  cbn [voters_snap snap_Validators]. unfold voters.
  repeat (apply Forall_cons; split; [apply voter_wf; lia|]). by apply Forall_nil.
Qed.

Lemma rtc_votes `{Ed25519} calls vs :
  rtc (λ a b, ∃ c, (run_vote c a).1 = b) vs (fold_left (λ vs c, (run_vote c vs).1) calls vs).
Proof.
  revert vs. induction calls as [|c calls IH]; intros vs; [apply rtc_refl|].
  eapply rtc_l; [by exists c|apply IH].
Qed.

Lemma weighted_proposer_fair_witness :
  length (filter (λ h, WeightedProposerAtHeight h voters = Ok (addr_of 2)) (seqZ 13 6)) = 2%nat.
Proof.
  destruct (weighted_proposer_fair voters) as [_ Hfair].
  - exact (sok_powers _ voters_ok).
  - exact (sok_nodup _ voters_ok).
  - split; vm_compute; reflexivity.
  - apply Nat2Z.inj. apply (Hfair (voter 2 2) 13). right. left.
Defined.

Lemma votes_counted_exactly_witness :
  voting_ok (H := echo_ed25519) 7 0 (Sum256 (header_preimage (example_header 0))) voters_snap
    (example_round (example_header 0)) ∧
  vs_precommitPower (example_round (example_header 0)) = 5.
Proof.
  split; [|vm_compute; reflexivity].
  apply (votes_counted_exactly (H := echo_ed25519)); [exact voters_ok|apply rtc_votes].
Defined.

Lemma commit_proof_accepted_iff_witness :
  valid_proof (H := echo_ed25519) (example_header 0) (example_proof (example_header 0)) voters_snap.
Proof.
  apply (commit_proof_accepted_iff (H := echo_ed25519) voters_store example_block _ 1).
  - cbn. lia.
  - reflexivity.
  - exact voters_stored.
  - exact voters_ok.
  - unfold validateCommitProof.
    change (h_Height (b_Header example_block) =? 0) with false.
    change (b_CommitProof example_block) with (Some (example_proof (example_header 0))).
    cbn [negb]. rewrite (go_bind_ok _ _ _ _ _ (wrap_ok _ _ _ _ _ voters_stored)).
    unfold lift. apply f_equal. vm_compute. reflexivity.
Defined.

Lemma conflicting_commits_accountable_witness :
  ∃ culprits : gset Address, 6 <= 3 * weight culprits voters.
Proof.
  destruct (conflicting_commits_accountable (H := echo_ed25519) (example_header 0) (example_header 1)
    (example_proof (example_header 0)) (example_proof (example_header 1)) voters_snap)
    as (culprits & Hw & _).
  - exact voters_ok.
  - reflexivity.
  - apply (bool_decide_unpack _). vm_compute. exact I.
  - vm_compute. reflexivity.
  - vm_compute. reflexivity.
  - exists culprits. exact Hw.
Defined.

Lemma built_proof_accepted_witness :
  validateCommitProof (H := echo_ed25519) example_block 1 voters_store = (voters_store, Ok tt).
Proof.
  destruct (built_proof_accepted (H := echo_ed25519) voters_store example_block 0 1 voters_snap
    (example_round (example_header 0))) as (proof & Hb & Hv).
  - cbn. lia.
  - exact voters_ok.
  - exact voters_stored.
  - apply rtc_votes.
  - assert (Forall (λ v, Vote_Validate v = Ok tt ∧ v_VoteType v = VotePrecommit)
      (Precommits (example_round (example_header 0)))) as Hall
      by (apply (bool_decide_unpack _); vm_compute; exact I).
    intros a v Ha. rewrite Forall_forall in Hall. apply Hall.
    apply list_elem_of_fmap. exists (a, v). split; [reflexivity|]. by apply elem_of_map_to_list.
  - vm_compute. reflexivity.
  - apply Hv. cbn [example_block b_CommitProof]. unfold example_proof. rewrite Hb. reflexivity.
Defined.

Lemma quorum_threshold_wraps_witness :
  check_proof (H := echo_ed25519) (example_header 0)
    {| c_Height := 7; c_BlockHash := Sum256 (header_preimage (example_header 0));
       c_Precommits := []; c_TotalPower := 2 ^ 63; c_SignedPower := 0; c_SetHash := ZeroHash |}
    {| snap_Epoch := 1; snap_Validators := [voter 1 (2 ^ 63)]; snap_TotalPower := 2 ^ 63;
       snap_SetHash := ZeroHash |} = Ok tt.
Proof. apply (quorum_threshold_wraps (H := echo_ed25519) (example_header 0)
  {| snap_Epoch := 1; snap_Validators := [voter 1 (2 ^ 63)]; snap_TotalPower := 2 ^ 63;
     snap_SetHash := ZeroHash |}). reflexivity. Defined.
