(* ===== verification/System.v ===== *)
(** * System transitions of a block (consensus/slashing.go, consensus/system.go)

    What consensus does to the state around the user transactions of a block:
    the evidence it carries is punished, [BeginBlock] runs the issuance, reward
    and epoch machinery at an epoch boundary and fixes the epoch's validator
    snapshot, and [FinalizeBlock] pays out the fees. *)

From S2P Require Import Prelude Codec Sha256 Address Amount Tx Votes Block Smt Store Keys State.
From S2P Require Import Validator Registry Applier Staking ValidatorSet Economics Epoch.

Section system.
Context {S : Type} `{KVStore S, AccountStore S}.

(** ** slashing.go *)

Definition IsEvidenceProcessed (evidenceHash : Hash) : go S bool :=
  val ← GetBytes (evidenceProcessedKey evidenceHash);
  mret (bool_decide (is_Some val)).

Definition MarkEvidenceProcessed (evidenceHash : Hash) (height : Z) : go S unit :=
  SetBytes (evidenceProcessedKey evidenceHash) (be 8 height).

Definition ProcessEvidence (ev : Evidence) (height : Z) : go S Address :=
  wrap "evidence validation" (lift (Evidence_Validate ev));;
  hash ← wrap "evidence hash" (lift (EvidenceHash (H := SHA256Hasher) ev));
  processed ← IsEvidenceProcessed hash;
  guard_err processed (Wrapf "evidence" ErrDuplicateEvidence);;
  match ev with
  | DoubleSignEvidence voteA _ =>
      val ← wrap "lookup validator" (GetValidator (v_Validator voteA));
      let validatorID := val_ConsensusID val in
      wrap "slash validator" (SlashValidator validatorID ev);;
      wrap "mark evidence processed" (MarkEvidenceProcessed hash height);;
      mret validatorID
  | _ => throw (Errorf "unsupported evidence type: only DoubleSignEvidence supported in v1")
  end.

Definition ProcessBlockEvidence (block : Block) : go S unit :=
  for_each (b_Evidence block) (λ ev,
    wrap "process evidence" (ProcessEvidence ev (h_Height (b_Header block)));; mret tt).

(** ** system.go *)

(** The work done when a height closes an epoch; blocks take one second. *)
Definition close_epoch (height : Z) : go S unit :=
  completedEpoch ← EpochAtHeight height;
  let blockTimeSec := 1 in
  blocksPerEpoch ← BlocksPerEpoch;
  wrap "issue epoch tokens" (IssueEpochTokens completedEpoch blockTimeSec blocksPerEpoch);;
  wrap "distribute validator rewards" (DistributeValidatorRewards completedEpoch);;
  wrap "epoch transition" (ProcessEpochTransition height).

Definition BeginBlock (height : Z) : go S (Z * Hash) :=
  if height =? 0 then mret (0, ZeroHash) else
  boundary ← IsEpochBoundary height;
  (if (boundary : bool) then close_epoch height else mret tt);;
  epoch ← wrap "current epoch" CurrentEpoch;
  snap ← wrap "get snapshot" (GetSnapshot epoch);
  snap ← match snap with
         | Some snap => mret snap
         | None => wrap "create snapshot" (CreateSnapshot epoch)
         end;
  mret (epoch, snap_SetHash snap).

Definition FinalizeBlock (block : Block) : go S unit :=
  if TotalFees (b_FeeSummary block) =? 0 then mret tt else
  let totalFees := NewAmount (TotalFees (b_FeeSummary block)) in
  DistributeRewards totalFees;; mret tt.
End system.

(** ** Frames *)

(** [frame_of ks]: the entries under the keys [ks] are untouched, and evidence
    that was processed stays marked. *)
Definition frame_of {S} `{KVStore S} (ks : list string) (s s' : S) : Prop :=
  Forall (λ k, kv_map s' !! k = kv_map s !! k) ks ∧
  ∀ h, is_Some (kv_map s !! evidenceProcessedKey h) → is_Some (kv_map s' !! evidenceProcessedKey h).

#[global] Instance frame_of_preorder {S} `{KVStore S} ks : PreOrder (frame_of (S := S) ks).
Proof.
  split.
  - intros s. split; [by apply Forall_forall|by intros h].
  - intros s1 s2 s3 [E1 M1] [E2 M2]. split; [|intros h Hh; by apply M2, M1].
    rewrite Forall_forall in *. intros k Hk. by rewrite E2, E1.
Qed.

Section frames.
Context {S : Type} `{StakingStore S} (ks : list string).

Lemma frame_of_set k v : Forall (λ k', k ≠ k') ks → preserves (frame_of (S := S) ks) (SetBytes k v).
Proof.
  intros Hk s. simpl. split.
  - eapply Forall_impl; [exact Hk|]. intros k' Hne. simpl. store. by rewrite lookup_insert_ne.
  - intros h Hh. store. rewrite lookup_insert. by case_decide.
Qed.

Lemma frame_of_del k :
  Forall (λ k', k ≠ k') ks → (∀ h, k ≠ evidenceProcessedKey h) →
  preserves (frame_of (S := S) ks) (DeleteBytes k).
Proof.
  intros Hk Hm s. simpl. split.
  - eapply Forall_impl; [exact Hk|]. intros k' Hne. simpl. store. by rewrite lookup_delete_ne.
  - intros h Hh. store. by rewrite lookup_delete_ne.
Qed.

Lemma frame_of_get k : preserves (frame_of (S := S) ks) (GetBytes k).
Proof. intros s. reflexivity. Qed.

Lemma frame_of_kv {A} (m : go S A) : preserves same_kv m → preserves (frame_of ks) m.
Proof.
  intros Hm s. split; [|intros h; by rewrite (Hm s)].
  apply Forall_forall. intros k _. by rewrite (Hm s).
Qed.
End frames.

(** The keys that the staking operations leave alone, and the one that the
    whole chain leaves alone. *)
Definition epoch_keys : list string := [keyBlocksPerEpoch; keyCurrentEpoch].
Definition length_key : list string := [keyBlocksPerEpoch].

(** [framed]: follow a program down to its updates of the store. *)
Ltac keys_ne := unfold epoch_keys, length_key; repeat (apply Forall_cons; split; [key_ne|]); by apply Forall_nil.
Ltac framed :=
  repeat first
    [ progress intros
    | apply frame_of_set; keys_ne
    | apply frame_of_del; [keys_ne|intros; key_ne]
    | apply frame_of_get
    | apply preserves_bind; [exact _|..]
    | apply preserves_wrap | apply preserves_try
    | apply preserves_for_each; [exact _|]
    | apply frame_of_kv; solve [auto with preserves]
    | solve [auto with nocore preserves typeclass_instances]
    | case_match ].

Section kv_frames.
Context {S : Type} `{StakingStore S}.
Implicit Types k : string.

Lemma read_GetBytes k : preserves (same_kv (S := S)) (GetBytes k).
Proof. by intros s. Qed.
Hint Resolve read_GetBytes : preserves.

Lemma read_GetValidator id : preserves (same_kv (S := S)) (GetValidator id).
Proof. unfold GetValidator. frame. Qed.
Lemma read_TotalBonded : preserves (same_kv (S := S)) TotalBonded.
Proof. unfold TotalBonded. frame. Qed.
Lemma read_ValidatorCount : preserves (same_kv (S := S)) ValidatorCount.
Proof. unfold ValidatorCount. frame. Qed.
Lemma read_CurrentEpoch : preserves (same_kv (S := S)) CurrentEpoch.
Proof. unfold CurrentEpoch. frame. Qed.
Lemma read_BlocksPerEpoch : preserves (same_kv (S := S)) BlocksPerEpoch.
Proof. unfold BlocksPerEpoch. frame. Qed.
Lemma read_GetSlashParams : preserves (same_kv (S := S)) GetSlashParams.
Proof. unfold GetSlashParams. frame. Qed.
Lemma read_readUint64 k : preserves (same_kv (S := S)) (readUint64 k).
Proof. unfold readUint64. frame. Qed.
Lemma read_GetSnapshot e : preserves (same_kv (S := S)) (GetSnapshot e).
Proof. unfold GetSnapshot. frame. Qed.
Lemma read_LatestSnapshotEpoch : preserves (same_kv (S := S)) LatestSnapshotEpoch.
Proof. unfold LatestSnapshotEpoch. frame. Qed.
Lemma read_validator_at_seq i : preserves (same_kv (S := S)) (validator_at_seq i).
Proof. pose proof read_GetValidator. unfold validator_at_seq, getValidatorIDBySeq. framed. Qed.
End kv_frames.

#[export] Hint Resolve read_GetBytes read_GetValidator read_TotalBonded read_ValidatorCount
  read_CurrentEpoch read_BlocksPerEpoch read_GetSlashParams read_readUint64 read_GetSnapshot
  read_LatestSnapshotEpoch read_validator_at_seq : preserves.

Section staking_frames.
Context {S : Type} `{StakingStore S}.

Lemma frame_collect l : preserves (same_kv (S := S)) (collect_active l).
Proof. induction l as [|x l IH]; simpl; framed. Qed.

Lemma frame_pay_reward x : preserves (same_kv (S := S)) (pay_reward x).
Proof. unfold pay_reward. framed. Qed.

Lemma frame_UpdateValidator v : preserves (frame_of (S := S) epoch_keys) (UpdateValidator v).
Proof. unfold UpdateValidator, store_validator. framed. Qed.

Lemma frame_setTotalBonded a : preserves (frame_of (S := S) epoch_keys) (setTotalBonded a).
Proof. unfold setTotalBonded. framed. Qed.

Lemma frame_ApplySlash id percent jail :
  preserves (frame_of (S := S) epoch_keys) (ApplySlash id percent jail).
Proof. pose proof frame_UpdateValidator. pose proof frame_setTotalBonded. unfold ApplySlash. framed. Qed.

Lemma frame_SlashValidator id ev : preserves (frame_of (S := S) epoch_keys) (SlashValidator id ev).
Proof. pose proof frame_ApplySlash. unfold SlashValidator. framed. Qed.

Lemma frame_run_call c : preserves (frame_of (S := S) epoch_keys) (run_call c).
Proof.
  pose proof frame_UpdateValidator. pose proof frame_setTotalBonded.
  destruct c; simpl; unfold RegisterValidator, ActivateValidator, JailValidator, UnjailValidator,
    StartUnstake, RemoveValidator, store_validator, setValidatorCount; framed.
Qed.

Lemma frame_ReleaseStake id : preserves (frame_of (S := S) epoch_keys) (ReleaseStake id).
Proof.
  pose proof (frame_run_call (CRemove id)) as Hr. simpl in Hr. unfold ReleaseStake. framed.
Qed.

Lemma frame_run_staking c : preserves (frame_of (S := S) epoch_keys) (run_staking c).
Proof.
  pose proof frame_UpdateValidator. pose proof frame_setTotalBonded.
  pose proof frame_ApplySlash. pose proof frame_SlashValidator. pose proof frame_run_call.
  pose proof frame_ReleaseStake. pose proof frame_collect. pose proof frame_pay_reward.
  destruct c; simpl; unfold Bond, Slash, DistributeRewards; framed.
Qed.
End staking_frames.

Section system_frames.
Context {S : Type} `{StakingStore S}.

Lemma frame_weaken {A} (m : go S A) :
  preserves (frame_of epoch_keys) m → preserves (frame_of length_key) m.
Proof.
  intros Hm s. destruct (Hm s) as [Hk Hh]. split; [|exact Hh].
  unfold epoch_keys in Hk. apply Forall_cons in Hk as [Hk _].
  apply Forall_cons. split; [exact Hk|by apply Forall_nil].
Qed.

Lemma frame_IssueEpochTokens e t b :
  preserves (frame_of (S := S) epoch_keys) (IssueEpochTokens e t b).
Proof. unfold IssueEpochTokens, CreditTreasury, writeUint64. framed. Qed.

Lemma frame_DistributeValidatorRewards e :
  preserves (frame_of (S := S) epoch_keys) (DistributeValidatorRewards e).
Proof. pose proof (frame_pay_reward (S := S)). unfold DistributeValidatorRewards. framed. Qed.

Lemma frame_sweep msg due act l :
  (∀ id, preserves (frame_of (S := S) epoch_keys) (act id)) →
  preserves (frame_of (S := S) epoch_keys) (sweep msg due act l).
Proof. intros Hact. unfold sweep. framed. Qed.

Lemma frame_CreateSnapshot e : preserves (frame_of (S := S) epoch_keys) (CreateSnapshot e).
Proof.
  pose proof (frame_collect (S := S)). unfold CreateSnapshot, GetActiveValidators, setLatestSnapshotEpoch.
  framed.
Qed.

Lemma frame_ProcessEvidence ev h : preserves (frame_of (S := S) epoch_keys) (ProcessEvidence ev h).
Proof.
  pose proof (frame_SlashValidator (S := S)).
  unfold ProcessEvidence, IsEvidenceProcessed, MarkEvidenceProcessed. framed.
Qed.

Lemma frame_ProcessEpochTransition h :
  preserves (frame_of (S := S) length_key) (ProcessEpochTransition h).
Proof.
  pose proof (frame_run_call (S := S)) as Hc. pose proof (frame_ReleaseStake (S := S)) as Hrel.
  assert (∀ e id, preserves (frame_of (S := S) epoch_keys) (ActivateValidator id e))
    by (intros e id; exact (Hc (CActivate id e))).
  assert (∀ id, preserves (frame_of (S := S) epoch_keys) (UnjailValidator id))
    by (intros id; exact (Hc (CUnjail id))).
  unfold ProcessEpochTransition, setCurrentEpoch, EpochAtHeight.
  repeat first [ apply preserves_bind; [exact _|intros..]
               | apply frame_weaken, frame_sweep; solve [auto] | progress framed ].
Qed.
End system_frames.

(** ** The life of a chain

    The states a chain goes through: blocks begin at consecutive heights, and
    between them staking operations and evidence change the state, successfully
    or not. *)
Inductive chain {S} `{KVStore S, AccountStore S} (bpe : Z) : S → Z → Prop :=
  | chain_genesis s :
      CurrentEpoch s = (s, Ok 0) → BlocksPerEpoch s = (s, Ok bpe) → chain bpe s 0
  | chain_staking s h c : chain bpe s h → chain bpe (run_staking c s).1 h
  | chain_evidence s h ev eh : chain bpe s h → chain bpe (ProcessEvidence ev eh s).1 h
  | chain_block s h s' out :
      chain bpe s h → BeginBlock (h + 1) s = (s', Ok out) → chain bpe s' (h + 1).

Section chain.
Context {S : Type} `{StakingStore S}.
Implicit Types s : S.

Lemma frame_run {A} ks (m : go S A) s s' o :
  preserves (frame_of ks) m → m s = (s', o) → frame_of ks s s'.
Proof. intros Hm E. specialize (Hm s). by rewrite E in Hm. Qed.

Lemma epoch_key_read s s' cur :
  frame_of epoch_keys s s' → CurrentEpoch s = (s, Ok cur) → CurrentEpoch s' = (s', Ok cur).
Proof.
  intros [Hk _] Hc. unfold epoch_keys in Hk. rewrite !Forall_cons in Hk.
  destruct Hk as (_ & Ec & _). rewrite CurrentEpoch_spec in *. injection Hc as Hc. by rewrite Ec, Hc.
Qed.

Lemma epoch_keys_read s s' cur bpe :
  frame_of epoch_keys s s' → CurrentEpoch s = (s, Ok cur) → BlocksPerEpoch s = (s, Ok bpe) →
  CurrentEpoch s' = (s', Ok cur) ∧ BlocksPerEpoch s' = (s', Ok bpe).
Proof.
  intros Hf Hc Hb. split; [by eapply epoch_key_read|]. destruct Hf as [Hk _].
  unfold epoch_keys in Hk. rewrite Forall_cons in Hk. destruct Hk as [Ek _].
  rewrite BlocksPerEpoch_spec in *. injection Hb as Hb. by rewrite Ek, Hb.
Qed.

Lemma length_key_read s s' bpe :
  frame_of length_key s s' → BlocksPerEpoch s = (s, Ok bpe) → BlocksPerEpoch s' = (s', Ok bpe).
Proof.
  intros [Hk _] Hb. unfold length_key in Hk. rewrite Forall_cons in Hk. destruct Hk as [Ek _].
  rewrite BlocksPerEpoch_spec in *. injection Hb as Hb. by rewrite Ek, Hb.
Qed.

Lemma transition_advances s s' h cur u :
  CurrentEpoch s = (s, Ok cur) → ProcessEpochTransition h s = (s', Ok u) →
  CurrentEpoch s' = (s', Ok (u64 (cur + 1))).
Proof.
  intros Hc Hrun. unfold ProcessEpochTransition in Hrun.
  rewrite (go_bind_ok _ _ _ _ _ Hc) in Hrun.
  repeat (apply go_bind_inv in Hrun as (? & ? & _ & Hrun)).
  unfold setCurrentEpoch, SetBytes in Hrun. injection Hrun as <- _.
  rewrite CurrentEpoch_spec. apply f_equal. store. kv_simpl. cbn [count_value].
  apply Uint64_be, fits_u64, u64_is_u64.
Qed.

Lemma close_epoch_advances s s' h cur bpe u :
  CurrentEpoch s = (s, Ok cur) → BlocksPerEpoch s = (s, Ok bpe) → close_epoch h s = (s', Ok u) →
  CurrentEpoch s' = (s', Ok (u64 (cur + 1))) ∧ BlocksPerEpoch s' = (s', Ok bpe).
Proof.
  intros Hc Hb Hrun. unfold close_epoch in Hrun.
  apply go_bind_inv in Hrun as (s1 & e & He & Hrun).
  assert (s1 = s) as ->.
  { unfold EpochAtHeight in He. destruct (h =? 0); [by injection He|].
    rewrite (go_bind_ok _ _ _ _ _ Hb) in He. by apply lift_inv in He as [-> _]. }
  rewrite (go_bind_ok _ _ _ _ _ Hb) in Hrun.
  apply go_bind_inv in Hrun as (s2 & i & Hi%wrap_inv & Hrun).
  apply go_bind_inv in Hrun as (s3 & j & Hd%wrap_inv & Ht%wrap_inv).
  apply frame_run with (ks := epoch_keys) in Hi; [|apply frame_IssueEpochTokens].
  apply frame_run with (ks := epoch_keys) in Hd; [|apply frame_DistributeValidatorRewards].
  destruct (epoch_keys_read _ _ _ _ Hi Hc Hb) as [Hc2 Hb2].
  destruct (epoch_keys_read _ _ _ _ Hd Hc2 Hb2) as [Hc3 Hb3].
  split; [by eapply transition_advances|].
  apply frame_run with (ks := length_key) in Ht; [|apply frame_ProcessEpochTransition].
  by eapply length_key_read.
Qed.

(** [BeginBlock] moves the counter exactly at the multiples of [bpe]. *)
Lemma BeginBlock_epoch s s' h bpe e hash :
  0 < bpe → 0 <= h < 2 ^ 64 - 1 →
  CurrentEpoch s = (s, Ok (h / bpe)) → BlocksPerEpoch s = (s, Ok bpe) →
  BeginBlock (h + 1) s = (s', Ok (e, hash)) →
  e = (h + 1) / bpe ∧ CurrentEpoch s' = (s', Ok e) ∧ BlocksPerEpoch s' = (s', Ok bpe).
Proof.
  intros Hpos Hh Hc Hb Hrun. unfold BeginBlock in Hrun.
  rewrite (proj2 (Z.eqb_neq (h + 1) 0)) in Hrun by lia.
  apply go_bind_inv in Hrun as (s1 & boundary & Hbd & Hrun).
  unfold IsEpochBoundary in Hbd. rewrite (proj2 (Z.eqb_neq (h + 1) 0)) in Hbd by lia.
  rewrite (go_bind_ok _ _ _ _ _ Hb) in Hbd. unfold umod in Hbd.
  rewrite (proj2 (Z.eqb_neq bpe 0)) in Hbd by lia. injection Hbd as <- <-.
  apply go_bind_inv in Hrun as (s2 & u & Hclose & Hrun).
  assert (CurrentEpoch s2 = (s2, Ok ((h + 1) / bpe)) ∧ BlocksPerEpoch s2 = (s2, Ok bpe)) as [Hc2 Hb2].
  { pose proof (Z.div_mod h bpe ltac:(lia)). pose proof (Z.mod_pos_bound h bpe Hpos).
    pose proof (Z.div_mod (h + 1) bpe ltac:(lia)). pose proof (Z.mod_pos_bound (h + 1) bpe Hpos).
    assert (0 <= h / bpe <= h) by (split; [apply Z.div_pos; lia|apply Z.div_le_upper_bound; nia]).
    destruct (Z.eqb_spec ((h + 1) mod bpe) 0).
    - destruct (close_epoch_advances _ _ _ _ _ _ Hc Hb Hclose) as [Hc2 Hb2].
      rewrite u64_small in Hc2 by (unfold is_u64; lia).
      replace ((h + 1) / bpe) with (h / bpe + 1); [done|].
      set (q := h / bpe) in *. set (q' := (h + 1) / bpe) in *. nia.
    - injection Hclose as <- _. replace ((h + 1) / bpe) with (h / bpe); [done|].
      set (q := h / bpe) in *. set (q' := (h + 1) / bpe) in *. nia. }
  rewrite (go_bind_ok _ _ _ _ _ (wrap_ok _ _ _ _ _ Hc2)) in Hrun.
  apply go_bind_inv in Hrun as (s3 & snap & Hsnap%wrap_inv & Hrun).
  apply frame_run with (ks := epoch_keys) in Hsnap; [|apply frame_of_kv, read_GetSnapshot].
  apply go_bind_inv in Hrun as (s4 & snap' & Hcr & Hrun). injection Hrun as <- <- _.
  assert (frame_of epoch_keys s3 s4) as Hf.
  { destruct snap as [sn|]; [by injection Hcr as <- _|]. apply wrap_inv in Hcr.
    apply frame_run with (ks := epoch_keys) in Hcr; [done|apply frame_CreateSnapshot]. }
  split; [done|]. eapply epoch_keys_read; [|exact Hc2|exact Hb2]. by etrans.
Qed.
End chain.

(** ** Properties *)

(** C17: the epoch counter of a chain. Whatever staking operations and evidence
    happen between the blocks, after the block at height [h] has begun the
    current epoch is [h / bpe]: it advances at every multiple of the epoch
    length and nowhere else. (Inside an epoch it is one less than the number
    that [EpochAtHeight] gives to the same height; the two agree only at the
    boundary.) *)
Theorem chain_epoch {S} `{StakingStore S} (bpe : Z) (s : S) (h : Z) :
  0 < bpe → h < 2 ^ 64 → chain bpe s h →
  0 <= h ∧ CurrentEpoch s = (s, Ok (h / bpe)) ∧ BlocksPerEpoch s = (s, Ok bpe).
Proof.
  intros Hpos Hh Hchain.
  induction Hchain as [s Hc Hb|s h c _ IH|s h ev eh _ IH|s h s' [e hash] _ IH Hrun].
  - by rewrite Z.div_0_l by lia.
  - destruct (IH Hh) as (Hh0 & Hc & Hb). split; [done|].
    eapply epoch_keys_read; [apply frame_run_staking|exact Hc|exact Hb].
  - destruct (IH Hh) as (Hh0 & Hc & Hb). split; [done|].
    eapply epoch_keys_read; [apply frame_ProcessEvidence|exact Hc|exact Hb].
  - destruct IH as (Hh0 & Hc & Hb); [lia|]. split; [lia|].
    destruct (BeginBlock_epoch s s' h bpe e hash Hpos ltac:(lia) Hc Hb Hrun) as (-> & Hc' & Hb').
    done.
Qed.

(** Evidence is punished at most once. Once a piece of evidence has been
    processed, it is refused as a duplicate, without any change of the state, in
    every later state of the chain, whatever staking operations, other evidence
    and epoch transitions happen in between. *)
Theorem evidence_processed_once {S} `{StakingStore S} (ev : Evidence) (h h' : Z) (id : Address) (s s1 s2 : S) :
  ProcessEvidence ev h s = (s1, Ok id) →
  rtc (λ a b, (∃ c, (run_staking c a).1 = b) ∨ (∃ ev' eh, (ProcessEvidence ev' eh a).1 = b) ∨
              (∃ hb, (ProcessEpochTransition hb a).1 = b)) s1 s2 →
  ProcessEvidence ev h' s2 = (s2, Err (Wrapf "evidence" ErrDuplicateEvidence)).
Proof.
  intros Hrun Hsteps. unfold ProcessEvidence in Hrun |- *.
  apply go_bind_inv in Hrun as (x & u & Hval & Hrun). go_step Hval. go_step Hval.
  apply go_bind_inv in Hrun as (x & hash & Hhash & Hrun). go_step Hhash. go_step Hhash.
  rewrite (go_bind_ok _ _ s2 s2 u) by (apply wrap_ok; unfold lift; by rewrite Hval).
  rewrite (go_bind_ok _ _ s2 s2 hash) by (apply wrap_ok; unfold lift; by rewrite Hhash).
  apply go_bind_inv in Hrun as (x & b & _ & Hrun). apply go_bind_inv in Hrun as (y & b' & _ & Hrun).
  assert (is_Some (kv_map s1 !! evidenceProcessedKey hash)) as Hmark.
  { destruct ev as [a b0| |]; [|discriminate Hrun|discriminate Hrun].
    do 2 (apply go_bind_inv in Hrun as (? & ? & _ & Hrun)).
    apply go_bind_inv in Hrun as (z & ? & Hm%wrap_inv & Hrun). injection Hrun as <- _.
    unfold MarkEvidenceProcessed, SetBytes in Hm. injection Hm as <- _. store. by kv_simpl. }
  assert (is_Some (kv_map s2 !! evidenceProcessedKey hash)) as Hmark2.
  { clear Hrun. induction Hsteps as [|a b1 c Hstep _ IH]; [done|]. apply IH.
    destruct Hstep as [[k <-]|[(ev' & eh & <-)|[hb <-]]].
    - by apply (frame_run_staking k a).
    - by apply (frame_ProcessEvidence ev' eh a).
    - by apply (frame_ProcessEpochTransition hb a). }
  rewrite (go_bind_ok _ _ s2 s2 true).
  - reflexivity.
  - unfold IsEvidenceProcessed, mbind, go_bind, GetBytes, gets. by rewrite bool_decide_true.
Qed.

(** The percentage for a double vote of the given type. *)
Definition double_vote_percent (p : SlashParams) (voteType : Z) : Z :=
  if voteType =? VotePrevote then PercentDoublePrevote p else PercentDoublePrecommit p.

Lemma double_sign_type a b :
  DoubleSignEvidence_Validate a b = Ok tt →
  v_Validator a = v_Validator b ∧ (v_VoteType a = VotePrevote ∨ v_VoteType a = VotePrecommit).
Proof.
  unfold DoubleSignEvidence_Validate, mbind, res_bind, wrap_res.
  destruct (Z.eqb_spec (v_VoteType a) (v_VoteType b)); cbn [negb]; [|done].
  case_bool_decide; cbn [negb]; [|done].
  destruct (v_Height a =? v_Height b); cbn [negb]; [|done].
  destruct (v_Round a =? v_Round b); cbn [negb]; [|done]. case_bool_decide; [done|].
  unfold Vote_Validate at 1. destruct (Z.eqb_spec (v_VoteType a) VotePrevote); [by split; [|left]|].
  destruct (Z.eqb_spec (v_VoteType a) VotePrecommit); [by split; [|right]|]. done.
Qed.

Section punish.
Context {S : Type} `{StakingStore S}.
Implicit Types s : S.

Lemma IsEvidenceProcessed_spec s hash :
  IsEvidenceProcessed hash s
  = (s, Ok (bool_decide (is_Some (kv_map s !! evidenceProcessedKey hash)))).
Proof. reflexivity. Qed.

Lemma SlashValidator_double s a b id params :
  (v_VoteType a = VotePrevote ∨ v_VoteType a = VotePrecommit) →
  GetSlashParams s = (s, Ok params) →
  SlashValidator id (DoubleSignEvidence a b) s
  = ApplySlash id (double_vote_percent params (v_VoteType a)) (JailEpochs params) s.
Proof.
  intros Ht Hp. unfold SlashValidator, double_vote_percent. cbn [OffenseFromEvidence].
  destruct Ht as [-> | ->]; cbn -[ApplySlash GetSlashParams]; unfold mbind at 1, go_bind at 1, lift at 1;
    by rewrite (go_bind_ok _ _ _ _ _ Hp).
Qed.

(** A slash, whatever its share. *)
Lemma ApplySlash_punishes s r id v percent jail epoch :
  Represents s r → vals r !! id = Some v → val_Status v ≠ ValidatorRemoved →
  0 <= percent <= 10000 → val_BondedStake v * 10000 < 2 ^ 64 →
  count_value (kv_map s !! keyCurrentEpoch) = Ok epoch →
  let r' := if decide (slash_share percent v = 0) then r
            else upd id (slashed percent (u64 (epoch + jail)) v) r in
  ∃ s', ApplySlash id percent jail s = (s', Ok tt) ∧ same_accounts s s' ∧ Represents s' r' ∧
    total_stake r' = total_stake r - slash_share percent v.
Proof.
  intros Hr Hv Hnr Hp Hsm Hep r'. unfold r'. case_decide as Hz.
  - exists s. rewrite (ApplySlash_nothing s r id v) by done. split_and!; try done. lia.
  - apply ApplySlash_ok; try done. pose proof (slash_share_range percent v) as Hsh.
    destruct (stake_nonneg s r id v Hr Hv). lia.
Qed.

(** Evidence that passed the checks: the slash and the mark. *)
Lemma ProcessEvidence_step s a b h hash v s1 :
  DoubleSignEvidence_Validate a b = Ok tt →
  EvidenceHash (H := SHA256Hasher) (DoubleSignEvidence a b) = Ok hash →
  kv_map s !! evidenceProcessedKey hash = None →
  GetValidator (v_Validator a) s = (s, Ok v) →
  SlashValidator (val_ConsensusID v) (DoubleSignEvidence a b) s = (s1, Ok tt) →
  ProcessEvidence (DoubleSignEvidence a b) h s
  = (kv_put (evidenceProcessedKey hash) (be 8 h) s1, Ok (val_ConsensusID v)).
Proof.
  intros Hval Hhash Hnew Hget Hslash. unfold ProcessEvidence.
  rewrite (go_bind_ok _ _ s s tt) by (apply wrap_ok; unfold lift; by rewrite <- Hval).
  rewrite (go_bind_ok _ _ s s hash) by (apply wrap_ok; unfold lift; by rewrite Hhash).
  rewrite (go_bind_ok _ _ s s false)
    by (unfold IsEvidenceProcessed, mbind, go_bind, GetBytes, gets; by rewrite Hnew).
  rewrite (go_bind_ok _ _ s s tt) by done.
  rewrite (go_bind_ok _ _ _ _ _ (wrap_ok _ _ _ _ _ Hget)). cbv zeta.
  by rewrite (go_bind_ok _ _ _ _ _ (wrap_ok _ _ _ _ _ Hslash)).
Qed.
End punish.

(** C21: the effect of double-sign evidence. Take a store that represents a
    registry, and two conflicting votes of a validator of the registry that has
    not been removed (same type, height and round, different blocks, not
    processed before). If the percentage for the type of the votes is at most
    10000 (basis points) and the validator's stake times 10000 is below 2^64,
    processing the evidence succeeds, marks it as processed and touches no
    account. The punishment depends on the share, the stake times the
    percentage divided by 10000 and rounded down. When the share is positive,
    the validator's stake and the total both fall by it, and an active
    validator is jailed until the current epoch plus the jail period (modulo
    2^64). When the share is zero (a zero percentage, or a small stake) nothing
    happens to the registry: the validator is neither slashed nor jailed. No
    hypothesis speaks of the signatures on the votes: they are not verified. *)
Theorem double_sign_punished {S} `{StakingStore S} (s : S) (r : registry) (a b : Vote)
    (h epoch : Z) (hash : Hash) (v : Validator) (params : SlashParams) :
  let id := v_Validator a in
  let percent := double_vote_percent params (v_VoteType a) in
  Represents s r → vals r !! id = Some v → val_Status v ≠ ValidatorRemoved →
  DoubleSignEvidence_Validate a b = Ok tt →
  EvidenceHash (H := SHA256Hasher) (DoubleSignEvidence a b) = Ok hash →
  IsEvidenceProcessed hash s = (s, Ok false) →
  GetSlashParams s = (s, Ok params) → 0 <= percent <= 10000 →
  val_BondedStake v * 10000 < 2 ^ 64 → CurrentEpoch s = (s, Ok epoch) →
  let r' := if decide (slash_share percent v = 0) then r
            else upd id (slashed percent (u64 (epoch + JailEpochs params)) v) r in
  ∃ s', ProcessEvidence (DoubleSignEvidence a b) h s = (s', Ok id) ∧
    Represents s' r' ∧ total_stake r' = total_stake r - slash_share percent v ∧
    IsEvidenceProcessed hash s' = (s', Ok true) ∧ same_accounts s s'.
Proof.
  intros id percent Hr Hv Hnr Hval Hhash Hnew Hparams Hpct Hsm Hep r'.
  rewrite CurrentEpoch_spec in Hep. injection Hep as Hep.
  destruct (double_sign_type a b Hval) as [_ Ht].
  destruct (ApplySlash_punishes s r id v percent (JailEpochs params) epoch Hr Hv Hnr Hpct Hsm Hep)
    as (s1 & Hslash & Ha & Hr1 & Htot).
  pose proof (GetValidator_spec s r id Hr) as Hget. rewrite Hv in Hget.
  assert (val_ConsensusID v = id) as Hid by (by destruct (rep_ok Hr id v Hv) as [[] _]).
  assert (kv_map s !! evidenceProcessedKey hash = None) as Hnone.
  { unfold IsEvidenceProcessed, mbind, go_bind, GetBytes, gets in Hnew. injection Hnew as Hnew.
    case_bool_decide as Hd; [done|]. by apply eq_None_not_Some. }
  eexists. split; [|split; [|split; [exact Htot|split]]].
  - rewrite <- Hid. apply (ProcessEvidence_step s a b h hash v s1); try done.
    rewrite Hid, (SlashValidator_double s a b id params Ht Hparams). exact Hslash.
  - apply (represents_frame s1); [done|]. store. other_key.
  - unfold IsEvidenceProcessed, mbind, go_bind, GetBytes, gets. store. by kv_simpl.
  - unfold same_accounts in *. by store.
Qed.

(** ** Examples *)

(** Two precommits of the active validator of the sample store, for different
    blocks, that nobody signed. *)
Definition forged_vote (n : Z) : Vote :=
  {| v_VoteType := VotePrecommit; v_Height := 5; v_Round := 0; v_BlockHash := arr_copy 32 (be 32 n);
     v_Validator := sample_id 1; v_Signature := [x00] |}.

(** The order of the two votes is not normalised: the same pair of
    conflicting votes, presented once as (A, B) and once as (B, A), is punished
    twice, and neither vote needs a genuine signature: the stake of 150000 falls
    to 135000 and then to 121500. *)
Theorem swapped_evidence_slashes_twice :
  ∃ s1 s2,
    ProcessEvidence (DoubleSignEvidence (forged_vote 1) (forged_vote 2)) 5 sample_store
      = (s1, Ok (sample_id 1)) ∧
    ProcessEvidence (DoubleSignEvidence (forged_vote 2) (forged_vote 1)) 5 s1
      = (s2, Ok (sample_id 1)) ∧
    (val_BondedStake <$> (GetValidator (sample_id 1) sample_store).2) = Ok 150000 ∧
    (val_BondedStake <$> (GetValidator (sample_id 1) s1).2) = Ok 135000 ∧
    (val_BondedStake <$> (GetValidator (sample_id 1) s2).2) = Ok 121500.
Proof.
  eexists _, _. split; [apply run_outcome; vm_compute; reflexivity|].
  split; [apply run_outcome; vm_compute; reflexivity|].
  split_and!; vm_compute; reflexivity.
Qed.

Definition short_epochs : InMemoryState := kv_put keyBlocksPerEpoch (be 8 1) sample_store.

Lemma chain_epoch_witness :
  ∃ s' : InMemoryState, chain 1 s' 1 ∧ CurrentEpoch s' = (s', Ok 1).
Proof.
  assert (∃ out, (BeginBlock 1 short_epochs).2 = Ok out) as [out Hout]
    by (eexists; vm_compute; reflexivity).
  assert (chain 1 (BeginBlock 1 short_epochs).1 1) as Hchain.
  { apply (chain_block 1 short_epochs 0 _ out); [|by apply run_outcome].
    apply chain_genesis.
    - rewrite CurrentEpoch_spec. apply f_equal. vm_compute. reflexivity.
    - rewrite BlocksPerEpoch_spec. apply f_equal. vm_compute. reflexivity. }
  exists (BeginBlock 1 short_epochs).1. split; [exact Hchain|].
  destruct (chain_epoch 1 (BeginBlock 1 short_epochs).1 1 ltac:(lia) ltac:(lia) Hchain) as (_ & Hc & _).
  rewrite Z.div_same in Hc by lia. exact Hc.
Defined.

Lemma evidence_processed_once_witness :
  ∃ s1, ProcessEvidence (DoubleSignEvidence (forged_vote 1) (forged_vote 2)) 5 sample_store
          = (s1, Ok (sample_id 1)) ∧
        ProcessEvidence (DoubleSignEvidence (forged_vote 1) (forged_vote 2)) 6 s1
          = (s1, Err (Wrapf "evidence" ErrDuplicateEvidence)).
Proof.
  assert (∃ s1, ProcessEvidence (DoubleSignEvidence (forged_vote 1) (forged_vote 2)) 5 sample_store
          = (s1, Ok (sample_id 1))) as [s1 Hs1]
    by (eexists; apply run_outcome; vm_compute; reflexivity).
  exists s1. split; [exact Hs1|].
  exact (evidence_processed_once _ 5 6 _ sample_store s1 s1 Hs1 (rtc_refl _ s1)).
Defined.

Lemma double_sign_punished_witness :
  ∃ s' v, ProcessEvidence (DoubleSignEvidence (forged_vote 1) (forged_vote 2)) 5 sample_store
            = (s', Ok (sample_id 1)) ∧
    Represents s' (upd (sample_id 1) (slashed 1000 (u64 (0 + 10)) v) sample_registry).
Proof.
  destruct sample_v1 as (v & Hv & Hs & Hb).
  assert (∃ hash, EvidenceHash (H := SHA256Hasher)
    (DoubleSignEvidence (forged_vote 1) (forged_vote 2)) = Ok hash ∧
    (IsEvidenceProcessed hash sample_store).2 = Ok false) as (hash & Hh & Hp)
    by (eexists; split; vm_compute; reflexivity).
  destruct (double_sign_punished sample_store sample_registry (forged_vote 1) (forged_vote 2) 5 0 hash v
    DefaultSlashParams) as (s' & Hrun & Hr & _).
  - exact sample_store_represents.
  - exact Hv.
  - rewrite Hs. discriminate.
  - vm_compute. reflexivity.
  - exact Hh.
  - rewrite IsEvidenceProcessed_spec in Hp |- *. exact (f_equal (pair sample_store) Hp).
  - unfold GetSlashParams, mbind, go_bind, GetBytes, gets.
    assert (kv_map sample_store !! keySlashParams = None) as -> by (vm_compute; reflexivity). reflexivity.
  - cbn. lia.
  - rewrite Hb. lia.
  - rewrite CurrentEpoch_spec. apply f_equal. vm_compute. reflexivity.
  - exists s', v. split; [exact Hrun|]. rewrite decide_False in Hr; [exact Hr|].
    unfold slash_share. rewrite Hb. vm_compute. discriminate.
Defined.
