(* ===== verification/BlockExec.v ===== *)
(** * Building and validating blocks (consensus/block_builder.go,
      consensus/block_validator.go)

    The proposer's and the validators' execution of a block. The virtual
    machine, the mempool, the signer and the clock are parameters: [vm] is the
    execution function of a VM or [None], [pending] what [PendingTxs] returns,
    [sign] the signer, and [clock i] the time when transaction [i] is
    validated (every validation of a transaction reads the clock). *)

From S2P Require Import Prelude Codec Sha256 Address Amount Tx Votes Block Smt Store Keys State.
From S2P Require Import Validator Registry Applier Staking ValidatorSet Economics Epoch Voting System.

(** ** The interface of the virtual machine (vm/vm.go) *)

Record ExecutionResult := mkExecutionResult {
  GasUsed : Z;
  ReturnData : bytes;
  Events : list Event;
  Reverted : bool;
  ContractAddress : option Address;
  GasLimit : Z;
}.

(** What [Execute] accepts. *)
Inductive contract_tx :=
  | DeployTx (tx : DeployContractTx)
  | CallTx (tx : CallContractTx).

(** [Execute(tx, st, blockHeight, blockTimestamp, txIndex)]. *)
Definition VM : Type := contract_tx → Z → Z → Z → go InMemoryState ExecutionResult.

(** ** Roots *)

(** [h, _ := hasher.Hash(data)] *)
Definition hash_bytes `{Hasher} (data : bytes) : Hash := hash_or_zero (hash_data data).

(** The error of [tx.Encode] is ignored: what was written is hashed. *)
Definition computeTxRoot `{Hasher} (txs : list Transaction) : Hash :=
  if bool_decide (length txs = 0%nat) then ZeroHash else
  hash_bytes (concat ((λ tx, arr_bytes (hash_bytes (run_writer (Transaction_Encode tx)).1)) <$> txs)).

Definition computeHashesRoot `{Hasher} (hashes : list Hash) : Hash :=
  if bool_decide (length hashes = 0%nat) then ZeroHash else
  hash_bytes (concat (arr_bytes <$> hashes)).

Definition chargeGas (sender : Address) (gasUsed : Z) : go InMemoryState unit :=
  let gasCost := NewAmount gasUsed in
  p ← wrap "get sender account" (GetAccount sender);
  acc ← deref p;
  guard_err (Amount_lt (acc_Balance acc) gasCost) (Errorf "insufficient balance for gas");;
  p ← mutate p (SubBalance gasCost);
  SetAccount sender p.

(** The validator's copy of [chargeGas]. *)
Definition chargeGasForValidate (sender : Address) (gasUsed : Z) : go InMemoryState unit :=
  let gasCost := NewAmount gasUsed in
  p ← wrap "get sender account" (GetAccount sender);
  acc ← deref p;
  guard_err (Amount_lt (acc_Balance acc) gasCost) (Errorf "insufficient balance for gas");;
  p ← mutate p (SubBalance gasCost);
  SetAccount sender p.

(** By sender, then by nonce. *)
Definition tx_less (a b : Transaction) : bool :=
  if negb (bool_decide (tx_Sender a = tx_Sender b)) then bytes_lt (tx_Sender a) (tx_Sender b)
  else tx_Nonce a <? tx_Nonce b.

(** A decoded contract transaction; [nil] only when the type differs. *)
Definition decoded {A} (r : res (option A)) : go InMemoryState A :=
  o ← lift r;
  match o with Some a => mret a | None => gopanic end.

Section exec.
Context `{Hasher} `{Ed25519} (vm : option VM).

(** ** Building *)

(** One turn of the loop: the receipt and the events of a transaction. *)
Definition build_tx (now height blockTimestamp : Z) (txIndex : Z) (tx : Transaction)
  : go InMemoryState (Hash * list Event) :=
  match vm with
  | Some execute =>
      if tx_TxType tx =? TxTypeDeployContract then
        contractTx ← wrap "decode deploy contract" (decoded (DeployContract tx));
        execResult ← wrap "vm execute deploy" (execute (DeployTx contractTx) height blockTimestamp txIndex);
        wrap "charge gas" (chargeGas (tx_Sender tx) (GasUsed execResult));;
        mret (tx_IntentID tx, if Reverted execResult then [] else Events execResult)
      else if tx_TxType tx =? TxTypeCallContract then
        contractTx ← wrap "decode call contract" (decoded (CallContract tx));
        execResult ← wrap "vm execute call" (execute (CallTx contractTx) height blockTimestamp txIndex);
        wrap "charge gas" (chargeGas (tx_Sender tx) (GasUsed execResult));;
        mret (tx_IntentID tx, if Reverted execResult then [] else Events execResult)
      else
        receipt ← ApplyTransaction now tx height;
        mret (receipt, [])
  | None =>
      receipt ← ApplyTransaction now tx height;
      mret (receipt, [])
  end.

(** The loop: [i] is the index of the first transaction of [l]; the result
    is the total of the fees (a [uint64]), the receipts and the events. *)
Fixpoint build_txs (clock : nat → Z) (height blockTimestamp : Z) (i : nat) (l : list Transaction)
  (totalFees : Z) (receipts : list Hash) (blockEvents : list Event)
  : go InMemoryState (Z * list Hash * list Event) :=
  match l with
  | [] => mret (totalFees, receipts, blockEvents)
  | tx :: l' =>
      r ← build_tx (clock i) height blockTimestamp (u32 (Z.of_nat i)) tx;
      build_txs clock height blockTimestamp (S i) l' (u64 (totalFees + tx_MaxFee tx))
        (receipts ++ [r.1]) (blockEvents ++ r.2)
  end.

(** A block with only the fields that [FinalizeBlock] reads. *)
Definition partial_block (totalFees : Z) : Block :=
  {| b_Header := {| h_Version := 0; h_Height := 0; h_PreviousHash := ZeroHash; h_StateRoot := ZeroHash;
                    h_TxRoot := ZeroHash; h_ReceiptRoot := ZeroHash; h_ValidatorRoot := ZeroHash;
                    h_ValidatorSetHash := ZeroHash; h_Epoch := 0; h_Timestamp := 0;
                    h_Proposer := ZeroAddress; h_EventsRoot := ZeroHash |};
     b_Transactions := []; b_FeeSummary := NewFeeSummary totalFees; b_Signature := [];
     b_CommitProof := None; b_Events := []; b_Evidence := [] |}.

(** The cut to [maxTxs] and the execution order. *)
Definition select_txs (pending : list Transaction) (maxTxs : nat) : list Transaction :=
  sort_slice tx_less (take maxTxs pending).

(** [EventsRoot] stays zero, [CommitProof] nil. *)
Definition BuildBlock (clock : nat → Z) (blockTimestamp headerTime : Z) (pending : list Transaction)
    (height : Z) (prevHash : Hash) (proposer : Address) (sign : Hash → res bytes)
    (maxTxs : nat) (evidence : list Evidence) : go InMemoryState Block :=
  for_each evidence (λ ev, wrap "process evidence" (ProcessEvidence ev height);; mret tt);;
  begun ← wrap "begin block" (BeginBlock height);
  let '(epoch, valSetHash) := begun in
  let txList := select_txs pending maxTxs in
  executed ← build_txs clock height blockTimestamp 0 txList 0 [] [];
  let '(totalFees, receipts, blockEvents) := executed in
  wrap "finalize block" (FinalizeBlock (partial_block totalFees));;
  stateRoot ← Commit;
  activeVals ← wrap "get active validators" GetActiveValidators;
  let header :=
    {| h_Version := 1; h_Height := height; h_PreviousHash := prevHash; h_StateRoot := stateRoot;
       h_TxRoot := computeTxRoot txList; h_ReceiptRoot := computeHashesRoot receipts;
       h_ValidatorRoot := ValidatorRoot (val_ConsensusID <$> activeVals);
       h_ValidatorSetHash := valSetHash; h_Epoch := epoch; h_Timestamp := headerTime;
       h_Proposer := proposer; h_EventsRoot := ZeroHash |} in
  headerHash ← lift (HeaderHash header);
  sig ← lift (sign headerHash);
  mret {| b_Header := header; b_Transactions := txList; b_FeeSummary := NewFeeSummary totalFees;
          b_Signature := sig; b_CommitProof := None; b_Events := blockEvents; b_Evidence := evidence |}.

(** ** Validating *)

Definition validate_tx (now height blockTimestamp : Z) (txIndex : Z) (tx : Transaction)
  : go InMemoryState (list Event) :=
  match vm with
  | Some execute =>
      if tx_TxType tx =? TxTypeDeployContract then
        contractTx ← wrap "decode deploy contract" (decoded (DeployContract tx));
        execResult ← wrap "vm execute deploy" (execute (DeployTx contractTx) height blockTimestamp txIndex);
        wrap "charge gas" (chargeGasForValidate (tx_Sender tx) (GasUsed execResult));;
        mret (if Reverted execResult then [] else Events execResult)
      else if tx_TxType tx =? TxTypeCallContract then
        contractTx ← wrap "decode call contract" (decoded (CallContract tx));
        execResult ← wrap "vm execute call" (execute (CallTx contractTx) height blockTimestamp txIndex);
        wrap "charge gas" (chargeGasForValidate (tx_Sender tx) (GasUsed execResult));;
        mret (if Reverted execResult then [] else Events execResult)
      else wrap "tx" (ApplyTransaction now tx height);; mret []
  | None => wrap "tx" (ApplyTransaction now tx height);; mret []
  end.

Fixpoint validate_txs (clock : nat → Z) (height blockTimestamp : Z) (i : nat) (l : list Transaction)
  (totalFees : Z) (allEvents : list Event) : go InMemoryState (Z * list Event) :=
  match l with
  | [] => mret (totalFees, allEvents)
  | tx :: l' =>
      evs ← validate_tx (clock i) height blockTimestamp (u32 (Z.of_nat i)) tx;
      validate_txs clock height blockTimestamp (S i) l' (u64 (totalFees + tx_MaxFee tx)) (allEvents ++ evs)
  end.

(** Steps 3 to 6: the header against the validator set. [CurrentEpoch]'s and
    [GetSnapshot]'s errors are dropped. *)
Definition check_header (header : BlockHeader) (activeVals : list Validator) (expectedEpoch : Z)
  : go InMemoryState unit :=
  guard_err (negb (h_Epoch header =? expectedEpoch)) (Wrapf "expected epoch" ErrWrongEpoch);;
  r ← try (GetSnapshot expectedEpoch);
  match r with
  | inr (Some snap) =>
      guard_err (negb (bool_decide (h_ValidatorSetHash header = snap_SetHash snap)))
        (Wrapf "expected set hash" ErrWrongValidatorSetHash);;
      guard_err (bool_decide (length activeVals = 0%nat))
        (Wrapf "no active validators in state" ErrWrongProposer);;
      expectedProposer ← lift (WeightedProposerAtHeight (h_Height header) activeVals);
      guard_err (negb (bool_decide (h_Proposer header = expectedProposer)))
        (Wrapf "expected proposer" ErrWrongProposer);;
      guard_err (negb (bool_decide (h_ValidatorRoot header
                                    = ValidatorRoot (val_ConsensusID <$> activeVals))))
        (Wrapf "expected root" ErrWrongValidatorRoot)
  | _ => throw (Errorf "no snapshot for epoch")
  end.

Definition ValidateBlock (clock : nat → Z) (block : Block) (parentHeader : BlockHeader)
    (expectedPrevHash : Hash) : go InMemoryState unit :=
  let header := b_Header block in
  guard_err (negb (h_Height header =? u64 (h_Height parentHeader + 1)))
    (Wrapf "expected height" ErrWrongHeight);;
  guard_err ((0 <? h_Height header) && negb (bool_decide (h_PreviousHash header = expectedPrevHash)))
    (Wrapf "expected previous hash" ErrWrongPreviousHash);;
  for_each (b_Evidence block) (λ ev,
    wrap "process evidence" (ProcessEvidence ev (h_Height header));; mret tt);;
  wrap "begin block" (BeginBlock (h_Height header));;
  activeVals ← wrap "get active validators" GetActiveValidators;
  expectedEpoch ← CurrentEpoch;
  check_header header activeVals expectedEpoch;;
  guard_err (bool_decide (length (b_Signature block) = 0%nat)) ErrInvalidBlockSignature;;
  executed ← validate_txs clock (h_Height header) (h_Timestamp header) 0 (b_Transactions block) 0 [];
  let '(totalFees, allEvents) := executed in
  wrap "finalize block" (FinalizeBlock (partial_block totalFees));;
  guard_err (negb (bool_decide (ComputeEventsRoot allEvents = h_EventsRoot header)))
    (Wrapf "computed events root" ErrEventsRootMismatch);;
  stateRoot ← Commit;
  guard_err (negb (bool_decide (stateRoot = h_StateRoot header)))
    (Wrapf "computed state root" ErrStateRootMismatch);;
  guard_err (negb (bool_decide (computeTxRoot (b_Transactions block) = h_TxRoot header)))
    (Wrapf "computed transaction root" ErrTxRootMismatch);;
  guard_err (negb (bool_decide (NewFeeSummary totalFees = b_FeeSummary block)))
    (Wrapf "computed fees" ErrFeeSummaryMismatch);;
  wrap "commit proof" (validateCommitProof block expectedEpoch).
End exec.

(** ** Read-only calls

    [reader m]: [m] changes nothing and its result depends only on the
    key-value store. *)
Definition reader {S A} `{KVStore S} (m : go S A) : Prop :=
  ∀ s s', kv_map s = kv_map s' → (m s).1 = s ∧ (m s).2 = (m s').2.

Section reader.
Context {S : Type} `{KVStore S}.

Lemma reader_bind {A B} (m : go S A) (f : A → go S B) :
  reader m → (∀ a, reader (f a)) → reader (m ≫= f).
Proof.
  intros Hm Hf s s' E. destruct (Hm s s' E) as [H1 H2]. destruct (Hm s' s (eq_sym E)) as [H1' _].
  unfold mbind, go_bind. destruct (m s) as [t r], (m s') as [t' r']. simpl in *. subst.
  destruct r' as [a|e|]; [|done|done]. by apply Hf.
Qed.

Lemma reader_ret {A} (a : A) : reader (mret a : go S A).
Proof. by intros s s'. Qed.
Lemma reader_lift {A} (r : res A) : reader (lift r : go S A).
Proof. by intros s s'. Qed.
Lemma reader_throw {A} e : reader (throw e : go S A).
Proof. by intros s s'. Qed.
Lemma reader_guard c e : reader (guard_err c e : go S unit).
Proof. by intros s s'; destruct c. Qed.
Lemma reader_get k : reader (GetBytes k : go S _).
Proof. intros s s' E. simpl. by rewrite E. Qed.
Lemma reader_wrap {A} msg (m : go S A) : reader m → reader (wrap msg m).
Proof.
  intros Hm s s' E. destruct (Hm s s' E) as [H1 H2]. destruct (Hm s' s (eq_sym E)) as [H1' _].
  unfold wrap. destruct (m s) as [t r], (m s') as [t' r']. simpl in *. subst. by destruct r'.
Qed.
Lemma reader_try {A} (m : go S A) : reader m → reader (try m).
Proof.
  intros Hm s s' E. destruct (Hm s s' E) as [H1 H2]. destruct (Hm s' s (eq_sym E)) as [H1' _].
  unfold try. destruct (m s) as [t r], (m s') as [t' r']. simpl in *. subst. by destruct r'.
Qed.

Lemma reader_transport {A} (m : go S A) s s' a :
  reader m → kv_map s = kv_map s' → m s = (s, a) → m s' = (s', a).
Proof.
  intros Hm E Hs. destruct (Hm s s' E) as [_ H2]. destruct (Hm s' s (eq_sym E)) as [H1 _].
  rewrite Hs in H2. destruct (m s') as [t r]. simpl in *. by subst.
Qed.

Lemma reader_state {A} (m : go S A) s s' r : reader m → m s = (s', r) → s' = s.
Proof. intros Hm E. destruct (Hm s s eq_refl) as [H1 _]. by rewrite E in H1. Qed.
End reader.

Lemma reader_run {S A} `{KVStore S} (m : go S A) s r : reader m → (m s).2 = r → m s = (s, r).
Proof. intros Hm E. destruct (Hm s s eq_refl) as [H1 _]. destruct (m s). simpl in *. by subst. Qed.

(** [reads]: a program built from reads is a reader. *)
Ltac reads :=
  repeat first
    [ progress intros
    | apply reader_ret | apply reader_lift | apply reader_throw | apply reader_guard | apply reader_get
    | apply reader_wrap | apply reader_try | apply reader_bind | assumption | case_match ].

Section readers.
Context {S : Type} `{KVStore S}.

Lemma reader_collect l : reader (collect_active l : go S _).
Proof.
  induction l as [|x l IH]; simpl; [apply reader_ret|].
  unfold validator_at_seq, getValidatorIDBySeq, GetValidator. reads.
Qed.

Lemma reader_GetActiveValidators : reader (GetActiveValidators : go S _).
Proof. pose proof reader_collect. unfold GetActiveValidators, ValidatorCount. reads. apply H0. Qed.

Lemma reader_CurrentEpoch : reader (CurrentEpoch : go S _).
Proof. unfold CurrentEpoch. reads. Qed.

Lemma reader_GetSnapshot e : reader (GetSnapshot e : go S _).
Proof. unfold GetSnapshot. reads. Qed.
End readers.

(** ** Snapshots read back

    Whatever the store holds, the validators decoded from it are well formed,
    so the snapshot that [CreateSnapshot] returns is the one [GetSnapshot]
    finds. *)

Lemma Amount_Unmarshal_ok b a : Amount_UnmarshalBinary b = Ok a → amount_ok a.
Proof.
  unfold Amount_UnmarshalBinary. case_bool_decide; [done|]. intros [= <-].
  pose proof (unbe_range b) as Hr. unfold amount_ok, is_u128.
  assert (256 ^ Z.of_nat (length b) <= 256 ^ 16) by (apply Z.pow_le_mono_r; lia).
  change (2 ^ 128) with (256 ^ 16). lia.
Qed.

Lemma Validator_Decode_wf inp rest v : Validator_Decode inp = (rest, Ok v) → Validator_wf v.
Proof.
  unfold Validator_Decode. intros Hr.
  repeat match type of Hr with
  | (mbind _ _) _ = _ => apply go_bind_inv in Hr as (? & ? & ? & Hr)
  end.
  apply go_ret_inv in Hr as [_ ->].
  repeat match goal with
  | E : read_uint _ _ = _ |- _ => apply read_uint_fits in E
  | E : lift _ _ = _ |- _ => apply lift_inv in E as [-> E]
  end.
  split; cbn [val_BondedStake val_Status val_CommissionRate val_VotingPower val_JailedUntil
    val_ActivationEpoch val_UnstakeEpoch]; try assumption.
  match goal with E : Amount_UnmarshalBinary _ = Ok _ |- _ => exact (Amount_Unmarshal_ok _ _ E) end.
Qed.

Section read_back.
Context {S : Type} `{StakingStore S}.
Implicit Types s : S.

Lemma GetValidator_wf s s' id v : GetValidator id s = (s', Ok v) → Validator_wf v.
Proof.
  unfold GetValidator. intros Hr. apply go_bind_inv in Hr as (s1 & o & _ & Hr).
  destruct o as [b|]; [|done]. apply lift_inv in Hr as [_ Hr]. unfold run_reader in Hr.
  destruct (Validator_Decode b) as [rest r] eqn:E. simpl in Hr. subst. by eapply Validator_Decode_wf.
Qed.

Lemma collect_active_wf l s s' vs :
  collect_active l s = (s', Ok vs) → Forall Validator_wf vs ∧ (length vs <= length l)%nat.
Proof.
  revert s s' vs. induction l as [|x l IH]; intros s s' vs Hr; simpl in Hr.
  { injection Hr as _ <-. split; [by apply Forall_nil|done]. }
  apply go_bind_inv in Hr as (s1 & o & Ho & Hr). apply go_bind_inv in Hr as (s2 & rest & Hrest & Hr).
  apply IH in Hrest as [Hwf Hlen]. injection Hr as _ <-.
  destruct o as [[id v]|]; [|cbn [length]; split; [done|lia]].
  case_match; [|cbn [length]; split; [done|lia]]. cbn [length]. split; [|lia].
  apply Forall_cons. split; [|done].
  unfold validator_at_seq in Ho. apply go_bind_inv in Ho as (t & r & _ & Ho).
  destruct r as [er|cid]; [done|]. apply go_bind_inv in Ho as (t' & r & Hv & Ho).
  destruct r as [er|w]; [done|]. injection Ho as _ _ ->. unfold try in Hv.
  destruct (GetValidator cid t) as [t'' [w|er|]] eqn:E; [|done|done]. injection Hv as _ ->.
  by eapply GetValidator_wf.
Qed.

Lemma CurrentEpoch_fits s s' e : CurrentEpoch s = (s', Ok e) → fits 8 e.
Proof.
  rewrite CurrentEpoch_spec. intros [= _ E]. unfold count_value in E.
  destruct (kv_map s !! keyCurrentEpoch) as [b|].
  - unfold Uint64 in E. case_bool_decide; [done|]. injection E as <-. apply unbe_fits.
    rewrite length_take. lia.
  - injection E as <-. unfold fits. lia.
Qed.

Lemma GetActiveValidators_wf s s' vs :
  GetActiveValidators s = (s', Ok vs) → Forall Validator_wf vs ∧ Z.of_nat (length vs) < 2 ^ 64.
Proof.
  unfold GetActiveValidators. intros Hr. apply go_bind_inv in Hr as (s1 & count & Hc & Hr).
  apply go_bind_inv in Hr as (s2 & l & Hl & Hr). injection Hr as _ <-.
  apply collect_active_wf in Hl as [Hwf Hlen]. rewrite sort_slice_length, sort_slice_perm.
  split; [done|]. unfold seqs in Hlen. rewrite length_fmap, length_seq in Hlen.
  rewrite ValidatorCount_spec in Hc. injection Hc as _ Hc.
  assert (fits 8 count) as Hf; [|unfold fits in Hf; change (256 ^ Z.of_nat 8) with (2 ^ 64) in Hf; lia].
  unfold count_value in Hc. destruct (kv_map s !! keyValidatorCount) as [b|].
  - unfold Uint64 in Hc. case_bool_decide; [done|]. injection Hc as <-. apply unbe_fits.
    rewrite length_take. lia.
  - injection Hc as <-. unfold fits. lia.
Qed.

Lemma CreateSnapshot_read_back s s' e snap :
  fits 8 e → CreateSnapshot e s = (s', Ok snap) →
  ∀ s'' o, kv_map s'' = kv_map s' → GetSnapshot e s'' = (s'', Ok o) → o = Some snap.
Proof.
  intros He Hr s'' o Hkv Hget. unfold CreateSnapshot in Hr.
  apply go_bind_inv in Hr as (s1 & active & Hact%wrap_inv & Hr).
  apply GetActiveValidators_wf in Hact as [Hwf Hlen].
  apply go_bind_inv in Hr as (s2 & hash & _ & Hr).
  apply go_bind_inv in Hr as (s3 & data & Hd%wrap_inv & Hr). apply lift_inv in Hd as [-> Hd].
  apply go_bind_inv in Hr as (s4 & u & Hset%wrap_inv & Hr).
  unfold SetBytes in Hset. injection Hset as <- _.
  apply go_bind_inv in Hr as (s5 & u' & Hlat%wrap_inv & Hr). injection Hr as <- Hsnap.
  rewrite Hsnap in Hd.
  assert (Snapshot_wf snap) as Hsw.
  { rewrite <- Hsnap. split; cbn [snap_Epoch snap_Validators snap_TotalPower]; try done.
    apply fits_u64, sum_power_u64. }
  rewrite (Snapshot_marshal snap Hsw) in Hd. injection Hd as <-.
  assert (kv_map s'' !! snapshotKey e = Some (Snapshot_bytes snap)) as Hk.
  { rewrite Hkv. unfold setLatestSnapshotEpoch in Hlat.
    apply go_bind_inv in Hlat as (s6 & cur & Hcur & Hlat). rewrite LatestSnapshotEpoch_spec in Hcur.
    injection Hcur as <- _. destruct (e <=? cur); injection Hlat as <- _; store; by kv_simpl. }
  assert (Snapshot_fits snap) as Hfits.
  { apply (Snapshot_unmarshal_fits _ Hsw). intros Hp. unfold GetSnapshot, mbind, go_bind, GetBytes, gets in Hget.
    rewrite Hk in Hget. unfold wrap, lift in Hget. by rewrite Hp in Hget. }
  rewrite (GetSnapshot_stored _ _ _ Hk Hsw Hfits) in Hget. by injection Hget.
Qed.
End read_back.

(** ** Agreement of builder and validator *)

Section agreement.
Context `{Hasher} `{Ed25519}.
Implicit Types s : InMemoryState.

Lemma BeginBlock_facts s s' h e hash :
  h ≠ 0 → BeginBlock h s = (s', Ok (e, hash)) →
  CurrentEpoch s' = (s', Ok e) ∧
  ∀ s'' snap, kv_map s'' = kv_map s' → GetSnapshot e s'' = (s'', Ok (Some snap)) → snap_SetHash snap = hash.
Proof.
  intros Hh Hr. unfold BeginBlock in Hr. rewrite (proj2 (Z.eqb_neq h 0)) in Hr by done.
  apply go_bind_inv in Hr as (s1 & b & _ & Hr). apply go_bind_inv in Hr as (s2 & u & _ & Hr).
  apply go_bind_inv in Hr as (s3 & e' & He%wrap_inv & Hr).
  pose proof (reader_state _ _ _ _ reader_CurrentEpoch He) as ->.
  apply go_bind_inv in Hr as (s4 & o & Ho%wrap_inv & Hr).
  pose proof (reader_state _ _ _ _ (reader_GetSnapshot _) Ho) as ->.
  apply go_bind_inv in Hr as (s5 & snap & Hs & Hr). injection Hr as <- <- <-.
  destruct o as [sn|].
  - injection Hs as <- <-. split; [done|]. intros s'' snap Hkv Hget.
    pose proof (reader_transport _ _ _ _ (reader_GetSnapshot e') (eq_sym Hkv) Ho) as Hg. congruence.
  - apply wrap_inv in Hs. pose proof (CurrentEpoch_fits _ _ _ He) as Hf.
    split.
    2:{ intros s'' snap' Hkv Hget.
        pose proof (CreateSnapshot_read_back _ _ _ _ Hf Hs _ _ Hkv Hget) as Heq. by injection Heq as ->. }
    by apply (epoch_key_read s2), He; apply (frame_run _ _ _ _ _ (frame_CreateSnapshot e') Hs).
Qed.

(** The clock matters only for the freshness of the transaction. *)
Lemma ApplyTransaction_clock now now' tx h s s' x :
  ApplyTransaction now tx h s = (s', Ok x) → Transaction_Validate now' tx = Ok tt →
  ApplyTransaction now' tx h s = (s', Ok x).
Proof.
  intros Hr Hv. unfold ApplyTransaction in *.
  apply go_bind_inv in Hr as (s1 & u & Hval%wrap_inv & Hr). apply lift_inv in Hval as [-> _].
  rewrite (go_bind_ok _ _ s s tt) by (apply wrap_ok; unfold lift; by rewrite Hv). exact Hr.
Qed.

Lemma ApplyTransaction_kv now tx h :
  tx_TxType tx ≠ TxTypeValidatorRegistration →
  preserves (same_kv (S := InMemoryState)) (ApplyTransaction now tx h).
Proof.
  intros Ht. unfold ApplyTransaction, apply_payload, settle, apply_transfer.
  rewrite (proj2 (Z.eqb_neq _ _) Ht). framed.
Qed.

Lemma FinalizeBlock_kv block : preserves (same_kv (S := InMemoryState)) (FinalizeBlock block).
Proof.
  pose proof (frame_collect (S := InMemoryState)). pose proof (frame_pay_reward (S := InMemoryState)).
  unfold FinalizeBlock, DistributeRewards, GetActiveValidators. framed.
Qed.

Lemma Commit_kv : preserves (same_kv (S := InMemoryState)) Commit.
Proof. intros s. unfold Commit. by destruct (build_smt _ _ _). Qed.

Lemma build_txs_validate clock clock' h ts ts' i l f rs es s s' f' rs' es' :
  build_txs None clock h ts i l f rs es s = (s', Ok (f', rs', es')) →
  (∀ j tx, l !! j = Some tx → Transaction_Validate (clock' (i + j)%nat) tx = Ok tt) →
  validate_txs None clock' h ts' i l f es s = (s', Ok (f', es')) ∧ es' = es.
Proof.
  revert i f rs es s. induction l as [|tx l IH]; intros i f rs es s Hb Hv; simpl in Hb.
  { injection Hb as <- <- _ <-. done. }
  apply go_bind_inv in Hb as (s1 & [x evs] & Hx & Hb). simpl in Hb.
  apply go_bind_inv in Hx as (s2 & x' & Hx & Hret). injection Hret as -> -> <-.
  rewrite app_nil_r in Hb.
  apply IH in Hb as [Hb ->].
  2:{ intros j tx' Hj. replace (S i + j)%nat with (i + S j)%nat by lia. by apply Hv. }
  split; [|done]. cbn [validate_txs]. unfold validate_tx.
  apply (ApplyTransaction_clock _ (clock' i)) in Hx; [|rewrite <- (Nat.add_0_r i); by apply Hv].
  rewrite (go_bind_ok _ _ s s1 []); [by rewrite app_nil_r|].
  by rewrite (go_bind_ok _ _ _ _ _ (wrap_ok _ _ _ _ _ Hx)).
Qed.

Lemma build_txs_kv clock h ts i l f rs es s s' r :
  Forall (λ tx, tx_TxType tx ≠ TxTypeValidatorRegistration) l →
  build_txs None clock h ts i l f rs es s = (s', r) → kv_map s' = kv_map s.
Proof.
  intros Hl. revert i f rs es s. induction Hl as [|tx l Ht _ IH]; intros i f rs es s Hb; simpl in Hb.
  { by injection Hb as <- _. }
  pose proof (preserves_bind same_kv _ (λ receipt, mret (receipt, [] : list Event))
    (ApplyTransaction_kv (clock i) tx h Ht) (λ _, preserves_ret same_kv _) s) as Hp.
  unfold mbind at 1, go_bind at 1 in Hb. unfold build_tx in Hb.
  destruct ((receipt ← ApplyTransaction (clock i) tx h; mret (receipt, [])) s) as [s1 [x|er|]];
    simpl in Hp; [|by injection Hb as <- _|by injection Hb as <- _].
  apply IH in Hb. by rewrite Hb.
Qed.
End agreement.

(** ** Transactions that do not involve the virtual machine *)

(** A transaction that a node with the virtual machine [vm] executes like a
    node without one. *)
Definition plain_tx (vm : option VM) (tx : Transaction) : Prop :=
  vm = None ∨ (tx_TxType tx ≠ TxTypeDeployContract ∧ tx_TxType tx ≠ TxTypeCallContract).

(** Two continuations that agree give the same run. *)
Lemma go_bind_ext {S A B} (m : go S A) (f g : A → go S B) s :
  (∀ a t, f a t = g a t) → (m ≫= f) s = (m ≫= g) s.
Proof. intros Hfg. unfold mbind, go_bind. destruct (m s) as [t [a|e|]]; [apply Hfg|done..]. Qed.

Section plain.
Context `{Hasher} `{Ed25519} (vm : option VM).
Implicit Types s : InMemoryState.

Lemma build_tx_plain now h ts i tx : plain_tx vm tx → build_tx vm now h ts i tx = build_tx None now h ts i tx.
Proof.
  intros [->|[Hd Hc]]; [done|]. unfold build_tx. destruct vm; [|done].
  by rewrite (proj2 (Z.eqb_neq _ _) Hd), (proj2 (Z.eqb_neq _ _) Hc).
Qed.

Lemma validate_tx_plain now h ts i tx :
  plain_tx vm tx → validate_tx vm now h ts i tx = validate_tx None now h ts i tx.
Proof.
  intros [->|[Hd Hc]]; [done|]. unfold validate_tx. destruct vm; [|done].
  by rewrite (proj2 (Z.eqb_neq _ _) Hd), (proj2 (Z.eqb_neq _ _) Hc).
Qed.

Lemma build_txs_plain clock h ts i l f rs es s :
  Forall (plain_tx vm) l →
  build_txs vm clock h ts i l f rs es s = build_txs None clock h ts i l f rs es s.
Proof.
  intros Hl. revert i f rs es s. induction Hl as [|tx l Ht _ IH]; intros i f rs es s; [done|].
  cbn [build_txs]. rewrite build_tx_plain by done. apply go_bind_ext. intros r s1. apply IH.
Qed.

Lemma validate_txs_plain clock h ts i l f es s :
  Forall (plain_tx vm) l →
  validate_txs vm clock h ts i l f es s = validate_txs None clock h ts i l f es s.
Proof.
  intros Hl. revert i f es s. induction Hl as [|tx l Ht _ IH]; intros i f es s; [done|].
  cbn [validate_txs]. rewrite validate_tx_plain by done. apply go_bind_ext. intros r s1. apply IH.
Qed.
End plain.

(** A block with its commit proof, as it is gossiped after the vote. *)
Definition with_proof (block : Block) (proof : CommitProof) : Block :=
  {| b_Header := b_Header block; b_Transactions := b_Transactions block;
     b_FeeSummary := b_FeeSummary block; b_Signature := b_Signature block;
     b_CommitProof := Some proof; b_Events := b_Events block; b_Evidence := b_Evidence block |}.

Section accept.
Context `{Hasher} `{Ed25519}.
Implicit Types s : InMemoryState.

Lemma validateCommitProof_inv block e s s' u :
  h_Height (b_Header block) ≠ 0 → validateCommitProof block e s = (s', Ok u) →
  s' = s ∧ ∃ proof snap, b_CommitProof block = Some proof ∧
    GetSnapshot e s = (s, Ok (Some snap)) ∧ check_proof (b_Header block) proof snap = Ok tt.
Proof.
  intros Hh Hv. unfold validateCommitProof in Hv. rewrite (proj2 (Z.eqb_neq _ 0) Hh) in Hv.
  destruct (b_CommitProof block) as [proof|]; [|done].
  apply go_bind_inv in Hv as (s1 & o & Ho%wrap_inv & Hv).
  pose proof (reader_state _ _ _ _ (reader_GetSnapshot e) Ho) as ->.
  destruct o as [snap|]; [|done]. apply lift_inv in Hv as [-> Hv]. destruct u. eauto 10.
Qed.

(** The header checks, against the state after [BeginBlock]. *)
Lemma check_header_ok header active e snap s :
  h_Epoch header = e → GetSnapshot e s = (s, Ok (Some snap)) →
  h_ValidatorSetHash header = snap_SetHash snap →
  WeightedProposerAtHeight (h_Height header) active = Ok (h_Proposer header) →
  h_ValidatorRoot header = ValidatorRoot (val_ConsensusID <$> active) →
  check_header header active e s = (s, Ok tt).
Proof.
  intros He Hs Hh Hp Hv. unfold check_header. rewrite He, Z.eqb_refl.
  rewrite (go_bind_ok _ _ s s tt) by done.
  rewrite (go_bind_ok _ _ s s (inr (Some snap))) by (unfold try; by rewrite Hs).
  rewrite (bool_decide_eq_true_2 _ Hh), (go_bind_ok _ _ s s tt) by done.
  assert (length active ≠ 0%nat) as Hne.
  { intros E. unfold WeightedProposerAtHeight in Hp. by rewrite (bool_decide_eq_true_2 _ E) in Hp. }
  rewrite (bool_decide_eq_false_2 _ Hne), (go_bind_ok _ _ s s tt) by done. rewrite Hp.
  rewrite (go_bind_ok _ _ s s (h_Proposer header)) by done.
  rewrite (bool_decide_eq_true_2 _ (eq_refl (h_Proposer header))), (go_bind_ok _ _ s s tt) by done.
  by rewrite (bool_decide_eq_true_2 _ Hv).
Qed.
End accept.

(** A built block passes validation. *)
Lemma build_then_validate `{Hasher} `{Ed25519} (vm : option VM) (clock clock' : nat → Z)
    (blockTimestamp headerTime : Z) (pending : list Transaction) (parent : BlockHeader)
    (prevHash : Hash) (proposer : Address) (sign : Hash → res bytes) (maxTxs : nat)
    (evidence : list Evidence) (s s' : InMemoryState) (block : Block)
    (active : list Validator) (proof : CommitProof) :
  0 <= h_Height parent < 2 ^ 64 - 1 →
  BuildBlock vm clock blockTimestamp headerTime pending (h_Height parent + 1) prevHash proposer
    sign maxTxs evidence s = (s', Ok block) →
  Forall (λ tx, tx_TxType tx ≠ TxTypeValidatorRegistration) pending →
  Forall (plain_tx vm) pending →
  (∀ i tx, b_Transactions block !! i = Some tx → Transaction_Validate (clock' i) tx = Ok tt) →
  GetActiveValidators s' = (s', Ok active) →
  WeightedProposerAtHeight (h_Height parent + 1) active = Ok proposer →
  b_Signature block ≠ [] →
  validateCommitProof (with_proof block proof) (h_Epoch (b_Header block)) s' = (s', Ok tt) →
  ValidateBlock vm clock' (with_proof block proof) parent prevHash s = (s', Ok tt).
Proof.
  intros Hh Hbuild Hreg Hplain Hfresh Hact Hprop Hsig Hproof. unfold BuildBlock in Hbuild.
  apply go_bind_inv in Hbuild as (s1 & u1 & Hev & Hbuild).
  apply go_bind_inv in Hbuild as (s2 & [e hash] & Hbeg%wrap_inv & Hbuild).
  apply go_bind_inv in Hbuild as (s3 & [[fees rs] evs] & Htxs & Hbuild).
  apply go_bind_inv in Hbuild as (s4 & u4 & Hfin%wrap_inv & Hbuild).
  apply go_bind_inv in Hbuild as (s5 & root & Hcom & Hbuild).
  apply go_bind_inv in Hbuild as (s6 & active' & Hact'%wrap_inv & Hbuild).
  pose proof (reader_state _ _ _ _ reader_GetActiveValidators Hact') as ->.
  apply go_bind_inv in Hbuild as (s7 & hh & Hhh & Hbuild). apply lift_inv in Hhh as [-> _].
  apply go_bind_inv in Hbuild as (s8 & sig & Hsg & Hbuild). apply lift_inv in Hsg as [-> _].
  injection Hbuild as <- <-. assert (active' = active) as -> by congruence. clear Hact'.
  assert (Forall (λ tx, tx_TxType tx ≠ TxTypeValidatorRegistration) (select_txs pending maxTxs)) as Hreg'.
  { unfold select_txs. rewrite sort_slice_perm. by apply Forall_take. }
  assert (Forall (plain_tx vm) (select_txs pending maxTxs)) as Hplain'.
  { unfold select_txs. rewrite sort_slice_perm. by apply Forall_take. }
  rewrite (build_txs_plain vm) in Htxs by done.
  destruct (build_txs_validate _ clock' _ _ headerTime _ _ _ _ _ _ _ _ _ _ Htxs Hfresh) as [Hval ->].
  rewrite <- (validate_txs_plain vm) in Hval by done.
  assert (kv_map s5 = kv_map s2) as Hkv.
  { pose proof (build_txs_kv _ _ _ _ _ _ _ _ _ _ _ Hreg' Htxs) as E3.
    pose proof (FinalizeBlock_kv (partial_block fees) s3) as E4. rewrite Hfin in E4.
    pose proof (Commit_kv s4) as E5. rewrite Hcom in E5. unfold same_kv in *. simpl in *. congruence. }
  apply (reader_transport _ s5 s2) in Hact; [|apply reader_GetActiveValidators|done].
  destruct (BeginBlock_facts s1 s2 (h_Height parent + 1) e hash ltac:(lia) Hbeg) as (Hep & Hset).
  assert (h_Height parent + 1 ≠ 0) as Hnz by lia.
  pose proof Hproof as Hsnap. apply validateCommitProof_inv in Hsnap as (_ & pf & snap & _ & Hsnap & _); [|exact Hnz].
  cbn [with_proof b_Header h_Epoch] in Hsnap.
  specialize (Hset s5 snap Hkv Hsnap). apply (reader_transport _ s5 s2) in Hsnap; [|apply reader_GetSnapshot|done].
  unfold ValidateBlock. cbn [with_proof b_Header b_Evidence b_Signature b_Transactions b_FeeSummary
    h_Height h_PreviousHash h_EventsRoot h_StateRoot h_TxRoot h_Timestamp] in *.
  rewrite u64_small, Z.eqb_refl by (unfold is_u64; lia). rewrite (go_bind_ok _ _ s s tt) by done.
  rewrite (bool_decide_eq_true_2 (prevHash = prevHash)) by done.
  rewrite andb_false_r, (go_bind_ok _ _ s s tt) by done.
  rewrite (go_bind_ok _ _ _ _ _ Hev), (go_bind_ok _ _ _ _ _ (wrap_ok _ _ _ _ _ Hbeg)).
  rewrite (go_bind_ok _ _ _ _ _ (wrap_ok _ _ _ _ _ Hact)), (go_bind_ok _ _ _ _ _ Hep).
  rewrite (go_bind_ok _ _ s2 s2 tt) by (by apply (check_header_ok _ _ _ snap)).
  rewrite (bool_decide_eq_false_2 (length sig = 0%nat)) by (intros E; by apply nil_length_inv in E).
  rewrite (go_bind_ok _ _ s2 s2 tt) by done.
  rewrite (go_bind_ok _ _ _ _ _ Hval), (go_bind_ok _ _ _ _ _ (wrap_ok _ _ _ _ _ Hfin)).
  rewrite (bool_decide_eq_true_2 (ComputeEventsRoot [] = ZeroHash)), (go_bind_ok _ _ s4 s4 tt) by done.
  rewrite (go_bind_ok _ _ _ _ _ Hcom).
  rewrite (bool_decide_eq_true_2 (root = root)), (go_bind_ok _ _ s5 s5 tt) by done.
  rewrite (bool_decide_eq_true_2 (computeTxRoot _ = _)), (go_bind_ok _ _ s5 s5 tt) by done.
  rewrite (bool_decide_eq_true_2 (NewFeeSummary fees = _)), (go_bind_ok _ _ s5 s5 tt) by done.
  by apply wrap_ok.
Qed.

(** ** Execution order *)

Lemma tx_less_false a b :
  tx_less a b = false ↔
  (tx_Sender a = tx_Sender b ∧ tx_Nonce b <= tx_Nonce a) ∨
  (tx_Sender a ≠ tx_Sender b ∧ bytes_lt (tx_Sender a) (tx_Sender b) = false).
Proof.
  unfold tx_less. case_bool_decide as Hs; cbn [negb].
  - rewrite Z.ltb_ge. split; [by left|]. by intros [[_ ?]|[? _]].
  - split; [by right|]. by intros [[? _]|[_ ?]].
Qed.

#[global] Instance tx_less_order : LessOrder tx_less.
Proof.
  split.
  - intros x y Hxy. apply tx_less_false. unfold tx_less in Hxy. case_bool_decide as Hs; cbn [negb] in Hxy.
    + left. apply Z.ltb_lt in Hxy. split; [done|lia].
    + right. split; [congruence|by apply bytes_lt_asym].
  - intros x y z Hyx Hzy. rewrite tx_less_false in *.
    destruct Hyx as [[E1 L1]|[N1 L1]], Hzy as [[E2 L2]|[N2 L2]].
    + left. split; [congruence|lia].
    + right. rewrite <- E1. done.
    + right. rewrite E2. done.
    + right. split; [|by apply (bytes_lt_trans _ (tx_Sender y))].
      intros E. apply N1, arr_eq, bytes_lt_total; [done|by rewrite <- E].
Qed.

(** ** Rejection *)

Section reject.
Context `{Hasher} `{Ed25519}.

Lemma validate_txs_fresh clock h ts i l f es s s' r :
  validate_txs None clock h ts i l f es s = (s', Ok r) →
  ∀ j tx, l !! j = Some tx → Transaction_Validate (clock (i + j)%nat) tx = Ok tt.
Proof.
  revert i f es s. induction l as [|tx l IH]; intros i f es s Hv j tx' Hj; [done|].
  cbn [validate_txs] in Hv. apply go_bind_inv in Hv as (s1 & evs & Hx & Hv).
  destruct j as [|j].
  - injection Hj as <-. rewrite Nat.add_0_r. unfold validate_tx in Hx.
    apply go_bind_inv in Hx as (s2 & x & Hx%wrap_inv & _). unfold ApplyTransaction in Hx.
    apply go_bind_inv in Hx as (s3 & [] & Hx%wrap_inv & _). by apply lift_inv in Hx as [_ Hx].
  - replace (i + S j)%nat with (S i + j)%nat by lia. by eapply IH.
Qed.
End reject.

(** ** Properties *)

(** Transactions execute in nonce order. The list that a block executes is
    a permutation of the first [maxTxs] pending transactions in which, for each
    sender, nonces never decrease; so a sender's pending transactions are
    applied in sequence whatever order the pool returned them in. *)
Theorem selected_in_nonce_order (pending : list Transaction) (maxTxs : nat) :
  select_txs pending maxTxs ≡ₚ take maxTxs pending ∧
  ∀ i j a b, (i < j)%nat →
    select_txs pending maxTxs !! i = Some a → select_txs pending maxTxs !! j = Some b →
    tx_Sender a = tx_Sender b → tx_Nonce a <= tx_Nonce b.
Proof.
  unfold select_txs. split; [apply sort_slice_perm|]. intros i j a b Hij Ha Hb Hs.
  pose proof (sort_slice_sorted tx_less (take maxTxs pending)) as Hsorted.
  assert (not_after tx_less a b) as Hn.
  { set (l := sort_slice _ _) in *. rewrite <- (take_drop (S i) l) in Hsorted.
    eapply StronglySorted_app_1_elem_of; [exact Hsorted| |].
    - apply list_elem_of_lookup. exists i. by rewrite lookup_take_lt by lia.
    - apply list_elem_of_lookup. exists (j - S i)%nat. rewrite lookup_drop.
      by replace (S i + (j - S i))%nat with j by lia. }
  unfold not_after in Hn. apply tx_less_false in Hn as [[_ Hle]|[Hne _]]; [done|congruence].
Qed.

(** Validation depends on the wall clock. A block that contains a
    transaction whose timestamp lies more than five seconds before (or after)
    the validating node's clock is rejected from every state, however valid it
    was when it was built: blocks of the past cannot be re-validated. *)
Theorem stale_block_rejected `{Hasher} `{Ed25519} (clock : nat → Z) (block : Block)
    (parent : BlockHeader) (prevHash : Hash) (i : nat) (tx : Transaction) (s s' : InMemoryState) :
  b_Transactions block !! i = Some tx →
  0 <= clock i < 2 ^ 62 → 0 <= tx_Timestamp tx < 2 ^ 62 → 5 < Z.abs (clock i - tx_Timestamp tx) →
  ValidateBlock None clock block parent prevHash s ≠ (s', Ok tt).
Proof.
  intros Hi Hc Ht Hd Hv. unfold ValidateBlock in Hv.
  do 8 (apply go_bind_inv in Hv as (? & ? & _ & Hv)).
  apply go_bind_inv in Hv as (s1 & r & Htxs & _).
  pose proof (validate_txs_fresh _ _ _ _ _ _ _ _ _ _ Htxs i tx Hi) as Hval. simpl in Hval.
  assert (ValidateTimestamp (clock i) (tx_Timestamp tx) = Err ErrInvalidTimestamp) as Hts.
  { unfold ValidateTimestamp, s64.
    rewrite (Z.mod_small (clock i + _)), (Z.mod_small (tx_Timestamp tx + _)) by lia.
    rewrite Z.mod_small by lia.
    destruct (Z.ltb_spec (clock i + 2 ^ 63 - 2 ^ 63 - (tx_Timestamp tx + 2 ^ 63 - 2 ^ 63) + 2 ^ 63 - 2 ^ 63) (-5));
      [done|]. cbn [orb]. destruct (Z.ltb_spec 5
        (clock i + 2 ^ 63 - 2 ^ 63 - (tx_Timestamp tx + 2 ^ 63 - 2 ^ 63) + 2 ^ 63 - 2 ^ 63)); [done|lia]. }
  unfold Transaction_Validate in Hval. rewrite Hts in Hval. by repeat case_match.
Qed.

(** The block with another signature. *)
Definition with_signature (block : Block) (sig : bytes) : Block :=
  {| b_Header := b_Header block; b_Transactions := b_Transactions block;
     b_FeeSummary := b_FeeSummary block; b_Signature := sig;
     b_CommitProof := b_CommitProof block; b_Events := b_Events block; b_Evidence := b_Evidence block |}.

(** The block signature is only required to be present. Replacing the
    signature of a block by any other non-empty byte string changes neither the
    verdict of [ValidateBlock] nor the state it leaves. *)
Theorem block_signature_unchecked `{Hasher} `{Ed25519} (vm : option VM) (clock : nat → Z)
    (block : Block) (parent : BlockHeader) (prevHash : Hash) (sig : bytes) (s : InMemoryState) :
  b_Signature block ≠ [] → sig ≠ [] →
  ValidateBlock vm clock (with_signature block sig) parent prevHash s
  = ValidateBlock vm clock block parent prevHash s.
Proof.
  intros Hb Hs. unfold ValidateBlock, validateCommitProof. cbn [with_signature b_Header b_Evidence
    b_Signature b_Transactions b_FeeSummary b_CommitProof].
  assert (∀ l : bytes, l ≠ [] → bool_decide (length l = 0%nat) = false) as Hl.
  { intros l Hl. apply bool_decide_eq_false_2. intros E. by apply nil_length_inv in E. }
  by rewrite (Hl _ Hb), (Hl _ Hs).
Qed.

Section sound.
Context `{Hasher} `{Ed25519}.
Implicit Types s : InMemoryState.

Lemma validate_txs_fees vm clock h ts i l f es s s' f' es' :
  validate_txs vm clock h ts i l f es s = (s', Ok (f', es')) →
  f' = fold_left (λ acc tx, u64 (acc + tx_MaxFee tx)) l f.
Proof.
  revert i f es s. induction l as [|tx l IH]; intros i f es s Hv; cbn [validate_txs fold_left] in *.
  - by injection Hv as _ <- _.
  - apply go_bind_inv in Hv as (s1 & evs & _ & Hv). by eapply IH.
Qed.

Lemma check_header_inv header active e s s' u :
  check_header header active e s = (s', Ok u) →
  s' = s ∧ h_Epoch header = e ∧
  (∃ snap, GetSnapshot e s = (s, Ok (Some snap)) ∧ h_ValidatorSetHash header = snap_SetHash snap) ∧
  WeightedProposerAtHeight (h_Height header) active = Ok (h_Proposer header) ∧
  h_ValidatorRoot header = ValidatorRoot (val_ConsensusID <$> active).
Proof.
  unfold check_header. intros Hv.
  apply go_bind_inv in Hv as (s1 & u1 & G1 & Hv). apply guard_err_inv in G1 as [-> G1].
  apply go_bind_inv in Hv as (s2 & r & Hr & Hv).
  pose proof (reader_state _ _ _ _ (reader_try _ (reader_GetSnapshot e)) Hr) as ->.
  destruct r as [er|[snap|]]; [done| |done].
  apply go_bind_inv in Hv as (s3 & u3 & G3 & Hv). apply guard_err_inv in G3 as [-> G3].
  apply go_bind_inv in Hv as (s4 & u4 & G4 & Hv). apply guard_err_inv in G4 as [-> _].
  apply go_bind_inv in Hv as (s5 & p & Hp & Hv). apply lift_inv in Hp as [-> Hp].
  apply go_bind_inv in Hv as (s6 & u6 & G6 & Hv). apply guard_err_inv in G6 as [-> G6].
  apply guard_err_inv in Hv as [-> G7]. bool_hyps. subst. split_and!; try done. exists snap.
  split; [|done]. unfold try in Hr. apply reader_run; [apply reader_GetSnapshot|].
  destruct (GetSnapshot (h_Epoch header) s) as [t [o|er|]]; simplify_eq; done.
Qed.

Lemma Commit_root s s' root : Commit s = (s', Ok root) → root = GetStateRoot s'.
Proof.
  unfold Commit, GetStateRoot. destruct (build_smt _ _ _) as [t [u|e|]]; intros E; [|done|done].
  by injection E as <- <-.
Qed.
End sound.

(** What [ValidateBlock] did when it accepted a block. *)
Lemma ValidateBlock_inv `{Hasher} `{Ed25519} (vm : option VM) (clock : nat → Z) (block : Block)
    (parent : BlockHeader) (prevHash : Hash) (s s' : InMemoryState) :
  let header := b_Header block in
  0 <= h_Height parent < 2 ^ 64 - 1 →
  ValidateBlock vm clock block parent prevHash s = (s', Ok tt) →
  ∃ s1 s2 s3 s4 out active fees evs,
    for_each (b_Evidence block) (λ ev,
      wrap "process evidence" (ProcessEvidence ev (h_Height header));; mret tt) s = (s1, Ok tt) ∧
    BeginBlock (h_Height header) s1 = (s2, Ok out) ∧
    CurrentEpoch s2 = (s2, Ok (h_Epoch header)) ∧
    (∃ snap, GetSnapshot (h_Epoch header) s2 = (s2, Ok (Some snap)) ∧
       h_ValidatorSetHash header = snap_SetHash snap) ∧
    (GetActiveValidators s2 = (s2, Ok active) ∧
     WeightedProposerAtHeight (h_Height header) active = Ok (h_Proposer header) ∧
     h_ValidatorRoot header = ValidatorRoot (val_ConsensusID <$> active)) ∧
    validate_txs vm clock (h_Height header) (h_Timestamp header) 0 (b_Transactions block) 0 [] s2
      = (s3, Ok (fees, evs)) ∧
    h_EventsRoot header = ComputeEventsRoot evs ∧
    FinalizeBlock (partial_block fees) s3 = (s4, Ok tt) ∧
    Commit s4 = (s', Ok (h_StateRoot header)) ∧
    h_Height header = h_Height parent + 1 ∧ h_PreviousHash header = prevHash ∧
    b_Signature block ≠ [] ∧
    h_TxRoot header = computeTxRoot (b_Transactions block) ∧ b_FeeSummary block = NewFeeSummary fees ∧
    (∃ proof snap, b_CommitProof block = Some proof ∧
       GetSnapshot (h_Epoch header) s' = (s', Ok (Some snap)) ∧ check_proof header proof snap = Ok tt).
Proof.
  intros header Hh Hv. unfold ValidateBlock in Hv. fold header in Hv.
  apply go_bind_inv in Hv as (x1 & u1 & G1 & Hv). apply guard_err_inv in G1 as [-> G1].
  apply go_bind_inv in Hv as (x2 & u2 & G2 & Hv). apply guard_err_inv in G2 as [-> G2].
  apply go_bind_inv in Hv as (s1 & [] & Hev & Hv).
  apply go_bind_inv in Hv as (s2 & out & Hbeg%wrap_inv & Hv).
  apply go_bind_inv in Hv as (x5 & active & Hact%wrap_inv & Hv).
  pose proof (reader_state _ _ _ _ reader_GetActiveValidators Hact) as ->.
  apply go_bind_inv in Hv as (x6 & e & Hep & Hv).
  pose proof (reader_state _ _ _ _ reader_CurrentEpoch Hep) as ->.
  apply go_bind_inv in Hv as (x7 & u7 & Hck & Hv).
  apply check_header_inv in Hck as (-> & He & Hsnap & Hp & Hr).
  apply go_bind_inv in Hv as (x8 & u8 & G8 & Hv). apply guard_err_inv in G8 as [-> G8].
  apply go_bind_inv in Hv as (s3 & [fees evs] & Htxs & Hv).
  apply go_bind_inv in Hv as (s4 & [] & Hfin%wrap_inv & Hv).
  apply go_bind_inv in Hv as (x11 & u11 & G11 & Hv). apply guard_err_inv in G11 as [-> G11].
  apply go_bind_inv in Hv as (s5 & root & Hcom & Hv).
  apply go_bind_inv in Hv as (x13 & u13 & G13 & Hv). apply guard_err_inv in G13 as [-> G13].
  apply go_bind_inv in Hv as (x14 & u14 & G14 & Hv). apply guard_err_inv in G14 as [-> G14].
  apply go_bind_inv in Hv as (x15 & u15 & G15 & Hv). apply guard_err_inv in G15 as [-> G15].
  apply wrap_inv in Hv. rewrite u64_small in G1 by (unfold is_u64; lia).
  apply negb_false_iff, Z.eqb_eq in G1.
  rewrite (proj2 (Z.ltb_lt 0 (h_Height header))) in G2 by lia. cbn [andb] in G2. bool_hyps.
  apply validateCommitProof_inv in Hv as (-> & proof & snap & Hpf & Hsn & Hck); [|fold header; lia].
  subst e root. exists s1, s2, s3, s4, out, active, fees, evs.
  split_and!; try done; [|by exists proof, snap]. intros E. by rewrite E in G8.
Qed.

(** What the builder puts in the header and the body. *)
Lemma built_header `{Hasher} `{Ed25519} vm clock ts ht pending h prev proposer sign maxTxs
    evidence s s' block :
  BuildBlock vm clock ts ht pending h prev proposer sign maxTxs evidence s = (s', Ok block) →
  h_Height (b_Header block) = h ∧ h_Timestamp (b_Header block) = ht ∧
  h_EventsRoot (b_Header block) = ZeroHash ∧ b_Evidence block = evidence.
Proof.
  intros Hb. unfold BuildBlock in Hb. apply go_bind_inv in Hb as (s1 & u1 & _ & Hb).
  apply go_bind_inv in Hb as (s2 & [e hash] & _ & Hb).
  apply go_bind_inv in Hb as (s3 & [[fees rs] evs] & _ & Hb).
  do 5 (apply go_bind_inv in Hb as (? & ? & _ & Hb)). by injection Hb as _ <-.
Qed.

(** C1: honest blocks are accepted, unless a contract emitted an event. Take a
    block that [BuildBlock] produced at the height after its parent's (a
    [uint64] below its maximum) from a state, on a node with or without a
    virtual machine. If the block was signed with a non-empty signature, its
    proposer is the scheduled one, no pending transaction registers a validator
    and, on a node with a virtual machine, none deploys or calls a contract,
    and the block then received a commit proof valid for its epoch's snapshot,
    then it passes [ValidateBlock] on every node that starts from the same
    state while its transactions are still fresh by the node's own clock, and
    builder and validator end in the same state. For a block with contract
    transactions the builder leaves the events root zero: whatever the proof,
    [ValidateBlock] refuses the builder's own block as soon as executing it
    yields events whose root is not zero. *)
Theorem built_block_validates `{Hasher} `{Ed25519} (vm : option VM) (clock clock' : nat → Z)
    (blockTimestamp headerTime : Z) (pending : list Transaction) (parent : BlockHeader)
    (prevHash : Hash) (proposer : Address) (sign : Hash → res bytes) (maxTxs : nat)
    (evidence : list Evidence) (s s' : InMemoryState) (block : Block)
    (active : list Validator) (proof : CommitProof) :
  let height := h_Height parent + 1 in
  0 <= h_Height parent < 2 ^ 64 - 1 →
  BuildBlock vm clock blockTimestamp headerTime pending height prevHash proposer
    sign maxTxs evidence s = (s', Ok block) →
  (Forall (λ tx, tx_TxType tx ≠ TxTypeValidatorRegistration) pending →
   (vm = None ∨ Forall (λ tx, tx_TxType tx ≠ TxTypeDeployContract ∧
      tx_TxType tx ≠ TxTypeCallContract) pending) →
   (∀ i tx, b_Transactions block !! i = Some tx → Transaction_Validate (clock' i) tx = Ok tt) →
   GetActiveValidators s' = (s', Ok active) →
   WeightedProposerAtHeight height active = Ok proposer →
   b_Signature block ≠ [] →
   validateCommitProof (with_proof block proof) (h_Epoch (b_Header block)) s' = (s', Ok tt) →
   ValidateBlock vm clock' (with_proof block proof) parent prevHash s = (s', Ok tt)) ∧
  (∀ s1 s2 s3 out fees evs s'',
     for_each evidence (λ ev, wrap "process evidence" (ProcessEvidence ev height);; mret tt) s
       = (s1, Ok tt) →
     BeginBlock height s1 = (s2, Ok out) →
     validate_txs vm clock' height headerTime 0 (b_Transactions block) 0 [] s2
       = (s3, Ok (fees, evs)) →
     ComputeEventsRoot evs ≠ ZeroHash →
     ValidateBlock vm clock' (with_proof block proof) parent prevHash s ≠ (s'', Ok tt)).
Proof.
  intros height Hh Hbuild. split.
  - intros Hreg Hplain. apply build_then_validate with (1 := Hh) (2 := Hbuild); [done|].
    destruct Hplain as [->|Hplain]; [|apply (Forall_impl _ _ _ Hplain); by right].
    apply Forall_true. by left.
  - intros s1 s2 s3 out fees evs s'' Hev Hbeg Htxs Hroot Hv.
    destruct (built_header _ _ _ _ _ _ _ _ _ _ _ _ _ _ Hbuild) as (Eh & Et & Er & Ee).
    pose proof (ValidateBlock_inv _ _ _ _ _ _ _ Hh Hv)
      as (t1 & t2 & t3 & t4 & out' & active' & fees' & evs' & Hev' & Hbeg' & _ & _ & _ & Htxs' & Hroot' & _).
    cbn [with_proof b_Header b_Evidence b_Transactions] in *. rewrite Eh in *. rewrite Et, Er, Ee in *.
    rewrite Hev in Hev'. injection Hev' as <-. rewrite Hbeg in Hbeg'. injection Hbeg' as <- <-.
    rewrite Htxs in Htxs'. injection Htxs' as _ _ <-. by apply Hroot.
Qed.

(** C4: an accepted block is what it claims to be. If [ValidateBlock] accepts a
    block in a state (the parent's height a [uint64] below its maximum), then
    the block's height follows its parent's, it names the parent's hash and is
    signed with a non-empty signature, and the run from that very state was
    the following: processing the block's evidence, then beginning the block;
    in the state so reached the current epoch, the hash of that epoch's
    snapshot, the scheduled proposer and the root of the active validators are
    the header's; executing all the block's transactions from there, with the
    timestamp of the header, succeeds with events whose root is the header's;
    paying out their fees (the total, modulo 2^64, of the maximum fees)
    and committing ends in the final state, whose root is the header's state
    root. The transaction root and the fee summary are those of these
    transactions, and the block carries a commit proof that [check_proof]
    accepts for the snapshot of its epoch. *)
Theorem accepted_block_sound `{Hasher} `{Ed25519} (vm : option VM) (clock : nat → Z) (block : Block)
    (parent : BlockHeader) (prevHash : Hash) (s s' : InMemoryState) :
  let header := b_Header block in
  0 <= h_Height parent < 2 ^ 64 - 1 →
  ValidateBlock vm clock block parent prevHash s = (s', Ok tt) →
  h_Height header = h_Height parent + 1 ∧ h_PreviousHash header = prevHash ∧
  b_Signature block ≠ [] ∧
  h_TxRoot header = computeTxRoot (b_Transactions block) ∧
  b_FeeSummary block
    = NewFeeSummary (fold_left (λ acc tx, u64 (acc + tx_MaxFee tx)) (b_Transactions block) 0) ∧
  h_StateRoot header = GetStateRoot s' ∧
  (∃ s1 s2 s3 s4 out active evs,
     for_each (b_Evidence block) (λ ev,
       wrap "process evidence" (ProcessEvidence ev (h_Height header));; mret tt) s = (s1, Ok tt) ∧
     BeginBlock (h_Height header) s1 = (s2, Ok out) ∧
     CurrentEpoch s2 = (s2, Ok (h_Epoch header)) ∧
     (∃ snap, GetSnapshot (h_Epoch header) s2 = (s2, Ok (Some snap)) ∧
        h_ValidatorSetHash header = snap_SetHash snap) ∧
     (GetActiveValidators s2 = (s2, Ok active) ∧
      WeightedProposerAtHeight (h_Height header) active = Ok (h_Proposer header) ∧
      h_ValidatorRoot header = ValidatorRoot (val_ConsensusID <$> active)) ∧
     validate_txs vm clock (h_Height header) (h_Timestamp header) 0 (b_Transactions block) 0 [] s2
       = (s3, Ok (TotalFees (b_FeeSummary block), evs)) ∧
     h_EventsRoot header = ComputeEventsRoot evs ∧
     FinalizeBlock (partial_block (TotalFees (b_FeeSummary block))) s3 = (s4, Ok tt) ∧
     Commit s4 = (s', Ok (h_StateRoot header))) ∧
  (∃ proof snap, b_CommitProof block = Some proof ∧
     GetSnapshot (h_Epoch header) s' = (s', Ok (Some snap)) ∧ check_proof header proof snap = Ok tt).
Proof.
  intros header Hh Hv. pose proof (ValidateBlock_inv _ _ _ _ _ _ _ Hh Hv)
    as (s1 & s2 & s3 & s4 & out & active & fees & evs & Hev & Hbeg & Hep & Hsnap & Hact & Htxs & Hroot
        & Hfin & Hcom & H1 & H2 & H3 & H4 & H5 & H6).
  pose proof (validate_txs_fees _ _ _ _ _ _ _ _ _ _ _ _ Htxs) as Hf.
  split_and!; try done; [by rewrite H5, Hf|by apply (Commit_root s4)|].
  rewrite H5. exists s1, s2, s3, s4, out, active, evs. done.
Qed.

(** ** Examples *)

Lemma BuildBlock_run `{Hasher} `{Ed25519} clock ts ht pending h prev proposer sign maxTxs
    s s2 s3 s4 s5 e hash fees rs evs root active hh sig :
  BeginBlock h s = (s2, Ok (e, hash)) →
  build_txs None clock h ts 0 (select_txs pending maxTxs) 0 [] [] s2 = (s3, Ok (fees, rs, evs)) →
  FinalizeBlock (partial_block fees) s3 = (s4, Ok tt) → Commit s4 = (s5, Ok root) →
  GetActiveValidators s5 = (s5, Ok active) →
  let header :=
    {| h_Version := 1; h_Height := h; h_PreviousHash := prev; h_StateRoot := root;
       h_TxRoot := computeTxRoot (select_txs pending maxTxs); h_ReceiptRoot := computeHashesRoot rs;
       h_ValidatorRoot := ValidatorRoot (val_ConsensusID <$> active);
       h_ValidatorSetHash := hash; h_Epoch := e; h_Timestamp := ht;
       h_Proposer := proposer; h_EventsRoot := ZeroHash |} in
  HeaderHash header = Ok hh → sign hh = Ok sig →
  BuildBlock None clock ts ht pending h prev proposer sign maxTxs [] s =
  (s5, Ok {| b_Header := header; b_Transactions := select_txs pending maxTxs;
             b_FeeSummary := NewFeeSummary fees; b_Signature := sig; b_CommitProof := None;
             b_Events := evs; b_Evidence := [] |}).
Proof.
  intros Hb Ht Hf Hc Ha header Hh Hs. unfold BuildBlock.
  rewrite (go_bind_ok _ _ s s tt) by done.
  rewrite (go_bind_ok _ _ _ _ _ (wrap_ok _ _ _ _ _ Hb)). cbv beta iota.
  rewrite (go_bind_ok _ _ _ _ _ Ht). cbv beta iota.
  rewrite (go_bind_ok _ _ _ _ _ (wrap_ok _ _ _ _ _ Hf)), (go_bind_ok _ _ _ _ _ Hc).
  rewrite (go_bind_ok _ _ _ _ _ (wrap_ok _ _ _ _ _ Ha)). fold header.
  rewrite (go_bind_ok _ _ s5 s5 hh) by (unfold lift; by rewrite Hh).
  by rewrite (go_bind_ok _ _ s5 s5 sig) by (unfold lift; by rewrite Hs).
Qed.

Definition example_parent : BlockHeader :=
  {| h_Version := 1; h_Height := 0; h_PreviousHash := ZeroHash; h_StateRoot := ZeroHash;
     h_TxRoot := ZeroHash; h_ReceiptRoot := ZeroHash; h_ValidatorRoot := ZeroHash;
     h_ValidatorSetHash := ZeroHash; h_Epoch := 0; h_Timestamp := 0; h_Proposer := ZeroAddress;
     h_EventsRoot := ZeroHash |}.

(** The states of the example run: begun, executed, finalized. *)
Definition example_begun : InMemoryState := (BeginBlock 1 funded_store).1.
Definition example_executed : InMemoryState :=
  (build_txs (H0 := echo_ed25519) None (λ _, 100) 1 100 0 (select_txs [sample_transfer] 10) 0 [] []
     example_begun).1.
Definition example_finalized : InMemoryState := (FinalizeBlock (partial_block 10) example_executed).1.

Definition example_snap : ValidatorSnapshot :=
  match (GetSnapshot 0 example_begun).2 with
  | Ok (Some snap) => snap
  | _ => {| snap_Epoch := 0; snap_Validators := []; snap_TotalPower := 0; snap_SetHash := ZeroHash |}
  end.

Lemma example_snap_ok : snapshot_ok example_snap.
Proof. split; [apply (bool_decide_unpack _); vm_compute; exact I..|vm_compute; reflexivity|vm_compute; reflexivity]. Qed.

Lemma example_stored : GetSnapshot 0 example_begun = (example_begun, Ok (Some example_snap)).
Proof. apply reader_run; [apply reader_GetSnapshot|]. vm_compute. reflexivity. Qed.

(** The precommit of the only active validator for a header, and its proof. *)
Definition example_precommit (header : BlockHeader) : Vote :=
  let v := {| v_VoteType := VotePrecommit; v_Height := 1; v_Round := 0;
              v_BlockHash := Sum256 (header_preimage header);
              v_Validator := sample_id 1; v_Signature := [] |} in
  {| v_VoteType := VotePrecommit; v_Height := 1; v_Round := 0;
     v_BlockHash := Sum256 (header_preimage header); v_Validator := sample_id 1;
     v_Signature := sample_key 1 ++ Sum256 (vote_content v) |}.

Definition example_commit (header : BlockHeader) : CommitProof :=
  {| c_Height := 1; c_BlockHash := Sum256 (header_preimage header);
     c_Precommits := [example_precommit header]; c_TotalPower := 150000; c_SignedPower := 150000;
     c_SetHash := snap_SetHash example_snap |}.

Lemma example_commit_valid header :
  h_Height header = 1 →
  check_proof (H := echo_ed25519) header (example_commit header) example_snap = Ok tt.
Proof.
  intros Hh. apply (check_proof_iff (H := echo_ed25519)); [exact example_snap_ok|].
  assert (∃ val, ValidatorByID example_snap (sample_id 1) = Ok val ∧
    val_PublicKey val = sample_key 1) as (val & Hval & Hkey).
  { assert (val_PublicKey <$> ValidatorByID example_snap (sample_id 1) = Ok (sample_key 1)) as E
      by (vm_compute; reflexivity).
    destruct (ValidatorByID example_snap (sample_id 1)) as [val|er|]; [|done|done].
    exists val. split; [done|]. by injection E. }
  split; cbn [example_commit c_SetHash c_Height c_BlockHash c_TotalPower c_Precommits c_SignedPower].
  - reflexivity.
  - by rewrite Hh.
  - reflexivity.
  - vm_compute. reflexivity.
  - apply precommits_sorted_iff. reflexivity.
  - apply Forall_cons. split; [|by apply Forall_nil].
    split_and!; [|reflexivity..|].
    + unfold Vote_Validate. cbn [example_precommit v_VoteType v_Signature].
      rewrite length_app, !arr_length. reflexivity.
    + exists val. split; [exact Hval|]. rewrite Hkey. unfold Vote_Verify.
      cbn [VoteHash hash_data SHA256Hasher ed25519_Verify echo_ed25519]. apply bool_decide_eq_true_2.
      reflexivity.
  - rewrite fmap_cons. apply NoDup_singleton.
  - unfold signers. rewrite fmap_cons. cbn [example_precommit v_Validator].
    vm_compute. reflexivity.
  - lia.
Qed.

(** The example block, whatever the state root [root]. *)
Definition example_block_with (root : Hash) (active : list Validator) : Block :=
  {| b_Header :=
       {| h_Version := 1; h_Height := 1; h_PreviousHash := ZeroHash; h_StateRoot := root;
          h_TxRoot := computeTxRoot (H := SHA256Hasher) (select_txs [sample_transfer] 10);
          h_ReceiptRoot := computeHashesRoot (H := SHA256Hasher) [ZeroHash];
          h_ValidatorRoot := ValidatorRoot (val_ConsensusID <$> active);
          h_ValidatorSetHash := snap_SetHash example_snap; h_Epoch := 0; h_Timestamp := 100;
          h_Proposer := sample_id 1; h_EventsRoot := ZeroHash |};
     b_Transactions := select_txs [sample_transfer] 10; b_FeeSummary := NewFeeSummary 10;
     b_Signature := [x01]; b_CommitProof := None; b_Events := []; b_Evidence := [] |}.

Definition example_active : list Validator := snap_Validators example_snap.

Lemma Commit_run s :
  balances_ok s →
  ∃ s' root, Commit (H := SHA256Hasher) s = (s', Ok root) ∧ kv_map s' = kv_map s.
Proof.
  intros Hb. destruct (Commit_ok (H := SHA256Hasher) (λ data, ex_intro _ (Sum256 data) eq_refl) s Hb)
    as (t & root & Hc & _ & _). by eexists _, root.
Qed.

Lemma example_built :
  ∃ s5 root, kv_map s5 = kv_map example_begun ∧
    GetActiveValidators s5 = (s5, Ok example_active) ∧
    BuildBlock (H := SHA256Hasher) (H0 := echo_ed25519) None (λ _, 100) 100 100 [sample_transfer] 1
      ZeroHash (sample_id 1) (λ _, Ok [x01]) 10 [] funded_store
    = (s5, Ok (example_block_with root example_active)).
Proof.
  assert (Hb : BeginBlock 1 funded_store = (example_begun, Ok (0, snap_SetHash example_snap)))
    by (unfold example_begun; apply run_outcome; vm_compute; reflexivity).
  assert (Ht : build_txs (H0 := echo_ed25519) None (λ _, 100) 1 100 0 (select_txs [sample_transfer] 10)
    0 [] [] example_begun = (example_executed, Ok (10, [ZeroHash], [])))
    by (unfold example_executed; apply run_outcome; vm_compute; reflexivity).
  assert (Hf : FinalizeBlock (partial_block 10) example_executed = (example_finalized, Ok tt))
    by (unfold example_finalized; apply run_outcome; vm_compute; reflexivity).
  assert (Hok : balances_ok example_finalized).
  { assert (map_Forall (λ _ acc, 0 <= acc_Balance acc < 2 ^ 128) (accounts example_finalized)) as Hall
      by (apply (bool_decide_unpack _); vm_compute; exact I).
    intros a acc Ha. exact (Hall a acc Ha). }
  destruct (Commit_run example_finalized Hok) as (s5 & root & Hc & Hk5).
  assert (Hkv : kv_map s5 = kv_map example_begun).
  { transitivity (kv_map example_finalized); [exact Hk5|]. transitivity (kv_map example_executed).
    - exact (FinalizeBlock_kv (partial_block 10) example_executed).
    - refine (build_txs_kv (H0 := echo_ed25519) _ _ _ _ _ _ _ _ _ _ _ _ Ht).
      apply (bool_decide_unpack _). vm_compute. exact I. }
  assert (Ha : GetActiveValidators s5 = (s5, Ok example_active)).
  { apply (reader_transport _ example_begun); [apply reader_GetActiveValidators|exact (eq_sym Hkv)|].
    apply reader_run; [apply reader_GetActiveValidators|]. vm_compute. reflexivity. }
  exists s5, root. split; [exact Hkv|]. split; [exact Ha|].
  exact (BuildBlock_run (H := SHA256Hasher) (H0 := echo_ed25519) _ _ _ _ _ _ _ _ _ _ _ _ _ _ _ _
    _ _ _ _ _ _ _ Hb Ht Hf Hc Ha eq_refl eq_refl).
Qed.

Lemma example_proof_ok (s : InMemoryState) root :
  kv_map s = kv_map example_begun →
  let block := example_block_with root example_active in
  validateCommitProof (H := echo_ed25519) (with_proof block (example_commit (b_Header block))) 0 s
  = (s, Ok tt).
Proof.
  intros Hkv block.
  assert (GetSnapshot 0 s = (s, Ok (Some example_snap))) as Hs.
  { apply (reader_transport _ example_begun); [apply reader_GetSnapshot|exact (eq_sym Hkv)|].
    exact example_stored. }
  unfold validateCommitProof. cbn [with_proof b_Header b_CommitProof block example_block_with h_Height Z.eqb].
  rewrite (go_bind_ok _ _ _ _ _ (wrap_ok _ _ _ _ _ Hs)). unfold lift. apply f_equal.
  apply example_commit_valid. reflexivity.
Qed.

Lemma example_hypotheses root :
  Forall (λ tx, tx_TxType tx ≠ TxTypeValidatorRegistration) [sample_transfer] ∧
  (∀ i tx, b_Transactions (example_block_with root example_active) !! i = Some tx →
     Transaction_Validate 104 tx = Ok tt) ∧
  WeightedProposerAtHeight 1 example_active = Ok (sample_id 1).
Proof.
  split; [apply (bool_decide_unpack _); vm_compute; exact I|]. split; [|vm_compute; reflexivity].
  assert (Forall (λ tx, Transaction_Validate 104 tx = Ok tt) (select_txs [sample_transfer] 10)) as Hall
    by (apply (bool_decide_unpack _); vm_compute; exact I).
  intros i tx Hi. rewrite Forall_lookup in Hall. exact (Hall i tx Hi).
Qed.

Lemma built_block_validates_witness :
  ∃ s' block proof,
    ValidateBlock (H := SHA256Hasher) (H0 := echo_ed25519) None (λ _, 104) (with_proof block proof)
      example_parent ZeroHash funded_store = (s', Ok tt).
Proof.
  destruct example_built as (s5 & root & Hkv & Ha & Hb).
  destruct (example_hypotheses root) as (Hr & Hf & Hp).
  exists s5, (example_block_with root example_active),
    (example_commit (b_Header (example_block_with root example_active))).
  apply (built_block_validates (H := SHA256Hasher) (H0 := echo_ed25519) None (λ _, 100) (λ _, 104) 100 100
    [sample_transfer] example_parent ZeroHash (sample_id 1) (λ _, Ok [x01]) 10 [] funded_store s5
    (example_block_with root example_active) example_active).
  - cbn. lia.
  - exact Hb.
  - exact Hr.
  - by left.
  - exact Hf.
  - exact Ha.
  - exact Hp.
  - discriminate.
  - exact (example_proof_ok s5 root Hkv).
Defined.

Lemma example_accepted :
  ∃ s' block proof,
    ValidateBlock (H := SHA256Hasher) (H0 := echo_ed25519) None (λ _, 104) (with_proof block proof)
      example_parent ZeroHash funded_store = (s', Ok tt).
Proof.
  destruct example_built as (s5 & root & Hkv & Ha & Hb).
  destruct (example_hypotheses root) as (Hr & Hf & Hp).
  exists s5, (example_block_with root example_active),
    (example_commit (b_Header (example_block_with root example_active))).
  apply (build_then_validate (H := SHA256Hasher) (H0 := echo_ed25519) None (λ _, 100) (λ _, 104) 100 100
    [sample_transfer] example_parent ZeroHash (sample_id 1) (λ _, Ok [x01]) 10 [] funded_store s5
    (example_block_with root example_active) example_active).
  - cbn. lia.
  - exact Hb.
  - exact Hr.
  - apply Forall_true. by left.
  - exact Hf.
  - exact Ha.
  - exact Hp.
  - discriminate.
  - exact (example_proof_ok s5 root Hkv).
Qed.

Lemma accepted_block_sound_witness :
  ∃ block, h_Height (b_Header block) = 1 ∧ h_PreviousHash (b_Header block) = ZeroHash ∧
    ∃ proof, b_CommitProof block = Some proof.
Proof.
  destruct example_accepted as (s' & block & proof & Hv). exists (with_proof block proof).
  destruct (accepted_block_sound (H := SHA256Hasher) (H0 := echo_ed25519) None (λ _, 104)
    (with_proof block proof) example_parent ZeroHash funded_store s')
    as (Hh & Hp & _ & _ & _ & _ & _ & pf & _ & Hpf & _); [cbn; lia|exact Hv|].
  split; [exact Hh|]. split; [exact Hp|]. exists pf. exact Hpf.
Defined.

Lemma stale_block_rejected_witness :
  ValidateBlock (H := SHA256Hasher) (H0 := echo_ed25519) None (λ _, 106)
    (example_block_with ZeroHash []) example_parent ZeroHash funded_store ≠ (funded_store, Ok tt).
Proof.
  apply (stale_block_rejected (H := SHA256Hasher) (H0 := echo_ed25519) (λ _, 106)
    (example_block_with ZeroHash []) example_parent ZeroHash 0 sample_transfer funded_store funded_store).
  - vm_compute. reflexivity.
  - lia.
  - cbn. lia.
  - cbn. lia.
Defined.

Lemma block_signature_unchecked_witness :
  ValidateBlock (H := SHA256Hasher) (H0 := echo_ed25519) None (λ _, 100)
    (with_signature (example_block_with ZeroHash []) [x07]) example_parent ZeroHash funded_store
  = ValidateBlock (H := SHA256Hasher) (H0 := echo_ed25519) None (λ _, 100)
    (example_block_with ZeroHash []) example_parent ZeroHash funded_store.
Proof.
  apply (block_signature_unchecked (H := SHA256Hasher) (H0 := echo_ed25519)); discriminate.
Defined.
