(* ===== verification/Gossip.v ===== *)
(** * Block gossip (consensus/gossip.go)

    The wire format in which blocks are broadcast and stored, and the bounded
    set of hashes that a node has already seen. *)

From S2P Require Import Prelude Codec Sha256 Address Tx Votes Block.

(** ** The block message *)

Definition BlockMessageType : byte := x01.
Definition MaxBlockSize : Z := 10 * 1024 * 1024.
Definition MaxSigLen : Z := 8192.

(** The payload that follows the envelope. *)
Definition write_block (block : Block) : go bytes unit :=
  let h := b_Header block in
  write_uint 8 (h_Version h);;
  write_uint 8 (h_Height h);;
  Write (h_PreviousHash h);;
  Write (h_StateRoot h);;
  Write (h_TxRoot h);;
  Write (h_ReceiptRoot h);;
  Write (h_ValidatorRoot h);;
  Write (h_ValidatorSetHash h);;
  write_uint 8 (h_Epoch h);;
  write_uint 8 (h_Timestamp h);;
  Write (h_Proposer h);;
  write_uint 4 (u32 (Z.of_nat (length (b_Transactions block))));;
  for_each (b_Transactions block) Transaction_Encode;;
  write_uint 8 (TotalFees (b_FeeSummary block));;
  write_uint 8 (ValidatorShare (b_FeeSummary block));;
  write_uint 8 (BurnShare (b_FeeSummary block));;
  write_uint 8 (TreasuryShare (b_FeeSummary block));;
  write_uint 4 (u32 (Z.of_nat (length (b_Signature block))));;
  Write (b_Signature block);;
  write_uint 4 (u32 (Z.of_nat (length (b_Events block))));;
  for_each (b_Events block) Event_Encode.

Definition EncodeBlockMessage (block : Block) : res bytes :=
  blockBuf ← encode_bytes (write_block block);
  Ok (BlockMessageType :: be 4 (u32 (Z.of_nat (length blockBuf))) ++ blockBuf).

(** Any failure to read the number of events, not only the end of the input,
    means that there are none. *)
Definition read_events : go bytes (list Event) :=
  r ← try (read_uint 4);
  match r with
  | inl _ => mret []
  | inr numEvents => repeat_go (Z.to_nat numEvents) (wrap "event" Event_Decode)
  end.

(** Reading from the byte after the message type: the length is read but not
    compared with anything. *)
Definition read_block : go bytes Block :=
  payloadLen ← read_uint 4;
  version ← read_uint 8;
  height ← read_uint 8;
  previousHash ← wrap "failed to read previous hash" (read_arr 32);
  stateRoot ← wrap "failed to read state root" (read_arr 32);
  txRoot ← wrap "failed to read tx root" (read_arr 32);
  receiptRoot ← wrap "failed to read receipt root" (read_arr 32);
  validatorRoot ← wrap "failed to read validator root" (read_arr 32);
  validatorSetHash ← wrap "failed to read validator set hash" (read_arr 32);
  epoch ← read_uint 8;
  timestamp ← read_uint 8;
  proposer ← wrap "failed to read proposer" (read_arr 20);
  numTxs ← read_uint 4;
  transactions ← repeat_go (Z.to_nat numTxs) (wrap "tx" Transaction_Decode);
  totalFees ← read_uint 8;
  validatorShare ← read_uint 8;
  burnShare ← read_uint 8;
  treasuryShare ← read_uint 8;
  sigLen ← read_uint 4;
  guard_err (MaxSigLen <? sigLen) (Errorf "signature too long");;
  signature ← wrap "failed to read signature" (ReadFull (Z.to_nat sigLen));
  events ← read_events;
  mret {| b_Header :=
            {| h_Version := version; h_Height := height; h_PreviousHash := previousHash;
               h_StateRoot := stateRoot; h_TxRoot := txRoot; h_ReceiptRoot := receiptRoot;
               h_ValidatorRoot := validatorRoot; h_ValidatorSetHash := validatorSetHash;
               h_Epoch := epoch; h_Timestamp := timestamp; h_Proposer := proposer;
               h_EventsRoot := ZeroHash |};
          b_Transactions := transactions;
          b_FeeSummary := mkFeeSummary totalFees validatorShare burnShare treasuryShare;
          b_Signature := signature; b_CommitProof := None; b_Events := events; b_Evidence := [] |}.

Definition DecodeBlockMessage (data : bytes) : res Block :=
  if bool_decide (length data < 6)%nat then Err (Errorf "block message too short") else
  match data with
  | t :: r =>
      if negb (bool_decide (t = BlockMessageType)) then Err (Errorf "unknown message type")
      else run_reader read_block r
  | [] => Panic
  end.

(** ** Hashes already seen *)

Record SeenSet := mkSeenSet {
  ss_hashes : gset Hash;
  ss_order : list Hash;
  ss_max : Z;
}.

(** [make([]types.Hash, 0, max)] panics on a negative capacity. *)
Definition NewSeenSet (max : Z) : res SeenSet :=
  if max <? 0 then Panic else Ok (mkSeenSet ∅ [] max).

Definition Seen (s : SeenSet) (h : Hash) : bool := bool_decide (h ∈ ss_hashes s).

Definition Mark (h : Hash) (s : SeenSet) : SeenSet :=
  if Seen s h then s else
  let hashes := {[h]} ∪ ss_hashes s in
  let order := ss_order s ++ [h] in
  if ss_max s <? Z.of_nat (length order)
  then match order with
       | oldest :: rest => mkSeenSet (hashes ∖ {[oldest]}) rest (ss_max s)
       | [] => mkSeenSet hashes order (ss_max s)
       end
  else mkSeenSet hashes order (ss_max s).

Definition Size (s : SeenSet) : Z := Z.of_nat (size (ss_hashes s)).

(** ** Specifications *)

Definition FeeSummary_wf (f : FeeSummary) : Prop :=
  fits 8 (TotalFees f) ∧ fits 8 (ValidatorShare f) ∧ fits 8 (BurnShare f) ∧ fits 8 (TreasuryShare f).

(** The values of Go's field types, within the encoder's limits. *)
Record Block_wf (b : Block) : Prop := {
  wf_header : BlockHeader_wf (b_Header b);
  wf_txs : Forall Transaction_wf (b_Transactions b);
  wf_ntxs : fits 4 (Z.of_nat (length (b_Transactions b)));
  wf_fees : FeeSummary_wf (b_FeeSummary b);
  wf_sig : Z.of_nat (length (b_Signature b)) <= MaxSigLen;
  wf_events : Forall Event_wf (b_Events b);
  wf_nevents : fits 4 (Z.of_nat (length (b_Events b)));
}.

(** What a message carries of a block: all but the events root of the header,
    the commit proof and the evidence. *)
Definition gossiped (b : Block) : Block :=
  let h := b_Header b in
  {| b_Header :=
       {| h_Version := h_Version h; h_Height := h_Height h; h_PreviousHash := h_PreviousHash h;
          h_StateRoot := h_StateRoot h; h_TxRoot := h_TxRoot h; h_ReceiptRoot := h_ReceiptRoot h;
          h_ValidatorRoot := h_ValidatorRoot h; h_ValidatorSetHash := h_ValidatorSetHash h;
          h_Epoch := h_Epoch h; h_Timestamp := h_Timestamp h; h_Proposer := h_Proposer h;
          h_EventsRoot := ZeroHash |};
     b_Transactions := b_Transactions b; b_FeeSummary := b_FeeSummary b;
     b_Signature := b_Signature b; b_CommitProof := None; b_Events := b_Events b; b_Evidence := [] |}.

Lemma u32_fits v : fits 4 v → u32 v = v.
Proof. unfold fits, u32. change (256 ^ Z.of_nat 4) with (2 ^ 32). apply Z.mod_small. Qed.

Lemma parses_wrapped_list {A} {wf : A → Prop} {enc dec} `{!RoundTrip wf enc dec} msg l :
  Forall wf l →
  parses (repeat_go (length l) (wrap msg dec)) (concat ((λ a, wire (enc a)) <$> l)) l.
Proof.
  intros Hl. apply (parses_repeat _ (λ a, wire (enc a))).
  eapply Forall_impl; [exact Hl|]. intros a Ha. by apply parses_wrap, rt_parses.
Qed.

Lemma parses_events l :
  Forall Event_wf l → fits 4 (Z.of_nat (length l)) →
  parses read_events (be 4 (Z.of_nat (length l)) ++ concat ((λ e, wire (Event_Encode e)) <$> l)) l.
Proof.
  intros Hl Hn. unfold read_events. eapply parses_bind.
  - intros rest. unfold try. by rewrite (parses_uint 4).
  - simpl. rewrite Nat2Z.id. by apply parses_wrapped_list.
Qed.

(** [field]: read one field of [read_block]. *)
Ltac field :=
  first [ eapply parses_bind; [solve [apply parses_wrap, parses_arr | by apply parses_uint]|]
        | eapply parses_bind_last; [by apply parses_events|] ]; cbv beta.

Lemma write_block_wire b :
  Block_wf b → ∃ bs, emits (write_block b) bs ∧
    ∀ len, fits 4 len → parses read_block (be 4 len ++ bs) (gossiped b).
Proof.
  intros [(Hv & Hh & He & Ht) Htx Hnt (F1 & F2 & F3 & F4) Hs Hev Hne].
  destruct b as [h txs [f1 f2 f3 f4] sig cp evs evid].
  cbn [b_Header b_Transactions b_FeeSummary b_Signature b_Events TotalFees ValidatorShare BurnShare
       TreasuryShare] in *.
  assert (fits 4 (Z.of_nat (length sig))) as Hsl
    by (unfold MaxSigLen in Hs; unfold fits; change (256 ^ Z.of_nat 4) with (2 ^ 32); lia).
  eexists. split.
  - unfold write_block; cbn [b_Header b_Transactions b_FeeSummary b_Signature b_Events TotalFees
      ValidatorShare BurnShare TreasuryShare]. rewrite !u32_fits by done.
    repeat (eapply emits_bind; [solve [apply emits_uint | apply emits_Write | by eapply rt_emits_list]|]).
    by eapply rt_emits_list.
  - intros len Hlen. unfold read_block. eapply parses_bind; [by apply parses_uint|].
    do 12 field. rewrite Nat2Z.id.
    eapply parses_bind; [by apply parses_wrapped_list|]. do 5 field.
    apply parses_guard; [lia|].
    eapply parses_bind; [apply parses_wrap, parses_ReadFull; lia|]. field.
    apply parses_ret.
Qed.

Lemma encode_bytes_emits m bs : emits m bs → encode_bytes m = Ok bs.
Proof. intros Hm. unfold encode_bytes, run_writer. by rewrite (Hm []). Qed.

(** The message of a block is decoded to what it carries of the block. *)
Lemma block_message_decodes (b : Block) :
  Block_wf b →
  ∃ data, EncodeBlockMessage b = Ok data ∧
    ∀ rest, DecodeBlockMessage (data ++ rest) = Ok (gossiped b).
Proof.
  intros Hwf. destruct (write_block_wire b Hwf) as (bs & Hemit & Hparse).
  unfold EncodeBlockMessage. rewrite (encode_bytes_emits _ _ Hemit). eexists. split; [done|].
  intros rest. unfold DecodeBlockMessage.
  set (n := u32 (Z.of_nat (length bs))).
  assert (fits 4 n) as Hn.
  { unfold n, fits, u32. change (256 ^ Z.of_nat 4) with (2 ^ 32). apply Z.mod_pos_bound. lia. }
  rewrite <- app_comm_cons, <- app_assoc.
  assert (bs ≠ []) as Hne.
  { intros ->. pose proof (Hparse 0 ltac:(by unfold fits) []) as Hp. vm_compute in Hp. discriminate. }
  rewrite bool_decide_eq_false_2.
  2:{ cbn [length]. rewrite !length_app, length_be. destruct bs; [done|]. cbn [length]. lia. }
  rewrite bool_decide_eq_true_2 by done. unfold run_reader. cbn [negb].
  rewrite app_assoc. by rewrite (Hparse n Hn rest).
Qed.

(** *** What a decoder can return *)

Definition yields {A} (P : A → Prop) (m : go bytes A) : Prop := ∀ inp rest a, m inp = (rest, Ok a) → P a.

Lemma readVarBytes_bound : yields (λ data, Z.of_nat (length data) <= MaxVarBytesLength) readVarBytes.
Proof.
  intros inp rest data Hr. unfold readVarBytes in Hr. go_inv Hr.
  repeat match goal with E : guard_err _ _ _ = _ |- _ => apply guard_err_inv in E as [-> E] | E : ReadFull _ _ = _ |- _ => apply ReadFull_length in E end.
  bool_hyps. match goal with L : length _ = Z.to_nat (unbe ?bs) |- _ => pose proof (unbe_range bs) end. lia.
Qed.

Lemma read_TxType_fits : yields (fits 1) read_TxType.
Proof.
  intros inp rest t Hr. unfold read_TxType in Hr. go_inv Hr. unfold try in Hrun. destruct (read_uint 1 inp) as [s' [v|e|]] eqn:E;
    [|..|discriminate]; injection Hrun as <- <-; go_inv Hr; [by apply read_uint_fits in E|done].
Qed.

Lemma repeat_yields {A} (P : A → Prop) n m : yields P m → yields (λ l, length l = n ∧ Forall P l) (repeat_go n m).
Proof.
  intros Hm. induction n as [|n IH]; intros inp rest l Hr; cbn in Hr; go_inv Hr; [done|].
  apply IH in Hrun0 as [? ?]. cbn. split; [congruence|]. constructor; [by eapply Hm|done].
Qed.

Lemma wrap_yields {A} (P : A → Prop) msg m : yields P m → yields P (wrap msg m).
Proof. intros Hm inp rest a Hr. apply wrap_inv in Hr. by eapply Hm. Qed.

(** [decoded]: what the reads in the context say about their results. *)
Ltac decoded :=
  repeat match goal with
  | E : wrap _ _ _ = _ |- _ => apply wrap_inv in E
  | E : guard_err _ _ _ = _ |- _ => apply guard_err_inv in E as [-> E]
  | E : read_uint _ _ = _ |- _ => apply read_uint_fits in E
  | E : readVarBytes _ = _ |- _ => apply readVarBytes_bound in E
  | E : read_TxType _ = _ |- _ => apply read_TxType_fits in E
  | E : ReadFull _ _ = _ |- _ => apply ReadFull_length in E
  end; bool_hyps.

Lemma fits_range n v : fits n v → 0 <= v < 256 ^ Z.of_nat n.
Proof. done. Qed.

Lemma Transaction_Decode_typed : yields Transaction_wf Transaction_Decode.
Proof.
  intros inp rest tx Hr. unfold Transaction_Decode in Hr. go_inv Hr. decoded. unfold Transaction_wf; cbn. split_and!; try done.
  match goal with E : fits 1 ?v, L : length _ = Z.to_nat ?v |- _ => apply fits_range in E; rewrite L end.
  change (256 ^ Z.of_nat 1) with 256 in *. lia.
Qed.

Lemma Event_Decode_typed : yields Event_wf Event_Decode.
Proof. intros inp rest e Hr. unfold Event_Decode in Hr. go_inv Hr. decoded. unfold Event_wf; cbn -[str_bytes]. by rewrite str_bytes_str. Qed.

Lemma counted_fits n v : fits 4 v → n = Z.to_nat v → fits 4 (Z.of_nat n).
Proof. intros Hv ->. apply fits_range in Hv as Hr. by rewrite Z2Nat.id by lia. Qed.

Lemma read_events_typed : yields (λ l, Forall Event_wf l ∧ fits 4 (Z.of_nat (length l))) read_events.
Proof.
  intros inp rest l Hr. unfold read_events in Hr. go_inv Hr. unfold try in Hrun.
  destruct (read_uint 4 inp) as [s' [v|e|]] eqn:E; [|..|discriminate]; injection Hrun as <- <-; [|by go_inv Hr].
  apply read_uint_fits in E. apply (repeat_yields Event_wf) in Hr as [Hn Hf]; [|apply wrap_yields, Event_Decode_typed].
  split; [done|]. by apply (counted_fits _ v).
Qed.

Lemma read_block_typed : yields (λ b, Block_wf b ∧ gossiped b = b) read_block.
Proof.
  intros inp rest b Hr. unfold read_block in Hr. go_inv Hr.
  repeat match goal with
  | E : repeat_go _ _ _ = _ |- _ => apply (repeat_yields Transaction_wf) in E as [? ?]; [|apply wrap_yields, Transaction_Decode_typed]
  | E : read_events _ = _ |- _ => apply read_events_typed in E as [? ?]
  end.
  decoded. split; [|done]. split; cbn; try done.
  - match goal with F : fits 4 ?v, L : length ?l = Z.to_nat ?v |- fits 4 (Z.of_nat (length ?l)) => exact (counted_fits _ v F L) end.
  - unfold MaxSigLen in *. match goal with L : length ?s = _ |- Z.of_nat (length ?s) <= _ => rewrite L end. lia.
Qed.

Lemma DecodeBlockMessage_typed data b : DecodeBlockMessage data = Ok b → Block_wf b ∧ gossiped b = b.
Proof.
  unfold DecodeBlockMessage. case_bool_decide; [done|]. destruct data as [|t r]; [done|]. destruct (negb _); [done|].
  unfold run_reader. destruct (read_block r) as [rest res] eqn:E. cbn. intros ->. by apply read_block_typed in E.
Qed.

(** *** The set of seen hashes *)

Definition marks (l : list Hash) (s : SeenSet) : SeenSet := fold_left (λ s h, Mark h s) l s.

Record SeenSet_ok (s : SeenSet) : Prop := {
  ss_same : ss_hashes s = list_to_set (ss_order s);
  ss_nodup : NoDup (ss_order s);
  ss_bound : Z.of_nat (length (ss_order s)) <= ss_max s;
}.

Lemma Seen_spec s h : SeenSet_ok s → Seen s h = true ↔ h ∈ ss_order s.
Proof. intros [Hs _ _]. unfold Seen. rewrite bool_decide_eq_true, Hs. apply elem_of_list_to_set. Qed.

(** What [Mark] does to the queue. *)
Lemma Mark_order h s :
  SeenSet_ok s →
  ss_max (Mark h s) = ss_max s ∧
  ss_order (Mark h s) =
    if decide (h ∈ ss_order s) then ss_order s
    else if decide (Z.of_nat (length (ss_order s)) < ss_max s) then ss_order s ++ [h]
    else tail (ss_order s ++ [h]).
Proof.
  intros Hok. unfold Mark. pose proof (Seen_spec s h Hok) as Hseen.
  destruct (Seen s h); case_decide; try naive_solver.
  rewrite length_app. cbn [length].
  destruct (Z.ltb_spec (ss_max s) (Z.of_nat (length (ss_order s) + 1))); case_decide; try lia; [|done].
  by destruct (ss_order s).
Qed.

Lemma Mark_ok h s : 0 <= ss_max s → SeenSet_ok s → SeenSet_ok (Mark h s).
Proof.
  intros Hmax Hok. pose proof (Seen_spec s h Hok) as Hseen. destruct Hok as [Hs Hn Hb].
  unfold Mark. destruct (Seen s h); [done|].
  assert (h ∉ ss_order s) as Hh by naive_solver.
  assert (NoDup (ss_order s ++ [h])) as Hn'.
  { apply NoDup_app. split; [done|]. split; [|apply NoDup_singleton]. set_solver. }
  assert ({[h]} ∪ ss_hashes s = list_to_set (ss_order s ++ [h])) as Hs'
    by (rewrite Hs, list_to_set_app_L; set_solver).
  pose proof (length_app (ss_order s) [h]) as Hlen. cbn [length] in Hlen.
  destruct (Z.ltb_spec (ss_max s) (Z.of_nat (length (ss_order s ++ [h])))); [|by split].
  destruct (ss_order s ++ [h]) as [|oldest rest] eqn:E; [by split|].
  apply NoDup_cons in Hn' as [Hold Hrest]. cbn [length] in Hlen. split; cbn; [|done|lia].
  rewrite Hs'. cbn. set_solver.
Qed.

Lemma marks_ok l s : 0 <= ss_max s → SeenSet_ok s → SeenSet_ok (marks l s) ∧ ss_max (marks l s) = ss_max s.
Proof.
  revert s. induction l as [|h l IH]; intros s Hmax Hok; [done|].
  change (marks (h :: l) s) with (marks l (Mark h s)).
  destruct (Mark_order h s Hok) as [Hm _].
  destruct (IH (Mark h s)) as [H1 H2]; [lia|by apply Mark_ok|]. by rewrite H2.
Qed.

(** A hash with [k] entries behind it stays while fewer than [max - k] others
    arrive. *)
Lemma marks_keep h l s :
  0 <= ss_max s → SeenSet_ok s →
  (∃ l1 l2, ss_order s = l1 ++ h :: l2 ∧
            Z.of_nat (length l2) + Z.of_nat (length l) < ss_max s) →
  h ∈ ss_order (marks l s).
Proof.
  revert s. induction l as [|g l IH]; intros s Hmax Hok (l1 & l2 & Ho & Hlen).
  { cbn. rewrite Ho. set_solver. }
  change (marks (g :: l) s) with (marks l (Mark g s)).
  destruct (Mark_order g s Hok) as [Hm Hord]. apply IH; [lia|by apply Mark_ok|].
  rewrite Hm. cbn [length] in Hlen. case_decide as Hg; [|case_decide as Hc].
  - exists l1, l2. split; [by rewrite Hord|lia].
  - exists l1, (l2 ++ [g]). rewrite Hord, Ho, <- app_assoc. split; [done|]. rewrite length_app. cbn. lia.
  - rewrite Ho in Hord, Hc. rewrite <- app_assoc in Hord. destruct l1 as [|x l1].
    { cbn in Hc. lia. }
    exists l1, (l2 ++ [g]). split; [done|]. rewrite length_app. cbn. lia.
Qed.

Lemma marks_sound h l s :
  0 <= ss_max s → SeenSet_ok s → h ∈ ss_order (marks l s) → h ∈ ss_order s ∨ h ∈ l.
Proof.
  revert s. induction l as [|g l IH]; intros s Hmax Hok Hin; [by left|].
  destruct (Mark_order g s Hok) as [Hm Hord].
  destruct (IH (Mark g s)) as [H1|H1]; [lia|by apply Mark_ok|done| |set_solver].
  rewrite Hord in H1. repeat case_decide; [set_solver|set_solver|].
  destruct (ss_order s) as [|x q]; cbn in H1; set_solver.
Qed.

(** ** Properties *)

(** A gossiped block arrives as it was sent, except for what the format
    leaves out. Encoding any block within the limits succeeds, and decoding the
    message, whatever bytes follow it, returns the block with a zero events
    root, no commit proof and no evidence. *)
Theorem block_message_roundtrip (b : Block) :
  Block_wf b →
  ∃ data, EncodeBlockMessage b = Ok data ∧
    ∀ rest, DecodeBlockMessage (data ++ rest) = Ok (gossiped b).
Proof. apply block_message_decodes. Qed.

(** C23: whatever bytes arrive, a message that is accepted denotes a value of the
    Go types: every number of the block, its transactions and its events is
    within the width of its field and every length within the limits. So the
    block can be sent on, and what is sent decodes to the same block. *)
Theorem accepted_messages_typed (data : bytes) (b : Block) :
  DecodeBlockMessage data = Ok b →
  Block_wf b ∧ ∃ data', EncodeBlockMessage b = Ok data' ∧ DecodeBlockMessage data' = Ok b.
Proof.
  intros [Hwf Hg]%DecodeBlockMessage_typed. split; [done|]. destruct (block_message_decodes b Hwf) as (data' & He & Hd).
  exists data'. split; [done|]. specialize (Hd []). by rewrite app_nil_r, Hg in Hd.
Qed.

(** The set of seen hashes is a bounded window. Whatever hashes are marked,
    the set never holds more than [max] entries and only hashes that were
    marked; and a hash that is marked for the first time is recognised until at
    least [max] further calls. *)
Theorem seen_set_window (max : Z) (l later : list Hash) (h : Hash) (s : SeenSet) :
  NewSeenSet max = Ok s →
  let t := marks l s in
  Size t <= max ∧ (∀ g, Seen t g = true → g ∈ l) ∧
  (Seen t h = false → Z.of_nat (length later) < max → Seen (marks later (Mark h t)) h = true).
Proof.
  unfold NewSeenSet. destruct (Z.ltb_spec max 0) as [|Hmax]; [done|]. intros [= <-].
  set (t := marks l (mkSeenSet ∅ [] max)). cbv zeta.
  assert (SeenSet_ok (mkSeenSet ∅ [] max)) as Hnew by (by split; [|constructor|cbn; lia]).
  destruct (marks_ok l (mkSeenSet ∅ [] max)) as [Hok Hm]; [done|done|]. cbn in Hm. fold t in Hok, Hm.
  split; [|split].
  - unfold Size. destruct Hok as [-> Hn Hb]. rewrite size_list_to_set by done. lia.
  - intros g Hg%Seen_spec; [|done]. 
    destruct (marks_sound g l (mkSeenSet ∅ [] max) Hmax Hnew Hg) as [Hin|]; [|done]. by apply not_elem_of_nil in Hin.
  - intros Hh Hlen. destruct (Mark_order h t Hok) as [Hmm Hord].
    rewrite decide_False in Hord by (rewrite <- Seen_spec by done; by rewrite Hh).
    assert (SeenSet_ok (Mark h t)) as Hok' by (apply Mark_ok; [lia|done]).
    apply Seen_spec; [apply marks_ok; [lia|done]|]. apply marks_keep; [lia|done|].
    rewrite Hmm. case_decide as Hc.
    + exists (ss_order t), []. split; [done|]. cbn. lia.
    + destruct (ss_order t) as [|x q]; cbn in Hc, Hord; [lia|].
      exists q, []. split; [done|]. cbn. lia.
Qed.

(** ** Examples *)

Definition gossip_block : Block :=
  {| b_Header :=
       {| h_Version := 1; h_Height := 7; h_PreviousHash := ZeroHash; h_StateRoot := ZeroHash;
          h_TxRoot := ZeroHash; h_ReceiptRoot := ZeroHash; h_ValidatorRoot := ZeroHash;
          h_ValidatorSetHash := ZeroHash; h_Epoch := 1; h_Timestamp := 100;
          h_Proposer := ZeroAddress; h_EventsRoot := arr_copy 32 [x01] |};
     b_Transactions := [NewTransaction 1 1 ZeroAddress 1 [x02] [] 10 0 100];
     b_FeeSummary := NewFeeSummary 10; b_Signature := [x03; x04];
     b_CommitProof := Some (mkCommitProof 7 ZeroHash [] 3 3 ZeroHash);
     b_Events := [mkEvent ZeroHash "topic" [x05] 7 0]; b_Evidence := [] |}.

Lemma gossip_block_wf : Block_wf gossip_block.
Proof.
  split; [| | | | | |];
    try (constructor; [|constructor]); repeat split; vm_compute; (reflexivity || discriminate).
Qed.

Lemma block_message_roundtrip_witness :
  ∃ data, EncodeBlockMessage gossip_block = Ok data ∧
    DecodeBlockMessage data = Ok (gossiped gossip_block) ∧
    b_CommitProof (gossiped gossip_block) ≠ b_CommitProof gossip_block.
Proof.
  destruct (block_message_roundtrip gossip_block gossip_block_wf) as (data & He & Hd).
  exists data. split; [exact He|]. split; [|discriminate].
  specialize (Hd []). rewrite app_nil_r in Hd. exact Hd.
Defined.

Lemma accepted_messages_typed_witness :
  ∃ data b, EncodeBlockMessage gossip_block = Ok data ∧ DecodeBlockMessage data = Ok b ∧ Block_wf b.
Proof.
  destruct (block_message_decodes gossip_block gossip_block_wf) as (data & He & Hd).
  specialize (Hd []). rewrite app_nil_r in Hd. exists data, (gossiped gossip_block). split; [exact He|]. split; [exact Hd|].
  apply (accepted_messages_typed data (gossiped gossip_block) Hd).
Defined.

Lemma seen_set_window_witness :
  let h := arr_copy 32 [x01] in let g := arr_copy 32 [x02] in
  Seen (marks [g] (Mark h (marks [g; h; g; ZeroHash; g] (mkSeenSet ∅ [] 2)))) h = true.
Proof.
  apply (seen_set_window 2 [arr_copy 32 [x02]; arr_copy 32 [x01]; arr_copy 32 [x02]; ZeroHash; arr_copy 32 [x02]]
    [arr_copy 32 [x02]] (arr_copy 32 [x01])
    (mkSeenSet ∅ [] 2)); [reflexivity|vm_compute; reflexivity|cbn; lia].
Defined.
