(* ===== verification/Bolt.v ===== *)
(** * The database interface (package go.etcd.io/bbolt)

    bbolt is third-party code, so the database is a parameter: a type of
    databases, a type of transactions and the operations that the program
    calls ([BoltDB]), with the documented behaviour of the package as laws
    ([BoltLaws]): a transaction sees the committed contents of the database
    and its own writes, a failed operation or commit has no effect, buckets
    are maps from keys to values, [Put] refuses empty keys, keys of more than
    32768 bytes and values of more than 2^31 - 2 bytes, and iteration visits
    the keys of a bucket in byte order. [mem_bolt] is a database kept in
    memory that satisfies the laws. *)

From S2P Require Import Prelude.

(** The buckets of a database by name. *)
Abbreviation contents := (gmap bytes (gmap bytes bytes)).

Class BoltDB (DB Tx : Type) : Type := {
  db_begin : DB → Tx;
  db_commit : Tx → DB → res DB;
  tx_buckets : Tx → contents;
  tx_create : bytes → Tx → res Tx;
  tx_put : bytes → bytes → bytes → Tx → res Tx;
  tx_delete : bytes → bytes → Tx → res Tx;
  tx_new_bucket : bytes → Tx → res Tx;
  tx_delete_bucket : bytes → Tx → res Tx;
}.

Definition MaxKeySize : Z := 32768.
Definition MaxValueSize : Z := 2 ^ 31 - 2.

Definition storable (k v : bytes) : Prop :=
  0 < Z.of_nat (length k) <= MaxKeySize ∧ Z.of_nat (length v) <= MaxValueSize.

(** The buckets after [CreateBucketIfNotExists]. *)
Definition with_bucket (name : bytes) (m : contents) : contents :=
  match m !! name with Some _ => m | None => <[name := ∅]> m end.

Class BoltLaws (DB Tx : Type) `{BoltDB DB Tx} : Prop := {
  commit_law tx (db db' : DB) : db_commit tx db = Ok db' → tx_buckets (db_begin db') = tx_buckets tx;
  create_law name (tx tx' : Tx) : tx_create name tx = Ok tx' → tx_buckets tx' = with_bucket name (tx_buckets tx);
  put_law b k v (tx tx' : Tx) : tx_put b k v tx = Ok tx' → tx_buckets tx' = alter (insert k v) b (tx_buckets tx);
  put_refuses b k v (tx tx' : Tx) : tx_put b k v tx = Ok tx' → storable k v;
  delete_law b k (tx tx' : Tx) : tx_delete b k tx = Ok tx' → tx_buckets tx' = alter (delete k) b (tx_buckets tx);
  new_bucket_law name (tx tx' : Tx) : tx_new_bucket name tx = Ok tx' → tx_buckets tx' = <[name := ∅]> (tx_buckets tx);
  delete_bucket_law name (tx tx' : Tx) : tx_delete_bucket name tx = Ok tx' → tx_buckets tx' = delete name (tx_buckets tx);
}.

(** A database whose disk never fails. *)
Class BoltReliable (DB Tx : Type) `{BoltDB DB Tx} : Prop := {
  commit_total (tx : Tx) (db : DB) : ∃ db' : DB, db_commit tx db = Ok db';
  create_total name (tx : Tx) : name ≠ [] → ∃ tx' : Tx, tx_create name tx = Ok tx';
  put_total b k v (tx : Tx) : is_Some (tx_buckets tx !! b) → storable k v → ∃ tx' : Tx, tx_put b k v tx = Ok tx';
  delete_total b k (tx : Tx) : is_Some (tx_buckets tx !! b) → ∃ tx' : Tx, tx_delete b k tx = Ok tx';
  new_bucket_total name (tx : Tx) : name ≠ [] → tx_buckets tx !! name = None → ∃ tx' : Tx, tx_new_bucket name tx = Ok tx';
  delete_bucket_total name (tx : Tx) : is_Some (tx_buckets tx !! name) → ∃ tx' : Tx, tx_delete_bucket name tx = Ok tx';
}.

(** ** Transactions *)

Section transactions.
Context {DB Tx : Type} `{BoltDB DB Tx}.

(** [db.Update(f)]: commit if [f] returns nil, roll back otherwise. *)
Definition Update {A} (f : go Tx A) : go DB A := λ db,
  match f (db_begin db) with
  | (tx, Ok a) =>
      match db_commit tx db with
      | Ok db' => (db', Ok a)
      | Err e => (db, Err e)
      | Panic => (db, Panic)
      end
  | (_, Err e) => (db, Err e)
  | (_, Panic) => (db, Panic)
  end.

(** [db.View(f)]. *)
Definition View {A} (f : go Tx A) : go DB A := λ db, (db, (f (db_begin db)).2).

(** A call that replaces the transaction or leaves it as it is. *)
Definition on_tx (f : Tx → res Tx) : go Tx unit := λ tx,
  match f tx with Ok tx' => (tx', Ok tt) | Err e => (tx, Err e) | Panic => (tx, Panic) end.

Definition CreateBucketIfNotExists (name : bytes) : go Tx unit := on_tx (tx_create name).

(** [tx.CreateBucket(name)] and [tx.DeleteBucket(name)]. *)
Definition CreateBucket (name : bytes) : go Tx unit := on_tx (tx_new_bucket name).
Definition DeleteBucket (name : bytes) : go Tx unit := on_tx (tx_delete_bucket name).

(** [tx.Bucket(name)]: nil if there is no such bucket. *)
Definition Bucket (name : bytes) : go Tx (option (gmap bytes bytes)) :=
  gets (λ tx, tx_buckets tx !! name).

(** [tx.Bucket(name).Put(k, v)] and [Delete]: calls on a nil bucket panic. *)
Definition Put (name k v : bytes) : go Tx unit :=
  b ← Bucket name;
  match b with Some _ => on_tx (tx_put name k v) | None => gopanic end.

Definition Delete (name k : bytes) : go Tx unit :=
  b ← Bucket name;
  match b with Some _ => on_tx (tx_delete name k) | None => gopanic end.

(** [b := tx.Bucket(name); if b == nil { return missing }; data := b.Get(key);
    if data == nil { return absent }]. *)
Definition read_value (name key : bytes) (missing absent : string) : go Tx bytes :=
  b ← Bucket name;
  match b with
  | None => throw (Errorf missing)
  | Some m =>
      match m !! key with
      | None => throw (Errorf absent)
      | Some data => mret data
      end
  end.
End transactions.

(** The pairs that [ForEach] and a cursor visit, in key order; [seek prefix]:
    those from the first key that is not below the prefix. *)
Definition entries (m : gmap bytes bytes) : list (bytes * bytes) :=
  sort_slice (less_by fst) (map_to_list m).

Definition seek (prefix : bytes) (m : gmap bytes bytes) : list (bytes * bytes) :=
  List.filter (λ e, negb (bytes_lt e.1 prefix)) (entries m).

(** ** Lemmas *)

(** The contents that calls see. *)
Definition db_buckets {DB Tx} `{BoltDB DB Tx} (db : DB) : contents := tx_buckets (db_begin db).

Definition bucket_of {DB Tx} `{BoltDB DB Tx} (db : DB) (name : bytes) : gmap bytes bytes :=
  default ∅ (db_buckets db !! name).

Section lemmas.
Context {DB Tx : Type} `{BoltLaws DB Tx}.
Implicit Types (db : DB) (tx : Tx).

Lemma with_bucket_lookup name m b :
  with_bucket name m !! b = if decide (b = name) then Some (default ∅ (m !! name)) else m !! b.
Proof.
  unfold with_bucket. destruct (m !! name) eqn:E; case_decide as Hb; subst; simpl.
  - done.
  - done.
  - by rewrite lookup_insert_eq.
  - by rewrite lookup_insert_ne.
Qed.

(** A failed [Update] changes nothing. *)
Lemma Update_err {A} (f : go Tx A) db db' r :
  Update f db = (db', r) → (∀ a, r ≠ Ok a) → db' = db.
Proof.
  unfold Update. destruct (f (db_begin db)) as [tx [a|e|]]; [|naive_solver..].
  destruct (db_commit tx db); naive_solver.
Qed.

Lemma Update_inv {A} (f : go Tx A) db db' a :
  Update f db = (db', Ok a) → ∃ tx, f (db_begin db) = (tx, Ok a) ∧ db_buckets db' = tx_buckets tx.
Proof.
  unfold Update. destruct (f (db_begin db)) as [tx [a'|e|]] eqn:E; [|done..].
  destruct (db_commit tx db) as [db1|e|] eqn:Ec; [|done..]. intros [= -> ->].
  exists tx. split; [done|]. by apply (commit_law tx db).
Qed.

Lemma View_state {A} (f : go Tx A) db : (View f db).1 = db.
Proof. done. Qed.

Lemma create_inv name tx tx' u :
  CreateBucketIfNotExists name tx = (tx', Ok u) → tx_buckets tx' = with_bucket name (tx_buckets tx).
Proof.
  unfold CreateBucketIfNotExists, on_tx. destruct (tx_create name tx) eqn:E; [|done..].
  intros [= <- <-]. by apply create_law.
Qed.

Lemma Put_inv name k v tx tx' u :
  Put name k v tx = (tx', Ok u) →
  storable k v ∧ ∃ m, tx_buckets tx !! name = Some m ∧
    tx_buckets tx' = <[name := <[k := v]> m]> (tx_buckets tx).
Proof.
  unfold Put, Bucket, gets, mbind, go_bind, on_tx. destruct (tx_buckets tx !! name) as [m|] eqn:E; [|done].
  destruct (tx_put name k v tx) as [tx1| |] eqn:Ep; [|done..]. intros [= <- <-].
  split; [by eapply put_refuses|]. exists m. split; [done|]. rewrite (put_law _ _ _ _ _ Ep).
  apply map_eq. intros b. destruct (decide (b = name)) as [->|Hb].
  - by rewrite lookup_alter_eq, E, lookup_insert_eq.
  - by rewrite lookup_alter_ne, lookup_insert_ne.
Qed.

Lemma Delete_inv name k tx tx' u :
  Delete name k tx = (tx', Ok u) →
  ∃ m, tx_buckets tx !! name = Some m ∧ tx_buckets tx' = <[name := delete k m]> (tx_buckets tx).
Proof.
  unfold Delete, Bucket, gets, mbind, go_bind, on_tx. destruct (tx_buckets tx !! name) as [m|] eqn:E; [|done].
  destruct (tx_delete name k tx) as [tx1| |] eqn:Ep; [|done..]. intros [= <- <-].
  exists m. split; [done|]. rewrite (delete_law _ _ _ _ Ep).
  apply map_eq. intros b. destruct (decide (b = name)) as [->|Hb].
  - by rewrite lookup_alter_eq, E, lookup_insert_eq.
  - by rewrite lookup_alter_ne, lookup_insert_ne.
Qed.

(** On a reliable database every step goes through. *)
Context `{!BoltReliable DB Tx}.

Lemma create_ok name tx :
  name ≠ [] → ∃ tx', CreateBucketIfNotExists name tx = (tx', Ok tt) ∧
    tx_buckets tx' = with_bucket name (tx_buckets tx).
Proof.
  intros Hn. destruct (create_total name tx Hn) as [tx' E]. exists tx'.
  unfold CreateBucketIfNotExists, on_tx. rewrite E. split; [done|]. by apply create_law.
Qed.

Lemma Put_ok name k v tx m :
  tx_buckets tx !! name = Some m → storable k v →
  ∃ tx', Put name k v tx = (tx', Ok tt) ∧ tx_buckets tx' = <[name := <[k := v]> m]> (tx_buckets tx).
Proof.
  intros Hm Hs. destruct (put_total name k v tx) as [tx' E]; [by eexists|done|]. exists tx'.
  assert (Put name k v tx = (tx', Ok tt)) as Hp
    by (unfold Put, Bucket, gets, mbind, go_bind, on_tx; by rewrite Hm, E).
  split; [done|]. destruct (Put_inv _ _ _ _ _ _ Hp) as (_ & m' & Hm' & Hb). congruence.
Qed.

(** Emptying a bucket by deleting and creating it. *)
Lemma recreate_ok name tx :
  name ≠ [] → is_Some (tx_buckets tx !! name) →
  ∃ tx1 tx2, DeleteBucket name tx = (tx1, Ok tt) ∧ CreateBucket name tx1 = (tx2, Ok tt) ∧
    tx_buckets tx2 = <[name := ∅]> (tx_buckets tx).
Proof.
  intros Hn Hs. destruct (delete_bucket_total name tx Hs) as [tx1 E1]. pose proof (delete_bucket_law _ _ _ E1) as B1.
  destruct (new_bucket_total name tx1 Hn) as [tx2 E2]; [by rewrite B1, lookup_delete_eq|].
  pose proof (new_bucket_law _ _ _ E2) as B2. exists tx1, tx2.
  unfold DeleteBucket, CreateBucket, on_tx. rewrite E1, E2. split; [done|]. split; [done|].
  by rewrite B2, B1, insert_delete_eq.
Qed.

Lemma Update_ok {A} (f : go Tx A) db tx a :
  f (db_begin db) = (tx, Ok a) → ∃ db', Update f db = (db', Ok a) ∧ db_buckets db' = tx_buckets tx.
Proof.
  intros Hf. destruct (commit_total tx db) as [db' Hc]. exists db'. unfold Update. rewrite Hf, Hc.
  split; [done|]. by apply (commit_law tx db).
Qed.
End lemmas.

(** *** Writing and reading one entry *)

Section writes.
Context {DB Tx : Type} `{BoltLaws DB Tx}.
Implicit Types (db : DB) (tx : Tx).

(** The buckets with one more entry. *)
Definition put_in (name k v : bytes) (m : contents) : contents :=
  <[name := <[k := v]> (default ∅ (m !! name))]> m.

Lemma put_in_lookup name k v m b :
  put_in name k v m !! b =
    if decide (b = name) then Some (<[k := v]> (default ∅ (m !! name))) else m !! b.
Proof.
  unfold put_in. case_decide; subst; [by rewrite lookup_insert_eq|by rewrite lookup_insert_ne].
Qed.

Lemma create_put_inv name k v tx tx1 tx2 u u' :
  CreateBucketIfNotExists name tx = (tx1, Ok u) → Put name k v tx1 = (tx2, Ok u') →
  storable k v ∧ tx_buckets tx2 = put_in name k v (tx_buckets tx).
Proof.
  intros Hc (Hs & m & Hm & Hb)%Put_inv. apply create_inv in Hc. split; [done|].
  rewrite Hc, with_bucket_lookup, decide_True in Hm by done. injection Hm as <-.
  rewrite Hb, Hc. apply map_eq. intros b. rewrite put_in_lookup.
  case_decide as Hn; subst; [by rewrite lookup_insert_eq|].
  by rewrite lookup_insert_ne, with_bucket_lookup, decide_False.
Qed.

Lemma read_value_spec name key missing absent db m data :
  db_buckets db !! name = Some m → m !! key = Some data →
  read_value name key missing absent (db_begin db) = (db_begin db, Ok data).
Proof.
  intros Hb Hk. unfold read_value, Bucket, gets, mbind, go_bind. unfold db_buckets in Hb.
  by rewrite Hb, Hk.
Qed.

(** A view of one value depends on the bucket alone. *)
Lemma read_value_frame name key missing absent db db' :
  db_buckets db' !! name = db_buckets db !! name →
  (read_value name key missing absent (db_begin db')).2 = (read_value name key missing absent (db_begin db)).2.
Proof.
  intros Hb. unfold read_value, Bucket, gets, mbind, go_bind. unfold db_buckets in Hb. rewrite Hb.
  destruct (tx_buckets (db_begin db) !! name) as [m|]; [|done]. by destruct (m !! key).
Qed.

Lemma View_read {A} name key missing absent (k : bytes → go Tx A) db data a :
  (∃ m, db_buckets db !! name = Some m ∧ m !! key = Some data) →
  (∀ tx, k data tx = (tx, Ok a)) →
  View (read_value name key missing absent ≫= k) db = (db, Ok a).
Proof.
  intros (m & Hb & Hk) Ha. unfold View.
  by rewrite (go_bind_ok _ _ _ _ _ (read_value_spec _ _ missing absent _ _ _ Hb Hk)), Ha.
Qed.

Context `{!BoltReliable DB Tx}.

Lemma create_put name k v tx :
  name ≠ [] → storable k v →
  ∃ tx', (CreateBucketIfNotExists name;; Put name k v) tx = (tx', Ok tt) ∧
    tx_buckets tx' = put_in name k v (tx_buckets tx).
Proof.
  intros Hn Hs. destruct (create_ok name tx Hn) as (tx1 & Hc & Hb1).
  rewrite (go_bind_ok _ _ _ _ _ Hc).
  destruct (Put_ok name k v tx1 (default ∅ (tx_buckets tx !! name))) as (tx2 & Hp & Hb2).
  - by rewrite Hb1, with_bucket_lookup, decide_True.
  - done.
  - exists tx2. split; [done|]. by apply (create_put_inv _ _ _ _ _ _ _ _ Hc Hp).
Qed.

(** [Update] of one entry. *)
Lemma store_one (f : go Tx unit) name k v db :
  (f (db_begin db) = (CreateBucketIfNotExists name;; Put name k v) (db_begin db)) →
  name ≠ [] → storable k v →
  ∃ db', Update f db = (db', Ok tt) ∧ db_buckets db' = put_in name k v (db_buckets db).
Proof.
  intros Hf Hn Hs. destruct (create_put name k v (db_begin db) Hn Hs) as (tx & Hr & Hb).
  rewrite <- Hf in Hr. destruct (Update_ok f db tx tt Hr) as (db' & Hu & Hb').
  exists db'. split; [done|]. by rewrite Hb'.
Qed.

Lemma bind_encoded {A} name (r : res bytes) v (k : bytes → go Tx A) tx :
  r = Ok v →
  (CreateBucketIfNotExists name;; (buf ← lift r; k buf)) tx = (CreateBucketIfNotExists name;; k v) tx.
Proof. by intros ->. Qed.
End writes.

(** What a view reads of one entry depends on that entry alone. *)
Lemma view_frame {DB Tx} `{BoltDB DB Tx} {A} name key missing absent (k : bytes → go Tx A) (db db' : DB) x :
  (∀ d t t', (k d t).2 = (k d t').2) →
  bucket_of db' name !! key = bucket_of db name !! key →
  (View (read_value name key missing absent ≫= k) db').2 = Ok x ↔
  (View (read_value name key missing absent ≫= k) db).2 = Ok x.
Proof.
  unfold View, read_value, Bucket, gets, mbind, go_bind, bucket_of, db_buckets. cbn [snd]. intros Hread Hk.
  destruct (tx_buckets (db_begin db') !! name) as [m'|], (tx_buckets (db_begin db) !! name) as [m|];
    cbn in Hk; rewrite ?lookup_empty in Hk.
  - rewrite Hk. destruct (m !! key) as [d|]; [|done]. unfold mret, go_ret. cbn [snd].
    by rewrite (Hread d (db_begin db') (db_begin db)).
  - rewrite Hk. split; intros Hx; discriminate Hx.
  - rewrite <- Hk. split; intros Hx; discriminate Hx.
  - split; intros Hx; discriminate Hx.
Qed.

Lemma bucket_put_in {DB Tx} `{BoltDB DB Tx} (db : DB) name k v m b :
  db_buckets db = put_in name k v m →
  bucket_of db b = if decide (b = name) then <[k := v]> (default ∅ (m !! name)) else default ∅ (m !! b).
Proof. intros Hb. unfold bucket_of. rewrite Hb, put_in_lookup. by case_decide. Qed.

Lemma bucket_of_some {DB Tx} `{BoltDB DB Tx} (db : DB) name key data :
  bucket_of db name !! key = Some data → ∃ m, db_buckets db !! name = Some m ∧ m !! key = Some data.
Proof. unfold bucket_of. destruct (db_buckets db !! name) as [m|]; [|done]. by exists m. Qed.

Lemma bind_create_put {DB Tx} `{BoltLaws DB Tx, !BoltReliable DB Tx} {A} name k v (f : go Tx A) (tx : Tx) :
  name ≠ [] → storable k v →
  ∃ tx', (CreateBucketIfNotExists name;; (Put name k v;; f)) tx = f tx' ∧
    tx_buckets tx' = put_in name k v (tx_buckets tx).
Proof.
  intros Hn Hs. destruct (create_put name k v tx Hn Hs) as (tx' & Hr & Hb). exists tx'. split; [|done].
  apply go_bind_inv in Hr as (t1 & u & H1 & H2). rewrite (go_bind_ok _ _ _ _ _ H1). destruct u.
  by rewrite (go_bind_ok _ _ _ _ _ H2).
Qed.

Lemma fmap_of_each {A B} (f : A → B) (P : A → Prop) (l : list B) :
  (∀ b, b ∈ l → ∃ a, b = f a ∧ P a) → ∃ l', l = f <$> l' ∧ Forall P l'.
Proof.
  induction l as [|b l IH]; intros Hl; [by exists []|].
  destruct (Hl b) as (a & -> & Ha); [by left|].
  destruct IH as (l' & -> & Hl'); [intros b Hb; apply Hl; by right|].
  exists (a :: l'). by split; [|constructor].
Qed.

(** *** Iteration *)

Lemma entries_perm m : entries m ≡ₚ map_to_list m.
Proof. apply sort_slice_perm. Qed.

Lemma elem_of_entries m k v : (k, v) ∈ entries m ↔ m !! k = Some v.
Proof. rewrite entries_perm. apply elem_of_map_to_list. Qed.

Lemma entries_NoDup m : NoDup (entries m).*1.
Proof. rewrite entries_perm. apply NoDup_fst_map_to_list. Qed.

Lemma entries_sorted m : StronglySorted (not_after (less_by fst)) (entries m).
Proof. apply sort_slice_sorted, _. Qed.

Lemma elem_of_seek p m k v : (k, v) ∈ seek p m ↔ m !! k = Some v ∧ bytes_lt k p = false.
Proof.
  unfold seek. rewrite <- elem_of_entries, !list_elem_of_In, filter_In. simpl.
  destruct (bytes_lt k p); naive_solver.
Qed.

Lemma StronglySorted_filter {A} (R : A → A → Prop) (f : A → bool) l :
  StronglySorted R l → StronglySorted R (List.filter f l).
Proof.
  induction 1 as [|x l Hl IH Hx]; simpl; [constructor|]. destruct (f x); [|done].
  constructor; [done|]. apply Forall_forall. intros y Hy. rewrite Forall_forall in Hx. apply Hx.
  apply list_elem_of_In in Hy. apply list_elem_of_In. by apply filter_In in Hy as [? _].
Qed.

Lemma seek_sorted p m : StronglySorted (not_after (less_by fst)) (seek p m).
Proof. apply StronglySorted_filter, entries_sorted. Qed.

Lemma seek_empty p : seek p ∅ = [].
Proof. unfold seek, entries. by rewrite map_to_list_empty. Qed.

Lemma elem_of_filter_list {A} (p : A → bool) l x : x ∈ List.filter p l ↔ x ∈ l ∧ p x = true.
Proof. by rewrite !list_elem_of_In, filter_In. Qed.

Lemma NoDup_fmap_filter {A B} (f : A → B) (p : A → bool) l :
  NoDup (f <$> l) → NoDup (f <$> List.filter p l).
Proof.
  induction l as [|x l IH]; [done|]. rewrite fmap_cons, NoDup_cons. intros [Hx Hn]. cbn [List.filter].
  destruct (p x); [|by apply IH]. rewrite fmap_cons, NoDup_cons. split; [|by apply IH].
  intros (y & E & [Hy _]%elem_of_filter_list)%list_elem_of_fmap. apply Hx. rewrite E.
  by apply list_elem_of_fmap_2.
Qed.

Lemma NoDup_fmap_inj_on {A B} (f : A → B) l x y :
  NoDup (f <$> l) → x ∈ l → y ∈ l → f x = f y → x = y.
Proof.
  induction l as [|z l IH]; [by intros _ ?%not_elem_of_nil|]. rewrite fmap_cons, NoDup_cons.
  intros [Hz Hn] [->|Hx]%elem_of_cons [->|Hy]%elem_of_cons E; [done| | |by apply IH].
  - destruct Hz. rewrite E. by apply list_elem_of_fmap_2.
  - destruct Hz. rewrite <- E. by apply list_elem_of_fmap_2.
Qed.

Lemma StronglySorted_mono {A} (R R' : A → A → Prop) l :
  (∀ x y, R x y → R' x y) → StronglySorted R l → StronglySorted R' l.
Proof.
  intros HR. induction 1 as [|x l Hl IH Hx]; constructor; [done|]. eapply Forall_impl; [exact Hx|]. apply HR.
Qed.

Lemma seek_NoDup p m : NoDup (seek p m).*1.
Proof. apply NoDup_fmap_filter, entries_NoDup. Qed.

(** ** A database in memory *)

Definition mem_put (b k v : bytes) (m : contents) : res contents :=
  if bool_decide (length k = 0%nat) then Err (Errorf "key required") else
  if MaxKeySize <? Z.of_nat (length k) then Err (Errorf "key too large") else
  if MaxValueSize <? Z.of_nat (length v) then Err (Errorf "value too large") else
  Ok (alter (insert k v) b m).

#[global] Instance mem_bolt : BoltDB contents contents := {
  db_begin m := m;
  db_commit tx _ := Ok tx;
  tx_buckets tx := tx;
  tx_create name tx := if bool_decide (name = []) then Err (Errorf "bucket name required")
                       else Ok (with_bucket name tx);
  tx_put := mem_put;
  tx_delete b k tx := Ok (alter (delete k) b tx);
  tx_new_bucket name tx := if bool_decide (name = []) then Err (Errorf "bucket name required")
                           else if bool_decide (is_Some (tx !! name)) then Err (Errorf "bucket already exists")
                           else Ok (<[name := ∅]> tx);
  tx_delete_bucket name tx := if bool_decide (is_Some (tx !! name)) then Ok (delete name tx)
                              else Err (Errorf "bucket not found");
}.

#[global] Instance mem_bolt_laws : BoltLaws contents contents.
Proof.
  split; cbn.
  - by intros tx db db' [= ->].
  - intros name tx tx'. case_bool_decide; [done|]. by intros [= <-].
  - intros b k v tx tx'. unfold mem_put. repeat (case_match; [done|]). by intros [= <-].
  - intros b k v tx tx'. unfold mem_put, storable.
    destruct (bool_decide_reflect (length k = 0%nat)); [done|].
    destruct (Z.ltb_spec MaxKeySize (Z.of_nat (length k))); [done|].
    destruct (Z.ltb_spec MaxValueSize (Z.of_nat (length v))); [done|]. lia.
  - by intros b k tx tx' [= <-].
  - intros name tx tx'. case_bool_decide; [done|]. case_bool_decide; [done|]. by intros [= <-].
  - intros name tx tx'. case_bool_decide; [|done]. by intros [= <-].
Qed.

#[global] Instance mem_bolt_reliable : BoltReliable contents contents.
Proof.
  split; cbn.
  - eauto.
  - intros name tx Hn. case_bool_decide; [done|]. eauto.
  - intros b k v tx _ [[Hk1 Hk2] Hv]. unfold mem_put. rewrite bool_decide_eq_false_2 by lia.
    rewrite (proj2 (Z.ltb_ge _ _)), (proj2 (Z.ltb_ge _ _)) by lia. eauto.
  - eauto.
  - intros name tx Hn Hnone. rewrite bool_decide_eq_false_2 by done. rewrite Hnone, bool_decide_eq_false_2; [eauto|].
    by intros [? ?].
  - intros name tx Hs. rewrite bool_decide_eq_true_2 by done. eauto.
Qed.
