(* ===== verification/Chain.v ===== *)
(** * The block store (consensus/persist.go)

    Headers, blocks, the chain tip, proposals, votes, commit proofs and
    evidence in buckets of the database. *)

From S2P Require Import Prelude Codec Sha256 Address Tx Votes Block Store Keys Gossip Bolt.

Definition blocksBucket : bytes := str_bytes "blocks".
Definition fullBlocksBucket : bytes := str_bytes "full_blocks".
Definition chainBucket : bytes := str_bytes "chain".
Definition tipKey : bytes := str_bytes "tip".
Definition proposalsBucket : bytes := str_bytes "proposals".
Definition votesBucket : bytes := str_bytes "votes".
Definition commitProofsBucket : bytes := str_bytes "commit_proofs".
Definition evidenceBucket : bytes := str_bytes "evidence".

(** ** Headers *)

Definition expectedHeaderLen : nat := 244.

Definition encodeHeader (h : BlockHeader) : bytes :=
  be 8 (h_Version h) ++ be 8 (h_Height h) ++ h_PreviousHash h ++ h_StateRoot h
  ++ h_TxRoot h ++ h_ReceiptRoot h ++ h_ValidatorRoot h ++ h_ValidatorSetHash h
  ++ be 8 (h_Epoch h) ++ be 8 (h_Timestamp h) ++ h_Proposer h.

Definition decodeHeader (data : bytes) : res BlockHeader :=
  if bool_decide (length data < expectedHeaderLen)%nat then Err (Errorf "header too short") else
  version ← Uint64 data;
  height ← Uint64 (drop 8 data);
  epoch ← Uint64 (drop 208 data);
  timestamp ← Uint64 (drop 216 data);
  Ok {| h_Version := version; h_Height := height;
        h_PreviousHash := arr_copy 32 (drop 16 data); h_StateRoot := arr_copy 32 (drop 48 data);
        h_TxRoot := arr_copy 32 (drop 80 data); h_ReceiptRoot := arr_copy 32 (drop 112 data);
        h_ValidatorRoot := arr_copy 32 (drop 144 data);
        h_ValidatorSetHash := arr_copy 32 (drop 176 data);
        h_Epoch := epoch; h_Timestamp := timestamp;
        h_Proposer := arr_copy 20 (drop 224 data); h_EventsRoot := ZeroHash |}.

(** The key of a height. *)
Definition height_key (height : Z) : bytes := be 8 height.

Section store.
Context {DB Tx : Type} `{BoltDB DB Tx}.

Definition StoreBlockHeader (header : BlockHeader) : go DB unit :=
  Update (
    CreateBucketIfNotExists blocksBucket;;
    Put blocksBucket (height_key (h_Height header)) (encodeHeader header)).

Definition LoadBlockHeader (height : Z) : go DB BlockHeader :=
  View (
    data ← read_value blocksBucket (height_key height) "blocks bucket not found" "block header not found";
    wrap "failed to decode header" (lift (decodeHeader data))).

Definition StoreBlock (block : Block) : go DB unit :=
  Update (
    CreateBucketIfNotExists fullBlocksBucket;;
    data ← wrap "failed to encode block" (lift (EncodeBlockMessage block));
    Put fullBlocksBucket (height_key (h_Height (b_Header block))) data).

Definition LoadBlock (height : Z) : go DB Block :=
  View (
    data ← read_value fullBlocksBucket (height_key height)
             "full blocks bucket not found" "full block not found";
    wrap "failed to decode block" (lift (DecodeBlockMessage data))).

Definition StoreTip (header : BlockHeader) : go DB unit :=
  Update (
    CreateBucketIfNotExists chainBucket;;
    Put chainBucket tipKey (encodeHeader header)).

Definition LoadTip : go DB BlockHeader :=
  View (
    data ← read_value chainBucket tipKey "chain bucket not found" "tip not found";
    wrap "failed to decode tip header" (lift (decodeHeader data))).

Definition AtomicStoreBlockAndTip (block : Block) : go DB unit :=
  Update (
    CreateBucketIfNotExists blocksBucket;;
    let headerKey := height_key (h_Height (b_Header block)) in
    Put blocksBucket headerKey (encodeHeader (b_Header block));;
    CreateBucketIfNotExists fullBlocksBucket;;
    blockData ← wrap "failed to encode block" (lift (EncodeBlockMessage block));
    Put fullBlocksBucket headerKey blockData;;
    CreateBucketIfNotExists chainBucket;;
    Put chainBucket tipKey (encodeHeader (b_Header block))).

(** ** Proposals, votes, commit proofs *)

Definition StoreProposal (proposal : Proposal) : go DB unit :=
  Update (
    CreateBucketIfNotExists proposalsBucket;;
    buf ← lift (encode_bytes (Proposal_Encode proposal));
    Put proposalsBucket (height_key (p_Height proposal)) buf).

Definition LoadProposal (height : Z) : go DB Proposal :=
  View (
    data ← read_value proposalsBucket (height_key height)
             "proposals bucket not found" "proposal not found";
    lift (run_reader Proposal_Decode data)).

(** height(8) + voteType(1) + validator(20). *)
Definition vote_key (vote : Vote) : bytes :=
  be 8 (v_Height vote) ++ be 1 (v_VoteType vote) ++ v_Validator vote.

Definition StoreVote (vote : Vote) : go DB unit :=
  Update (
    CreateBucketIfNotExists votesBucket;;
    buf ← lift (encode_bytes (Vote_Encode vote));
    Put votesBucket (vote_key vote) buf).

(** The cursor loop: it stops at the first key of another height. *)
Fixpoint load_votes (height voteType : Z) (l : list (bytes * bytes)) : res (list Vote) :=
  match l with
  | [] => Ok []
  | (k, v) :: l' =>
      if bool_decide (length k < 8)%nat || negb (unbe (take 8 k) =? height) then Ok [] else
      if negb (voteType =? 0) && bool_decide (9 <= length k)%nat
         && negb (unbe (take 1 (drop 8 k)) =? voteType)
      then load_votes height voteType l' else
      vote ← run_reader Vote_Decode v;
      votes ← load_votes height voteType l';
      Ok (vote :: votes)
  end.

Definition LoadVotes (height voteType : Z) : go DB (list Vote) :=
  View (
    b ← Bucket votesBucket;
    match b with
    | None => mret []
    | Some m => lift (load_votes height voteType (seek (height_key height) m))
    end).

Definition StoreCommitProof (proof : CommitProof) : go DB unit :=
  Update (
    CreateBucketIfNotExists commitProofsBucket;;
    buf ← lift (encode_bytes (CommitProof_Encode proof));
    Put commitProofsBucket (height_key (c_Height proof)) buf).

Definition LoadCommitProof (height : Z) : go DB CommitProof :=
  View (
    data ← read_value commitProofsBucket (height_key height)
             "commit proofs bucket not found" "commit proof not found";
    lift (run_reader CommitProof_Decode data)).

(** ** Evidence *)

Definition evidence_prefix : string := "evidence/all/".

Definition evidence_index_key (hash : Hash) : bytes := str_bytes (evidence_prefix +:+ hex hash).

Definition evidence_key (height : Z) (hashPrefix : string) : bytes :=
  str_bytes ("evidence/" +:+ dec height +:+ "/" +:+ hashPrefix).

Definition StoreEvidence (ev : Evidence) : go DB unit :=
  Update (
    CreateBucketIfNotExists evidenceBucket;;
    hash ← wrap "failed to compute evidence hash" (lift (EvidenceHash (H := SHA256Hasher) ev));
    b ← Bucket evidenceBucket;
    guard_err (bool_decide (is_Some (default ∅ b !! evidence_index_key hash))) ErrDuplicateEvidence;;
    buf ← wrap "failed to encode evidence" (lift (encode_bytes (EncodeEvidence ev)));
    Put evidenceBucket (evidence_key (Evidence_Height ev) (hex (take 8 hash))) buf;;
    Put evidenceBucket (evidence_index_key hash) buf).

Definition LoadEvidence (height : Z) (hashPrefix : string) : go DB (option Evidence) :=
  View (
    b ← Bucket evidenceBucket;
    match default ∅ b !! evidence_key height hashPrefix with
    | None => mret None
    | Some data => ev ← wrap "failed to decode evidence" (lift (run_reader DecodeEvidence data)); mret (Some ev)
    end).

(** The entries that the cursor visits from the prefix on and does not skip;
    there is no test that a key has the prefix. *)
Definition evidence_entries (m : gmap bytes bytes) : list (bytes * bytes) :=
  List.filter (λ e, negb (bool_decide (length e.1 <= length (str_bytes evidence_prefix))%nat))
    (seek (str_bytes evidence_prefix) m).

Fixpoint decode_all (l : list (bytes * bytes)) : res (list Evidence) :=
  match l with
  | [] => Ok []
  | (_, v) :: l' =>
      decoded ← wrap_res "failed to decode evidence" (run_reader DecodeEvidence v);
      rest ← decode_all l';
      Ok (decoded :: rest)
  end.

Definition newest_first (a b : Evidence) : bool := Evidence_Height b <? Evidence_Height a.

Definition LoadAllEvidence : go DB (list Evidence) :=
  View (
    b ← Bucket evidenceBucket;
    evidence ← lift (decode_all (evidence_entries (default ∅ b)));
    mret (sort_slice newest_first evidence)).

Definition EvidenceCount : go DB Z :=
  View (
    b ← Bucket evidenceBucket;
    mret (Z.of_nat (length (evidence_entries (default ∅ b))))).
End store.

(** ** Lemmas *)

(** The header that the store keeps: the events root is not written. *)
Definition stored_header (h : BlockHeader) : BlockHeader :=
  {| h_Version := h_Version h; h_Height := h_Height h; h_PreviousHash := h_PreviousHash h;
     h_StateRoot := h_StateRoot h; h_TxRoot := h_TxRoot h; h_ReceiptRoot := h_ReceiptRoot h;
     h_ValidatorRoot := h_ValidatorRoot h; h_ValidatorSetHash := h_ValidatorSetHash h;
     h_Epoch := h_Epoch h; h_Timestamp := h_Timestamp h; h_Proposer := h_Proposer h;
     h_EventsRoot := ZeroHash |}.

Lemma encodeHeader_length h : length (encodeHeader h) = expectedHeaderLen.
Proof. unfold encodeHeader. by rewrite !length_app, !length_be, !arr_length. Qed.

Lemma decode_encode_header h :
  BlockHeader_wf h → decodeHeader (encodeHeader h) = Ok (stored_header h).
Proof.
  intros (Hv & Hh & He & Ht). unfold decodeHeader. rewrite encodeHeader_length, bool_decide_eq_false_2 by lia.
  unfold encodeHeader. skip.
  rewrite !Uint64_app by done. cbn [mbind res_bind]. unfold stored_header.
  by rewrite !arr_copy_app, arr_copy_arr.
Qed.

Lemma storable_key n (v : Z) data :
  (0 < n <= 100)%nat → Z.of_nat (length data) <= MaxValueSize → storable (be n v) data.
Proof. intros Hn Hd. unfold storable, MaxKeySize. rewrite length_be. lia. Qed.

Lemma height_key_inj a b : fits 8 a → fits 8 b → height_key a = height_key b → a = b.
Proof. apply be_inj. Qed.

(** ** Properties *)

(** What a database answers about a block that was stored. *)
Definition block_stored {DB Tx} `{BoltDB DB Tx} (db : DB) (block : Block) : Prop :=
  let height := h_Height (b_Header block) in
  LoadTip db = (db, Ok (stored_header (b_Header block))) ∧
  LoadBlockHeader height db = (db, Ok (stored_header (b_Header block))) ∧
  LoadBlock height db = (db, Ok (gossiped block)).

(** What is known of other heights does not change. *)
Definition other_heights {DB Tx} `{BoltDB DB Tx} (height : Z) (db db' : DB) : Prop :=
  ∀ h, fits 8 h → h ≠ height →
    (∀ x, (LoadBlockHeader h db').2 = Ok x ↔ (LoadBlockHeader h db).2 = Ok x) ∧
    (∀ x, (LoadBlock h db').2 = Ok x ↔ (LoadBlock h db).2 = Ok x).

(** The three writes of [AtomicStoreBlockAndTip]. *)
Definition block_written (block : Block) (data : bytes) (m : contents) : contents :=
  let key := height_key (h_Height (b_Header block)) in
  put_in chainBucket tipKey (encodeHeader (b_Header block))
    (put_in fullBlocksBucket key data
       (put_in blocksBucket key (encodeHeader (b_Header block)) m)).

Lemma atomic_store_inv {DB Tx} `{BoltLaws DB Tx} (db db' : DB) block data u :
  EncodeBlockMessage block = Ok data → AtomicStoreBlockAndTip block db = (db', Ok u) →
  db_buckets db' = block_written block data (db_buckets db).
Proof.
  intros Hd (tx & Hr & Hb)%Update_inv. rewrite Hb. clear Hb.
  apply go_bind_inv in Hr as (t1 & u1 & H1 & Hr). apply go_bind_inv in Hr as (t2 & u2 & H2 & Hr).
  destruct (create_put_inv _ _ _ _ _ _ _ _ H1 H2) as [_ B1].
  apply go_bind_inv in Hr as (t3 & u3 & H3 & Hr).
  apply go_bind_inv in Hr as (t4 & d & H4 & Hr). rewrite Hd in H4. injection H4 as <- <-.
  apply go_bind_inv in Hr as (t5 & u5 & H5 & Hr).
  destruct (create_put_inv _ _ _ _ _ _ _ _ H3 H5) as [_ B2].
  apply go_bind_inv in Hr as (t6 & u6 & H6 & Hr).
  destruct (create_put_inv _ _ _ _ _ _ _ _ H6 Hr) as [_ B3].
  unfold block_written. by rewrite B3, B2, B1.
Qed.

Lemma block_written_lookup {DB Tx} `{BoltDB DB Tx} (db db' : DB) block data :
  db_buckets db' = block_written block data (db_buckets db) →
  let key := height_key (h_Height (b_Header block)) in
  bucket_of db' chainBucket = <[tipKey := encodeHeader (b_Header block)]> (bucket_of db chainBucket) ∧
  bucket_of db' fullBlocksBucket = <[key := data]> (bucket_of db fullBlocksBucket) ∧
  bucket_of db' blocksBucket = <[key := encodeHeader (b_Header block)]> (bucket_of db blocksBucket).
Proof. intros Hb. unfold bucket_of. rewrite Hb. unfold block_written. by rewrite !put_in_lookup. Qed.

(** Loading what the buckets hold. *)
Lemma block_written_stored {DB Tx} `{BoltLaws DB Tx} (db db' : DB) block data :
  Block_wf block → EncodeBlockMessage block = Ok data →
  db_buckets db' = block_written block data (db_buckets db) →
  block_stored db' block ∧ other_heights (h_Height (b_Header block)) db db'.
Proof.
  intros Hwf Hd Hrun. destruct (block_written_lookup _ _ _ _ Hrun) as (Hc & Hf & Hb).
  destruct (block_message_decodes block Hwf) as (data' & Hd' & Hdec).
  rewrite Hd in Hd'. injection Hd' as <-. specialize (Hdec []). rewrite app_nil_r in Hdec.
  pose proof (decode_encode_header _ (wf_header _ Hwf)) as Hh. split; [split_and!|].
  - eapply View_read; [apply bucket_of_some; by rewrite Hc, lookup_insert_eq|].
    intros tx. unfold wrap, lift. by rewrite Hh.
  - eapply View_read; [apply bucket_of_some; by rewrite Hb, lookup_insert_eq|].
    intros tx. unfold wrap, lift. by rewrite Hh.
  - eapply View_read; [apply bucket_of_some; by rewrite Hf, lookup_insert_eq|].
    intros tx. unfold wrap, lift. by rewrite Hdec.
  - intros h Hfit Hne. assert (height_key (h_Height (b_Header block)) ≠ height_key h) as Hk.
    { intros E. apply Hne. symmetry. apply height_key_inj; [apply (wf_header _ Hwf)|done|done]. }
    split; intros x; apply view_frame;
      try (intros d t t'; unfold wrap, lift; by case_match);
      [rewrite Hb|rewrite Hf]; by rewrite lookup_insert_ne.
Qed.

Lemma atomic_store_total {DB Tx} `{BoltLaws DB Tx, !BoltReliable DB Tx} (db : DB) block data :
  EncodeBlockMessage block = Ok data → Z.of_nat (length data) <= MaxValueSize →
  (AtomicStoreBlockAndTip block db).2 = Ok tt.
Proof.
  intros Hd Hlen. unfold AtomicStoreBlockAndTip.
  assert (∀ k, (0 < length k <= 100)%nat → storable k (encodeHeader (b_Header block))) as Hst.
  { intros k Hk. unfold storable, MaxKeySize, MaxValueSize. rewrite encodeHeader_length. unfold expectedHeaderLen. lia. }
  assert (∀ k, (0 < length k <= 100)%nat → storable k data) as Hst'.
  { intros k Hk. unfold storable, MaxKeySize. lia. }
  cbv zeta. rewrite Hd.
  destruct (bind_create_put blocksBucket (height_key (h_Height (b_Header block)))
    (encodeHeader (b_Header block))
    (CreateBucketIfNotExists fullBlocksBucket;;
     (blockData ← wrap "failed to encode block" (lift (Ok data));
      (Put fullBlocksBucket (height_key (h_Height (b_Header block))) blockData;;
       (CreateBucketIfNotExists chainBucket;; Put chainBucket tipKey (encodeHeader (b_Header block))))))
    (db_begin db)) as (t1 & H1 & _); [done|apply Hst; unfold height_key; rewrite length_be; lia|].
  destruct (bind_create_put fullBlocksBucket (height_key (h_Height (b_Header block))) data
    (CreateBucketIfNotExists chainBucket;; Put chainBucket tipKey (encodeHeader (b_Header block)))
    t1) as (t2 & H2 & _); [done|apply Hst'; unfold height_key; rewrite length_be; lia|].
  destruct (create_put chainBucket tipKey (encodeHeader (b_Header block)) t2) as (t3 & H3 & _);
    [done|apply Hst; cbn; lia|].
  destruct (Update_ok (CreateBucketIfNotExists blocksBucket;;
    (Put blocksBucket (height_key (h_Height (b_Header block))) (encodeHeader (b_Header block));;
    (CreateBucketIfNotExists fullBlocksBucket;;
     (blockData ← wrap "failed to encode block" (lift (Ok data));
      (Put fullBlocksBucket (height_key (h_Height (b_Header block))) blockData;;
       (CreateBucketIfNotExists chainBucket;; Put chainBucket tipKey (encodeHeader (b_Header block)))))))) db t3 tt)
    as (db' & Hu & _); [|by rewrite Hu].
  rewrite H1. etransitivity; [exact H2|]. exact H3.
Qed.

(** *** Votes *)

(** The loop of [LoadVotes] over the entries of votes. *)
Definition vote_entry (v : Vote) : bytes * bytes := (vote_key v, wire (Vote_Encode v)).

Definition wanted (height voteType : Z) (v : Vote) : bool :=
  (v_Height v =? height) && ((voteType =? 0) || (v_VoteType v =? voteType)).

Lemma vote_key_length v : length (vote_key v) = 29%nat.
Proof. unfold vote_key. by rewrite !length_app, !length_be, arr_length. Qed.

Lemma vote_key_height v : Vote_wf v → unbe (take 8 (vote_key v)) = v_Height v.
Proof.
  intros (_ & Hh & _). unfold vote_key. rewrite take_app_le by (by rewrite length_be).
  rewrite take_ge by (by rewrite length_be). by apply unbe_be_small.
Qed.

Lemma vote_key_type v : Vote_wf v → unbe (take 1 (drop 8 (vote_key v))) = v_VoteType v.
Proof.
  intros (Ht & _). unfold vote_key. skip. rewrite take_app_le by (by rewrite length_be).
  rewrite take_ge by (by rewrite length_be). by apply unbe_be_small.
Qed.

Lemma vote_key_inj v w :
  Vote_wf v → Vote_wf w → vote_key v = vote_key w →
  v_Height v = v_Height w ∧ v_VoteType v = v_VoteType w ∧ v_Validator v = v_Validator w.
Proof.
  intros Hv Hw E. split; [by rewrite <- !vote_key_height, E|].
  split; [by rewrite <- !vote_key_type, E|]. apply arr_eq.
  unfold vote_key in E. apply app_inj_1 in E as [_ E]; [|by rewrite !length_be].
  by apply app_inj_1 in E as [_ E]; [|by rewrite !length_be].
Qed.

(** The byte order of keys refines the order of heights. *)
Lemma key_order_height v w :
  Vote_wf v → Vote_wf w → bytes_lt (vote_key w) (vote_key v) = false → v_Height v <= v_Height w.
Proof.
  intros (_ & Hv & _) (_ & Hw & _) Hlt. destruct (Z.le_gt_cases (v_Height v) (v_Height w)) as [|Hgt]; [done|].
  exfalso. apply not_true_iff_false in Hlt. apply Hlt, bytes_lt_true.
  rewrite bytes_compare_unbe by (by rewrite !vote_key_length). apply Z.compare_lt_iff.
  unfold vote_key. rewrite !(unbe_app (be 8 _)), !unbe_be_small by done.
  rewrite !length_app, !length_be, !arr_length.
  assert (∀ u, 0 <= unbe (be 1 (v_VoteType u) ++ v_Validator u) < 256 ^ 21) as Hr.
  { intros u. pose proof (unbe_range (be 1 (v_VoteType u) ++ v_Validator u)) as Hr.
    by rewrite length_app, length_be, arr_length in Hr. }
  pose proof (Hr v). pose proof (Hr w). change (256 ^ Z.of_nat (1 + 20)) with (256 ^ 21). nia.
Qed.

Lemma bytes_lt_prefix a x b : length a = length b → bytes_lt (a ++ x) b = bytes_lt a b.
Proof.
  revert b. induction a as [|c a IH]; intros [|d b] Hlen; try done.
  { by destruct x. }
  injection Hlen as Hlen. specialize (IH b Hlen). unfold bytes_lt in *. cbn [bytes_compare app].
  by destruct (b2z c ?= b2z d).
Qed.

Lemma seek_height v height :
  Vote_wf v → fits 8 height → bytes_lt (vote_key v) (height_key height) = false ↔ height <= v_Height v.
Proof.
  intros (_ & Hv & _) Hh. unfold vote_key, height_key. rewrite bytes_lt_prefix by (by rewrite !length_be).
  unfold bytes_lt. rewrite bytes_compare_unbe, !unbe_be_small by (done || by rewrite !length_be).
  destruct (Z.compare_spec (v_Height v) height); split; intros; lia || done.
Qed.

Lemma load_votes_spec height voteType vs :
  Forall Vote_wf vs → Forall (λ v, height <= v_Height v) vs →
  StronglySorted (not_after (less_by fst)) (vote_entry <$> vs) →
  load_votes height voteType (vote_entry <$> vs) = Ok (List.filter (wanted height voteType) vs).
Proof.
  intros Hwf Hge. induction vs as [|v vs IH]; intros Hs; [done|].
  apply Forall_cons in Hwf as [Hv Hwf]. apply Forall_cons in Hge as [Hgv Hge].
  rewrite fmap_cons in Hs |- *. apply StronglySorted_inv in Hs as [Hs Hhead]. cbn [load_votes List.filter].
  unfold vote_entry at 1. rewrite vote_key_length, vote_key_height, vote_key_type by done.
  rewrite bool_decide_eq_false_2 by lia. unfold wanted at 1. cbn [orb andb].
  destruct (Z.eqb_spec (v_Height v) height) as [Eh|Nh]; cbn [negb andb].
  - rewrite IH by done. rewrite bool_decide_eq_true_2 by lia. rewrite andb_true_r.
    assert (run_reader Vote_Decode (wire (Vote_Encode v)) = Ok v) as Hdec.
    { unfold run_reader. pose proof (rt_parses v Hv []) as Hp. rewrite app_nil_r in Hp. by rewrite Hp. }
    destruct (voteType =? 0), (v_VoteType v =? voteType); cbn; by rewrite ?Hdec.
  - f_equal. symmetry. destruct (List.filter (wanted height voteType) vs) as [|w ws] eqn:E; [done|].
    assert (w ∈ vs ∧ wanted height voteType w = true) as [Hin Hw].
    { rewrite list_elem_of_In, <- filter_In, E. by left. }
    rewrite Forall_forall in Hhead. pose proof (proj1 (Forall_forall _ _) Hwf w Hin) as Hww.
    pose proof (Hhead (vote_entry w) (list_elem_of_fmap_2 _ _ _ Hin)) as Ho.
    apply (key_order_height v w Hv Hww) in Ho.
    unfold wanted in Hw. apply andb_true_iff in Hw as [Hw _]. lia.
Qed.

Lemma wire_vote_length v : Z.of_nat (length (wire (Vote_Encode v))) = 69 + Z.of_nat (length (v_Signature v)).
Proof.
  unfold wire, Vote_Encode, write_uint, Write, mbind, go_bind. cbn [fst].
  rewrite !length_app, !length_be, !arr_length. cbn [length]. lia.
Qed.

Lemma encode_wire {A} {wf : A → Prop} {enc dec} `{!RoundTrip wf enc dec} a :
  wf a → encode_bytes (enc a) = Ok (wire (enc a)).
Proof. intros Ha. by apply encode_bytes_emits, rt_emits. Qed.

Lemma StoreVote_spec {DB Tx} `{BoltLaws DB Tx, !BoltReliable DB Tx} (db : DB) v :
  Vote_wf v →
  ∃ db', StoreVote v db = (db', Ok tt) ∧
    db_buckets db' = put_in votesBucket (vote_key v) (wire (Vote_Encode v)) (db_buckets db).
Proof.
  intros Hv. apply store_one; [|done|].
  - by rewrite (bind_encoded _ _ (wire (Vote_Encode v))) by (by apply encode_wire).
  - destruct Hv as (_ & _ & _ & Hs). unfold storable, MaxKeySize, MaxValueSize.
    rewrite vote_key_length, wire_vote_length. lia.
Qed.

(** The vote kept under each key. *)
Definition vote_book (vs : list Vote) : gmap bytes Vote :=
  fold_left (λ M v, <[vote_key v := v]> M) vs ∅.

Lemma vote_book_snoc vs v : vote_book (vs ++ [v]) = <[vote_key v := v]> (vote_book vs).
Proof. unfold vote_book. by rewrite fold_left_app. Qed.

(** The last vote with its key. *)
Definition latest (vs : list Vote) (v : Vote) : Prop :=
  ∃ pre post, vs = pre ++ v :: post ∧
    ∀ w, w ∈ post → ¬ (v_Height w = v_Height v ∧ v_VoteType w = v_VoteType v ∧ v_Validator w = v_Validator v).

Lemma vote_book_latest vs k v :
  Forall Vote_wf vs → vote_book vs !! k = Some v ↔ k = vote_key v ∧ latest vs v.
Proof.
  induction vs as [|w vs IH] using rev_ind; intros Hwf.
  { cbn. rewrite lookup_empty. split; [done|]. intros (_ & pre & post & E & _). by destruct pre. }
  apply Forall_app in Hwf as [Hwf Hw]. rewrite Forall_singleton in Hw. rewrite vote_book_snoc.
  destruct (decide (k = vote_key w)) as [->|Hk].
  - rewrite lookup_insert_eq. split.
    + intros [= <-]. split; [done|]. exists vs, []. split; [done|]. intros x Hx. by apply not_elem_of_nil in Hx.
    + intros [Ek (pre & post & E & Hpost)]. f_equal.
      destruct post as [|x post _] using rev_ind; [apply app_inj_2 in E as [_ [= ->]]; done|].
      rewrite app_comm_cons, app_assoc in E. apply app_inj_2 in E as [E [= ->]]; [|done]. exfalso.
      apply (Hpost x); [set_solver|]. apply vote_key_inj; [done| |done].
      subst vs. apply Forall_app in Hwf as [_ Hwf]. by inversion Hwf.
  - rewrite lookup_insert_ne, IH by done. split; intros [-> (pre & post & E & Hpost)]; (split; [done|]).
    + exists pre, (post ++ [w]). rewrite E, <- app_assoc. split; [done|].
      intros x [Hx|Hx%list_elem_of_singleton]%elem_of_app; [by apply Hpost|]. subst x.
      intros (E1 & E2 & E3). apply Hk. unfold vote_key. by rewrite E1, E2, E3.
    + destruct post as [|x post _] using rev_ind.
      { apply app_inj_2 in E as [_ [= ->]]; [by destruct Hk|done]. }
      rewrite app_comm_cons, app_assoc in E. apply app_inj_2 in E as [E [= ->]]; [|done].
      exists pre, post. split; [done|]. intros y Hy. apply Hpost. set_solver.
Qed.

(** Storing votes one after the other, from a database without votes. *)
Lemma store_votes {DB Tx} `{BoltLaws DB Tx, !BoltReliable DB Tx} (db : DB) vs :
  Forall Vote_wf vs → bucket_of db votesBucket = ∅ →
  ∃ db', for_each vs StoreVote db = (db', Ok tt) ∧
    bucket_of db' votesBucket = (λ v, wire (Vote_Encode v)) <$> vote_book vs.
Proof.
  intros Hwf Hnone. induction vs as [|w vs IH] using rev_ind.
  { exists db. split; [done|]. cbn. by rewrite fmap_empty. }
  apply Forall_app in Hwf as [Hwf Hw]. rewrite Forall_singleton in Hw.
  destruct (IH Hwf) as (db1 & Hr1 & Hb1). destruct (StoreVote_spec db1 w Hw) as (db2 & Hr2 & Hb2).
  exists db2. split.
  - rewrite for_each_app, (go_bind_ok _ _ _ _ _ Hr1). cbn [for_each].
    by rewrite (go_bind_ok _ _ _ _ _ Hr2).
  - rewrite (bucket_put_in _ _ _ _ _ _ Hb2), decide_True by done.
    unfold bucket_of in Hb1. by rewrite Hb1, vote_book_snoc, fmap_insert.
Qed.

Lemma LoadVotes_bucket {DB Tx} `{BoltDB DB Tx} (db : DB) height voteType :
  LoadVotes height voteType db
  = (db, load_votes height voteType (seek (height_key height) (bucket_of db votesBucket))).
Proof.
  unfold LoadVotes, View, Bucket, gets, mbind, go_bind, bucket_of, db_buckets.
  destruct (tx_buckets (db_begin db) !! votesBucket); [reflexivity|]. cbn [default]. by rewrite seek_empty.
Qed.

(** What the cursor sees of stored votes. *)
Lemma seek_votes vs height :
  Forall Vote_wf vs → fits 8 height →
  ∃ l, seek (height_key height) ((λ v, wire (Vote_Encode v)) <$> vote_book vs) = vote_entry <$> l ∧
    Forall Vote_wf l ∧ ∀ v, v ∈ l ↔ latest vs v ∧ height <= v_Height v.
Proof.
  intros Hwf Hh. set (M := (λ v, wire (Vote_Encode v)) <$> vote_book vs).
  assert (∀ v, latest vs v → Vote_wf v) as Hlat.
  { intros v (pre & post & -> & _). apply Forall_app in Hwf as [_ Hwf]. by inversion Hwf. }
  assert (∀ k x, (k, x) ∈ seek (height_key height) M ↔
            ∃ v, (k, x) = vote_entry v ∧ latest vs v ∧ height <= v_Height v) as Hin.
  { intros k x. rewrite elem_of_seek. unfold M. rewrite lookup_fmap, fmap_Some. split.
    - intros [(v & Hv & ->) Hlt]. apply vote_book_latest in Hv as [-> Hv]; [|done].
      exists v. split; [done|]. split; [done|]. by apply seek_height; [apply Hlat| |].
    - intros (v & [= -> ->] & Hv & Hle). split; [|by apply seek_height; [apply Hlat| |]].
      exists v. split; [|done]. by apply vote_book_latest. }
  destruct (fmap_of_each vote_entry (λ v, latest vs v ∧ height <= v_Height v) (seek (height_key height) M))
    as (l & El & Hl).
  { intros [k x] Hx. by apply Hin. }
  exists l. split; [done|]. split; [eapply Forall_impl; [exact Hl|]; intros v [Hv _]; by apply Hlat|].
  intros v. split; [by apply (proj1 (Forall_forall _ _) Hl)|]. intros Hv.
  assert (vote_entry v ∈ vote_entry <$> l) as Hv'.
  { rewrite <- El. destruct (vote_entry v) as [k x] eqn:E. apply Hin. by exists v. }
  apply list_elem_of_fmap in Hv' as (w & E & Hw). pose proof (f_equal snd E) as Ex. cbn [snd vote_entry] in Ex.
  pose proof (proj1 (Forall_forall _ _) Hl w Hw) as [Hlw _].
  assert (v = w) as ->; [|done].
  apply (rt_inj (wf := Vote_wf) (enc := Vote_Encode) (dec := Vote_Decode)); [apply Hlat, Hv|by apply Hlat|done].
Qed.

(** *** Evidence *)

Lemma str_bytes_app s t : str_bytes (s +:+ t) = str_bytes s ++ str_bytes t.
Proof.
  induction s as [|c s IH]; [done|].
  change (Ascii.byte_of_ascii c :: str_bytes (s +:+ t) = Ascii.byte_of_ascii c :: str_bytes s ++ str_bytes t).
  by rewrite IH.
Qed.

Lemma bytes_lt_common p a b : bytes_lt (p ++ a) (p ++ b) = bytes_lt a b.
Proof.
  induction p as [|c p IH]; [done|]. unfold bytes_lt in *. cbn [bytes_compare app].
  by rewrite Z.compare_refl.
Qed.

Lemma digit_before_all c t :
  is_dec c = true ∨ c = Ascii.ascii_of_nat 47 →
  bytes_lt (str_bytes ("evidence/" +:+ String c t)) (str_bytes evidence_prefix) = true.
Proof.
  intros Hc. assert (b2z (Ascii.byte_of_ascii c) < 97) as Hlt.
  { destruct Hc as [Hc| ->]; [|done]. unfold is_dec in Hc. apply existsb_exists in Hc as (d & Hd & ->%Ascii.eqb_eq).
    cbn in Hd. repeat (destruct Hd as [<-|Hd]; [vm_compute; reflexivity|]). done. }
  change evidence_prefix with ("evidence/" +:+ "all/"). rewrite !str_bytes_app, bytes_lt_common.
  change (str_bytes (String c t)) with (Ascii.byte_of_ascii c :: str_bytes t).
  change (str_bytes "all/") with (x61 :: str_bytes "ll/"). unfold bytes_lt. cbn [bytes_compare].
  change (b2z x61) with 97. by rewrite (proj2 (Z.compare_lt_iff _ _) Hlt).
Qed.

(** The keys by height come before the index. *)
Lemma evidence_key_before height hashPrefix :
  bytes_lt (evidence_key height hashPrefix) (str_bytes evidence_prefix) = true.
Proof.
  unfold evidence_key. pose proof (dec_chars height) as Hc.
  destruct (dec height) as [|c t]; [apply digit_before_all; by right|].
  cbn [chars] in Hc. apply andb_true_iff in Hc as [Hc _].
  apply (digit_before_all c (t +:+ "/" +:+ hashPrefix)). by left.
Qed.

Lemma hex_length l : length (str_bytes (hex l)) = (2 * length l)%nat.
Proof.
  induction l as [|b l IH]; [done|]. cbn [hex].
  change (S (S (length (str_bytes (hex l)))) = (2 * S (length l))%nat). lia.
Qed.

Lemma index_key_length h : length (evidence_index_key h) = 77%nat.
Proof. unfold evidence_index_key. by rewrite str_bytes_app, length_app, hex_length, arr_length. Qed.

Lemma index_key_after h : bytes_lt (evidence_index_key h) (str_bytes evidence_prefix) = false.
Proof.
  unfold evidence_index_key. rewrite str_bytes_app, bytes_lt_prefix by done.
  unfold bytes_lt. by rewrite (proj2 (bytes_compare_eq _ _) eq_refl).
Qed.

Lemma index_key_inj h g : evidence_index_key h = evidence_index_key g → h = g.
Proof.
  unfold evidence_index_key. intros E. rewrite !str_bytes_app in E. apply app_inv_head in E.
  apply (f_equal bytes_str) in E. rewrite !bytes_str_bytes in E. by apply arr_eq, hex_inj.
Qed.

Lemma elem_of_evidence_entries m k x :
  (k, x) ∈ evidence_entries m ↔
  m !! k = Some x ∧ bytes_lt k (str_bytes evidence_prefix) = false ∧ (13 < length k)%nat.
Proof.
  unfold evidence_entries. rewrite elem_of_filter_list, elem_of_seek. cbn [fst].
  change (length (str_bytes evidence_prefix)) with 13%nat.
  rewrite negb_true_iff, bool_decide_eq_false. rewrite Nat.nle_gt. tauto.
Qed.

Lemma EvidenceHash_ok `{Hasher} ev :
  (∀ data, ∃ h, hash_data data = Ok h) → Evidence_wf ev → ∃ h, EvidenceHash ev = Ok h.
Proof.
  intros Hh Hwf. unfold EvidenceHash.
  assert (∃ bs, encode_bytes (evidence_preimage ev) = Ok bs) as [bs Hbs]; [|rewrite Hbs; apply Hh].
  destruct ev as [a b|p r|v r]; destruct Hwf as [H1 H2]; cbn [evidence_preimage]; eexists; apply encode_bytes_emits.
  - unfold DoubleSignEvidence_Encode.
    eapply emits_bind; [apply emits_uint|]. eapply emits_bind; by apply rt_emits.
  - by apply rt_emits.
  - eapply emits_bind; [apply emits_uint|]. by apply rt_emits.
Qed.

(** The SHA-256 hash that identifies a piece of evidence. *)
Definition evidence_id (ev : Evidence) : Hash :=
  match EvidenceHash (H := SHA256Hasher) ev with Ok h => h | _ => ZeroHash end.

Definition evidence_entry (ev : Evidence) : bytes * bytes :=
  (evidence_index_key (evidence_id ev), wire (EncodeEvidence ev)).

(** Evidence that the database can hold. *)
Definition evidence_ok (ev : Evidence) : Prop :=
  Evidence_wf ev ∧ Z.of_nat (length (wire (EncodeEvidence ev))) <= MaxValueSize.

Lemma evidence_id_ok ev : Evidence_wf ev → EvidenceHash (H := SHA256Hasher) ev = Ok (evidence_id ev).
Proof.
  intros Hwf. destruct (EvidenceHash_ok (H := SHA256Hasher) ev) as [h Hh]; [by eexists|done|].
  unfold evidence_id. by rewrite Hh.
Qed.

Lemma pretty_go_length k n s :
  (n < 10 ^ N.of_nat k)%N → (length (str_bytes (pretty_N_go n s)) <= k + length (str_bytes s))%nat.
Proof.
  revert n s. induction k as [|k IH]; intros n s Hn.
  - replace n with 0%N by lia. by rewrite pretty_N_go_0.
  - destruct (decide (0 < n)%N) as [Hp|Hp].
    + rewrite pretty_N_go_step by done. etransitivity; [apply IH|].
      * apply N.Div0.div_lt_upper_bound. by rewrite <- N.pow_succ_r', <- Nat2N.inj_succ.
      * change (k + S (length (str_bytes s)) <= S k + length (str_bytes s))%nat. lia.
    + replace n with 0%N by lia. rewrite pretty_N_go_0. lia.
Qed.

Lemma dec_length_bound v : fits 8 v → (length (str_bytes (dec v)) <= 20)%nat.
Proof.
  intros [Hv1 Hv2]. change (256 ^ Z.of_nat 8) with (2 ^ 64) in Hv2.
  unfold dec, pretty, pretty_Z. destruct v as [|p|p]; [cbn; lia| |lia].
  change (length (str_bytes (pretty (N.pos p))) <= 20)%nat. unfold pretty, pretty_N.
  case_decide; [cbn; lia|]. etransitivity; [apply (pretty_go_length 20)|by cbn].
  change (10 ^ N.of_nat 20)%N with 100000000000000000000%N. lia.
Qed.

Lemma evidence_key_storable ev (h : Hash) data :
  Evidence_wf ev → Z.of_nat (length data) <= MaxValueSize →
  storable (evidence_key (Evidence_Height ev) (hex (take 8 h))) data.
Proof.
  intros Hwf Hd. split; [|done]. unfold evidence_key. rewrite !str_bytes_app, !length_app, hex_length.
  rewrite length_take, arr_length.
  assert (fits 8 (Evidence_Height ev)) as Hh.
  { destruct ev as [a b|p r|v r]; destruct Hwf as [H1 H2]; cbn; [apply H1|apply H1|apply H1]. }
  pose proof (dec_length_bound _ Hh). unfold MaxKeySize.
  change (length (str_bytes "evidence/")) with 9%nat. change (length (str_bytes "/")) with 1%nat. lia.
Qed.

Section evidence.
Context {DB Tx : Type} `{BoltLaws DB Tx, !BoltReliable DB Tx}.

Lemma StoreEvidence_dup (db : DB) ev :
  Evidence_wf ev → is_Some (bucket_of db evidenceBucket !! evidence_index_key (evidence_id ev)) →
  StoreEvidence ev db = (db, Err ErrDuplicateEvidence).
Proof.
  intros Hwf Hdup. unfold StoreEvidence, Update.
  destruct (create_ok evidenceBucket (db_begin db)) as (t1 & H1 & B1); [done|].
  rewrite (go_bind_ok _ _ _ _ _ H1), (evidence_id_ok ev Hwf).
  rewrite (go_bind_ok _ _ t1 t1 (evidence_id ev)) by done.
  rewrite (go_bind_ok _ _ t1 t1 (tx_buckets t1 !! evidenceBucket)) by done.
  rewrite B1, with_bucket_lookup, decide_True by done. cbn [default].
  unfold bucket_of, db_buckets in Hdup. by rewrite (bool_decide_eq_true_2 _ Hdup).
Qed.

Lemma StoreEvidence_new (db : DB) ev :
  evidence_ok ev → bucket_of db evidenceBucket !! evidence_index_key (evidence_id ev) = None →
  ∃ db' k, StoreEvidence ev db = (db', Ok tt) ∧ bytes_lt k (str_bytes evidence_prefix) = true ∧
    bucket_of db' evidenceBucket =
      <[evidence_index_key (evidence_id ev) := wire (EncodeEvidence ev)]>
        (<[k := wire (EncodeEvidence ev)]> (bucket_of db evidenceBucket)).
Proof.
  intros [Hwf Hsize] Hnew. unfold StoreEvidence.
  assert (¬ is_Some (bucket_of db evidenceBucket !! evidence_index_key (evidence_id ev))) as Hno
    by (rewrite Hnew; apply is_Some_None).
  destruct (create_ok evidenceBucket (db_begin db)) as (t1 & H1 & B1); [done|].
  assert (tx_buckets t1 !! evidenceBucket = Some (bucket_of db evidenceBucket)) as B1'
    by (by rewrite B1, with_bucket_lookup, decide_True).
  set (k := evidence_key (Evidence_Height ev) (hex (take 8 (evidence_id ev)))).
  destruct (Put_ok evidenceBucket k (wire (EncodeEvidence ev)) t1 _ B1') as (t2 & H2 & B2).
  { by apply evidence_key_storable. }
  destruct (Put_ok evidenceBucket (evidence_index_key (evidence_id ev)) (wire (EncodeEvidence ev)) t2
    (<[k := wire (EncodeEvidence ev)]> (bucket_of db evidenceBucket))) as (t3 & H3 & B3).
  { by rewrite B2, lookup_insert_eq. }
  { unfold storable, MaxKeySize. rewrite index_key_length. lia. }
  match goal with |- context [Update ?f] => destruct (Update_ok f db t3 tt) as (db' & Hu & Hb) end.
  - rewrite (go_bind_ok _ _ _ _ _ H1), (evidence_id_ok ev Hwf).
    rewrite (go_bind_ok _ _ t1 t1 (evidence_id ev)) by done.
    rewrite (go_bind_ok _ _ t1 t1 (tx_buckets t1 !! evidenceBucket)) by done.
    rewrite B1'. cbn [default]. rewrite (bool_decide_eq_false_2 _ Hno).
    rewrite (go_bind_ok _ _ t1 t1 tt) by done. rewrite encode_wire by done.
    rewrite (go_bind_ok _ _ t1 t1 (wire (EncodeEvidence ev))) by done.
    by rewrite (go_bind_ok _ _ _ _ _ H2).
  - exists db', k. split; [done|]. split; [apply evidence_key_before|].
    unfold bucket_of at 1. rewrite Hb, B3. by rewrite lookup_insert_eq.
Qed.

(** Storing a sequence of distinct pieces of evidence. *)
Lemma store_all_evidence (db : DB) evs :
  Forall evidence_ok evs → NoDup (evidence_id <$> evs) → bucket_of db evidenceBucket = ∅ →
  ∃ db', for_each evs StoreEvidence db = (db', Ok tt) ∧
    ∀ k x, (k, x) ∈ evidence_entries (bucket_of db' evidenceBucket) ↔
           ∃ ev, ev ∈ evs ∧ (k, x) = evidence_entry ev.
Proof.
  intros Hok Hn Hnone. induction evs as [|ev evs IH] using rev_ind.
  { exists db. split; [done|]. intros k x. rewrite elem_of_evidence_entries, Hnone, lookup_empty.
    split; [by intros [? _]|]. intros (ev & Hev & _). by apply not_elem_of_nil in Hev. }
  apply Forall_app in Hok as [Hok Hev]. rewrite Forall_singleton in Hev.
  rewrite fmap_app in Hn. apply NoDup_app in Hn as (Hn & Hfresh & _).
  destruct (IH Hok Hn) as (db1 & Hr1 & Hb1).
  destruct (StoreEvidence_new db1 ev Hev) as (db2 & ek & Hr2 & Hek & Hb2).
  { destruct (bucket_of db1 evidenceBucket !! evidence_index_key (evidence_id ev)) as [x|] eqn:E; [|done].
    exfalso. destruct (proj1 (Hb1 (evidence_index_key (evidence_id ev)) x)) as (ev' & Hin & Ee).
    - apply elem_of_evidence_entries. split; [done|]. rewrite index_key_length. split; [apply index_key_after|lia].
    - apply (f_equal fst) in Ee. cbn [fst evidence_entry] in Ee. apply index_key_inj in Ee.
      apply (Hfresh (evidence_id ev')); [by apply list_elem_of_fmap_2|]. rewrite <- Ee. by left. }
  exists db2. split.
  - rewrite for_each_app, (go_bind_ok _ _ _ _ _ Hr1). cbn [for_each]. by rewrite (go_bind_ok _ _ _ _ _ Hr2).
  - intros k x. rewrite elem_of_evidence_entries, Hb2.
    destruct (decide (k = evidence_index_key (evidence_id ev))) as [->|Hk].
    + rewrite lookup_insert_eq, index_key_length. split.
      * intros ([= <-] & _). exists ev. split; [set_solver|done].
      * intros (ev' & Hin & E). pose proof (f_equal fst E) as Ek. cbn [fst evidence_entry] in Ek.
        apply index_key_inj in Ek. apply elem_of_app in Hin as [Hin|Hin%list_elem_of_singleton].
        { exfalso. apply (Hfresh (evidence_id ev')); [by apply list_elem_of_fmap_2|]. rewrite <- Ek. by left. }
        subst ev'. apply (f_equal snd) in E. cbn [snd evidence_entry] in E. subst x.
        split; [done|]. split; [apply index_key_after|lia].
    + rewrite lookup_insert_ne by done.
      assert (bytes_lt k (str_bytes evidence_prefix) = false →
        <[ek := wire (EncodeEvidence ev)]> (bucket_of db1 evidenceBucket) !! k
        = bucket_of db1 evidenceBucket !! k) as Hskip.
      { intros Hlt. apply lookup_insert_ne. intros ->. congruence. }
      assert ((∃ e, e ∈ evs ++ [ev] ∧ (k, x) = evidence_entry e) ↔
              ∃ e, e ∈ evs ∧ (k, x) = evidence_entry e) as ->.
      { split; intros (e & He & E); exists e; (split; [|done]); [|set_solver].
        apply elem_of_app in He as [He|He%list_elem_of_singleton]; [done|]. subst e.
        by injection E. }
      rewrite <- Hb1, elem_of_evidence_entries.
      split; intros (E & Hlt & Hl); (split; [|done]); [by rewrite <- Hskip|by rewrite Hskip].
Qed.
End evidence.

Lemma decode_all_entries evs :
  Forall Evidence_wf evs → decode_all (evidence_entry <$> evs) = Ok evs.
Proof.
  induction 1 as [|ev evs Hev Hevs IH]; [done|]. rewrite fmap_cons. cbn [decode_all evidence_entry].
  assert (run_reader DecodeEvidence (wire (EncodeEvidence ev)) = Ok ev) as Hdec.
  { unfold run_reader. pose proof (rt_parses ev Hev []) as Hp. rewrite app_nil_r in Hp. by rewrite Hp. }
  rewrite Hdec. cbn [wrap_res mbind res_bind]. by rewrite IH.
Qed.

#[global] Instance newest_first_order : LessOrder newest_first.
Proof. split; unfold newest_first; intros; rewrite ?Z.ltb_ge, ?Z.ltb_lt in *; lia. Qed.

(** Storing a block is atomic and exact. Whatever the disk does,
    [AtomicStoreBlockAndTip] either fails and leaves the database as it was, or
    the tip, the header and the block of that height can be loaded back (the
    header without its events root, the block without commit proof and
    evidence) and nothing changes at other heights; when the disk does not fail
    and the block is within the database's size limit, it succeeds. *)
Theorem block_store_atomic {DB Tx} `{BoltLaws DB Tx} (db db' : DB) (block : Block) (data : bytes) (r : res unit) :
  Block_wf block → EncodeBlockMessage block = Ok data →
  AtomicStoreBlockAndTip block db = (db', r) →
  match r with
  | Ok _ => block_stored db' block ∧ other_heights (h_Height (b_Header block)) db db'
  | _ => db' = db
  end ∧
  (BoltReliable DB Tx → Z.of_nat (length data) <= MaxValueSize → r = Ok tt).
Proof.
  intros Hwf Hd Hrun. split.
  - destruct r as [u|e|]; [|by eapply Update_err..].
    apply (block_written_stored _ _ _ data); [done..|]. by eapply atomic_store_inv.
  - intros Hrel Hlen. pose proof (atomic_store_total db block data Hd Hlen) as Ht. by rewrite Hrun in Ht.
Qed.

(** Stored votes are found again. After any sequence of votes has been
    stored in a database that held none, [LoadVotes] returns exactly the votes
    of the height and type asked for (any type for 0), each once, sorted by
    type and validator; of several votes of one validator at one height and of
    one type (whatever their rounds) only the last stored. *)
Theorem votes_load_exact {DB Tx} `{BoltLaws DB Tx, !BoltReliable DB Tx} (db : DB) (vs : list Vote)
    (height voteType : Z) :
  Forall Vote_wf vs → bucket_of db votesBucket = ∅ → fits 8 height →
  ∃ db' l, for_each vs StoreVote db = (db', Ok tt) ∧ LoadVotes height voteType db' = (db', Ok l) ∧
    NoDup (vote_key <$> l) ∧ StronglySorted (λ v w, bytes_lt (vote_key w) (vote_key v) = false) l ∧
    ∀ v, v ∈ l ↔ latest vs v ∧ v_Height v = height ∧ (voteType = 0 ∨ v_VoteType v = voteType).
Proof.
  intros Hwf Hnone Hh. destruct (store_votes db vs Hwf Hnone) as (db' & Hrun & Hb).
  destruct (seek_votes vs height Hwf Hh) as (l & Hseek & Hwl & Hl).
  exists db', (List.filter (wanted height voteType) l). split; [done|].
  pose proof (seek_sorted (height_key height) ((λ v, wire (Vote_Encode v)) <$> vote_book vs)) as Hs.
  rewrite Hseek in Hs. split; [|split; [|split]].
  - rewrite LoadVotes_bucket, Hb, Hseek, load_votes_spec; [done|done| |done].
    apply Forall_forall. intros v Hv. by apply Hl.
  - apply NoDup_fmap_filter.
    change (vote_key <$> l) with (list_fmap _ _ (fst ∘ vote_entry) l).
    rewrite list_fmap_compose, <- Hseek. apply seek_NoDup.
  - apply StronglySorted_filter. clear -Hs. induction l as [|v l IH]; [constructor|].
    rewrite fmap_cons in Hs. apply StronglySorted_inv in Hs as [Hs Hv]. constructor; [by apply IH|].
    rewrite Forall_fmap in Hv. exact Hv.
  - intros v. rewrite list_elem_of_In, filter_In, <- list_elem_of_In, Hl. unfold wanted.
    rewrite andb_true_iff, orb_true_iff, !Z.eqb_eq. intuition lia.
Qed.

(** Evidence is stored once and listed completely. Distinct pieces of
    evidence (by hash) can all be stored in a database that held none; then
    [LoadAllEvidence] returns each of them once, newest height first,
    [EvidenceCount] is their number, and storing evidence with the hash of one
    of them again is refused as a duplicate without effect. *)
Theorem evidence_store_exact {DB Tx} `{BoltLaws DB Tx, !BoltReliable DB Tx} (db : DB) (evs : list Evidence) :
  Forall evidence_ok evs → NoDup (evidence_id <$> evs) → bucket_of db evidenceBucket = ∅ →
  ∃ db' l, for_each evs StoreEvidence db = (db', Ok tt) ∧
    LoadAllEvidence db' = (db', Ok l) ∧ l ≡ₚ evs ∧
    StronglySorted (λ a b, Evidence_Height b <= Evidence_Height a) l ∧
    EvidenceCount db' = (db', Ok (Z.of_nat (length evs))) ∧
    ∀ ev, Evidence_wf ev → evidence_id ev ∈ evidence_id <$> evs →
      StoreEvidence ev db' = (db', Err ErrDuplicateEvidence).
Proof.
  intros Hok Hn Hnone. destruct (store_all_evidence db evs Hok Hn Hnone) as (db' & Hrun & Hin).
  destruct (fmap_of_each evidence_entry (λ ev, ev ∈ evs) (evidence_entries (bucket_of db' evidenceBucket)))
    as (l & El & Hl).
  { intros [k x] Hx. apply Hin in Hx as (ev & Hev & E). by exists ev. }
  assert (l ≡ₚ evs) as Hperm.
  { assert (NoDup (evidence_index_key ∘ evidence_id <$> l)) as Hnl.
    { change (evidence_index_key ∘ evidence_id <$> l) with (list_fmap _ _ (fst ∘ evidence_entry) l).
      rewrite list_fmap_compose, <- El. apply NoDup_fmap_filter, seek_NoDup. }
    apply NoDup_Permutation; [by apply NoDup_fmap_1 in Hnl|by apply NoDup_fmap_1 in Hn|].
    intros ev. split; [by apply (proj1 (Forall_forall _ _) Hl)|]. intros Hev.
    assert (evidence_entry ev ∈ evidence_entry <$> l) as He.
    { rewrite <- El. destruct (evidence_entry ev) as [k x] eqn:E. apply Hin. by exists ev. }
    apply list_elem_of_fmap in He as (w & E & Hw). assert (ev = w) as ->; [|done].
    pose proof (proj1 (Forall_forall _ _) Hl w Hw) as Hwe.
    apply (f_equal fst) in E. cbn [fst evidence_entry] in E. apply index_key_inj in E.
    by apply (NoDup_fmap_inj_on evidence_id evs). }
  assert (Forall Evidence_wf evs) as Hwf by (eapply Forall_impl; [exact Hok|]; by intros ev [? _]).
  exists db', (sort_slice newest_first l). split; [done|]. split; [|split; [|split; [|split]]].
  - unfold LoadAllEvidence, View. f_equal.
    rewrite (go_bind_ok _ _ (db_begin db') (db_begin db') (db_buckets db' !! evidenceBucket)) by done.
    fold (bucket_of db' evidenceBucket). rewrite El, decode_all_entries by (by rewrite Hperm). done.
  - by rewrite sort_slice_perm.
  - eapply StronglySorted_mono; [|apply sort_slice_sorted, _]. unfold not_after, newest_first.
    intros a b. apply Z.ltb_ge.
  - unfold EvidenceCount, View. f_equal.
    rewrite (go_bind_ok _ _ (db_begin db') (db_begin db') (db_buckets db' !! evidenceBucket)) by done.
    fold (bucket_of db' evidenceBucket). by rewrite El, length_fmap, Hperm.
  - intros ev Hev (ev' & E & Hin')%list_elem_of_fmap. apply StoreEvidence_dup; [done|].
    rewrite E. exists (wire (EncodeEvidence ev')).
    apply (elem_of_evidence_entries _ (evidence_index_key (evidence_id ev'))). apply Hin. by exists ev'.
Qed.

(** ** Examples *)

Definition chain_vote (round : Z) (validator : byte) : Vote :=
  {| v_VoteType := VotePrecommit; v_Height := 7; v_Round := round; v_BlockHash := ZeroHash;
     v_Validator := arr_copy 20 [validator]; v_Signature := [x01] |}.

Lemma chain_vote_wf round validator : 0 <= round < 2 ^ 32 → Vote_wf (chain_vote round validator).
Proof.
  intros Hr. unfold Vote_wf, fits. cbn [chain_vote v_VoteType v_Height v_Round v_Signature length].
  change (256 ^ Z.of_nat 4) with (2 ^ 32). split_and!; try lia; vm_compute; (reflexivity || discriminate).
Qed.

Lemma block_store_atomic_witness :
  ∃ db', AtomicStoreBlockAndTip gossip_block (∅ : contents) = (db', Ok tt) ∧ block_stored db' gossip_block.
Proof.
  destruct (block_message_decodes gossip_block gossip_block_wf) as (data & Hd & _).
  assert (match EncodeBlockMessage gossip_block with
          | Ok d => Z.of_nat (length d) <=? MaxValueSize
          | _ => false
          end = true) as Hlen by (vm_compute; reflexivity).
  rewrite Hd in Hlen. apply Z.leb_le in Hlen.
  destruct (AtomicStoreBlockAndTip gossip_block (∅ : contents)) as [db' r] eqn:E.
  destruct (block_store_atomic (∅ : contents) db' gossip_block data r gossip_block_wf Hd E) as [H1 H2].
  specialize (H2 _ Hlen). subst r. exists db'. split; [reflexivity|exact (proj1 H1)].
Defined.

Lemma votes_load_exact_witness :
  ∃ db' l, LoadVotes 7 0 (db' : contents) = (db', Ok l) ∧
    ∀ v, v ∈ l ↔ latest [chain_vote 0 x02; chain_vote 0 x01; chain_vote 1 x02] v ∧ v_Height v = 7 ∧
                 (0 = 0 ∨ v_VoteType v = 0).
Proof.
  destruct (votes_load_exact (∅ : contents) [chain_vote 0 x02; chain_vote 0 x01; chain_vote 1 x02] 7 0)
    as (db' & l & _ & Hl & _ & _ & Hin).
  - repeat (constructor; [apply chain_vote_wf; lia|]). constructor.
  - reflexivity.
  - unfold fits. cbn. lia.
  - exists db', l. split; [exact Hl|exact Hin].
Defined.

Lemma evidence_store_exact_witness :
  ∃ db' l, LoadAllEvidence (db' : contents) = (db', Ok l) ∧
    l ≡ₚ [DoubleSignEvidence (chain_vote 0 x01) (chain_vote 0 x02)].
Proof.
  destruct (evidence_store_exact (∅ : contents) [DoubleSignEvidence (chain_vote 0 x01) (chain_vote 0 x02)])
    as (db' & l & _ & Hl & Hp & _).
  - constructor; [|constructor]. split; [split; apply chain_vote_wf; lia|]. vm_compute. discriminate.
  - apply NoDup_singleton.
  - reflexivity.
  - exists db', l. split; [exact Hl|exact Hp].
Defined.
