(* ===== verification/Persist.v ===== *)
(** * The database-backed state (state/persistent.go, state/checkpoint.go)

    [PersistentState] keeps the accounts and entries of State.v in memory and
    writes them to the buckets of a database on [Commit]; opening a database
    that holds a state root loads them back. Checkpoints and serialised
    snapshots live in buckets of their own. *)

From S2P Require Import Prelude Codec Sha256 Address Amount Tx Store Smt State Bolt.

Definition accountsBucket : bytes := str_bytes "accounts".
Definition kvstoreBucket : bytes := str_bytes "kvstore".
Definition metaBucket : bytes := str_bytes "meta".
Definition stateRootKey : bytes := str_bytes "state_root".

(** ** Opening *)

Fixpoint load_account_entries (l : list (bytes * bytes)) (cache : gmap Address Account)
    : res (gmap Address Account) :=
  match l with
  | [] => Ok cache
  | (k, v) :: l' =>
      addr ← wrap_res "invalid account key" (AddressFromBytes k);
      acc ← wrap_res "corrupt account entry" (run_reader Account_Decode v);
      load_account_entries l' (<[addr := acc]> cache)
  end.

Definition load_kv_entries (l : list (bytes * bytes)) (kvs : gmap string bytes) : gmap string bytes :=
  fold_left (λ m e, <[bytes_str e.1 := e.2]> m) l kvs.

Section persistent.
Context {DB Tx : Type} `{BoltDB DB Tx} `{Hasher}.

(** [b.ForEach] on a nil bucket panics. *)
Definition loadAccounts : go DB (gmap Address Account) :=
  View (
    b ← Bucket accountsBucket;
    match b with
    | None => gopanic
    | Some m => lift (load_account_entries (entries m) ∅)
    end).

Definition loadKvstore : go DB (gmap string bytes) :=
  View (
    b ← Bucket kvstoreBucket;
    match b with
    | None => gopanic
    | Some m => mret (load_kv_entries (entries m) ∅)
    end).

(** From the point where [bbolt.Open] returned the database. *)
Definition NewPersistentState : go DB PersistentState :=
  wrap "failed to create buckets" (Update (
    CreateBucketIfNotExists accountsBucket;;
    CreateBucketIfNotExists kvstoreBucket;;
    CreateBucketIfNotExists metaBucket));;
  root ← wrap "failed to recover state root" (View (
    b ← Bucket metaBucket;
    match b with
    | None => gopanic
    | Some m => mret (match m !! stateRootKey with Some r => arr_copy 32 r | None => ZeroHash end)
    end));
  if bool_decide (root = ZeroHash) then mret (mkPersistentState ∅ ∅ root) else
  cache ← wrap "failed to load accounts" loadAccounts;
  kvs ← wrap "failed to load kvstore" loadKvstore;
  mret (mkPersistentState cache kvs root).

(** ** Commit *)

(** The body of the database transaction: nothing is ever deleted from the
    buckets. *)
Definition persist_all (s : PersistentState) (root : Hash) : go Tx unit :=
  for_each (sort_slice addr_less (map_to_list (ps_cache s))) (λ e,
    buf ← lift (encode_bytes (Account_Encode e.2));
    Put accountsBucket e.1 buf);;
  for_each (sort_slice str_less (map_to_list (ps_kvstore s))) (λ e,
    Put kvstoreBucket (str_bytes e.1) e.2);;
  Put metaBucket stateRootKey root.

(** The in-memory root is set before the database is written, and stays set
    when the write fails. *)
Definition PersistentState_Commit : go (PersistentState * DB) Hash := λ '(s, db),
  match build_smt (ps_cache s) (ps_kvstore s) NewSMT with
  | (_, Err e) => ((s, db), Err e)
  | (_, Panic) => ((s, db), Panic)
  | (t, Ok _) =>
      let s' := mkPersistentState (ps_cache s) (ps_kvstore s) (Root t) in
      let '(db', r) := Update (persist_all s' (Root t)) db in
      ((s', db'), r' ← r; Ok (Root t))
  end.

Definition PersistentState_GetStateRoot (s : PersistentState) : Hash := ps_root s.
End persistent.

(** ** Checkpoints *)

Record Checkpoint := mkCheckpoint {
  cp_Height : Z;
  cp_BlockHash : Hash;
  cp_StateRoot : Hash;
  cp_SnapshotHash : Hash;
  cp_ValidatorSetHash : Hash;
  cp_Epoch : Z;
  cp_Timestamp : Z;
}.

Definition checkpointsBucket : bytes := str_bytes "checkpoints".
Definition snapshotsBucket : bytes := str_bytes "snapshots".
Definition latestCheckpointKey : bytes := str_bytes "latest".

Definition encodeCheckpoint (cp : Checkpoint) : bytes :=
  be 8 (cp_Height cp) ++ cp_BlockHash cp ++ cp_StateRoot cp ++ cp_SnapshotHash cp
  ++ cp_ValidatorSetHash cp ++ be 8 (cp_Epoch cp) ++ be 8 (cp_Timestamp cp).

Definition decodeCheckpoint (data : bytes) : option Checkpoint :=
  if negb (bool_decide (length data = 152%nat)) then None else
  Some {| cp_Height := unbe (take 8 data);
          cp_BlockHash := arr_copy 32 (take 32 (drop 8 data));
          cp_StateRoot := arr_copy 32 (take 32 (drop 40 data));
          cp_SnapshotHash := arr_copy 32 (take 32 (drop 72 data));
          cp_ValidatorSetHash := arr_copy 32 (take 32 (drop 104 data));
          cp_Epoch := unbe (take 8 (drop 136 data));
          cp_Timestamp := unbe (take 8 (drop 144 data)) |}.

Definition heightKey (height : Z) : bytes := be 8 height.

Section checkpoints.
Context {DB Tx : Type} `{BoltDB DB Tx}.

Definition StoreCheckpoint (cp : Checkpoint) : go DB unit :=
  Update (
    wrap "failed to create checkpoints bucket" (CreateBucketIfNotExists checkpointsBucket);;
    wrap "failed to store checkpoint" (Put checkpointsBucket (heightKey (cp_Height cp)) (encodeCheckpoint cp));;
    wrap "failed to update latest checkpoint" (Put checkpointsBucket latestCheckpointKey (encodeCheckpoint cp))).

(** A value that does not decode is reported with its own message. *)
Definition decoded_checkpoint (corrupt : string) (data : bytes) : go Tx Checkpoint :=
  match decodeCheckpoint data with
  | None => throw (Errorf corrupt)
  | Some cp => mret cp
  end.

Definition LoadCheckpoint (height : Z) : go DB Checkpoint :=
  View (
    data ← read_value checkpointsBucket (heightKey height) "checkpoints bucket not found" "checkpoint not found";
    decoded_checkpoint "corrupt checkpoint data" data).

Definition LatestCheckpoint : go DB Checkpoint :=
  View (
    data ← read_value checkpointsBucket latestCheckpointKey "checkpoint not found" "checkpoint not found";
    decoded_checkpoint "corrupt latest checkpoint data" data).

(** consensus.CreateCheckpoint with persistent storage; [now] is the clock. *)
Definition CreateCheckpoint (now height epoch : Z) (stateRoot blockHash valSetHash : Hash) : go DB Checkpoint :=
  let cp := {| cp_Height := height; cp_BlockHash := blockHash; cp_StateRoot := stateRoot;
               cp_SnapshotHash := ZeroHash; cp_ValidatorSetHash := valSetHash;
               cp_Epoch := epoch; cp_Timestamp := u64 now |} in
  wrap "store checkpoint" (StoreCheckpoint cp);;
  mret cp.

(** *** Serialised snapshots *)

Definition SnapshotExists (height : Z) : go DB bool :=
  View (
    b ← Bucket snapshotsBucket;
    mret (bool_decide (is_Some (default ∅ b !! heightKey height)))).

Definition StoreSnapshot (height : Z) (data : bytes) : go DB unit :=
  Update (
    wrap "failed to create snapshots bucket" (CreateBucketIfNotExists snapshotsBucket);;
    wrap "failed to store snapshot" (Put snapshotsBucket (heightKey height) data)).

Definition LoadSnapshot (height : Z) : go DB bytes :=
  View (read_value snapshotsBucket (heightKey height) "snapshot not found" "snapshot not found").

Definition DeleteSnapshot (height : Z) : go DB unit :=
  Update (
    b ← Bucket snapshotsBucket;
    match b with
    | None => mret tt
    | Some _ => Bolt.Delete snapshotsBucket (heightKey height)
    end).
End checkpoints.

(** ** Lemmas *)

#[global] Instance arr_bytes_inj n : Inj (=) (=) (@arr_bytes n).
Proof. intros a b. apply arr_eq. Qed.

#[global] Instance str_bytes_inj : Inj (=) (=) str_bytes.
Proof. intros s t E. apply (f_equal bytes_str) in E. by rewrite !bytes_str_bytes in E. Qed.

(** What the buckets hold for given accounts and entries. *)
Definition account_entry (e : Address * Account) : bytes * bytes :=
  (arr_bytes e.1, wire (Account_Encode e.2)).
Definition kv_entry (e : string * bytes) : bytes * bytes := (str_bytes e.1, e.2).

Definition accounts_image (accs : gmap Address Account) : gmap bytes bytes :=
  list_to_map (account_entry <$> map_to_list accs).
Definition kv_image (kvs : gmap string bytes) : gmap bytes bytes :=
  list_to_map (kv_entry <$> map_to_list kvs).

(** The image of a map under injective renaming of keys. *)
Lemma image_NoDup {K A B} `{Countable K} (f : K → bytes) (g : A → B) `{!Inj (=) (=) f} (m : gmap K A) l :
  l ≡ₚ map_to_list m → NoDup (((λ e : K * A, (f e.1, g e.2)) <$> l).*1).
Proof.
  intros Hl. rewrite Hl, <- list_fmap_compose.
  change (NoDup ((f ∘ fst) <$> map_to_list m)). rewrite list_fmap_compose.
  apply NoDup_fmap_2; [done|]. apply NoDup_fst_map_to_list.
Qed.

Lemma image_lookup {K A B} `{Countable K} (f : K → bytes) (g : A → B) `{!Inj (=) (=) f} (m : gmap K A) k x :
  (list_to_map ((λ e : K * A, (f e.1, g e.2)) <$> map_to_list m) : gmap bytes B) !! k = Some x ↔
  ∃ i a, k = f i ∧ x = g a ∧ m !! i = Some a.
Proof.
  rewrite <- elem_of_list_to_map by (by apply (image_NoDup f g m)).
  rewrite list_elem_of_fmap. setoid_rewrite <- elem_of_map_to_list. split.
  - intros ([i a] & [= -> ->] & Hin). by exists i, a.
  - intros (i & a & -> & -> & Hin). by exists (i, a).
Qed.

Lemma image_union {K A B} `{Countable K} (f : K → bytes) (g : A → B) `{!Inj (=) (=) f} (m n : gmap K A) :
  (list_to_map ((λ e : K * A, (f e.1, g e.2)) <$> map_to_list m) : gmap bytes B)
  ∪ list_to_map ((λ e : K * A, (f e.1, g e.2)) <$> map_to_list n)
  = list_to_map ((λ e : K * A, (f e.1, g e.2)) <$> map_to_list (m ∪ n)).
Proof.
  apply map_eq. intros k. apply option_eq. intros x.
  rewrite lookup_union_Some_raw, !image_lookup by done. split.
  - intros [(i & a & -> & -> & Hi)|[Hnone (i & a & -> & -> & Hi)]].
    + exists i, a. split; [done|]. split; [done|]. by apply lookup_union_Some_l.
    + exists i, a. split; [done|]. split; [done|]. rewrite lookup_union_r; [done|].
      destruct (m !! i) as [b|] eqn:E; [|done]. exfalso.
      assert ((list_to_map ((λ e : K * A, (f e.1, g e.2)) <$> map_to_list m) : gmap bytes B) !! f i = Some (g b))
        as Hb by (apply image_lookup; [done|]; by exists i, b). congruence.
  - intros (i & a & -> & -> & Hi). apply lookup_union_Some_raw in Hi as [Hi|[Hn Hi]].
    + left. by exists i, a.
    + right. split; [|by exists i, a].
      destruct (list_to_map _ !! f i) as [y|] eqn:E; [|done].
      apply image_lookup in E as (j & b & Ej & _ & Hj); [|done]. apply (inj f) in Ej as <-. congruence.
Qed.

Lemma accounts_image_union m n : accounts_image m ∪ accounts_image n = accounts_image (m ∪ n).
Proof. exact (image_union arr_bytes (λ acc, wire (Account_Encode acc)) m n). Qed.

Lemma kv_image_union m n : kv_image m ∪ kv_image n = kv_image (m ∪ n).
Proof. exact (image_union str_bytes (λ v : bytes, v) m n). Qed.

Lemma union_dom {K A} `{Countable K} (m n : gmap K A) : dom n ⊆ dom m → m ∪ n = m.
Proof.
  intros Hd. apply map_eq. intros k. destruct (m !! k) as [a|] eqn:E.
  - by apply lookup_union_Some_l.
  - rewrite lookup_union_r by done. apply not_elem_of_dom in E. apply not_elem_of_dom. set_solver.
Qed.

(** Loops over a list. *)
Lemma for_each_fmap {S A B} (f : A → B) (l : list A) (body : A → go S unit) (body' : B → go S unit) s :
  (∀ x, x ∈ l → ∀ s, body x s = body' (f x) s) → for_each l body s = for_each (f <$> l) body' s.
Proof.
  revert s. induction l as [|x l IH]; intros s Hb; [done|]. rewrite fmap_cons. cbn [for_each].
  unfold mbind, go_bind. rewrite <- Hb by (by left). destruct (body x s) as [s' [u|e|]]; [|done..].
  apply IH. intros y Hy. apply Hb. by right.
Qed.

Lemma put_all {DB Tx} `{BoltLaws DB Tx, !BoltReliable DB Tx} b (l : list (bytes * bytes)) (tx : Tx) m :
  tx_buckets tx !! b = Some m → Forall (λ e, storable e.1 e.2) l → NoDup l.*1 →
  ∃ tx', for_each l (λ e, Put b e.1 e.2) tx = (tx', Ok tt) ∧
    tx_buckets tx' = <[b := list_to_map l ∪ m]> (tx_buckets tx).
Proof.
  revert tx m. induction l as [|[k v] l IH]; intros tx m Hm Hs Hn.
  { exists tx. split; [done|]. cbn. rewrite map_empty_union. by rewrite insert_id. }
  apply Forall_cons in Hs as [Hkv Hs]. rewrite fmap_cons in Hn. apply NoDup_cons in Hn as [Hk Hn].
  destruct (Put_ok b k v tx m Hm Hkv) as (t1 & H1 & B1).
  destruct (IH t1 (<[k := v]> m)) as (t2 & H2 & B2); [by rewrite B1, lookup_insert_eq|done|done|].
  exists t2. cbn [for_each fst snd]. rewrite (go_bind_ok _ _ _ _ _ H1). split; [done|].
  rewrite B2, B1, insert_insert_eq. f_equal. cbn [list_to_map foldr].
  change (list_to_map ((k, v) :: l)) with (<[k := v]> (list_to_map l : gmap bytes bytes)).
  rewrite <- insert_union_l. symmetry. apply insert_union_r.
  by apply not_elem_of_list_to_map_1.
Qed.

(** *** Loading what was written *)

Lemma entries_image {K A} `{Countable K} (f : K → bytes) (g : A → bytes) `{!Inj (=) (=) f} (m : gmap K A) :
  ∃ l, entries (list_to_map ((λ e : K * A, (f e.1, g e.2)) <$> map_to_list m))
         = (λ e : K * A, (f e.1, g e.2)) <$> l ∧ l ≡ₚ map_to_list m.
Proof.
  set (h := λ e : K * A, (f e.1, g e.2)).
  assert (entries (list_to_map (h <$> map_to_list m)) ≡ₚ h <$> map_to_list m) as Hp.
  { rewrite entries_perm. apply map_to_list_to_map. by apply (image_NoDup f g m). }
  apply Permutation_map_inv in Hp as (l & -> & Hl). by exists l.
Qed.

Lemma perm_to_map {K A} `{Countable K} (m : gmap K A) l :
  l ≡ₚ map_to_list m → NoDup l.*1 ∧ (list_to_map l : gmap K A) = m.
Proof.
  intros Hl. assert (NoDup l.*1) as Hn by (rewrite Hl; apply NoDup_fst_map_to_list).
  split; [done|]. rewrite (list_to_map_proper _ _ Hn Hl). apply list_to_map_to_list.
Qed.

Lemma insert_to_map {K A} `{Countable K} (k : K) (v : A) l (c : gmap K A) :
  k ∉ l.*1 → list_to_map l ∪ <[k := v]> c = (list_to_map ((k, v) :: l) : gmap K A) ∪ c.
Proof.
  intros Hk. change (list_to_map ((k, v) :: l)) with (<[k := v]> (list_to_map l : gmap K A)).
  rewrite <- insert_union_l. symmetry. by apply insert_union_r, not_elem_of_list_to_map_1.
Qed.

Lemma load_account_entries_spec l c :
  Forall (λ e, Account_wf e.2) l → NoDup l.*1 →
  load_account_entries (account_entry <$> l) c = Ok (list_to_map l ∪ c).
Proof.
  revert c. induction l as [|[a acc] l IH]; intros c Hwf Hn; [cbn; by rewrite map_empty_union|].
  apply Forall_cons in Hwf as [Hacc Hwf]. rewrite fmap_cons in Hn. rewrite fmap_cons. apply NoDup_cons in Hn as [Ha Hn].
  cbn [load_account_entries account_entry fst snd]. rewrite AddressFromBytes_arr.
  assert (run_reader Account_Decode (wire (Account_Encode acc)) = Ok acc) as Hdec.
  { unfold run_reader. pose proof (rt_parses acc Hacc []) as Hp. rewrite app_nil_r in Hp. by rewrite Hp. }
  rewrite Hdec. cbn [wrap_res mbind res_bind]. by rewrite IH, insert_to_map.
Qed.

Lemma load_accounts_image accs :
  map_Forall (λ _, Account_wf) accs → load_account_entries (entries (accounts_image accs)) ∅ = Ok accs.
Proof.
  intros Hwf. destruct (entries_image arr_bytes (λ acc, wire (Account_Encode acc)) accs) as (l & E & Hl).
  destruct (perm_to_map accs l Hl) as [Hn Hm].
  change (load_account_entries (entries (list_to_map ((λ e : Address * Account,
    (arr_bytes e.1, wire (Account_Encode e.2))) <$> map_to_list accs))) ∅ = Ok accs).
  rewrite E. change (load_account_entries (account_entry <$> l) ∅ = Ok accs).
  rewrite load_account_entries_spec; [by rewrite Hm, map_union_empty| |done].
  apply Forall_forall. intros [a acc] Hin. rewrite Hl in Hin. apply elem_of_map_to_list in Hin. by apply (Hwf a).
Qed.

Lemma load_kv_entries_spec l c :
  NoDup l.*1 → load_kv_entries (kv_entry <$> l) c = list_to_map l ∪ c.
Proof.
  unfold load_kv_entries. revert c. induction l as [|[k v] l IH]; intros c Hn; [cbn; by rewrite map_empty_union|].
  rewrite fmap_cons in Hn. rewrite fmap_cons. apply NoDup_cons in Hn as [Hk Hn]. cbn [fold_left kv_entry fst snd].
  by rewrite bytes_str_bytes, IH, insert_to_map.
Qed.

Lemma load_kv_image kvs : load_kv_entries (entries (kv_image kvs)) ∅ = kvs.
Proof.
  destruct (entries_image str_bytes (λ v : bytes, v) kvs) as (l & E & Hl).
  destruct (perm_to_map kvs l Hl) as [Hn Hm]. unfold kv_image, kv_entry. rewrite E.
  change (load_kv_entries (kv_entry <$> l) ∅ = kvs). by rewrite load_kv_entries_spec, Hm, map_union_empty.
Qed.

(** A database that holds accounts, entries and a root. *)
Record holds {DB Tx} `{BoltDB DB Tx} (db : DB) (accs : gmap Address Account) (kvs : gmap string bytes)
    (root : option Hash) : Prop := {
  holds_accounts : db_buckets db !! accountsBucket = Some (accounts_image accs);
  holds_kv : db_buckets db !! kvstoreBucket = Some (kv_image kvs);
  holds_root : ∃ m, db_buckets db !! metaBucket = Some m ∧ m !! stateRootKey = arr_bytes <$> root;
}.

Section reopen.
Context {DB Tx : Type} `{BoltLaws DB Tx, !BoltReliable DB Tx}.

(** Creating buckets that exist changes nothing. *)
Lemma create_existing name (tx : Tx) m :
  name ≠ [] → tx_buckets tx !! name = Some m →
  ∃ tx', CreateBucketIfNotExists name tx = (tx', Ok tt) ∧ tx_buckets tx' = tx_buckets tx.
Proof.
  intros Hn Hm. destruct (create_ok name tx Hn) as (tx' & Hr & Hb). exists tx'. split; [done|].
  rewrite Hb. unfold with_bucket. by rewrite Hm.
Qed.

(** Reading a bucket in a [View]. *)
Lemma View_bucket {A} (name : bytes) (k : option (gmap bytes bytes) → go Tx A) (db : DB) :
  View (b ← Bucket name; k b) db = (db, (k (db_buckets db !! name) (db_begin db)).2).
Proof. done. Qed.

Lemma reopen_loads (db : DB) accs kvs root :
  holds db accs kvs (Some root) → map_Forall (λ _, Account_wf) accs → root ≠ ZeroHash →
  ∃ db', NewPersistentState db = (db', Ok (mkPersistentState accs kvs root)) ∧ db_buckets db' = db_buckets db.
Proof.
  intros [Ha Hk (m & Hm & Hr)] Hwf Hz. unfold NewPersistentState.
  destruct (create_existing accountsBucket (db_begin db) _ ltac:(done) Ha) as (t1 & H1 & B1).
  destruct (create_existing kvstoreBucket t1 (kv_image kvs) ltac:(done)) as (t2 & H2 & B2); [by rewrite B1|].
  destruct (create_existing metaBucket t2 m ltac:(done)) as (t3 & H3 & B3); [by rewrite B2, B1|].
  destruct (Update_ok (CreateBucketIfNotExists accountsBucket;;
    (CreateBucketIfNotExists kvstoreBucket;; CreateBucketIfNotExists metaBucket)) db t3 tt) as (db' & Hu & Hb).
  { rewrite (go_bind_ok _ _ _ _ _ H1). by rewrite (go_bind_ok _ _ _ _ _ H2). }
  assert (db_buckets db' = db_buckets db) as Hbb by (by rewrite Hb, B3, B2, B1).
  exists db'. split; [|done]. rewrite (go_bind_ok _ _ db db' tt) by (by apply wrap_ok).
  rewrite (go_bind_ok _ _ db' db' root).
  2:{ apply wrap_ok. rewrite View_bucket, Hbb, Hm, Hr. cbn. by rewrite arr_copy_arr. }
  rewrite bool_decide_eq_false_2 by done.
  rewrite (go_bind_ok _ _ db' db' accs).
  2:{ apply wrap_ok. unfold loadAccounts. rewrite View_bucket, Hbb, Ha. unfold lift. cbn [snd].
      by rewrite load_accounts_image. }
  rewrite (go_bind_ok _ _ db' db' kvs); [done|].
  apply wrap_ok. unfold loadKvstore. rewrite View_bucket, Hbb, Hk.
  change ((db', Ok (load_kv_entries (entries (kv_image kvs)) ∅)) = (db', Ok kvs)).
  by rewrite load_kv_image.
Qed.

Lemma wire_account_length acc :
  Account_wf acc → length (wire (Account_Encode acc)) = 144%nat.
Proof.
  intros (Hb & Hn & Hp). destruct acc as [ad b n sr ch p pk]; cbn [acc_Balance] in Hb.
  assert (emits (Account_Encode (mkAccount ad b n sr ch p pk))
    (ad ++ be 16 b ++ be 8 n ++ sr ++ ch ++ be 4 p ++ pk)) as He.
  { unfold Account_Encode. cbn [acc_Address acc_Balance acc_Nonce acc_StorageRoot acc_CodeHash
      acc_Permissions acc_PublicKey]. apply emits_bind; [apply emits_Write|].
    apply emits_bind; [by apply emits_amount16|]. emit. }
  unfold wire. rewrite (He []). cbn [fst]. by rewrite !length_app, !length_be, !arr_length.
Qed.

(** The entries that [Put] accepts. *)
Definition kv_storable (kvs : gmap string bytes) : Prop :=
  map_Forall (λ k v, storable (str_bytes k) v) kvs.

(** Writing all accounts or all entries into a bucket. *)
Lemma put_accounts accs (tx : Tx) m :
  map_Forall (λ _, Account_wf) accs → tx_buckets tx !! accountsBucket = Some m →
  ∃ tx', for_each (sort_slice addr_less (map_to_list accs)) (λ e,
      buf ← lift (encode_bytes (Account_Encode e.2));
      Put accountsBucket e.1 buf) tx = (tx', Ok tt) ∧
    tx_buckets tx' = <[accountsBucket := accounts_image accs ∪ m]> (tx_buckets tx).
Proof.
  intros Hwf Hm. set (la := sort_slice addr_less (map_to_list accs)).
  assert (NoDup (account_entry <$> la).*1) as Hn.
  { apply (image_NoDup arr_bytes (λ acc, wire (Account_Encode acc)) accs), sort_slice_perm. }
  destruct (put_all accountsBucket (account_entry <$> la) tx m Hm) as (t1 & H1 & B1); [|done|].
  { apply Forall_fmap, Forall_forall. intros [a acc] Hin. unfold la in Hin. rewrite sort_slice_perm in Hin.
    apply elem_of_map_to_list, Hwf in Hin. unfold storable, MaxKeySize, MaxValueSize. cbn [compose account_entry fst snd].
    rewrite arr_length, wire_account_length by done. lia. }
  exists t1. split.
  - rewrite <- H1. apply for_each_fmap. intros [a acc] Hin t. unfold la in Hin. rewrite sort_slice_perm in Hin.
    apply elem_of_map_to_list, Hwf in Hin. cbn [fst snd].
    assert (encode_bytes (Account_Encode acc) = Ok (wire (Account_Encode acc))) as ->
      by (unfold encode_bytes, run_writer; by rewrite (rt_emits acc Hin [])). done.
  - rewrite B1. do 2 f_equal. apply list_to_map_proper; [done|]. apply fmap_Permutation, sort_slice_perm.
Qed.

Lemma put_kvs kvs (tx : Tx) m :
  kv_storable kvs → tx_buckets tx !! kvstoreBucket = Some m →
  ∃ tx', for_each (sort_slice str_less (map_to_list kvs)) (λ e, Put kvstoreBucket (str_bytes e.1) e.2) tx = (tx', Ok tt) ∧
    tx_buckets tx' = <[kvstoreBucket := kv_image kvs ∪ m]> (tx_buckets tx).
Proof.
  intros Hkv Hm. set (lk := sort_slice str_less (map_to_list kvs)).
  assert (NoDup (kv_entry <$> lk).*1) as Hn.
  { apply (image_NoDup str_bytes (λ v : bytes, v) kvs), sort_slice_perm. }
  destruct (put_all kvstoreBucket (kv_entry <$> lk) tx m Hm) as (t1 & H1 & B1); [|done|].
  { apply Forall_fmap, Forall_forall. intros [k v] Hin. unfold lk in Hin. rewrite sort_slice_perm in Hin.
    by apply elem_of_map_to_list, Hkv in Hin. }
  exists t1. split.
  - rewrite <- H1. by apply for_each_fmap.
  - rewrite B1. do 2 f_equal. apply list_to_map_proper; [done|]. apply fmap_Permutation, sort_slice_perm.
Qed.

Lemma put_root (root : Hash) (tx : Tx) m :
  tx_buckets tx !! metaBucket = Some m →
  ∃ tx', Put metaBucket stateRootKey root tx = (tx', Ok tt) ∧
    tx_buckets tx' = <[metaBucket := <[stateRootKey := arr_bytes root]> m]> (tx_buckets tx).
Proof.
  intros Hm. apply Put_ok; [done|]. unfold storable, MaxKeySize, MaxValueSize. rewrite arr_length. cbn. lia.
Qed.

(** The buckets after [persist_all]. *)
Definition persisted_image (s : PersistentState) (root : Hash) (m : contents) : contents :=
  let add name image m := <[name := image ∪ default ∅ (m !! name)]> m in
  add metaBucket {[ stateRootKey := arr_bytes root ]}
    (add kvstoreBucket (kv_image (ps_kvstore s)) (add accountsBucket (accounts_image (ps_cache s)) m)).

Lemma persist_all_run (s : PersistentState) root (db : DB) accs kvs r :
  holds db accs kvs r → map_Forall (λ _, Account_wf) (ps_cache s) → kv_storable (ps_kvstore s) →
  ∃ db', Update (persist_all s root) db = (db', Ok tt) ∧ db_buckets db' = persisted_image s root (db_buckets db).
Proof.
  intros [Ha Hk (m & Hm & Hr)] Hwf Hkv.
  destruct (put_accounts (ps_cache s) (db_begin db) _ Hwf Ha) as (t1 & H1 & B1).
  destruct (put_kvs (ps_kvstore s) t1 (kv_image kvs) Hkv) as (t2 & H2 & B2); [rewrite B1; by rewrite lookup_insert_ne|].
  destruct (put_root root t2 m) as (t3 & H3 & B3); [rewrite B2, B1; by rewrite !lookup_insert_ne|].
  destruct (Update_ok (persist_all s root) db t3 tt) as (db' & Hu & Hb).
  { unfold persist_all. by rewrite (go_bind_ok _ _ _ t1 tt H1), (go_bind_ok _ _ _ t2 tt H2). }
  exists db'. split; [done|]. rewrite Hb, B3, B2, B1. unfold persisted_image.
  rewrite !lookup_insert_ne by done. rewrite Ha, Hk, Hm. cbn [default]. unfold db_buckets, id.
  by rewrite <- insert_union_singleton_l.
Qed.

Lemma persisted_holds (s : PersistentState) root (db db' : DB) accs kvs r :
  holds db accs kvs r → db_buckets db' = persisted_image s root (db_buckets db) →
  holds db' (ps_cache s ∪ accs) (ps_kvstore s ∪ kvs) (Some root).
Proof.
  intros [Ha Hk (m & Hm & Hr)] Hb. unfold persisted_image in Hb. rewrite !lookup_insert_ne in Hb by done.
  rewrite Ha, Hk, Hm in Hb. split; rewrite Hb.
  - rewrite !lookup_insert_ne, lookup_insert_eq by done. cbn [default]. unfold id. by rewrite accounts_image_union.
  - rewrite lookup_insert_ne, lookup_insert_eq by done. cbn [default]. unfold id. by rewrite kv_image_union.
  - eexists. rewrite lookup_insert_eq. split; [reflexivity|]. rewrite <- insert_union_singleton_l. by rewrite lookup_insert_eq.
Qed.

Lemma persist_all_ok (s : PersistentState) root (db : DB) accs kvs r :
  holds db accs kvs r → map_Forall (λ _, Account_wf) (ps_cache s) → kv_storable (ps_kvstore s) →
  ∃ db', Update (persist_all s root) db = (db', Ok tt) ∧
    holds db' (ps_cache s ∪ accs) (ps_kvstore s ∪ kvs) (Some root).
Proof.
  intros Hdb Hwf Hkv. destruct (persist_all_run s root db accs kvs r Hdb Hwf Hkv) as (db' & Hu & Hb).
  exists db'. split; [done|]. by eapply persisted_holds.
Qed.

(** Other buckets are not touched. *)
Lemma persisted_other s root m name :
  name ≠ accountsBucket → name ≠ kvstoreBucket → name ≠ metaBucket → persisted_image s root m !! name = m !! name.
Proof. intros Ha Hk Hm. unfold persisted_image. by rewrite !lookup_insert_ne by done. Qed.
End reopen.

(** *** Checkpoints *)

Definition Checkpoint_wf (cp : Checkpoint) : Prop :=
  fits 8 (cp_Height cp) ∧ fits 8 (cp_Epoch cp) ∧ fits 8 (cp_Timestamp cp).

Lemma encodeCheckpoint_length cp : length (encodeCheckpoint cp) = 152%nat.
Proof. unfold encodeCheckpoint. by rewrite !length_app, !length_be, !arr_length. Qed.

Lemma take_field n (a : bytes) rest : length a = n → take n (a ++ rest) = a.
Proof. intros <-. apply take_app_length. Qed.

Lemma decode_encode_checkpoint cp : Checkpoint_wf cp → decodeCheckpoint (encodeCheckpoint cp) = Some cp.
Proof.
  intros (Hh & He & Ht). unfold decodeCheckpoint. rewrite encodeCheckpoint_length, bool_decide_eq_true_2 by done.
  unfold encodeCheckpoint. skip. rewrite !take_field by (by rewrite ?length_be, ?arr_length).
  rewrite (take_ge (be 8 (cp_Timestamp cp))) by (by rewrite length_be).
  rewrite !arr_copy_arr, !unbe_be_small by done. by destruct cp.
Qed.

Lemma latest_key_other h : heightKey h ≠ latestCheckpointKey.
Proof. intros E. apply (f_equal length) in E. unfold heightKey in E. by rewrite length_be in E. Qed.

Lemma StoreCheckpoint_spec {DB Tx} `{BoltLaws DB Tx, !BoltReliable DB Tx} (db : DB) cp :
  ∃ db', StoreCheckpoint cp db = (db', Ok tt) ∧
    bucket_of db' checkpointsBucket =
      <[latestCheckpointKey := encodeCheckpoint cp]>
        (<[heightKey (cp_Height cp) := encodeCheckpoint cp]> (bucket_of db checkpointsBucket)).
Proof.
  assert (∀ k, (0 < length k <= 100)%nat → storable k (encodeCheckpoint cp)) as Hst.
  { intros k Hk. unfold storable, MaxKeySize, MaxValueSize. rewrite encodeCheckpoint_length. lia. }
  destruct (create_put checkpointsBucket (heightKey (cp_Height cp)) (encodeCheckpoint cp) (db_begin db))
    as (t1 & H1 & B1); [done|apply Hst; unfold heightKey; rewrite length_be; lia|].
  apply go_bind_inv in H1 as (t0 & u & Hc & H1). destruct u.
  destruct (Put_ok checkpointsBucket latestCheckpointKey (encodeCheckpoint cp) t1
    (<[heightKey (cp_Height cp) := encodeCheckpoint cp]> (bucket_of db checkpointsBucket))) as (t2 & H2 & B2).
  { rewrite B1, put_in_lookup. by rewrite decide_True. }
  { apply Hst. cbn. lia. }
  unfold StoreCheckpoint.
  match goal with |- context [Update ?f] => destruct (Update_ok f db t2 tt) as (db' & Hu & Hb) end.
  { rewrite (go_bind_ok _ _ _ t0 tt) by (by apply wrap_ok).
    rewrite (go_bind_ok _ _ _ t1 tt) by (by apply wrap_ok). by apply wrap_ok. }
  exists db'. split; [done|]. unfold bucket_of at 1. rewrite Hb, B2. by rewrite lookup_insert_eq.
Qed.

Lemma load_checkpoint {DB Tx} `{BoltDB DB Tx} (db : DB) key missing absent corrupt cp :
  Checkpoint_wf cp → bucket_of db checkpointsBucket !! key = Some (encodeCheckpoint cp) →
  View (data ← read_value checkpointsBucket key missing absent; decoded_checkpoint corrupt data) db = (db, Ok cp).
Proof.
  intros Hwf Hb. eapply View_read; [by apply bucket_of_some|].
  intros tx. unfold decoded_checkpoint. by rewrite decode_encode_checkpoint.
Qed.

(** ** Properties *)

(** What is committed to disk is what a restart finds, plus what was
    deleted. From a database that holds the accounts [accs] and entries [kvs],
    [Commit] succeeds with the root that the in-memory state computes for the
    same contents, and opening the database again yields this root, the
    committed accounts and entries, and those of [accs] and [kvs] that are no
    longer there: [Commit] never deletes. If nothing was deleted since, exactly
    the committed state comes back. *)
Theorem reopen_after_commit {DB Tx} `{BoltLaws DB Tx, !BoltReliable DB Tx} `{Hasher}
    (s : PersistentState) (db : DB) (accs : gmap Address Account) (kvs : gmap string bytes) (r : option Hash) :
  (∀ data, ∃ h, hash_data data = Ok h) →
  holds db accs kvs r → map_Forall (λ _, Account_wf) accs →
  map_Forall (λ _, Account_wf) (ps_cache s) → kv_storable (ps_kvstore s) →
  ∃ root db', PersistentState_Commit (s, db)
      = ((mkPersistentState (ps_cache s) (ps_kvstore s) root, db'), Ok root) ∧
    (∀ m : InMemoryState, accounts m = ps_cache s → kvstore m = ps_kvstore s → (Commit m).2 = Ok root) ∧
    (root ≠ ZeroHash →
       (NewPersistentState db').2 = Ok (mkPersistentState (ps_cache s ∪ accs) (ps_kvstore s ∪ kvs) root)) ∧
    (root ≠ ZeroHash → dom accs ⊆ dom (ps_cache s) → dom kvs ⊆ dom (ps_kvstore s) →
       (NewPersistentState db').2 = Ok (mkPersistentState (ps_cache s) (ps_kvstore s) root)).
Proof.
  intros Hh Hdb Hold Hwf Hkv.
  destruct (build_smt_ok Hh (ps_cache s) (ps_kvstore s) NewSMT) as [t Ht].
  { intros a acc Ha. by apply Hwf in Ha as [? _]. }
  destruct (persist_all_ok (mkPersistentState (ps_cache s) (ps_kvstore s) (Root t)) (Root t) db accs kvs r)
    as (db' & Hu & Hnew); [done..|]. cbn [ps_cache ps_kvstore] in Hnew.
  assert (map_Forall (λ _, Account_wf) (ps_cache s ∪ accs)) as Hall by (by apply map_Forall_union_2).
  exists (Root t), db'. split; [|split; [|split]].
  - unfold PersistentState_Commit. by rewrite Ht, Hu.
  - intros m Ha Hk. unfold Commit. by rewrite Ha, Hk, Ht.
  - intros Hz. destruct (reopen_loads db' _ _ _ Hnew Hall Hz) as (db'' & Hr & _). by rewrite Hr.
  - intros Hz Hda Hdk. destruct (reopen_loads db' _ _ _ Hnew Hall Hz) as (db'' & Hr & _). rewrite Hr.
    cbn [snd]. by rewrite !union_dom.
Qed.

(** A stored checkpoint is found under its height and as the latest one,
    and checkpoints of other heights are untouched. *)
Theorem checkpoint_store {DB Tx} `{BoltLaws DB Tx, !BoltReliable DB Tx} (db : DB) (cp : Checkpoint) :
  Checkpoint_wf cp →
  ∃ db', StoreCheckpoint cp db = (db', Ok tt) ∧
    LoadCheckpoint (cp_Height cp) db' = (db', Ok cp) ∧ LatestCheckpoint db' = (db', Ok cp) ∧
    ∀ h old, fits 8 h → h ≠ cp_Height cp →
      (LoadCheckpoint h db').2 = Ok old ↔ (LoadCheckpoint h db).2 = Ok old.
Proof.
  intros Hwf. destruct (StoreCheckpoint_spec db cp) as (db' & Hr & Hb). exists db'. split; [done|].
  split; [|split].
  - apply load_checkpoint; [done|].
    by rewrite Hb, lookup_insert_ne, lookup_insert_eq by (apply not_eq_sym, latest_key_other).
  - apply load_checkpoint; [done|]. by rewrite Hb, lookup_insert_eq.
  - intros h old Hh Hne. apply view_frame.
    { intros d t t'. unfold decoded_checkpoint. by destruct (decodeCheckpoint d). }
    rewrite Hb, lookup_insert_ne by (apply not_eq_sym, latest_key_other). apply lookup_insert_ne.
    intros E. apply Hne. symmetry. apply (be_inj 8); [by destruct Hwf|done|done].
Qed.

(** ** Examples *)

Definition stored_account : Account := set_balance (NewAccount (addr_of 1) (arr_zero 32)) 5.

(** A database that holds account 1 and one entry; the state no longer has the
    entry. *)
Definition example_db : contents :=
  {[ accountsBucket := accounts_image {[ addr_of 1 := stored_account ]};
     kvstoreBucket := kv_image {[ "validator/count" := be 8 1 ]};
     metaBucket := ∅ ]}.

Definition constant_hasher : Hasher := λ _, Ok (arr_copy 32 [x01]).

Lemma stored_account_wf : Account_wf stored_account.
Proof. repeat split; vm_compute; (reflexivity || discriminate). Qed.

Lemma reopen_after_commit_witness :
  ∃ root db', PersistentState_Commit (H0 := constant_hasher)
      (mkPersistentState {[ addr_of 1 := stored_account ]} ∅ ZeroHash, example_db)
      = ((mkPersistentState {[ addr_of 1 := stored_account ]} ∅ root, db'), Ok root).
Proof.
  destruct (reopen_after_commit (H1 := constant_hasher)
    (mkPersistentState {[ addr_of 1 := stored_account ]} ∅ ZeroHash) example_db
    {[ addr_of 1 := stored_account ]} {[ "validator/count" := be 8 1 ]} None)
    as (root & db' & Hc & _).
  - intros data. eexists. reflexivity.
  - split; [reflexivity..|]. exists ∅. split; reflexivity.
  - apply map_Forall_singleton, stored_account_wf.
  - apply map_Forall_singleton, stored_account_wf.
  - apply map_Forall_empty.
  - exists root, db'. exact Hc.
Defined.

Lemma checkpoint_store_witness :
  ∃ db', LatestCheckpoint (db' : contents)
    = (db', Ok (mkCheckpoint 100 ZeroHash ZeroHash ZeroHash ZeroHash 1 42)).
Proof.
  destruct (checkpoint_store (∅ : contents) (mkCheckpoint 100 ZeroHash ZeroHash ZeroHash ZeroHash 1 42))
    as (db' & _ & _ & Hl & _).
  - repeat split; vm_compute; (reflexivity || discriminate).
  - exists db'. exact Hl.
Defined.
