(* ===== verification/Mempool.v ===== *)
(** * The transaction pool (mempool/pool.go)

    Pending transactions by intent id, an index in submission order, the last
    nonce accepted from each sender, and, when persistence is enabled, a copy
    of the pending transactions in a bucket of the database. The pool keeps
    pointers to transactions; they are not changed after submission, so the
    model keeps values. Each call is one step. The code takes the mutex for
    the whole of a method, but [PendingTxs] only takes it for reading although
    it deletes expired entries: the model is of calls that do not overlap with
    another [PendingTxs].

    The clock is an argument: [nowUnix] is what [Validate] reads, [now] what
    [time.Now] returns on insertion, and a function from intent ids to times
    stands for the readings of [time.Since] in a loop over the pool, one per
    entry and in any order. *)

From S2P Require Import Prelude Codec Sha256 Address Amount Tx Votes Store Bolt.

Definition pendingTxsBucket : bytes := str_bytes "pending_txs".

Record pendingTx := mkPendingTx {
  pt_tx : Transaction;
  pt_submitted : Z;
}.

#[global] Instance pendingTx_eq_dec : EqDecision pendingTx.
Proof. solve_decision. Defined.

Record Mempool (DB : Type) := mkMempool {
  mp_txs : gmap Hash pendingTx;
  mp_index : list Transaction;
  mp_maxSize : Z;
  mp_ttl : Z;
  mp_nextNonce : gmap Address Z;
  mp_db : option DB;
}.
Arguments mkMempool {DB} _ _ _ _ _ _.
Arguments mp_txs {DB} _.
Arguments mp_index {DB} _.
Arguments mp_maxSize {DB} _.
Arguments mp_ttl {DB} _.
Arguments mp_nextNonce {DB} _.
Arguments mp_db {DB} _.

(** ** The index *)

(** [txIndex.Remove]: the first entry with the id. *)
Fixpoint index_remove (intentID : Hash) (l : list Transaction) : list Transaction :=
  match l with
  | [] => []
  | e :: l' => if decide (tx_IntentID e = intentID) then l' else e :: index_remove intentID l'
  end.

(** The order of [txIndex.Sorted]: fee descending, timestamp ascending, id. *)
Definition tx_before (a b : Transaction) : bool :=
  if negb (tx_MaxFee a =? tx_MaxFee b) then tx_MaxFee b <? tx_MaxFee a else
  if negb (tx_Timestamp a =? tx_Timestamp b) then tx_Timestamp a <? tx_Timestamp b else
  bytes_lt (tx_IntentID a) (tx_IntentID b).

Definition index_sorted (l : list Transaction) : list Transaction := sort_slice tx_before l.

(** ** The pool *)

Section pool.
Context {DB Tx : Type} `{BoltDB DB Tx} `{Ed25519}.

Definition New (maxSize ttl : Z) : Mempool DB := mkMempool ∅ [] maxSize ttl ∅ None.

(** A failure to create the bucket is ignored. *)
Definition NewWithPersistence (maxSize ttl : Z) (db : DB) : Mempool DB :=
  mkMempool ∅ [] maxSize ttl ∅ (Some (Update (CreateBucketIfNotExists pendingTxsBucket) db).1).

(** The checks on the payload of contract and registration transactions. *)
Definition check_payload (tx : Transaction) : res unit :=
  if tx_TxType tx =? TxTypeDeployContract then
    c ← wrap_res "invalid deploy contract tx" (DeployContract tx);
    match c with Some c => DeployContractTx_Validate c | None => Panic end
  else if tx_TxType tx =? TxTypeCallContract then
    c ← wrap_res "invalid call contract tx" (CallContract tx);
    match c with Some c => CallContractTx_Validate c | None => Panic end
  else if tx_TxType tx =? TxTypeValidatorRegistration then
    m ← wrap_res "invalid validator registration tx" (ValidatorRegistration tx);
    match m with
    | None => Err (Errorf "validator registration message is nil")
    | Some m =>
        if reg_Stake m <? 100000 then Err (Wrapf "minimum stake is 100000" ErrPoolInsufficientStake) else
        if negb (bool_decide (length (reg_PubKey m) = 32%nat)) then Err (Errorf "invalid public key length") else
        if 10000 <? reg_Commission m then Err (Errorf "commission rate exceeds maximum") else Ok tt
    end
  else Ok tt.

(** [regMsg, _ := tx.ValidatorRegistration()]. *)
Definition reg_msg (tx : Transaction) : option ValidatorRegistrationMsg :=
  match ValidatorRegistration tx with Ok m => m | _ => None end.

(** The checks against the account for the first transaction of a sender;
    the result is the nonce to continue from. *)
Definition check_account (tx : Transaction) (acc : Account) : res Z :=
  let registration := tx_TxType tx =? TxTypeValidatorRegistration in
  let bad_signature :=
    if registration then
      match reg_msg tx with
      | Some m => bool_decide (length (reg_PubKey m) = 32%nat)
                  && negb (ed25519_Verify (reg_PubKey m) (tx_IntentID tx) (tx_Signature tx))
      | None => false
      end
    else negb (ed25519_Verify (acc_PublicKey acc) (tx_IntentID tx) (tx_Signature tx)) in
  if bad_signature then Err ErrInvalidSignature else
  let fee := NewAmount (tx_MaxFee tx) in
  required ← (if registration then
                match reg_msg tx with
                | Some m => must (Amount_Add fee (NewAmount (reg_Stake m)))
                | None => Ok fee
                end
              else Ok fee);
  if Amount_lt (acc_Balance acc) required
  then (if registration then Err (Wrapf "need stake + fee" ErrPoolInsufficientStake) else Err ErrMaxFeeExceeded)
  else Ok (acc_Nonce acc).

Definition expected_nonce (state : gmap Address Account) (mp : Mempool DB) (tx : Transaction) : res Z :=
  let expectedNonce := default 0 (mp_nextNonce mp !! tx_Sender tx) in
  if expectedNonce =? 0 then
    match state !! tx_Sender tx with
    | None => Err (Wrapf "sender account not found" (Errorf "account not found"))
    | Some acc => check_account tx acc
    end
  else Ok expectedNonce.

(** Every check of [Submit], in order. *)
Definition admit_tx (state : gmap Address Account) (nowUnix : Z) (mp : Mempool DB) (tx : Transaction) : res unit :=
  Transaction_Validate nowUnix tx;;
  check_payload tx;;
  if mp_maxSize mp <=? Z.of_nat (size (mp_txs mp)) then Err ErrMempoolFull else
  if bool_decide (is_Some (mp_txs mp !! tx_IntentID tx)) then Err ErrAlreadyInPool else
  expectedNonce ← expected_nonce state mp tx;
  if negb (tx_Nonce tx =? u64 (expectedNonce + 1)) then Err ErrNonceMismatch else Ok tt.

Definition inserted (now : Z) (tx : Transaction) (mp : Mempool DB) : Mempool DB :=
  mkMempool (<[tx_IntentID tx := mkPendingTx tx now]> (mp_txs mp)) (mp_index mp ++ [tx])
    (mp_maxSize mp) (mp_ttl mp) (<[tx_Sender tx := tx_Nonce tx]> (mp_nextNonce mp)) (mp_db mp).

(** Delete from the map and the index; [nextNonce] is kept. *)
Definition dropped (id : Hash) (mp : Mempool DB) : Mempool DB :=
  mkMempool (delete id (mp_txs mp)) (index_remove id (mp_index mp))
    (mp_maxSize mp) (mp_ttl mp) (mp_nextNonce mp) (mp_db mp).

Definition with_db (db : DB) (mp : Mempool DB) : Mempool DB :=
  mkMempool (mp_txs mp) (mp_index mp) (mp_maxSize mp) (mp_ttl mp) (mp_nextNonce mp) (Some db).

(** If persistence fails the transaction is taken out again, but the recorded
    nonce stays. *)
Definition Submit (state : gmap Address Account) (nowUnix now : Z) (tx : Transaction) : go (Mempool DB) unit := λ mp,
  match admit_tx state nowUnix mp tx with
  | Err e => (mp, Err e)
  | Panic => (mp, Panic)
  | Ok _ =>
      let mp' := inserted now tx mp in
      match mp_db mp' with
      | None => (mp', Ok tt)
      | Some db =>
          match encode_bytes (Transaction_Encode tx) with
          | Err e => (dropped (tx_IntentID tx) mp', Err (Wrapf "failed to encode tx for persistence" e))
          | Panic => (mp', Panic)
          | Ok buf =>
              match Update (Put pendingTxsBucket (tx_IntentID tx) buf) db with
              | (db', Ok _) => (with_db db' mp', Ok tt)
              | (db', Err e) => (dropped (tx_IntentID tx) (with_db db' mp'), Err (Wrapf "failed to persist tx" e))
              | (db', Panic) => (with_db db' mp', Panic)
              end
          end
      end
  end.

Definition is_expired (ttl : Z) (now : Hash → Z) (id : Hash) (pt : pendingTx) : bool :=
  ttl <? now id - pt_submitted pt.

(** The loop over the map; the database keeps expired transactions. *)
Definition expire (now : Hash → Z) (mp : Mempool DB) : Mempool DB :=
  fold_left (λ mp e, if is_expired (mp_ttl mp) now e.1 e.2 then dropped e.1 mp else mp)
    (map_to_list (mp_txs mp)) mp.

Definition PendingTxs (now1 now2 : Hash → Z) : go (Mempool DB) (list Transaction) := λ mp,
  let mp' := expire now1 mp in
  (mp', Ok (List.filter (λ tx,
     match mp_txs mp' !! tx_IntentID tx with
     | Some pt => negb (is_expired (mp_ttl mp') now2 (tx_IntentID tx) pt)
     | None => false
     end) (index_sorted (mp_index mp')))).

(** Errors of the database are ignored; a missing bucket panics. *)
Definition Mempool_Remove (intentID : Hash) : go (Mempool DB) unit := λ mp,
  let mp' := dropped intentID mp in
  match mp_db mp' with
  | None => (mp', Ok tt)
  | Some db =>
      match Update (Delete pendingTxsBucket intentID) db with
      | (db', Panic) => (with_db db' mp', Panic)
      | (db', _) => (with_db db' mp', Ok tt)
      end
  end.

Definition Count (mp : Mempool DB) : Z := Z.of_nat (size (mp_txs mp)).

Definition Mempool_Get (mp : Mempool DB) (intentID : Hash) : option Transaction :=
  pt_tx <$> mp_txs mp !! intentID.

(** Entries that do not decode are skipped. *)
Definition persisted (m : gmap bytes bytes) : list Transaction :=
  omap (λ e, match run_reader Transaction_Decode e.2 with Ok tx => Some tx | _ => None end) (entries m).

Definition LoadPersistent (mp : Mempool DB) : res (list Transaction) :=
  match mp_db mp with
  | None => Ok []
  | Some db =>
      wrap_res "failed to load persisted txs"
        (View (b ← Bucket pendingTxsBucket; mret (persisted (default ∅ b))) db).2
  end.
End pool.

(** ** The invariant *)

Record pool_ok {DB Tx} `{BoltDB DB Tx} (mp : Mempool DB) : Prop := {
  po_nodup : NoDup (tx_IntentID <$> mp_index mp);
  po_txs : ∀ id pt, mp_txs mp !! id = Some pt → id = tx_IntentID (pt_tx pt) ∧ pt_tx pt ∈ mp_index mp;
  po_index : ∀ tx, tx ∈ mp_index mp → ∃ pt, mp_txs mp !! tx_IntentID tx = Some pt ∧ pt_tx pt = tx;
  po_size : Z.of_nat (size (mp_txs mp)) <= Z.max 0 (mp_maxSize mp);
  po_db : ∀ db, mp_db mp = Some db →
    is_Some (db_buckets db !! pendingTxsBucket) ∧
    ∀ tx, tx ∈ mp_index mp →
      ∃ buf, encode_bytes (Transaction_Encode tx) = Ok buf ∧
             bucket_of db pendingTxsBucket !! arr_bytes (tx_IntentID tx) = Some buf;
}.

Lemma elem_of_index_remove id l tx :
  NoDup (tx_IntentID <$> l) → tx ∈ index_remove id l ↔ tx ∈ l ∧ tx_IntentID tx ≠ id.
Proof.
  induction l as [|e l IH]; intros Hn; cbn [index_remove]; [set_solver|].
  rewrite fmap_cons in Hn. apply NoDup_cons in Hn as [He Hn]. specialize (IH Hn).
  case_decide as Hid.
  - split; [|set_solver]. intros Htx. split; [by right|]. intros E. apply He. rewrite Hid, <- E.
    by apply list_elem_of_fmap_2.
  - rewrite !elem_of_cons, IH. naive_solver.
Qed.

Lemma index_remove_NoDup id l : NoDup (tx_IntentID <$> l) → NoDup (tx_IntentID <$> index_remove id l).
Proof.
  induction l as [|e l IH]; [done|]. intros Hn. cbn [index_remove].
  rewrite fmap_cons in Hn. pose proof Hn as Hn'. apply NoDup_cons in Hn' as [He Hl]. case_decide; [done|].
  rewrite fmap_cons. apply NoDup_cons. split; [|by apply IH].
  intros (tx & E & Htx)%list_elem_of_fmap. apply elem_of_index_remove in Htx as [Htx _]; [|done].
  apply He. rewrite E. by apply list_elem_of_fmap_2.
Qed.

Lemma index_remove_snoc l tx : tx_IntentID tx ∉ tx_IntentID <$> l → index_remove (tx_IntentID tx) (l ++ [tx]) = l.
Proof.
  induction l as [|e l IH]; cbn [index_remove app]; [by rewrite decide_True|].
  rewrite fmap_cons, not_elem_of_cons. intros [Hne Hin]. rewrite decide_False by congruence. by rewrite IH.
Qed.

Section invariant.
Context {DB Tx : Type} `{BoltLaws DB Tx} `{Ed25519}.
Implicit Types (mp : Mempool DB) (db : DB).

Lemma pool_ok_New maxSize ttl : pool_ok (New (DB := DB) maxSize ttl).
Proof. split; cbn; [constructor|done|by intros ? ?%not_elem_of_nil|rewrite map_size_empty; lia|done]. Qed.

Lemma pool_id_fresh mp id : pool_ok mp → mp_txs mp !! id = None → id ∉ tx_IntentID <$> mp_index mp.
Proof.
  intros Hok Hnone (tx & -> & Htx)%list_elem_of_fmap. destruct (po_index mp Hok tx Htx) as (pt & E & _). congruence.
Qed.

(** Taking out one transaction. *)
Lemma pool_ok_dropped mp id : pool_ok mp → pool_ok (dropped id mp).
Proof.
  intros [Hn Ht Hi Hs Hd]. split; cbn.
  - by apply index_remove_NoDup.
  - intros i pt (Hne & Hpt)%lookup_delete_Some. destruct (Ht i pt Hpt) as [-> Hin]. split; [done|].
    apply elem_of_index_remove; [done|]. by split.
  - intros tx [Htx Hne]%elem_of_index_remove; [|done]. destruct (Hi tx Htx) as (pt & Hpt & E).
    exists pt. split; [|done]. by rewrite lookup_delete_ne.
  - etransitivity; [|exact Hs]. apply inj_le, map_subseteq_size, delete_subseteq.
  - intros db Hdb. destruct (Hd db Hdb) as [Hb Hp]. split; [done|].
    intros tx [Htx _]%elem_of_index_remove; [|done]. by apply Hp.
Qed.

(** A transaction that [Submit] admits. *)
Lemma admit_tx_inv state nowUnix mp tx :
  admit_tx state nowUnix mp tx = Ok tt →
  Transaction_Validate nowUnix tx = Ok tt ∧ Z.of_nat (size (mp_txs mp)) < mp_maxSize mp ∧
  mp_txs mp !! tx_IntentID tx = None ∧
  ∃ n, expected_nonce state mp tx = Ok n ∧ tx_Nonce tx = u64 (n + 1).
Proof.
  unfold admit_tx. destruct (Transaction_Validate nowUnix tx) as [[]| |]; [|done..]. cbn [mbind res_bind].
  destruct (check_payload tx) as [u| |]; [|done..]. cbn [mbind res_bind].
  destruct (Z.leb_spec (mp_maxSize mp) (Z.of_nat (size (mp_txs mp)))) as [|Hlt]; [done|].
  case_bool_decide as Hid; [done|]. destruct (expected_nonce state mp tx) as [n| |] eqn:E; [|done..].
  cbn [mbind res_bind]. destruct (Z.eqb_spec (tx_Nonce tx) (u64 (n + 1))) as [En|]; [|done]. intros _.
  split; [done|]. split; [done|]. split; [|by exists n]. by apply eq_None_not_Some.
Qed.

Lemma dropped_inserted now tx mp :
  pool_ok mp → mp_txs mp !! tx_IntentID tx = None →
  mp_txs (dropped (tx_IntentID tx) (inserted now tx mp)) = mp_txs mp ∧
  mp_index (dropped (tx_IntentID tx) (inserted now tx mp)) = mp_index mp.
Proof.
  intros Hok Hnone. cbn. split; [by apply delete_insert_id|]. apply index_remove_snoc. by apply pool_id_fresh.
Qed.

(** Replacing the nonces, and the database by one that holds at least the
    same transactions. *)
Lemma pool_ok_frame mp mp' :
  pool_ok mp → mp_txs mp' = mp_txs mp → mp_index mp' = mp_index mp → mp_maxSize mp' = mp_maxSize mp →
  (∀ db', mp_db mp' = Some db' →
     ∃ db, mp_db mp = Some db ∧ db_buckets db' = db_buckets db) →
  pool_ok mp'.
Proof.
  intros [Hn Ht Hi Hs Hd] E1 E2 E3 E4. split; rewrite ?E1, ?E2, ?E3; try done.
  intros db' Hdb'. destruct (E4 db' Hdb') as (db & Hdb & Eb). destruct (Hd db Hdb) as [H1' H2'].
  unfold bucket_of in *. rewrite Eb. by split.
Qed.

(** Adding a transaction that the database holds. *)
Lemma pool_ok_inserted now tx mp mp' :
  pool_ok mp → mp_txs mp !! tx_IntentID tx = None → Z.of_nat (size (mp_txs mp)) < mp_maxSize mp →
  mp_txs mp' = mp_txs (inserted now tx mp) → mp_index mp' = mp_index mp ++ [tx] → mp_maxSize mp' = mp_maxSize mp →
  (∀ db', mp_db mp' = Some db' →
     ∃ db buf m, mp_db mp = Some db ∧ encode_bytes (Transaction_Encode tx) = Ok buf ∧
       db_buckets db !! pendingTxsBucket = Some m ∧
       db_buckets db' = <[pendingTxsBucket := <[arr_bytes (tx_IntentID tx) := buf]> m]> (db_buckets db)) →
  pool_ok mp'.
Proof.
  intros Hok Hnone Hlt E1 E2 E3 E4. pose proof (pool_id_fresh _ _ Hok Hnone) as Hfresh.
  destruct Hok as [Hn Ht Hi Hs Hd]. cbn in E1. split; rewrite ?E1, ?E2, ?E3.
  - rewrite fmap_app. apply NoDup_app. split; [done|]. split; [|apply NoDup_singleton].
    intros id Hid ->%list_elem_of_singleton. done.
  - intros id pt. destruct (decide (id = tx_IntentID tx)) as [->|Hne].
    + rewrite lookup_insert_eq. intros [= <-]. split; [done|]. set_solver.
    + rewrite lookup_insert_ne by done. intros Hpt. destruct (Ht id pt Hpt). set_solver.
  - intros x [Hx| ->%list_elem_of_singleton]%elem_of_app; [|exists (mkPendingTx tx now); by rewrite lookup_insert_eq].
    destruct (Hi x Hx) as (pt & Hpt & E). exists pt. split; [|done]. rewrite lookup_insert_ne; [done|].
    intros E'. rewrite E' in Hnone. congruence.
  - rewrite map_size_insert_None by done. lia.
  - intros db' Hdb'. destruct (E4 db' Hdb') as (db & buf & m & Hdb & Hbuf & Hm & Eb).
    destruct (Hd db Hdb) as [_ Hp]. unfold bucket_of in *. rewrite Eb, lookup_insert_eq. split; [done|]. cbn.
    intros x [Hx| ->%list_elem_of_singleton]%elem_of_app.
    + destruct (Hp x Hx) as (bx & Hbx & Hl). exists bx. split; [done|]. rewrite lookup_insert_ne.
      * by rewrite Hm in Hl.
      * intros E%arr_eq. apply Hfresh. rewrite E. by apply list_elem_of_fmap_2.
    + exists buf. split; [done|]. by rewrite lookup_insert_eq.
Qed.

Lemma pool_ok_Submit state nowUnix now tx mp mp' r :
  pool_ok mp → Submit state nowUnix now tx mp = (mp', r) → r ≠ Panic → pool_ok mp'.
Proof.
  intros Hok. unfold Submit. destruct (admit_tx state nowUnix mp tx) as [[]| |] eqn:Ha; [|by intros [= <- <-]..].
  apply admit_tx_inv in Ha as (_ & Hlt & Hnone & _).
  destruct (mp_db mp) as [db|] eqn:Edb; cbn [mp_db inserted]; rewrite Edb.
  2:{ intros [= <- <-] _. apply (pool_ok_inserted now tx mp); cbn; try done. by rewrite Edb. }
  destruct (dropped_inserted now tx mp Hok Hnone) as [Dt Di].
  destruct (encode_bytes (Transaction_Encode tx)) as [buf|e|] eqn:Eb; [| |by intros [= <- <-]].
  - destruct (Update (Put pendingTxsBucket (tx_IntentID tx) buf) db) as [db' [[]|e|]] eqn:Eu; intros [= <- <-] Hr.
    + apply Update_inv in Eu as (t & Hp & Hb). apply Put_inv in Hp as (_ & m & Hm & Ht).
      apply (pool_ok_inserted now tx mp); cbn; try done. intros d [= <-].
      exists db, buf, m. split; [done|]. split; [done|]. split; [done|]. by rewrite Hb, Ht.
    + pose proof (Update_err _ _ _ _ Eu ltac:(done)) as ->.
      apply (pool_ok_frame mp); [done|exact Dt|exact Di|done|]. cbn. intros d [= <-]. by exists db.
    + done.
  - intros [= <- <-] _. apply (pool_ok_frame mp); [done|exact Dt|exact Di|done|]. cbn. rewrite Edb.
    intros d [= <-]. by exists db.
Qed.

Lemma pool_ok_Remove id mp mp' r :
  pool_ok mp → Mempool_Remove id mp = (mp', r) → r ≠ Panic → pool_ok mp'.
Proof.
  intros Hok. unfold Mempool_Remove. pose proof (pool_ok_dropped mp id Hok) as Hd.
  change (mp_db (dropped id mp)) with (mp_db mp). destruct (mp_db mp) as [db|] eqn:Edb; [|by intros [= <- <-]].
  destruct (Update (Delete pendingTxsBucket id) db) as [db' [u|e|]] eqn:Eu; intros [= <- <-] Hr; [| |done].
  - apply Update_inv in Eu as (t & Hp & Hb). apply Delete_inv in Hp as (m & Hm & Ht).
    destruct Hd as [Hn Ht' Hi Hs Hp]. split; cbn; try done. intros d [= <-].
    destruct (Hp db Edb) as [_ Hpp]. rewrite <- Hb in Ht. unfold bucket_of in *.
    rewrite Ht, lookup_insert_eq. split; [done|]. cbn [mp_index with_db dropped] in Hpp |- *. intros tx Htx.
    destruct (Hpp tx Htx) as (buf & Hbuf & Hl). exists buf. split; [done|]. unfold db_buckets in Hl. rewrite Hm in Hl.
    change (delete (arr_bytes id) m !! arr_bytes (tx_IntentID tx) = Some buf).
    rewrite lookup_delete_ne; [done|]. intros E%arr_eq.
    apply elem_of_index_remove in Htx as [_ Hne]; [|apply (po_nodup mp Hok)]. congruence.
  - pose proof (Update_err _ _ _ _ Eu ltac:(done)) as ->.
    apply (pool_ok_frame (dropped id mp)); [done..|]. cbn. intros d [= <-]. by exists db.
Qed.

(** [expire] takes out the transactions past their time to live, and no
    others. *)
Lemma expire_go now l mp :
  pool_ok mp → NoDup l.*1 → (∀ e, e ∈ l → mp_txs mp !! e.1 = Some e.2) →
  let mp' := fold_left (λ mp e, if is_expired (mp_ttl mp) now e.1 e.2 then dropped e.1 mp else mp) l mp in
  pool_ok mp' ∧ mp_ttl mp' = mp_ttl mp ∧ mp_maxSize mp' = mp_maxSize mp ∧ mp_nextNonce mp' = mp_nextNonce mp ∧
  mp_db mp' = mp_db mp ∧
  ∀ id, mp_txs mp' !! id =
    match mp_txs mp !! id with
    | Some pt => if decide ((id, pt) ∈ l ∧ is_expired (mp_ttl mp) now id pt = true) then None else Some pt
    | None => None
    end.
Proof.
  revert mp. induction l as [|[i p] l IH]; intros mp Hok Hn Hl.
  { cbn. split_and!; try done. intros id. destruct (mp_txs mp !! id); [|done].
    rewrite decide_False; [done|]. by intros [?%not_elem_of_nil _]. }
  rewrite fmap_cons in Hn. apply NoDup_cons in Hn as [Hi Hn]. cbn [fold_left fst snd].
  assert (∀ q, (i, q) ∉ l) as Hni.
  { intros q Hq. apply Hi. by apply (list_elem_of_fmap_2 fst) in Hq. }
  pose proof (Hl (i, p) ltac:(by left)) as Hip. cbn in Hip.
  destruct (is_expired (mp_ttl mp) now i p) eqn:Ex.
  - destruct (IH (dropped i mp)) as (H1' & H2' & H3' & H4' & H5' & H6'); [by apply pool_ok_dropped|done| |].
    { intros [j q] Hj. cbn. rewrite lookup_delete_ne; [apply (Hl (j, q)); by right|]. intros ->. by apply (Hni q). }
    split_and!; try done. intros id. rewrite H6'. cbn. destruct (decide (id = i)) as [->|Hne].
    + rewrite lookup_delete_eq, Hip, decide_True; [done|]. split; [by left|done].
    + rewrite lookup_delete_ne by done. destruct (mp_txs mp !! id) as [pt|]; [|done].
      apply decide_ext. rewrite elem_of_cons. split; intros [Hin He]; (split; [|done]); [by right|].
      by destruct Hin as [[= -> ->]|Hin].
  - destruct (IH mp) as (H1' & H2' & H3' & H4' & H5' & H6'); [done|done| |].
    { intros e He. apply Hl. by right. }
    split_and!; try done. intros id. rewrite H6'. destruct (mp_txs mp !! id) as [pt|]; [|done].
    apply decide_ext. rewrite elem_of_cons. split; intros [Hin He]; (split; [|done]); [by right|].
    destruct Hin as [[= -> ->]|Hin]; [congruence|done].
Qed.

Lemma expire_spec now mp :
  pool_ok mp →
  let mp' := expire now mp in
  pool_ok mp' ∧ mp_ttl mp' = mp_ttl mp ∧ mp_maxSize mp' = mp_maxSize mp ∧ mp_nextNonce mp' = mp_nextNonce mp ∧
  mp_db mp' = mp_db mp ∧
  ∀ id pt, mp_txs mp' !! id = Some pt ↔ mp_txs mp !! id = Some pt ∧ is_expired (mp_ttl mp) now id pt = false.
Proof.
  intros Hok. destruct (expire_go now (map_to_list (mp_txs mp)) mp) as (H1' & H2' & H3' & H4' & H5' & H6').
  - done.
  - apply NoDup_fst_map_to_list.
  - intros [id pt] Hin. by apply elem_of_map_to_list in Hin.
  - split_and!; try done. intros id pt. unfold expire. rewrite H6'.
    destruct (mp_txs mp !! id) as [q|] eqn:E; [|by split; [|intros [? _]]].
    destruct (is_expired (mp_ttl mp) now id q) eqn:Ee.
    + rewrite decide_True by (split; [by apply elem_of_map_to_list|done]). split; [done|].
      intros [[= ->] ?]. congruence.
    + rewrite decide_False by (by intros [_ ?]). split; [by intros [= <-]|by intros [? _]].
Qed.
End invariant.

(** ** Histories *)

Inductive pool_call :=
  | CallSubmit (state : gmap Address Account) (nowUnix now : Z) (tx : Transaction)
  | CallPending (now1 now2 : Hash → Z)
  | CallRemove (intentID : Hash).

Section histories.
Context {DB Tx : Type} `{BoltDB DB Tx} `{Ed25519}.

Definition run_pool (c : pool_call) : go (Mempool DB) unit :=
  match c with
  | CallSubmit state nowUnix now tx => Submit state nowUnix now tx
  | CallPending now1 now2 => PendingTxs now1 now2;; mret tt
  | CallRemove id => Mempool_Remove id
  end.

(** A call that returned, with or without an error. *)
Definition pool_step (mp mp' : Mempool DB) : Prop := ∃ c r, run_pool c mp = (mp', r) ∧ r ≠ Panic.

End histories.

Lemma pool_step_ok {DB Tx} `{BoltLaws DB Tx} `{Ed25519} (mp mp' : Mempool DB) :
  pool_step mp mp' → pool_ok mp → pool_ok mp' ∧ mp_maxSize mp' = mp_maxSize mp.
Proof.
  intros (c & r & Hrun & Hr) Hok. destruct c as [state nowUnix now tx|now1 now2|id]; cbn [run_pool] in Hrun.
  - split; [by eapply pool_ok_Submit|]. revert Hrun. unfold Submit.
    repeat case_match; intros [= <- <-]; cbn; done.
  - injection Hrun as <- <-. by destruct (expire_spec now1 mp Hok) as (? & _ & ? & _).
  - split; [by eapply pool_ok_Remove|]. revert Hrun. unfold Mempool_Remove.
    repeat case_match; intros [= <- <-]; cbn; done.
Qed.

Lemma pool_reachable_ok {DB Tx} `{BoltLaws DB Tx} `{Ed25519} (mp mp' : Mempool DB) :
  rtc pool_step mp mp' → pool_ok mp → pool_ok mp' ∧ mp_maxSize mp' = mp_maxSize mp.
Proof.
  induction 1 as [|x y z Hxy Hyz IH]; [done|]. intros Hok.
  destruct (pool_step_ok _ _ Hxy Hok) as [Hy Ey]. destruct (IH Hy) as [Hz Ez]. by rewrite Ez.
Qed.

Lemma pool_ok_persistent {DB Tx} `{BoltLaws DB Tx, !BoltReliable DB Tx} maxSize ttl (db : DB) :
  pool_ok (NewWithPersistence maxSize ttl db).
Proof.
  split; cbn [NewWithPersistence mp_index mp_txs mp_maxSize mp_db];
    [constructor|done|by intros ? ?%not_elem_of_nil|rewrite map_size_empty; lia|].
  intros db' [= <-]. split; [|by intros ? ?%not_elem_of_nil].
  destruct (create_ok pendingTxsBucket (db_begin db)) as (t & Hc & Hb); [done|].
  destruct (Update_ok _ db t tt Hc) as (db1 & Hu & Hb1). rewrite Hu. cbn [fst].
  rewrite Hb1, Hb, with_bucket_lookup, decide_True by done. done.
Qed.

(** Opening a pool on a database keeps the bucket that is there. *)
Lemma reopened_bucket {DB Tx} `{BoltLaws DB Tx, !BoltReliable DB Tx} maxSize ttl (db : DB) :
  ∃ db', mp_db (NewWithPersistence maxSize ttl db) = Some db' ∧
    bucket_of db' pendingTxsBucket = bucket_of db pendingTxsBucket.
Proof.
  cbn [NewWithPersistence mp_db].
  destruct (create_ok pendingTxsBucket (db_begin db)) as (t & Hc & Hb); [done|].
  destruct (Update_ok _ db t tt Hc) as (db1 & Hu & Hb1). rewrite Hu. cbn [fst].
  exists db1. split; [done|]. unfold bucket_of.
  rewrite Hb1, Hb, with_bucket_lookup, decide_True by done. cbn [default]. done.
Qed.

Lemma persisted_loaded {DB Tx} `{BoltDB DB Tx} (mp mp' : Mempool DB) db db' :
  pool_ok mp → mp_db mp = Some db → mp_db mp' = Some db' →
  bucket_of db' pendingTxsBucket = bucket_of db pendingTxsBucket →
  ∃ txs, LoadPersistent mp' = Ok txs ∧ ∀ tx, tx ∈ mp_index mp → Transaction_wf tx → tx ∈ txs.
Proof.
  intros Hok Hdb Hdb' Eb. exists (persisted (bucket_of db pendingTxsBucket)).
  split; [unfold LoadPersistent; rewrite Hdb', <- Eb; done|]. intros tx Hin Hwf.
  destruct (po_db mp Hok db Hdb) as [_ Hp]. destruct (Hp tx Hin) as (buf & Hbuf & Hl).
  apply list_elem_of_omap. exists (arr_bytes (tx_IntentID tx), buf). split; [by apply elem_of_entries|]. cbn [snd].
  assert (buf = wire (Transaction_Encode tx)) as ->.
  { unfold encode_bytes, run_writer in Hbuf. rewrite (rt_emits tx Hwf []) in Hbuf. by injection Hbuf. }
  unfold run_reader. pose proof (rt_parses tx Hwf []) as Hpar. rewrite app_nil_r in Hpar. by rewrite Hpar.
Qed.

(** *** The order of the pool *)

Definition precedes (a b : Transaction) : Prop :=
  tx_MaxFee b < tx_MaxFee a ∨
  tx_MaxFee a = tx_MaxFee b ∧
  (tx_Timestamp a < tx_Timestamp b ∨
   tx_Timestamp a = tx_Timestamp b ∧
   (tx_IntentID a = tx_IntentID b ∨ bytes_compare (tx_IntentID a) (tx_IntentID b) = Lt)).

Lemma bytes_not_lt {n} (a b : arr n) : bytes_lt b a = false ↔ a = b ∨ bytes_compare a b = Lt.
Proof.
  unfold bytes_lt. rewrite (bytes_compare_antisym a). destruct (bytes_compare a b) eqn:E; cbn.
  - apply bytes_compare_eq, arr_eq in E. intuition.
  - intuition.
  - split; [done|]. intros [->|?]; [|done]. by rewrite (proj2 (bytes_compare_eq b b)) in E.
Qed.

Lemma tx_before_precedes a b : not_after tx_before a b ↔ precedes a b.
Proof.
  unfold not_after, tx_before, precedes.
  destruct (Z.eqb_spec (tx_MaxFee b) (tx_MaxFee a)); cbn [negb]; [|rewrite Z.ltb_ge; intuition lia].
  destruct (Z.eqb_spec (tx_Timestamp b) (tx_Timestamp a)); cbn [negb]; [|rewrite Z.ltb_ge; intuition lia].
  rewrite bytes_not_lt. intuition lia.
Qed.

#[global] Instance tx_before_order : LessOrder tx_before.
Proof.
  split; unfold tx_before.
  - intros x y. destruct (Z.eqb_spec (tx_MaxFee x) (tx_MaxFee y)), (Z.eqb_spec (tx_MaxFee y) (tx_MaxFee x)); try lia; cbn [negb];
      [|rewrite Z.ltb_lt, Z.ltb_ge; lia].
    destruct (Z.eqb_spec (tx_Timestamp x) (tx_Timestamp y)), (Z.eqb_spec (tx_Timestamp y) (tx_Timestamp x)); try lia; cbn [negb];
      [|rewrite Z.ltb_lt, Z.ltb_ge; lia].
    apply bytes_lt_asym.
  - intros x y z. destruct (Z.eqb_spec (tx_MaxFee y) (tx_MaxFee x)), (Z.eqb_spec (tx_MaxFee z) (tx_MaxFee y)),
      (Z.eqb_spec (tx_MaxFee z) (tx_MaxFee x)); try lia; cbn [negb]; rewrite ?Z.ltb_ge; try lia.
    destruct (Z.eqb_spec (tx_Timestamp y) (tx_Timestamp x)), (Z.eqb_spec (tx_Timestamp z) (tx_Timestamp y)),
      (Z.eqb_spec (tx_Timestamp z) (tx_Timestamp x)); try lia; cbn [negb]; rewrite ?Z.ltb_ge; try lia.
    apply bytes_lt_trans.
Qed.

Lemma precedes_antisym a b : precedes a b → precedes b a → tx_IntentID a = tx_IntentID b.
Proof.
  unfold precedes. intros [|(? & [|(? & [E|E])])] [|(? & [|(? & [E'|E'])])]; try lia; try congruence.
  rewrite bytes_compare_antisym, E in E'. done.
Qed.

(** ** Listing *)

Lemma elem_of_list_filter_bool {A} (f : A → bool) (l : list A) x : x ∈ List.filter f l ↔ f x = true ∧ x ∈ l.
Proof. rewrite !list_elem_of_In, filter_In. tauto. Qed.

Lemma sublist_filter_bool {A} (f : A → bool) (l : list A) : sublist (List.filter f l) l.
Proof. induction l as [|x l IH]; cbn; [done|]. destruct (f x); by constructor. Qed.

Lemma precedes_unique l k :
  NoDup (tx_IntentID <$> k) → l ≡ₚ k → StronglySorted precedes l → StronglySorted precedes k → l = k.
Proof.
  intros Hn Hp Hl Hk. apply (sort_slice_unique tx_before); [|by eapply StronglySorted_mono; [|done]; intros ??; apply tx_before_precedes..|done].
  intros x y Hx Hy Hxy Hyx. rewrite Hp in Hx, Hy.
  apply tx_before_precedes in Hxy, Hyx. apply (NoDup_fmap_inj_on tx_IntentID k x y); [done..|].
  symmetry. by apply precedes_antisym.
Qed.

Section listing.
Context {DB Tx : Type} `{BoltLaws DB Tx}.
Implicit Types mp : Mempool DB.

Lemma pool_get_index mp id tx : pool_ok mp → Mempool_Get mp id = Some tx ↔ id = tx_IntentID tx ∧ tx ∈ mp_index mp.
Proof.
  intros Hok. unfold Mempool_Get. rewrite fmap_Some. split.
  - intros (pt & Hpt & ->). by apply (po_txs mp Hok).
  - intros [-> Hin]. destruct (po_index mp Hok tx Hin) as (pt & Hpt & E). by exists pt.
Qed.

Lemma pool_index_size mp : pool_ok mp → length (mp_index mp) = size (mp_txs mp).
Proof.
  intros Hok. rewrite <- size_dom, <- (length_fmap tx_IntentID (mp_index mp)).
  rewrite <- (size_list_to_set (C := gset Hash) (tx_IntentID <$> mp_index mp)) by apply (po_nodup mp Hok).
  f_equal. apply set_eq. intros id. rewrite elem_of_list_to_set, elem_of_dom, list_elem_of_fmap. split.
  - intros (tx & -> & Hin). destruct (po_index mp Hok tx Hin) as (pt & Hpt & _). by exists pt.
  - intros [pt Hpt]. destruct (po_txs mp Hok id pt Hpt) as [-> Hin]. by exists (pt_tx pt).
Qed.

Definition pending_list (now2 : Hash → Z) (mp : Mempool DB) : list Transaction :=
  List.filter (λ tx,
     match mp_txs mp !! tx_IntentID tx with
     | Some pt => negb (is_expired (mp_ttl mp) now2 (tx_IntentID tx) pt)
     | None => false
     end) (index_sorted (mp_index mp)).

Lemma pending_sorted now2 mp : StronglySorted precedes (pending_list now2 mp).
Proof.
  apply StronglySorted_filter. eapply StronglySorted_mono; [|apply sort_slice_sorted, _].
  intros x y. apply tx_before_precedes.
Qed.

Lemma pending_ids_NoDup now2 mp : pool_ok mp → NoDup (tx_IntentID <$> pending_list now2 mp).
Proof.
  intros Hok. eapply sublist_NoDup; [|apply (fmap_sublist tx_IntentID), sublist_filter_bool].
  unfold index_sorted. rewrite sort_slice_perm. apply (po_nodup mp Hok).
Qed.

Lemma pending_elem now1 now2 mp tx :
  pool_ok mp →
  tx ∈ pending_list now2 (expire now1 mp) ↔
  ∃ pt, mp_txs mp !! tx_IntentID tx = Some pt ∧ pt_tx pt = tx ∧
    now1 (tx_IntentID tx) - pt_submitted pt <= mp_ttl mp ∧ now2 (tx_IntentID tx) - pt_submitted pt <= mp_ttl mp.
Proof.
  intros Hok. destruct (expire_spec now1 mp Hok) as (Hok' & Ettl & _ & _ & _ & Hex).
  unfold pending_list, index_sorted. rewrite elem_of_list_filter_bool, sort_slice_perm, Ettl. split.
  - intros [Hf Hin]. destruct (po_index _ Hok' tx Hin) as (pt & Hpt & E). rewrite Hpt in Hf.
    apply negb_true_iff, Z.ltb_ge in Hf. apply Hex in Hpt as [Hpt He%Z.ltb_ge]. by exists pt.
  - intros (pt & Hpt & E & H1' & H2').
    assert (mp_txs (expire now1 mp) !! tx_IntentID tx = Some pt) as Hpt'.
    { apply Hex. split; [done|]. by apply Z.ltb_ge. }
    rewrite Hpt'. split; [by apply negb_true_iff, Z.ltb_ge|]. rewrite <- E. by apply (po_txs _ Hok' _ _ Hpt').
Qed.
End listing.

(** ** Nonces of one sender *)

Section nonces.
Context {DB Tx : Type} `{BoltDB DB Tx} `{Ed25519}.
Implicit Types mp : Mempool DB.

(** The nonces of the submissions of [a] that were accepted in a history. *)
Fixpoint accepted_nonces (a : Address) (cs : list pool_call) (mp : Mempool DB) : list Z :=
  match cs with
  | [] => []
  | c :: cs' =>
      match c, (run_pool c mp).2 with
      | CallSubmit _ _ _ tx, Ok _ => if decide (tx_Sender tx = a) then [tx_Nonce tx] else []
      | _, _ => []
      end ++ accepted_nonces a cs' (run_pool c mp).1
  end.

Fixpoint chained (prev : option Z) (l : list Z) : Prop :=
  match l with
  | [] => True
  | n :: l' => (∀ p, prev = Some p → n = p + 1) ∧ chained (Some n) l'
  end.

Lemma chained_lookup prev l i n m : chained prev l → l !! i = Some n → l !! S i = Some m → m = n + 1.
Proof.
  revert prev i. induction l as [|x l IH]; intros prev i; [done|]. intros [Hp Hc] Hi Hs.
  destruct i as [|i]; [|by eapply IH]. injection Hi as ->. destruct l as [|y l]; [done|].
  injection Hs as ->. destruct Hc as [Hc _]. by apply Hc.
Qed.

(** The recorded nonces are those of validated transactions. *)
Definition nonces_ok (mp : Mempool DB) : Prop := mp_db mp = None ∧ map_Forall (λ _ n, n ≠ 0 ∧ fits 8 n) (mp_nextNonce mp).

Lemma Validate_nonce nowUnix tx : Transaction_Validate nowUnix tx = Ok tt → tx_Nonce tx ≠ 0.
Proof. unfold Transaction_Validate. repeat case_match; try done. intros _. by apply Z.eqb_neq. Qed.

Lemma Submit_accepted state nowUnix now tx mp :
  nonces_ok mp → admit_tx state nowUnix mp tx = Ok tt →
  Submit state nowUnix now tx mp = (inserted now tx mp, Ok tt) ∧
  nonces_ok (inserted now tx mp) ∧ ∀ p, mp_nextNonce mp !! tx_Sender tx = Some p → tx_Nonce tx = p + 1.
Proof.
  intros [Hdb Hn] Ha. unfold Submit. rewrite Ha. cbn [inserted mp_db]. rewrite Hdb.
  apply admit_tx_inv in Ha as (Hv & _ & _ & n & Hexp & En). apply Validate_nonce in Hv.
  assert (fits 8 (tx_Nonce tx)) as Hfit. { rewrite En. apply u64_is_u64. }
  split; [done|]. split.
  - split; [done|]. cbn. by apply map_Forall_insert_2.
  - intros p Hp. destruct (Hn _ _ Hp) as [Hp0 Hpf]. unfold expected_nonce in Hexp. rewrite Hp in Hexp. cbn in Hexp.
    rewrite (proj2 (Z.eqb_neq p 0) Hp0) in Hexp. injection Hexp as <-. rewrite En in Hv. rewrite En.
    change (is_u64 p) in Hpf. unfold is_u64, u64 in *. destruct (decide (p + 1 = 2 ^ 64)) as [E|Hne].
    + by rewrite E in Hv.
    + apply Z.mod_small. lia.
Qed.

Lemma expire_frame now mp : mp_nextNonce (expire now mp) = mp_nextNonce mp ∧ mp_db (expire now mp) = mp_db mp.
Proof.
  unfold expire. generalize (map_to_list (mp_txs mp)). intros l. revert mp.
  induction l as [|e l IHl]; intros mp; [done|]. cbn [fold_left].
  destruct (is_expired _ _ _ _); [|apply IHl]. by destruct (IHl (dropped e.1 mp)) as [-> ->].
Qed.

Lemma accepted_chained a cs mp : nonces_ok mp → chained (mp_nextNonce mp !! a) (accepted_nonces a cs mp).
Proof.
  revert mp. induction cs as [|c cs IH]; intros mp Hok; [done|]. cbn [accepted_nonces].
  destruct c as [state nowUnix now tx|now1 now2|id]; cbn [run_pool].
  - destruct (admit_tx state nowUnix mp tx) as [[]|e|] eqn:Ha.
    + destruct (Submit_accepted state nowUnix now tx mp Hok Ha) as (-> & Hok' & Hp). cbn [fst snd].
      specialize (IH _ Hok'). cbn [inserted mp_nextNonce] in IH. case_decide as Hs.
      * subst a. rewrite lookup_insert_eq in IH. by split.
      * by rewrite lookup_insert_ne in IH.
    + unfold Submit. rewrite Ha. by apply IH.
    + unfold Submit. rewrite Ha. by apply IH.
  - change (chained (mp_nextNonce mp !! a) (accepted_nonces a cs (expire now1 mp))).
    destruct (expire_frame now1 mp) as [En Ed]. rewrite <- En. apply IH.
    destruct Hok as [Hdb Hn]. unfold nonces_ok. by rewrite En, Ed.
  - destruct Hok as [Hdb Hn]. unfold Mempool_Remove. cbn [dropped mp_db]. rewrite Hdb. cbn. by apply (IH (dropped id mp)).
Qed.
End nonces.

(** ** Properties *)

(** C22: Over every history of submissions, removals and listings of a pool,
    with or without persistence, the map and the index hold the same
    transactions, each under its own intent id, and never more than [maxSize]
    of them. A persistent pool survives a restart (on a database that does not
    fail): a fresh pool that [NewWithPersistence] opens, with any limits, on the
    database that the history left behind starts empty, and its
    [LoadPersistent] returns every transaction of the old pool whose fields
    fit the encoding's limits. *)
Theorem mempool_invariant {DB Tx} `{BoltLaws DB Tx, !BoltReliable DB Tx} `{Ed25519}
    (maxSize ttl : Z) (db : DB) (mp0 mp : Mempool DB) :
  mp0 = New maxSize ttl ∨ mp0 = NewWithPersistence maxSize ttl db →
  rtc pool_step mp0 mp →
  Count mp <= Z.max 0 maxSize ∧
  length (mp_index mp) = size (mp_txs mp) ∧
  (∀ id tx, Mempool_Get mp id = Some tx ↔ id = tx_IntentID tx ∧ tx ∈ mp_index mp) ∧
  (∀ db' maxSize' ttl', mp_db mp = Some db' →
   let fresh := NewWithPersistence maxSize' ttl' db' in
   Count fresh = 0 ∧
   ∃ txs, LoadPersistent fresh = Ok txs ∧ ∀ tx, tx ∈ mp_index mp → Transaction_wf tx → tx ∈ txs).
Proof.
  intros Hstart Hsteps.
  assert (pool_ok mp0 ∧ mp_maxSize mp0 = maxSize) as [Hok0 E0].
  { destruct Hstart as [-> | ->]; (split; [|done]); [apply pool_ok_New|apply pool_ok_persistent]. }
  destruct (pool_reachable_ok _ _ Hsteps Hok0) as [Hok Em]. rewrite E0 in Em.
  split; [rewrite <- Em; apply (po_size mp Hok)|]. split; [by apply pool_index_size|]. split.
  - intros id tx. by apply pool_get_index.
  - intros db' maxSize' ttl' Hdb fresh. split; [done|].
    destruct (reopened_bucket maxSize' ttl' db') as (db1 & E1 & Eb).
    by apply (persisted_loaded mp fresh db' db1).
Qed.

(** [PendingTxs] returns exactly the pooled transactions that are within
    their time to live at both readings of the clock, each once, ordered by
    fee descending, then timestamp, then intent id; this order determines the
    result. Expired transactions leave the pool, the others stay. *)
Theorem pending_exact {DB Tx} `{BoltLaws DB Tx} `{Ed25519} (now1 now2 : Hash → Z) (mp : Mempool DB) :
  pool_ok mp →
  ∃ mp' txs, PendingTxs now1 now2 mp = (mp', Ok txs) ∧
    (∀ tx, tx ∈ txs ↔ ∃ pt, mp_txs mp !! tx_IntentID tx = Some pt ∧ pt_tx pt = tx ∧
       now1 (tx_IntentID tx) - pt_submitted pt <= mp_ttl mp ∧ now2 (tx_IntentID tx) - pt_submitted pt <= mp_ttl mp) ∧
    NoDup txs ∧ StronglySorted precedes txs ∧
    (∀ l, l ≡ₚ txs → StronglySorted precedes l → l = txs) ∧
    (∀ id tx, Mempool_Get mp' id = Some tx ↔
       ∃ pt, mp_txs mp !! id = Some pt ∧ pt_tx pt = tx ∧ now1 id - pt_submitted pt <= mp_ttl mp).
Proof.
  intros Hok. destruct (expire_spec now1 mp Hok) as (Hok' & Ettl & _ & _ & _ & Hex).
  eexists (expire now1 mp), _. split; [reflexivity|]. set (txs := List.filter _ _).
  assert (∀ tx, tx ∈ txs → tx ∈ mp_index (expire now1 mp)) as Hsub.
  { intros tx [_ Hin]%elem_of_list_filter_bool. by rewrite <- (sort_slice_perm tx_before). }
  assert (NoDup (tx_IntentID <$> txs)) as Hnd by (by apply pending_ids_NoDup).
  assert (StronglySorted precedes txs) as Hsorted by apply pending_sorted.
  split; [|split; [|split; [|split]]].
  - intros tx. by apply (pending_elem now1 now2 mp).
  - by apply NoDup_fmap_1 in Hnd.
  - done.
  - intros l Hp Hl. by apply (precedes_unique l txs).
  - intros id tx. unfold Mempool_Get. rewrite fmap_Some. split.
    + intros (pt & Hpt & ->). apply Hex in Hpt as [Hpt He]. exists pt. split; [done|]. split; [done|].
      by apply Z.ltb_ge.
    + intros (pt & Hpt & <- & He). exists pt. split; [|done]. apply Hex. split; [done|]. by apply Z.ltb_ge.
Qed.

(** Without persistence the accepted submissions of one sender have
    consecutive nonces, whatever is removed, listed or expired between them:
    a nonce is never accepted twice, and one that was removed or expired
    before it was committed can never be submitted again. *)
Theorem accepted_nonces_consecutive {DB Tx} `{BoltDB DB Tx} `{Ed25519}
    (maxSize ttl : Z) (a : Address) (cs : list pool_call) (i : nat) (n m : Z) :
  let l := accepted_nonces a cs (New (DB := DB) maxSize ttl) in
  l !! i = Some n → l !! S i = Some m → m = n + 1.
Proof.
  intros l. apply (chained_lookup (mp_nextNonce (New (DB := DB) maxSize ttl) !! a)), accepted_chained.
  split; [done|]. apply map_Forall_empty.
Qed.

(** ** Examples *)

Definition pool_tx (id nonce fee : Z) : Transaction :=
  {| tx_Version := 1; tx_ChainID := 1; tx_IntentID := arr_copy 32 (be 8 id); tx_Sender := arr_copy 20 (be 8 1);
     tx_Nonce := nonce; tx_Payload := []; tx_Constraints := []; tx_MaxFee := fee;
     tx_GasLimit := 0; tx_Timestamp := 100; tx_Signature := arr_bytes (arr_zero 32) ++ arr_bytes (arr_copy 32 (be 8 id));
     tx_TxType := TxTypeStandard |}.

Definition pool_accounts : gmap Address Account :=
  {[ arr_copy 20 (be 8 1) := mkAccount (arr_copy 20 (be 8 1)) (NewAmount 1000) 0 ZeroHash ZeroHash 0 (arr_zero 32) ]}.

(** Two transactions of one account, the second with the higher fee. *)
Definition pool_calls : list pool_call :=
  [CallSubmit pool_accounts 100 0 (pool_tx 1 1 5); CallSubmit pool_accounts 100 1 (pool_tx 2 2 9)].

Definition pool_after (cs : list pool_call) (mp : Mempool contents) : Mempool contents :=
  fold_left (λ mp c, (run_pool (H0 := echo_ed25519) c mp).1) cs mp.

Lemma pool_after_steps cs mp :
  forallb (λ n, match (run_pool (H0 := echo_ed25519) (nth n cs (CallRemove ZeroHash)) (pool_after (take n cs) mp)).2 with
                | Panic => false | _ => true end) (seq 0 (length cs)) = true →
  rtc (pool_step (H0 := echo_ed25519)) mp (pool_after cs mp).
Proof.
  revert mp. induction cs as [|c cs IH]; intros mp; [done|]. cbn [length seq forallb nth take].
  intros [Hc Hcs]%andb_true_iff. apply (rtc_l _ _ ((run_pool (H0 := echo_ed25519) c mp).1)).
  - exists c, (run_pool (H0 := echo_ed25519) c mp).2. split; [apply surjective_pairing|]. intros E.
    unfold pool_after in Hc. cbn [fold_left] in Hc. by rewrite E in Hc.
  - apply IH. rewrite <- seq_shift, forallb_forall in Hcs. apply forallb_forall. intros n Hn.
    apply (Hcs (S n)). by apply in_map.
Qed.

Lemma mempool_invariant_witness :
  Count (pool_after pool_calls (NewWithPersistence 2 60 ∅)) = 2 ∧
  ∃ db txs, mp_db (pool_after pool_calls (NewWithPersistence 2 60 ∅)) = Some db ∧
    LoadPersistent (NewWithPersistence 5 30 db) = Ok txs ∧ pool_tx 2 2 9 ∈ txs.
Proof.
  split; [vm_compute; reflexivity|].
  destruct (mempool_invariant (H1 := echo_ed25519) 2 60 (∅ : contents)
            (NewWithPersistence 2 60 ∅) (pool_after pool_calls (NewWithPersistence 2 60 ∅)))
    as (_ & _ & _ & Hl).
  - by right.
  - apply (pool_after_steps pool_calls). by vm_compute.
  - destruct (mp_db (pool_after pool_calls (NewWithPersistence 2 60 ∅))) as [db|] eqn:Edb;
      [|apply (f_equal (λ o, bool_decide (is_Some o))) in Edb; vm_compute in Edb; discriminate Edb].
    destruct (Hl db 5 30 eq_refl) as (_ & txs & Ht & Hin).
    exists db, txs. split; [reflexivity|]. split; [exact Ht|]. apply Hin; [apply (bool_decide_unpack _); vm_compute; exact I|].
    repeat split; vm_compute; (reflexivity || discriminate).
Defined.

Lemma pending_exact_witness :
  ∃ mp' txs, PendingTxs (λ _, 60) (λ _, 60) (pool_after pool_calls (New 2 60)) = (mp', Ok txs) ∧
    pool_tx 1 1 5 ∈ txs ∧ pool_tx 2 2 9 ∈ txs ∧ StronglySorted precedes txs.
Proof.
  destruct (pending_exact (H1 := echo_ed25519) (λ _, 60) (λ _, 60) (pool_after pool_calls (New 2 60)))
    as (mp' & txs & Hp & Hin & _ & Hs & _).
  - apply (pool_reachable_ok (H1 := echo_ed25519) (New 2 60)); [|apply pool_ok_New].
    apply (pool_after_steps pool_calls). by vm_compute.
  - exists mp', txs. split; [exact Hp|].
    split; [|split; [|exact Hs]]; apply Hin;
      [exists (mkPendingTx (pool_tx 1 1 5) 0)|exists (mkPendingTx (pool_tx 2 2 9) 1)];
      (split; [vm_compute; reflexivity|]); (split; [reflexivity|]); vm_compute; split; discriminate.
Defined.

Lemma accepted_nonces_consecutive_witness :
  accepted_nonces (H0 := echo_ed25519) (arr_copy 20 (be 8 1)) pool_calls (New (DB := contents) 2 60) = [1; 2] ∧ 2 = 1 + 1.
Proof.
  split; [vm_compute; reflexivity|].
  apply (accepted_nonces_consecutive (DB := contents) (H0 := echo_ed25519) 2 60 (arr_copy 20 (be 8 1)) pool_calls 0);
    vm_compute; reflexivity.
Defined.
