(* ===== verification/Vm.v ===== *)
(** * The virtual machine (package vm)

    Gas meter, event log, contract storage, the host functions that contracts
    import and the execution of deployments and calls with rollback.

    The WebAssembly engine (github.com/tetratelabs/wazero) is third-party code
    and a parameter, the class [Wazero]: the compiler, the memory of a module
    instance, and the run of an exported function as a tree of its calls of
    host functions. A run is finite because the engine stops a module at the
    deadline of its context; a trap, an exit and the deadline all end the run
    with an error, and so does a panic inside a host function.

    [Memory.Read] returns a slice of the memory of the instance, not a copy,
    and the code keeps such slices: [SetContractStorage] puts one into the
    key-value store and [Emit] into the event log. What they hold is what the
    memory holds when they are looked at, so the model keeps the slices
    ([he_views], [le_Data]) and reads them through the current memory. *)

From S2P Require Import Prelude Codec Sha256 Address Amount Tx Votes Block Smt Store Keys State BlockExec.

(** ** Gas (vm/gas.go) *)

Definition GasReadStorage : Z := 20.
Definition GasWriteStorage : Z := 50.
Definition GasEmitEvent : Z := 30.
Definition GasReadCaller : Z := 10.
Definition GasReadBlockHeight : Z := 10.
Definition GasReadBlockTimestamp : Z := 10.
Definition GasTransferToken : Z := 100.
Definition GasDeployBase : Z := 1000.
Definition GasPerCodeByte : Z := 1.
Definition GasPerStorageByte : Z := 2.

Record GasMeter := mkGasMeter {
  gm_Limit : Z;
  gm_Used : Z;
}.

Definition NewGasMeter (limit : Z) : GasMeter := mkGasMeter limit 0.

(** The sum wraps around. *)
Definition Deduct (cost : Z) : go GasMeter unit := λ gm,
  if gm_Limit gm <? u64 (gm_Used gm + cost) then (gm, Err ErrVmGasLimitExceeded)
  else (mkGasMeter (gm_Limit gm) (u64 (gm_Used gm + cost)), Ok tt).

Definition Remaining (gm : GasMeter) : Z := u64 (gm_Limit gm - gm_Used gm).

(** ** Contract storage (vm/storage.go) *)

Definition MaxStorageKeySize : Z := 256.
Definition MaxStorageValueSize : Z := 64 * 1024.

Section contract_store.
Context {S : Type} `{KVStore S}.

Definition ContractStore_Read (contractID : Hash) (key : bytes) : go S bytes :=
  guard_err (MaxStorageKeySize <? Z.of_nat (length key)) ErrStorageKeyTooLarge;;
  GetContractStorage contractID key.

Definition ContractStore_Write (contractID : Hash) (key value : bytes) : go S unit :=
  guard_err (MaxStorageKeySize <? Z.of_nat (length key)) ErrStorageKeyTooLarge;;
  guard_err (MaxStorageValueSize <? Z.of_nat (length value)) ErrStorageValueTooLarge;;
  SetContractStorage contractID key value.
End contract_store.

Definition keyForCode (contractID : Hash) : string := "code:" +:+ hex contractID.
Definition keyForMeta (contractID : Hash) : string := "meta:" +:+ hex contractID.
Definition keyForStorage (contractID : Hash) (key : bytes) : string :=
  "storage:" +:+ hex contractID +:+ ":" +:+ hex (Sum256 key).

(** ** Contract identifiers (vm/contract.go) *)

Definition DeriveContractID (deployer : Address) (nonce : Z) (codeHash : Hash) : Hash :=
  Sum256 (arr_bytes deployer ++ be 8 nonce ++ arr_bytes codeHash).

(** ** The engine *)

(** The functions of module env with their arguments. *)
Inductive host_call :=
  | ReadStorage (contractIDPtr contractIDLen keyPtr keyLen outPtr : Z)
  | WriteStorage (contractIDPtr contractIDLen keyPtr keyLen valuePtr valueLen : Z)
  | EmitEvent (topicPtr topicLen dataPtr dataLen : Z)
  | ReadCaller (outPtr : Z)
  | ReadBlockHeight
  | ReadBlockTimestamp
  | TransferToken (recipientPtr recipientLen amountHi amountLo : Z).

(** A run: each node has the memory at that moment. *)
Inductive Run (Mem R : Type) : Type :=
  | Return (r : R) (mem : Mem)
  | Fail (mem : Mem)
  | Import (f : host_call) (mem : Mem) (k : Z → Mem → Run Mem R).
Arguments Return {Mem R} _ _.
Arguments Fail {Mem R} _.
Arguments Import {Mem R} _ _ _.

Class Wazero : Type := {
  Mem : Type;
  Slice : Type;
  no_memory : Mem;
  mem_exported : Mem → bool;
  mem_Size : Mem → Z;
  mem_Read : Mem → Z → Z → option Slice;
  mem_Write : Mem → Z → bytes → option Mem;
  slice_bytes : Mem → Slice → bytes;
  CompiledModule : Type;
  Instance_ : Type;
  wz_compile : bytes → option CompiledModule;
  ExportedFunctions : CompiledModule → string → bool;
  ImportedFunctions : CompiledModule → list (string * string);
  wz_host_module : res unit;
  InstantiateModule : CompiledModule → string → Run Mem Instance_;
  ExportedFunction : Instance_ → string → bool;
  Call : Instance_ → string → list Z → Mem → Run Mem (list Z);
}.

Definition MaxContractSize : Z := 1 * 1024 * 1024.

Definition CompileModule `{Wazero} (code : bytes) : res CompiledModule :=
  if MaxContractSize <? Z.of_nat (length code) then Err ErrCodeTooLarge else
  match wz_compile code with
  | Some compiled => Ok compiled
  | None => Err (Wrapf "" ErrInvalidWasm)
  end.

Definition allowedHostFunctions : gset string :=
  {[ "read_storage"; "write_storage"; "emit_event"; "read_caller"; "read_block_height";
     "read_block_timestamp"; "transfer_token" ]}.

Fixpoint check_imports (l : list (string * string)) : res unit :=
  match l with
  | [] => Ok tt
  | (modName, fnName) :: l' =>
      if negb (bool_decide (modName = "env")) then Err (Wrapf "module is not allowed" ErrInvalidImport) else
      if negb (bool_decide (fnName ∈ allowedHostFunctions)) then Err (Wrapf "function is not allowed" ErrInvalidImport) else
      check_imports l'
  end.

Definition validateImports `{Wazero} (compiled : CompiledModule) : res unit :=
  check_imports (ImportedFunctions compiled).

(** ** The host environment (vm/host.go, vm/events.go) *)

(** An event whose data is a slice of the memory. *)
Record LogEntry (Slice : Type) := mkLogEntry {
  le_ContractID : Hash;
  le_Topic : string;
  le_Data : Slice;
  le_TxIndex : Z;
  le_BlockHeight : Z;
}.
Arguments mkLogEntry {Slice} _ _ _ _ _.
Arguments le_ContractID {Slice} _.
Arguments le_Topic {Slice} _.
Arguments le_Data {Slice} _.
Arguments le_TxIndex {Slice} _.
Arguments le_BlockHeight {Slice} _.

(** [he_state] is the state with the values it had before; [he_views] are the
    entries of its key-value store whose value is now a slice; [he_memory] is
    the memory of the module. *)
Record HostEnv `{Wazero} := mkHostEnv {
  he_meter : GasMeter;
  he_state : InMemoryState;
  he_caller : Address;
  he_contractID : Hash;
  he_blockHeight : Z;
  he_timestamp : Z;
  he_txIndex : Z;
  he_eventLog : list (LogEntry Slice);
  he_callDepth : Z;
  he_views : gmap string Slice;
  he_memory : Mem;
}.
Arguments mkHostEnv {_} _ _ _ _ _ _ _ _ _ _ _.

Definition MaxCallDepth : Z := 64.

Section host.
Context `{Wazero}.

Definition NewHostEnv (meter : GasMeter) (caller : Address) (contractID : Hash)
    (blockHeight timestamp txIndex : Z) (st : InMemoryState) : HostEnv :=
  mkHostEnv meter st caller contractID blockHeight timestamp txIndex [] 0 ∅ no_memory.

Definition set_meter (gm : GasMeter) (env : HostEnv) : HostEnv :=
  mkHostEnv gm (he_state env) (he_caller env) (he_contractID env) (he_blockHeight env) (he_timestamp env)
    (he_txIndex env) (he_eventLog env) (he_callDepth env) (he_views env) (he_memory env).

Definition set_depth (d : Z) (env : HostEnv) : HostEnv :=
  mkHostEnv (he_meter env) (he_state env) (he_caller env) (he_contractID env) (he_blockHeight env) (he_timestamp env)
    (he_txIndex env) (he_eventLog env) d (he_views env) (he_memory env).

Definition set_memory (m : Mem) (env : HostEnv) : HostEnv :=
  mkHostEnv (he_meter env) (he_state env) (he_caller env) (he_contractID env) (he_blockHeight env) (he_timestamp env)
    (he_txIndex env) (he_eventLog env) (he_callDepth env) (he_views env) m.

Definition add_view (k : string) (v : Slice) (env : HostEnv) : HostEnv :=
  mkHostEnv (he_meter env) (he_state env) (he_caller env) (he_contractID env) (he_blockHeight env) (he_timestamp env)
    (he_txIndex env) (he_eventLog env) (he_callDepth env) (<[k := v]> (he_views env)) (he_memory env).

(** [EventLog.Emit]. *)
Definition Emit (contractID : Hash) (topic : string) (data : Slice) (txIndex blockHeight : Z) : go HostEnv unit :=
  modify (λ env,
    mkHostEnv (he_meter env) (he_state env) (he_caller env) (he_contractID env) (he_blockHeight env)
      (he_timestamp env) (he_txIndex env)
      (he_eventLog env ++ [mkLogEntry contractID topic data txIndex blockHeight])
      (he_callDepth env) (he_views env) (he_memory env)).

(** [EventLog.Events], with the data as the memory has it now. *)
Definition EventLog_Events (env : HostEnv) : list Event :=
  (λ e, {| ev_ContractID := le_ContractID e; ev_Topic := le_Topic e;
           ev_Data := slice_bytes (he_memory env) (le_Data e);
           ev_BlockHeight := le_BlockHeight e; ev_TxIndex := le_TxIndex e |}) <$> he_eventLog env.

(** The state as the rest of the program sees it: slices are read through the
    memory. *)
Definition state_of (env : HostEnv) : InMemoryState :=
  mkInMemoryState (accounts (he_state env))
    ((slice_bytes (he_memory env) <$> he_views env) ∪ kvstore (he_state env))
    (smt (he_state env)) (snapshots (he_state env)).

Definition EnterCall : go HostEnv unit := λ env,
  if MaxCallDepth <=? he_callDepth env then (env, Err ErrVmCallDepthExceeded)
  else (set_depth (he_callDepth env + 1) env, Ok tt).

Definition ExitCall : go HostEnv unit :=
  modify (λ env, if 0 <? he_callDepth env then set_depth (he_callDepth env - 1) env else env).

(** [env.meter.Deduct(cost)]. *)
Definition deduct (cost : Z) : go HostEnv unit := λ env,
  let '(gm, r) := Deduct cost (he_meter env) in (set_meter gm env, r).

(** [if err := m; err != nil { return code }]. *)
Definition or_code (m : go HostEnv unit) (code : Z) (k : go HostEnv Z) : go HostEnv Z :=
  r ← try m;
  match r with inl _ => mret code | inr _ => k end.

(** [mem := module.Memory()], nil if the module has no memory: its methods
    then panic. *)
Definition with_memory {A} (k : Mem → go HostEnv A) : go HostEnv A :=
  m ← gets he_memory;
  if mem_exported m then k m else gopanic.

(** [v, ok := mem.Read(off, n); if !ok { return 2 }]. *)
Definition reading (m : Mem) (off n : Z) (k : Slice → go HostEnv Z) : go HostEnv Z :=
  match mem_Read m off n with None => mret 2 | Some v => k v end.

(** [if !mem.Write(off, v) { return 2 }; return 0]. *)
Definition writing (m : Mem) (off : Z) (v : bytes) : go HostEnv Z :=
  match mem_Write m off v with None => mret 2 | Some m' => modify (set_memory m');; mret 0 end.

(** [off + n > uint32(mem.Size())]: the sum is a [uint32]. *)
Definition out_of (m : Mem) (off n : Z) : bool := mem_Size m <? u32 (off + n).

(** [env.state.SetContractStorage] with a slice as value. *)
Definition store_slice (contractID : Hash) (key : bytes) (m : Mem) (value : Slice) : go HostEnv unit :=
  guard_err (64 * 1024 <? Z.of_nat (length (slice_bytes m value))) (Errorf "storage value exceeds 64 KiB limit");;
  modify (add_view (storageKey contractID (Sum256 key)) value).

Definition read_storage (contractIDPtr contractIDLen keyPtr keyLen outPtr : Z) : go HostEnv Z :=
  or_code (deduct GasReadStorage) 1 (
  with_memory (λ mem,
  if out_of mem contractIDPtr contractIDLen || out_of mem keyPtr keyLen || (mem_Size mem <? outPtr)
  then mret 2 else
  reading mem contractIDPtr contractIDLen (λ contractIDBytes,
  let contractID := arr_copy 32 (slice_bytes mem contractIDBytes) in
  reading mem keyPtr keyLen (λ key,
  env ← gets (λ env, env);
  match (GetContractStorage contractID (slice_bytes mem key) (state_of env)).2 with
  | Ok value =>
      if bool_decide (length value = 0%nat) then mret 0 else
      if out_of mem outPtr (u32 (Z.of_nat (length value))) then mret 2 else
      writing mem outPtr value
  | _ => mret 3
  end)))).

Definition write_storage (contractIDPtr contractIDLen keyPtr keyLen valuePtr valueLen : Z) : go HostEnv Z :=
  or_code (deduct GasWriteStorage) 1 (
  if MaxStorageValueSize <? valueLen then mret 4 else
  or_code (deduct (u64 (GasPerStorageByte * valueLen))) 1 (
  with_memory (λ mem,
  if out_of mem contractIDPtr contractIDLen || out_of mem keyPtr keyLen || out_of mem valuePtr valueLen
  then mret 2 else
  reading mem contractIDPtr contractIDLen (λ contractIDBytes,
  let contractID := arr_copy 32 (slice_bytes mem contractIDBytes) in
  reading mem keyPtr keyLen (λ key,
  reading mem valuePtr valueLen (λ value,
  or_code (store_slice contractID (slice_bytes mem key) mem value) 5 (mret 0))))))).

(** No result: 0 stands for the return. *)
Definition emit_event (topicPtr topicLen dataPtr dataLen : Z) : go HostEnv Z :=
  or_code (deduct GasEmitEvent) 0 (
  with_memory (λ mem,
  if out_of mem topicPtr topicLen || out_of mem dataPtr dataLen then mret 0 else
  match mem_Read mem topicPtr topicLen with
  | None => mret 0
  | Some topicBytes =>
      match mem_Read mem dataPtr dataLen with
      | None => mret 0
      | Some data =>
          env ← gets (λ env, env);
          Emit (he_contractID env) (bytes_str (slice_bytes mem topicBytes)) data (he_txIndex env) (he_blockHeight env);;
          mret 0
      end
  end)).

Definition read_caller (outPtr : Z) : go HostEnv Z :=
  or_code (deduct GasReadCaller) 1 (
  with_memory (λ mem,
  if out_of mem outPtr 20 then mret 2 else
  caller ← gets he_caller;
  writing mem outPtr (arr_bytes caller))).

Definition read_block_height : go HostEnv Z :=
  or_code (deduct GasReadBlockHeight) 0 (gets he_blockHeight).

Definition read_block_timestamp : go HostEnv Z :=
  or_code (deduct GasReadBlockTimestamp) 0 (gets he_timestamp).

(** Nothing is transferred. *)
Definition transfer_token (recipientPtr recipientLen amountHi amountLo : Z) : go HostEnv Z :=
  or_code (deduct GasTransferToken) 1 (
  with_memory (λ mem,
  if out_of mem recipientPtr recipientLen then mret 2 else
  match mem_Read mem recipientPtr recipientLen with
  | None => mret 2
  | Some recipientBytes =>
      if negb (bool_decide (length (slice_bytes mem recipientBytes) = 20%nat)) then mret 2 else mret 0
  end)).

(** The functions that [BuildHostModule] exports. *)
Definition host_function (f : host_call) : go HostEnv Z :=
  match f with
  | ReadStorage a b c d e => read_storage a b c d e
  | WriteStorage a b c d e g => write_storage a b c d e g
  | EmitEvent a b c d => emit_event a b c d
  | ReadCaller a => read_caller a
  | ReadBlockHeight => read_block_height
  | ReadBlockTimestamp => read_block_timestamp
  | TransferToken a b c d => transfer_token a b c d
  end.

(** A run against the host functions; [None] is an error of the engine. *)
Fixpoint run_wasm {R} (t : Run Mem R) : go HostEnv (option R) := λ env,
  match t with
  | Return r m => (set_memory m env, Ok (Some r))
  | Fail m => (set_memory m env, Ok None)
  | Import f m k =>
      match host_function f (set_memory m env) with
      | (env', Ok code) => run_wasm (k code (he_memory env')) env'
      | (env', _) => (env', Ok None)
      end
  end.
End host.

(** ** Execution (vm/vm.go) *)

Definition ContractIDMemOffset : Z := 1024.

Section contracts.
Context {S : Type} `{KVStore S}.

Definition storeCode (code : bytes) : go S unit := SetCode (Sum256 code) code.

Definition loadCode (contractID : Hash) : go S bytes :=
  meta ← GetContractMeta contractID;
  GetCode (m_CodeHash meta).

Definition storeContractMeta (contractID : Hash) (meta : ContractMetadata) : go S unit :=
  SetContractMeta contractID
    {| m_ContractID := contractID; m_CodeHash := m_CodeHash meta; m_Deployer := m_Deployer meta;
       m_BlockHeight := m_BlockHeight meta |}.
End contracts.

Section execution.
Context `{Wazero}.

(** A piece of code that works on the state through a host environment. *)
Definition in_env {A} (new : InMemoryState → HostEnv) (p : go HostEnv A) : go InMemoryState A := λ st,
  let '(env, r) := p (new st) in (state_of env, r).

(** [InstantiateModule], which runs the start function, and [Call]. *)
Definition instantiate (compiled : CompiledModule) (name msg : string) : go HostEnv Instance_ :=
  r ← run_wasm (InstantiateModule compiled name);
  match r with None => throw (Errorf msg) | Some inst => mret inst end.

Definition call (inst : Instance_) (fn : string) (params : list Z) : go HostEnv (option (list Z)) :=
  m ← gets he_memory;
  run_wasm (Call inst fn params m).

(** [if !mem.Write(off, v) { return fmt.Errorf(msg) }]. *)
Definition write_or_fail (off : Z) (v : bytes) (msg : string) : go HostEnv unit :=
  with_memory (λ m,
    match mem_Write m off v with None => throw (Errorf msg) | Some m' => modify (set_memory m') end).

(** The body of the loop over the constructor names: the gas that it used. *)
Definition run_constructor (compiled : CompiledModule) (exportName : string) (contractID : Hash) : go HostEnv Z :=
  lift (wrap_res "constructor host module" wz_host_module);;
  inst ← instantiate compiled ("constructor_" +:+ hex (take 8 contractID)) "constructor instantiation";
  write_or_fail ContractIDMemOffset contractID "failed to write contractID for constructor";;
  guard_err (negb (ExportedFunction inst exportName)) (Errorf "constructor export declared but not found");;
  EnterCall;;
  r ← call inst exportName [];
  ExitCall;;
  match r with
  | None => throw (Errorf "constructor execution failed")
  | Some _ => gets (λ env, gm_Used (he_meter env))
  end.

Definition constructor_of (compiled : CompiledModule) : option string :=
  List.find (ExportedFunctions compiled) ["init"; "constructor"].

Definition executeDeploy (tx : DeployContractTx) (blockHeight blockTimestamp : Z) (meter : GasMeter) (txIndex : Z)
  : go InMemoryState ExecutionResult :=
  compiled ← lift (CompileModule (dep_WasmCode tx));
  let contractID := DeriveContractID (dep_Sender tx) (dep_Nonce tx) (dep_CodeHash tx) in
  existing ← try (GetContractMeta contractID);
  match existing with
  | inr _ => throw ErrContractAlreadyExists
  | inl _ =>
      let deploymentGas := u64 (GasDeployBase + u64 (GasPerCodeByte * Z.of_nat (length (dep_WasmCode tx)))) in
      match Deduct deploymentGas meter with
      | (meter, Ok _) =>
          wrap "store code" (storeCode (dep_WasmCode tx));;
          wrap "store meta" (storeContractMeta contractID
            {| m_ContractID := contractID; m_CodeHash := Sum256 (dep_WasmCode tx); m_Deployer := dep_Sender tx;
               m_BlockHeight := blockHeight |});;
          constructorUsed ←
            match constructor_of compiled with
            | None => mret 0
            | Some exportName =>
                in_env (NewHostEnv (NewGasMeter (Remaining meter)) (dep_Sender tx) contractID
                          blockHeight blockTimestamp txIndex)
                  (run_constructor compiled exportName contractID)
            end;
          mret {| GasUsed := u64 (gm_Used meter + constructorUsed); ReturnData := contractID; Events := [];
                  Reverted := false; ContractAddress := Some (arr_copy 20 contractID); GasLimit := dep_GasLimit tx |}
      | _ => throw ErrVmGasLimitExceeded
      end
  end.

(** The call parameters: pointer and length of the calldata, if any. *)
Definition write_calldata (calldata : bytes) : go HostEnv (list Z) :=
  if bool_decide (length calldata = 0%nat) then mret [] else
  with_memory (λ m,
    guard_err (mem_Size m <? u32 (Z.of_nat (length calldata))) (Errorf "calldata too large");;
    write_or_fail 0 calldata "failed to write calldata";;
    mret [0; Z.of_nat (length calldata)]).

Definition run_entrypoint (compiled : CompiledModule) (tx : CallContractTx) : go HostEnv ExecutionResult :=
  lift (wrap_res "failed to build host module" wz_host_module);;
  inst ← instantiate compiled ("contract_" +:+ hex (take 8 (call_ContractID tx))) "failed to instantiate contract module";
  guard_err (negb (ExportedFunction inst (call_Entrypoint tx))) (Wrapf "function not found" ErrHostFunction);;
  callParams ← write_calldata (call_Calldata tx);
  write_or_fail ContractIDMemOffset (call_ContractID tx) "failed to write contractID";;
  EnterCall;;
  results ← call inst (call_Entrypoint tx) callParams;
  ExitCall;;
  used ← gets (λ env, gm_Used (he_meter env));
  match results with
  | None =>
      if call_GasLimit tx <=? used
      then mret {| GasUsed := used; ReturnData := []; Events := []; Reverted := true; ContractAddress := None; GasLimit := 0 |}
      else throw (Wrapf "" ErrHostFunction)
  | Some results =>
      if match results with code :: _ => negb (code =? 0) | [] => false end
      then mret {| GasUsed := used; ReturnData := []; Events := []; Reverted := true; ContractAddress := None;
                   GasLimit := call_GasLimit tx |}
      else
        events ← gets EventLog_Events;
        mret {| GasUsed := used; ReturnData := []; Events := events; Reverted := false; ContractAddress := None;
                GasLimit := call_GasLimit tx |}
  end.

Definition executeCall (tx : CallContractTx) (blockHeight blockTimestamp : Z) (meter : GasMeter) (txIndex : Z)
  : go InMemoryState ExecutionResult :=
  r ← try (loadCode (call_ContractID tx));
  match r with
  | inl _ => throw (Wrapf "" ErrVmContractNotFound)
  | inr code =>
      compiled ← lift (CompileModule code);
      lift (validateImports compiled);;
      in_env (NewHostEnv meter (call_Sender tx) (call_ContractID tx) blockHeight blockTimestamp txIndex)
        (run_entrypoint compiled tx)
  end.

Definition execute_tx (tx : contract_tx) (blockHeight blockTimestamp txIndex : Z) : go InMemoryState ExecutionResult :=
  match tx with
  | DeployTx t => executeDeploy t blockHeight blockTimestamp (NewGasMeter (dep_GasLimit t)) txIndex
  | CallTx t => executeCall t blockHeight blockTimestamp (NewGasMeter (call_GasLimit t)) txIndex
  end.

(** [Execute]: snapshot, run, roll back on an error or a revert. *)
Definition Execute : VM := λ tx blockHeight blockTimestamp txIndex,
  snapID ← Snapshot;
  r ← try (execute_tx tx blockHeight blockTimestamp txIndex);
  match r with
  | inl e => wrap "rollback failed" (RevertToSnapshot snapID);; throw e
  | inr result =>
      if Reverted result then
        wrap "rollback failed" (RevertToSnapshot snapID);;
        mret {| GasUsed := GasUsed result; ReturnData := ReturnData result; Events := [];
                Reverted := true; ContractAddress := ContractAddress result; GasLimit := GasLimit result |}
      else mret result
  end.
End execution.

(** ** What host calls can change

    [evolves env env']: the state under the slices, the gas limit and the
    context stay, the gas used stays within the limit, events are appended and
    only storage entries become slices. *)

Definition meter_ok (gm : GasMeter) : Prop := 0 <= gm_Used gm <= gm_Limit gm.

Definition is_storage_key (k : string) : Prop := ∃ contractID keyHash, k = storageKey contractID keyHash.

Record evolves `{Wazero} (env env' : HostEnv) : Prop := {
  evo_state : he_state env' = he_state env;
  evo_limit : gm_Limit (he_meter env') = gm_Limit (he_meter env);
  evo_meter : meter_ok (he_meter env) → meter_ok (he_meter env');
  evo_views : ∀ k, is_Some (he_views env' !! k) → is_Some (he_views env !! k) ∨ is_storage_key k;
}.

#[global] Instance evolves_preorder `{Wazero} : PreOrder evolves.
Proof.
  split; [by split; auto|]. intros x y z [S1 L1 M1 V1] [S2 L2 M2 V2]. split; [congruence|congruence|auto|].
  intros k Hk. destruct (V2 k Hk) as [Hy|]; [auto|by right].
Qed.

Definition keeps `{Wazero} {A} (p : go HostEnv A) : Prop := ∀ env, evolves env (p env).1.

Section keeps.
Context `{Wazero}.

Lemma keeps_pure {A} (p : go HostEnv A) : (∀ env, (p env).1 = env) → keeps p.
Proof. intros Hp env. rewrite Hp. reflexivity. Qed.

Lemma keeps_bind {A B} (p : go HostEnv A) (f : A → go HostEnv B) : keeps p → (∀ a, keeps (f a)) → keeps (p ≫= f).
Proof.
  intros Hp Hf env. unfold mbind, go_bind. specialize (Hp env). destruct (p env) as [env1 [a|e|]]; cbn in *; [|done..].
  etransitivity; [exact Hp|apply Hf].
Qed.

Lemma keeps_try {A} (p : go HostEnv A) : keeps p → keeps (try p).
Proof. intros Hp env. unfold try. specialize (Hp env). by destruct (p env) as [env1 [a|e|]]. Qed.

Lemma keeps_or_code p code k : keeps p → keeps k → keeps (or_code p code k).
Proof.
  intros Hp Hk. apply keeps_bind; [by apply keeps_try|]. intros [e|u]; [|done]. by apply keeps_pure.
Qed.

Lemma keeps_deduct cost : keeps (deduct cost).
Proof.
  intros env. unfold deduct, Deduct. destruct (Z.ltb_spec (gm_Limit (he_meter env)) (u64 (gm_Used (he_meter env) + cost)));
    split; cbn; auto.
  intros _. split; cbn; [apply u64_is_u64|done].
Qed.

Lemma keeps_with_memory {A} (k : Mem → go HostEnv A) : (∀ m, keeps (k m)) → keeps (with_memory k).
Proof. intros Hk. apply keeps_bind; [by apply keeps_pure|]. intros m. destruct (mem_exported m); [apply Hk|by apply keeps_pure]. Qed.

Lemma keeps_reading m off n k : (∀ v, keeps (k v)) → keeps (reading m off n k).
Proof. intros Hk. unfold reading. destruct (mem_Read m off n); [apply Hk|by apply keeps_pure]. Qed.

Lemma keeps_set_memory m : keeps (modify (set_memory m)).
Proof. intros env. by split; auto. Qed.

Lemma keeps_writing m off v : keeps (writing m off v).
Proof.
  unfold writing. destruct (mem_Write m off v); [|by apply keeps_pure].
  apply keeps_bind; [apply keeps_set_memory|]. intros. by apply keeps_pure.
Qed.

Lemma keeps_store_slice contractID key m value : keeps (store_slice contractID key m value).
Proof.
  unfold store_slice, guard_err. destruct (64 * 1024 <? _); [by apply keeps_pure|].
  apply keeps_bind; [by apply keeps_pure|]. intros [] env. split; cbn; auto.
  intros k. destruct (decide (k = storageKey contractID (Sum256 key))) as [->|Hne].
  - right. by eexists _, _.
  - rewrite lookup_insert_ne by done. by left.
Qed.

Lemma keeps_Emit contractID topic data txIndex blockHeight : keeps (Emit contractID topic data txIndex blockHeight).
Proof. intros env. by split; auto. Qed.

Lemma keeps_EnterCall : keeps EnterCall.
Proof. intros env. unfold EnterCall. destruct (MaxCallDepth <=? _); by split; auto. Qed.

Lemma keeps_ExitCall : keeps ExitCall.
Proof. intros env. unfold ExitCall, modify. cbn. destruct (0 <? _); by split; auto. Qed.
End keeps.

Create HintDb keeps.
#[export] Hint Resolve keeps_deduct keeps_writing keeps_store_slice keeps_Emit keeps_EnterCall keeps_ExitCall
  keeps_set_memory : keeps.

(** [keep]: a program built from steps with a lemma in the database. *)
Ltac keep :=
  repeat first
    [ progress intros | solve [auto with keeps]
    | apply keeps_or_code | apply keeps_with_memory | apply keeps_reading
    | apply keeps_bind | case_match | (apply keeps_pure; done) ].

Section runs.
Context `{Wazero}.

Lemma keeps_host_function f : keeps (host_function f).
Proof.
  destruct f; cbn [host_function];
    unfold read_storage, write_storage, emit_event, read_caller, read_block_height, read_block_timestamp, transfer_token; keep.
Qed.

Lemma keeps_run_wasm {R} (t : Run Mem R) : keeps (run_wasm t).
Proof.
  induction t as [r m|m|f m k IH]; intros env; cbn [run_wasm]; [by split; auto..|].
  pose proof (keeps_host_function f (set_memory m env)) as Hf.
  assert (evolves env (set_memory m env)) as Hm by (by split; auto).
  destruct (host_function f (set_memory m env)) as [env' [code|e|]]; cbn in Hf |- *.
  - etransitivity; [exact Hm|]. etransitivity; [exact Hf|apply IH].
  - by etransitivity.
  - by etransitivity.
Qed.

#[local] Hint Resolve keeps_run_wasm : keeps.

Lemma keeps_instantiate compiled name msg : keeps (instantiate compiled name msg).
Proof. unfold instantiate. keep. Qed.

Lemma keeps_call inst fn params : keeps (call inst fn params).
Proof. unfold call. apply keeps_bind; [by apply keeps_pure|]. intros. apply keeps_run_wasm. Qed.

Lemma keeps_write_or_fail off v msg : keeps (write_or_fail off v msg).
Proof. unfold write_or_fail. keep. Qed.

#[local] Hint Resolve keeps_instantiate keeps_call keeps_write_or_fail : keeps.

Lemma keeps_run_constructor compiled name contractID : keeps (run_constructor compiled name contractID).
Proof. unfold run_constructor, guard_err. keep. Qed.

Lemma keeps_run_entrypoint compiled tx : keeps (run_entrypoint compiled tx).
Proof. unfold run_entrypoint, write_calldata, guard_err. keep. Qed.
End runs.

(** ** What an execution can change

    [touches K p]: [p] leaves the accounts, the committed tree, the snapshots
    and all entries whose key is not in [K]. *)

Definition touches {A} (K : string → Prop) (p : go InMemoryState A) : Prop := ∀ s,
  accounts (p s).1 = accounts s ∧ smt (p s).1 = smt s ∧ snapshots (p s).1 = snapshots s ∧
  ∀ k, ¬ K k → kvstore (p s).1 !! k = kvstore s !! k.

Section touches.
Context (K : string → Prop).

Lemma touches_pure {A} (p : go InMemoryState A) : (∀ s, (p s).1 = s) → touches K p.
Proof. intros Hp s. by rewrite Hp. Qed.

Lemma touches_bind {A B} (p : go InMemoryState A) (f : A → go InMemoryState B) :
  touches K p → (∀ a, touches K (f a)) → touches K (p ≫= f).
Proof.
  intros Hp Hf s. unfold mbind, go_bind. specialize (Hp s). destruct (p s) as [s1 [a|e|]]; cbn in *; [|done..].
  destruct Hp as (A1 & M1 & S1 & K1). destruct (Hf a s1) as (A2 & M2 & S2 & K2).
  split; [congruence|]. split; [congruence|]. split; [congruence|]. intros k Hk. by rewrite K2, K1.
Qed.

Lemma touches_try {A} (p : go InMemoryState A) : touches K p → touches K (try p).
Proof. intros Hp s. unfold try. specialize (Hp s). by destruct (p s) as [s1 [a|e|]]. Qed.

Lemma touches_wrap {A} msg (p : go InMemoryState A) : touches K p → touches K (wrap msg p).
Proof. intros Hp s. unfold wrap. specialize (Hp s). by destruct (p s) as [s1 [a|e|]]. Qed.

Lemma touches_put k v : K k → touches K (SetBytes k v).
Proof.
  intros HK s. cbn. split; [done|]. split; [done|]. split; [done|]. intros k' Hk'.
  rewrite lookup_insert_ne; [done|]. by intros ->.
Qed.

Lemma touches_get k : touches K (GetBytes k).
Proof. by apply touches_pure. Qed.

Lemma touches_in_env `{Wazero} {A} meter caller contractID h ts i (p : go HostEnv A) :
  keeps p → (∀ k, is_storage_key k → K k) → touches K (in_env (NewHostEnv meter caller contractID h ts i) p).
Proof.
  intros Hp HK s. unfold in_env. specialize (Hp (NewHostEnv meter caller contractID h ts i s)).
  destruct (p _) as [env r]. cbn in Hp |- *. destruct Hp as [S1 _ _ V1]. rewrite S1. cbn.
  split; [done|]. split; [done|]. split; [done|]. intros k Hk. apply lookup_union_r. rewrite lookup_fmap.
  destruct (he_views env !! k) eqn:E; [|done]. exfalso. destruct (V1 k) as [Hs|Hs]; [by rewrite E| |by apply Hk, HK].
  cbn in Hs. rewrite lookup_empty in Hs. by destruct Hs.
Qed.
End touches.

(** [touch]: a program built from the steps above. *)
Ltac touch :=
  repeat first
    [ progress intros
    | apply touches_get | apply touches_wrap | apply touches_try | apply touches_bind | case_match
    | (apply touches_pure; done) ].

(** The entries that an execution may write. *)
Definition written_by (tx : contract_tx) (k : string) : Prop :=
  match tx with
  | CallTx _ => is_storage_key k
  | DeployTx t =>
      is_storage_key k ∨ k = codeKey (Sum256 (dep_WasmCode t)) ∨
      k = metaKey (DeriveContractID (dep_Sender t) (dep_Nonce t) (dep_CodeHash t))
  end.

Section execution_lemmas.
Context `{Wazero}.

Lemma execute_touches tx h ts i : touches (written_by tx) (execute_tx tx h ts i).
Proof.
  destruct tx as [t|t]; cbn [execute_tx].
  - unfold executeDeploy, storeCode, storeContractMeta, SetCode, SetContractMeta, GetContractMeta. touch.
    + apply touches_put. by right; left.
    + apply touches_put. by right; right.
    + apply touches_in_env; [apply keeps_run_constructor|]. by left.
  - unfold executeCall, loadCode, GetContractMeta, GetCode. touch.
    apply touches_in_env; [apply keeps_run_entrypoint|done].
Qed.

(** Rolling back to the snapshot taken at the start. *)
Lemma revert_undoes (s s1 : InMemoryState) :
  accounts s1 = accounts (Snapshot s).1 → smt s1 = smt s → snapshots s1 = snapshots (Snapshot s).1 →
  RevertToSnapshot (Z.of_nat (length (snapshots s))) s1 = (s, Ok tt).
Proof.
  intros _ Hm Hs. unfold RevertToSnapshot. rewrite Hs, Hm. cbn [Snapshot fst snapshots].
  rewrite length_app, Nat2Z.id. cbn [length].
  rewrite (proj2 (Z.ltb_ge _ 0)) by lia. rewrite (proj2 (Z.leb_gt _ _)) by lia. cbn [orb].
  rewrite lookup_app_r, Nat.sub_diag by lia. cbn [lookup list_lookup snap_accounts snap_kvstore].
  rewrite take_app_length. by destruct s.
Qed.

(** The three ways an execution can end. *)
Lemma Execute_cases tx h ts i s s' r :
  Execute tx h ts i s = (s', r) → r ≠ Panic →
  (∃ s1 e, execute_tx tx h ts i (Snapshot s).1 = (s1, Err e) ∧ r = Err e ∧ s' = s) ∨
  (∃ s1 res, execute_tx tx h ts i (Snapshot s).1 = (s1, Ok res) ∧ Reverted res = true ∧ s' = s ∧
     r = Ok {| GasUsed := GasUsed res; ReturnData := ReturnData res; Events := []; Reverted := true;
               ContractAddress := ContractAddress res; GasLimit := GasLimit res |}) ∨
  (∃ res, execute_tx tx h ts i (Snapshot s).1 = (s', Ok res) ∧ Reverted res = false ∧ r = Ok res).
Proof.
  intros He Hr. unfold Execute, mret, go_ret, throw, mbind, go_bind in He. unfold try at 1 in He.
  cbn [Snapshot] in He.
  pose proof (execute_touches tx h ts i (Snapshot s).1) as (Ha & Hm & Hs & _).
  change (mkInMemoryState (accounts s) (kvstore s) (smt s) (snapshots s ++ [mkSnapshot (accounts s) (kvstore s)]))
    with (Snapshot s).1 in He.
  destruct (execute_tx tx h ts i (Snapshot s).1) as [s1 [res|e|]]; cbn [fst] in Ha, Hm, Hs.
  - destruct (Reverted res) eqn:Er; [|injection He as <- <-; right; right; by exists res].
    unfold wrap in He. rewrite (revert_undoes s s1) in He by done. injection He as <- <-. right; left. by exists s1, res.
  - unfold wrap in He. rewrite (revert_undoes s s1) in He by done. injection He as <- <-. left. by exists s1, e.
  - injection He as <- <-. done.
Qed.

Lemma run_entrypoint_gas compiled tx env env' res :
  run_entrypoint compiled tx env = (env', Ok res) → GasUsed res = gm_Used (he_meter env').
Proof.
  unfold run_entrypoint. intros Hr.
  do 6 (apply go_bind_inv in Hr as (? & ? & _ & Hr)). apply go_bind_inv in Hr as (? & results & _ & Hr).
  apply go_bind_inv in Hr as (e1 & ? & _ & Hr). apply go_bind_inv in Hr as (e2 & used & Hu & Hr).
  injection Hu as <- <-. destruct results as [results|].
  - destruct (match results with [] => _ | _ => _ end); [by injection Hr as <- <-|].
    apply go_bind_inv in Hr as (e3 & events & He & Hr). injection He as <- <-. by injection Hr as <- <-.
  - destruct (call_GasLimit tx <=? _); [|done]. by injection Hr as <- <-.
Qed.

Lemma run_constructor_gas compiled name contractID env env' used :
  run_constructor compiled name contractID env = (env', Ok used) → used = gm_Used (he_meter env').
Proof.
  unfold run_constructor. intros Hr.
  do 5 (apply go_bind_inv in Hr as (? & ? & _ & Hr)). apply go_bind_inv in Hr as (? & r & _ & Hr).
  apply go_bind_inv in Hr as (e1 & ? & _ & Hr). destruct r; [|done]. by injection Hr as <- <-.
Qed.

Lemma in_env_gas {A} meter caller contractID h ts i (p : go HostEnv A) s s' a :
  keeps p → meter_ok meter → in_env (NewHostEnv meter caller contractID h ts i) p s = (s', Ok a) →
  ∃ env', p (NewHostEnv meter caller contractID h ts i s) = (env', Ok a) ∧ s' = state_of env' ∧
    meter_ok (he_meter env') ∧ gm_Limit (he_meter env') = gm_Limit meter.
Proof.
  intros Hp Hm. unfold in_env. specialize (Hp (NewHostEnv meter caller contractID h ts i s)).
  destruct (p _) as [env r]. intros [= <- ->]. exists env. destruct Hp as [_ L1 M1 _]. cbn in L1, M1. auto.
Qed.

Definition tx_GasLimit (tx : contract_tx) : Z :=
  match tx with DeployTx t => dep_GasLimit t | CallTx t => call_GasLimit t end.

Lemma execute_gas tx h ts i s s' res :
  fits 8 (tx_GasLimit tx) → execute_tx tx h ts i s = (s', Ok res) → 0 <= GasUsed res <= tx_GasLimit tx.
Proof.
  intros Hfit. change (is_u64 (tx_GasLimit tx)) in Hfit. unfold is_u64 in Hfit.
  destruct tx as [t|t]; cbn [execute_tx tx_GasLimit] in *.
  - unfold executeDeploy. intros He. apply go_bind_inv in He as (s1 & compiled & _ & He).
    apply go_bind_inv in He as (s2 & [e|meta] & _ & He); [|done].
    set (gas := u64 (GasDeployBase + _)) in He. unfold Deduct in He.
    destruct (Z.ltb_spec (gm_Limit (NewGasMeter (dep_GasLimit t))) (u64 (gm_Used (NewGasMeter (dep_GasLimit t)) + gas)))
      as [|Hle]; [done|]. cbn [NewGasMeter gm_Limit gm_Used] in Hle, He.
    do 2 (apply go_bind_inv in He as (? & ? & _ & He)). apply go_bind_inv in He as (s4 & used & Hc & He).
    injection He as <- <-. cbn [GasUsed gm_Used]. set (g := u64 (0 + gas)) in *.
    assert (is_u64 g) as Hg by apply u64_is_u64. unfold is_u64 in Hg.
    assert (0 <= used <= dep_GasLimit t - g) as Hu.
    { destruct (constructor_of compiled) as [name|]; [|injection Hc as <- <-; lia].
      assert (Remaining (mkGasMeter (dep_GasLimit t) g) = dep_GasLimit t - g) as Er.
      { unfold Remaining. cbn. apply u64_small. unfold is_u64. lia. }
      rewrite Er in Hc. apply in_env_gas in Hc as (env' & Hp & _ & [Hm1 Hm2] & Hl);
        [|apply keeps_run_constructor|split; cbn; lia].
      apply run_constructor_gas in Hp. cbn in Hl. lia. }
    rewrite u64_small by (unfold is_u64; lia). lia.
  - unfold executeCall. intros He. apply go_bind_inv in He as (s1 & [e|code] & _ & He); [done|].
    do 2 (apply go_bind_inv in He as (? & ? & _ & He)).
    apply in_env_gas in He as (env' & Hp & _ & [Hm1 Hm2] & Hl); [|apply keeps_run_entrypoint|split; cbn; lia].
    apply run_entrypoint_gas in Hp. cbn in Hl. lia.
Qed.

(** What a deployment leaves in the store. *)
Lemma executeDeploy_stored tx h ts meter i s s' res :
  executeDeploy tx h ts meter i s = (s', Ok res) →
  let contractID := DeriveContractID (dep_Sender tx) (dep_Nonce tx) (dep_CodeHash tx) in
  Reverted res = false ∧ ReturnData res = arr_bytes contractID ∧ (∃ c, CompileModule (dep_WasmCode tx) = Ok c) ∧
  kvstore s' !! codeKey (Sum256 (dep_WasmCode tx)) = Some (dep_WasmCode tx) ∧
  ∃ buf, kvstore s' !! metaKey contractID = Some buf ∧
    run_reader ContractMetadata_Decode buf =
      Ok {| m_ContractID := contractID; m_CodeHash := Sum256 (dep_WasmCode tx); m_Deployer := dep_Sender tx;
            m_BlockHeight := 0 |}.
Proof.
  cbv zeta. unfold executeDeploy. set (cid := DeriveContractID _ _ _). intros He.
  apply go_bind_inv in He as (s1 & compiled & Hc & He). injection Hc as <- Hc.
  apply go_bind_inv in He as (s2 & [e|meta] & _ & He); [|done].
  destruct (Deduct _ meter) as [gm [u|e'|]]; [|done..].
  apply go_bind_inv in He as (s3 & ? & H3 & He). injection H3 as <- _.
  apply go_bind_inv in He as (s4 & ? & H4 & He). unfold wrap, storeContractMeta, SetContractMeta in H4.
  match type of H4 with context [encode_bytes (ContractMetadata_Encode ?m)] =>
    destruct (contract_metadata_height_lost m) as (buf & left & Hen & Hde); set (meta := m) in * end.
  unfold encode_bytes, run_writer in H4. rewrite Hen in H4. injection H4 as <- _.
  apply go_bind_inv in He as (s5 & used & H5 & He). injection He as <- <-. cbn [Reverted ReturnData].
  split; [done|]. split; [done|]. split; [by exists compiled|].
  assert (∀ k, ¬ is_storage_key k → kvstore s5 !! k =
            kvstore (kv_put (metaKey cid) buf (kv_put (codeKey (Sum256 (dep_WasmCode tx))) (dep_WasmCode tx) s2)) !! k) as Hk.
  { destruct (constructor_of compiled) as [name|]; [|by injection H5 as <- _].
    intros k Hk. match type of H5 with ?p ?st = _ =>
      pose proof (touches_in_env is_storage_key (NewGasMeter (Remaining gm)) (dep_Sender tx) cid h ts i
        (run_constructor compiled name cid) (keeps_run_constructor _ _ _) (λ _ x, x) st) as (_ & _ & _ & Ht) end.
    rewrite H5 in Ht. by apply Ht. }
  rewrite !Hk by (intros (c & kh & E); discriminate E). cbn [kv_put InMemoryState_KVStore kvstore].
  rewrite lookup_insert_ne by (intros E; discriminate E). rewrite !lookup_insert_eq. split; [done|].
  exists buf. split; [done|]. unfold run_reader. by rewrite Hde.
Qed.

Lemma deployed_meta (s : InMemoryState) contractID buf meta :
  kvstore s !! metaKey contractID = Some buf → run_reader ContractMetadata_Decode buf = Ok meta →
  GetContractMeta contractID s = (s, Ok meta).
Proof. intros Hk Hr. unfold GetContractMeta, GetBytes, gets, mbind, go_bind, lift. cbn. by rewrite Hk, Hr. Qed.

Lemma deployed_loads (s : InMemoryState) contractID meta code :
  GetContractMeta contractID s = (s, Ok meta) → kvstore s !! codeKey (m_CodeHash meta) = Some code →
  loadCode contractID s = (s, Ok code).
Proof.
  intros Hm Hk. unfold loadCode. rewrite (go_bind_ok _ _ _ _ _ Hm).
  unfold GetCode, GetBytes, gets, mbind, go_bind. cbn. by rewrite Hk.
Qed.

(** A second deployment under the same identifier. *)
Lemma redeploy_fails tx h ts i (s : InMemoryState) c meta :
  CompileModule (dep_WasmCode tx) = Ok c →
  (∀ s1, kvstore s1 = kvstore s →
     GetContractMeta (DeriveContractID (dep_Sender tx) (dep_Nonce tx) (dep_CodeHash tx)) s1 = (s1, Ok meta)) →
  Execute (DeployTx tx) h ts i s = (s, Err ErrContractAlreadyExists).
Proof.
  intros Hc Hm. unfold Execute, mbind at 1, go_bind at 1. cbn [Snapshot]. unfold mbind at 1, go_bind at 1, try at 1.
  assert (execute_tx (DeployTx tx) h ts i (Snapshot s).1 = ((Snapshot s).1, Err ErrContractAlreadyExists)) as He.
  { unfold execute_tx, executeDeploy. rewrite Hc. unfold lift, mbind at 1, go_bind at 1. unfold mbind at 1, go_bind at 1.
    unfold try at 1. by rewrite (Hm (Snapshot s).1 eq_refl). }
  change (mkInMemoryState (accounts s) (kvstore s) (smt s) (snapshots s ++ [mkSnapshot (accounts s) (kvstore s)]))
    with (Snapshot s).1. rewrite He.
  unfold mbind, go_bind, wrap. by rewrite (revert_undoes s).
Qed.
End execution_lemmas.

(** ** A host that copies

    [copying wz]: the same engine with a [Memory.Read] that returns a copy.
    The host functions over [copying wz] store and log what the memory held at
    the time of the call. *)

Definition copying (wz : Wazero) : Wazero := {|
  Mem := Mem; Slice := bytes; no_memory := no_memory; mem_exported := mem_exported; mem_Size := mem_Size;
  mem_Read m off n := slice_bytes m <$> mem_Read m off n;
  mem_Write := mem_Write;
  slice_bytes _ b := b;
  CompiledModule := CompiledModule; Instance_ := Instance_; wz_compile := wz_compile;
  ExportedFunctions := ExportedFunctions; ImportedFunctions := ImportedFunctions; wz_host_module := wz_host_module;
  InstantiateModule := InstantiateModule; ExportedFunction := ExportedFunction; Call := Call;
|}.

Section copies.
Context (wz : Wazero).
Implicit Types env : @HostEnv wz.

(** The environment with every slice replaced by its contents. *)
Definition copy_env (env : @HostEnv wz) : @HostEnv (copying wz) :=
  mkHostEnv (H := copying wz) (he_meter env) (he_state env) (he_caller env) (he_contractID env) (he_blockHeight env)
    (he_timestamp env) (he_txIndex env)
    ((λ e, mkLogEntry (le_ContractID e) (le_Topic e) (slice_bytes (he_memory env) (le_Data e)) (le_TxIndex e)
             (le_BlockHeight e)) <$> he_eventLog env)
    (he_callDepth env) (slice_bytes (he_memory env) <$> he_views env) (he_memory env).

(** The slices that the program still holds, and a change of the memory that
    leaves their contents. *)
Definition live (env : @HostEnv wz) (v : Slice) : Prop :=
  (∃ k, he_views env !! k = Some v) ∨ (∃ e, e ∈ he_eventLog env ∧ le_Data e = v).

Definition calm (env env' : @HostEnv wz) : Prop :=
  ∀ v, live env v → slice_bytes (he_memory env') v = slice_bytes (he_memory env) v.

(** A run during which no slice that was handed to the host is overwritten. *)
Fixpoint stable {R} (t : Run Mem R) (env : @HostEnv wz) : Prop :=
  match t with
  | Return _ m | Fail m => calm env (set_memory m env)
  | Import f m k =>
      calm env (set_memory m env) ∧
      let '(env', r) := host_function f (set_memory m env) in
      calm (set_memory m env) env' ∧
      match r with Ok code => stable (k code (he_memory env')) env' | _ => True end
  end.

Lemma copy_env_state env : state_of (copy_env env) = state_of env.
Proof. unfold state_of. cbn. f_equal. f_equal. apply map_fmap_id. Qed.

Lemma copy_env_events env : EventLog_Events (copy_env env) = EventLog_Events env.
Proof. unfold EventLog_Events. cbn [copy_env he_eventLog]. rewrite <- list_fmap_compose. apply list_fmap_ext. by intros i e _. Qed.

Lemma copy_env_memory m env : calm env (set_memory m env) → set_memory (H := copying wz) m (copy_env env) = copy_env (set_memory m env).
Proof.
  intros Hc. unfold copy_env, set_memory. cbn. f_equal.
  - apply list_fmap_ext. intros i e He. f_equal. symmetry. apply (Hc (le_Data e)). right. exists e.
    split; [|done]. by eapply list_elem_of_lookup_2.
  - apply map_fmap_ext. intros k v Hk. symmetry. apply (Hc v). left. by exists k.
Qed.

(** [sim m p pc]: from a memory [m], a calm [p] does what [pc] does. *)
Definition sim {A} (m : Mem) (p : go (@HostEnv wz) A) (pc : go (@HostEnv (copying wz)) A) : Prop :=
  ∀ env env' r, he_memory env = m → p env = (env', r) → calm env env' → pc (copy_env env) = (copy_env env', r).

Lemma sim_ret {A} m (a : A) : sim m (mret a) (mret a).
Proof. by intros env env' r _ [= <- <-] _. Qed.

(** A step that changes nothing but the gas. *)
Lemma sim_deduct m cost code k kc : sim m k kc → sim m (or_code (deduct cost) code k) (or_code (deduct cost) code kc).
Proof.
  intros Hk env env' r Hm. unfold or_code, deduct, mbind, go_bind, try. cbn [copy_env he_meter].
  destruct (Deduct cost (he_meter env)) as [gm [u|e|]]; [|by intros [= <- <-]..].
  intros Hr Hc. by apply (Hk (set_meter gm env)) in Hr.
Qed.

Lemma sim_gets {A B} m (f : @HostEnv wz → A) (fc : @HostEnv (copying wz) → A) (k : A → go _ B) kc :
  (∀ env, fc (copy_env env) = f env) → (∀ a, sim m (k a) (kc a)) → sim m (gets f ≫= k) (gets fc ≫= kc).
Proof. intros Hf Hk env env' r Hm. unfold mbind, go_bind, gets. rewrite Hf. by apply Hk. Qed.

Lemma sim_self {B} m (k : @HostEnv wz → go _ B) (kc : @HostEnv (copying wz) → go _ B) :
  (∀ env0, he_memory env0 = m → sim m (k env0) (kc (copy_env env0))) →
  sim m (gets (λ e, e) ≫= k) (gets (λ e, e) ≫= kc).
Proof. intros Hk env env' r Hm. unfold mbind, go_bind, gets. by apply Hk. Qed.

Lemma sim_with_memory {A} m (k : Mem → go (@HostEnv wz) A) kc : sim m (k m) (kc m) → sim m (with_memory k) (with_memory (H := copying wz) kc).
Proof.
  intros Hk env env' r Hm. unfold with_memory, mbind, go_bind, gets. cbn [copy_env he_memory mem_exported copying].
  rewrite Hm. destruct (mem_exported m); [by apply Hk|by intros [= <- <-] _].
Qed.

Lemma sim_reading m off n k kc :
  (∀ v, mem_Read m off n = Some v → sim m (k v) (kc (slice_bytes m v))) → sim m (reading m off n k) (reading (H := copying wz) m off n kc).
Proof. intros Hk. unfold reading. cbn [mem_Read copying]. destruct (mem_Read m off n) as [v|]; cbn; [by apply Hk|apply sim_ret]. Qed.

Lemma sim_writing m off v : sim m (writing m off v) (writing (H := copying wz) m off v).
Proof.
  unfold writing. cbn [mem_Write copying]. destruct (mem_Write m off v) as [m'|]; [|apply sim_ret].
  intros env env' r Hm [= <- <-] Hc. unfold mbind, go_bind, modify. by rewrite (copy_env_memory m' env).
Qed.

Lemma sim_store_slice m contractID key v :
  sim m (or_code (store_slice contractID key m v) 5 (mret 0))
    (or_code (store_slice (H := copying wz) contractID key m (slice_bytes m v)) 5 (mret 0)).
Proof.
  intros env env' r Hm. unfold or_code, store_slice, guard_err, mbind, go_bind, try, modify, throw, mret, go_ret.
  cbn [slice_bytes copying]. destruct (64 * 1024 <? _); intros [= <- <-] _; [done|].
  unfold copy_env, add_view. cbn. f_equal. f_equal. rewrite fmap_insert. by rewrite Hm.
Qed.

Lemma sim_emit m contractID topic v txIndex blockHeight :
  sim m (Emit contractID topic v txIndex blockHeight;; mret 0)
    (Emit (H := copying wz) contractID topic (slice_bytes m v) txIndex blockHeight;; mret 0).
Proof.
  intros env env' r Hm [= <- <-] _. unfold Emit, modify, mbind, go_bind, mret, go_ret, copy_env. cbn.
  rewrite fmap_app. cbn. by rewrite Hm.
Qed.

(** Every host function. *)
Lemma sim_host_function m f : sim m (host_function f) (host_function (H := copying wz) f).
Proof.
  destruct f; cbn [host_function].
  - apply sim_deduct, sim_with_memory. unfold out_of. cbn [mem_Size copying].
    destruct (_ || _ || _); [apply sim_ret|]. apply sim_reading. intros cid _. apply sim_reading. intros key _.
    apply sim_self. intros env0 _. rewrite copy_env_state. cbn [slice_bytes copying].
    destruct (GetContractStorage _ _ _).2 as [v|e|]; [|apply sim_ret..].
    case_bool_decide; [apply sim_ret|]. destruct (mem_Size m <? _); [apply sim_ret|apply sim_writing].
  - apply sim_deduct. destruct (MaxStorageValueSize <? _); [apply sim_ret|]. apply sim_deduct, sim_with_memory.
    unfold out_of. cbn [mem_Size copying]. destruct (_ || _ || _); [apply sim_ret|].
    apply sim_reading. intros cid _. apply sim_reading. intros key _. apply sim_reading. intros v _. apply sim_store_slice.
  - apply sim_deduct, sim_with_memory. unfold out_of. cbn [mem_Size copying]. destruct (_ || _); [apply sim_ret|].
    cbn [mem_Read copying]. destruct (mem_Read m topicPtr topicLen) as [tp|]; cbn [fmap option_fmap option_map]; [|apply sim_ret].
    destruct (mem_Read m dataPtr dataLen) as [v|]; cbn [fmap option_fmap option_map]; [|apply sim_ret].
    apply sim_self. intros env0 _. apply sim_emit.
  - apply sim_deduct, sim_with_memory. unfold out_of. cbn [mem_Size copying]. destruct (mem_Size m <? _); [apply sim_ret|].
    apply sim_gets; [done|]. intros a. apply sim_writing.
  - apply sim_deduct. by intros env env' r _ [= <- <-] _.
  - apply sim_deduct. by intros env env' r _ [= <- <-] _.
  - apply sim_deduct, sim_with_memory. unfold out_of. cbn [mem_Size copying]. destruct (mem_Size m <? _); [apply sim_ret|].
    cbn [mem_Read copying]. destruct (mem_Read m recipientPtr recipientLen) as [v|]; cbn [fmap option_fmap option_map]; [|apply sim_ret].
    cbn [slice_bytes copying]. case_bool_decide; apply sim_ret.
Qed.

Lemma stable_run_sim {R} (t : Run Mem R) env :
  stable t env →
  run_wasm (H := copying wz) t (copy_env env) = (copy_env (run_wasm t env).1, (run_wasm t env).2).
Proof.
  revert env. induction t as [r m|m|f m k IH]; intros env; cbn [stable run_wasm fst snd].
  - intros Hc. by rewrite (copy_env_memory m env Hc).
  - intros Hc. by rewrite (copy_env_memory m env Hc).
  - intros [Hc Hs]. rewrite (copy_env_memory m env Hc).
    destruct (host_function f (set_memory m env)) as [env' r] eqn:Ef. destruct Hs as [Hc' Hs].
    rewrite (sim_host_function m f (set_memory m env) env' r eq_refl Ef Hc'). destruct r as [code|e|]; [|done..]. by apply IH.
Qed.
End copies.

(** The entries of the protocol itself, as opposed to those of contracts. *)
Definition system_key (k : key) : Prop :=
  match k with KCode _ | KMeta _ | KStorage _ _ => False | _ => True end.

Lemma system_key_not_written tx k : system_key k → ¬ written_by tx (render k).
Proof.
  intros Hk. assert (∀ k', ¬ system_key k' → render k ≠ render k') as Hne.
  { intros k' Hk' E%render_inj. by subst. }
  destruct tx as [t|t]; cbn; intros Hw.
  - destruct Hw as [(c & kh & E)|[E|E]].
    + exact (Hne (KStorage c kh) (λ x, x) E).
    + exact (Hne (KCode _) (λ x, x) E).
    + exact (Hne (KMeta _) (λ x, x) E).
  - destruct Hw as (c & kh & E). exact (Hne (KStorage c kh) (λ x, x) E).
Qed.

(** ** Properties *)

(** C12: an execution that fails with an error or reports a revert leaves the
    whole state exactly as it was, whatever the contract did, and reports no
    events. *)
Theorem execute_atomic `{Wazero} (tx : contract_tx) (h ts i : Z) (s s' : InMemoryState) (r : res ExecutionResult) :
  Execute tx h ts i s = (s', r) →
  (∃ e, r = Err e) ∨ (∃ res, r = Ok res ∧ Reverted res = true) →
  s' = s ∧ ∀ res, r = Ok res → Events res = [].
Proof.
  intros He Hr. apply Execute_cases in He as [(s1 & e & _ & -> & ->)|[(s1 & res & _ & _ & -> & ->)|(res & _ & Hf & ->)]].
  - done.
  - split; [done|]. by intros res' [= <-].
  - exfalso. destruct Hr as [[e Hr]|(res' & Hr & Ht)]; [done|]. injection Hr as <-. congruence.
  - by destruct Hr as [[e ->]|(res & -> & _)].
Qed.

(** C13: no contract can reach the protocol's own state: an execution that
    returns leaves every account, the committed tree and every registry,
    epoch, supply, snapshot and evidence entry unchanged; a call writes only
    storage entries of contracts, a deployment also the code and the metadata
    of the new contract. In particular no contract moves tokens: the host
    function [transfer_token], which the documentation describes as a transfer
    between accounts, charges its gas, checks its arguments and changes
    nothing. *)
Theorem contracts_confined `{Wazero} (tx : contract_tx) (h ts i : Z) (s s' : InMemoryState) (r : res ExecutionResult) :
  Execute tx h ts i s = (s', r) → r ≠ Panic →
  accounts s' = accounts s ∧ smt s' = smt s ∧
  (∀ k, system_key k → kvstore s' !! render k = kvstore s !! render k) ∧
  (∀ k, ¬ written_by tx k → kvstore s' !! k = kvstore s !! k).
Proof.
  intros He Hr. assert (accounts s' = accounts s ∧ smt s' = smt s ∧
    (∀ k, ¬ written_by tx k → kvstore s' !! k = kvstore s !! k)) as (Ha & Hm & Hk).
  { apply Execute_cases in He as [(s1 & e & _ & _ & ->)|[(s1 & res & _ & _ & -> & _)|(res & He & _ & _)]]; [done..| |done].
    pose proof (execute_touches tx h ts i (Snapshot s).1) as (Ha & Hm & _ & Hk). by rewrite He in Ha, Hm, Hk. }
  split; [done|]. split; [done|]. split; [|done]. intros k Hs. by apply Hk, system_key_not_written.
Qed.

(** The gas that an execution reports, and that the sender is charged for,
    never exceeds the gas limit of the transaction. *)
Theorem gas_within_limit `{Wazero} (tx : contract_tx) (h ts i : Z) (s s' : InMemoryState) (result : ExecutionResult) :
  fits 8 (tx_GasLimit tx) → Execute tx h ts i s = (s', Ok result) → 0 <= GasUsed result <= tx_GasLimit tx.
Proof.
  intros Hfit He. apply Execute_cases in He as [(s1 & e & _ & [=] & _)|[(s1 & res & He & _ & _ & [= ->])|(res & He & _ & [= ->])]];
    [| |done]; by apply execute_gas in He.
Qed.

(** A deployment that succeeds can be called: the metadata under the
    returned identifier names the deployer and the hash of the code, loading
    the contract returns the deployed code, and deploying under the same
    identifier again is refused without effect. The block height of the
    metadata is lost ([contract_metadata_height_lost]). *)
Theorem deploy_then_load `{Wazero} (tx : DeployContractTx) (h ts i : Z) (s s' : InMemoryState) (result : ExecutionResult) :
  Execute (DeployTx tx) h ts i s = (s', Ok result) →
  let contractID := DeriveContractID (dep_Sender tx) (dep_Nonce tx) (dep_CodeHash tx) in
  Reverted result = false ∧ ReturnData result = arr_bytes contractID ∧
  GetContractMeta contractID s' =
    (s', Ok {| m_ContractID := contractID; m_CodeHash := Sum256 (dep_WasmCode tx); m_Deployer := dep_Sender tx;
               m_BlockHeight := 0 |}) ∧
  loadCode contractID s' = (s', Ok (dep_WasmCode tx)) ∧
  ∀ h' ts' i', Execute (DeployTx tx) h' ts' i' s' = (s', Err ErrContractAlreadyExists).
Proof.
  cbv zeta. intros He. apply Execute_cases in He as [(s1 & e & _ & [=] & _)|[(s1 & res & He & Hr & _ & [= ->])|(res & He & Hr & [= ->])]]; [| |done].
  { by apply executeDeploy_stored in He as (Hr' & _); rewrite Hr in Hr'. }
  apply executeDeploy_stored in He as (_ & Hd & [c Hc] & Hcode & buf & Hm & Hde).
  assert (∀ s1, kvstore s1 = kvstore s' → GetContractMeta (DeriveContractID (dep_Sender tx) (dep_Nonce tx) (dep_CodeHash tx)) s1 =
    (s1, Ok {| m_ContractID := DeriveContractID (dep_Sender tx) (dep_Nonce tx) (dep_CodeHash tx);
               m_CodeHash := Sum256 (dep_WasmCode tx); m_Deployer := dep_Sender tx; m_BlockHeight := 0 |})) as Hg.
  { intros s1 E. eapply deployed_meta; [|done]. by rewrite E. }
  split; [done|]. split; [done|]. split; [by apply Hg|]. split; [by eapply deployed_loads; [apply Hg|]|].
  intros h' ts' i'. by eapply redeploy_fails.
Qed.

(** A contract that does not overwrite the memory it passed to
    [write_storage] and [emit_event] gets what a host that copies would give
    it: the same result of the run, the same gas, the same contract storage
    and the same events. For other contracts the values that are stored and
    logged change with the memory ([stored_value_overwritten]). *)
Theorem stable_run_copies (wz : Wazero) {R} (t : Run Mem R) (env : HostEnv) (env' : HostEnv) (r : res (option R)) :
  stable wz t env → run_wasm t env = (env', r) →
  ∃ copied, run_wasm (H := copying wz) t (copy_env wz env) = (copied, r) ∧
    state_of copied = state_of env' ∧ EventLog_Events copied = EventLog_Events env' ∧ he_meter copied = he_meter env'.
Proof.
  intros Hs Hr. pose proof (stable_run_sim wz t env Hs) as Hsim. rewrite Hr in Hsim. cbn [fst snd] in Hsim.
  exists (copy_env wz env'). split; [exact Hsim|]. split; [apply copy_env_state|]. split; [apply copy_env_events|done].
Qed.

(** ** Examples *)

(** An engine with one buffer of memory and modules without functions. *)
Definition byte_wazero : Wazero := {|
  Mem := bytes; Slice := nat * nat; no_memory := [];
  mem_exported m := negb (bool_decide (m = []));
  mem_Size m := Z.of_nat (length m);
  mem_Read m off n :=
    if bool_decide (off + n <= Z.of_nat (length m)) then Some (Z.to_nat off, Z.to_nat n) else None;
  mem_Write m off v :=
    if bool_decide (off + Z.of_nat (length v) <= Z.of_nat (length m))
    then Some (take (Z.to_nat off) m ++ v ++ drop (Z.to_nat off + length v) m) else None;
  slice_bytes m v := take v.2 (drop v.1 m);
  CompiledModule := unit; Instance_ := unit;
  wz_compile _ := Some tt;
  ExportedFunctions _ _ := false;
  ImportedFunctions _ := [];
  wz_host_module := Ok tt;
  InstantiateModule _ _ := Return tt (replicate 16 x00);
  ExportedFunction _ _ := false;
  Call _ _ _ m := Fail m;
|}.

Definition example_deploy (gasLimit : Z) : DeployContractTx :=
  {| dep_Sender := arr_zero 20; dep_Nonce := 1; dep_WasmCode := [x00; x61]; dep_CodeHash := ZeroHash;
     dep_MaxFee := 1; dep_GasLimit := gasLimit; dep_Signature := [] |}.

Definition example_env : @HostEnv byte_wazero :=
  NewHostEnv (NewGasMeter 1000) (arr_zero 20) ZeroHash 1 1 0 NewInMemoryState.

(** Store the byte at address 8 under the key of four zero bytes, then return
    with the memory [m]. *)
Definition store_and_return (m : bytes) : Run bytes (list Z) :=
  Import (WriteStorage 0 4 4 4 8 1) (replicate 8 x00 ++ [x41]) (λ _ _, Return [0] m).

(** The contract writes 0x41 to its storage and then uses the buffer for
    something else: the state holds 0x42. *)
Theorem stored_value_overwritten :
  let key := storageKey (arr_copy 32 (replicate 4 x00)) (Sum256 (replicate 4 x00)) in
  kvstore (state_of (run_wasm (H := byte_wazero) (store_and_return (replicate 8 x00 ++ [x42])) example_env).1) !! key
    = Some [x42] ∧
  kvstore (state_of (run_wasm (H := copying byte_wazero) (store_and_return (replicate 8 x00 ++ [x42]))
                       (copy_env byte_wazero example_env)).1) !! key = Some [x41].
Proof.
  intros key. split.
  - assert ((run_wasm (H := byte_wazero) (store_and_return (replicate 8 x00 ++ [x42])) example_env).1 =
      set_memory (H := byte_wazero) (replicate 8 x00 ++ [x42] : bytes)
        (add_view (H := byte_wazero) key (8%nat, 1%nat) (set_meter (H := byte_wazero) (mkGasMeter 1000 52) example_env))) as ->
      by reflexivity.
    unfold state_of. cbn [add_view set_memory set_meter he_views he_memory kvstore].
    rewrite fmap_insert. apply lookup_union_Some_l. by rewrite lookup_insert_eq.
  - assert ((run_wasm (H := copying byte_wazero) (store_and_return (replicate 8 x00 ++ [x42]))
               (copy_env byte_wazero example_env)).1 =
      set_memory (H := copying byte_wazero) (replicate 8 x00 ++ [x42] : bytes)
        (add_view (H := copying byte_wazero) key ([x41] : bytes) (set_memory (H := copying byte_wazero) (replicate 8 x00 ++ [x41] : bytes)
          (set_meter (H := copying byte_wazero) (mkGasMeter 1000 52) (copy_env byte_wazero example_env))))) as ->
      by reflexivity.
    unfold state_of. cbn [add_view set_memory set_meter he_views he_memory kvstore].
    rewrite fmap_insert. apply lookup_union_Some_l. by rewrite lookup_insert_eq.
Qed.

Lemma example_deployed :
  (Execute (H := byte_wazero) (DeployTx (example_deploy 2000)) 1 1 0 NewInMemoryState).2 =
  Ok {| GasUsed := 1002; ReturnData := DeriveContractID (arr_zero 20) 1 ZeroHash; Events := []; Reverted := false;
        ContractAddress := Some (arr_copy 20 (DeriveContractID (arr_zero 20) 1 ZeroHash)); GasLimit := 2000 |}.
Proof. reflexivity. Qed.

Lemma execute_atomic_witness :
  Execute (H := byte_wazero) (DeployTx (example_deploy 1001)) 1 1 0 NewInMemoryState
    = (NewInMemoryState, Err ErrVmGasLimitExceeded) ∧
  (Execute (H := byte_wazero) (DeployTx (example_deploy 1001)) 1 1 0 NewInMemoryState).1 = NewInMemoryState.
Proof.
  assert ((Execute (H := byte_wazero) (DeployTx (example_deploy 1001)) 1 1 0 NewInMemoryState).2
    = Err ErrVmGasLimitExceeded) as Hr by reflexivity.
  destruct (Execute (H := byte_wazero) (DeployTx (example_deploy 1001)) 1 1 0 NewInMemoryState) as [s' r] eqn:E.
  cbn [snd] in Hr. destruct (execute_atomic (H := byte_wazero) _ _ _ _ _ _ _ E) as [Hs _].
  - left. exists ErrVmGasLimitExceeded. exact Hr.
  - rewrite Hs, Hr. split; reflexivity.
Defined.

Lemma contracts_confined_witness :
  accounts (Execute (H := byte_wazero) (DeployTx (example_deploy 2000)) 1 1 0 NewInMemoryState).1 = ∅.
Proof.
  pose proof example_deployed as Hr.
  destruct (Execute (H := byte_wazero) (DeployTx (example_deploy 2000)) 1 1 0 NewInMemoryState) as [s' r] eqn:E.
  cbn [fst snd] in Hr |- *. apply (contracts_confined (H := byte_wazero) _ _ _ _ _ _ _ E). rewrite Hr. discriminate.
Defined.

Lemma gas_within_limit_witness :
  ∃ result, (Execute (H := byte_wazero) (DeployTx (example_deploy 2000)) 1 1 0 NewInMemoryState).2 = Ok result ∧
    0 <= GasUsed result <= 2000.
Proof.
  pose proof example_deployed as Hr.
  destruct (Execute (H := byte_wazero) (DeployTx (example_deploy 2000)) 1 1 0 NewInMemoryState) as [s' r] eqn:E.
  cbn [snd] in Hr |- *. rewrite Hr in E. eexists. split; [exact Hr|].
  apply (gas_within_limit (H := byte_wazero) (DeployTx (example_deploy 2000)) 1 1 0 NewInMemoryState s'); [|exact E].
  split; vm_compute; [discriminate|reflexivity].
Defined.

Lemma deploy_then_load_witness :
  ∃ s', (Execute (H := byte_wazero) (DeployTx (example_deploy 2000)) 1 1 0 NewInMemoryState).1 = s' ∧
    loadCode (DeriveContractID (arr_zero 20) 1 ZeroHash) s' = (s', Ok [x00; x61]).
Proof.
  pose proof example_deployed as Hr.
  destruct (Execute (H := byte_wazero) (DeployTx (example_deploy 2000)) 1 1 0 NewInMemoryState) as [s' r] eqn:E.
  cbn [snd] in Hr. rewrite Hr in E. exists s'. split; [reflexivity|].
  apply (deploy_then_load (H := byte_wazero) (example_deploy 2000) 1 1 0 NewInMemoryState s' _ E).
Defined.

Lemma stable_run_copies_witness :
  ∃ copied, run_wasm (H := copying byte_wazero) (store_and_return (replicate 8 x00 ++ [x41])) (copy_env byte_wazero example_env)
    = (copied, Ok (Some [0])) ∧
    state_of copied = state_of (run_wasm (H := byte_wazero) (store_and_return (replicate 8 x00 ++ [x41])) example_env).1.
Proof.
  destruct (stable_run_copies byte_wazero (store_and_return (replicate 8 x00 ++ [x41])) example_env
    (run_wasm (H := byte_wazero) (store_and_return (replicate 8 x00 ++ [x41])) example_env).1 (Ok (Some [0])))
    as (copied & Hc & Hs & _).
  - split; [|split]; intros v Hv; [|reflexivity..].
    destruct Hv as [[k Hk]|(e & He & _)]; [discriminate Hk|by apply not_elem_of_nil in He].
  - reflexivity.
  - exists copied. split; [exact Hc|exact Hs].
Defined.
