(* ===== verification/StateSync.v ===== *)
(** * State snapshots (state/snapshot.go, state/restore.go)

    A snapshot is the whole state as a byte string with a checksum, cut into
    chunks for the network. [RestoreFromSnapshot] rebuilds a database-backed
    state from it and checks the state root. *)

From S2P Require Import Prelude Codec Sha256 Address Amount Tx Store Smt Keys State Bolt Persist.

Definition SnapshotMagic : string := "DSNS".
Definition SnapshotVersion : Z := 1.
Definition SnapshotHeaderSize : Z := 144.
Definition HashSize : Z := 32.
Definition MaxSnapshotEntrySize : Z := 1 * 1024 * 1024.
Definition MaxSnapshotKVKeyLength : Z := 256.
Definition MaxSnapshotKVValLength : Z := 1 * 1024 * 1024.

Record AccountEntry := mkAccountEntry {
  ae_Address : Address;
  ae_Data : bytes;
}.

Record KVEntry := mkKVEntry {
  kve_Key : string;
  kve_Value : bytes;
}.

(** The type [Snapshot]. *)
Record StateSnapshot := mkStateSnapshot {
  ss_Height : Z;
  ss_Epoch : Z;
  ss_StateRoot : Hash;
  ss_ValidatorSetHash : Hash;
  ss_Timestamp : Z;
  ss_Accounts : list AccountEntry;
  ss_KVStore : list KVEntry;
}.

Record SnapshotChunk := mkSnapshotChunk {
  ch_Index : Z;
  ch_TotalCount : Z;
  ch_SnapshotHash : Hash;
  ch_ChunkHash : Hash;
  ch_Data : bytes;
}.

Definition account_before : AccountEntry → AccountEntry → bool := less_by (λ e, arr_bytes (ae_Address e)).
Definition kv_before : KVEntry → KVEntry → bool := less_by (λ e, str_bytes (kve_Key e)).

(** ** Taking a snapshot *)

Fixpoint account_entries (l : list (Address * Account)) : res (list AccountEntry) :=
  match l with
  | [] => Ok []
  | (addr, acc) :: l' =>
      buf ← wrap_res "failed to encode account" (encode_bytes (Account_Encode acc));
      rest ← account_entries l';
      Ok (mkAccountEntry addr buf :: rest)
  end.

(** Both methods build the entries from their maps and sort them. *)
Definition snapshot_of_maps (accs : gmap Address Account) (kvs : gmap string bytes) (root : Hash)
    (height epoch : Z) (valSetHash : Hash) (timestamp : Z) : res StateSnapshot :=
  entries ← account_entries (map_to_list accs);
  Ok {| ss_Height := height; ss_Epoch := epoch; ss_StateRoot := root; ss_ValidatorSetHash := valSetHash;
        ss_Timestamp := timestamp; ss_Accounts := sort_slice account_before entries;
        ss_KVStore := sort_slice kv_before ((λ e, mkKVEntry e.1 e.2) <$> map_to_list kvs) |}.

Definition InMemoryState_CreateSnapshot (height epoch : Z) (valSetHash : Hash) (timestamp : Z)
    (s : InMemoryState) : res StateSnapshot :=
  snapshot_of_maps (accounts s) (kvstore s) (GetStateRoot s) height epoch valSetHash timestamp.

Definition PersistentState_CreateSnapshot (height epoch : Z) (valSetHash : Hash) (timestamp : Z)
    (ps : PersistentState) : res StateSnapshot :=
  snapshot_of_maps (ps_cache ps) (ps_kvstore ps) (ps_root ps) height epoch valSetHash timestamp.

(** ** The byte format *)

Definition write_account (e : AccountEntry) : go bytes unit :=
  Write (ae_Address e);;
  write_uint 4 (u32 (Z.of_nat (length (ae_Data e))));;
  Write (ae_Data e).

Definition write_kv (e : KVEntry) : go bytes unit :=
  write_uint 4 (u32 (Z.of_nat (length (str_bytes (kve_Key e)))));;
  Write (str_bytes (kve_Key e));;
  write_uint 4 (u32 (Z.of_nat (length (kve_Value e))));;
  Write (kve_Value e).

Definition write_snapshot (snap : StateSnapshot) : go bytes unit :=
  Write (str_bytes SnapshotMagic);;
  write_uint 4 SnapshotVersion;;
  write_uint 8 (ss_Height snap);;
  write_uint 8 (ss_Epoch snap);;
  Write (ss_StateRoot snap);;
  Write (ss_ValidatorSetHash snap);;
  write_uint 8 (ss_Timestamp snap);;
  write_uint 8 (u64 (Z.of_nat (length (ss_Accounts snap))));;
  write_uint 8 (u64 (Z.of_nat (length (ss_KVStore snap))));;
  Write (replicate 32 x00);;
  for_each (sort_slice account_before (ss_Accounts snap)) write_account;;
  for_each (sort_slice kv_before (ss_KVStore snap)) write_kv.

Definition SerializeSnapshot (snap : StateSnapshot) : res bytes :=
  buf ← encode_bytes (write_snapshot snap);
  Ok (buf ++ Sum256 buf).

(** [i > 0 && key <= prevKey]. *)
Definition out_of_order (prev : option bytes) (k : bytes) : bool :=
  match prev with None => false | Some p => negb (bytes_lt p k) end.

Fixpoint read_accounts (n : nat) (prevAddr : option bytes) : go bytes (list AccountEntry) :=
  match n with
  | O => mret []
  | S n' =>
      addrBytes ← wrap "failed to read account address" (ReadFull 20);
      addr ← wrap "invalid account address" (lift (AddressFromBytes addrBytes));
      guard_err (out_of_order prevAddr (arr_bytes addr)) (Errorf "accounts not in ascending order");;
      dataLen ← wrap "failed to read account data length" (read_uint 4);
      guard_err (MaxSnapshotEntrySize <? dataLen) (Errorf "account data too large");;
      accData ← wrap "failed to read account data" (ReadFull (Z.to_nat dataLen));
      rest ← read_accounts n' (Some (arr_bytes addr));
      mret (mkAccountEntry addr accData :: rest)
  end.

Fixpoint read_kvs (n : nat) (prevKey : option bytes) : go bytes (list KVEntry) :=
  match n with
  | O => mret []
  | S n' =>
      keyLen ← wrap "failed to read kv key length" (read_uint 4);
      guard_err (MaxSnapshotKVKeyLength <? keyLen) (Errorf "kv key too long");;
      key ← wrap "failed to read kv key" (ReadFull (Z.to_nat keyLen));
      guard_err (out_of_order prevKey key) (Errorf "kv entries not in ascending order");;
      valLen ← wrap "failed to read kv value length" (read_uint 4);
      guard_err (MaxSnapshotKVValLength <? valLen) (Errorf "kv value too large");;
      val ← wrap "failed to read kv value" (ReadFull (Z.to_nat valLen));
      rest ← read_kvs n' (Some key);
      mret (mkKVEntry (bytes_str key) val :: rest)
  end.

(** The reads, with the outcome of the comparison of the checksums. *)
Definition read_snapshot (checksumOk : bool) : go bytes StateSnapshot :=
  magic ← wrap "failed to read magic" (ReadFull 4);
  guard_err (negb (bool_decide (magic = str_bytes SnapshotMagic))) (Errorf "invalid magic");;
  version ← wrap "failed to read version" (read_uint 4);
  guard_err (negb (version =? SnapshotVersion)) (Errorf "unsupported version");;
  height ← wrap "failed to read height" (read_uint 8);
  epoch ← wrap "failed to read epoch" (read_uint 8);
  stateRoot ← wrap "failed to read state root" (read_arr 32);
  validatorSetHash ← wrap "failed to read validator set hash" (read_arr 32);
  timestamp ← wrap "failed to read timestamp" (read_uint 8);
  accountCount ← wrap "failed to read account count" (read_uint 8);
  kvCount ← wrap "failed to read kv count" (read_uint 8);
  modify (drop 32);;
  guard_err (negb checksumOk) (Errorf "checksum mismatch");;
  makeslice 48 accountCount;;
  accounts ← read_accounts (Z.to_nat accountCount) None;
  makeslice 40 kvCount;;
  kvs ← read_kvs (Z.to_nat kvCount) None;
  mret {| ss_Height := height; ss_Epoch := epoch; ss_StateRoot := stateRoot; ss_ValidatorSetHash := validatorSetHash;
          ss_Timestamp := timestamp; ss_Accounts := accounts; ss_KVStore := kvs |}.

Definition DeserializeSnapshot (data : bytes) : res StateSnapshot :=
  if Z.of_nat (length data) <? SnapshotHeaderSize + HashSize then Err (Errorf "snapshot data too short") else
  let body := take (length data - 32) data in
  run_reader (read_snapshot (bool_decide (arr_bytes (Sum256 body) = drop (length data - 32) data))) body.

(** ** Chunks *)

Definition SnapshotHash (data : bytes) : Hash := Sum256 data.

(** The loop over the data that is left; each turn takes at least one byte,
    so the length of the data is enough fuel. *)
Fixpoint chunk_loop (fuel : nat) (chunkSize totalChunks : Z) (snapHash : Hash) (index : Z) (data : bytes)
    : list SnapshotChunk :=
  match fuel with
  | O => []
  | S fuel' =>
      let remain := Z.of_nat (length data) in
      if remain =? 0 then [] else
      let chunkDataSize := if remain <? chunkSize then remain else chunkSize in
      let chunkData := take (Z.to_nat chunkDataSize) data in
      mkSnapshotChunk index (u32 totalChunks) snapHash (Sum256 chunkData) chunkData
        :: chunk_loop fuel' chunkSize totalChunks snapHash (u32 (index + 1)) (drop (Z.to_nat chunkDataSize) data)
  end.

(** The rounded-up quotient is computed in [uint64]. *)
Definition ChunkSnapshot (data : bytes) (chunkSize : Z) : res (list SnapshotChunk) :=
  if chunkSize =? 0 then Err (Errorf "chunk size cannot be zero") else
  let dataLen := Z.of_nat (length data) in
  if dataLen =? 0 then Err (Errorf "snapshot data is empty") else
  let totalChunks := u64 (dataLen + chunkSize - 1) / chunkSize in
  if 16 ^ 8 - 1 <? totalChunks then Err (Errorf "too many chunks") else
  Ok (chunk_loop (length data) chunkSize totalChunks (SnapshotHash data) 0 data).

Definition VerifyChunk (chunk : SnapshotChunk) : bool :=
  bool_decide (Sum256 (ch_Data chunk) = ch_ChunkHash chunk).

Definition chunk_before (a b : SnapshotChunk) : bool := ch_Index a <? ch_Index b.

Fixpoint join_chunks (expectedSnapshotHash : Hash) (i : Z) (l : list SnapshotChunk) : res bytes :=
  match l with
  | [] => Ok []
  | chunk :: l' =>
      if negb (ch_Index chunk =? u32 i) then Err (Errorf "missing chunk") else
      if negb (VerifyChunk chunk) then Err (Errorf "chunk hash verification failed") else
      if negb (bool_decide (ch_SnapshotHash chunk = expectedSnapshotHash))
      then Err (Errorf "chunk has different snapshot hash") else
      rest ← join_chunks expectedSnapshotHash (i + 1) l';
      Ok (ch_Data chunk ++ rest)
  end.

Definition ReassembleSnapshot (chunks : list SnapshotChunk) : res bytes :=
  match sort_slice chunk_before chunks with
  | [] => Err (Errorf "no chunks provided")
  | (first :: _) as sortedChunks =>
      if negb (Z.of_nat (length sortedChunks) =? ch_TotalCount first) then Err (Errorf "chunk count mismatch") else
      data ← join_chunks (ch_SnapshotHash first) 0 sortedChunks;
      if negb (bool_decide (SnapshotHash data = ch_SnapshotHash first))
      then Err (Errorf "reassembled data hash mismatch") else Ok data
  end.

(** ** Restoring (state/restore.go) *)

(** The accounts that were put into the cache, and the error if decoding one
    failed. *)
Fixpoint restore_accounts (l : list AccountEntry) (cache : gmap Address Account)
    : gmap Address Account * res unit :=
  match l with
  | [] => (cache, Ok tt)
  | e :: l' =>
      match run_reader Account_Decode (ae_Data e) with
      | Ok acc => restore_accounts l' (<[ae_Address e := acc]> cache)
      | Err e' => (cache, Err (Wrapf "restore: decode account" e'))
      | Panic => (cache, Panic)
      end
  end.

Definition restore_kvs (l : list KVEntry) : gmap string bytes :=
  fold_left (λ m e, <[kve_Key e := kve_Value e]> m) l ∅.

Section restore.
Context {DB Tx : Type} `{BoltDB DB Tx} `{Hasher}.

(** The body of the database transaction. *)
Definition replace_all (accs : gmap Address Account) (kvs : gmap string bytes) (root : Hash) : go Tx unit :=
  wrap "restore: delete accounts bucket" (DeleteBucket accountsBucket);;
  wrap "restore: create accounts bucket" (CreateBucket accountsBucket);;
  for_each (sort_slice addr_less (map_to_list accs)) (λ e,
    buf ← wrap "restore: encode account" (lift (encode_bytes (Account_Encode e.2)));
    wrap "restore: write account" (Put accountsBucket e.1 buf));;
  wrap "restore: delete kvstore bucket" (DeleteBucket kvstoreBucket);;
  wrap "restore: create kvstore bucket" (CreateBucket kvstoreBucket);;
  for_each (sort_slice str_less (map_to_list kvs)) (λ e,
    wrap "restore: write kvstore" (Put kvstoreBucket (str_bytes e.1) e.2));;
  wrap "restore: write state root" (Put metaBucket stateRootKey root).

(** The cache is replaced before the state root is checked. The messages of
    the errors of rebuilding the tree are merged. *)
Definition RestoreFromSnapshot (snapData : bytes) (expectedHash : Hash) : go (PersistentState * DB) unit := λ '(ps, db),
  if negb (bool_decide (expectedHash = ZeroHash)) && negb (bool_decide (Sum256 snapData = expectedHash))
  then ((ps, db), Err (Errorf "restore: snapshot hash mismatch")) else
  match wrap_res "restore: deserialize snapshot" (DeserializeSnapshot snapData) with
  | Err e => ((ps, db), Err e)
  | Panic => ((ps, db), Panic)
  | Ok snap =>
      if bool_decide (ss_StateRoot snap = ZeroHash)
      then ((ps, db), Err (Errorf "restore: zero state root in snapshot")) else
      let '(cache, r) := restore_accounts (ss_Accounts snap) ∅ in
      match r with
      | Err e => ((mkPersistentState cache ∅ (ps_root ps), db), Err e)
      | Panic => ((mkPersistentState cache ∅ (ps_root ps), db), Panic)
      | Ok _ =>
          let kvs := restore_kvs (ss_KVStore snap) in
          let ps1 := mkPersistentState cache kvs (ps_root ps) in
          match build_smt cache kvs NewSMT with
          | (_, Err e) => ((ps1, db), Err (Wrapf "restore: rebuild the tree" e))
          | (_, Panic) => ((ps1, db), Panic)
          | (t, Ok _) =>
              if negb (bool_decide (Root t = ss_StateRoot snap))
              then ((ps1, db), Err (Errorf "restore: state root mismatch")) else
              match Update (replace_all cache kvs (ss_StateRoot snap)) db with
              | (db', Ok _) => ((mkPersistentState cache kvs (ss_StateRoot snap), db'), Ok tt)
              | (db', Err e) => ((ps1, db'), Err (Wrapf "restore: persist to bolt" e))
              | (db', Panic) => ((ps1, db'), Panic)
              end
          end
      end
  end.
End restore.

(** ** The format reads back *)

Definition account_bytes (e : AccountEntry) : bytes :=
  arr_bytes (ae_Address e) ++ be 4 (Z.of_nat (length (ae_Data e))) ++ ae_Data e.

Definition kv_bytes (e : KVEntry) : bytes :=
  be 4 (Z.of_nat (length (str_bytes (kve_Key e)))) ++ str_bytes (kve_Key e)
  ++ be 4 (Z.of_nat (length (kve_Value e))) ++ kve_Value e.

(** Entries that the reader accepts. *)
Definition account_fits (e : AccountEntry) : Prop := Z.of_nat (length (ae_Data e)) <= MaxSnapshotEntrySize.
Definition kv_fits (e : KVEntry) : Prop :=
  Z.of_nat (length (str_bytes (kve_Key e))) <= MaxSnapshotKVKeyLength ∧
  Z.of_nat (length (kve_Value e)) <= MaxSnapshotKVValLength.

Fixpoint ascending {A} (key : A → bytes) (prev : option bytes) (l : list A) : Prop :=
  match l with
  | [] => True
  | e :: l' => out_of_order prev (key e) = false ∧ ascending key (Some (key e)) l'
  end.

Lemma sorted_ascending {A} (key : A → bytes) l : ∀ prev,
  StronglySorted (not_after (less_by key)) l → NoDup (key <$> l) →
  (∀ p, prev = Some p → Forall (λ e, bytes_lt p (key e) = true) l) → ascending key prev l.
Proof.
  induction l as [|e l IH]; intros prev Hs Hn Hp; [done|]. apply StronglySorted_inv in Hs as [Hs He].
  rewrite fmap_cons in Hn. apply NoDup_cons in Hn as [Hk Hn]. cbn [ascending]. split.
  - destruct prev as [p|]; [|done]. specialize (Hp p eq_refl). apply Forall_cons in Hp as [Hp _].
    cbn. by rewrite Hp.
  - apply IH; [done..|]. intros p [= <-]. apply Forall_forall. intros x Hx.
    rewrite Forall_forall in He. specialize (He x Hx). unfold not_after, less_by in He.
    destruct (bytes_lt (key e) (key x)) eqn:E; [done|]. destruct Hk.
    rewrite (bytes_lt_total _ _ E He). by apply list_elem_of_fmap_2.
Qed.

Lemma u32_mib n : n <= 1024 * 1024 → 0 <= n → u32 n = n.
Proof. intros. unfold u32. apply Z.mod_small. lia. Qed.

Lemma fits_len n : 0 <= n <= 1024 * 1024 → fits 4 n.
Proof. intros. unfold fits. change (256 ^ Z.of_nat 4) with (2 ^ 32). lia. Qed.

Lemma emits_account e : account_fits e → emits (write_account e) (account_bytes e).
Proof.
  intros Hf. unfold write_account, account_bytes. rewrite u32_mib by (unfold account_fits, MaxSnapshotEntrySize in Hf; lia).
  repeat (apply emits_bind; [done|]). done.
Qed.

Lemma emits_kv e : kv_fits e → emits (write_kv e) (kv_bytes e).
Proof.
  intros [Hk Hv]. unfold write_kv, kv_bytes, MaxSnapshotKVKeyLength, MaxSnapshotKVValLength in *.
  rewrite !u32_mib by lia. repeat (apply emits_bind; [done|]). done.
Qed.

Lemma parses_pure {A} (r : res A) a : r = Ok a → parses (lift r) [] a.
Proof. intros ->. done. Qed.

Lemma parses_accounts l : ∀ prev,
  Forall account_fits l → ascending (λ e, arr_bytes (ae_Address e)) prev l →
  parses (read_accounts (length l) prev) (concat (account_bytes <$> l)) l.
Proof.
  induction l as [|e l IH]; intros prev Hf Ha; [apply parses_ret|].
  apply Forall_cons in Hf as [He Hf]. destruct Ha as [Hord Ha]. cbn [length read_accounts]. rewrite fmap_cons.
  cbn [concat]. unfold account_bytes at 1. rewrite <- !app_assoc. unfold account_fits, MaxSnapshotEntrySize in He.
  eapply parses_bind; [apply parses_wrap, parses_ReadFull, arr_length|].
  eapply parses_skip; [apply parses_wrap, parses_pure, AddressFromBytes_arr|].
  apply parses_guard; [exact Hord|].
  eapply parses_bind; [apply parses_wrap, parses_uint, fits_len; lia|].
  apply parses_guard; [unfold MaxSnapshotEntrySize; lia|]. rewrite Nat2Z.id.
  eapply parses_bind; [by apply parses_wrap, parses_ReadFull|].
  eapply parses_bind_last; [by apply IH|]. destruct e. apply parses_ret.
Qed.

Lemma parses_kvs l : ∀ prev,
  Forall kv_fits l → ascending (λ e, str_bytes (kve_Key e)) prev l →
  parses (read_kvs (length l) prev) (concat (kv_bytes <$> l)) l.
Proof.
  induction l as [|e l IH]; intros prev Hf Ha; [apply parses_ret|].
  apply Forall_cons in Hf as [[Hk Hv] Hf]. destruct Ha as [Hord Ha]. cbn [length read_kvs]. rewrite fmap_cons.
  cbn [concat]. unfold kv_bytes at 1. rewrite <- !app_assoc.
  unfold MaxSnapshotKVKeyLength in Hk. unfold MaxSnapshotKVValLength in Hv.
  eapply parses_bind; [apply parses_wrap, parses_uint, fits_len; lia|].
  apply parses_guard; [unfold MaxSnapshotKVKeyLength; lia|]. rewrite Nat2Z.id.
  eapply parses_bind; [by apply parses_wrap, parses_ReadFull|].
  apply parses_guard; [exact Hord|].
  eapply parses_bind; [apply parses_wrap, parses_uint, fits_len; lia|].
  apply parses_guard; [unfold MaxSnapshotKVValLength; lia|]. rewrite Nat2Z.id.
  eapply parses_bind; [by apply parses_wrap, parses_ReadFull|].
  eapply parses_bind_last; [by apply IH|]. rewrite bytes_str_bytes. destruct e. apply parses_ret.
Qed.

(** The snapshots that can be read back. *)
Record Snapshot_ok (snap : StateSnapshot) : Prop := {
  so_height : fits 8 (ss_Height snap);
  so_epoch : fits 8 (ss_Epoch snap);
  so_timestamp : fits 8 (ss_Timestamp snap);
  so_accounts : Forall account_fits (ss_Accounts snap);
  so_kvs : Forall kv_fits (ss_KVStore snap);
  so_addresses : NoDup ((λ e, arr_bytes (ae_Address e)) <$> ss_Accounts snap);
  so_keys : NoDup ((λ e, str_bytes (kve_Key e)) <$> ss_KVStore snap);
  so_count : 48 * Z.of_nat (length (ss_Accounts snap)) <= 2 ^ 48 ∧ 40 * Z.of_nat (length (ss_KVStore snap)) <= 2 ^ 48;
}.

Definition snapshot_body (snap : StateSnapshot) : bytes :=
  str_bytes SnapshotMagic ++ be 4 SnapshotVersion ++ be 8 (ss_Height snap) ++ be 8 (ss_Epoch snap)
  ++ ss_StateRoot snap ++ ss_ValidatorSetHash snap ++ be 8 (ss_Timestamp snap)
  ++ be 8 (Z.of_nat (length (ss_Accounts snap))) ++ be 8 (Z.of_nat (length (ss_KVStore snap))) ++ replicate 32 x00
  ++ concat (account_bytes <$> sort_slice account_before (ss_Accounts snap))
  ++ concat (kv_bytes <$> sort_slice kv_before (ss_KVStore snap)).

Lemma serialized snap : Snapshot_ok snap → SerializeSnapshot snap = Ok (snapshot_body snap ++ Sum256 (snapshot_body snap)).
Proof.
  intros [_ _ _ Ha Hk _ _ [Hc1 Hc2]]. unfold SerializeSnapshot.
  assert (emits (write_snapshot snap) (snapshot_body snap)) as He.
  { unfold write_snapshot, snapshot_body. rewrite !(u64_small (Z.of_nat _)) by (unfold is_u64; lia).
    do 10 (apply emits_bind; [done|]). apply emits_bind.
    - apply emits_for_each. rewrite sort_slice_perm. eapply Forall_impl; [exact Ha|]. apply emits_account.
    - apply emits_for_each. rewrite sort_slice_perm. eapply Forall_impl; [exact Hk|]. apply emits_kv. }
  unfold encode_bytes, run_writer. by rewrite (He []).
Qed.

Definition sorted_snapshot (snap : StateSnapshot) : StateSnapshot :=
  {| ss_Height := ss_Height snap; ss_Epoch := ss_Epoch snap; ss_StateRoot := ss_StateRoot snap;
     ss_ValidatorSetHash := ss_ValidatorSetHash snap; ss_Timestamp := ss_Timestamp snap;
     ss_Accounts := sort_slice account_before (ss_Accounts snap); ss_KVStore := sort_slice kv_before (ss_KVStore snap) |}.

Lemma parses_snapshot snap : Snapshot_ok snap → parses (read_snapshot true) (snapshot_body snap) (sorted_snapshot snap).
Proof.
  intros [Hh He Ht Ha Hk Hna Hnk [Hc1 Hc2]]. unfold read_snapshot, snapshot_body.
  assert (∀ n, 0 <= n < 2 ^ 64 → fits 8 n) as Hfits by done.
  eapply parses_bind; [by apply parses_wrap, parses_ReadFull|].
  apply parses_guard; [by rewrite bool_decide_eq_true_2|].
  eapply parses_bind; [apply parses_wrap, parses_uint; done|]. apply parses_guard; [done|].
  eapply parses_bind; [by apply parses_wrap, parses_uint|].
  eapply parses_bind; [by apply parses_wrap, parses_uint|].
  eapply parses_bind; [apply parses_wrap, parses_arr|].
  eapply parses_bind; [apply parses_wrap, parses_arr|].
  eapply parses_bind; [by apply parses_wrap, parses_uint|].
  eapply parses_bind; [apply parses_wrap, parses_uint, Hfits; lia|].
  eapply parses_bind; [apply parses_wrap, parses_uint, Hfits; lia|].
  eapply (parses_bind (modify (drop 32)) _ (replicate 32 x00) _ tt); [by intros rest|].
  apply parses_guard; [done|]. rewrite !Nat2Z.id.
  eapply parses_skip; [by apply parses_makeslice|].
  eapply parses_bind.
  { rewrite <- (sort_slice_length account_before (ss_Accounts snap)). apply parses_accounts.
    - by rewrite sort_slice_perm.
    - apply sorted_ascending; [apply sort_slice_sorted, _| |done]. by rewrite sort_slice_perm. }
  eapply parses_skip; [by apply parses_makeslice|].
  eapply parses_bind_last; [|apply parses_ret].
  rewrite <- (sort_slice_length kv_before (ss_KVStore snap)). apply parses_kvs.
  - by rewrite sort_slice_perm.
  - apply sorted_ascending; [apply sort_slice_sorted, _| |done]. by rewrite sort_slice_perm.
Qed.

Lemma deserialized snap :
  Snapshot_ok snap →
  DeserializeSnapshot (snapshot_body snap ++ Sum256 (snapshot_body snap)) = Ok (sorted_snapshot snap).
Proof.
  intros Hok. unfold DeserializeSnapshot. rewrite length_app, arr_length.
  replace (length (snapshot_body snap) + 32 - 32)%nat with (length (snapshot_body snap)) by lia.
  rewrite take_app_length, drop_app_length, bool_decide_eq_true_2 by done.
  rewrite (proj2 (Z.ltb_ge _ _)).
  - unfold run_reader. pose proof (parses_snapshot snap Hok []) as Hp. rewrite app_nil_r in Hp. by rewrite Hp.
  - unfold snapshot_body. rewrite !length_app, !length_be, !arr_length, length_replicate.
    unfold SnapshotHeaderSize, HashSize. change (length (str_bytes SnapshotMagic)) with 4%nat. lia.
Qed.

(** ** Chunks join again *)

#[global] Instance chunk_before_order : LessOrder chunk_before.
Proof. split; unfold chunk_before; intros *; rewrite ?Z.ltb_lt, ?Z.ltb_ge; lia. Qed.

Section chunks.
Context (chunkSize totalChunks : Z) (h : Hash) (Hsize : 0 < chunkSize).
Abbreviation loop := (λ fuel i data, chunk_loop fuel chunkSize totalChunks h (u32 i) data).

(** One turn of the loop. *)
Lemma chunk_loop_step fuel i data :
  (length data <= S fuel)%nat → data ≠ [] →
  ∃ a b, data = a ++ b ∧ (length b <= fuel)%nat ∧
    (Z.of_nat (length data) + chunkSize - 1) / chunkSize = 1 + (Z.of_nat (length b) + chunkSize - 1) / chunkSize ∧
    chunk_loop (S fuel) chunkSize totalChunks h (u32 i) data =
      mkSnapshotChunk (u32 i) (u32 totalChunks) h (Sum256 a) a :: loop fuel (i + 1) b.
Proof.
  intros Hl Hne. cbn [chunk_loop].
  assert (Z.of_nat (length data) ≠ 0) as Hn by (destruct data; cbn; [done|lia]).
  rewrite (proj2 (Z.eqb_neq _ _) Hn). set (n := if Z.of_nat (length data) <? chunkSize then _ else chunkSize).
  exists (take (Z.to_nat n) data), (drop (Z.to_nat n) data).
  assert (0 < n <= Z.of_nat (length data) ∧ (n = chunkSize ∨ n = Z.of_nat (length data) ∧ n < chunkSize)) as [Hn1 Hn2].
  { unfold n. destruct (Z.ltb_spec (Z.of_nat (length data)) chunkSize); lia. }
  split; [by rewrite take_drop|]. rewrite length_drop. split; [lia|]. split.
  - rewrite Nat2Z.inj_sub, Z2Nat.id by lia. destruct Hn2 as [->|[E Hlt]].
    + replace (Z.of_nat (length data) + chunkSize - 1)
        with (1 * chunkSize + (Z.of_nat (length data) - chunkSize + chunkSize - 1)) by lia.
      rewrite Z.div_add_l by lia. lia.
    + rewrite <- E, Z.sub_diag. rewrite (Z.div_small (0 + chunkSize - 1)) by lia.
      symmetry. apply (Z.div_unique _ _ _ (n - 1)); lia.
  - unfold u32. by rewrite Zplus_mod_idemp_l.
Qed.

Lemma chunk_loop_nil fuel i : chunk_loop fuel chunkSize totalChunks h i [] = [].
Proof. by destruct fuel. Qed.

Lemma chunk_loop_length fuel i data :
  (length data <= fuel)%nat →
  Z.of_nat (length (loop fuel i data)) = (Z.of_nat (length data) + chunkSize - 1) / chunkSize.
Proof.
  revert i data. induction fuel as [|fuel IH]; intros i data Hl; (destruct (decide (data = [])) as [->|Hne];
    [rewrite chunk_loop_nil; cbn; rewrite Z.div_small; lia|]).
  - destruct data; [done|cbn in Hl; lia].
  - destruct (chunk_loop_step fuel i data Hl Hne) as (a & b & _ & Hb & -> & ->). cbn [length].
    rewrite Nat2Z.inj_succ, IH by done. lia.
Qed.

Lemma chunk_loop_joins fuel i data : (length data <= fuel)%nat → join_chunks h i (loop fuel i data) = Ok data.
Proof.
  revert i data. induction fuel as [|fuel IH]; intros i data Hl; (destruct (decide (data = [])) as [->|Hne];
    [by rewrite chunk_loop_nil|]).
  - destruct data; [done|cbn in Hl; lia].
  - destruct (chunk_loop_step fuel i data Hl Hne) as (a & b & -> & Hb & _ & ->).
    cbn [join_chunks ch_Index ch_SnapshotHash ch_Data]. rewrite Z.eqb_refl. unfold VerifyChunk.
    cbn [ch_Data ch_ChunkHash]. rewrite !bool_decide_eq_true_2 by done. cbn [negb]. by rewrite IH.
Qed.

Lemma chunk_loop_indexed fuel i data :
  (length data <= fuel)%nat → 0 <= i → i + Z.of_nat (length (loop fuel i data)) <= 2 ^ 32 →
  Forall (λ c, i <= ch_Index c ∧ ch_TotalCount c = u32 totalChunks ∧ ch_SnapshotHash c = h) (loop fuel i data) ∧
  StronglySorted (λ a b, ch_Index a < ch_Index b) (loop fuel i data).
Proof.
  revert i data. induction fuel as [|fuel IH]; intros i data Hl Hi; (destruct (decide (data = [])) as [->|Hne];
    [rewrite chunk_loop_nil; by repeat constructor|]).
  - destruct data; [done|cbn in Hl; lia].
  - destruct (chunk_loop_step fuel i data Hl Hne) as (a & b & _ & Hb & _ & ->). cbn [length]. intros Hn.
    destruct (IH (i + 1) b) as [Hf Hs]; [done|lia|lia|].
    assert (u32 i = i) as Ei by (unfold u32; apply Z.mod_small; lia). split.
    + constructor; [cbn; rewrite Ei; lia || (split; [lia|done])|]. eapply Forall_impl; [exact Hf|]. cbn. intros c (? & ? & ?).
      split; [lia|done].
    + constructor; [done|]. eapply Forall_impl; [exact Hf|]. cbn. intros c (? & _). lia.
Qed.
End chunks.

(** Sorting by index undoes any reordering of the chunks. *)
Lemma sort_chunks l k :
  k ≡ₚ l → StronglySorted (λ a b, ch_Index a < ch_Index b) l → sort_slice chunk_before k = l.
Proof.
  intros Hp Hs. symmetry. apply (sort_slice_unique chunk_before).
  - assert (∀ x y, x ∈ l → y ∈ l → ch_Index x = ch_Index y → x = y) as Hinj.
    { clear k Hp. induction Hs as [|c l Hs IH Hc]; intros x y Hx Hy E; [by apply not_elem_of_nil in Hx|].
      rewrite Forall_forall in Hc. apply elem_of_cons in Hx as [->|Hx], Hy as [->|Hy]; [done| | |by apply IH].
      - specialize (Hc y Hy). lia.
      - specialize (Hc x Hx). lia. }
    intros x y Hx Hy H1%Z.ltb_ge H2%Z.ltb_ge. apply Hinj; [done..|]. lia.
  - eapply StronglySorted_mono; [|exact Hs]. intros x y Hxy. cbn in Hxy. unfold not_after, chunk_before. apply Z.ltb_ge. lia.
  - apply sort_slice_sorted, _.
  - by rewrite sort_slice_perm.
Qed.

Lemma join_chunks_inv hash l : ∀ i data,
  join_chunks hash i l = Ok data →
  data = concat (ch_Data <$> l) ∧ Forall (λ c, VerifyChunk c = true ∧ ch_SnapshotHash c = hash) l ∧
  ∀ j c, l !! j = Some c → ch_Index c = u32 (i + Z.of_nat j).
Proof.
  induction l as [|c l IH]; intros i data; cbn [join_chunks]; [by intros [= <-]|].
  destruct (Z.eqb_spec (ch_Index c) (u32 i)) as [Ei|]; [|done]. cbn [negb].
  destruct (VerifyChunk c) eqn:Ev; [|done]. cbn [negb]. case_bool_decide as Eh; [|done]. cbn [negb].
  destruct (join_chunks hash (i + 1) l) as [rest| |] eqn:Ej; [|done..]. intros [= <-].
  destruct (IH _ _ Ej) as (-> & Hf & Hi). rewrite fmap_cons. split; [done|]. split; [by constructor|].
  intros [|j] c'; cbn [lookup list_lookup]; [intros [= <-]; by rewrite Z.add_0_r|]. intros Hj.
  rewrite (Hi j c' Hj). f_equal. lia.
Qed.

(** ** Restoring *)

Definition entry_of (e : Address * Account) : AccountEntry := mkAccountEntry e.1 (wire (Account_Encode e.2)).
Definition kv_of (e : string * bytes) : KVEntry := mkKVEntry e.1 e.2.

Lemma account_entries_ok l :
  Forall (λ e : Address * Account, Account_wf e.2) l → account_entries l = Ok (entry_of <$> l).
Proof.
  induction 1 as [|[a acc] l Hacc Hl IH]; [done|]. cbn [account_entries].
  assert (encode_bytes (Account_Encode acc) = Ok (wire (Account_Encode acc))) as ->
    by (unfold encode_bytes, run_writer; by rewrite (rt_emits acc Hacc [])).
  cbn [wrap_res mbind res_bind]. rewrite IH. done.
Qed.

Lemma restore_accounts_ok l c :
  Forall (λ e : Address * Account, Account_wf e.2) l → NoDup l.*1 →
  restore_accounts (entry_of <$> l) c = (list_to_map l ∪ c, Ok tt).
Proof.
  revert c. induction l as [|[a acc] l IH]; intros c Hwf Hn; [cbn; by rewrite map_empty_union|].
  apply Forall_cons in Hwf as [Hacc Hwf]. rewrite fmap_cons in Hn. rewrite fmap_cons. apply NoDup_cons in Hn as [Ha Hn].
  cbn [restore_accounts entry_of ae_Data ae_Address fst snd].
  assert (run_reader Account_Decode (wire (Account_Encode acc)) = Ok acc) as ->.
  { unfold run_reader. pose proof (rt_parses acc Hacc []) as Hp. rewrite app_nil_r in Hp. by rewrite Hp. }
  by rewrite IH, insert_to_map.
Qed.

Lemma restore_kvs_ok l : NoDup l.*1 → restore_kvs (kv_of <$> l) = list_to_map l.
Proof.
  unfold restore_kvs. rewrite <- (map_union_empty (list_to_map l)). generalize (∅ : gmap string bytes). intros c. revert c.
  induction l as [|[k v] l IH]; intros c Hn; [cbn; by rewrite map_empty_union|].
  rewrite fmap_cons in Hn. rewrite fmap_cons. apply NoDup_cons in Hn as [Hk Hn].
  cbn [fold_left kv_of kve_Key kve_Value fst snd]. by rewrite IH, insert_to_map.
Qed.

(** The sorted entries are the entries of the maps in some order. *)
Lemma sorted_image {A B} (f : A → B) (less : B → B → bool) (l : list A) (k : list B) :
  k ≡ₚ f <$> l → ∃ l', sort_slice less k = f <$> l' ∧ l' ≡ₚ l.
Proof.
  intros Hk. assert (sort_slice less k ≡ₚ f <$> l) as Hp by (by rewrite sort_slice_perm).
  apply Permutation_map_inv in Hp as (l' & E & Hp). exists l'. split; [done|by symmetry].
Qed.

Definition snapshot_limits (accs : gmap Address Account) (kvs : gmap string bytes) : Prop :=
  map_Forall (λ _, Account_wf) accs ∧ map_Forall (λ k v, kv_fits (mkKVEntry k v)) kvs ∧
  48 * Z.of_nat (size accs) <= 2 ^ 48 ∧ 40 * Z.of_nat (size kvs) <= 2 ^ 48.

Lemma snapshot_of_maps_ok accs kvs root height epoch vsh ts :
  snapshot_limits accs kvs → fits 8 height → fits 8 epoch → fits 8 ts →
  ∃ snap, snapshot_of_maps accs kvs root height epoch vsh ts = Ok snap ∧ Snapshot_ok snap ∧
    ss_StateRoot snap = root ∧ ss_Accounts snap ≡ₚ entry_of <$> map_to_list accs ∧
    ss_KVStore snap ≡ₚ kv_of <$> map_to_list kvs.
Proof.
  intros (Hwf & Hkv & Hca & Hck) Hh He Ht. unfold snapshot_of_maps.
  assert (Forall (λ e : Address * Account, Account_wf e.2) (map_to_list accs)) as Hl.
  { apply Forall_forall. intros [a acc] Hin%elem_of_map_to_list. by apply (Hwf a). }
  rewrite account_entries_ok by done. cbn [mbind res_bind]. eexists. split; [reflexivity|].
  assert (∀ k, k ≡ₚ entry_of <$> map_to_list accs → Forall account_fits k ∧ NoDup ((λ e, arr_bytes (ae_Address e)) <$> k)
    ∧ length k = size accs) as Ha.
  { intros k Hk. split; [|split].
    - rewrite Hk. apply Forall_fmap. eapply Forall_impl; [exact Hl|]. intros [a acc] Hacc. unfold account_fits, compose, MaxSnapshotEntrySize.
      cbn [entry_of ae_Data snd]. rewrite wire_account_length by done. lia.
    - rewrite Hk, <- list_fmap_compose. change (NoDup ((arr_bytes ∘ fst) <$> map_to_list accs)).
      rewrite list_fmap_compose. apply NoDup_fmap_2; [apply _|]. apply NoDup_fst_map_to_list.
    - by rewrite Hk, length_fmap, length_map_to_list. }
  assert (∀ k, k ≡ₚ kv_of <$> map_to_list kvs → Forall kv_fits k ∧ NoDup ((λ e, str_bytes (kve_Key e)) <$> k)
    ∧ length k = size kvs) as Hk.
  { intros k Hk. split; [|split].
    - rewrite Hk. apply Forall_fmap, Forall_forall. intros [a v] Hin%elem_of_map_to_list. by apply (Hkv a).
    - rewrite Hk, <- list_fmap_compose. change (NoDup ((str_bytes ∘ fst) <$> map_to_list kvs)).
      rewrite list_fmap_compose. apply NoDup_fmap_2; [apply _|]. apply NoDup_fst_map_to_list.
    - by rewrite Hk, length_fmap, length_map_to_list. }
  destruct (Ha (sort_slice account_before (entry_of <$> map_to_list accs))) as (A1 & A2 & A3); [apply sort_slice_perm|].
  destruct (Hk (sort_slice kv_before (kv_of <$> map_to_list kvs))) as (K1 & K2 & K3); [apply sort_slice_perm|].
  split; [split; cbn; [done..|change ((λ e : string * bytes, mkKVEntry e.1 e.2)) with kv_of; by rewrite A3, K3]|].
  split; [done|]. split; cbn; apply sort_slice_perm.
Qed.

Lemma for_each_ok_mono {S A} (l : list A) (body body' : A → go S unit) s s' :
  (∀ x t t', body x t = (t', Ok tt) → body' x t = (t', Ok tt)) →
  for_each l body s = (s', Ok tt) → for_each l body' s = (s', Ok tt).
Proof.
  intros Hb. revert s. induction l as [|x l IH]; intros s; cbn [for_each]; [done|]. intros Hf.
  apply go_bind_inv in Hf as (s1 & [] & H1 & H2). rewrite (go_bind_ok _ _ _ _ _ (Hb _ _ _ H1)). by apply IH.
Qed.

Lemma replace_all_ok {DB Tx} `{BoltLaws DB Tx, !BoltReliable DB Tx} (db : DB) accs kvs root accs0 kvs0 r :
  holds db accs0 kvs0 r → map_Forall (λ _, Account_wf) accs → kv_storable kvs →
  ∃ db', Update (replace_all accs kvs root) db = (db', Ok tt) ∧ holds db' accs kvs (Some root).
Proof.
  intros [Ha Hk (m & Hm & _)] Hwf Hkv.
  destruct (recreate_ok accountsBucket (db_begin db)) as (t1 & t2 & H1 & H2 & B2); [done|by eexists|].
  destruct (put_accounts accs t2 ∅ Hwf) as (t3 & H3 & B3); [rewrite B2; by rewrite lookup_insert_eq|].
  destruct (recreate_ok kvstoreBucket t3) as (t4 & t5 & H4 & H5 & B5); [done| |].
  { rewrite B3, B2, !lookup_insert_ne by done. by eexists. }
  destruct (put_kvs kvs t5 ∅ Hkv) as (t6 & H6 & B6); [rewrite B5; by rewrite lookup_insert_eq|].
  destruct (put_root root t6 m) as (t7 & H7 & B7); [rewrite B6, B5, B3, B2; by rewrite !lookup_insert_ne|].
  destruct (Update_ok (replace_all accs kvs root) db t7 tt) as (db' & Hu & Hb).
  { unfold replace_all. rewrite (go_bind_ok _ _ _ t1 tt) by (by apply wrap_ok).
    rewrite (go_bind_ok _ _ _ t2 tt) by (by apply wrap_ok). rewrite (go_bind_ok _ _ _ t3 tt).
    2:{ eapply for_each_ok_mono; [|exact H3]. intros [a acc] t t'. cbn [fst snd]. intros Hp.
        apply go_bind_inv in Hp as (s1 & buf & E1 & E2). rewrite (go_bind_ok _ _ _ _ _ (wrap_ok _ _ _ _ _ E1)).
        by apply wrap_ok. }
    rewrite (go_bind_ok _ _ _ t4 tt) by (by apply wrap_ok). rewrite (go_bind_ok _ _ _ t5 tt) by (by apply wrap_ok).
    rewrite (go_bind_ok _ _ _ t6 tt); [by apply wrap_ok|].
    eapply for_each_ok_mono; [|exact H6]. intros e t t' Hp. by apply wrap_ok. }
  exists db'. split; [done|]. rewrite B7, B6, B5, B3, B2 in Hb. split; rewrite Hb.
  - rewrite !lookup_insert_ne, lookup_insert_eq by done. by rewrite map_union_empty.
  - rewrite lookup_insert_ne, lookup_insert_eq by done. by rewrite map_union_empty.
  - exists (<[stateRootKey := arr_bytes root]> m). rewrite lookup_insert_eq. split; [done|]. by rewrite lookup_insert_eq.
Qed.

(** Restoring a snapshot of a committed state. *)
Lemma restore_ok {DB Tx} `{BoltLaws DB Tx, !BoltReliable DB Tx} `{Hasher} (ps : PersistentState) (db : DB)
    snap data expected accs kvs t accs0 kvs0 r :
  Snapshot_ok snap → SerializeSnapshot snap = Ok data → expected = ZeroHash ∨ expected = Sum256 data →
  ss_Accounts snap ≡ₚ entry_of <$> map_to_list accs → ss_KVStore snap ≡ₚ kv_of <$> map_to_list kvs →
  map_Forall (λ _, Account_wf) accs → kv_storable kvs →
  build_smt accs kvs NewSMT = (t, Ok tt) → Root t = ss_StateRoot snap → ss_StateRoot snap ≠ ZeroHash →
  holds db accs0 kvs0 r →
  ∃ db', RestoreFromSnapshot data expected (ps, db) = ((mkPersistentState accs kvs (ss_StateRoot snap), db'), Ok tt) ∧
    holds db' accs kvs (Some (ss_StateRoot snap)).
Proof.
  intros Hok Hser Hexp Hpa Hpk Hwf Hkv Ht Hroot Hz Hdb.
  destruct (replace_all_ok db accs kvs (ss_StateRoot snap) accs0 kvs0 r Hdb Hwf Hkv) as (db' & Hu & Hnew).
  exists db'. split; [|done]. rewrite (serialized snap Hok) in Hser. apply Ok_inj in Hser as <-.
  unfold RestoreFromSnapshot. set (data := snapshot_body snap ++ arr_bytes (Sum256 (snapshot_body snap))) in *.
  assert (negb (bool_decide (expected = ZeroHash)) && negb (bool_decide (Sum256 data = expected)) = false) as ->.
  { destruct Hexp as [->| ->]; [by rewrite bool_decide_eq_true_2|].
    rewrite (bool_decide_eq_true_2 (Sum256 data = Sum256 data)) by done. by rewrite andb_false_r. }
  unfold data. rewrite (deserialized snap Hok). cbn [wrap_res sorted_snapshot ss_StateRoot ss_Accounts ss_KVStore].
  rewrite bool_decide_eq_false_2 by done.
  destruct (sorted_image entry_of account_before _ _ Hpa) as (la & -> & Hla).
  destruct (sorted_image kv_of kv_before _ _ Hpk) as (lk & -> & Hlk).
  destruct (perm_to_map accs la Hla) as [Hna Hma]. destruct (perm_to_map kvs lk Hlk) as [Hnk Hmk].
  rewrite restore_accounts_ok; [|rewrite Hla; apply Forall_forall; intros [a acc] Hin%elem_of_map_to_list; by apply (Hwf a)|done].
  rewrite restore_kvs_ok by done. rewrite Hma, Hmk, (map_union_empty accs), Ht, Hroot, bool_decide_eq_true_2 by done.
  cbn [negb]. by rewrite Hu.
Qed.

(** A header that announces more accounts than fit into memory, with a
    correct checksum: reading it panics. *)
Definition hostile_body : bytes :=
  str_bytes SnapshotMagic ++ be 4 SnapshotVersion ++ be 8 1 ++ be 8 1 ++ arr_bytes ZeroHash ++ arr_bytes ZeroHash ++ be 8 1
  ++ be 8 (2 ^ 63) ++ be 8 0 ++ replicate 32 x00.

Theorem hostile_count_panics : DeserializeSnapshot (hostile_body ++ Sum256 hostile_body) = Panic.
Proof.
  unfold DeserializeSnapshot. rewrite length_app, arr_length. change (length hostile_body) with 144%nat.
  change (144 + 32 - 32)%nat with (length hostile_body).
  rewrite take_app_length, drop_app_length, bool_decide_eq_true_2 by done. reflexivity.
Qed.

(** ** Properties *)

(** A serialised snapshot reads back as the same snapshot with its
    entries in key order, as long as the entries are within the limits of the
    reader; whatever is accepted ends with the SHA-256 checksum of the rest. *)
Theorem snapshot_format_roundtrip (snap : StateSnapshot) :
  Snapshot_ok snap →
  (∃ data, SerializeSnapshot snap = Ok data ∧ DeserializeSnapshot data = Ok (sorted_snapshot snap)) ∧
  ∀ data snap', DeserializeSnapshot data = Ok snap' →
    arr_bytes (Sum256 (take (length data - 32) data)) = drop (length data - 32) data.
Proof.
  intros Hok. split.
  - exists (snapshot_body snap ++ Sum256 (snapshot_body snap)). split; [by apply serialized|by apply deserialized].
  - intros data snap'. unfold DeserializeSnapshot. destruct (_ <? _); [done|].
    set (body := take _ _). set (sum := drop _ _). case_bool_decide as Hs; [done|]. unfold run_reader.
    intros Hr. exfalso. destruct (read_snapshot false body) as [rest r] eqn:E. cbn in Hr. subst r.
    unfold read_snapshot in E. do 12 (apply go_bind_inv in E as (? & ? & _ & E)).
    apply go_bind_inv in E as (? & ? & E & _). done.
Qed.

(** The chunks of a snapshot, received in any order, join to the data
    they were cut from; and whatever is accepted consists of chunks that match
    their hashes, in index order, and has the announced snapshot hash. *)
Theorem chunks_roundtrip (data : bytes) (chunkSize : Z) :
  0 < chunkSize → data ≠ [] → Z.of_nat (length data) + chunkSize - 1 < 2 ^ 64 →
  (Z.of_nat (length data) + chunkSize - 1) / chunkSize < 2 ^ 32 →
  (∃ chunks, ChunkSnapshot data chunkSize = Ok chunks ∧ ∀ received, received ≡ₚ chunks → ReassembleSnapshot received = Ok data) ∧
  ∀ received d, ReassembleSnapshot received = Ok d →
    ∃ l hash, l ≡ₚ received ∧ d = concat (ch_Data <$> l) ∧ SnapshotHash d = hash ∧
      Forall (λ c, Sum256 (ch_Data c) = ch_ChunkHash c ∧ ch_SnapshotHash c = hash) l ∧
      ∀ j c, l !! j = Some c → ch_Index c = u32 (Z.of_nat j).
Proof.
  intros Hsize Hne Hlen Hcount. split.
  - set (total := (Z.of_nat (length data) + chunkSize - 1) / chunkSize).
    assert (0 <= total) as H0 by (apply Z.div_pos; lia).
    assert (u32 total = total) as Et by (unfold u32; apply Z.mod_small; lia).
    set (l := chunk_loop (length data) chunkSize total (SnapshotHash data) (u32 0) data).
    exists l. split.
    { unfold ChunkSnapshot. rewrite (proj2 (Z.eqb_neq _ _)) by lia.
      rewrite (proj2 (Z.eqb_neq _ _)) by (destruct data; cbn; [done|lia]).
      rewrite u64_small by (unfold is_u64; lia). fold total. rewrite (proj2 (Z.ltb_ge _ _)) by lia. done. }
    assert (Z.of_nat (length l) = total) as Hl by (by apply chunk_loop_length).
    destruct (chunk_loop_indexed chunkSize total (SnapshotHash data) Hsize (length data) 0 data) as [Hf Hs];
      [done|lia|fold l; lia|]. fold l in Hf, Hs.
    intros received Hp. unfold ReassembleSnapshot. rewrite (sort_chunks l received Hp Hs).
    assert (join_chunks (SnapshotHash data) 0 l = Ok data) as Hj by (by apply chunk_loop_joins).
    destruct l as [|c l'] eqn:El; [by injection Hj as <-|]. apply Forall_cons in Hf as [(_ & Hc & Hh) _].
    rewrite Hc, Et, Hl, Z.eqb_refl, Hh, Hj. cbn [negb mbind res_bind]. by rewrite bool_decide_eq_true_2.
  - intros received d. unfold ReassembleSnapshot. pose proof (sort_slice_perm chunk_before received) as Hp.
    destruct (sort_slice chunk_before received) as [|c l']; [done|].
    destruct (negb (_ =? _)); [done|]. destruct (join_chunks _ 0 _) as [d'| |] eqn:Ej; [|done..]. cbn [mbind res_bind].
    case_bool_decide as Hh; [|done]. intros [= <-]. apply join_chunks_inv in Ej as (Ed & Hf & Hi).
    exists (c :: l'), (ch_SnapshotHash c). split; [done|]. split; [done|]. split; [done|]. split; [|done].
    eapply Forall_impl; [exact Hf|]. intros x [Hv%bool_decide_eq_true_1 Hx]. done.
Qed.

(** C16: fast sync reproduces the state: the snapshot of a committed state,
    serialised and restored into a database that held anything else, gives
    exactly the accounts, entries and root of the original, in memory and
    after reopening the database. The disk must not fail, the root must not be
    zero, and the state must be within the limits of the format (sizes of keys,
    values and counts, 64-bit height, epoch and time). *)
Theorem restore_reproduces_state {DB Tx} `{BoltLaws DB Tx, !BoltReliable DB Tx} `{Hasher}
    (s0 s : InMemoryState) (root : Hash) (height epoch : Z) (vsh : Hash) (ts : Z) (ps : PersistentState) (db : DB)
    (accs : gmap Address Account) (kvs : gmap string bytes) (r : option Hash) :
  Commit s0 = (s, Ok root) → root ≠ ZeroHash →
  snapshot_limits (accounts s) (kvstore s) → kv_storable (kvstore s) → fits 8 height → fits 8 epoch → fits 8 ts →
  holds db accs kvs r →
  ∃ snap data db',
    InMemoryState_CreateSnapshot height epoch vsh ts s = Ok snap ∧ SerializeSnapshot snap = Ok data ∧
    RestoreFromSnapshot data (SnapshotHash data) (ps, db)
      = ((mkPersistentState (accounts s) (kvstore s) root, db'), Ok tt) ∧
    (NewPersistentState db').2 = Ok (mkPersistentState (accounts s) (kvstore s) root).
Proof.
  intros Hc Hz Hlim Hkv Hh He Ht Hdb.
  assert (build_smt (accounts s) (kvstore s) NewSMT = (smt s, Ok tt) ∧ root = Root (smt s)) as [Hb ->].
  { unfold Commit in Hc. destruct (build_smt (accounts s0) (kvstore s0) NewSMT) as [t [[]|e|]] eqn:Eb; [|done..].
    injection Hc as <- <-. done. }
  destruct (snapshot_of_maps_ok (accounts s) (kvstore s) (GetStateRoot s) height epoch vsh ts Hlim Hh He Ht)
    as (snap & Hs & Hok & Hr & Hpa & Hpk). pose proof Hlim as (Hwf & _).
  pose proof (serialized snap Hok) as Hser.
  destruct (restore_ok ps db snap _ (SnapshotHash (snapshot_body snap ++ Sum256 (snapshot_body snap)))
    (accounts s) (kvstore s) (smt s) accs kvs r Hok Hser ltac:(by right) Hpa Hpk Hwf Hkv Hb) as (db' & Hres & Hnew);
    [by rewrite Hr|by rewrite Hr|done|].
  rewrite Hr in Hres, Hnew. exists snap, (snapshot_body snap ++ Sum256 (snapshot_body snap)), db'.
  split; [exact Hs|]. split; [exact Hser|]. split; [exact Hres|].
  destruct (reopen_loads db' _ _ _ Hnew Hwf Hz) as (db'' & Hopen & _). by rewrite Hopen.
Qed.

(** ** Examples *)

Definition example_snapshot : StateSnapshot :=
  {| ss_Height := 7; ss_Epoch := 1; ss_StateRoot := ZeroHash; ss_ValidatorSetHash := ZeroHash; ss_Timestamp := 42;
     ss_Accounts := [mkAccountEntry (addr_of 2) [x01]; mkAccountEntry (addr_of 1) []];
     ss_KVStore := [mkKVEntry "b" [x02]; mkKVEntry "a" []] |}.

Lemma snapshot_format_roundtrip_witness :
  ∃ data, SerializeSnapshot example_snapshot = Ok data ∧ DeserializeSnapshot data =
    Ok {| ss_Height := 7; ss_Epoch := 1; ss_StateRoot := ZeroHash; ss_ValidatorSetHash := ZeroHash; ss_Timestamp := 42;
          ss_Accounts := [mkAccountEntry (addr_of 1) []; mkAccountEntry (addr_of 2) [x01]];
          ss_KVStore := [mkKVEntry "a" []; mkKVEntry "b" [x02]] |}.
Proof.
  apply (snapshot_format_roundtrip example_snapshot). split.
  - split; vm_compute; (reflexivity || discriminate).
  - split; vm_compute; (reflexivity || discriminate).
  - split; vm_compute; (reflexivity || discriminate).
  - repeat constructor; vm_compute; discriminate.
  - repeat constructor; vm_compute; discriminate.
  - apply (bool_decide_unpack _). vm_compute. exact I.
  - apply (bool_decide_unpack _). vm_compute. exact I.
  - split; vm_compute; discriminate.
Defined.

Lemma chunks_roundtrip_witness :
  ∃ chunks, ChunkSnapshot [x00; x01; x02] 2 = Ok chunks ∧ ReassembleSnapshot (reverse chunks) = Ok [x00; x01; x02].
Proof.
  destruct (chunks_roundtrip [x00; x01; x02] 2) as [(chunks & Hc & Hr) _]; [reflexivity|discriminate|reflexivity|reflexivity|].
  exists chunks. split; [exact Hc|]. apply Hr. apply reverse_Permutation.
Defined.

Definition example_state : InMemoryState := mkInMemoryState {[ addr_of 1 := stored_account ]} ∅ NewSMT [].

Lemma restore_reproduces_state_witness :
  ∃ data db', RestoreFromSnapshot (H0 := constant_hasher) data (SnapshotHash data)
      (mkPersistentState ∅ ∅ ZeroHash, example_db)
    = ((mkPersistentState {[ addr_of 1 := stored_account ]} ∅ (arr_copy 32 [x01]), db'), Ok tt).
Proof.
  assert ((Commit (H := constant_hasher) example_state).2 = Ok (arr_copy 32 [x01])) as Hr by (vm_compute; reflexivity).
  destruct (Commit (H := constant_hasher) example_state) as [s r] eqn:E.
  assert (accounts s = {[ addr_of 1 := stored_account ]} ∧ kvstore s = ∅) as [Ea Ek].
  { unfold Commit in E. destruct (build_smt _ _ _) as [t x]. injection E as <- _. split; reflexivity. }
  cbn [snd] in Hr. rewrite Hr in E.
  destruct (restore_reproduces_state (H1 := constant_hasher) example_state s (arr_copy 32 [x01]) 7 1 ZeroHash 42
    (mkPersistentState ∅ ∅ ZeroHash) example_db {[ addr_of 1 := stored_account ]} {[ "validator/count" := be 8 1 ]} None E)
    as (snap & data & db' & _ & _ & Hres & _).
  - discriminate.
  - rewrite Ea, Ek. split; [apply map_Forall_singleton, stored_account_wf|]. split; [apply map_Forall_empty|].
    split; vm_compute; discriminate.
  - rewrite Ek. apply map_Forall_empty.
  - split; vm_compute; (reflexivity || discriminate).
  - split; vm_compute; (reflexivity || discriminate).
  - split; vm_compute; (reflexivity || discriminate).
  - split; [reflexivity..|]. exists ∅. split; reflexivity.
  - exists data, db'. rewrite Ea, Ek in Hres. exact Hres.
Defined.
