(* ===== verification/Node.v ===== *)
(** * The node (node/node.go, node/replay.go, node/recovery.go,
      node/fastsync.go, the keys of wallet/wallet.go)

    How a node wires the parts together: the state it executes on, the
    database-backed state it persists to, the pool, fork choice, block
    production, crash recovery, replay and fast sync.

    The pool was created with a pointer to the state; [Recover] may replace
    the node's state, after which the pool still reads the old one:
    [nd_pool_state]. Calls into the peer-to-peer layer, the indexer and the
    sync engines are recorded in [nd_effects]; their results are not used by
    the node. Each handler is one step; the fields that the handlers share are
    not protected by a lock, so the model is of handlers that do not overlap.

    The accounts that are copied between the state and the cache of the
    database-backed state are pointers. The model keeps values: the cache is
    only read after [CommitState] has overwritten its entries, after
    [RestoreFromSnapshot] has replaced it, or when the node starts
    ([LoadFromPersistent] and [Recover] run before any block is executed), so
    changes made through a shared pointer are not seen. *)

From S2P Require Import Prelude Codec Sha256 Address Amount Tx Votes Block Smt Store Keys State.
From S2P Require Import Validator Registry Applier Staking ValidatorSet Economics Epoch Voting System BlockExec.
From S2P Require Import Gossip Bolt Chain Persist Mempool StateSync.

(** ** Keys (wallet/wallet.go) *)

Record KeyPair := mkKeyPair {
  kp_PublicKey : arr 32;
  kp_PrivateKey : arr 64;
}.

Definition KeyPair_Address (kp : KeyPair) : Address :=
  match AddressFromBytes (take 20 (kp_PublicKey kp)) with Ok a => a | _ => ZeroAddress end.

Definition SignHash `{Ed25519} (kp : KeyPair) (hash : Hash) : res bytes :=
  Ok (ed25519_Sign (kp_PrivateKey kp) hash).

(** [Sign] on the signer that wraps the node's wallet; a nil wallet panics. *)
Definition walletSigner_Sign `{Ed25519} (wallet : option KeyPair) (hash : Hash) : res bytes :=
  match wallet with Some kp => SignHash kp hash | None => Panic end.

(** ** Configuration and state *)

Record Config := mkConfig {
  cfg_MempoolMaxSize : Z;
  cfg_MempoolTTL : Z;
  cfg_P2PPort : Z;
  cfg_Validators : list Address;
  cfg_MaxTxPerBlock : nat;
  cfg_IndexerEnabled : bool;
  cfg_SnapshotInterval : Z;
  cfg_FastSyncEnabled : bool;
  cfg_BootstrapPeers : list string;
}.

Record ReorgEntry := mkReorgEntry {
  re_Height : Z;
  re_Hash : Hash;
}.

(** indexer/types.go *)
Record IndexableBlock := mkIndexableBlock {
  ib_Number : Z;
  ib_Hash : Hash;
  ib_Header : BlockHeader;
  ib_Txns : list Transaction;
  ib_Events : list Event;
  ib_StateRoot : Hash;
}.

(** Calls into the components that the node drives. *)
Inductive effect :=
  | Broadcast (data : bytes)
  | GossipBlock (data : bytes)
  | Enqueue (ib : IndexableBlock)
  | BroadcastSnapshotQuery
  | StartFastSync
  | StartBlockSync
  | StartDiscovery
  | StartLoop.

(** What [New] and [SetWallet] fix: the engines exist when both the network
    and the database do. *)
Record Wiring := mkWiring {
  w_cfg : Config;
  w_wallet : option KeyPair;
  w_vm : option VM;
  w_p2p : bool;
  w_engines : bool;
  w_indexer : bool;
}.

Record Node (DB : Type) := mkNode {
  nd_wiring : Wiring;
  nd_state : InMemoryState;
  nd_pool_state : option InMemoryState;
  nd_persistent : option (PersistentState * DB);
  nd_mempool : Mempool DB;
  nd_finalizedHeight : Z;
  nd_reorgBuffer : list ReorgEntry;
  nd_currentHeight : Z;
  nd_currentTipHash : Hash;
  nd_currentEpoch : Z;
  nd_consensusRunning : bool;
  nd_effects : list effect;
}.
Arguments mkNode {_}. Arguments nd_wiring {_}. Arguments nd_state {_}. Arguments nd_pool_state {_}.
Arguments nd_persistent {_}. Arguments nd_mempool {_}. Arguments nd_finalizedHeight {_}.
Arguments nd_reorgBuffer {_}. Arguments nd_currentHeight {_}. Arguments nd_currentTipHash {_}.
Arguments nd_currentEpoch {_}. Arguments nd_consensusRunning {_}. Arguments nd_effects {_}.

(** ** Fork choice *)

Definition finalityK : Z := 6.

Definition forkWeight (h tip : Z) : Z :=
  if tip <? finalityK then h
  else if tip - finalityK <? h then tip - finalityK
  else h.

(** ** Calls on a part of the state *)

Section zoom.
Context {S T : Type} (get : S → T) (put : T → S → S).

Definition zoom {A} (m : go T A) : go S A := λ s,
  let '(t, r) := m (get s) in (put t s, r).
End zoom.

(** [_ = f()] and [if err := f(); err != nil { panic(err) }]. *)
Definition ignore {S A} (m : go S A) : go S unit := try m;; mret tt.
Definition or_panic {S A} (m : go S A) : go S A := λ s, let '(s', r) := m s in (s', must r).

Section node.
Context {DB Tx : Type} `{BoltDB DB Tx} `{Hasher} `{Ed25519}.
Abbreviation Node := (Node DB).

Definition with_state (s : InMemoryState) (n : Node) : Node :=
  mkNode (nd_wiring n) s (nd_pool_state n) (nd_persistent n) (nd_mempool n) (nd_finalizedHeight n) (nd_reorgBuffer n)
    (nd_currentHeight n) (nd_currentTipHash n) (nd_currentEpoch n) (nd_consensusRunning n) (nd_effects n).
Definition with_persistent (p : option (PersistentState * DB)) (n : Node) : Node :=
  mkNode (nd_wiring n) (nd_state n) (nd_pool_state n) p (nd_mempool n) (nd_finalizedHeight n) (nd_reorgBuffer n)
    (nd_currentHeight n) (nd_currentTipHash n) (nd_currentEpoch n) (nd_consensusRunning n) (nd_effects n).
Definition with_mempool (mp : Mempool DB) (n : Node) : Node :=
  mkNode (nd_wiring n) (nd_state n) (nd_pool_state n) (nd_persistent n) mp (nd_finalizedHeight n) (nd_reorgBuffer n)
    (nd_currentHeight n) (nd_currentTipHash n) (nd_currentEpoch n) (nd_consensusRunning n) (nd_effects n).
Definition with_finalized (f : Z) (n : Node) : Node :=
  mkNode (nd_wiring n) (nd_state n) (nd_pool_state n) (nd_persistent n) (nd_mempool n) f (nd_reorgBuffer n)
    (nd_currentHeight n) (nd_currentTipHash n) (nd_currentEpoch n) (nd_consensusRunning n) (nd_effects n).
Definition with_reorg (l : list ReorgEntry) (n : Node) : Node :=
  mkNode (nd_wiring n) (nd_state n) (nd_pool_state n) (nd_persistent n) (nd_mempool n) (nd_finalizedHeight n) l
    (nd_currentHeight n) (nd_currentTipHash n) (nd_currentEpoch n) (nd_consensusRunning n) (nd_effects n).
Definition with_tip (height : Z) (hash : Hash) (n : Node) : Node :=
  mkNode (nd_wiring n) (nd_state n) (nd_pool_state n) (nd_persistent n) (nd_mempool n) (nd_finalizedHeight n)
    (nd_reorgBuffer n) height hash (nd_currentEpoch n) (nd_consensusRunning n) (nd_effects n).
Definition with_epoch (e : Z) (n : Node) : Node :=
  mkNode (nd_wiring n) (nd_state n) (nd_pool_state n) (nd_persistent n) (nd_mempool n) (nd_finalizedHeight n)
    (nd_reorgBuffer n) (nd_currentHeight n) (nd_currentTipHash n) e (nd_consensusRunning n) (nd_effects n).
Definition with_running (b : bool) (n : Node) : Node :=
  mkNode (nd_wiring n) (nd_state n) (nd_pool_state n) (nd_persistent n) (nd_mempool n) (nd_finalizedHeight n)
    (nd_reorgBuffer n) (nd_currentHeight n) (nd_currentTipHash n) (nd_currentEpoch n) b (nd_effects n).
Definition emit_effect (e : effect) : go Node unit := modify (λ n,
  mkNode (nd_wiring n) (nd_state n) (nd_pool_state n) (nd_persistent n) (nd_mempool n) (nd_finalizedHeight n)
    (nd_reorgBuffer n) (nd_currentHeight n) (nd_currentTipHash n) (nd_currentEpoch n) (nd_consensusRunning n)
    (nd_effects n ++ [e])).

(** [n.state = state.NewInMemoryState(n.hasher)]: the pool keeps its pointer. *)
Definition replace_state (n : Node) : Node :=
  mkNode (nd_wiring n) NewInMemoryState (Some (default (nd_state n) (nd_pool_state n))) (nd_persistent n)
    (nd_mempool n) (nd_finalizedHeight n) (nd_reorgBuffer n) (nd_currentHeight n) (nd_currentTipHash n)
    (nd_currentEpoch n) (nd_consensusRunning n) (nd_effects n).

Definition on_state {A} : go InMemoryState A → go Node A := zoom nd_state with_state.
Definition on_pool {A} : go (Mempool DB) A → go Node A := zoom nd_mempool with_mempool.

(** Calls on the persistent state; through a nil pointer they panic. *)
Definition on_persistent {A} (m : go (PersistentState * DB) A) : go Node A := λ n,
  match nd_persistent n with
  | None => (n, Panic)
  | Some p => let '(p', r) := m p in (with_persistent (Some p') n, r)
  end.
Definition on_cache {A} (m : go PersistentState A) : go Node A :=
  on_persistent (zoom fst (λ ps p, (ps, p.2)) m).
Definition on_disk {A} (m : go DB A) : go Node A :=
  on_persistent (zoom snd (λ db p, (p.1, db)) m).

Definition has_persistent : go Node bool := gets (λ n, bool_decide (is_Some (nd_persistent n))).
Definition when {S} (b : bool) (m : go S unit) : go S unit := if b then m else mret tt.

(** ** Loading and committing the state *)

(** The two [ForEach] loops that copy the cache into the state, and the commit
    that rebuilds the tree. The order of the loops is that of Go maps; the
    keys are distinct. *)
Definition copy_from_persistent (msgAccounts msgKV msgCommit : string) : go Node unit :=
  accs ← on_cache (gets ps_cache);
  wrap msgAccounts (on_state (for_each (map_to_list accs) (λ e, SetAccount e.1 (Fresh e.2))));;
  kvs ← on_cache (gets ps_kvstore);
  wrap msgKV (on_state (for_each (map_to_list kvs) (λ e, SetBytes e.1 e.2)));;
  wrap msgCommit (on_state Commit);;
  mret tt.

Definition LoadFromPersistent : go Node unit :=
  p ← has_persistent;
  when p (copy_from_persistent "load accounts from persistent" "load kvstore from persistent"
            "rebuild SMT after load from persistent").

Definition CommitState : go Node Hash :=
  p ← has_persistent;
  when p (
    accs ← on_state (gets accounts);
    wrap "sync accounts to persistent"
      (on_cache (for_each (map_to_list accs) (λ e, SetAccount e.1 (Fresh e.2))));;
    kvs ← on_state (gets kvstore);
    wrap "sync kvstore to persistent" (on_cache (for_each (map_to_list kvs) (λ e, SetBytes e.1 e.2)));;
    wrap "persistent commit" (on_persistent PersistentState_Commit);;
    mret tt);;
  on_state Commit.

Definition SaveToPersistent : go Node Hash := CommitState.

(** ** The pool *)

Definition pool_state (n : Node) : InMemoryState := default (nd_state n) (nd_pool_state n).

Definition SubmitTx (nowUnix now : Z) (tx : Transaction) : go Node unit := λ n,
  on_pool (Submit (accounts (pool_state n)) nowUnix now tx) n.

Definition Node_PendingTxs (now1 now2 : Hash → Z) : go Node (list Transaction) :=
  on_pool (PendingTxs now1 now2).

Definition GetBlock (height : Z) : go Node Block :=
  p ← has_persistent;
  guard_err (negb p) (Errorf "persistent state not available");;
  on_disk (LoadBlock height).

Definition nodeAddress (n : Node) : Address :=
  match w_wallet (nd_wiring n) with Some kp => KeyPair_Address kp | None => ZeroAddress end.

(** ** Epoch boundaries: checkpoint and snapshot

    The same code ends the production and the acceptance of a block; every
    error is dropped. [now] is the clock. *)
Definition store_snapshot (header : BlockHeader) : go Node unit :=
  s ← gets nd_state;
  match InMemoryState_CreateSnapshot (h_Height header) (h_Epoch header) (h_ValidatorSetHash header)
          (h_Timestamp header) s with
  | Ok snap =>
      match SerializeSnapshot snap with
      | Ok snapData => ignore (on_disk (StoreSnapshot (h_Height header) snapData))
      | Err _ => mret tt
      | Panic => gopanic
      end
  | Err _ => mret tt
  | Panic => gopanic
  end.

Definition epoch_boundary (now : Z) (header : BlockHeader) : go Node unit :=
  n ← gets id;
  if bool_decide (is_Some (nd_persistent n)) && (0 <? h_Epoch header)
     && negb (h_Epoch header =? nd_currentEpoch n) then
    modify (with_epoch (h_Epoch header));;
    ignore (on_disk (CreateCheckpoint now (h_Height header) (h_Epoch header) (h_StateRoot header)
              (nd_currentTipHash n) (h_ValidatorSetHash header)));;
    let interval := cfg_SnapshotInterval (w_cfg (nd_wiring n)) in
    when ((0 <? interval) && (h_Epoch header mod interval =? 0)) (store_snapshot header)
  else mret tt.

Definition clean_mempool (txs : list Transaction) : go Node unit :=
  for_each txs (λ tx, on_pool (Mempool_Remove (tx_IntentID tx))).

(** ** Accepting blocks *)

Definition index_block (block : Block) : go Node unit :=
  n ← gets id;
  when (w_indexer (nd_wiring n)) (emit_effect (Enqueue
    {| ib_Number := h_Height (b_Header block); ib_Hash := hash_or_zero (HeaderHash (b_Header block));
       ib_Header := b_Header block; ib_Txns := b_Transactions block; ib_Events := b_Events block;
       ib_StateRoot := h_StateRoot (b_Header block) |})).

Definition gossip_accepted (block : Block) : go Node unit :=
  n ← gets id;
  when (w_engines (nd_wiring n))
    match EncodeBlockMessage block with
    | Ok data => emit_effect (GossipBlock data)
    | Err _ => mret tt
    | Panic => gopanic
    end.

Definition applyAcceptedBlock (now : Z) (block : Block) : go Node unit :=
  let header := b_Header block in
  modify (with_tip (h_Height header) (hash_or_zero (HeaderHash header)));;
  p ← has_persistent;
  when p (
    ignore (on_disk (AtomicStoreBlockAndTip block));;
    or_panic CommitState;;
    mret tt);;
  index_block block;;
  clean_mempool (b_Transactions block);;
  gossip_accepted block;;
  epoch_boundary now header.

(** The hash of the stored parent header, the zero hash when there is none;
    [otherwise] without a database. *)
Definition parent_hash (height : Z) (otherwise : Hash) : go Node Hash :=
  p ← has_persistent;
  if p && (0 <? height) then
    parent ← try (on_disk (LoadBlockHeader (u64 (height - 1))));
    mret match parent with inr h => hash_or_zero (HeaderHash h) | inl _ => ZeroHash end
  else mret otherwise.

(** The parent header that validation is given is made up from the block. *)
Definition parent_of (header : BlockHeader) : BlockHeader :=
  {| h_Version := 0; h_Height := u64 (h_Height header - 1); h_PreviousHash := h_PreviousHash header;
     h_StateRoot := ZeroHash; h_TxRoot := ZeroHash; h_ReceiptRoot := ZeroHash; h_ValidatorRoot := ZeroHash;
     h_ValidatorSetHash := ZeroHash; h_Epoch := 0; h_Timestamp := 0; h_Proposer := ZeroAddress;
     h_EventsRoot := ZeroHash |}.

(** Validation runs on the node's own state; it is not undone on failure. *)
Definition validate (clock : nat → Z) (block : Block) (expectedPrevHash : Hash) : go Node (error + unit) :=
  n ← gets id;
  try (on_state (ValidateBlock (w_vm (nd_wiring n)) clock block (parent_of (b_Header block)) expectedPrevHash)).

(** The test of [handleFork] that lets a fork through. *)
Definition better_fork (height currentHeight : Z) : bool :=
  let weightNew := forkWeight height currentHeight in
  let weightCurr := forkWeight currentHeight currentHeight in
  negb (weightNew <? weightCurr) && negb ((weightNew =? weightCurr) && (height <=? currentHeight)).

Definition handleFork (clock : nat → Z) (now : Z) (block : Block) : go Node unit :=
  n ← gets id;
  if negb (better_fork (h_Height (b_Header block)) (nd_currentHeight n)) then mret tt else
  expectedPrevHash ← parent_hash (h_Height (b_Header block)) ZeroHash;
  r ← validate clock block expectedPrevHash;
  match r with
  | inl _ => mret tt
  | inr _ => applyAcceptedBlock now block
  end.

(** The buffer keeps the last ten entries. *)
Definition push_reorg (e : ReorgEntry) (l : list ReorgEntry) : list ReorgEntry :=
  let l' := l ++ [e] in if bool_decide (10 < length l')%nat then drop 1 l' else l'.

Definition handleBlockMessage (clock : nat → Z) (now : Z) (data : bytes) : go Node unit :=
  match DecodeBlockMessage data with
  | Err _ => mret tt
  | Panic => gopanic
  | Ok block =>
      let header := b_Header block in
      when (6 <? h_Height header) (modify (with_finalized (h_Height header - 6)));;
      n ← gets id;
      if h_Height header <=? nd_finalizedHeight n then mret tt else
      if negb (bool_decide (h_PreviousHash header = nd_currentTipHash n)) then handleFork clock now block else
      expectedPrevHash ← parent_hash (h_Height header) (nd_currentTipHash n);
      r ← validate clock block expectedPrevHash;
      match r with
      | inl _ => mret tt
      | inr _ =>
          modify (λ m, with_reorg (push_reorg (mkReorgEntry (h_Height header) (nd_currentTipHash m))
                                     (nd_reorgBuffer m)) m);;
          applyAcceptedBlock now block
      end
  end.

(** ** Replay (node/replay.go)

    [count] turns of the loop from [height] on. *)
Fixpoint replay_loop (count : nat) (height : Z) : go Node unit :=
  match count with
  | O => mret tt
  | S count' =>
      header ← wrap "load header" (on_disk (LoadBlockHeader height));
      wrap "begin block" (on_state (BeginBlock height));;
      stateRoot ← wrap "commit" (on_state Commit);
      guard_err (negb (bool_decide (stateRoot = h_StateRoot header))) (Errorf "state root mismatch");;
      modify (λ n, with_tip height (nd_currentTipHash n) n);;
      hash ← wrap "header hash" (lift (HeaderHash header));
      modify (with_tip height hash);;
      wrap "store tip" (on_disk (StoreTip header));;
      replay_loop count' (u64 (height + 1))
  end.

(** With [toHeight] the greatest 64-bit number the loop of the code does not
    end; heights stay below it. *)
Definition ReplayBlocks (fromHeight toHeight : Z) : go Node unit :=
  guard_err (toHeight <? fromHeight) (Errorf "fromHeight cannot be greater than toHeight");;
  p ← has_persistent;
  guard_err (negb p) (Errorf "persistent storage required for block replay");;
  replay_loop (Z.to_nat (toHeight - fromHeight + 1)) fromHeight.

(** ** Recovery (node/recovery.go) *)

(** The branch for a state root that differs from the checkpoint's. *)
Definition recover_from_snapshot (tip : error + BlockHeader) (cp : Checkpoint) : go Node unit :=
  found ← on_disk (SnapshotExists (cp_Height cp));
  guard_err (negb found) (Errorf "recovery failed: state root doesn't match checkpoint, and no snapshot available");;
  snapData ← wrap "recovery: load snapshot" (on_disk (LoadSnapshot (cp_Height cp)));
  wrap "recovery: restore" (on_persistent (RestoreFromSnapshot snapData (cp_SnapshotHash cp)));;
  modify replace_state;;
  copy_from_persistent "recovery: reload accounts after snapshot" "recovery: reload kvstore after snapshot"
    "recovery: rebuild SMT after snapshot";;
  match tip with
  | inr h =>
      when (cp_Height cp <? h_Height h)
        (wrap "recovery: replay" (ReplayBlocks (u64 (cp_Height cp + 1)) (h_Height h)))
  | inl _ => mret tt
  end.

Definition Recover : go Node unit :=
  p ← gets nd_persistent;
  match p with
  | None => mret tt
  | Some (ps, _) =>
      let stateRoot := PersistentState_GetStateRoot ps in
      tip ← try (on_disk LoadTip);
      match tip with
      | inr h => modify (with_tip (h_Height h) (hash_or_zero (HeaderHash h)))
      | inl _ => mret tt
      end;;
      if bool_decide (stateRoot = ZeroHash) then mret tt else
      copy_from_persistent "recovery: load accounts" "recovery: load kvstore" "recovery: rebuild SMT";;
      cp ← try (on_disk LatestCheckpoint);
      match cp with
      | inl _ => mret tt
      | inr cp =>
          if bool_decide (stateRoot = cp_StateRoot cp) then mret tt else recover_from_snapshot tip cp
      end
  end.

(** ** Fast sync (node/fastsync.go) *)

Definition FastSync : go Node unit :=
  n ← gets id;
  guard_err (negb (w_p2p (nd_wiring n))) (Errorf "fast sync requires P2P networking (configure P2PPort)");;
  match nd_persistent n with
  | None => throw (Errorf "fast sync requires persistent storage (configure DataDir)")
  | Some (ps, _) =>
      let not_implemented := throw (Errorf "fast sync from network not yet implemented") in
      if bool_decide (PersistentState_GetStateRoot ps = ZeroHash) then not_implemented else
      cp ← try (on_disk LatestCheckpoint);
      match cp with
      | inl _ => not_implemented
      | inr latestCP =>
          modify (with_tip (cp_Height latestCP) (cp_BlockHash latestCP));;
          tip ← try (on_disk LoadTip);
          match tip with
          | inr h => when (cp_Height latestCP <? h_Height h)
                       (ReplayBlocks (u64 (cp_Height latestCP + 1)) (h_Height h))
          | inl _ => mret tt
          end
      end
  end.

(** The header that is stored as the tip of a synced node. *)
Definition synced_tip (cp : Checkpoint) : BlockHeader :=
  {| h_Version := 0; h_Height := cp_Height cp; h_PreviousHash := ZeroHash; h_StateRoot := cp_StateRoot cp;
     h_TxRoot := ZeroHash; h_ReceiptRoot := ZeroHash; h_ValidatorRoot := ZeroHash; h_ValidatorSetHash := ZeroHash;
     h_Epoch := 0; h_Timestamp := cp_Timestamp cp; h_Proposer := ZeroAddress; h_EventsRoot := ZeroHash |}.

Definition FastSyncFromCheckpoint (cp : Checkpoint) (snapData : bytes) (targetHeight : Z) : go Node unit :=
  p ← has_persistent;
  guard_err (negb p) (Errorf "fast sync requires persistent storage");;
  guard_err (negb (bool_decide (SnapshotHash snapData = cp_SnapshotHash cp))) (Errorf "snapshot hash mismatch");;
  wrap "restore from snapshot" (on_persistent (RestoreFromSnapshot snapData (cp_SnapshotHash cp)));;
  copy_from_persistent "rebuild in-memory accounts" "rebuild in-memory kvstore" "commit in-memory state";;
  currentRoot ← on_cache (gets PersistentState_GetStateRoot);
  guard_err (negb (bool_decide (currentRoot = cp_StateRoot cp))) (Errorf "state root mismatch after restore");;
  modify (with_tip (cp_Height cp) (cp_BlockHash cp));;
  wrap "store tip" (on_disk (StoreTip (synced_tip cp)));;
  when (cp_Height cp <? targetHeight)
    (wrap "replay blocks" (ReplayBlocks (u64 (cp_Height cp + 1)) targetHeight)).

Definition FastSyncFromLocalSnapshot (height targetHeight : Z) : go Node unit :=
  p ← has_persistent;
  guard_err (negb p) (Errorf "persistent storage required");;
  found ← on_disk (SnapshotExists height);
  guard_err (negb found) (Errorf "no snapshot found");;
  snapData ← wrap "load snapshot" (on_disk (LoadSnapshot height));
  cp ← wrap "load checkpoint" (on_disk (LoadCheckpoint height));
  FastSyncFromCheckpoint cp snapData targetHeight.

(** [answered]: a peer answered before the timeout. *)
Definition SyncFromNetwork (answered : bool) : go Node unit :=
  n ← gets id;
  guard_err (negb (w_p2p (nd_wiring n))) (Errorf "P2P node not available");;
  emit_effect BroadcastSnapshotQuery;;
  guard_err (negb answered) (Errorf "no snapshot info received from peers");;
  throw (Errorf "P2P snapshot download not fully implemented: peer tracking required").

(** ** Producing blocks *)

(** The readings of the clock in one turn of the loop. *)
Record Clock := mkClock {
  ck_txs : nat → Z;
  ck_block : Z;
  ck_header : Z;
  ck_expire : Hash → Z;
  ck_list : Hash → Z;
  ck_checkpoint : Z;
}.

(** [BuildBlock] on the node's state, virtual machine and pool. The pool is
    asked for its transactions, which drops the expired ones, once the block
    has begun. *)
Definition build (ck : Clock) (height : Z) (proposer : Address) : go Node Block := λ n,
  let '(mp, pending) := PendingTxs (ck_expire ck) (ck_list ck) (nd_mempool n) in
  match pending with
  | Err e => (with_mempool mp n, Err e)
  | Panic => (with_mempool mp n, Panic)
  | Ok pending =>
      let '(s, r) := BuildBlock (w_vm (nd_wiring n)) (ck_txs ck) (ck_block ck) (ck_header ck) pending height
                       (nd_currentTipHash n) proposer (walletSigner_Sign (w_wallet (nd_wiring n)))
                       (cfg_MaxTxPerBlock (w_cfg (nd_wiring n))) [] (nd_state n) in
      let n' := with_state s n in
      match (BeginBlock height (nd_state n)).2 with
      | Ok _ => (with_mempool mp n', r)
      | _ => (n', r)
      end
  end.

Definition broadcast_block (block : Block) : go Node unit :=
  n ← gets id;
  match EncodeBlockMessage block with
  | Ok data => when (w_p2p (nd_wiring n)) (emit_effect (Broadcast data))
  | Err _ => mret tt
  | Panic => gopanic
  end.

(** What the proposer does with a block it built. *)
Definition publish (ck : Clock) (block : Block) : go Node unit :=
  let header := b_Header block in
  broadcast_block block;;
  p ← has_persistent;
  when p (
    ignore (on_disk (StoreBlockHeader header));;
    ignore (on_disk (StoreTip header));;
    or_panic CommitState;;
    mret tt);;
  modify (with_tip (h_Height header) (hash_or_zero (HeaderHash header)));;
  clean_mempool (b_Transactions block);;
  epoch_boundary (ck_checkpoint ck) header.

(** One turn of the loop up to and including the wait: the height of the next
    turn. *)
Definition consensus_turn (ck : Clock) (height : Z) : go Node Z :=
  n ← gets id;
  proposer ← lift (ProposerAtHeight height (cfg_Validators (w_cfg (nd_wiring n))));
  if bool_decide (proposer = nodeAddress n) then
    r ← try (build ck height proposer);
    match r with
    | inr block => publish ck block;; mret (u64 (u64 (height + 1) + 1))
    | inl _ => mret (u64 (height + 1))
    end
  else mret (u64 (height + 1)).

(** Turns until the stop channel is closed, one for each reading of the
    clock. *)
Fixpoint runConsensusLoop (turns : list Clock) (height : Z) : go Node Z :=
  match turns with
  | [] => mret height
  | ck :: turns' => next ← consensus_turn ck height; runConsensusLoop turns' next
  end.

(** ** Starting *)

(** The tip of the database as the current position. *)
Definition load_position : go Node unit :=
  tip ← try (on_disk LoadTip);
  match tip with
  | inr h =>
      modify (with_tip (h_Height h) (hash_or_zero (HeaderHash h)));;
      modify (with_epoch (h_Epoch h))
  | inl _ => mret tt
  end.

(** The handler that runs when fast sync has finished. *)
Definition on_sync_live : go Node unit :=
  load_position;;
  n ← gets id;
  when (w_engines (nd_wiring n)) (emit_effect StartBlockSync);;
  when (w_engines (nd_wiring n) && negb (bool_decide (cfg_BootstrapPeers (w_cfg (nd_wiring n)) = [])))
    (emit_effect StartDiscovery).

Definition StartConsensus : go Node unit :=
  n ← gets id;
  let w := nd_wiring n in
  if nd_consensusRunning n then mret tt else
  if negb (w_p2p w) || bool_decide (length (cfg_Validators (w_cfg w)) = 0%nat) then mret tt else
  modify (with_running true);;
  when (bool_decide (is_Some (nd_persistent n))) (
    load_position;;
    if cfg_FastSyncEnabled (w_cfg w) && w_engines w then emit_effect StartFastSync
    else when (w_engines w) (emit_effect StartBlockSync));;
  when (w_engines w && negb (bool_decide (cfg_BootstrapPeers (w_cfg w) = []))) (emit_effect StartDiscovery);;
  emit_effect StartLoop.

Definition StopConsensus : go Node unit := modify (with_running false).

Definition SetWallet (kp : KeyPair) (n : Node) : Node :=
  let w := nd_wiring n in
  mkNode (mkWiring (w_cfg w) (Some kp) (w_vm w) (w_p2p w) (w_engines w) (w_indexer w)) (nd_state n)
    (nd_pool_state n) (nd_persistent n) (nd_mempool n) (nd_finalizedHeight n) (nd_reorgBuffer n)
    (nd_currentHeight n) (nd_currentTipHash n) (nd_currentEpoch n) (nd_consensusRunning n) (nd_effects n).
End node.

(** [New] on the database file of the data directory, [None] without one. The
    constructors of the network, the virtual machine and the indexer may fail:
    [listen], [vm] and [idx] are their results. *)
Section new.
Context {DB Tx : Type} `{BoltDB DB Tx} `{Hasher} `{Ed25519}.

Definition open_persistent (disk : option DB) : res (option (PersistentState * DB)) :=
  match disk with
  | None => Ok None
  | Some db =>
      match wrap "failed to open persistent state" NewPersistentState db with
      | (db', Ok ps) => Ok (Some (ps, db'))
      | (_, Err e) => Err e
      | (_, Panic) => Panic
      end
  end.

Definition fresh_node (cfg : Config) (vm : VM) (persistent : option (PersistentState * DB)) (indexer : bool)
    : Node DB :=
  let p2p := 0 <? cfg_P2PPort cfg in
  {| nd_wiring := {| w_cfg := cfg; w_wallet := None; w_vm := Some vm; w_p2p := p2p;
                     w_engines := p2p && bool_decide (is_Some persistent); w_indexer := indexer |};
     nd_state := NewInMemoryState; nd_pool_state := None; nd_persistent := persistent;
     nd_mempool := New (cfg_MempoolMaxSize cfg) (cfg_MempoolTTL cfg); nd_finalizedHeight := 0;
     nd_reorgBuffer := []; nd_currentHeight := 0; nd_currentTipHash := ZeroHash; nd_currentEpoch := 0;
     nd_consensusRunning := false; nd_effects := [] |}.

Definition Node_New (cfg : Config) (disk : option DB) (listen : res unit) (vm : res VM) (idx : res unit)
    : res (Node DB) :=
  persistent ← open_persistent disk;
  (if 0 <? cfg_P2PPort cfg then wrap_res "failed to create p2p node" listen else Ok tt);;
  execute ← wrap_res "failed to create VM" vm;
  let indexer := bool_decide (is_Some disk) && cfg_IndexerEnabled cfg in
  (if indexer then wrap_res "failed to create indexer" idx else Ok tt);;
  match wrap "crash recovery" Recover (fresh_node cfg execute persistent indexer) with
  | (n, Ok _) => Ok n
  | (_, Err e) => Err e
  | (_, Panic) => Panic
  end.
End new.

(** ** Lemmas *)

(** *** Fork choice *)

(** The weights do not matter: a fork is considered exactly when it is higher
    than the current chain. *)
Lemma better_fork_higher h cur : 0 <= h → 0 <= cur → better_fork h cur = (cur <? h).
Proof.
  intros Hh Hc. unfold better_fork, forkWeight, finalityK.
  repeat case_match; apply eq_iff_eq_true; rewrite ?andb_true_iff, ?negb_true_iff, ?andb_false_iff; lia.
Qed.

(** *** Validation needs a commit proof *)

Lemma read_block_no_proof inp rest block : read_block inp = (rest, Ok block) → b_CommitProof block = None.
Proof.
  unfold read_block. intros Hr.
  repeat (apply go_bind_inv in Hr as (? & ? & _ & Hr)).
  by apply go_ret_inv in Hr as [_ ->].
Qed.

Lemma DecodeBlockMessage_no_proof data block : DecodeBlockMessage data = Ok block → b_CommitProof block = None.
Proof.
  unfold DecodeBlockMessage, run_reader. intros Hd. repeat case_match; try done.
  destruct (read_block _) as [rest res] eqn:E. cbn [snd] in Hd. subst res. by apply read_block_no_proof in E.
Qed.

Lemma ValidateBlock_needs_proof `{Hasher} `{Ed25519} vm clock block parent prev (s s' : InMemoryState) u :
  ValidateBlock vm clock block parent prev s = (s', Ok u) →
  h_Height (b_Header block) ≠ 0 → b_CommitProof block ≠ None.
Proof.
  intros Hv Hh. unfold ValidateBlock in Hv.
  do 8 (apply go_bind_inv in Hv as (? & ? & _ & Hv)).
  apply go_bind_inv in Hv as (? & [fees evs] & _ & Hv).
  do 6 (apply go_bind_inv in Hv as (? & ? & _ & Hv)).
  apply wrap_inv, validateCommitProof_inv in Hv as (_ & proof & snap & -> & _); [|done]. done.
Qed.

(** *** What a handler leaves alone *)

(** Everything but the executed state and the finalized height. *)
Definition same_position {DB} (n n' : Node DB) : Prop :=
  n' = with_finalized (nd_finalizedHeight n') (with_state (nd_state n') n).

Section handlers.
Context {DB Tx : Type} `{BoltDB DB Tx} `{Hasher} `{Ed25519}.
Implicit Types n : Node DB.

#[local] Instance same_position_refl : Reflexive (same_position (DB := DB)).
Proof. by intros []. Qed.
#[local] Instance same_position_trans : Transitive (same_position (DB := DB)).
Proof. intros n1 n2 n3 E1 E2. unfold same_position in *. rewrite E2. rewrite E1. by destruct n1. Qed.

(** Reading the database changes nothing. *)
Lemma on_disk_view {A} (f : go Tx A) n :
  (on_disk (View f) n).1 = n.
Proof. unfold on_disk, on_persistent. destruct n as [? ? ? [[ps db]|]]; done. Qed.

Lemma parent_hash_same height otherwise n n' r : parent_hash height otherwise n = (n', r) → n' = n.
Proof.
  unfold parent_hash, has_persistent, gets, mbind, go_bind. case_match; [|by intros [= <- _]].
  unfold try. pose proof (on_disk_view
    (data ← read_value blocksBucket (height_key (u64 (height - 1))) "blocks bucket not found" "block header not found";
     wrap "failed to decode header" (lift (decodeHeader data))) n) as Hv.
  change (on_disk (View _)) with (on_disk (DB := DB) (LoadBlockHeader (u64 (height - 1)))) in Hv.
  destruct (on_disk (LoadBlockHeader (u64 (height - 1))) n) as [n1 [h|e|]]; cbn [fst] in Hv; subst; by intros [= <- _].
Qed.

(** A block without a commit proof is never let through. *)
Lemma validate_no_proof clock block prev n n' r :
  h_Height (b_Header block) ≠ 0 → b_CommitProof block = None →
  validate clock block prev n = (n', r) → same_position n n' ∧ nd_finalizedHeight n' = nd_finalizedHeight n ∧ ∀ u, r ≠ Ok (inr u).
Proof.
  intros Hh Hp. unfold validate, gets, mbind, go_bind, try, on_state, zoom. cbn [id].
  destruct (ValidateBlock _ _ _ _ _ _) as [s [u|e|]] eqn:E; intros [= <- <-].
  - by apply ValidateBlock_needs_proof in E.
  - done.
  - done.
Qed.

Lemma handleFork_no_proof clock now block n n' r :
  h_Height (b_Header block) ≠ 0 → b_CommitProof block = None → handleFork clock now block n = (n', r) →
  same_position n n' ∧ nd_finalizedHeight n' = nd_finalizedHeight n.
Proof.
  intros Hh Hp. unfold handleFork, gets, mbind, go_bind at 1. cbn [id]. case_match; [by intros [= <- _]|].
  unfold go_bind. destruct (parent_hash _ _ n) as [n1 [prev|e|]] eqn:E1; apply parent_hash_same in E1 as ->;
    [|by intros [= <- _]..].
  destruct (validate clock block prev n) as [n2 v] eqn:E2.
  destruct (validate_no_proof _ _ _ _ _ _ Hh Hp E2) as (Hs & Hf & Hno).
  destruct v as [[e|u]|e|]; [|by destruct (Hno u)|..]; by intros [= <- _].
Qed.

(** The finalized height after a message. *)
Definition finalized_by (data : bytes) (old : Z) : Z :=
  match DecodeBlockMessage data with
  | Ok block => if 6 <? h_Height (b_Header block) then h_Height (b_Header block) - 6 else old
  | _ => old
  end.

Lemma finalized_by_nonneg data old : 0 <= old → 0 <= finalized_by data old.
Proof. intros Ho. unfold finalized_by. repeat case_match; lia. Qed.

Lemma handleBlockMessage_same clock now data n n' r :
  0 <= nd_finalizedHeight n → handleBlockMessage clock now data n = (n', r) →
  same_position n n' ∧ nd_finalizedHeight n' = finalized_by data (nd_finalizedHeight n).
Proof.
  intros Hf. unfold handleBlockMessage, finalized_by.
  destruct (DecodeBlockMessage data) as [block|e|] eqn:Ed; [|by intros [= <- _]..].
  apply DecodeBlockMessage_no_proof in Ed as Hp.
  set (n1 := if 6 <? h_Height (b_Header block) then with_finalized (h_Height (b_Header block) - 6) n else n).
  assert (same_position n n1) as H01 by (unfold n1; by case_match; destruct n).
  assert (when (6 <? h_Height (b_Header block)) (modify (with_finalized (h_Height (b_Header block) - 6))) n
    = (n1, Ok tt)) as Hw by (unfold n1, when; by case_match).
  assert (nd_finalizedHeight n1 = if 6 <? h_Height (b_Header block) then h_Height (b_Header block) - 6
    else nd_finalizedHeight n) as <- by (unfold n1; by case_match).
  assert (0 <= nd_finalizedHeight n1) as Hf1 by (unfold n1; case_match; cbn; lia).
  rewrite (go_bind_ok _ _ _ _ _ Hw). unfold gets, mbind, go_bind at 1. cbn [id].
  destruct (Z.leb_spec (h_Height (b_Header block)) (nd_finalizedHeight n1)) as [|Hlt]; [by intros [= <- _]|].
  assert (h_Height (b_Header block) ≠ 0) as Hh by lia. clearbody n1.
  case_match.
  { intros (Hs & ->)%handleFork_no_proof; [|done..]. split; [by trans n1|done]. }
  unfold go_bind. destruct (parent_hash _ _ n1) as [n2 [prev|e|]] eqn:E1; apply parent_hash_same in E1 as ->;
    [|by intros [= <- _]..].
  destruct (validate clock block prev n1) as [n2 v] eqn:E2.
  destruct (validate_no_proof _ _ _ _ _ _ Hh Hp E2) as (Hs & Hf2 & Hno).
  destruct v as [[e|u]|e|]; [|by destruct (Hno u)|..]; intros [= <- _]; (split; [by trans n1|done]).
Qed.

(** A sequence of messages, with the readings of the clock. *)
Definition handle_all (msgs : list ((nat → Z) * Z * bytes)) : go (Node DB) unit :=
  for_each msgs (λ '(clock, now, data), handleBlockMessage clock now data).

Lemma handle_all_same msgs n n' r :
  0 <= nd_finalizedHeight n → handle_all msgs n = (n', r) → same_position n n' ∧ 0 <= nd_finalizedHeight n'.
Proof.
  revert n. induction msgs as [|[[clock now] data] msgs IH]; intros n Hf; [by intros [= <- _]|].
  unfold handle_all. cbn [for_each]. unfold mbind, go_bind.
  destruct (handleBlockMessage clock now data n) as [n1 x] eqn:E.
  destruct (handleBlockMessage_same _ _ _ _ _ _ Hf E) as [Hs Hf1].
  pose proof (finalized_by_nonneg data _ Hf) as Hf2. rewrite <- Hf1 in Hf2.
  destruct x as [u|e|]; [|by intros [= <- _]..]. intros Hr.
  destruct (IH n1 Hf2 Hr) as [Hs' Hf']. split; [by trans n1|done].
Qed.
End handlers.

(** *** Copying maps *)

(** A loop that puts the entries of a map into a field. *)
Section put_each.
Context {K V S : Type} `{Countable K} (view : S → gmap K V) (upd : gmap K V → S → S) (put : K → V → S → S).
Context (Hput : ∀ k v s, put k v s = upd (<[k := v]> (view s)) s) (Hid : ∀ s, upd (view s) s = s).
Context (Hview : ∀ m s, view (upd m s) = m) (Hupd : ∀ m m' s, upd m (upd m' s) = upd m s).

Lemma put_each_list l s :
  NoDup l.*1 → for_each l (λ e, modify (put e.1 e.2)) s = (upd (list_to_map l ∪ view s) s, Ok tt).
Proof.
  revert s. induction l as [|[k v] l IH]; intros s Hn; cbn [for_each].
  { cbn [list_to_map foldr]. by rewrite map_empty_union, Hid. }
  rewrite fmap_cons in Hn. apply NoDup_cons in Hn as [Hk Hn].
  rewrite (go_bind_ok _ _ s (put k v s) tt) by done. rewrite IH by done.
  by rewrite Hput, Hview, Hupd, insert_to_map.
Qed.

Lemma put_each_map (m : gmap K V) s :
  for_each (map_to_list m) (λ e, modify (put e.1 e.2)) s = (upd (m ∪ view s) s, Ok tt).
Proof. rewrite put_each_list by apply NoDup_fst_map_to_list. by rewrite list_to_map_to_list. Qed.
End put_each.

Definition mem_with_accounts (m : gmap Address Account) (s : InMemoryState) : InMemoryState :=
  mkInMemoryState m (kvstore s) (smt s) (snapshots s).
Definition mem_with_kv (m : gmap string bytes) (s : InMemoryState) : InMemoryState :=
  mkInMemoryState (accounts s) m (smt s) (snapshots s).
Definition cache_with_accounts (m : gmap Address Account) (s : PersistentState) : PersistentState :=
  mkPersistentState m (ps_kvstore s) (ps_root s).
Definition cache_with_kv (m : gmap string bytes) (s : PersistentState) : PersistentState :=
  mkPersistentState (ps_cache s) m (ps_root s).

Lemma mem_put_accounts (m : gmap Address Account) (s : InMemoryState) :
  for_each (map_to_list m) (λ e, SetAccount e.1 (Fresh e.2)) s = (mem_with_accounts (m ∪ accounts s) s, Ok tt).
Proof. apply (put_each_map accounts mem_with_accounts acc_put); done || by intros []. Qed.
Lemma mem_put_kv (m : gmap string bytes) (s : InMemoryState) :
  for_each (map_to_list m) (λ e, SetBytes e.1 e.2) s = (mem_with_kv (m ∪ kvstore s) s, Ok tt).
Proof. apply (put_each_map kvstore mem_with_kv kv_put); done || by intros []. Qed.
Lemma cache_put_accounts (m : gmap Address Account) (s : PersistentState) :
  for_each (map_to_list m) (λ e, SetAccount e.1 (Fresh e.2)) s = (cache_with_accounts (m ∪ ps_cache s) s, Ok tt).
Proof. apply (put_each_map ps_cache cache_with_accounts acc_put); done || by intros []. Qed.
Lemma cache_put_kv (m : gmap string bytes) (s : PersistentState) :
  for_each (map_to_list m) (λ e, SetBytes e.1 e.2) s = (cache_with_kv (m ∪ ps_kvstore s) s, Ok tt).
Proof. apply (put_each_map ps_kvstore cache_with_kv kv_put); done || by intros []. Qed.

(** The steps of a run. *)
Lemma zoom_ok {S T A} (get : S → T) (put : T → S → S) (m : go T A) s t r :
  m (get s) = (t, r) → zoom get put m s = (put t s, r).
Proof. intros E. unfold zoom. by rewrite E. Qed.

Section loading.
Context {DB Tx : Type} `{BoltDB DB Tx} `{Hasher} `{Ed25519}.
Implicit Types n : Node DB.

Lemma on_cache_ok {A} (m : go PersistentState A) n ps db ps' r :
  nd_persistent n = Some (ps, db) → m ps = (ps', r) → on_cache m n = (with_persistent (Some (ps', db)) n, r).
Proof. intros En Em. unfold on_cache, on_persistent, zoom. rewrite En. cbn [fst snd]. by rewrite Em. Qed.

Lemma on_disk_ok {A} (m : go DB A) n ps db db' r :
  nd_persistent n = Some (ps, db) → m db = (db', r) → on_disk m n = (with_persistent (Some (ps, db')) n, r).
Proof. intros En Em. unfold on_disk, on_persistent, zoom. rewrite En. cbn [fst snd]. by rewrite Em. Qed.

Lemma on_persistent_ok {A} (m : go (PersistentState * DB) A) n p p' r :
  nd_persistent n = Some p → m p = (p', r) → on_persistent m n = (with_persistent (Some p') n, r).
Proof. intros En Em. unfold on_persistent. by rewrite En, Em. Qed.

Lemma with_persistent_same n p : nd_persistent n = p → with_persistent p n = n.
Proof. intros <-. by destruct n. Qed.

(** Reading without a change. *)
Lemma on_cache_gets {A} (f : PersistentState → A) n ps db :
  nd_persistent n = Some (ps, db) → on_cache (gets f) n = (n, Ok (f ps)).
Proof. intros En. rewrite (on_cache_ok _ _ ps db ps (Ok (f ps)) En) by done. by rewrite with_persistent_same. Qed.

Lemma on_disk_read {A} (m : go DB A) n ps db r :
  nd_persistent n = Some (ps, db) → m db = (db, r) → on_disk m n = (n, r).
Proof. intros En Em. rewrite (on_disk_ok _ _ ps db db r En Em). by rewrite with_persistent_same. Qed.

Lemma on_state_ok {A} (m : go InMemoryState A) n s r : m (nd_state n) = (s, r) → on_state m n = (with_state s n, r).
Proof. apply zoom_ok. Qed.

Lemma has_persistent_some n p : nd_persistent n = Some p → has_persistent n = (n, Ok true).
Proof. intros En. unfold has_persistent, gets. by rewrite En, bool_decide_eq_true_2 by eauto. Qed.

Lemma with_state_twice s s' n : with_state s (with_state s' n) = with_state s n.
Proof. done. Qed.

(** The state that results from copying the cache. *)
Definition loaded (ps : PersistentState) (s : InMemoryState) (t : SMT) : InMemoryState :=
  mkInMemoryState (ps_cache ps ∪ accounts s) (ps_kvstore ps ∪ kvstore s) t (snapshots s).

Lemma copy_from_persistent_ok a b c n ps db t :
  nd_persistent n = Some (ps, db) →
  build_smt (ps_cache ps ∪ accounts (nd_state n)) (ps_kvstore ps ∪ kvstore (nd_state n)) NewSMT = (t, Ok tt) →
  copy_from_persistent a b c n = (with_state (loaded ps (nd_state n) t) n, Ok tt).
Proof.
  intros En Ht. unfold copy_from_persistent.
  rewrite (go_bind_ok _ _ _ _ _ (on_cache_gets ps_cache n ps db En)).
  rewrite (go_bind_ok _ _ _ _ _ (wrap_ok _ _ _ _ _ (on_state_ok _ n _ _ (mem_put_accounts _ _)))).
  set (n1 := with_state _ n).
  rewrite (go_bind_ok _ _ _ _ _ (on_cache_gets ps_kvstore n1 ps db En)).
  rewrite (go_bind_ok _ _ _ _ _ (wrap_ok _ _ _ _ _ (on_state_ok _ n1 _ _ (mem_put_kv _ _)))).
  assert (Commit (nd_state (with_state (mem_with_kv (ps_kvstore ps ∪ kvstore (nd_state n1)) (nd_state n1)) n1))
    = (loaded ps (nd_state n) t, Ok (Root t))) as Hc by (unfold Commit; cbn; by rewrite Ht).
  by rewrite (go_bind_ok _ _ _ _ _ (wrap_ok _ _ _ _ _ (on_state_ok _ _ _ _ Hc))).
Qed.
End loading.

(** *** Committing and restarting *)

Section restart.
Context {DB Tx : Type} `{BoltLaws DB Tx, !BoltReliable DB Tx} `{Hasher} `{Ed25519}.
Context (Hhash : ∀ data, ∃ h, hash_data data = Ok h).
Implicit Types n : Node DB.

(** The cache after the state has been copied into it. *)
Definition synced (s : InMemoryState) (ps : PersistentState) (root : Hash) : PersistentState :=
  mkPersistentState (accounts s ∪ ps_cache ps) (kvstore s ∪ ps_kvstore ps) root.

Lemma accounts_tree (accs : gmap Address Account) (kvs : gmap string bytes) :
  map_Forall (λ _, Account_wf) accs → ∃ t, build_smt accs kvs NewSMT = (t, Ok tt).
Proof. intros Hwf. apply (build_smt_ok Hhash). intros a acc Ha. by apply Hwf in Ha as [? _]. Qed.

Lemma CommitState_ok n ps db accs kvs r :
  nd_persistent n = Some (ps, db) → holds db accs kvs r →
  map_Forall (λ _, Account_wf) (accounts (nd_state n)) → map_Forall (λ _, Account_wf) (ps_cache ps) →
  kv_storable (kvstore (nd_state n)) → kv_storable (ps_kvstore ps) →
  ∃ t t2 db', let s := nd_state n in let ps' := synced s ps (Root t) in
    build_smt (accounts s ∪ ps_cache ps) (kvstore s ∪ ps_kvstore ps) NewSMT = (t, Ok tt) ∧
    build_smt (accounts s) (kvstore s) NewSMT = (t2, Ok tt) ∧
    CommitState n = (with_state (mkInMemoryState (accounts s) (kvstore s) t2 (snapshots s))
                       (with_persistent (Some (ps', db')) n), Ok (Root t2)) ∧
    db_buckets db' = persisted_image ps' (Root t) (db_buckets db).
Proof.
  intros En Hdb Ha Hc Hk Hkc. set (s := nd_state n).
  assert (map_Forall (λ _, Account_wf) (accounts s ∪ ps_cache ps)) as Hwf by (by apply map_Forall_union_2).
  assert (kv_storable (kvstore s ∪ ps_kvstore ps)) as Hkv by (by apply map_Forall_union_2).
  destruct (accounts_tree _ (kvstore s ∪ ps_kvstore ps) Hwf) as [t Ht]. destruct (accounts_tree _ (kvstore s) Ha) as [t2 Ht2].
  destruct (persist_all_run (synced s ps (Root t)) (Root t) db accs kvs r Hdb Hwf Hkv) as (db' & Hu & Hb).
  exists t, t2, db'. split; [done|]. split; [done|]. split; [|done]. unfold CommitState.
  rewrite (go_bind_ok _ _ _ _ _ (has_persistent_some n _ En)). cbn [when].
  erewrite go_bind_ok; [apply (on_state_ok Commit); unfold Commit; fold s in Ht2; cbn [nd_state with_persistent]; fold s; by rewrite Ht2|].
  rewrite (go_bind_ok _ _ n n (accounts s)) by (by destruct n).
  rewrite (go_bind_ok _ _ _ _ _ (wrap_ok _ _ _ _ _ (on_cache_ok _ n ps db _ _ En (cache_put_accounts _ _)))).
  set (n1 := with_persistent _ n). rewrite (go_bind_ok _ _ n1 n1 (kvstore s)) by done.
  rewrite (go_bind_ok _ _ _ _ _ (wrap_ok _ _ _ _ _ (on_cache_ok _ n1 _ db _ _ eq_refl (cache_put_kv _ _)))).
  set (n2 := with_persistent _ n1).
  assert (PersistentState_Commit (cache_with_kv (kvstore s ∪ ps_kvstore ps) (cache_with_accounts (accounts s ∪ ps_cache ps) ps), db)
    = ((synced s ps (Root t), db'), Ok (Root t))) as Hcommit.
  { unfold PersistentState_Commit. cbn [cache_with_kv cache_with_accounts ps_cache ps_kvstore]. rewrite Ht.
    change (mkPersistentState (accounts s ∪ ps_cache ps) (kvstore s ∪ ps_kvstore ps) (Root t)) with (synced s ps (Root t)).
    by rewrite Hu. }
  by rewrite (go_bind_ok _ _ _ _ _ (wrap_ok _ _ _ _ _ (on_persistent_ok _ n2 _ _ _ eq_refl Hcommit))).
Qed.

(** What a view of one value says depends on its bucket. *)
Lemma View_read_frame {A} name key missing absent (k : bytes → go Tx A) (db db' : DB) :
  (∀ d t t', (k d t).2 = (k d t').2) → db_buckets db' !! name = db_buckets db !! name →
  (View (read_value name key missing absent ≫= k) db').2 = (View (read_value name key missing absent ≫= k) db).2.
Proof.
  intros Hk Hb. unfold View, mbind, go_bind. cbn [snd].
  pose proof (read_value_frame name key missing absent db db' Hb) as Hr.
  destruct (read_value name key missing absent (db_begin db)) as [t r], (read_value name key missing absent (db_begin db')) as [t' r'].
  cbn [snd] in Hr. subst r'. destruct r; [apply Hk|done..].
Qed.

Lemma LatestCheckpoint_frame (db db' : DB) :
  db_buckets db' !! checkpointsBucket = db_buckets db !! checkpointsBucket →
  (LatestCheckpoint db').2 = (LatestCheckpoint db).2.
Proof. apply View_read_frame. intros d t t'. unfold decoded_checkpoint. by destruct (decodeCheckpoint d). Qed.

Lemma LoadTip_frame (db db' : DB) :
  db_buckets db' !! chainBucket = db_buckets db !! chainBucket → (LoadTip db').2 = (LoadTip db).2.
Proof. apply View_read_frame. intros d t t'. unfold wrap, lift. by destruct (decodeHeader d). Qed.

Lemma SnapshotExists_frame h (db db' : DB) :
  db_buckets db' !! snapshotsBucket = db_buckets db !! snapshotsBucket → (SnapshotExists h db').2 = (SnapshotExists h db).2.
Proof.
  intros Hb. unfold SnapshotExists. rewrite !(View_bucket snapshotsBucket (λ b, mret (bool_decide (is_Some (default ∅ b !! heightKey h))))).
  by rewrite Hb.
Qed.

(** The position that [Recover] takes from the tip. *)
Definition at_tip (tip : error + BlockHeader) (n : Node DB) : Node DB :=
  match tip with inr h => with_tip (h_Height h) (hash_or_zero (HeaderHash h)) n | inl _ => n end.

(** [Recover] up to the comparison with the checkpoint. *)
Lemma Recover_loads n ps db tip t :
  nd_persistent n = Some (ps, db) → ps_root ps ≠ ZeroHash → try LoadTip db = (db, Ok tip) →
  build_smt (ps_cache ps ∪ accounts (nd_state n)) (ps_kvstore ps ∪ kvstore (nd_state n)) NewSMT = (t, Ok tt) →
  Recover n =
    (cp ← try (on_disk LatestCheckpoint);
     match cp with
     | inl _ => mret tt
     | inr cp => if bool_decide (ps_root ps = cp_StateRoot cp) then mret tt else recover_from_snapshot tip cp
     end) (with_state (loaded ps (nd_state n) t) (at_tip tip n)).
Proof.
  intros En Hz Htip Ht. unfold Recover. rewrite (go_bind_ok _ _ n n (Some (ps, db))) by (unfold gets; by rewrite En).
  unfold PersistentState_GetStateRoot.
  assert (try (on_disk LoadTip) n = (n, Ok tip)) as Hd.
  { unfold try in *. destruct (LoadTip db) as [d r] eqn:El.
    assert (d = db) as -> by (by destruct r; injection Htip as <-).
    rewrite (on_disk_read _ n ps db r En El). by destruct r; injection Htip as <-. }
  rewrite (go_bind_ok _ _ _ _ _ Hd).
  rewrite (go_bind_ok _ _ n (at_tip tip n) tt) by (by destruct tip).
  rewrite bool_decide_eq_false_2 by done.
  rewrite (go_bind_ok _ _ _ (with_state (loaded ps (nd_state n) t) (at_tip tip n)) tt); [done|].
  assert (nd_state (at_tip tip n) = nd_state n ∧ nd_persistent (at_tip tip n) = nd_persistent n) as [Es Ep] by (by destruct tip).
  rewrite <- Es. apply (copy_from_persistent_ok _ _ _ _ ps db); [by rewrite Ep|by rewrite Es].
Qed.

(** [New] on a database that holds a state. *)
Lemma Node_New_recovers cfg vm (db : DB) accs kvs root :
  holds db accs kvs (Some root) → map_Forall (λ _, Account_wf) accs → root ≠ ZeroHash →
  ∃ db', db_buckets db' = db_buckets db ∧ let ps := mkPersistentState accs kvs root in
    Node_New cfg (Some db) (Ok tt) (Ok vm) (Ok tt) =
      match wrap "crash recovery" Recover (fresh_node cfg vm (Some (ps, db')) (cfg_IndexerEnabled cfg)) with
      | (n, Ok _) => Ok n
      | (_, Err e) => Err e
      | (_, Panic) => Panic
      end.
Proof.
  intros Hdb Hwf Hz. destruct (reopen_loads db accs kvs root Hdb Hwf Hz) as (db' & Hopen & Hb).
  exists db'. split; [done|]. unfold Node_New, open_persistent. rewrite (wrap_ok _ _ _ _ _ Hopen). cbn [mbind res_bind].
  rewrite bool_decide_eq_true_2 by eauto. cbn [andb].
  by destruct (0 <? cfg_P2PPort cfg), (cfg_IndexerEnabled cfg).
Qed.

Lemma decodeHeader_total data : decodeHeader data ≠ Panic.
Proof.
  unfold decodeHeader, expectedHeaderLen. destruct (decide (length data < 244)%nat); [by rewrite bool_decide_eq_true_2|].
  rewrite bool_decide_eq_false_2 by done. unfold Uint64. rewrite !length_drop, !bool_decide_eq_false_2 by lia. done.
Qed.

(** A read that cannot panic, as a value. *)
Lemma try_view {A} name key missing absent (k : bytes → go Tx A) (db : DB) :
  (∀ d t, (k d t).2 ≠ Panic) →
  let m := View (read_value name key missing absent ≫= k) in
  ∃ x, try m db = (db, Ok x) ∧ ∀ a, (m db).2 = Ok a ↔ x = inr a.
Proof.
  intros Hk m. assert ((m db).2 ≠ Panic) as Hp.
  { unfold m, View, read_value, Bucket, gets, mbind, go_bind. cbn [snd].
    destruct (tx_buckets (db_begin db) !! name) as [b|]; [|by intros ?]. destruct (b !! key) as [d|]; [|by intros ?]. apply Hk. }
  assert ((m db).1 = db) as Hs by done. unfold try. clearbody m. destruct (m db) as [d r]. cbn [fst snd] in *. subst d.
  destruct r as [h|e|]; [exists (inr h)|exists (inl e)|done]; (split; [done|]); intros x; split; congruence.
Qed.

Lemma LoadTip_total (db : DB) : ∃ tip, try LoadTip db = (db, Ok tip) ∧ ∀ h, (LoadTip db).2 = Ok h ↔ tip = inr h.
Proof.
  apply try_view. intros d t. unfold wrap, lift. pose proof (decodeHeader_total d). by destruct (decodeHeader d).
Qed.

Lemma LatestCheckpoint_total (db : DB) :
  ∃ cp, try LatestCheckpoint db = (db, Ok cp) ∧ ∀ c, (LatestCheckpoint db).2 = Ok c ↔ cp = inr c.
Proof. apply try_view. intros d t. unfold decoded_checkpoint. by destruct (decodeCheckpoint d). Qed.

(** Trying a read on the node's database. *)
Lemma try_on_disk {A} (m : go DB A) n ps db (x : error + A) :
  nd_persistent n = Some (ps, db) → try m db = (db, Ok x) → try (on_disk m) n = (n, Ok x).
Proof.
  intros En Hm. unfold try in *. destruct (m db) as [d r] eqn:E.
  assert (d = db) as -> by (by destruct r; injection Hm as <-).
  rewrite (on_disk_read _ n ps db r En E). by destruct r; injection Hm as <-.
Qed.

(** A restart of a node on the database that [CommitState] left. *)
Lemma restart_runs cfg vm n ps db r n' root ps' db' :
  nd_persistent n = Some (ps, db) → holds db (ps_cache ps) (ps_kvstore ps) r →
  map_Forall (λ _, Account_wf) (accounts (nd_state n)) → map_Forall (λ _, Account_wf) (ps_cache ps) →
  kv_storable (kvstore (nd_state n)) → kv_storable (ps_kvstore ps) →
  CommitState n = (n', Ok root) → nd_persistent n' = Some (ps', db') → ps_root ps' ≠ ZeroHash →
  ∃ tip (cp : error + Checkpoint) t m db'', (∀ h, (LoadTip db).2 = Ok h ↔ tip = inr h) ∧ (∀ c, (LatestCheckpoint db).2 = Ok c ↔ cp = inr c) ∧
    (∀ h, (SnapshotExists h db'').2 = (SnapshotExists h db).2) ∧
    nd_persistent m = Some (ps', db'') ∧ nd_state m = loaded ps' NewInMemoryState t ∧ Root t = ps_root ps' ∧
    (∀ h, tip = inr h → nd_currentHeight m = h_Height h ∧ nd_currentTipHash m = hash_or_zero (HeaderHash h)) ∧
    Node_New cfg (Some db') (Ok tt) (Ok vm) (Ok tt) =
      match wrap "crash recovery" (match cp with
            | inl _ => mret tt
            | inr cp => if bool_decide (ps_root ps' = cp_StateRoot cp) then mret tt else recover_from_snapshot tip cp
            end) m with
      | (n, Ok _) => Ok n
      | (_, Err e) => Err e
      | (_, Panic) => Panic
      end.
Proof.
  intros En Hdb Ha Hc Hk Hkc Hrun En' Hz.
  destruct (CommitState_ok n ps db _ _ r En Hdb Ha Hc Hk Hkc) as (t & t2 & db1 & Ht & Ht2 & Hrun' & Hb).
  rewrite Hrun in Hrun'. injection Hrun' as -> _. cbn [nd_persistent with_state with_persistent] in En'.
  injection En' as <- <-. cbn [synced ps_root ps_cache ps_kvstore] in *.
  pose proof (persisted_holds _ _ _ _ _ _ _ Hdb Hb) as Hnew. cbn [synced ps_root ps_cache ps_kvstore] in Hnew.
  rewrite <- !map_union_assoc, !map_union_idemp in Hnew.
  assert (map_Forall (λ _, Account_wf) (accounts (nd_state n) ∪ ps_cache ps)) as Hwf by (by apply map_Forall_union_2).
  destruct (Node_New_recovers cfg vm _ _ _ _ Hnew Hwf Hz) as (db2 & Hb2 & ->).
  set (ps' := mkPersistentState _ _ _). set (m0 := fresh_node cfg vm (Some (ps', db2)) (cfg_IndexerEnabled cfg)).
  destruct (LoadTip_total db2) as (tip & Htip & Htip'). destruct (LatestCheckpoint_total db2) as (cp & Hcp & Hcp').
  assert (∀ name, name ≠ accountsBucket → name ≠ kvstoreBucket → name ≠ metaBucket →
    db_buckets db2 !! name = db_buckets db !! name) as Hother by (intros; by rewrite Hb2, Hb, persisted_other).
  exists tip, cp, t, (with_state (loaded ps' NewInMemoryState t) (at_tip tip m0)), db2.
  rewrite (LoadTip_frame db db2) in Htip' by (by apply Hother).
  rewrite (LatestCheckpoint_frame db db2) in Hcp' by (by apply Hother).
  split; [done|]. split; [done|]. split; [intros h; by apply SnapshotExists_frame, Hother|].
  split; [by destruct tip|]. split; [done|]. split; [done|]. split; [by intros h ->|].
  unfold wrap. rewrite (Recover_loads m0 ps' db2 tip t); [|done..| ].
  2:{ cbn. by rewrite !map_union_empty. }
  assert (nd_persistent (with_state (loaded ps' (nd_state m0) t) (at_tip tip m0)) = Some (ps', db2)) as Em by (by destruct tip).
  rewrite (go_bind_ok _ _ _ _ _ (try_on_disk LatestCheckpoint _ ps' db2 cp Em Hcp)).
  reflexivity.
Qed.
End restart.

(** *** Replay *)

(** What re-execution of the system transitions alone has to give: every
    stored header names the root that they lead to. *)
Inductive replayed `{Hasher} (headers : Z → res BlockHeader) : nat → Z → InMemoryState → InMemoryState → Prop :=
  | replayed_done h s : replayed headers 0 h s s
  | replayed_step count h (s s1 s2 s' : InMemoryState) header out :
      headers h = Ok header → BeginBlock h s = (s1, Ok out) → Commit s1 = (s2, Ok (h_StateRoot header)) →
      replayed headers count (h + 1) s2 s' → replayed headers (S count) h s s'.

(** Where a replay ends. *)
Definition replay_end {DB Tx} `{BoltDB DB Tx} `{Hasher} (height : Z) (header : BlockHeader) (n : Node DB) : Prop :=
  nd_currentHeight n = height ∧ HeaderHash header = Ok (nd_currentTipHash n) ∧
  GetStateRoot (nd_state n) = h_StateRoot header ∧
  ∃ ps db, nd_persistent n = Some (ps, db) ∧ LoadTip db = (db, Ok header).

Section replay.
Context {DB Tx : Type} `{BoltLaws DB Tx} `{Hasher} `{Ed25519}.
Implicit Types n : Node DB.

Lemma decodeHeader_wf data h : decodeHeader data = Ok h → BlockHeader_wf h ∧ stored_header h = h.
Proof.
  unfold decodeHeader, Uint64. rewrite !length_drop.
  destruct (decide (length data < expectedHeaderLen)%nat); [by rewrite bool_decide_eq_true_2|].
  rewrite !bool_decide_eq_false_2 by (unfold expectedHeaderLen in *; lia). cbn [mbind res_bind]. intros [= <-].
  assert (∀ k, (k <= 236)%nat → fits 8 (unbe (take 8 (drop k data)))) as Hf.
  { intros k Hk. apply unbe_fits. rewrite length_take, length_drop. unfold expectedHeaderLen in *. lia. }
  split; [|done]. split_and!; [apply (Hf 0%nat)|apply (Hf 8%nat)|apply (Hf 208%nat)|apply (Hf 216%nat)]; lia.
Qed.

Lemma LoadBlockHeader_frame h (db db' : DB) :
  db_buckets db' !! blocksBucket = db_buckets db !! blocksBucket → (LoadBlockHeader h db').2 = (LoadBlockHeader h db).2.
Proof. apply View_read_frame. intros d t t'. unfold wrap, lift. by destruct (decodeHeader d). Qed.

Lemma LoadBlockHeader_wf h (db : DB) header :
  (LoadBlockHeader h db).2 = Ok header → BlockHeader_wf header ∧ stored_header header = header.
Proof.
  unfold LoadBlockHeader, View. cbn [snd]. match goal with |- (?m ?t).2 = _ → _ => destruct (m t) as [t' r] eqn:E end.
  cbn [snd]. intros ->.
  apply go_bind_inv in E as (t1 & d & _ & E%wrap_inv). apply lift_inv in E as [_ E]. by apply decodeHeader_wf in E.
Qed.

(** The tip after [StoreTip]. *)
Lemma tip_stored (db db' : DB) header :
  BlockHeader_wf header → db_buckets db' = put_in chainBucket tipKey (encodeHeader header) (db_buckets db) →
  LoadTip db' = (db', Ok (stored_header header)) ∧ db_buckets db' !! blocksBucket = db_buckets db !! blocksBucket.
Proof.
  intros Hwf Hb. split; [|by rewrite Hb, put_in_lookup, decide_False].
  eapply View_read; [eexists; rewrite Hb, put_in_lookup, decide_True by done; split; [done|by rewrite lookup_insert_eq]|].
  intros tx. unfold wrap, lift. by rewrite decode_encode_header.
Qed.

Lemma StoreTip_inv (db db' : DB) header u :
  StoreTip header db = (db', Ok u) → db_buckets db' = put_in chainBucket tipKey (encodeHeader header) (db_buckets db).
Proof.
  intros (tx & Hr & Hb)%Update_inv. apply go_bind_inv in Hr as (t1 & u1 & H1' & H2').
  rewrite Hb. by apply (create_put_inv _ _ _ _ _ _ _ _ H1' H2').
Qed.

Lemma tip_storable header : storable tipKey (encodeHeader header).
Proof. unfold storable, MaxKeySize, MaxValueSize. rewrite encodeHeader_length. vm_compute. repeat split; discriminate || done. Qed.

(** A call on the database, inverted. *)
Lemma on_disk_inv {A} (m : go DB A) n n' ps db a :
  nd_persistent n = Some (ps, db) → on_disk m n = (n', Ok a) →
  ∃ db', m db = (db', Ok a) ∧ n' = with_persistent (Some (ps, db')) n.
Proof.
  intros En. unfold on_disk, on_persistent, zoom. rewrite En. cbn [fst snd].
  destruct (m db) as [db' r]. intros [= <- ->]. by exists db'.
Qed.

Lemma on_state_inv {A} (m : go InMemoryState A) n n' a :
  on_state m n = (n', Ok a) → ∃ s, m (nd_state n) = (s, Ok a) ∧ n' = with_state s n.
Proof. unfold on_state, zoom. destruct (m (nd_state n)) as [s r]. intros [= <- ->]. by exists s. Qed.

(** One turn of the replay. *)
Lemma replay_turn count h n n' ps db :
  nd_persistent n = Some (ps, db) → replay_loop (S count) h n = (n', Ok tt) →
  ∃ header s1 s2 out hash db', (LoadBlockHeader h db).2 = Ok header ∧ BeginBlock h (nd_state n) = (s1, Ok out) ∧
    Commit s1 = (s2, Ok (h_StateRoot header)) ∧ HeaderHash header = Ok hash ∧
    db_buckets db' = put_in chainBucket tipKey (encodeHeader header) (db_buckets db) ∧
    replay_loop count (u64 (h + 1)) (with_persistent (Some (ps, db')) (with_tip h hash (with_state s2 n))) = (n', Ok tt).
Proof.
  intros En Hr. cbn [replay_loop] in Hr.
  apply go_bind_inv in Hr as (n1 & header & Hl%wrap_inv & Hr).
  apply (on_disk_inv _ _ _ ps db _ En) in Hl as (db1 & Hl & ->).
  assert (db1 = db) as -> by (by injection Hl).
  rewrite with_persistent_same in Hr by done.
  apply go_bind_inv in Hr as (n2 & out & Hb%wrap_inv & Hr). apply on_state_inv in Hb as (s1 & Hb & ->).
  apply go_bind_inv in Hr as (n3 & root & Hc%wrap_inv & Hr). apply on_state_inv in Hc as (s2 & Hc & ->).
  apply go_bind_inv in Hr as (n4 & u4 & [-> G]%guard_err_inv & Hr). bool_hyps. subst root.
  apply go_bind_inv in Hr as (n5 & u5 & E5 & Hr). injection E5 as <- _.
  apply go_bind_inv in Hr as (n6 & hash & Hh%wrap_inv & Hr). apply lift_inv in Hh as [-> Hh].
  apply go_bind_inv in Hr as (n7 & u7 & E7 & Hr). injection E7 as <- _.
  apply go_bind_inv in Hr as (n8 & u8 & Ht%wrap_inv & Hr).
  apply (on_disk_inv (StoreTip header) (with_tip h hash (with_state s2 n)) n8 ps db u8 En) in Ht
    as (db' & Ht%StoreTip_inv & ->).
  exists header, s1, s2, out, hash, db'. rewrite Hl. done.
Qed.

Lemma replay_loop_inv count : ∀ h n n' ps db,
  nd_persistent n = Some (ps, db) → 0 <= h → h + Z.of_nat count < 2 ^ 64 → replay_loop count h n = (n', Ok tt) →
  replayed (λ h, (LoadBlockHeader h db).2) count h (nd_state n) (nd_state n') ∧
  ((0 < count)%nat → ∃ header, (LoadBlockHeader (h + Z.of_nat count - 1) db).2 = Ok header ∧
     replay_end (h + Z.of_nat count - 1) header n').
Proof.
  induction count as [|count IH]; intros h n n' ps db En Hh Hc Hr.
  { injection Hr as <-. split; [constructor|lia]. }
  destruct (replay_turn _ _ _ _ _ _ En Hr) as (header & s1 & s2 & out & hash & db' & Hl & Hb & Hcm & Hhash & Hdb & Hr').
  destruct (LoadBlockHeader_wf _ _ _ Hl) as [Hwf Hst].
  destruct (tip_stored db db' header Hwf Hdb) as [Htip Hblocks]. rewrite Hst in Htip.
  rewrite u64_small in Hr' by (unfold is_u64; lia). set (n1 := with_persistent _ _) in *.
  destruct (IH (h + 1) n1 n' ps db' eq_refl ltac:(lia) ltac:(lia) Hr') as [Hrep Hend]. split.
  - econstructor; [exact Hl|exact Hb|exact Hcm|]. change s2 with (nd_state n1).
    clear -Hrep Hblocks. induction Hrep; [constructor|]. econstructor; [|done..].
    by rewrite <- (LoadBlockHeader_frame _ db db').
  - intros _. destruct count as [|count].
    + injection Hr' as <-. exists header. replace (h + Z.of_nat 1 - 1) with h by lia. split; [done|].
      split; [done|]. split; [done|]. split; [symmetry; by apply Commit_root in Hcm|]. by exists ps, db'.
    + destruct Hend as (hd & Hhd & He); [lia|]. exists hd. rewrite (LoadBlockHeader_frame _ db db') in Hhd by done.
      by replace (h + Z.of_nat (S (S count)) - 1) with (h + 1 + Z.of_nat (S count) - 1) by lia.
Qed.

(** Without failures of the disk or the hasher, what can be replayed is. *)
Lemma replay_loop_complete `{!BoltReliable DB Tx} (Hhash : ∀ data, ∃ h, hash_data data = Ok h) count : ∀ h n ps db s',
  nd_persistent n = Some (ps, db) → 0 <= h → h + Z.of_nat count < 2 ^ 64 →
  replayed (λ h, (LoadBlockHeader h db).2) count h (nd_state n) s' →
  ∃ n', replay_loop count h n = (n', Ok tt) ∧ nd_state n' = s'.
Proof.
  induction count as [|count IH]; intros h n ps db s' En Hh Hc Hr.
  { inversion Hr; subst. by exists n. }
  inversion Hr as [|? ? ? s1 s2 ? header out Hl Hb Hcm Hrest]; subst.
  destruct (Hhash (header_preimage header)) as [hash Hhh].
  destruct (store_one (CreateBucketIfNotExists chainBucket;; Put chainBucket tipKey (encodeHeader header))
    chainBucket tipKey (encodeHeader header) db eq_refl) as (db' & Hs & Hdb); [done| |].
  { apply tip_storable. }
  destruct (LoadBlockHeader_wf _ _ _ Hl) as [Hwf Hst]. destruct (tip_stored db db' header Hwf Hdb) as [_ Hblocks].
  set (n1 := with_persistent (Some (ps, db')) (with_tip h hash (with_state s2 n))).
  destruct (IH (h + 1) n1 ps db' s' eq_refl) as (n' & Hrun & Hs'); [lia|lia| |].
  { change (nd_state n1) with s2. clear -Hrest Hblocks. induction Hrest; [constructor|]. econstructor; [|done..].
    by rewrite (LoadBlockHeader_frame _ db db'). }
  exists n'. split; [|done]. cbn [replay_loop].
  erewrite go_bind_ok; [|apply wrap_ok, (on_disk_read _ n ps db (Ok header) En); by rewrite <- Hl].
  erewrite go_bind_ok; [|apply wrap_ok, on_state_ok, Hb]. erewrite go_bind_ok; [|apply wrap_ok, on_state_ok, Hcm].
  rewrite bool_decide_eq_true_2 by done. cbn [negb]. erewrite go_bind_ok; [|reflexivity].
  erewrite go_bind_ok; [|reflexivity]. erewrite go_bind_ok; [|apply wrap_ok; unfold lift, HeaderHash; by rewrite Hhh].
  erewrite go_bind_ok; [|reflexivity]. erewrite go_bind_ok; [|apply wrap_ok, (on_disk_ok (StoreTip header) (with_tip h hash (with_state s2 n)) ps db db' _ En Hs)].
  rewrite u64_small by (unfold is_u64; lia). exact Hrun.
Qed.
End replay.

(** *** Fast sync *)

Lemma holds_frame {DB Tx} `{BoltDB DB Tx} (db db' : DB) accs kvs r name k v :
  holds db accs kvs r → name ≠ accountsBucket → name ≠ kvstoreBucket → name ≠ metaBucket →
  db_buckets db' = put_in name k v (db_buckets db) → holds db' accs kvs r.
Proof.
  intros [Ha Hk Hm] N1 N2 N3 Hb.
  split; rewrite Hb, put_in_lookup, decide_False by (by apply not_eq_sym); done.
Qed.

(** Restoring, loading and storing the tip, on a node whose state is empty. *)
Lemma FastSync_run {DB Tx} `{BoltLaws DB Tx, !BoltReliable DB Tx} `{Hasher} (n : Node DB) ps db cp data target
    accs kvs root t db1 :
  nd_persistent n = Some (ps, db) → accounts (nd_state n) = ∅ → kvstore (nd_state n) = ∅ →
  SnapshotHash data = cp_SnapshotHash cp → cp_StateRoot cp = root → Checkpoint_wf cp → target <= cp_Height cp →
  RestoreFromSnapshot data (cp_SnapshotHash cp) (ps, db) = ((mkPersistentState accs kvs root, db1), Ok tt) →
  build_smt accs kvs NewSMT = (t, Ok tt) →
  ∃ n' db', FastSyncFromCheckpoint cp data target n = (n', Ok tt) ∧
    nd_state n' = mkInMemoryState accs kvs t (snapshots (nd_state n)) ∧
    nd_persistent n' = Some (mkPersistentState accs kvs root, db') ∧
    nd_currentHeight n' = cp_Height cp ∧ nd_currentTipHash n' = cp_BlockHash cp ∧
    db_buckets db' = put_in chainBucket tipKey (encodeHeader (synced_tip cp)) (db_buckets db1).
Proof.
  intros En Ea Ek Hh Hr Hwf Ht Hres Hsmt.
  destruct (store_one (CreateBucketIfNotExists chainBucket;; Put chainBucket tipKey (encodeHeader (synced_tip cp)))
    chainBucket tipKey (encodeHeader (synced_tip cp)) db1 eq_refl) as (db' & Hs & Hdb); [done|apply tip_storable|].
  eexists _, db'. split; [|split; [|split; [|split; [|split; [|exact Hdb]]]]]. 
  { unfold FastSyncFromCheckpoint. rewrite (go_bind_ok _ _ _ _ _ (has_persistent_some n _ En)).
    rewrite bool_decide_eq_true_2 by done. cbn [negb]. do 2 (erewrite go_bind_ok; [|reflexivity]).
    erewrite go_bind_ok; [|apply wrap_ok, (on_persistent_ok _ _ _ _ _ En Hres)].
    erewrite go_bind_ok; [|apply (copy_from_persistent_ok _ _ _ _ (mkPersistentState accs kvs root) db1 t); [done|]].
    2:{ cbn [nd_state with_persistent ps_cache ps_kvstore]. rewrite Ea, Ek. by rewrite !map_union_empty. }
    set (n1 := with_state _ _).
    erewrite go_bind_ok; [|by apply (on_cache_gets PersistentState_GetStateRoot n1 (mkPersistentState accs kvs root) db1)].
    unfold PersistentState_GetStateRoot. cbn [ps_root]. rewrite Hr, bool_decide_eq_true_2 by done. cbn [negb].
    do 2 (erewrite go_bind_ok; [|reflexivity]).
    erewrite go_bind_ok; [|apply wrap_ok, (on_disk_ok (StoreTip (synced_tip cp)) (with_tip (cp_Height cp) (cp_BlockHash cp) n1)
      (mkPersistentState accs kvs root) db1 db' _ eq_refl Hs)].
    rewrite (proj2 (Z.ltb_ge _ _) Ht). reflexivity. }
  all: cbn; try done. unfold loaded. cbn. by rewrite Ea, Ek, !map_union_empty.
Qed.

(** ** Properties *)

(** C14: a fork is preferred exactly when it is higher: for all heights, the
    comparison of weights with its tie-break is the comparison of heights, so
    the finality threshold takes no part in fork choice. *)
Theorem fork_choice_by_height (height currentHeight : Z) :
  is_u64 height → is_u64 currentHeight → better_fork height currentHeight = (currentHeight <? height).
Proof. intros [H1 _] [H2 _]. by apply better_fork_higher. Qed.

(** C15: blocks that arrive by gossip are never adopted. Whatever messages
    arrive, in whatever order and at whatever times, the height, the tip, the
    epoch, the database, the pool, the reorganisation buffer and everything
    the node sends stay as they are: the message format leaves out the commit
    proof without which validation rejects every block. Only the state that
    validation runs on and the finalized height change. *)
Theorem gossip_adopts_nothing {DB Tx} `{BoltDB DB Tx} `{Hasher} `{Ed25519}
    (msgs : list ((nat → Z) * Z * bytes)) (n n' : Node DB) (r : res unit) :
  0 <= nd_finalizedHeight n → handle_all msgs n = (n', r) →
  nd_currentHeight n' = nd_currentHeight n ∧ nd_currentTipHash n' = nd_currentTipHash n ∧
  nd_currentEpoch n' = nd_currentEpoch n ∧ nd_persistent n' = nd_persistent n ∧ nd_mempool n' = nd_mempool n ∧
  nd_reorgBuffer n' = nd_reorgBuffer n ∧ nd_effects n' = nd_effects n.
Proof. intros Hf Hr. destruct (handle_all_same msgs n n' r Hf Hr) as [-> _]. done. Qed.

(** The finalized height is taken from unvalidated blocks: after a message
    with a block above height 6, whatever becomes of the block, the finalized
    height is six below it, higher or lower than before. *)
Theorem finalized_height_unchecked {DB Tx} `{BoltDB DB Tx} `{Hasher} `{Ed25519} (clock : nat → Z) (now : Z)
    (data : bytes) (block : Block) (n n' : Node DB) (r : res unit) :
  0 <= nd_finalizedHeight n → DecodeBlockMessage data = Ok block → 6 < h_Height (b_Header block) →
  handleBlockMessage clock now data n = (n', r) → nd_finalizedHeight n' = h_Height (b_Header block) - 6.
Proof.
  intros Hf Hd Hh Hr. destruct (handleBlockMessage_same _ _ _ _ _ _ Hf Hr) as [_ ->].
  unfold finalized_by. by rewrite Hd, (proj2 (Z.ltb_lt _ _) Hh).
Qed.

(** C5: what a node commits is what it finds after a restart. On a disk that
    does not fail, [CommitState] succeeds with the root of the in-memory state,
    and a node created on the database it leaves (whose latest checkpoint, if
    any, has the committed root) recovers the accounts and entries of the old
    node together with those that the old one had persisted and dropped since,
    and stands at the stored tip. If nothing was dropped, the state and its
    root are exactly the same. The accounts, keys and values must fit their
    encodings and the database's limits, the committed root must not be zero,
    and the hasher must not fail. *)
Theorem restart_restores_state {DB Tx} `{BoltLaws DB Tx, !BoltReliable DB Tx} `{Hasher}
    (cfg : Config) (vm : VM) (n : Node DB) (ps : PersistentState) (db : DB) (r : option Hash) :
  let s := nd_state n in
  (∀ data, ∃ h, hash_data data = Ok h) →
  nd_persistent n = Some (ps, db) → holds db (ps_cache ps) (ps_kvstore ps) r →
  map_Forall (λ _, Account_wf) (accounts s) → map_Forall (λ _, Account_wf) (ps_cache ps) →
  kv_storable (kvstore s) → kv_storable (ps_kvstore ps) →
  ∃ n' ps' db', CommitState n = (n', Ok (GetStateRoot (nd_state n'))) ∧ nd_persistent n' = Some (ps', db') ∧
    (ps_root ps' ≠ ZeroHash → (∀ cp, (LatestCheckpoint db).2 = Ok cp → cp_StateRoot cp = ps_root ps') →
     ∃ m, Node_New cfg (Some db') (Ok tt) (Ok vm) (Ok tt) = Ok m ∧
       accounts (nd_state m) = accounts s ∪ ps_cache ps ∧ kvstore (nd_state m) = kvstore s ∪ ps_kvstore ps ∧
       GetStateRoot (nd_state m) = ps_root ps' ∧
       (∀ tip, (LoadTip db).2 = Ok tip → nd_currentHeight m = h_Height tip ∧
          nd_currentTipHash m = hash_or_zero (HeaderHash tip))) ∧
    (dom (ps_cache ps) ⊆ dom (accounts s) → dom (ps_kvstore ps) ⊆ dom (kvstore s) →
     accounts s ∪ ps_cache ps = accounts s ∧ kvstore s ∪ ps_kvstore ps = kvstore s ∧
     ps_root ps' = GetStateRoot (nd_state n')).
Proof.
  intros s Hhash En Hdb Ha Hc Hk Hkc.
  destruct (CommitState_ok Hhash n ps db _ _ r En Hdb Ha Hc Hk Hkc) as (t & t2 & db' & Ht & Ht2 & Hrun & Hb).
  eexists _, _, db'. split; [exact Hrun|]. split; [reflexivity|]. split.
  - intros Hz Hcp.
    destruct (restart_runs Hhash cfg vm n ps db r _ _ _ _ En Hdb Ha Hc Hk Hkc Hrun eq_refl Hz)
      as (tip & cp & t' & m & db'' & Htip & Hcps & _ & _ & Hm & Hroot & Hpos & ->).
    exists m. split; [|split; [|split; [|split]]].
    + destruct cp as [e|cp]; [done|]. rewrite (Hcp cp) by (by apply Hcps). by rewrite bool_decide_eq_true_2.
    + rewrite Hm. cbn. by rewrite map_union_empty.
    + rewrite Hm. cbn. by rewrite map_union_empty.
    + rewrite Hm. exact Hroot.
    + intros h Hh. by apply Hpos, Htip.
  - intros Hd Hdk. rewrite (union_dom (accounts s)), (union_dom (kvstore s)) by done. split; [done|]. split; [done|].
    fold s in Ht. rewrite (union_dom (accounts s)), (union_dom (kvstore s)) in Ht by done. fold s in Ht2.
    cbn [nd_state with_state synced ps_root]. unfold GetStateRoot. cbn [smt]. congruence.
Qed.

(** A node whose state has moved on from its latest checkpoint cannot be
    restarted unless a snapshot was stored with the checkpoint: after a commit
    with another root than the checkpoint's, creating a node on the database
    fails. *)
Theorem drifted_node_cannot_restart {DB Tx} `{BoltLaws DB Tx, !BoltReliable DB Tx} `{Hasher}
    (cfg : Config) (vm : VM) (n n' : Node DB) (ps ps' : PersistentState) (db db' : DB) (r : option Hash) (root : Hash)
    (cp : Checkpoint) :
  (∀ data, ∃ h, hash_data data = Ok h) →
  nd_persistent n = Some (ps, db) → holds db (ps_cache ps) (ps_kvstore ps) r →
  map_Forall (λ _, Account_wf) (accounts (nd_state n)) → map_Forall (λ _, Account_wf) (ps_cache ps) →
  kv_storable (kvstore (nd_state n)) → kv_storable (ps_kvstore ps) →
  CommitState n = (n', Ok root) → nd_persistent n' = Some (ps', db') → ps_root ps' ≠ ZeroHash →
  (LatestCheckpoint db).2 = Ok cp → cp_StateRoot cp ≠ ps_root ps' → (SnapshotExists (cp_Height cp) db).2 = Ok false →
  ∃ e, Node_New cfg (Some db') (Ok tt) (Ok vm) (Ok tt) = Err e.
Proof.
  intros Hhash En Hdb Ha Hc Hk Hkc Hrun En' Hz Hcp Hne Hsnap.
  destruct (restart_runs Hhash cfg vm n ps db r _ _ _ _ En Hdb Ha Hc Hk Hkc Hrun En' Hz)
    as (tip & cp' & t' & m & db'' & _ & Hcps & Hse & Hpm & _ & _ & _ & ->).
  apply Hcps in Hcp as ->. rewrite bool_decide_eq_false_2 by done.
  unfold wrap, recover_from_snapshot.
  erewrite go_bind_ok; [|apply (on_disk_read _ m ps' db'' (Ok false) Hpm); by rewrite <- Hsnap, <- Hse].
  by eexists.
Qed.

(** Replay re-executes the system transitions and nothing else. On a disk
    and with a hasher that do not fail, [ReplayBlocks] succeeds exactly when a
    header is stored for every height of the range and names the root that
    [BeginBlock] and [Commit] alone lead to; then the state is the one they
    lead to, and the node stands at the last header, in memory and on disk. A
    stored block whose transactions changed the state cannot be replayed. *)
Theorem replay_exact {DB Tx} `{BoltLaws DB Tx, !BoltReliable DB Tx} `{Hasher}
    (fromHeight toHeight : Z) (n : Node DB) (ps : PersistentState) (db : DB) (s' : InMemoryState) :
  let headers h := (LoadBlockHeader h db).2 in
  (∀ data, ∃ h, hash_data data = Ok h) → nd_persistent n = Some (ps, db) →
  0 <= fromHeight <= toHeight → toHeight < 2 ^ 64 - 1 →
  (∃ n', ReplayBlocks fromHeight toHeight n = (n', Ok tt) ∧ nd_state n' = s' ∧
     ∃ header, headers toHeight = Ok header ∧ replay_end toHeight header n') ↔
  replayed headers (Z.to_nat (toHeight - fromHeight + 1)) fromHeight (nd_state n) s'.
Proof.
  intros headers Hhash En Hr Ht. set (count := Z.to_nat (toHeight - fromHeight + 1)).
  assert (Z.of_nat count = toHeight - fromHeight + 1) as Ec by (unfold count; lia).
  assert (∀ x, ReplayBlocks fromHeight toHeight n = x ↔ replay_loop count fromHeight n = x) as Hrun.
  { intros x. unfold ReplayBlocks. rewrite (proj2 (Z.ltb_ge _ _)) by lia. erewrite go_bind_ok; [|reflexivity].
    rewrite (go_bind_ok _ _ _ _ _ (has_persistent_some n _ En)). cbn [negb]. erewrite go_bind_ok; [|reflexivity]. done. }
  assert (∀ n', replay_loop count fromHeight n = (n', Ok tt) →
    replayed headers count fromHeight (nd_state n) (nd_state n') ∧
    ∃ header, headers toHeight = Ok header ∧ replay_end toHeight header n') as Hinv.
  { intros n' E. destruct (replay_loop_inv count fromHeight n n' ps db En) as [Hrep Hend]; [lia..|done|].
    split; [done|]. replace toHeight with (fromHeight + Z.of_nat count - 1) by lia. apply Hend. lia. }
  split.
  - intros (n' & E%Hrun & <- & _). by apply Hinv.
  - intros Hrep. destruct (replay_loop_complete Hhash count fromHeight n ps db s' En) as (n' & E & <-); [lia..|done|].
    exists n'. split; [by apply Hrun|]. split; [done|]. by apply Hinv.
Qed.

(** Fast sync brings a new node to the checkpoint. From a snapshot of a
    committed state and a checkpoint with its hash and root, a node without
    state and with any database obtains exactly the accounts, entries and root
    of the source, in memory and on disk, and stands at the checkpoint, also
    after a restart. *)
Theorem fast_sync_reaches_checkpoint {DB Tx} `{BoltLaws DB Tx, !BoltReliable DB Tx} `{Hasher}
    (s0 s : InMemoryState) (root : Hash) (height epoch : Z) (vsh : Hash) (ts : Z) (n : Node DB) (ps : PersistentState)
    (db : DB) (accs : gmap Address Account) (kvs : gmap string bytes) (r : option Hash) :
  Commit s0 = (s, Ok root) → root ≠ ZeroHash →
  snapshot_limits (accounts s) (kvstore s) → kv_storable (kvstore s) → fits 8 height → fits 8 epoch → fits 8 ts →
  nd_persistent n = Some (ps, db) → nd_state n = NewInMemoryState → holds db accs kvs r →
  ∃ snap data, InMemoryState_CreateSnapshot height epoch vsh ts s = Ok snap ∧ SerializeSnapshot snap = Ok data ∧
    ∀ cp target, cp_StateRoot cp = root → cp_SnapshotHash cp = SnapshotHash data → Checkpoint_wf cp →
      target <= cp_Height cp →
      ∃ n' db', FastSyncFromCheckpoint cp data target n = (n', Ok tt) ∧
        accounts (nd_state n') = accounts s ∧ kvstore (nd_state n') = kvstore s ∧ GetStateRoot (nd_state n') = root ∧
        nd_currentHeight n' = cp_Height cp ∧ nd_currentTipHash n' = cp_BlockHash cp ∧
        nd_persistent n' = Some (mkPersistentState (accounts s) (kvstore s) root, db') ∧
        holds db' (accounts s) (kvstore s) (Some root) ∧ LoadTip db' = (db', Ok (synced_tip cp)).
Proof.
  intros Hc Hz Hlim Hkv Hh He Ht En Es Hdb.
  assert (build_smt (accounts s) (kvstore s) NewSMT = (smt s, Ok tt) ∧ root = Root (smt s)) as [Hb Hroot].
  { unfold Commit in Hc. destruct (build_smt (accounts s0) (kvstore s0) NewSMT) as [t [[]|e|]] eqn:Eb; [|done..].
    injection Hc as <- <-. done. }
  destruct (snapshot_of_maps_ok (accounts s) (kvstore s) (GetStateRoot s) height epoch vsh ts Hlim Hh He Ht)
    as (snap & Hs & Hok & Hr & Hpa & Hpk). pose proof Hlim as (Hwf & _). pose proof (serialized snap Hok) as Hser.
  eexists snap, _. split; [exact Hs|]. split; [exact Hser|]. intros cp target Hcr Hch Hcwf Htgt.
  destruct (restore_ok ps db snap _ (cp_SnapshotHash cp) (accounts s) (kvstore s) (smt s) accs kvs r Hok Hser)
    as (db1 & Hres & Hnew); [by right; rewrite Hch|done..|by rewrite Hr|by rewrite Hr; unfold GetStateRoot; congruence|done|].
  rewrite Hr in Hres, Hnew. change (GetStateRoot s) with (Root (smt s)) in Hres, Hnew. rewrite <- Hroot in Hres, Hnew.
  destruct (FastSync_run n ps db cp (snapshot_body snap ++ Sum256 (snapshot_body snap)) target (accounts s) (kvstore s) root (smt s) db1 En) as (n' & db' & Hrun & Hst & Hper & H1' & H2' & Hd);
    [by rewrite Es|by rewrite Es|by rewrite Hch|done..|].
  exists n', db'. split; [done|]. rewrite Hst. split; [done|]. split; [done|]. split; [done|].
  split; [done|]. split; [done|]. split; [done|]. split; [by apply (holds_frame db1 db' _ _ _ chainBucket tipKey (encodeHeader (synced_tip cp)))|].
  apply (tip_stored db1 db' (synced_tip cp)); [|done]. destruct Hcwf as (? & ? & ?). repeat split; done || apply fits_u64; done.
Qed.

(** A checkpoint of the node's own cannot be used for fast sync:
    [CreateCheckpoint] records no snapshot hash, so syncing from the stored
    snapshot fails before anything is restored, unless the snapshot hashes to
    zero. *)
Theorem local_snapshot_refused {DB Tx} `{BoltDB DB Tx} `{Hasher} (height target : Z) (n : Node DB)
    (ps : PersistentState) (db : DB) (cp : Checkpoint) (data : bytes) :
  nd_persistent n = Some (ps, db) → (SnapshotExists height db).2 = Ok true → (LoadSnapshot height db).2 = Ok data →
  (LoadCheckpoint height db).2 = Ok cp → cp_SnapshotHash cp = ZeroHash → SnapshotHash data ≠ ZeroHash →
  FastSyncFromLocalSnapshot height target n = (n, Err (Errorf "snapshot hash mismatch")).
Proof.
  intros En He Hs Hc Hz Hd. unfold FastSyncFromLocalSnapshot.
  rewrite (go_bind_ok _ _ _ _ _ (has_persistent_some n _ En)). cbn [negb]. erewrite go_bind_ok; [|reflexivity].
  erewrite go_bind_ok; [|apply (on_disk_read _ n ps db (Ok true) En); by rewrite <- He]. cbn [negb].
  erewrite go_bind_ok; [|reflexivity].
  erewrite go_bind_ok; [|apply wrap_ok, (on_disk_read _ n ps db (Ok data) En); by rewrite <- Hs].
  erewrite go_bind_ok; [|apply wrap_ok, (on_disk_read _ n ps db (Ok cp) En); by rewrite <- Hc].
  unfold FastSyncFromCheckpoint. rewrite (go_bind_ok _ _ _ _ _ (has_persistent_some n _ En)). cbn [negb].
  erewrite go_bind_ok; [|reflexivity]. by rewrite Hz, bool_decide_eq_false_2.
Qed.

(** After producing a block the proposer skips a height: the loop counts
    the height up for the block and again after the wait, so the next block it
    builds is two above its tip. *)
Theorem production_skips_heights {DB Tx} `{BoltDB DB Tx} `{Hasher} `{Ed25519} (ck : Clock) (height next : Z)
    (block : Block) (n n1 n' : Node DB) :
  0 <= height < 2 ^ 64 - 2 →
  ProposerAtHeight height (cfg_Validators (w_cfg (nd_wiring n))) = Ok (nodeAddress n) →
  build ck height (nodeAddress n) n = (n1, Ok block) →
  consensus_turn ck height n = (n', Ok next) → next = height + 2.
Proof.
  intros Hh Hp Hb. unfold consensus_turn. erewrite go_bind_ok; [|reflexivity]. cbn [id].
  erewrite go_bind_ok; [|unfold lift; by rewrite Hp]. rewrite bool_decide_eq_true_2 by done.
  erewrite go_bind_ok; [|unfold try; by rewrite Hb]. intros Ht.
  apply go_bind_inv in Ht as (n2 & u & _ & Ht). apply go_ret_inv in Ht as [_ ->].
  rewrite !u64_small by (unfold is_u64; rewrite ?u64_small by (unfold is_u64; lia); lia). lia.
Qed.

(** ** Examples *)

Lemma fork_choice_by_height_witness : better_fork 9 10 = false ∧ better_fork 11 10 = true.
Proof.
  split.
  - rewrite (fork_choice_by_height 9 10); [reflexivity|split; vm_compute; (reflexivity || discriminate)..].
  - rewrite (fork_choice_by_height 11 10); [reflexivity|split; vm_compute; (reflexivity || discriminate)..].
Defined.

Definition example_config : Config := mkConfig 10 300 0 [] 100 false 10 false [].
Definition idle_vm : VM := λ _ _ _ _, throw (Errorf "no contracts").

Definition example_node (s : InMemoryState) (ps : PersistentState) (db : contents) : Node contents :=
  with_state s (fresh_node example_config idle_vm (Some (ps, db)) false).

(** A well-formed block with its commit proof is sent and refused. *)
Lemma gossip_adopts_nothing_witness :
  let n := example_node NewInMemoryState (mkPersistentState ∅ ∅ ZeroHash) ∅ in
  ∃ data n' r, EncodeBlockMessage gossip_block = Ok data ∧
    handle_all (H0 := SHA256Hasher) (H1 := echo_ed25519) [(λ _, 100, 100, data)] n = (n', r) ∧
    nd_currentHeight n' = 0 ∧ nd_effects n' = [].
Proof.
  destruct (EncodeBlockMessage gossip_block) as [data| |] eqn:E; [|discriminate E..]. intros n.
  destruct (handle_all (H0 := SHA256Hasher) (H1 := echo_ed25519) [(λ _, 100, 100, data)] n) as [n' r] eqn:Er.
  exists data, n', r. split; [reflexivity|]. split; [exact Er|].
  destruct (gossip_adopts_nothing (H0 := SHA256Hasher) (H1 := echo_ed25519) [(λ _, 100, 100, data)] n n' r)
    as (Hh & _ & _ & _ & _ & _ & He); [vm_compute; discriminate|exact Er|].
  split; [exact Hh|exact He].
Defined.

Definition kept_state : InMemoryState :=
  mkInMemoryState {[ addr_of 1 := stored_account ]} {[ "validator/count" := be 8 1 ]} NewSMT [].
Definition kept_cache : PersistentState :=
  mkPersistentState {[ addr_of 1 := stored_account ]} {[ "validator/count" := be 8 1 ]} ZeroHash.

Lemma kept_state_ok :
  holds example_db (ps_cache kept_cache) (ps_kvstore kept_cache) None ∧
  map_Forall (λ _, Account_wf) (accounts kept_state) ∧ kv_storable (kvstore kept_state).
Proof.
  split; [|split].
  - split; [reflexivity..|]. exists ∅. split; reflexivity.
  - apply map_Forall_singleton, stored_account_wf.
  - apply map_Forall_singleton. split; vm_compute; (split; (reflexivity || discriminate)) || discriminate.
Qed.

Lemma restart_restores_state_witness :
  let n := example_node kept_state kept_cache example_db in
  ∃ db' m, Node_New (H0 := constant_hasher) example_config (Some db') (Ok tt) (Ok idle_vm) (Ok tt) = Ok m ∧
    accounts (nd_state m) = {[ addr_of 1 := stored_account ]} ∧ kvstore (nd_state m) = {[ "validator/count" := be 8 1 ]}.
Proof.
  intros n. destruct kept_state_ok as (Hdb & Hwf & Hkv).
  assert ((CommitState (H0 := constant_hasher) n).2 = Ok (arr_copy 32 [x01])) as Hc by (vm_compute; reflexivity).
  destruct (restart_restores_state (H1 := constant_hasher) example_config idle_vm n kept_cache example_db None)
    as (n' & ps' & db' & Hrun & Hp & Hnew & Hsame).
  - intros data. eexists. reflexivity.
  - reflexivity.
  - exact Hdb.
  - exact Hwf.
  - exact Hwf.
  - exact Hkv.
  - exact Hkv.
  - destruct Hsame as (Ea & Ek & Hroot); [set_solver..|]. rewrite Hrun in Hc. cbn [snd] in Hc. apply Ok_inj in Hc.
    destruct Hnew as (m & Hm & Ha & Hk & _).
    + rewrite Hroot, Hc. discriminate.
    + intros cp Hcp. vm_compute in Hcp. discriminate Hcp.
    + exists db', m. split; [exact Hm|]. rewrite Ha, Hk. split; [exact Ea|exact Ek].
Defined.

(** A checkpoint with another root, and no snapshot. *)
Definition old_checkpoint : Checkpoint := mkCheckpoint 100 ZeroHash ZeroHash ZeroHash ZeroHash 1 42.
Definition checkpointed_db : contents :=
  <[checkpointsBucket := {[ latestCheckpointKey := encodeCheckpoint old_checkpoint ]}]> example_db.

Lemma drifted_node_cannot_restart_witness :
  ∃ db' e, Node_New (H0 := constant_hasher) example_config (Some (db' : contents)) (Ok tt) (Ok idle_vm) (Ok tt) = Err e.
Proof.
  set (n := example_node kept_state kept_cache checkpointed_db). destruct kept_state_ok as ([Ha Hk Hm] & Hwf & Hkv).
  assert ((CommitState (H0 := constant_hasher) n).2 = Ok (arr_copy 32 [x01])
    ∧ (ps_root ∘ fst <$> nd_persistent (CommitState (H0 := constant_hasher) n).1) = Some (arr_copy 32 [x01])) as [Hr Hp]
    by (vm_compute; split; reflexivity).
  destruct (CommitState (H0 := constant_hasher) n) as [n' r] eqn:E. cbn [fst snd] in Hr, Hp. subst r.
  destruct (nd_persistent n') as [[ps' db']|] eqn:Ep; [|discriminate Hp]. injection Hp as Hp.
  exists db'. apply (drifted_node_cannot_restart (H1 := constant_hasher) example_config idle_vm n n' kept_cache ps'
    checkpointed_db db' None (arr_copy 32 [x01]) old_checkpoint).
  - intros data. eexists. reflexivity.
  - reflexivity.
  - split; [exact Ha|exact Hk|exact Hm].
  - exact Hwf.
  - exact Hwf.
  - exact Hkv.
  - exact Hkv.
  - exact E.
  - exact Ep.
  - cbn in Hp. rewrite Hp. discriminate.
  - apply (f_equal snd (load_checkpoint checkpointed_db latestCheckpointKey "checkpoint not found" "checkpoint not found"
      "corrupt latest checkpoint data" old_checkpoint ltac:(repeat split; vm_compute; (reflexivity || discriminate)) eq_refl)).
  - cbn in Hp. rewrite Hp. discriminate.
  - vm_compute. reflexivity.
Defined.

(** A block without transactions on the empty state is replayed. *)
Definition empty_header : BlockHeader :=
  {| h_Version := 1; h_Height := 1; h_PreviousHash := ZeroHash; h_StateRoot := arr_copy 32 [x01]; h_TxRoot := ZeroHash;
     h_ReceiptRoot := ZeroHash; h_ValidatorRoot := ZeroHash; h_ValidatorSetHash := ZeroHash; h_Epoch := 0;
     h_Timestamp := 100; h_Proposer := ZeroAddress; h_EventsRoot := ZeroHash |}.
Definition headers_db : contents := {[ blocksBucket := {[ height_key 1 := encodeHeader empty_header ]} ]}.

Lemma replay_exact_witness :
  ∃ n', ReplayBlocks (H0 := constant_hasher) 1 1 (example_node NewInMemoryState (mkPersistentState ∅ ∅ ZeroHash) headers_db)
      = (n', Ok tt) ∧ nd_currentHeight n' = 1.
Proof.
  set (s1 := (BeginBlock 1 NewInMemoryState).1). set (s2 := (Commit (H := constant_hasher) s1).1).
  destruct (proj2 (replay_exact (H1 := constant_hasher) 1 1
    (example_node NewInMemoryState (mkPersistentState ∅ ∅ ZeroHash) headers_db) (mkPersistentState ∅ ∅ ZeroHash) headers_db s2
    (λ data, ex_intro _ _ eq_refl) eq_refl ltac:(split; discriminate) eq_refl)) as (n' & Hr & _ & _ & _ & Hh & _).
  - apply (replayed_step (H := constant_hasher) _ 0 1 _ s1 s2 _ empty_header (0, ZeroHash)).
    + change (LoadBlockHeader 1 headers_db).2 with (decodeHeader (encodeHeader empty_header)).
      apply decode_encode_header. repeat split; vm_compute; (reflexivity || discriminate).
    + apply run_outcome. vm_compute. reflexivity.
    + apply run_outcome. vm_compute. reflexivity.
    + constructor.
  - exists n'. split; [exact Hr|exact Hh].
Defined.

Lemma fast_sync_reaches_checkpoint_witness :
  ∃ data cp n', FastSyncFromCheckpoint (H0 := constant_hasher) cp data 0
      (example_node NewInMemoryState (mkPersistentState ∅ ∅ ZeroHash) example_db) = (n', Ok tt) ∧
    accounts (nd_state n') = {[ addr_of 1 := stored_account ]} ∧ nd_currentHeight n' = 7.
Proof.
  assert ((Commit (H := constant_hasher) example_state).2 = Ok (arr_copy 32 [x01])) as Hr by (vm_compute; reflexivity).
  destruct (Commit (H := constant_hasher) example_state) as [s r] eqn:E.
  assert (accounts s = {[ addr_of 1 := stored_account ]} ∧ kvstore s = ∅) as [Ea Ek].
  { unfold Commit in E. destruct (build_smt _ _ _) as [t x]. injection E as <- _. split; reflexivity. }
  cbn [snd] in Hr. rewrite Hr in E. destruct kept_state_ok as (Hdb & _ & _).
  destruct (fast_sync_reaches_checkpoint (H1 := constant_hasher) example_state s (arr_copy 32 [x01]) 7 1 ZeroHash 42
    (example_node NewInMemoryState (mkPersistentState ∅ ∅ ZeroHash) example_db) (mkPersistentState ∅ ∅ ZeroHash)
    example_db (ps_cache kept_cache) (ps_kvstore kept_cache) None E) as (snap & data & _ & _ & Hsync).
  - discriminate.
  - rewrite Ea, Ek. split; [apply map_Forall_singleton, stored_account_wf|]. split; [apply map_Forall_empty|].
    split; vm_compute; discriminate.
  - rewrite Ek. apply map_Forall_empty.
  - split; vm_compute; (reflexivity || discriminate).
  - split; vm_compute; (reflexivity || discriminate).
  - split; vm_compute; (reflexivity || discriminate).
  - reflexivity.
  - reflexivity.
  - exact Hdb.
  - destruct (Hsync (mkCheckpoint 7 ZeroHash (arr_copy 32 [x01]) (SnapshotHash data) ZeroHash 1 42) 0)
      as (n' & db' & Hrun & Ha & _ & _ & Hh & _); [reflexivity|reflexivity| |vm_compute; discriminate|].
    + repeat split; vm_compute; (reflexivity || discriminate).
    + exists data, (mkCheckpoint 7 ZeroHash (arr_copy 32 [x01]) (SnapshotHash data) ZeroHash 1 42), n'.
      split; [exact Hrun|]. rewrite Ha. split; [exact Ea|exact Hh].
Defined.
