(* ===== verification/Genesis.v ===== *)
(** * Genesis documents (genesis/types.go, genesis/validation.go,
      genesis/state.go)

    Validation of a genesis document and the initialisation of the state from
    it. Reading the file and its JSON form are left to the caller
    ([CanonicalJSON] is a parameter of [HashGenesis]). Times are nanoseconds.

    [strings.ToLower] maps the letters A to Z; other letters change neither the
    verdict on an address, which must be hexadecimal, nor initialisation, which
    refuses keys that are not. *)

From S2P Require Import Prelude Codec Sha256 Address Amount Tx Votes Block Smt Store Keys State Bolt Persist.

(** ** The document *)

Record ConsensusParams := mkConsensusParams {
  MaxTxPerBlock : Z;
  MaxBytesPerBlock : Z;
  MaxGasPerBlock : Z;
}.

Record EpochParams := mkEpochParams {
  ep_BlocksPerEpoch : Z;
  UnstakeCooldownEpochs : Z;
  MaxValidators : Z;
  MinimumStake : Z;
}.

Record InflationParams := mkInflationParams {
  Enabled : bool;
  AnnualRate : string;
  MintPerBlock : Z;
}.

Record ValidatorEntry := mkValidatorEntry {
  ve_Address : string;
  ve_PubKey : string;
  ve_ConsensusKey : string;
  ve_Stake : Z;
  ve_Commission : string;
}.

Record BalanceEntry := mkBalanceEntry {
  be_Address : string;
  be_Amount : Z;
}.

Record TreasuryEntry := mkTreasuryEntry {
  te_Address : string;
  te_InitialBalance : Z;
}.

Record GenesisDoc := mkGenesisDoc {
  gd_GenesisTime : Z;
  gd_ChainID : string;
  gd_InitialHeight : Z;
  gd_ConsensusParams : ConsensusParams;
  gd_EpochParams : EpochParams;
  gd_InflationParams : InflationParams;
  gd_InitialValidators : list ValidatorEntry;
  gd_InitialBalances : list BalanceEntry;
  gd_Treasury : TreasuryEntry;
}.

(** ** Strings *)

(** [strings.TrimPrefix(s, "0x")]. *)
Definition strip0x (l : bytes) : bytes :=
  match l with
  | x30 :: x78 :: r => r
  | _ => l
  end.

Definition stripHexPrefix (s : string) : bytes := strip0x (str_bytes s).

(** [strings.ToLower]. *)
Definition lower (b : byte) : byte := if (65 <=? b2z b) && (b2z b <=? 90) then z2b (b2z b + 32) else b.
Definition ToLower (s : string) : bytes := lower <$> str_bytes s.

(** Package encoding/hex. *)
Definition hex_digit (b : byte) : option Z :=
  let c := b2z b in
  if (48 <=? c) && (c <=? 57) then Some (c - 48)
  else if (97 <=? c) && (c <=? 102) then Some (c - 87)
  else if (65 <=? c) && (c <=? 70) then Some (c - 55)
  else None.

Fixpoint hex_decode (l : bytes) : option bytes :=
  match l with
  | [] => Some []
  | [_] => None
  | a :: b :: l' =>
      x ← hex_digit a; y ← hex_digit b; r ← hex_decode l'; Some (z2b (16 * x + y) :: r)
  end.

(** [unicode.IsSpace]. *)
Definition is_space (r : Z) : bool :=
  ((9 <=? r) && (r <=? 13)) || (r =? 32) || (r =? 133) || (r =? 160) || (r =? 5760)
  || ((8192 <=? r) && (r <=? 8202)) || (r =? 8232) || (r =? 8233) || (r =? 8239) || (r =? 8287) || (r =? 12288).

Fixpoint drop_while {A} (p : A → bool) (l : list A) : list A :=
  match l with
  | [] => []
  | x :: l' => if p x then drop_while p l' else l
  end.

(** [strings.TrimSpace] and [strings.TrimSuffix(s, "%")] on the runes of a
    string. *)
Definition trim_space (l : list Z) : list Z := reverse (drop_while is_space (reverse (drop_while is_space l))).
Definition trim_percent (l : list Z) : list Z :=
  match reverse l with
  | 37 :: r => reverse r
  | _ => l
  end.

(** ** Validation *)

Definition InvalidAddress : error := Errorf "INVALID_ADDRESS".
Definition InvalidCommission : error := Errorf "INVALID_COMMISSION".

Definition validateHexAddress (addr : string) : res unit :=
  if bool_decide (addr = "") then Ok tt else
  let l := stripHexPrefix addr in
  if 40 <? Z.of_nat (length l) then Err InvalidAddress else
  if bool_decide (0 < length l)%nat then
    match hex_decode l with Some _ => Ok tt | None => Err InvalidAddress end
  else Ok tt.

Fixpoint uint64ToHex_loop (fuel : nat) (n : Z) (buf : string) : string :=
  match fuel with
  | O => buf
  | S f => if 0 <? n then uint64ToHex_loop f (n / 16) (String (hex_char (n mod 16)) buf) else buf
  end.

Definition uint64ToHex (n : Z) : string := if n =? 0 then "0" else uint64ToHex_loop 16 n "".

Definition formatStake (stake : Z) : string := bytes_str (strip0x (str_bytes (uint64ToHex stake))).

Definition is_digit (c : Z) : bool := (48 <=? c) && (c <=? 57).

(** [int] is 64 bits wide and wraps around. *)
Definition i64 (z : Z) : Z := (z + 2 ^ 63) mod 2 ^ 64 - 2 ^ 63.

Fixpoint parse_int (n : Z) (l : list Z) : res Z :=
  match l with
  | [] => Ok n
  | c :: l' => if negb (is_digit c) then Err InvalidCommission else parse_int (i64 (i64 (n * 10) + (c - 48))) l'
  end.

Definition parseSimpleNumber (s : string) : res Z :=
  let l := trim_space (runes (str_bytes s)) in
  if bool_decide (l = []) then Err InvalidCommission else
  n ← parse_int 0 (trim_percent l);
  Ok (u64 n).

Definition parseCommission (c : string) : res Z := parseSimpleNumber c.

Fixpoint duplicate_errors (addrSeen pubkeySeen : gset bytes) (l : list ValidatorEntry) : list string :=
  match l with
  | [] => []
  | v :: l' =>
      let addrLower := ToLower (ve_Address v) in
      let pubkeyLower := ToLower (ve_PubKey v) in
      (if bool_decide (addrLower ∈ addrSeen) then ["duplicate validator address: " +:+ ve_Address v] else [])
      ++ (if bool_decide (pubkeyLower ∈ pubkeySeen) then ["duplicate validator pubkey: " +:+ ve_PubKey v] else [])
      ++ duplicate_errors ({[addrLower]} ∪ addrSeen) ({[pubkeyLower]} ∪ pubkeySeen) l'
  end.

Definition complain (c : bool) (msg : string) : list string := if c then [msg] else [].

Definition address_errors (addr : string) : list string :=
  match validateHexAddress addr with Ok _ => [] | _ => ["invalid address: " +:+ addr] end.

Definition commission_errors (v : ValidatorEntry) : list string :=
  match parseCommission (ve_Commission v) with
  | Ok commission => complain (10000 <? commission) ("commission rate exceeds 100%: " +:+ ve_Commission v)
  | _ => ["invalid validator commission: " +:+ ve_Commission v]
  end.

(** All messages, in the order in which they are collected; [now] is the
    clock. *)
Definition genesis_errors (now : Z) (doc : GenesisDoc) : list string :=
  let cp := gd_ConsensusParams doc in
  let ep := gd_EpochParams doc in
  let vals := gd_InitialValidators doc in
  complain (bool_decide (gd_ChainID doc = "")) "missing required field: chain_id"
  ++ complain (now + 5 * 60 * 10 ^ 9 <? gd_GenesisTime doc) "genesis_time is too far in the future"
  ++ complain (MaxTxPerBlock cp <? 0) "negative value for max_tx_per_block"
  ++ complain (MaxBytesPerBlock cp <? 0) "negative value for max_bytes_per_block"
  ++ complain (MaxGasPerBlock cp <? 0) "negative value for max_gas_per_block"
  ++ complain (ep_BlocksPerEpoch ep <? 0) "negative value for blocks_per_epoch"
  ++ complain (UnstakeCooldownEpochs ep <? 0) "negative value for unstake_cooldown_epochs"
  ++ complain (MaxValidators ep <? 0) "negative value for max_validators"
  ++ complain (MinimumStake ep <? 0) "negative value for minimum_stake"
  ++ complain (bool_decide (length vals = 0%nat)) "no initial validators defined"
  ++ duplicate_errors ∅ ∅ vals
  ++ concat ((λ v, complain (ve_Stake v <? MinimumStake ep)
       ("validator stake below minimum: " +:+ formatStake (ve_Stake v))) <$> vals)
  ++ concat ((λ v, address_errors (ve_Address v)) <$> vals)
  ++ concat ((λ b, address_errors (be_Address b)) <$> gd_InitialBalances doc)
  ++ address_errors (te_Address (gd_Treasury doc))
  ++ concat (commission_errors <$> vals).

(** The error holds the messages joined by semicolons. *)
Definition ValidateGenesis (now : Z) (doc : GenesisDoc) : res unit :=
  match genesis_errors now doc with
  | [] => Ok tt
  | errs => Err (Errorf (String.concat "; " errs))
  end.

(** ** Initialisation *)

Definition ValidatorBucketName : bytes := str_bytes "validators".

(** [ErrGenesisValidationFailed.Wrap(err)]. *)
Definition failed {S A} (m : go S A) : go S A := wrap "GENESIS_VALIDATION_FAILED" m.

Definition parseAddress (addrStr : string) : res Address :=
  let l := stripHexPrefix addrStr in
  if bool_decide (l = []) then Err InvalidAddress else
  match hex_decode l with
  | None => Err InvalidAddress
  | Some addrBytes => AddressFromBytes addrBytes
  end.

Fixpoint parse_uint (result : Z) (l : list Z) : res Z :=
  match l with
  | [] => Ok result
  | ch :: l' => if negb (is_digit ch) then Err InvalidCommission else parse_uint (u64 (u64 (result * 10) + (ch - 48))) l'
  end.

Definition parseCommissionToUint64 (c : string) : res Z :=
  parse_uint 0 (trim_percent (runes (stripHexPrefix c))).

(** The loops that write an integer from its last byte backwards. *)
Definition encodeValidatorEntry (addr : Address) (pubKey : bytes) (stake commission : Z) : bytes :=
  addr ++ [z2b (Z.of_nat (length pubKey))] ++ pubKey ++ be 8 stake ++ be 8 commission.

(** An account that holds [amount]. *)
Definition fund_account (addrStr : string) (amount : Z) : go InMemoryState unit :=
  addr ← failed (lift (parseAddress addrStr));
  acc ← failed (lift (AddBalance (NewAmount amount) (NewAccount addr (arr_zero 32))));
  failed (SetAccount addr (Fresh acc)).

Definition init_accounts (doc : GenesisDoc) : go InMemoryState unit :=
  let t := gd_Treasury doc in
  (if negb (bool_decide (te_Address t = "")) && (0 <? te_InitialBalance t)
   then fund_account (te_Address t) (te_InitialBalance t) else mret tt);;
  for_each (gd_InitialBalances doc) (λ b, fund_account (be_Address b) (be_Amount b)).

Definition validator_data (v : ValidatorEntry) : res (Address * bytes) :=
  addr ← wrap_res "GENESIS_VALIDATION_FAILED" (parseAddress (ve_Address v));
  pubKey ← match hex_decode (stripHexPrefix (ve_PubKey v)) with
           | Some k => Ok k
           | None => Err (Wrapf "GENESIS_VALIDATION_FAILED" (Errorf "encoding/hex: invalid input"))
           end;
  commission ← wrap_res "GENESIS_VALIDATION_FAILED" (parseCommissionToUint64 (ve_Commission v));
  Ok (addr, encodeValidatorEntry addr pubKey (ve_Stake v) commission).

Section init.
Context {DB Tx : Type} `{BoltDB DB Tx} `{Hasher}.

(** Each validator is written in a transaction of its own. *)
Definition init_validators (vals : list ValidatorEntry) : go DB unit :=
  failed (Update (CreateBucketIfNotExists ValidatorBucketName));;
  for_each vals (λ v,
    e ← lift (validator_data v);
    failed (Update (Put ValidatorBucketName (arr_bytes e.1) e.2))).

(** The accounts live in a state of their own, of which only the root is
    returned. *)
Definition InitGenesisState (doc : GenesisDoc) : go DB Hash := λ db,
  match init_accounts doc NewInMemoryState with
  | (_, Err e) => (db, Err e)
  | (_, Panic) => (db, Panic)
  | (s, Ok _) =>
      match init_validators (gd_InitialValidators doc) db with
      | (db', Err e) => (db', Err e)
      | (db', Panic) => (db', Panic)
      | (db', Ok _) => (db', (failed Commit s).2)
      end
  end.
End init.

(** genesis/genesis.go: the hash of the canonical JSON form. *)
Definition HashGenesis (CanonicalJSON : GenesisDoc → res bytes) (doc : GenesisDoc) : res Hash :=
  data ← wrap_res "GENESIS_HASH_FAILED" (CanonicalJSON doc);
  Ok (Sum256 data).

(** The checks of [LoadGenesis] on the file; [parsed] is the outcome of reading
    and decoding it, [zeroTime] the zero value of [time.Time]. *)
Definition LoadGenesis (path : string) (parsed : res GenesisDoc) (zeroTime : Z) : res GenesisDoc :=
  if bool_decide (path = "") then Err (Errorf "GENESIS_PATH_REQUIRED") else
  doc ← parsed;
  if bool_decide (gd_ChainID doc = "") then Err (Errorf "GENESIS_MISSING_CHAIN_ID") else
  if gd_GenesisTime doc =? zeroTime then Err (Errorf "GENESIS_MISSING_GENESIS_TIME") else
  Ok doc.

(** ** Specifications *)

(** An even number of hexadecimal digits. *)
Definition hexadecimal (l : bytes) : Prop :=
  Nat.Even (length l) ∧ Forall (λ b, is_Some (hex_digit b)) l.

(** An address of the document: after an optional prefix, at most forty
    hexadecimal digits, in pairs. *)
Definition address_plausible (addr : string) : Prop :=
  (length (stripHexPrefix addr) <= 40)%nat ∧ hexadecimal (stripHexPrefix addr).

(** The number that decimal digits denote. *)
Definition decimal (l : list Z) : Z := fold_left (λ n c, 10 * n + (c - 48)) l 0.

(** A commission: a text that is not blank and consists, between spaces and
    before an optional percent sign, of decimal digits only. Its number is taken
    modulo 2^64. *)
Definition commission_valid (c : string) : Prop :=
  let l := trim_space (runes (str_bytes c)) in
  l ≠ [] ∧ Forall (λ d, 48 <= d <= 57) (trim_percent l) ∧ decimal (trim_percent l) mod 2 ^ 64 <= 10000.

(** What a validated document satisfies. *)
Record genesis_valid (now : Z) (doc : GenesisDoc) : Prop := {
  gv_chain : gd_ChainID doc ≠ "";
  gv_time : gd_GenesisTime doc <= now + 5 * 60 * 10 ^ 9;
  gv_validators : gd_InitialValidators doc ≠ [];
  gv_addresses : NoDup ((λ v, ToLower (ve_Address v)) <$> gd_InitialValidators doc);
  gv_pubkeys : NoDup ((λ v, ToLower (ve_PubKey v)) <$> gd_InitialValidators doc);
  gv_stakes : Forall (λ v, MinimumStake (gd_EpochParams doc) <= ve_Stake v) (gd_InitialValidators doc);
  gv_plausible : Forall (λ v, address_plausible (ve_Address v)) (gd_InitialValidators doc);
  gv_balances : Forall (λ b, address_plausible (be_Address b)) (gd_InitialBalances doc);
  gv_treasury : address_plausible (te_Address (gd_Treasury doc));
  gv_commissions : Forall (λ v, commission_valid (ve_Commission v)) (gd_InitialValidators doc);
}.

(** The unsigned fields of a document. *)
Definition GenesisDoc_wf (doc : GenesisDoc) : Prop :=
  let cp := gd_ConsensusParams doc in
  let ep := gd_EpochParams doc in
  Forall is_u64 [MaxTxPerBlock cp; MaxBytesPerBlock cp; MaxGasPerBlock cp; ep_BlocksPerEpoch ep;
                 UnstakeCooldownEpochs ep; MaxValidators ep; MinimumStake ep; te_InitialBalance (gd_Treasury doc)]
  ∧ Forall (λ v, is_u64 (ve_Stake v)) (gd_InitialValidators doc)
  ∧ Forall (λ b, is_u64 (be_Amount b)) (gd_InitialBalances doc).

(** What initialisation needs beyond that. *)
Record genesis_usable (doc : GenesisDoc) : Prop := {
  gu_treasury : te_Address (gd_Treasury doc) ≠ "" → 0 < te_InitialBalance (gd_Treasury doc) →
    ∃ a, parseAddress (te_Address (gd_Treasury doc)) = Ok a;
  gu_balances : Forall (λ b, ∃ a, parseAddress (be_Address b) = Ok a) (gd_InitialBalances doc);
  gu_validators : Forall (λ v, ∃ e, validator_data v = Ok e) (gd_InitialValidators doc);
}.

(** The accounts of a document: a later entry for an address replaces an
    earlier one, the treasury included. *)
Definition funded_account (a : Address) (amount : Z) : Account := set_balance (NewAccount a (arr_zero 32)) amount.

Definition fund_entry (m : gmap Address Account) (e : string * Z) : gmap Address Account :=
  match parseAddress e.1 with Ok a => <[a := funded_account a e.2]> m | _ => m end.

Definition genesis_entries (doc : GenesisDoc) : list (string * Z) :=
  let t := gd_Treasury doc in
  (if negb (bool_decide (te_Address t = "")) && (0 <? te_InitialBalance t) then [(te_Address t, te_InitialBalance t)] else [])
  ++ ((λ b, (be_Address b, be_Amount b)) <$> gd_InitialBalances doc).

Definition genesis_accounts (doc : GenesisDoc) : gmap Address Account := fold_left fund_entry (genesis_entries doc) ∅.

(** The records of the validators are added to a bucket by address. *)
Definition put_validator (m : gmap bytes bytes) (v : ValidatorEntry) : gmap bytes bytes :=
  match validator_data v with Ok e => <[arr_bytes e.1 := e.2]> m | _ => m end.

(** ** Lemmas *)

Lemma complain_nil c msg : complain c msg = [] ↔ c = false.
Proof. by destruct c. Qed.

Lemma concat_nil {A B} (f : A → list B) (l : list A) : concat (f <$> l) = [] ↔ Forall (λ x, f x = []) l.
Proof.
  induction l as [|x l IH]; [done|]. rewrite fmap_cons, Forall_cons. cbn [concat].
  by rewrite app_nil, IH.
Qed.

Lemma hex_decode_hexadecimal l : is_Some (hex_decode l) ↔ hexadecimal l.
Proof.
  unfold hexadecimal. induction l as [l IH] using (well_founded_induction (well_founded_ltof _ (length (A := byte)))).
  destruct l as [|a [|b l]]; cbn [hex_decode length].
  - split; [|by eexists]. intros _. split; [by exists 0%nat|constructor].
  - split; [by intros []|]. intros [[n E] _]. lia.
  - rewrite !Forall_cons. specialize (IH l ltac:(unfold ltof; cbn; lia)).
    assert (Nat.Even (S (S (length l))) ↔ Nat.Even (length l)) as -> by apply Nat.Even_succ_succ.
    destruct (hex_digit a), (hex_digit b), (hex_decode l); cbn; unfold is_Some in *; naive_solver.
Qed.

Lemma address_errors_nil addr : address_errors addr = [] ↔ address_plausible addr.
Proof.
  unfold address_errors, validateHexAddress, address_plausible. rewrite <- hex_decode_hexadecimal.
  case_bool_decide as He.
  { subst addr. split; [|done]. intros _. split; [cbn; lia|by exists []]. }
  destruct (Z.ltb_spec 40 (Z.of_nat (length (stripHexPrefix addr)))); [split; [done|lia]|].
  case_bool_decide as Hl.
  - destruct (hex_decode _) eqn:E; split; try done; [|by intros [_ []]]. intros _. split; [lia|by eexists].
  - destruct (stripHexPrefix addr) as [|b l] eqn:E; [|by cbn in Hl; lia]. split; [|done].
    intros _. split; [cbn; lia|by exists []].
Qed.

Lemma i64_mod z : i64 z mod 2 ^ 64 = z mod 2 ^ 64.
Proof.
  unfold i64. rewrite Zminus_mod_idemp_l. f_equal. lia.
Qed.

Lemma decimal_mod l a b :
  a mod 2 ^ 64 = b mod 2 ^ 64 →
  fold_left (λ n c, 10 * n + (c - 48)) l a mod 2 ^ 64 = fold_left (λ n c, 10 * n + (c - 48)) l b mod 2 ^ 64.
Proof.
  revert a b. induction l as [|c l IH]; intros a b E; [done|]. cbn [fold_left]. apply IH.
  rewrite (Z.add_mod (10 * a)), (Z.mul_mod 10 a), E, <- Z.mul_mod, <- Z.add_mod by lia. done.
Qed.

(** The loop computes modulo 2^64, whatever the sign of its [int]. *)
Lemma parse_int_spec n l :
  match parse_int n l with
  | Ok m => Forall (λ d, 48 <= d <= 57) l ∧ m mod 2 ^ 64 = fold_left (λ n c, 10 * n + (c - 48)) l n mod 2 ^ 64
  | Err _ => ¬ Forall (λ d, 48 <= d <= 57) l
  | Panic => False
  end.
Proof.
  revert n. induction l as [|c l IH]; intros n; cbn [parse_int fold_left]; [done|].
  destruct (is_digit c) eqn:Ed; cbn [negb]; unfold is_digit in Ed.
  2:{ rewrite Forall_cons. intros [Hd _]. lia. }
  assert (48 <= c <= 57) as Hc by lia. specialize (IH (i64 (i64 (n * 10) + (c - 48)))).
  destruct (parse_int _ l) as [m|e|]; [|rewrite Forall_cons; tauto|done]. destruct IH as [Hl ->].
  split; [by constructor|]. apply decimal_mod. rewrite i64_mod, Z.add_mod, i64_mod, <- Z.add_mod by lia.
  f_equal. lia.
Qed.

Lemma commission_errors_nil v : commission_errors v = [] ↔ commission_valid (ve_Commission v).
Proof.
  unfold commission_errors, parseCommission, parseSimpleNumber, commission_valid.
  set (l := trim_space _). case_bool_decide as Hl; [naive_solver|].
  pose proof (parse_int_spec 0 (trim_percent l)) as Hp.
  destruct (parse_int 0 (trim_percent l)) as [m|e|]; cbn [mbind res_bind]; [|naive_solver|done].
  destruct Hp as [Hd Hm]. rewrite complain_nil, Z.ltb_ge. unfold u64. unfold decimal. rewrite <- Hm. naive_solver.
Qed.

Lemma duplicate_errors_nil A P l :
  duplicate_errors A P l = [] ↔
  NoDup ((λ v, ToLower (ve_Address v)) <$> l) ∧ NoDup ((λ v, ToLower (ve_PubKey v)) <$> l) ∧
  Forall (λ v, ToLower (ve_Address v) ∉ A ∧ ToLower (ve_PubKey v) ∉ P) l.
Proof.
  revert A P. induction l as [|v l IH]; intros A P; cbn [duplicate_errors fmap list_fmap].
  { split; [|done]. intros _. split_and!; constructor. }
  rewrite !app_nil, IH, !NoDup_cons, Forall_cons. clear IH.
  assert (∀ (c : Prop) `{Decision c} (m : string), (if bool_decide c then [m] else []) = [] ↔ ¬ c) as Hc
    by (intros c ? m; case_bool_decide; naive_solver).
  rewrite !Hc, !Forall_forall. setoid_rewrite list_elem_of_fmap. split.
  - intros (Ha & Hp & Hna & Hnp & Hf). split_and!; try done.
    + intros (w & E & Hw). apply (Hf w Hw). set_solver.
    + intros (w & E & Hw). apply (Hf w Hw). set_solver.
    + intros w Hw. specialize (Hf w Hw). set_solver.
  - intros ([Hva Hna] & [Hvp Hnp] & [Ha Hp] & Hf). split_and!; try done.
    intros w Hw. specialize (Hf w Hw). split.
    + intros [E%elem_of_singleton|?]%elem_of_union; [apply Hva; by exists w|naive_solver].
    + intros [E%elem_of_singleton|?]%elem_of_union; [apply Hvp; by exists w|naive_solver].
Qed.

Lemma genesis_errors_nil now doc : GenesisDoc_wf doc → genesis_errors now doc = [] ↔ genesis_valid now doc.
Proof.
  intros (Hu & _ & _). rewrite !Forall_cons in Hu. destruct Hu as (H1 & H2 & H3 & H4 & H5 & H6 & H7 & _).
  assert (∀ z, is_u64 z → (z <? 0) = false) as Hz by (intros z [? _]; by apply Z.ltb_ge).
  unfold genesis_errors. rewrite !Hz by done. cbn [complain app].
  rewrite !app_nil, !complain_nil, !concat_nil, duplicate_errors_nil, address_errors_nil, !bool_decide_eq_false, Z.ltb_ge.
  setoid_rewrite complain_nil. setoid_rewrite Z.ltb_ge. setoid_rewrite address_errors_nil. setoid_rewrite commission_errors_nil.
  rewrite length_zero_iff_nil. split.
  - intros (? & ? & ? & (? & ? & _) & ? & ? & ? & ? & ?). by split.
  - intros []. split_and!; try done. apply Forall_true. set_solver.
Qed.

(** *** Hexadecimal *)

Lemma nibble_cases (P : Z → Prop) : (∀ n, (n < 16)%nat → P (Z.of_nat n)) → ∀ d, 0 <= d < 16 → P d.
Proof. intros HP d Hd. rewrite <- (Z2Nat.id d) by lia. apply HP. lia. Qed.

Lemma nibbles b : 0 <= b2z b / 16 < 16 ∧ 0 <= b2z b mod 16 < 16.
Proof.
  pose proof (b2z_range b) as Hb. split; [|apply Z.mod_pos_bound; lia].
  split; [apply Z.div_pos; lia|apply Z.div_lt_upper_bound; lia].
Qed.

Lemma hex_digit_char d : 0 <= d < 16 → hex_digit (Ascii.byte_of_ascii (hex_char d)) = Some d.
Proof. revert d. apply nibble_cases. intros n Hn. do 16 (destruct n as [|n]; [reflexivity|]). lia. Qed.

Lemma hex_decode_hex l : hex_decode (str_bytes (hex l)) = Some l.
Proof.
  induction l as [|b l IH]; [done|].
  change (str_bytes (hex (b :: l)))
    with (Ascii.byte_of_ascii (hex_char (b2z b / 16)) :: Ascii.byte_of_ascii (hex_char (b2z b mod 16)) :: str_bytes (hex l)).
  cbn [hex_decode]. destruct (nibbles b) as [Hhi Hlo]. rewrite !hex_digit_char, IH by done.
  cbn. by rewrite <- Z.div_mod, z2b_b2z by lia.
Qed.

(** *** Accounts *)

Lemma fund_account_run addrStr amount (s : InMemoryState) :
  is_u64 amount →
  fund_account addrStr amount s =
  match parseAddress addrStr with
  | Ok a => (acc_put a (funded_account a amount) s, Ok tt)
  | Err e => (s, Err (Wrapf "GENESIS_VALIDATION_FAILED" e))
  | Panic => (s, Panic)
  end.
Proof.
  intros Hu. unfold fund_account, failed, wrap, lift, mbind, go_bind. destruct (parseAddress addrStr) as [a|e|]; [|done..].
  assert (AddBalance (NewAmount amount) (NewAccount a (arr_zero 32)) = Ok (funded_account a amount)) as ->.
  { unfold AddBalance, NewAmount. cbn [acc_Balance NewAccount]. unfold is_u64 in Hu.
    rewrite Amount_Add_ok; [done|unfold amount_ok, is_u128, NewAmount in *; lia..]. }
  done.
Qed.

Lemma init_accounts_entries doc (s : InMemoryState) :
  init_accounts doc s = for_each (genesis_entries doc) (λ e, fund_account e.1 e.2) s.
Proof.
  unfold init_accounts, genesis_entries. rewrite for_each_app.
  assert (∀ (l : list BalanceEntry) s, for_each l (λ b, fund_account (be_Address b) (be_Amount b)) s
    = for_each ((λ b, (be_Address b, be_Amount b)) <$> l) (λ e, fund_account e.1 e.2) s) as Hl.
  { intros l s'. by apply for_each_fmap. }
  unfold mbind, go_bind. destruct (negb _ && _); cbn [for_each fst snd]; unfold mbind, go_bind.
  - destruct (fund_account _ _ s) as [s' [u|e|]]; [|done..]. cbn. by rewrite Hl.
  - cbn. by rewrite Hl.
Qed.

Lemma fund_entries l : ∀ s : InMemoryState,
  Forall (λ e, is_u64 e.2) l →
  (∀ s', for_each l (λ e, fund_account e.1 e.2) s = (s', Ok tt) →
     accounts s' = fold_left fund_entry l (accounts s) ∧ kvstore s' = kvstore s ∧ Forall (λ e, ∃ a, parseAddress e.1 = Ok a) l) ∧
  (Forall (λ e, ∃ a, parseAddress e.1 = Ok a) l → ∃ s', for_each l (λ e, fund_account e.1 e.2) s = (s', Ok tt)).
Proof.
  induction l as [|[a v] l IH]; intros s Hu.
  { split; [intros s' [= <-]; split_and!; done || constructor|by exists s]. }
  apply Forall_cons in Hu as [Hv Hu]. cbn [for_each fold_left fst snd].
  unfold mbind, go_bind. cbn [fst snd] in *. rewrite fund_account_run by done.
  change (fund_entry (accounts s) (a, v)) with
    (match parseAddress a with Ok x => <[x := funded_account x v]> (accounts s) | _ => accounts s end).
  destruct (parseAddress a) as [x|e|] eqn:E.
  - destruct (IH (acc_put x (funded_account x v) s) Hu) as [IH1 IH2]. split.
    + intros s' (Ha & Hk & Hf)%IH1. split; [done|]. split; [done|]. constructor; [by eexists|done].
    + intros [_ Hf]%Forall_cons. by apply IH2.
  - split; [done|]. intros [[? ?] _]%Forall_cons. cbn [fst] in *. congruence.
  - split; [done|]. intros [[? ?] _]%Forall_cons. cbn [fst] in *. congruence.
Qed.

Lemma fund_entry_ok l m :
  Forall (λ e, is_u64 e.2) l → map_Forall (λ _ acc, amount_ok (acc_Balance acc)) m →
  map_Forall (λ _ acc, amount_ok (acc_Balance acc)) (fold_left fund_entry l m).
Proof.
  revert m. induction l as [|[a v] l IH]; intros m Hu Hm; [done|]. apply Forall_cons in Hu as [Hv Hu].
  cbn [fold_left]. apply IH; [done|]. unfold fund_entry. cbn [fst snd]. destruct (parseAddress a); [|done..].
  apply map_Forall_insert_2; [|done]. cbn. by apply is_u64_amount.
Qed.

(** *** Validators *)

Lemma validator_data_storable v a data :
  Z.of_nat (length (str_bytes (ve_PubKey v))) <= 2 ^ 20 → validator_data v = Ok (a, data) → storable (arr_bytes a) data.
Proof.
  intros Hk. unfold validator_data, wrap_res. destruct (parseAddress _) as [a'| |]; [|done..]. cbn [mbind res_bind].
  destruct (hex_decode _) as [k|] eqn:Eh; [|done]. cbn [mbind res_bind]. destruct (parseCommissionToUint64 _); [|done..].
  cbn [mbind res_bind]. intros [= -> <-].
  assert (∀ n l k, (length l <= n)%nat → hex_decode l = Some k → (length k <= length l)%nat) as Hlen.
  { clear. induction n as [|n IH]; intros [|x [|y l]] k Hl; cbn in *; try lia; try (by intros [= <-]).
    intros E. destruct (hex_digit x), (hex_digit y); cbn in E; try done.
    destruct (hex_decode l) as [r|] eqn:Er; cbn in E; [|done]. injection E as <-. cbn.
    pose proof (IH l r ltac:(lia) Er). lia. }
  pose proof (Hlen _ _ _ (le_n _) Eh) as Hl1.
  assert (length (stripHexPrefix (ve_PubKey v)) <= length (str_bytes (ve_PubKey v)))%nat as Hl2.
  { unfold stripHexPrefix, strip0x. destruct (str_bytes (ve_PubKey v)) as [|x [|y l]]; [done|by destruct x|].
    destruct x; cbn; try lia; destruct y; cbn; lia. }
  unfold storable, MaxKeySize, MaxValueSize, encodeValidatorEntry.
  rewrite !length_app, !length_be, !arr_length. cbn [length]. lia.
Qed.

(** Keys short enough for the database. *)
Definition keys_small (vals : list ValidatorEntry) : Prop :=
  Forall (λ v, Z.of_nat (length (str_bytes (ve_PubKey v))) <= 2 ^ 20) vals.

Section init_lemmas.
Context {DB Tx : Type} `{BoltLaws DB Tx, !BoltReliable DB Tx}.
Implicit Types db : DB.

Definition write_validators (vals : list ValidatorEntry) : go DB unit :=
  for_each vals (λ v, e ← lift (validator_data v); failed (Update (Put ValidatorBucketName (arr_bytes e.1) e.2))).

Lemma write_validators_run vals : ∀ db m,
  keys_small vals → db_buckets db !! ValidatorBucketName = Some m →
  (Forall (λ v, ∃ e, validator_data v = Ok e) vals →
     ∃ db', write_validators vals db = (db', Ok tt) ∧
       db_buckets db' = <[ValidatorBucketName := fold_left put_validator vals m]> (db_buckets db)) ∧
  (∀ db' u, write_validators vals db = (db', Ok u) → Forall (λ v, ∃ e, validator_data v = Ok e) vals).
Proof.
  induction vals as [|v vals IH]; intros db m Hk Hm.
  { split; [|constructor]. intros _. exists db. split; [done|]. cbn. by rewrite insert_id. }
  apply Forall_cons in Hk as [Hkv Hk]. unfold write_validators. cbn [for_each fold_left].
  unfold put_validator at 2. destruct (validator_data v) as [[a data]|e|] eqn:E.
  2,3: split; [intros [[? ?] _]%Forall_cons; congruence|]; intros db' u; unfold mbind, go_bind, lift; done.
  destruct (Put_ok ValidatorBucketName (arr_bytes a) data (db_begin db) m Hm) as (tx & Hp & Bp).
  { by eapply validator_data_storable. }
  destruct (Update_ok _ db tx tt Hp) as (db1 & Hu & Hb1). rewrite Bp in Hb1.
  assert ((e ← lift (Ok (a, data)); failed (Update (Put ValidatorBucketName (arr_bytes e.1) e.2))) db = (db1, Ok tt)) as Hstep.
  { rewrite (go_bind_ok _ _ db db (a, data)) by done. cbn [fst snd]. by apply wrap_ok. }
  rewrite !(go_bind_ok _ _ _ _ _ Hstep).
  destruct (IH db1 (<[arr_bytes a := data]> m) Hk) as [IH1 IH2]; [by rewrite Hb1, lookup_insert_eq|]. split.
  - intros [_ Hf]%Forall_cons. destruct (IH1 Hf) as (db' & Hr & Hb). exists db'. split; [exact Hr|].
    by rewrite Hb, Hb1, insert_insert_eq.
  - intros db' u Hr. constructor; [by eexists|]. by apply (IH2 db' u).
Qed.

Lemma init_validators_run vals db :
  keys_small vals →
  (Forall (λ v, ∃ e, validator_data v = Ok e) vals →
     ∃ db', init_validators vals db = (db', Ok tt) ∧
       bucket_of db' ValidatorBucketName = fold_left put_validator vals (bucket_of db ValidatorBucketName) ∧
       ∀ name, name ≠ ValidatorBucketName → db_buckets db' !! name = db_buckets db !! name) ∧
  (∀ db' u, init_validators vals db = (db', Ok u) → Forall (λ v, ∃ e, validator_data v = Ok e) vals).
Proof.
  intros Hk. destruct (create_ok ValidatorBucketName (db_begin db)) as (tx & Hc & Bc); [done|].
  destruct (Update_ok _ db tx tt Hc) as (db1 & Hu & Hb1). rewrite Bc in Hb1.
  assert (db_buckets db1 !! ValidatorBucketName = Some (bucket_of db ValidatorBucketName)) as Hm.
  { rewrite Hb1, with_bucket_lookup, decide_True by done. done. }
  destruct (write_validators_run vals db1 _ Hk Hm) as [W1 W2].
  unfold init_validators. rewrite (go_bind_ok _ _ db db1 tt) by (by apply wrap_ok). split.
  - intros Hf. destruct (W1 Hf) as (db' & Hr & Hb). exists db'. split; [exact Hr|]. split.
    + unfold bucket_of at 1. by rewrite Hb, lookup_insert_eq.
    + intros name Hn. by rewrite Hb, lookup_insert_ne, Hb1, with_bucket_lookup, decide_False.
  - intros db' u Hr. by apply (W2 db' u).
Qed.
End init_lemmas.

Lemma usable_entries doc :
  genesis_usable doc ↔ Forall (λ e : string * Z, ∃ a, parseAddress e.1 = Ok a) (genesis_entries doc) ∧
    Forall (λ v, ∃ e, validator_data v = Ok e) (gd_InitialValidators doc).
Proof.
  unfold genesis_entries. rewrite Forall_app, Forall_fmap. split.
  - intros [Ht Hbal Hv]. split_and!; try done. destruct (bool_decide_reflect (te_Address (gd_Treasury doc) = "")); [done|].
    destruct (Z.ltb_spec 0 (te_InitialBalance (gd_Treasury doc))); [|done]. cbn. constructor; [by apply Ht|constructor].
  - intros [[Ht Hbal] Hv]. split; try done. intros Hne Hpos. rewrite bool_decide_eq_false_2, (proj2 (Z.ltb_lt _ _) Hpos) in Ht by done.
    cbn in Ht. by apply Forall_cons in Ht as [? _].
Qed.

Lemma genesis_entries_u64 doc : GenesisDoc_wf doc → Forall (λ e : string * Z, is_u64 e.2) (genesis_entries doc).
Proof.
  intros (Hu & _ & Hb). unfold genesis_entries. apply Forall_app. split.
  - destruct (negb _ && _); [|constructor]. constructor; [|constructor]. rewrite !Forall_cons in Hu. naive_solver.
  - apply Forall_fmap. eapply Forall_impl; [exact Hb|]. done.
Qed.

(** The runs of [InitGenesisState]. *)
Section init_run.
Context {DB Tx : Type} `{BoltLaws DB Tx, !BoltReliable DB Tx} `{Hasher}.
Context (Hhash : ∀ data, ∃ h, hash_data data = Ok h).
Implicit Types db : DB.

Lemma InitGenesis_ok doc db :
  GenesisDoc_wf doc → keys_small (gd_InitialValidators doc) → genesis_usable doc →
  ∃ db' t, InitGenesisState doc db = (db', Ok (Root t)) ∧ build_smt (genesis_accounts doc) ∅ NewSMT = (t, Ok tt) ∧
    bucket_of db' ValidatorBucketName
      = fold_left put_validator (gd_InitialValidators doc) (bucket_of db ValidatorBucketName) ∧
    ∀ name, name ≠ ValidatorBucketName → db_buckets db' !! name = db_buckets db !! name.
Proof.
  intros Hwf Hk [Hp Hv]%usable_entries. pose proof (genesis_entries_u64 doc Hwf) as Hent.
  destruct (fund_entries (genesis_entries doc) NewInMemoryState Hent) as [F1 F2]. destruct (F2 Hp) as (s & Hs).
  destruct (F1 s Hs) as (Ha & Hkv & _).
  destruct (init_validators_run (gd_InitialValidators doc) db Hk) as [V1 _]. destruct (V1 Hv) as (db' & Hr & Hb & Ho).
  assert (∃ t, build_smt (accounts s) (kvstore s) NewSMT = (t, Ok tt)) as [t Ht].
  { apply (build_smt_ok Hhash). rewrite Ha. intros a acc Hl.
    by apply (fund_entry_ok (genesis_entries doc) ∅ Hent (map_Forall_empty _) a acc Hl). }
  exists db', t. split.
  { unfold InitGenesisState. rewrite init_accounts_entries, Hs, Hr. unfold failed, wrap, Commit. by rewrite Ht. }
  split; [by rewrite <- Ht, Ha, Hkv|done].
Qed.

Lemma InitGenesis_needs doc db db' root :
  GenesisDoc_wf doc → keys_small (gd_InitialValidators doc) →
  InitGenesisState doc db = (db', Ok root) → genesis_usable doc.
Proof.
  intros Hwf Hk. rewrite usable_entries. pose proof (genesis_entries_u64 doc Hwf) as Hent. unfold InitGenesisState.
  rewrite init_accounts_entries. destruct (for_each _ _ NewInMemoryState) as [s [[]|e|]] eqn:Es; [|done..].
  destruct (init_validators _ db) as [db1 [[]|e|]] eqn:Ev; [|done..]. intros _. split.
  - by destruct (proj1 (fund_entries (genesis_entries doc) NewInMemoryState Hent) s Es) as (_ & _ & Hp).
  - by apply (init_validators_run (gd_InitialValidators doc) db Hk) in Ev.
Qed.
End init_run.

(** ** Properties *)


(** The wrap-around of the commission and the formats that the comment on
    [parseCommission] promises. *)
Theorem commission_formats :
  parseCommission "18446744073709551616" = Ok 0 ∧ parseCommission "10%" = Ok 10 ∧
  (∀ e, e ∈ ["10.00%"; "0.1"] → parseCommission e = Err InvalidCommission).
Proof. split; [by vm_compute|]. split; [by vm_compute|]. intros e [-> |[-> |[]%elem_of_nil]%elem_of_cons]%elem_of_cons; by vm_compute. Qed.

(** C25: initialisation is exact. On a disk and with a hasher that do not fail,
    it succeeds exactly for the usable documents (every address twenty bytes,
    keys and commissions that parse); then the returned root is the one of the
    accounts of the document (the treasury's only if its balance is positive),
    the records of the validators are in their bucket under their addresses,
    and no other bucket changes: the accounts are nowhere in the database. The
    keys of the validators must be short enough for a record. *)
Theorem genesis_initialised_exact {DB Tx} `{BoltLaws DB Tx, !BoltReliable DB Tx} `{Hasher} (doc : GenesisDoc) (db : DB) :
  (∀ data, ∃ h, hash_data data = Ok h) → GenesisDoc_wf doc → keys_small (gd_InitialValidators doc) →
  ((∃ db' root, InitGenesisState doc db = (db', Ok root)) ↔ genesis_usable doc) ∧
  ∀ db' root, InitGenesisState doc db = (db', Ok root) →
    (∃ t, build_smt (genesis_accounts doc) ∅ NewSMT = (t, Ok tt) ∧ root = Root t) ∧
    bucket_of db' ValidatorBucketName
      = fold_left put_validator (gd_InitialValidators doc) (bucket_of db ValidatorBucketName) ∧
    ∀ name, name ≠ ValidatorBucketName → db_buckets db' !! name = db_buckets db !! name.
Proof.
  intros Hhash Hwf Hk. split.
  - split; [intros (db' & root & Hr); by eapply InitGenesis_needs|]. intros Hu.
    destruct (InitGenesis_ok Hhash doc db Hwf Hk Hu) as (db' & t & Hr & _). by eauto.
  - intros db' root Hr. pose proof (InitGenesis_needs doc db db' root Hwf Hk Hr) as Hu.
    destruct (InitGenesis_ok Hhash doc db Hwf Hk Hu) as (db1 & t & Hr' & Ht & Hb & Ho).
    rewrite Hr' in Hr. injection Hr as <- <-. by eauto 10.
Qed.

(** ** Examples *)

Definition sample_entry (addr pubKey : string) : ValidatorEntry := mkValidatorEntry addr pubKey "" 1000 "500".

Definition sample_genesis (validators : list ValidatorEntry) : GenesisDoc :=
  {| gd_GenesisTime := 0; gd_ChainID := "dsn"; gd_InitialHeight := 1; gd_ConsensusParams := mkConsensusParams 100 1000000 1000000;
     gd_EpochParams := mkEpochParams 100 14 50 1000; gd_InflationParams := mkInflationParams false "" 0;
     gd_InitialValidators := validators;
     gd_InitialBalances := [mkBalanceEntry "0x2222222222222222222222222222222222222222" 5];
     gd_Treasury := mkTreasuryEntry "0x1111111111111111111111111111111111111111" 7 |}.

Definition good_genesis : GenesisDoc := sample_genesis [sample_entry "0x3333333333333333333333333333333333333333" "0xaabb"].

(** A validator with a short address passes validation, but the state cannot
    be initialised from the document. *)
Theorem validated_but_unusable :
  let doc := sample_genesis [sample_entry "0x33" "0xaabb"] in
  ValidateGenesis 0 doc = Ok tt ∧
  (InitGenesisState (H0 := SHA256Hasher) doc (∅ : contents)).2 = Err (Wrapf "GENESIS_VALIDATION_FAILED" ErrInvalidAddress).
Proof. split; vm_compute; reflexivity. Qed.

(** One address with and without its prefix is not a duplicate for
    validation, and the second record replaces the first. *)
Theorem prefixed_duplicate_accepted :
  let doc := sample_genesis [sample_entry "0x3333333333333333333333333333333333333333" "0xaa";
                             sample_entry "3333333333333333333333333333333333333333" "0xbb"] in
  ValidateGenesis 0 doc = Ok tt ∧ size (fold_left put_validator (gd_InitialValidators doc) ∅) = 1%nat.
Proof. split; vm_compute; reflexivity. Qed.

Lemma good_genesis_wf : GenesisDoc_wf good_genesis.
Proof. split_and!; repeat constructor; vm_compute; (reflexivity || discriminate). Qed.


Lemma genesis_initialised_exact_witness :
  ∃ db' root, InitGenesisState (H0 := constant_hasher) good_genesis (∅ : contents) = (db', Ok root) ∧
    (∀ name, name ≠ ValidatorBucketName → (db' : contents) !! name = None).
Proof.
  destruct (genesis_initialised_exact (H1 := constant_hasher) good_genesis (∅ : contents)) as [[_ Hok] Hres].
  - intros data. eexists. reflexivity.
  - exact good_genesis_wf.
  - repeat constructor. vm_compute. discriminate.
  - destruct Hok as (db' & root & Hrun).
    { split; [intros _ _; eexists; vm_compute; reflexivity|..]; (constructor; [eexists; vm_compute; reflexivity|constructor]). }
    exists db', root. split; [exact Hrun|]. destruct (Hres db' root Hrun) as (_ & _ & Hother).
    intros name Hn. exact (Hother name Hn).
Defined.
