(* ===== verification/Startup.v ===== *)
(** * Starting and stopping a node (node/startup.go)

    The fourteen phases of [Start] and the flush of [Shutdown], on the node of
    Node.v. Reading files is an argument ([Env]): the outcome of creating the
    data directory, the decoded genesis file, the validator key, the clock and
    the canonical JSON form of a document. Messages to the console are left
    out. The node has a database exactly when a data directory is configured. *)

From S2P Require Import Prelude Codec Sha256 Address Amount Tx Votes Block Smt Store Keys State.
From S2P Require Import Validator Registry Applier Staking ValidatorSet Economics Epoch Voting System BlockExec.
From S2P Require Import Gossip Bolt Chain Persist Mempool StateSync Node Genesis.

(** ** Phases and errors *)

Inductive StartupPhase :=
  | PhaseLoadConfig | PhaseValidateConfig | PhaseLoadGenesis | PhaseValidateGenesis | PhaseHashGenesis
  | PhaseInitBoltDB | PhaseInitGenesisState | PhaseInitValidatorRegistry | PhaseInitConsensusEngine
  | PhaseInitNetworking | PhaseInitRPC | PhaseInitMetrics | PhaseEnterSyncMode | PhaseTransitionToLive.

Definition StartupPhase_String (p : StartupPhase) : string :=
  match p with
  | PhaseLoadConfig => "LoadConfig"
  | PhaseValidateConfig => "ValidateConfig"
  | PhaseLoadGenesis => "LoadGenesis"
  | PhaseValidateGenesis => "ValidateGenesis"
  | PhaseHashGenesis => "HashGenesis"
  | PhaseInitBoltDB => "InitBoltDB"
  | PhaseInitGenesisState => "InitGenesisState"
  | PhaseInitValidatorRegistry => "InitValidatorRegistry"
  | PhaseInitConsensusEngine => "InitConsensusEngine"
  | PhaseInitNetworking => "InitNetworking"
  | PhaseInitRPC => "InitRPC"
  | PhaseInitMetrics => "InitMetrics"
  | PhaseEnterSyncMode => "EnterSyncMode"
  | PhaseTransitionToLive => "TransitionToLive"
  end.

(** A [StartupError] without and with a cause. *)
Definition startup_text (p : StartupPhase) (msg : string) : string :=
  "startup failed at " +:+ StartupPhase_String p +:+ ": " +:+ msg.
Definition startup_error (p : StartupPhase) (msg : string) : error := Errorf (startup_text p msg).
Definition in_phase {S A} (p : StartupPhase) (msg : string) (m : go S A) : go S A := wrap (startup_text p msg) m.

(** ** State *)

(** node/fastsync.go *)
Inductive SyncMode := SyncModeNormal | SyncModeFastSync | SyncModeReplay.

#[global] Instance SyncMode_eq_dec : EqDecision SyncMode.
Proof. solve_decision. Defined.

(** The rest of the configuration that the phases look at. *)
Record StartConfig := mkStartConfig {
  sc_RPCPort : Z;
  sc_MaxPeers : Z;
  sc_MetricsPort : Z;
  sc_GenesisFile : string;
  sc_ValidatorKeyFile : string;
}.

(** wallet.ValidatorKey *)
Record ValidatorKey := mkValidatorKey {
  vk_Address : Address;
  vk_PublicKey : bytes;
  vk_PrivateKey : bytes;
}.

Record Env := mkEnv {
  env_mkdir : res unit;
  env_genesis : res GenesisDoc;
  env_zeroTime : Z;
  env_now : Z;
  env_json : GenesisDoc → res bytes;
  env_key : res ValidatorKey;
}.

Record Startup (DB : Type) := mkStartup {
  su_node : Node DB;
  su_genesisDoc : option GenesisDoc;
  su_genesisHash : Hash;
  su_validators : list Address;
  su_params : option (ConsensusParams * EpochParams);
  su_syncMode : SyncMode;
  su_metrics : bool;
}.
Arguments mkStartup {_}. Arguments su_node {_}. Arguments su_genesisDoc {_}. Arguments su_genesisHash {_}.
Arguments su_validators {_}. Arguments su_params {_}. Arguments su_syncMode {_}. Arguments su_metrics {_}.

Definition genesisBucket : bytes := str_bytes "genesis".
Definition genesisHashKey : bytes := str_bytes "genesis_hash".

Section startup.
Context {DB Tx : Type} `{BoltDB DB Tx} `{Hasher}.
Abbreviation Startup := (Startup DB).

Definition with_node (n : Node DB) (su : Startup) : Startup :=
  mkStartup n (su_genesisDoc su) (su_genesisHash su) (su_validators su) (su_params su) (su_syncMode su) (su_metrics su).
Definition with_doc (doc : GenesisDoc) (su : Startup) : Startup :=
  mkStartup (su_node su) (Some doc) (su_genesisHash su) (su_validators su) (su_params su) (su_syncMode su) (su_metrics su).
Definition with_hash (h : Hash) (su : Startup) : Startup :=
  mkStartup (su_node su) (su_genesisDoc su) h (su_validators su) (su_params su) (su_syncMode su) (su_metrics su).
Definition with_validators (l : list Address) (su : Startup) : Startup :=
  mkStartup (su_node su) (su_genesisDoc su) (su_genesisHash su) l (su_params su) (su_syncMode su) (su_metrics su).
Definition with_params (p : ConsensusParams * EpochParams) (su : Startup) : Startup :=
  mkStartup (su_node su) (su_genesisDoc su) (su_genesisHash su) (su_validators su) (Some p) (su_syncMode su) (su_metrics su).
Definition with_mode (m : SyncMode) (su : Startup) : Startup :=
  mkStartup (su_node su) (su_genesisDoc su) (su_genesisHash su) (su_validators su) (su_params su) m (su_metrics su).
Definition with_metrics (b : bool) (su : Startup) : Startup :=
  mkStartup (su_node su) (su_genesisDoc su) (su_genesisHash su) (su_validators su) (su_params su) (su_syncMode su) b.

Definition on_node {A} : go (Node DB) A → go Startup A := zoom su_node with_node.

(** ** The phases *)

Definition bad_port (port : Z) : bool := (0 <? port) && ((port <? 1024) || (65535 <? port)).

Definition startupPhase1_2_LoadValidateConfig (sc : StartConfig) (env : Env) : go Startup unit :=
  su ← gets id;
  when (bool_decide (is_Some (nd_persistent (su_node su))))
    (in_phase PhaseValidateConfig "data directory is not writable" (lift (env_mkdir env)));;
  guard_err (bad_port (cfg_P2PPort (w_cfg (nd_wiring (su_node su)))))
    (startup_error PhaseValidateConfig "P2P port out of valid range (1024-65535)");;
  guard_err (bad_port (sc_RPCPort sc)) (startup_error PhaseValidateConfig "RPC port out of valid range (1024-65535)");;
  guard_err (sc_MaxPeers sc <=? 0) (startup_error PhaseValidateConfig "max peers must be greater than 0").

Definition startupPhase3_4_LoadValidateGenesis (sc : StartConfig) (env : Env) : go Startup unit :=
  doc ← in_phase PhaseLoadGenesis "failed to load genesis file"
          (lift (LoadGenesis (sc_GenesisFile sc) (env_genesis env) (env_zeroTime env)));
  in_phase PhaseValidateGenesis "genesis validation failed" (lift (ValidateGenesis (env_now env) doc));;
  modify (with_doc doc).

Definition loadStoredGenesisHash : go DB Hash :=
  View (
    b ← Bucket genesisBucket;
    mret match b with
         | None => ZeroHash
         | Some m =>
             match m !! genesisHashKey with
             | Some data => if bool_decide (length data = 32%nat) then arr_copy 32 data else ZeroHash
             | None => ZeroHash
             end
         end).

(** [CanonicalJSON] of a nil document. *)
Definition hash_doc (env : Env) (doc : option GenesisDoc) : res Hash :=
  match doc with Some d => HashGenesis (env_json env) d | None => Ok (Sum256 (str_bytes "null")) end.

Definition startupPhase5_HashGenesis (env : Env) : go Startup unit :=
  su ← gets id;
  genesisHash ← in_phase PhaseHashGenesis "failed to compute genesis hash" (lift (hash_doc env (su_genesisDoc su)));
  modify (with_hash genesisHash);;
  if bool_decide (is_Some (nd_persistent (su_node su))) then
    stored ← try (on_node (on_disk loadStoredGenesisHash));
    match stored with
    | inr storedHash =>
        guard_err (negb (bool_decide (storedHash = ZeroHash)) && negb (bool_decide (storedHash = genesisHash)))
          (startup_error PhaseHashGenesis "genesis hash mismatch: node was started with different genesis")
    | inl _ => mret tt
    end
  else mret tt.

Definition startupPhase6_InitBoltDB : go Startup unit :=
  su ← gets id;
  when (bool_decide (is_Some (nd_persistent (su_node su))))
    (in_phase PhaseInitBoltDB "failed to create genesis bucket"
       (on_node (on_disk (Update (CreateBucketIfNotExists genesisBucket))))).

(** On a fresh database. *)
Definition init_fresh (doc : GenesisDoc) (genesisHash : Hash) : go (Node DB) unit :=
  in_phase PhaseInitGenesisState "failed to initialize genesis state" (on_disk (InitGenesisState doc));;
  in_phase PhaseInitGenesisState "failed to store genesis hash"
    (on_disk (Update (Put genesisBucket genesisHashKey genesisHash)));;
  in_phase PhaseInitGenesisState "failed to commit genesis state" (on_persistent PersistentState_Commit);;
  modify (with_tip 0 ZeroHash).

(** On a database that holds a state; the tree is not rebuilt. *)
Definition load_existing : go (Node DB) unit :=
  accs ← on_cache (gets ps_cache);
  in_phase PhaseInitGenesisState "failed to load accounts from persistent storage"
    (on_state (for_each (map_to_list accs) (λ e, SetAccount e.1 (Fresh e.2))));;
  kvs ← on_cache (gets ps_kvstore);
  in_phase PhaseInitGenesisState "failed to load kvstore from persistent storage"
    (on_state (for_each (map_to_list kvs) (λ e, SetBytes e.1 e.2)));;
  load_position.

Definition startupPhase7_InitGenesisState : go Startup unit :=
  su ← gets id;
  match nd_persistent (su_node su) with
  | None => mret tt
  | Some (ps, _) =>
      if bool_decide (PersistentState_GetStateRoot ps = ZeroHash) then
        match su_genesisDoc su with
        | None => gopanic
        | Some doc => on_node (init_fresh doc (su_genesisHash su))
        end
      else on_node load_existing
  end.

Definition loadValidatorsFromDB : go DB (list Address) :=
  View (
    b ← Bucket ValidatorBucketName;
    mret match b with None => [] | Some m => (λ e : bytes * bytes, arr_copy 20 e.1) <$> entries m end).

Definition startupPhase8_InitValidatorRegistry (sc : StartConfig) (env : Env) : go Startup unit :=
  su ← gets id;
  when (bool_decide (is_Some (nd_persistent (su_node su)))) (
    validators ← in_phase PhaseInitValidatorRegistry "failed to load validators from DB"
                   (on_node (on_disk loadValidatorsFromDB));
    modify (with_validators validators));;
  when (negb (bool_decide (sc_ValidatorKeyFile sc = ""))) (
    vk ← in_phase PhaseInitValidatorRegistry "failed to load validator key" (lift (env_key env));
    on_node (modify (SetWallet (mkKeyPair (arr_copy 32 (vk_PublicKey vk)) (arr_copy 64 (vk_PrivateKey vk)))))).

Definition startupPhase9_InitConsensusEngine : go Startup unit :=
  su ← gets id;
  match su_genesisDoc su with
  | Some doc => modify (with_params (gd_ConsensusParams doc, gd_EpochParams doc))
  | None => mret tt
  end.

Definition startupPhase10_InitNetworking : go Startup unit :=
  su ← gets id;
  let w := nd_wiring (su_node su) in
  if negb (w_p2p w) || (cfg_P2PPort (w_cfg w) =? 0) then mret tt else
  when (w_engines w && negb (bool_decide (cfg_BootstrapPeers (w_cfg w) = []))) (on_node (emit_effect StartDiscovery)).

(** The server itself is started by the command line. *)
Definition startupPhase11_InitRPC : go Startup unit := mret tt.

Definition startupPhase12_InitMetrics (sc : StartConfig) : go Startup unit :=
  when (negb (sc_MetricsPort sc =? 0)) (modify (with_metrics true)).

Definition startupPhase13_EnterSyncMode : go Startup unit :=
  su ← gets id;
  match nd_persistent (su_node su) with
  | None => modify (with_mode SyncModeNormal)
  | Some (ps, _) =>
      let w := nd_wiring (su_node su) in
      if bool_decide (PersistentState_GetStateRoot ps = ZeroHash) then modify (with_mode SyncModeNormal)
      else if cfg_FastSyncEnabled (w_cfg w) && w_engines w then modify (with_mode SyncModeFastSync)
      else modify (with_mode SyncModeNormal)
  end.

(** The handler that the last phase installs for the end of fast sync. *)
Definition on_live : go Startup unit :=
  modify (with_mode SyncModeNormal);;
  su ← gets id;
  when (w_engines (nd_wiring (su_node su))) (on_node (emit_effect StartBlockSync));;
  on_node StartConsensus.

Definition startupPhase14_TransitionToLive : go Startup unit :=
  su ← gets id;
  let w := nd_wiring (su_node su) in
  if bool_decide (su_syncMode su = SyncModeFastSync) && w_engines w then on_node (emit_effect StartFastSync) else
  modify (with_mode SyncModeNormal);;
  when (bool_decide (0 < length (cfg_Validators (w_cfg w)))%nat && w_p2p w) (on_node StartConsensus).

Definition Start (sc : StartConfig) (env : Env) : go Startup unit :=
  startupPhase1_2_LoadValidateConfig sc env;;
  startupPhase3_4_LoadValidateGenesis sc env;;
  startupPhase5_HashGenesis env;;
  startupPhase6_InitBoltDB;;
  startupPhase7_InitGenesisState;;
  startupPhase8_InitValidatorRegistry sc env;;
  startupPhase9_InitConsensusEngine;;
  startupPhase10_InitNetworking;;
  startupPhase11_InitRPC;;
  startupPhase12_InitMetrics sc;;
  startupPhase13_EnterSyncMode;;
  startupPhase14_TransitionToLive.

(** ** Shutdown

    The header that is stored as the tip. *)
Definition shutdown_tip (height : Z) (root : Hash) (now : Z) : BlockHeader :=
  {| h_Version := 0; h_Height := height; h_PreviousHash := ZeroHash; h_StateRoot := root; h_TxRoot := ZeroHash;
     h_ReceiptRoot := ZeroHash; h_ValidatorRoot := ZeroHash; h_ValidatorSetHash := ZeroHash; h_Epoch := 0;
     h_Timestamp := u64 now; h_Proposer := ZeroAddress; h_EventsRoot := ZeroHash |}.

(** What [Shutdown] does besides stopping the engines; [now] is the clock. *)
Definition Shutdown (now : Z) : go Startup unit :=
  on_node StopConsensus;;
  modify (with_metrics false);;
  su ← gets id;
  match nd_persistent (su_node su) with
  | None => mret tt
  | Some (ps, _) =>
      let n := su_node su in
      when (0 <? nd_currentHeight n)
        (on_node (ignore (on_disk (StoreTip (shutdown_tip (nd_currentHeight n) (PersistentState_GetStateRoot ps) now)))))
  end.
End startup.

(** ** Lemmas *)

Section lemmas.
Context {DB Tx : Type} `{BoltLaws DB Tx, !BoltReliable DB Tx} `{Hasher}.
Implicit Types (n : Node DB) (su : Startup DB).

(** The parts that the later phases do not touch. *)
Definition same_core su su' : Prop :=
  nd_persistent (su_node su') = nd_persistent (su_node su) ∧ nd_state (su_node su') = nd_state (su_node su) ∧
  su_validators su' = su_validators su.

(** A phase that succeeds without touching them. *)
Definition harmless (m : go (Startup DB) unit) : Prop := ∀ su, ∃ su', m su = (su', Ok tt) ∧ same_core su su'.

Lemma harmless_bind m k : harmless m → harmless k → harmless (m;; k).
Proof.
  intros Hm Hk su. destruct (Hm su) as (s1 & H1' & A1 & B1 & C1). destruct (Hk s1) as (s2 & H2' & A2 & B2 & C2).
  exists s2. rewrite (go_bind_ok _ _ _ _ _ H1'). split; [done|]. split_and!; congruence.
Qed.

Lemma harmless_run m : (∀ su, (m su).2 = Ok tt ∧ same_core su (m su).1) → harmless m.
Proof. intros Hm su. destruct (Hm su) as [Hr Hs]. destruct (m su) as [s' r]. cbn in *. subst. by exists s'. Qed.

Lemma load_position_ok n :
  is_Some (nd_persistent n) → ∃ n', load_position n = (n', Ok tt) ∧ nd_persistent n' = nd_persistent n ∧ nd_state n' = nd_state n.
Proof.
  intros [[ps db] En]. destruct (LoadTip_total db) as (tip & Ht & _).
  unfold load_position. rewrite (go_bind_ok _ _ _ _ _ (try_on_disk LoadTip n ps db tip En Ht)).
  destruct tip as [e|h]; eexists; (split; [reflexivity|done]).
Qed.

Lemma StartConsensus_ok n :
  ∃ n', StartConsensus n = (n', Ok tt) ∧ nd_persistent n' = nd_persistent n ∧ nd_state n' = nd_state n.
Proof.
  unfold StartConsensus. erewrite go_bind_ok; [|reflexivity]. cbn [id].
  destruct (nd_consensusRunning n); [by exists n|]. destruct (negb _ || _); [by exists n|].
  erewrite go_bind_ok; [|reflexivity]. set (n1 := with_running true n).
  assert (∃ n2, when (bool_decide (is_Some (nd_persistent n))) (load_position;;
      (if cfg_FastSyncEnabled (w_cfg (nd_wiring n)) && w_engines (nd_wiring n) then emit_effect StartFastSync
       else when (w_engines (nd_wiring n)) (emit_effect StartBlockSync))) n1 = (n2, Ok tt) ∧
      nd_persistent n2 = nd_persistent n ∧ nd_state n2 = nd_state n) as (n2 & Hr & Hp & Hs).
  { case_bool_decide as Hb; cbn [when]; [|by exists n1]. destruct (load_position_ok n1 Hb) as (n2 & Hl & Hp & Hs).
    erewrite go_bind_ok; [|exact Hl]. destruct (_ && _); [|destruct (w_engines _)]; eexists; (split; [reflexivity|done]). }
  rewrite (go_bind_ok _ _ _ _ _ Hr). clear Hr.
  destruct (w_engines (nd_wiring n) && negb _); eexists; (split; [reflexivity|done]).
Qed.

Lemma harmless_late sc :
  harmless (startupPhase9_InitConsensusEngine;; startupPhase10_InitNetworking;; startupPhase11_InitRPC;;
            startupPhase12_InitMetrics sc;; startupPhase13_EnterSyncMode;; startupPhase14_TransitionToLive).
Proof.
  repeat apply harmless_bind; apply harmless_run; intros su.
  - unfold startupPhase9_InitConsensusEngine, gets, mbind, go_bind. cbn [id]. by destruct (su_genesisDoc su).
  - unfold startupPhase10_InitNetworking, gets, mbind, go_bind. cbn [id]. destruct (_ || _); [done|]. by destruct (_ && _).
  - done.
  - unfold startupPhase12_InitMetrics. by destruct (negb _).
  - unfold startupPhase13_EnterSyncMode, gets, mbind, go_bind. cbn [id]. destruct (nd_persistent _) as [[ps db]|] eqn:E; [|done].
    case_bool_decide; [done|]. by destruct (_ && _).
  - unfold startupPhase14_TransitionToLive, gets, mbind, go_bind. cbn [id]. destruct (_ && _); [done|].
    destruct (_ && _); cbn [when modify]; [|done]. unfold on_node, zoom. cbn [su_node with_mode].
    destruct (StartConsensus_ok (su_node su)) as (n' & -> & Hp & Hs). done.
Qed.

(** What the first phases ask of the configuration and of the genesis file,
    which holds [doc] with hash [h]. *)
Record start_input sc env su (doc : GenesisDoc) (h : Hash) : Prop := {
  si_mkdir : env_mkdir env = Ok tt;
  si_p2p : bad_port (cfg_P2PPort (w_cfg (nd_wiring (su_node su)))) = false;
  si_rpc : bad_port (sc_RPCPort sc) = false;
  si_peers : 0 < sc_MaxPeers sc;
  si_doc : LoadGenesis (sc_GenesisFile sc) (env_genesis env) (env_zeroTime env) = Ok doc;
  si_valid : ValidateGenesis (env_now env) doc = Ok tt;
  si_hash : HashGenesis (env_json env) doc = Ok h;
}.

Lemma config_phase sc env su doc h : start_input sc env su doc h → startupPhase1_2_LoadValidateConfig sc env su = (su, Ok tt).
Proof.
  intros [Hd Hp Hr Hm _ _ _]. unfold startupPhase1_2_LoadValidateConfig. erewrite go_bind_ok; [|reflexivity]. cbn [id].
  rewrite (go_bind_ok _ _ su su tt).
  - rewrite Hp, Hr. destruct (Z.leb_spec (sc_MaxPeers sc) 0); [lia|]. done.
  - rewrite Hd. by destruct (bool_decide _).
Qed.

Lemma genesis_phase sc env su doc h :
  start_input sc env su doc h → startupPhase3_4_LoadValidateGenesis sc env su = (with_doc doc su, Ok tt).
Proof.
  intros [_ _ _ _ Hl Hv _]. unfold startupPhase3_4_LoadValidateGenesis, in_phase. rewrite Hl.
  erewrite go_bind_ok; [|reflexivity]. rewrite Hv. done.
Qed.

(** The stored hash depends on one entry of the database. *)
Definition stored_hash (m : contents) : Hash :=
  match default ∅ (m !! genesisBucket) !! genesisHashKey with
  | Some data => if bool_decide (length data = 32%nat) then arr_copy 32 data else ZeroHash
  | None => ZeroHash
  end.

Lemma loadStored_run (db : DB) : loadStoredGenesisHash db = (db, Ok (stored_hash (db_buckets db))).
Proof.
  unfold loadStoredGenesisHash, View, Bucket, gets, mbind, go_bind, stored_hash. fold (db_buckets db).
  destruct (db_buckets db !! genesisBucket) as [m|]; [done|]. reflexivity.
Qed.

Lemma stored_hash_put m h b : m !! genesisBucket = Some b → b !! genesisHashKey = Some (arr_bytes h) → stored_hash m = h.
Proof.
  intros Hb Hh. unfold stored_hash. rewrite Hb. cbn [default]. unfold id. rewrite Hh, bool_decide_eq_true_2 by apply arr_length.
  by rewrite arr_copy_arr.
Qed.

Lemma hash_phase sc env su ps db doc h :
  start_input sc env su doc h → nd_persistent (su_node su) = Some (ps, db) →
  startupPhase5_HashGenesis env (with_doc doc su)
  = (with_hash h (with_doc doc su),
     if negb (bool_decide (stored_hash (db_buckets db) = ZeroHash)) && negb (bool_decide (stored_hash (db_buckets db) = h))
     then Err (startup_error PhaseHashGenesis "genesis hash mismatch: node was started with different genesis")
     else Ok tt).
Proof.
  intros [_ _ _ _ _ _ Hh] En. unfold startupPhase5_HashGenesis. erewrite go_bind_ok; [|reflexivity].
  cbn [id su_genesisDoc su_node with_doc hash_doc]. rewrite Hh. unfold in_phase. erewrite go_bind_ok; [|reflexivity].
  erewrite go_bind_ok; [|reflexivity]. rewrite bool_decide_eq_true_2 by eauto.
  assert (try (on_node (on_disk loadStoredGenesisHash)) (with_hash h (with_doc doc su))
    = (with_hash h (with_doc doc su), Ok (inr (stored_hash (db_buckets db))))) as Hs.
  { unfold try, on_node, zoom. cbn [su_node with_hash with_doc].
    rewrite (on_disk_read _ _ ps db _ En (loadStored_run db)). by destruct su. }
  rewrite (go_bind_ok _ _ _ _ _ Hs). by destruct (_ && _).
Qed.

Lemma bucket_phase su ps db :
  nd_persistent (su_node su) = Some (ps, db) →
  ∃ db', startupPhase6_InitBoltDB su = (with_node (with_persistent (Some (ps, db')) (su_node su)) su, Ok tt) ∧
    db_buckets db' = with_bucket genesisBucket (db_buckets db).
Proof.
  intros En. destruct (create_ok genesisBucket (db_begin db)) as (tx & Hc & Bc); [done|].
  destruct (Update_ok _ db tx tt Hc) as (db' & Hu & Hb). exists db'. split; [|by rewrite Hb, Bc].
  unfold startupPhase6_InitBoltDB. erewrite go_bind_ok; [|reflexivity]. cbn [id].
  rewrite bool_decide_eq_true_2 by eauto. cbn [when]. apply wrap_ok. unfold on_node, zoom.
  by rewrite (on_disk_ok _ _ ps db db' (Ok tt) En Hu).
Qed.

(** The state of a fresh node on disk: no accounts, and the root that is
    either absent or zero. *)
Definition fresh_cache : PersistentState := mkPersistentState ∅ ∅ ZeroHash.

Lemma commit_empty (db : DB) r :
  holds db ∅ ∅ r → ∃ db', PersistentState_Commit (fresh_cache, db) = ((fresh_cache, db'), Ok ZeroHash) ∧
    db_buckets db' = persisted_image fresh_cache ZeroHash (db_buckets db).
Proof.
  intros Hd. destruct (persist_all_run fresh_cache ZeroHash db ∅ ∅ r Hd) as (db' & Hu & Hb); [by apply map_Forall_empty..|].
  exists db'. split; [|done]. unfold PersistentState_Commit.
  assert (build_smt (ps_cache fresh_cache) (ps_kvstore fresh_cache) NewSMT = (NewSMT, Ok tt)) as -> by reflexivity.
  change (mkPersistentState (ps_cache fresh_cache) (ps_kvstore fresh_cache) (Root NewSMT)) with fresh_cache.
  change (Root NewSMT) with ZeroHash. by rewrite Hu.
Qed.

Lemma holds_other (db db' : DB) accs kvs r :
  holds db accs kvs r → (∀ name, name ∈ [accountsBucket; kvstoreBucket; metaBucket] → db_buckets db' !! name = db_buckets db !! name) →
  holds db' accs kvs r.
Proof. intros [Ha Hk Hm] Hn. split; rewrite Hn by set_solver; done. Qed.

Section init_fresh.
Context (Hhash : ∀ data, ∃ h, hash_data data = Ok h).

Lemma init_fresh_run doc h n db b r :
  GenesisDoc_wf doc → keys_small (gd_InitialValidators doc) → genesis_usable doc →
  nd_persistent n = Some (fresh_cache, db) → holds db ∅ ∅ r → db_buckets db !! genesisBucket = Some b →
  ∃ db', init_fresh doc h n = (with_tip 0 ZeroHash (with_persistent (Some (fresh_cache, db')) n), Ok tt) ∧
    holds db' ∅ ∅ (Some ZeroHash) ∧ stored_hash (db_buckets db') = h ∧
    bucket_of db' ValidatorBucketName = fold_left put_validator (gd_InitialValidators doc) (bucket_of db ValidatorBucketName).
Proof.
  intros Hwf Hk Hu En Hd Hb. destruct (InitGenesis_ok Hhash doc db Hwf Hk Hu) as (db1 & t & R1 & _ & V1 & O1).
  assert (db_buckets db1 !! genesisBucket = Some b) as Hb1 by (by rewrite O1).
  destruct (Put_ok genesisBucket genesisHashKey (arr_bytes h) (db_begin db1) b Hb1) as (tx & Hp & Bp).
  { split; [done|]. by rewrite arr_length. }
  destruct (Update_ok _ db1 tx tt Hp) as (db2 & R2 & B2). rewrite Bp in B2.
  assert (holds db2 ∅ ∅ r) as Hd2.
  { apply (holds_other db); [done|]. intros name Hn. rewrite B2, lookup_insert_ne by (intros <-; revert Hn; by set_solver).
    apply O1. intros ->. revert Hn. set_solver. }
  destruct (commit_empty db2 r Hd2) as (db3 & R3 & B3). exists db3. split_and!.
  - unfold init_fresh, in_phase.
    rewrite (go_bind_ok _ _ _ _ _ (wrap_ok _ _ _ _ _ (on_disk_ok _ n _ db _ _ En R1))).
    set (n1 := with_persistent _ n). set (n2 := with_persistent (Some (fresh_cache, db2)) n1).
    rewrite (go_bind_ok _ _ n1 n2 tt) by (apply wrap_ok; by apply (on_disk_ok _ n1 fresh_cache db1)).
    rewrite (go_bind_ok _ _ n2 (with_persistent (Some (fresh_cache, db3)) n2) ZeroHash)
      by (apply wrap_ok; by apply (on_persistent_ok _ n2 (fresh_cache, db2))). done.
  - exact (persisted_holds _ _ _ _ _ _ _ Hd2 B3).
  - apply (stored_hash_put _ _ (<[genesisHashKey := arr_bytes h]> b)); [|by rewrite lookup_insert_eq].
    rewrite B3, persisted_other by done. by rewrite B2, lookup_insert_eq.
  - unfold bucket_of in *. rewrite B3, persisted_other by done. rewrite B2, lookup_insert_ne by done. done.
Qed.
End init_fresh.

Lemma fresh_phase su db doc h n' :
  nd_persistent (su_node su) = Some (fresh_cache, db) → su_genesisDoc su = Some doc → su_genesisHash su = h →
  init_fresh doc h (su_node su) = (n', Ok tt) → startupPhase7_InitGenesisState su = (with_node n' su, Ok tt).
Proof.
  intros En Hd <- Hi. unfold startupPhase7_InitGenesisState. erewrite go_bind_ok; [|reflexivity]. cbn [id].
  rewrite En, bool_decide_eq_true_2 by done. rewrite Hd. unfold on_node, zoom. by rewrite Hi.
Qed.

(** The keys of the validator bucket. *)
Lemma put_validators_keys (vals : list ValidatorEntry) (m : gmap bytes bytes) (k : bytes) :
  Forall (λ v, ∃ e, validator_data v = Ok e) vals →
  is_Some (fold_left put_validator vals m !! k) ↔
  is_Some (m !! k) ∨ ∃ v a, v ∈ vals ∧ parseAddress (ve_Address v) = Ok a ∧ k = arr_bytes a.
Proof.
  intros Hv. revert m. induction Hv as [|v vals [e He] _ IH]; intros m; cbn [fold_left].
  { split; [by left|]. intros [?|(v & a & Hin & _)]; [done|by apply not_elem_of_nil in Hin]. }
  assert (parseAddress (ve_Address v) = Ok e.1) as Ha.
  { unfold validator_data in He. destruct (parseAddress _) as [a| |]; [|done..]. cbn in He.
    destruct (hex_decode _); [|done]. cbn in He. destruct (parseCommissionToUint64 _); [|done..]. by injection He as <-. }
  rewrite IH. unfold put_validator. rewrite He. destruct (decide (k = arr_bytes e.1)) as [->|Hk].
  - rewrite lookup_insert_eq. split; [intros _; right; exists v, e.1; set_solver|by left].
  - rewrite lookup_insert_ne by done. split; (intros [?|(w & a & Hin & Hw & ->)]; [by left|right]).
    + exists w, a. set_solver.
    + apply elem_of_cons in Hin as [->|Hin]; [by congruence|]. by exists w, a.
Qed.

Lemma loadValidators_run (db : DB) :
  loadValidatorsFromDB db = (db, Ok ((λ e : bytes * bytes, arr_copy 20 e.1) <$> entries (bucket_of db ValidatorBucketName))).
Proof.
  unfold loadValidatorsFromDB, View, Bucket, gets, mbind, go_bind, bucket_of. fold (db_buckets db).
  by destruct (db_buckets db !! ValidatorBucketName).
Qed.

Lemma loaded_validators (vals : list ValidatorEntry) (db : DB) (a : Address) :
  Forall (λ v, ∃ e, validator_data v = Ok e) vals → bucket_of db ValidatorBucketName = fold_left put_validator vals ∅ →
  a ∈ ((λ e : bytes * bytes, arr_copy 20 e.1 : Address) <$> entries (bucket_of db ValidatorBucketName)) ↔
  ∃ v, v ∈ vals ∧ parseAddress (ve_Address v) = Ok a.
Proof.
  intros Hv Hb. rewrite Hb, list_elem_of_fmap. split.
  - intros ([k d] & -> & Hin%elem_of_entries).
    destruct (proj1 (put_validators_keys vals ∅ k Hv)) as [[x Hx]|(v & b & Hin' & Hp & ->)]; [by eauto|done|].
    exists v. cbn [fst]. by rewrite arr_copy_arr.
  - intros (v & Hin & Hp). destruct (proj2 (put_validators_keys vals ∅ (arr_bytes a) Hv)) as [d Hd]; [right; by exists v, a|].
    exists (arr_bytes a, d). rewrite elem_of_entries. cbn [fst]. by rewrite arr_copy_arr.
Qed.

Lemma registry_phase sc env su ps db :
  nd_persistent (su_node su) = Some (ps, db) → sc_ValidatorKeyFile sc = "" →
  startupPhase8_InitValidatorRegistry sc env su
  = (with_validators ((λ e : bytes * bytes, arr_copy 20 e.1) <$> entries (bucket_of db ValidatorBucketName)) su, Ok tt).
Proof.
  intros En Hk. unfold startupPhase8_InitValidatorRegistry. erewrite go_bind_ok; [|reflexivity]. cbn [id].
  rewrite (bool_decide_eq_true_2 (is_Some (nd_persistent (su_node su)))) by eauto. cbn [when].
  rewrite (go_bind_ok _ _ su (with_validators ((λ e : bytes * bytes, arr_copy 20 e.1) <$> entries (bucket_of db ValidatorBucketName)) su) tt).
  - by rewrite Hk.
  - erewrite go_bind_ok; [reflexivity|]. apply wrap_ok. unfold on_node, zoom.
    rewrite (on_disk_read _ _ ps db _ En (loadValidators_run db)). by destruct su.
Qed.
End lemmas.

(** ** Properties *)

(** C26: the first start of a node on an empty database succeeds for every
    valid and usable document. It pins the hash of the document and loads
    exactly the validators of the document; but neither the state in memory nor
    the one on disk gets an account, whatever balances the document grants, and
    the stored root stays zero, so that the next start is again a first one.
    The configuration is valid and names no validator key file, the disk and
    the hasher do not fail, and no other genesis is pinned. *)
Theorem first_start {DB Tx} `{BoltLaws DB Tx, !BoltReliable DB Tx} `{Hasher}
    (sc : StartConfig) (env : Env) (su : Startup DB) (doc : GenesisDoc) (h : Hash) (db : DB) (r : option Hash) :
  (∀ data, ∃ h, hash_data data = Ok h) → GenesisDoc_wf doc → keys_small (gd_InitialValidators doc) → genesis_usable doc →
  start_input sc env su doc h → sc_ValidatorKeyFile sc = "" →
  nd_persistent (su_node su) = Some (fresh_cache, db) → holds db ∅ ∅ r →
  stored_hash (db_buckets db) ∈ [ZeroHash; h] → bucket_of db ValidatorBucketName = ∅ →
  ∃ su' db', Start sc env su = (su', Ok tt) ∧
    nd_persistent (su_node su') = Some (fresh_cache, db') ∧ holds db' ∅ ∅ (Some ZeroHash) ∧
    nd_state (su_node su') = nd_state (su_node su) ∧
    loadStoredGenesisHash db' = (db', Ok h) ∧
    ∀ a, a ∈ su_validators su' ↔ ∃ v, v ∈ gd_InitialValidators doc ∧ parseAddress (ve_Address v) = Ok a.
Proof.
  intros Hhash Hwf Hk Hu Hin Hkey En Hd Hst Hv. unfold Start.
  rewrite (go_bind_ok _ _ _ _ _ (config_phase _ _ _ _ _ Hin)), (go_bind_ok _ _ _ _ _ (genesis_phase _ _ _ _ _ Hin)).
  erewrite go_bind_ok; [|rewrite (hash_phase sc env su fresh_cache db doc h Hin En);
    rewrite !elem_of_cons, elem_of_nil in Hst; destruct Hst as [->|[->|[]]];
    [rewrite bool_decide_eq_true_2 by done|rewrite (bool_decide_eq_true_2 (h = h)), andb_false_r by done]; reflexivity].
  set (su1 := with_hash h (with_doc doc su)).
  destruct (bucket_phase su1 fresh_cache db En) as (db1 & P6 & B1). rewrite (go_bind_ok _ _ _ _ _ P6).
  set (su2 := with_node _ su1).
  assert (holds db1 ∅ ∅ r) as Hd1.
  { apply (holds_other db); [done|]. intros name Hn. rewrite B1, with_bucket_lookup, decide_False; [done|]. intros ->. revert Hn. set_solver. }
  destruct (init_fresh_run Hhash doc h (su_node su2) db1 (bucket_of db genesisBucket) r Hwf Hk Hu eq_refl Hd1) as (db2 & P7 & Hd2 & Hs2 & Hb2).
  { rewrite B1, with_bucket_lookup, decide_True by done. done. }
  rewrite (go_bind_ok _ _ su2 (with_node (with_tip 0 ZeroHash (with_persistent (Some (fresh_cache, db2)) (su_node su2))) su2) tt).
  2: { by apply (fresh_phase su2 db1 doc h). }
  set (su3 := with_node _ su2). rewrite (go_bind_ok _ _ _ _ _ (registry_phase sc env su3 fresh_cache db2 eq_refl Hkey)).
  destruct (harmless_late sc (with_validators ((λ e : bytes * bytes, arr_copy 20 e.1) <$> entries (bucket_of db2 ValidatorBucketName)) su3))
    as (su' & Hl & Hp & Hst' & Hvs). exists su', db2. split; [exact Hl|]. rewrite Hp, Hst', Hvs. split; [done|]. split; [done|]. split; [done|].
  split; [by rewrite loadStored_run, Hs2|]. intros a. apply loaded_validators; [by apply Hu|].
  rewrite Hb2. unfold bucket_of in *. rewrite B1, with_bucket_lookup, decide_False by done. by rewrite Hv.
Qed.

(** Once a hash is stored, a start with another document fails in the
    hashing phase, before anything of the node or of its database changes. *)
Theorem genesis_pinned {DB Tx} `{BoltLaws DB Tx} `{Hasher}
    (sc : StartConfig) (env : Env) (su : Startup DB) (doc : GenesisDoc) (h h0 : Hash) (ps : PersistentState) (db : DB) :
  start_input sc env su doc h → nd_persistent (su_node su) = Some (ps, db) →
  loadStoredGenesisHash db = (db, Ok h0) → h0 ≠ ZeroHash → h0 ≠ h →
  ∃ su', Start sc env su
    = (su', Err (startup_error PhaseHashGenesis "genesis hash mismatch: node was started with different genesis")) ∧
    su_node su' = su_node su.
Proof.
  intros Hin En Hst Hz Hne. rewrite loadStored_run in Hst. injection Hst as Hst. unfold Start.
  rewrite (go_bind_ok _ _ _ _ _ (config_phase _ _ _ _ _ Hin)), (go_bind_ok _ _ _ _ _ (genesis_phase _ _ _ _ _ Hin)).
  pose proof (hash_phase sc env su ps db doc h Hin En) as Hp. rewrite Hst, !bool_decide_eq_false_2 in Hp by done.
  exists (with_hash h (with_doc doc su)). split; [|done]. unfold mbind at 1, go_bind at 1. by rewrite Hp.
Qed.

(** A shutdown above height zero overwrites the stored tip with a header
    made up from the height, the root and the clock: the link to the previous
    block and the epoch are gone, so a node that loads its position from it
    continues from a hash that no block has. *)
Theorem shutdown_replaces_tip {DB Tx} `{BoltLaws DB Tx, !BoltReliable DB Tx} `{Hasher}
    (now : Z) (su : Startup DB) (ps : PersistentState) (db : DB) :
  nd_persistent (su_node su) = Some (ps, db) → 0 < nd_currentHeight (su_node su) → is_u64 (nd_currentHeight (su_node su)) →
  let tip := stored_header (shutdown_tip (nd_currentHeight (su_node su)) (ps_root ps) now) in
  ∃ su' db' n', Shutdown now su = (su', Ok tt) ∧ nd_persistent (su_node su') = Some (ps, db') ∧
    LoadTip db' = (db', Ok tip) ∧ load_position (su_node su') = (n', Ok tt) ∧
    nd_currentTipHash n' = hash_or_zero (HeaderHash tip) ∧ nd_currentEpoch n' = 0.
Proof.
  intros En Hh Hu tip. set (hd := shutdown_tip (nd_currentHeight (su_node su)) (ps_root ps) now).
  destruct (store_one (CreateBucketIfNotExists chainBucket;; Put chainBucket tipKey (encodeHeader hd)) chainBucket tipKey (encodeHeader hd) db
    eq_refl) as (db' & Hs & Hb); [done|apply tip_storable|].
  destruct (tip_stored db db' hd) as [Ht _]; [|done|].
  { pose proof (u64_is_u64 now) as Hn. unfold BlockHeader_wf, fits, is_u64 in *. cbn -[u64]. lia. }
  set (su1 := with_metrics false (with_node (with_running false (su_node su)) su)).
  set (n' := with_persistent (Some (ps, db')) (su_node su1)).
  exists (with_node n' su1), db', (with_epoch 0 (with_tip (h_Height tip) (hash_or_zero (HeaderHash tip)) n')).
  split; [|split; [done|split; [exact Ht|split; [|done]]]].
  - assert (nd_persistent (su_node su1) = Some (ps, db)) as En1 by done. unfold Shutdown.
    rewrite (go_bind_ok _ _ su (with_node (with_running false (su_node su)) su) tt) by done.
    rewrite (go_bind_ok _ _ _ su1 tt), (go_bind_ok _ _ su1 su1 su1) by done. rewrite En1.
    change (nd_currentHeight (su_node su1)) with (nd_currentHeight (su_node su)). rewrite (proj2 (Z.ltb_lt _ _) Hh). cbn [when].
    unfold on_node, zoom, ignore. erewrite go_bind_ok; [reflexivity|]. unfold try.
    change (PersistentState_GetStateRoot ps) with (ps_root ps). fold hd. by rewrite (on_disk_ok (StoreTip hd) (su_node su1) ps db db' _ En1 Hs).
  - unfold load_position. rewrite (go_bind_ok _ _ n' n' (inr tip)); [reflexivity|].
    apply (try_on_disk LoadTip n' ps db'); [done|]. unfold try. by rewrite Ht.
Qed.

(** ** Examples *)

Definition example_env : Env := mkEnv (Ok tt) (Ok good_genesis) (-1) 0 (λ _, Ok []) (Err (Errorf "no key")).
Definition example_start : StartConfig := mkStartConfig 8545 50 0 "genesis.json" "".

(** The buckets of an empty state, with or without a stored hash. *)
Definition empty_disk : contents := {[ accountsBucket := ∅; kvstoreBucket := ∅; metaBucket := ∅ ]}.
Definition pinned_disk : contents := <[genesisBucket := {[ genesisHashKey := arr_bytes (arr_copy 32 [x01]) ]}]> empty_disk.

Definition example_startup (db : contents) (height : Z) : Startup contents :=
  mkStartup (with_tip height ZeroHash (fresh_node example_config idle_vm (Some (fresh_cache, db)) false))
    None ZeroHash [] None SyncModeNormal false.

Lemma example_input db height : start_input example_start example_env (example_startup db height) good_genesis (Sum256 []).
Proof. split; reflexivity. Qed.

Lemma first_start_witness :
  ∃ su' db', Start (H0 := constant_hasher) example_start example_env (example_startup empty_disk 0) = (su', Ok tt) ∧
    nd_persistent (su_node su') = Some (fresh_cache, db') ∧ accounts (nd_state (su_node su')) = ∅.
Proof.
  destruct (first_start (H1 := constant_hasher) example_start example_env (example_startup empty_disk 0) good_genesis (Sum256 [])
    empty_disk None) as (su' & db' & Hr & Hp & _ & Hs & _).
  - intros data. eexists. reflexivity.
  - exact good_genesis_wf.
  - repeat constructor. vm_compute. discriminate.
  - split; [intros _ _; eexists; vm_compute; reflexivity|..]; (constructor; [eexists; vm_compute; reflexivity|constructor]).
  - apply example_input.
  - reflexivity.
  - reflexivity.
  - split; [vm_compute; reflexivity..|]. exists ∅. split; vm_compute; reflexivity.
  - apply elem_of_cons. left. vm_compute. reflexivity.
  - vm_compute. reflexivity.
  - exists su', db'. split; [exact Hr|]. split; [exact Hp|]. rewrite Hs. reflexivity.
Defined.

Lemma genesis_pinned_witness :
  ∃ su', Start (H0 := constant_hasher) example_start example_env (example_startup pinned_disk 0)
    = (su', Err (startup_error PhaseHashGenesis "genesis hash mismatch: node was started with different genesis")).
Proof.
  destruct (genesis_pinned (H1 := constant_hasher) example_start example_env (example_startup pinned_disk 0) good_genesis
    (Sum256 []) (arr_copy 32 [x01]) fresh_cache pinned_disk) as (su' & Hr & _).
  - apply example_input.
  - reflexivity.
  - rewrite loadStored_run. do 2 f_equal. apply (stored_hash_put _ _ {[ genesisHashKey := arr_bytes (arr_copy 32 [x01]) ]}); reflexivity.
  - intros E. apply (f_equal (λ a : Hash, unbe a)) in E. revert E. vm_compute. discriminate.
  - intros E. apply (f_equal (λ a : Hash, unbe a)) in E. rewrite Sum256_empty in E. revert E. vm_compute. discriminate.
  - exists su'. exact Hr.
Defined.

Lemma shutdown_replaces_tip_witness :
  ∃ su', Shutdown 9 (example_startup empty_disk 5) = (su', Ok tt).
Proof.
  destruct (shutdown_replaces_tip (H1 := constant_hasher) 9 (example_startup empty_disk 5) fresh_cache empty_disk) as (su' & _ & _ & Hr & _).
  - reflexivity.
  - reflexivity.
  - split; vm_compute; (reflexivity || discriminate).
  - exists su'. exact Hr.
Defined.
