(* ===== verification/Wire.v ===== *)
(** * Messages between peers (network/message.go, snapshot.go, blocksync.go,
    peer_discovery.go, peer.go)

    The byte formats of the network package: frames, snapshot messages, block
    ranges, peer exchange and stored peer records. A slice expression whose
    bounds are out of order panics. Times are in nanoseconds since the Unix
    epoch. *)

From S2P Require Import Prelude Codec Sha256 Address Amount Tx Votes Block Smt Store Keys State StateSync.

(** [data[lo:hi]]. *)
Definition slice (lo hi : Z) (data : bytes) : res bytes :=
  if (lo <? 0) || (hi <? lo) || (Z.of_nat (length data) <? hi) then Panic
  else Ok (take (Z.to_nat (hi - lo)) (drop (Z.to_nat lo) data)).

(** ** Frames (message.go) *)

Definition MsgTypeBlock : byte := x01.
Definition MsgTypeTransaction : byte := x02.
Definition MsgTypeSnapshotQuery : byte := x10.
Definition MsgTypeSnapshotInfo : byte := x11.
Definition MsgTypeSnapshotRequest : byte := x12.
Definition MsgTypeSnapshotChunk : byte := x13.
Definition MsgTypePeerExchange : byte := x20.
Definition MsgTypePeerListRequest : byte := x21.
Definition MsgTypePeerListResponse : byte := x22.
Definition MsgTypeBlockRangeRequest : byte := x30.
Definition MsgTypeBlockRangeResponse : byte := x31.
Definition MsgTypePing : byte := x40.
Definition MsgTypePong : byte := x41.

Definition MaxPayloadSize : Z := 1 * 1024 * 1024.
Definition MaxBlocksPerRangeResponse : Z := 100.

(** The table after [init] of discovery.go has added its two types. *)
Definition knownMessageTypes : list byte :=
  [MsgTypeBlock; MsgTypeTransaction; MsgTypeSnapshotQuery; MsgTypeSnapshotInfo; MsgTypeSnapshotRequest; MsgTypeSnapshotChunk;
   MsgTypePeerExchange; MsgTypeBlockRangeRequest; MsgTypeBlockRangeResponse; MsgTypePing; MsgTypePong;
   MsgTypePeerListRequest; MsgTypePeerListResponse].

Definition IsKnownType (msgType : byte) : bool := bool_decide (msgType ∈ knownMessageTypes).

Definition maxPayloadByType : list (byte * Z) := (λ t, (t, MaxPayloadSize)) <$> knownMessageTypes.

Definition MaxPayloadForType (msgType : byte) : Z :=
  match list_find (λ e, e.1 = msgType) maxPayloadByType with Some (_, (_, limit)) => limit | None => MaxPayloadSize end.

Definition FrameMessage (msgType : byte) (payload : bytes) : bytes :=
  be 4 (u32 (1 + Z.of_nat (length payload))) ++ msgType :: payload.

Definition ParseMessage (data : bytes) : res (byte * bytes) :=
  match data with
  | _ :: _ :: _ :: _ :: msgType :: _ =>
      let msgLen := unbe (take 4 data) in
      if MaxPayloadSize <? msgLen then Err (Errorf "payload exceeds maximum size for message type") else
      if Z.of_nat (length data) <? 4 + msgLen
      then Err (Errorf "message truncated: declared length exceeds available data") else
      if negb (IsKnownType msgType) then Err (Errorf "unknown message type") else
      payload ← slice 5 (4 + msgLen) data;
      Ok (msgType, payload)
  | _ => Err (Errorf "message too short: need at least 5 bytes for length prefix + type")
  end.

(** ** Snapshot messages (snapshot.go)

    The chunk type has the fields of the one in package state. *)

Record SnapshotInfo := mkSnapshotInfo {
  si_Height : Z;
  si_SnapshotHash : Hash;
  si_Epoch : Z;
  si_Timestamp : Z;
  si_ChunkCount : Z;
}.

Definition serializeSnapshotInfo (info : SnapshotInfo) : bytes :=
  be 8 (si_Height info) ++ si_SnapshotHash info ++ be 8 (si_Epoch info) ++ be 8 (si_Timestamp info)
  ++ be 4 (si_ChunkCount info).

Definition parseSnapshotInfo (data : bytes) : option SnapshotInfo :=
  if bool_decide (length data < 60)%nat then None else
  Some {| si_Height := unbe (take 8 data); si_SnapshotHash := arr_copy 32 (drop 8 data);
          si_Epoch := unbe (take 8 (drop 40 data)); si_Timestamp := unbe (take 8 (drop 48 data));
          si_ChunkCount := unbe (take 4 (drop 56 data)) |}.

Definition snapshotRequest (snapshotHash : Hash) (index : Z) : bytes := arr_bytes snapshotHash ++ be 4 index.

Definition parseSnapshotRequest (data : bytes) : option (Hash * Z) :=
  if bool_decide (length data < 36)%nat then None else
  Some (arr_copy 32 data, unbe (take 4 (drop 32 data))).

Definition serializeSnapshotChunk (chunk : SnapshotChunk) : bytes :=
  be 4 (ch_Index chunk) ++ be 4 (ch_TotalCount chunk) ++ ch_SnapshotHash chunk ++ ch_ChunkHash chunk
  ++ be 4 (u32 (Z.of_nat (length (ch_Data chunk)))) ++ ch_Data chunk.

(** The comparison is in [int], the bounds of the slice in [uint32]. *)
Definition parseSnapshotChunk (data : bytes) : res (option SnapshotChunk) :=
  if bool_decide (length data < 76)%nat then Ok None else
  let dataLen := unbe (take 4 (drop 72 data)) in
  if Z.of_nat (length data) <? 76 + dataLen then Ok None else
  body ← slice 76 (u32 (76 + dataLen)) data;
  Ok (Some {| ch_Index := unbe (take 4 data); ch_TotalCount := unbe (take 4 (drop 4 data));
              ch_SnapshotHash := arr_copy 32 (drop 8 data); ch_ChunkHash := arr_copy 32 (drop 40 data);
              ch_Data := body |}).

(** ** Block ranges (blocksync.go) *)

Definition encodeBlockRangeRequest (startHeight endHeight : Z) : bytes := be 8 startHeight ++ be 8 endHeight.

Definition decodeBlockRangeRequest (data : bytes) : res (Z * Z) :=
  if bool_decide (length data < 16)%nat then Err (Errorf "payload too short: need 16 bytes") else
  Ok (unbe (take 8 data), unbe (take 8 (drop 8 data))).

Definition encodeBlockList (blocks : list bytes) : bytes :=
  be 4 (u32 (Z.of_nat (length blocks)))
  ++ concat ((λ block : bytes, be 4 (u32 (Z.of_nat (length block))) ++ block) <$> blocks).

(** One turn of the loop per block announced; [data] is what follows the
    offset. *)
Fixpoint decode_blocks (count : nat) (data : bytes) : res (list bytes) :=
  match count with
  | O => Ok []
  | S count' =>
      if bool_decide (length data < 4)%nat then Err (Errorf "truncated block length") else
      let blockLen := Z.to_nat (unbe (take 4 data)) in
      if bool_decide (length (drop 4 data) < blockLen)%nat then Err (Errorf "truncated block data") else
      rest ← decode_blocks count' (drop blockLen (drop 4 data));
      Ok (take blockLen (drop 4 data) :: rest)
  end.

Definition decodeBlockList (data : bytes) : res (list bytes) :=
  if bool_decide (length data < 4)%nat then Err (Errorf "payload too short: need at least 4 bytes for count") else
  let count := unbe (take 4 data) in
  if MaxBlocksPerRangeResponse <? count then Err (Errorf "too many blocks in response") else
  decode_blocks (Z.to_nat count) (drop 4 data).

(** ** Peer exchange (peer_discovery.go) *)

Abbreviation PeerID := (arr 32).

Definition PeerIDFromBytes (data : bytes) : PeerID := Sum256 data.

Definition second : Z := 10 ^ 9.

(** [t.Unix()] and [time.Unix(s, 0)]. *)
Definition unix (t : Z) : Z := t / second.
Definition from_unix (s : Z) : Z := s * second.

Record PeerInfo := mkPeerInfo {
  pi_ID : PeerID;
  pi_Address : string;
  pi_Score : Z;
  pi_LastSeen : Z;
}.

Definition peer_info_bytes (p : PeerInfo) : bytes :=
  let addr := str_bytes (pi_Address p) in
  pi_ID p ++ be 2 (u16 (Z.of_nat (length addr))) ++ addr ++ be 4 (u32 (pi_Score p)) ++ be 8 (u64 (unix (pi_LastSeen p))).

(** Of a peer only the exchanged fields are used. *)
Definition serializePeerInfo (peers : list PeerInfo) : bytes :=
  be 2 (u16 (Z.of_nat (length peers))) ++ concat (peer_info_bytes <$> peers).

(** One turn of the loop: [None] stands for [break]. The score is converted
    from [uint32] to [int], the time from [uint64] to [int64]. *)
Definition parse_peer (data : bytes) : option (PeerInfo * bytes) :=
  if bool_decide (length data < 34)%nat then None else
  let addrLen := Z.to_nat (unbe (take 2 (drop 32 data))) in
  let rest := drop 34 data in
  if bool_decide (length rest < addrLen + 12)%nat then None else
  let tail := drop addrLen rest in
  Some (mkPeerInfo (arr_copy 32 data) (bytes_str (take addrLen rest)) (unbe (take 4 tail))
          (from_unix (s64 (unbe (take 8 (drop 4 tail))))), drop 12 tail).

Fixpoint parse_peers (count : nat) (data : bytes) : list PeerInfo :=
  match count with
  | O => []
  | S count' =>
      match parse_peer data with
      | None => []
      | Some (p, rest) => p :: parse_peers count' rest
      end
  end.

Definition parsePeerInfo (data : bytes) : list PeerInfo :=
  if bool_decide (length data < 2)%nat then [] else
  parse_peers (Z.to_nat (unbe (take 2 data))) (drop 2 data).

(** ** Stored peers (peer.go)

    Little-endian integers; signed ones in two's complement. *)

Definition le (n : nat) (v : Z) : bytes := rev (be n v).
Definition unle (l : bytes) : Z := unbe (rev l).
Definition signed (n : nat) (v : Z) : Z :=
  let m := 256 ^ Z.of_nat n in (v + m / 2) mod m - m / 2.

Definition read_le (n : nat) : go bytes Z := bs ← ReadFull n; mret (unle bs).
Definition read_le_signed (n : nat) : go bytes Z := v ← read_le n; mret (signed n v).

Abbreviation PeerState := Z.
Definition PeerDisconnected : PeerState := 0.
Definition PeerConnecting : PeerState := 1.
Definition PeerConnected : PeerState := 2.
Definition PeerBanned : PeerState := 3.

Definition PeerState_String (s : PeerState) : string :=
  if s =? PeerDisconnected then "disconnected"
  else if s =? PeerConnecting then "connecting"
  else if s =? PeerConnected then "connected"
  else if s =? PeerBanned then "banned"
  else "unknown".

Record PeerRecord := mkPeerRecord {
  pr_Version : Z;
  pr_ID : PeerID;
  pr_Address : string;
  pr_Score : Z;
  pr_Latency : Z;
  pr_LastSeen : Z;
  pr_FirstSeen : Z;
  pr_IsBanned : bool;
  pr_State : PeerState;
  pr_SyncHeight : Z;
  pr_MessageCount : Z;
  pr_FailCount : Z;
  pr_ConnectedSince : Z;
  pr_BanExpiry : Z;
}.

Definition MarshalBinary (pr : PeerRecord) : bytes :=
  le 1 (pr_Version pr) ++ pr_ID pr ++ le 8 (pr_Latency pr) ++ le 8 (pr_LastSeen pr) ++ le 8 (pr_FirstSeen pr)
  ++ le 8 (pr_SyncHeight pr) ++ le 8 (pr_MessageCount pr) ++ le 8 (pr_FailCount pr) ++ le 8 (pr_ConnectedSince pr)
  ++ le 8 (pr_BanExpiry pr)
  ++ le 2 (Z.of_nat (length (str_bytes (pr_Address pr)))) ++ str_bytes (pr_Address pr)
  ++ le 4 (pr_Score pr) ++ [if pr_IsBanned pr then x01 else x00] ++ le 4 (pr_State pr).

Definition UnmarshalBinary : go bytes PeerRecord :=
  version ← read_le 1;
  id ← read_arr 32;
  latency ← read_le_signed 8;
  lastSeen ← read_le_signed 8;
  firstSeen ← read_le_signed 8;
  syncHeight ← read_le 8;
  messageCount ← read_le 8;
  failCount ← read_le 8;
  connectedSince ← read_le_signed 8;
  banExpiry ← read_le_signed 8;
  addrLen ← read_le 2;
  addr ← ReadFull (Z.to_nat addrLen);
  score ← read_le_signed 4;
  isBanned ← read_le 1;
  state ← read_le_signed 4;
  mret {| pr_Version := version; pr_ID := id; pr_Address := bytes_str addr; pr_Score := score; pr_Latency := latency;
          pr_LastSeen := lastSeen; pr_FirstSeen := firstSeen; pr_IsBanned := negb (isBanned =? 0); pr_State := state;
          pr_SyncHeight := syncHeight; pr_MessageCount := messageCount; pr_FailCount := failCount;
          pr_ConnectedSince := connectedSince; pr_BanExpiry := banExpiry |}.

(** [EncodePeerRecord] and [DecodePeerRecord] on a whole stream. *)
Definition EncodePeerRecord (pr : PeerRecord) : go bytes unit := Write (MarshalBinary pr).
Definition DecodePeerRecord (data : bytes) : res PeerRecord := run_reader UnmarshalBinary data.

(** ** Lemmas *)

Lemma slice_ok lo hi data :
  0 <= lo <= hi → hi <= Z.of_nat (length data) → slice lo hi data = Ok (take (Z.to_nat (hi - lo)) (drop (Z.to_nat lo) data)).
Proof.
  intros Hl Hh. unfold slice. destruct (Z.ltb_spec lo 0); [lia|]. destruct (Z.ltb_spec hi lo); [lia|].
  destruct (Z.ltb_spec (Z.of_nat (length data)) hi); [lia|done].
Qed.

Lemma length_le n v : length (le n v) = n.
Proof. unfold le. by rewrite length_rev, length_be. Qed.

Lemma unle_le n v : unle (le n v) = v mod 256 ^ Z.of_nat n.
Proof. unfold unle, le. by rewrite rev_involutive, unbe_be. Qed.

Lemma parses_read_le n v : parses (read_le n) (le n v) (v mod 256 ^ Z.of_nat n).
Proof.
  unfold read_le. eapply parses_bind_last; [apply parses_ReadFull, length_le|]. rewrite unle_le. apply parses_ret.
Qed.

Lemma parses_le n v : fits n v → parses (read_le n) (le n v) v.
Proof. intros Hv. rewrite <- (Z.mod_small v (256 ^ Z.of_nat n)) at 2 by exact Hv. apply parses_read_le. Qed.

(** The range of a signed integer of [n] bytes. *)
Definition fits_signed (n : nat) (v : Z) : Prop := - (256 ^ Z.of_nat n / 2) <= v < 256 ^ Z.of_nat n / 2.

Lemma signed_mod n v : (0 < n)%nat → fits_signed n v → signed n (v mod 256 ^ Z.of_nat n) = v.
Proof.
  intros Hn [Hl Hh]. unfold signed. set (m := 256 ^ Z.of_nat n) in *.
  assert (m = 2 * (m / 2)) as Hm.
  { unfold m. replace (Z.of_nat n) with (Z.of_nat (n - 1) + 1) by lia. rewrite Z.pow_add_r by lia.
    change (256 ^ 1) with (128 * 2). rewrite Z.mul_assoc, Z.div_mul by lia. lia. }
  assert (0 < m) by apply pow256_pos. rewrite Zplus_mod_idemp_l. rewrite Z.mod_small by lia. lia.
Qed.

Lemma parses_le_signed n v : (0 < n)%nat → fits_signed n v → parses (read_le_signed n) (le n v) v.
Proof.
  intros Hn Hv. unfold read_le_signed. eapply parses_bind_last; [apply parses_read_le|].
  rewrite signed_mod by done. apply parses_ret.
Qed.

Lemma signed_fits n v : (0 < n)%nat → fits_signed n (signed n v).
Proof.
  intros Hn. unfold fits_signed, signed. set (m := 256 ^ Z.of_nat n).
  assert (m = 2 * (m / 2)) as Hm.
  { unfold m. replace (Z.of_nat n) with (Z.of_nat (n - 1) + 1) by lia. rewrite Z.pow_add_r by lia.
    change (256 ^ 1) with (128 * 2). rewrite Z.mul_assoc, Z.div_mul by lia. lia. }
  pose proof (Z.mod_pos_bound (v + m / 2) m) as Hb. assert (0 < m) by apply pow256_pos. lia.
Qed.

Record PeerRecord_wf (pr : PeerRecord) : Prop := {
  prw_Version : fits 1 (pr_Version pr);
  prw_Address : Z.of_nat (length (str_bytes (pr_Address pr))) < 2 ^ 16;
  prw_Score : fits_signed 4 (pr_Score pr);
  prw_State : fits_signed 4 (pr_State pr);
  prw_times : Forall (fits_signed 8) [pr_Latency pr; pr_LastSeen pr; pr_FirstSeen pr; pr_ConnectedSince pr; pr_BanExpiry pr];
  prw_counts : Forall (fits 8) [pr_SyncHeight pr; pr_MessageCount pr; pr_FailCount pr];
}.

Lemma parses_flag (b : bool) : parses (read_le 1) [if b then x01 else x00] (if b then 1 else 0).
Proof. destruct b; intros rest; reflexivity. Qed.

Lemma peer_record_parses pr : PeerRecord_wf pr → parses UnmarshalBinary (MarshalBinary pr) pr.
Proof.
  intros [Hv Ha Hs Hst Ht Hc]. 
  apply Forall_cons in Ht as [T1 [T2 [T3 [T4 [T5 _]%Forall_cons]%Forall_cons]%Forall_cons]%Forall_cons].
  apply Forall_cons in Hc as [C1 [C2 [C3 _]%Forall_cons]%Forall_cons].
  unfold UnmarshalBinary, MarshalBinary.
  eapply parses_bind; [by apply parses_le|]. cbv beta. eapply parses_bind; [apply parses_arr|]. cbv beta.
  do 3 (eapply parses_bind; [apply parses_le_signed; [lia|done]|]; cbv beta).
  do 3 (eapply parses_bind; [by apply parses_le|]; cbv beta).
  do 2 (eapply parses_bind; [apply parses_le_signed; [lia|done]|]; cbv beta).
  eapply parses_bind; [apply parses_le; unfold fits; lia|]. cbv beta. rewrite Nat2Z.id.
  eapply parses_bind; [by apply parses_ReadFull|]. cbv beta.
  eapply parses_bind; [apply parses_le_signed; [lia|done]|]. cbv beta.
  eapply parses_bind; [apply parses_flag|]. cbv beta.
  eapply parses_bind_last; [apply parses_le_signed; [lia|done]|]. cbv beta.
  rewrite bytes_str_bytes. destruct pr as [v id a s l ls fs b st sh mc fc cs be]. destruct b; apply parses_ret.
Qed.

Lemma peer_record_roundtrip pr : PeerRecord_wf pr → DecodePeerRecord (MarshalBinary pr) = Ok pr.
Proof.
  intros Hwf. pose proof (peer_record_parses pr Hwf []) as Hp. rewrite app_nil_r in Hp.
  unfold DecodePeerRecord, run_reader. by rewrite Hp.
Qed.

(** *** Snapshot messages *)

Definition SnapshotInfo_wf (i : SnapshotInfo) : Prop :=
  fits 8 (si_Height i) ∧ fits 8 (si_Epoch i) ∧ fits 8 (si_Timestamp i) ∧ fits 4 (si_ChunkCount i).

Lemma take_be_app n v (l : bytes) : fits n v → unbe (take n (be n v ++ l)) = v.
Proof. intros Hv. rewrite take_app_length' by (by rewrite length_be). by apply unbe_be_small. Qed.

Lemma take_be n v : fits n v → unbe (take n (be n v)) = v.
Proof. intros Hv. rewrite take_ge by (by rewrite length_be). by apply unbe_be_small. Qed.

Lemma snapshot_info_roundtrip i : SnapshotInfo_wf i → parseSnapshotInfo (serializeSnapshotInfo i) = Some i.
Proof.
  intros (Hh & He & Ht & Hc). unfold parseSnapshotInfo, serializeSnapshotInfo.
  rewrite bool_decide_eq_false_2 by (rewrite !length_app, !length_be, arr_length; lia).
  skip. rewrite !take_be_app, take_be, arr_copy_app by done. by destruct i.
Qed.

Lemma snapshot_request_roundtrip h index : fits 4 index → parseSnapshotRequest (snapshotRequest h index) = Some (h, index).
Proof.
  intros Hi. unfold parseSnapshotRequest, snapshotRequest.
  rewrite bool_decide_eq_false_2 by (rewrite length_app, length_be, arr_length; lia).
  skip. by rewrite take_be, arr_copy_app.
Qed.

Lemma snapshot_chunk_roundtrip c :
  fits 4 (ch_Index c) → fits 4 (ch_TotalCount c) → Z.of_nat (length (ch_Data c)) + 76 < 2 ^ 32 →
  parseSnapshotChunk (serializeSnapshotChunk c) = Ok (Some c).
Proof.
  intros Hi Ht Hd. unfold parseSnapshotChunk, serializeSnapshotChunk.
  rewrite bool_decide_eq_false_2 by (rewrite !length_app, !length_be, !arr_length; lia).
  assert (u32 (Z.of_nat (length (ch_Data c))) = Z.of_nat (length (ch_Data c))) as -> by (apply Z.mod_small; lia).
  skip. rewrite !take_be_app by (done || unfold fits; lia).
  rewrite !length_app, !length_be, !arr_length. destruct (Z.ltb_spec (Z.of_nat (4 + (4 + (32 + (32 + (4 + length (ch_Data c)))))))
    (76 + Z.of_nat (length (ch_Data c)))); [lia|].
  assert (u32 (76 + Z.of_nat (length (ch_Data c))) = 76 + Z.of_nat (length (ch_Data c))) as -> by (apply Z.mod_small; lia).
  rewrite slice_ok; [|lia|rewrite !length_app, !length_be, !arr_length; lia].
  change (Z.to_nat 76) with 76%nat. skip.
  rewrite take_ge by lia. cbn [mbind res_bind]. rewrite !arr_copy_app. by destruct c.
Qed.

(** *** Block ranges *)

Lemma block_range_roundtrip a b : fits 8 a → fits 8 b → decodeBlockRangeRequest (encodeBlockRangeRequest a b) = Ok (a, b).
Proof.
  intros Ha Hb. unfold decodeBlockRangeRequest, encodeBlockRangeRequest.
  rewrite bool_decide_eq_false_2 by (rewrite length_app, !length_be; lia).
  skip. by rewrite take_be_app, take_be.
Qed.

Lemma decode_blocks_app blocks rest :
  Forall (λ b : bytes, Z.of_nat (length b) < 2 ^ 32) blocks →
  decode_blocks (length blocks) (concat ((λ b : bytes, be 4 (u32 (Z.of_nat (length b))) ++ b) <$> blocks) ++ rest) = Ok blocks.
Proof.
  induction 1 as [|b blocks Hb _ IH]; [done|]. rewrite fmap_cons. cbn [concat length decode_blocks]. rewrite <- !app_assoc.
  assert (u32 (Z.of_nat (length b)) = Z.of_nat (length b)) as -> by (apply Z.mod_small; lia).
  rewrite bool_decide_eq_false_2 by (rewrite length_app, length_be; lia). rewrite take_be_app by (unfold fits; lia). rewrite Nat2Z.id.
  rewrite (drop_app_length' (be 4 _)) by (by rewrite length_be).
  rewrite bool_decide_eq_false_2 by (rewrite length_app; lia).
  rewrite drop_app_length, take_app_length, IH. done.
Qed.

(** The answer to a range request is read back exactly if it has at most a
    hundred blocks. *)
Lemma block_list_read blocks :
  Forall (λ b : bytes, Z.of_nat (length b) < 2 ^ 32) blocks → Z.of_nat (length blocks) < 2 ^ 32 →
  decodeBlockList (encodeBlockList blocks) =
    if MaxBlocksPerRangeResponse <? Z.of_nat (length blocks) then Err (Errorf "too many blocks in response") else Ok blocks.
Proof.
  intros Hb Hl. unfold decodeBlockList, encodeBlockList.
  assert (u32 (Z.of_nat (length blocks)) = Z.of_nat (length blocks)) as -> by (apply Z.mod_small; lia).
  rewrite bool_decide_eq_false_2 by (rewrite length_app, length_be; lia). rewrite take_be_app by (unfold fits; lia).
  destruct (_ <? _); [done|]. rewrite Nat2Z.id, drop_app_length' by (by rewrite length_be).
  pose proof (decode_blocks_app blocks [] Hb) as H. by rewrite app_nil_r in H.
Qed.

(** *** Peer exchange *)

(** What the receiver gets: the score modulo 2^32, the time in seconds. *)
Definition exchanged (p : PeerInfo) : PeerInfo :=
  mkPeerInfo (pi_ID p) (pi_Address p) (u32 (pi_Score p)) (from_unix (unix (pi_LastSeen p))).

Definition PeerInfo_wf (p : PeerInfo) : Prop :=
  Z.of_nat (length (str_bytes (pi_Address p))) < 2 ^ 16 ∧ fits_signed 8 (unix (pi_LastSeen p)).

Lemma s64_u64 v : fits_signed 8 v → s64 (u64 v) = v.
Proof. intros Hv. exact (signed_mod 8 v ltac:(lia) Hv). Qed.

Lemma parse_peer_read p rest : PeerInfo_wf p → parse_peer (peer_info_bytes p ++ rest) = Some (exchanged p, rest).
Proof.
  intros [Ha Ht]. unfold parse_peer, peer_info_bytes. set (addr := str_bytes (pi_Address p)) in *.
  assert (u16 (Z.of_nat (length addr)) = Z.of_nat (length addr)) as -> by (apply Z.mod_small; lia).
  rewrite <- !app_assoc.
  rewrite bool_decide_eq_false_2 by (rewrite !length_app, !length_be, arr_length; lia). skip.
  rewrite take_be_app by (unfold fits; lia). rewrite Nat2Z.id.
  rewrite bool_decide_eq_false_2 by (rewrite !length_app, !length_be; lia).
  rewrite take_app_length, drop_app_length, arr_copy_app. skip.
  rewrite !take_be_app by (unfold fits, u32, u64; apply Z.mod_pos_bound; lia).
  rewrite s64_u64 by done. unfold exchanged, addr. by rewrite bytes_str_bytes.
Qed.

Lemma parse_peers_read ps rest :
  Forall PeerInfo_wf ps → parse_peers (length ps) (concat (peer_info_bytes <$> ps) ++ rest) = exchanged <$> ps.
Proof.
  induction 1 as [|p ps Hp _ IH]; [done|]. rewrite !fmap_cons. cbn [concat length parse_peers]. rewrite <- app_assoc.
  by rewrite parse_peer_read, IH.
Qed.

Lemma peer_exchange_read ps :
  Forall PeerInfo_wf ps → Z.of_nat (length ps) < 2 ^ 16 → parsePeerInfo (serializePeerInfo ps) = exchanged <$> ps.
Proof.
  intros Hp Hl. unfold parsePeerInfo, serializePeerInfo.
  assert (u16 (Z.of_nat (length ps)) = Z.of_nat (length ps)) as -> by (apply Z.mod_small; lia).
  rewrite bool_decide_eq_false_2 by (rewrite length_app, length_be; lia). rewrite take_be_app by (unfold fits; lia).
  rewrite Nat2Z.id, drop_app_length' by (by rewrite length_be).
  pose proof (parse_peers_read ps [] Hp) as H. by rewrite app_nil_r in H.
Qed.

(** *** Frames *)

(** The length field of a message that has one. *)
Definition frame_length (data : bytes) : Z := unbe (take 4 data).

Lemma parse_split data :
  (4 < length data)%nat → ∃ lenBuf msgType body, length lenBuf = 4%nat ∧ data = lenBuf ++ msgType :: body ∧
    ParseMessage data =
      (if MaxPayloadSize <? unbe lenBuf then Err (Errorf "payload exceeds maximum size for message type") else
       if Z.of_nat (length body) + 5 <? 4 + unbe lenBuf
       then Err (Errorf "message truncated: declared length exceeds available data") else
       if negb (IsKnownType msgType) then Err (Errorf "unknown message type") else
       if unbe lenBuf =? 0 then Panic else Ok (msgType, take (Z.to_nat (unbe lenBuf - 1)) body)).
Proof.
  intros Hl. destruct data as [|a [|b [|c [|d [|t body]]]]]; try (cbn in Hl; lia).
  exists [a; b; c; d], t, body. split; [done|]. split; [done|]. unfold ParseMessage. cbn [take].
  pose proof (unbe_range [a; b; c; d]) as Hr. set (n := unbe [a; b; c; d]) in *.
  destruct (_ <? n); [done|]. cbn [length]. replace (Z.of_nat (S (S (S (S (S (length body))))))) with (Z.of_nat (length body) + 5) by lia.
  destruct (Z.ltb_spec (Z.of_nat (length body) + 5) (4 + n)); [done|]. destruct (negb _); [done|].
  destruct (Z.eqb_spec n 0) as [->|Hn]; [reflexivity|].
  rewrite slice_ok by (cbn [length]; lia). cbn [mbind res_bind]. change (Z.to_nat 5) with 5%nat. cbn [drop].
  do 3 f_equal. lia.
Qed.

(** ** Properties *)

(** Framing is undone by parsing exactly for the known types and payloads
    that leave room for the type byte in a mebibyte. Parsing never fails
    otherwise than with an error, except that a message of a known type whose
    length field is zero makes it panic. *)
Theorem frames_parsed_exactly :
  (∀ msgType payload, ParseMessage (FrameMessage msgType payload) = Ok (msgType, payload) ↔
     IsKnownType msgType = true ∧ Z.of_nat (length payload) + 1 <= MaxPayloadSize) ∧
  ∀ data, ParseMessage data = Panic ↔ ∃ msgType, frame_length data = 0 ∧ data !! 4%nat = Some msgType ∧ IsKnownType msgType = true.
Proof.
  split.
  - intros t p. destruct (parse_split (FrameMessage t p)) as (lenBuf & t' & body & Hl & E & ->).
    { unfold FrameMessage. rewrite length_app, length_be. cbn. lia. }
    unfold FrameMessage in E. apply app_inj_1 in E as [<- [= <- <-]]; [|by rewrite length_be, Hl].
    rewrite unbe_be. change (256 ^ Z.of_nat 4) with (2 ^ 32). unfold u32. rewrite Z.mod_mod by lia.
    assert (0 <= (1 + Z.of_nat (length p)) mod 2 ^ 32 < 2 ^ 32) as Hm by (apply Z.mod_pos_bound; lia).
    set (n := (1 + Z.of_nat (length p)) mod 2 ^ 32) in *. unfold MaxPayloadSize in *. split.
    + destruct (Z.ltb_spec (1 * 1024 * 1024) n); [done|]. destruct (_ <? _); [done|]. destruct (IsKnownType t); [|done].
      cbn [negb]. destruct (Z.eqb_spec n 0); [done|]. intros [= Hp]. split; [done|].
      apply (f_equal length) in Hp. rewrite length_take in Hp. lia.
    + intros [-> Hs]. assert (n = 1 + Z.of_nat (length p)) as -> by (apply Z.mod_small; lia).
      destruct (Z.ltb_spec (1 * 1024 * 1024) (1 + Z.of_nat (length p))); [lia|].
      destruct (Z.ltb_spec (Z.of_nat (length p) + 5) (4 + (1 + Z.of_nat (length p)))); [lia|]. cbn [negb].
      destruct (Z.eqb_spec (1 + Z.of_nat (length p)) 0); [lia|]. by rewrite take_ge by lia.
  - intros data. unfold frame_length. destruct (decide (4 < length data)%nat) as [Hl|Hl].
    + destruct (parse_split data Hl) as (lenBuf & t & body & Hb & -> & ->).
      rewrite take_app_length' by done. rewrite lookup_app_r by lia. rewrite Hb. cbn [lookup list_lookup Nat.sub].
      pose proof (unbe_range lenBuf) as Hr. split.
      * destruct (_ <? _); [done|]. destruct (_ <? _); [done|]. destruct (IsKnownType t) eqn:Hk; [|done]. cbn [negb].
        destruct (Z.eqb_spec (unbe lenBuf) 0); [|done]. intros _. by exists t.
      * intros (t' & H0 & [= <-] & Hk). rewrite H0, Hk. unfold MaxPayloadSize.
        destruct (Z.ltb_spec (1 * 1024 * 1024) 0); [lia|]. destruct (Z.ltb_spec (Z.of_nat (length body) + 5) (4 + 0)); [lia|done].
    + split; [|intros (t & _ & Ht & _); apply lookup_lt_Some in Ht; lia].
      destruct data as [|a [|b [|c [|d [|t body]]]]]; [done..|]. cbn in Hl. lia.
Qed.

(** A negative score is exchanged as a large positive one. *)
Theorem negative_score_exchanged (p : PeerInfo) :
  PeerInfo_wf p → - 2 ^ 31 <= pi_Score p < 0 →
  ∃ q, parsePeerInfo (serializePeerInfo [p]) = [q] ∧ pi_Score q = 2 ^ 32 + pi_Score p.
Proof.
  intros Hp Hs. rewrite (peer_exchange_read [p]) by (by constructor || done). eexists. split; [reflexivity|].
  cbn. unfold u32. rewrite <- (Z.mod_add _ 1), Z.mul_1_l, Z.add_comm by lia. apply Z.mod_small. lia.
Qed.
