(* ===== verification/Peers.v ===== *)
(** * Peers (network/peer.go, network/peer_discovery.go)

    The registry of peers, their scores and bans, the peer exchange and the
    pruning of dead peers. Both maps of the manager hold pointers to the same
    records: the records are kept in a heap, a pointer is an index into it.
    The clock is an argument of the operations that read it. A connection is
    only known to be open or nil; whether dialling or writing succeeds is an
    argument. Maps are visited in the order of [map_to_list]; Go's order is
    arbitrary, and the theorems do not depend on it. *)

From S2P Require Import Prelude Codec Sha256 Address Amount Tx Votes Block Smt Store Keys State Bolt Persist StateSync Wire.

(** ** Times *)

(** The zero value of [time.Time], and [t.Sub(u)], which saturates. *)
Definition zeroTime : Z := -62135596800 * second.
Definition time_sub (t u : Z) : Z := Z.max (- 2 ^ 63) (Z.min (2 ^ 63 - 1) (t - u)).

Definition minute : Z := 60 * second.
Definition hour : Z := 60 * minute.

(** ** Peers *)

Record Peer := mkPeer {
  p_ID : PeerID;
  p_Address : string;
  p_Conn : bool;
  p_State : PeerState;
  p_Score : Z;
  p_LastSeen : Z;
  p_Latency : Z;
  p_SyncHeight : Z;
  p_MessageCount : Z;
  p_FailCount : Z;
  p_ConnectedSince : Z;
  p_BanExpiry : Z;
  p_lastBlockSuccess : Z;
  p_blockSuccesses : Z;
}.

#[global] Instance Peer_eq_dec : EqDecision Peer.
Proof. solve_decision. Defined.

Section setters.
Implicit Types p : Peer.
Definition set_conn (c : bool) p := mkPeer (p_ID p) (p_Address p) c (p_State p) (p_Score p) (p_LastSeen p) (p_Latency p)
  (p_SyncHeight p) (p_MessageCount p) (p_FailCount p) (p_ConnectedSince p) (p_BanExpiry p) (p_lastBlockSuccess p) (p_blockSuccesses p).
Definition set_state (s : PeerState) p := mkPeer (p_ID p) (p_Address p) (p_Conn p) s (p_Score p) (p_LastSeen p) (p_Latency p)
  (p_SyncHeight p) (p_MessageCount p) (p_FailCount p) (p_ConnectedSince p) (p_BanExpiry p) (p_lastBlockSuccess p) (p_blockSuccesses p).
Definition set_score (s : Z) p := mkPeer (p_ID p) (p_Address p) (p_Conn p) (p_State p) s (p_LastSeen p) (p_Latency p)
  (p_SyncHeight p) (p_MessageCount p) (p_FailCount p) (p_ConnectedSince p) (p_BanExpiry p) (p_lastBlockSuccess p) (p_blockSuccesses p).
Definition set_seen (t : Z) p := mkPeer (p_ID p) (p_Address p) (p_Conn p) (p_State p) (p_Score p) t (p_Latency p)
  (p_SyncHeight p) (p_MessageCount p) (p_FailCount p) (p_ConnectedSince p) (p_BanExpiry p) (p_lastBlockSuccess p) (p_blockSuccesses p).
Definition set_latency (l : Z) p := mkPeer (p_ID p) (p_Address p) (p_Conn p) (p_State p) (p_Score p) (p_LastSeen p) l
  (p_SyncHeight p) (p_MessageCount p) (p_FailCount p) (p_ConnectedSince p) (p_BanExpiry p) (p_lastBlockSuccess p) (p_blockSuccesses p).
Definition set_counts (m f : Z) p := mkPeer (p_ID p) (p_Address p) (p_Conn p) (p_State p) (p_Score p) (p_LastSeen p) (p_Latency p)
  (p_SyncHeight p) m f (p_ConnectedSince p) (p_BanExpiry p) (p_lastBlockSuccess p) (p_blockSuccesses p).
Definition set_connected_since (t : Z) p := mkPeer (p_ID p) (p_Address p) (p_Conn p) (p_State p) (p_Score p) (p_LastSeen p) (p_Latency p)
  (p_SyncHeight p) (p_MessageCount p) (p_FailCount p) t (p_BanExpiry p) (p_lastBlockSuccess p) (p_blockSuccesses p).
Definition set_expiry (t : Z) p := mkPeer (p_ID p) (p_Address p) (p_Conn p) (p_State p) (p_Score p) (p_LastSeen p) (p_Latency p)
  (p_SyncHeight p) (p_MessageCount p) (p_FailCount p) (p_ConnectedSince p) t (p_lastBlockSuccess p) (p_blockSuccesses p).
Definition set_successes (t n : Z) p := mkPeer (p_ID p) (p_Address p) (p_Conn p) (p_State p) (p_Score p) (p_LastSeen p) (p_Latency p)
  (p_SyncHeight p) (p_MessageCount p) (p_FailCount p) (p_ConnectedSince p) (p_BanExpiry p) t n.
End setters.

Definition peerToRecord (p : Peer) : PeerRecord :=
  {| pr_Version := 2; pr_ID := p_ID p; pr_Address := p_Address p; pr_Score := p_Score p; pr_Latency := p_Latency p;
     pr_LastSeen := unix (p_LastSeen p); pr_FirstSeen := 0; pr_IsBanned := p_State p =? PeerBanned; pr_State := p_State p;
     pr_SyncHeight := p_SyncHeight p; pr_MessageCount := p_MessageCount p; pr_FailCount := p_FailCount p;
     pr_ConnectedSince := unix (p_ConnectedSince p); pr_BanExpiry := unix (p_BanExpiry p) |}.

Definition recordToPeer (pr : PeerRecord) : Peer :=
  {| p_ID := pr_ID pr; p_Address := pr_Address pr; p_Conn := false;
     p_State := if pr_IsBanned pr then PeerBanned else pr_State pr; p_Score := pr_Score pr;
     p_LastSeen := from_unix (pr_LastSeen pr); p_Latency := pr_Latency pr; p_SyncHeight := pr_SyncHeight pr;
     p_MessageCount := pr_MessageCount pr; p_FailCount := pr_FailCount pr;
     p_ConnectedSince := from_unix (pr_ConnectedSince pr); p_BanExpiry := from_unix (pr_BanExpiry pr);
     p_lastBlockSuccess := zeroTime; p_blockSuccesses := 0 |}.

(** ** The manager *)

Record PeerManager := mkPeerManager {
  pm_heap : list Peer;
  pm_peers : gmap PeerID nat;
  pm_peersByAddr : gmap string nat;
  pm_running : bool;
}.

Definition NewPeerManager : PeerManager := mkPeerManager [] ∅ ∅ false.

(** Write through a pointer. *)
Definition update_peer (ptr : nat) (f : Peer → Peer) (pm : PeerManager) : PeerManager :=
  mkPeerManager (alter f ptr (pm_heap pm)) (pm_peers pm) (pm_peersByAddr pm) (pm_running pm).

(** [peer, ok := pm.peers[id]; if !ok { return }; f(peer)]. *)
Definition on_peer (id : PeerID) (f : Peer → Peer) (pm : PeerManager) : PeerManager :=
  match pm_peers pm !! id with Some ptr => update_peer ptr f pm | None => pm end.

Definition fresh_peer (id : PeerID) (addr : string) (now : Z) : Peer :=
  mkPeer id addr false PeerDisconnected 0 now 0 0 0 0 zeroTime zeroTime zeroTime 0.

Definition AddPeer (id : PeerID) (addr : string) (now : Z) (pm : PeerManager) : PeerManager * nat :=
  match pm_peers pm !! id, pm_peersByAddr pm !! addr with
  | Some ptr, _ => (pm, ptr)
  | None, Some ptr => (pm, ptr)
  | None, None =>
      let ptr := length (pm_heap pm) in
      (mkPeerManager (pm_heap pm ++ [fresh_peer id addr now]) (<[id := ptr]> (pm_peers pm)) (<[addr := ptr]> (pm_peersByAddr pm))
         (pm_running pm), ptr)
  end.

Definition RemovePeer (id : PeerID) (pm : PeerManager) : PeerManager :=
  match pm_peers pm !! id with
  | None => pm
  | Some ptr =>
      match pm_heap pm !! ptr with
      | None => pm
      | Some peer => mkPeerManager (pm_heap pm) (delete id (pm_peers pm)) (delete (p_Address peer) (pm_peersByAddr pm)) (pm_running pm)
      end
  end.

(** A pointer, read. *)
Definition GetPeer (pm : PeerManager) (id : PeerID) : option Peer := ptr ← pm_peers pm !! id; pm_heap pm !! ptr.
Definition GetPeerByAddr (pm : PeerManager) (addr : string) : option Peer := ptr ← pm_peersByAddr pm !! addr; pm_heap pm !! ptr.

(** The registered peers, in the order of the map. *)
Definition all_peers (pm : PeerManager) : list Peer := omap (λ e : PeerID * nat, pm_heap pm !! e.2) (map_to_list (pm_peers pm)).

Definition GetPeersByState (pm : PeerManager) (state : PeerState) : list Peer :=
  List.filter (λ p, p_State p =? state) (all_peers pm).

(** The order of [sort.Slice] in [GetBestPeers]. *)
Definition better_peer (a b : Peer) : bool :=
  if p_Score a =? p_Score b then p_Latency a <? p_Latency b else p_Score b <? p_Score a.

Definition GetBestPeers (pm : PeerManager) (n : Z) : res (list Peer) :=
  let candidates := sort_slice better_peer (List.filter (λ p, (p_State p =? PeerConnected) && (0 <? p_Score p)) (all_peers pm)) in
  if n <? 0 then Panic else Ok (take (Z.to_nat n) candidates).

Definition NumPeers (pm : PeerManager) : Z := Z.of_nat (size (pm_peers pm)).
Definition NumConnected (pm : PeerManager) : Z := Z.of_nat (length (GetPeersByState pm PeerConnected)).

(** ** Scores and bans *)

(** The daily counter of blocks starts again after a day. *)
Definition reset_successes (now : Z) (p : Peer) : Peer :=
  if 24 * hour <? time_sub now (p_lastBlockSuccess p) then set_successes now 0 p else p.

Definition credit (msgType : byte) (p : Peer) : Peer :=
  if bool_decide (msgType = MsgTypeBlock) then
    if p_blockSuccesses p <? 10
    then set_successes (p_lastBlockSuccess p) (p_blockSuccesses p + 1) (set_score (s64 (p_Score p + 1)) p) else p
  else if bool_decide (msgType = MsgTypeSnapshotChunk) then set_score (s64 (p_Score p + 2)) p
  else if bool_decide (msgType = MsgTypePeerExchange) then set_score (s64 (p_Score p + 1)) p
  else p.

Definition clamp_high (p : Peer) : Peer := if 100 <? p_Score p then set_score 100 p else p.
Definition clamp_low (p : Peer) : Peer := if p_Score p <? -100 then set_score (-100) p else p.

Definition report_success (msgType : byte) (now : Z) (p : Peer) : Peer :=
  set_seen now (clamp_high (credit msgType (reset_successes now (set_counts (u64 (p_MessageCount p + 1)) (p_FailCount p) p)))).

Definition ReportSuccess (id : PeerID) (msgType : byte) (now : Z) : PeerManager → PeerManager := on_peer id (report_success msgType now).

(** Close the connection and set the expiry. *)
Definition ban_peer (expiry : Z) (p : Peer) : Peer := set_conn false (set_expiry expiry (set_state PeerBanned p)).

(** Below -20 the peer is banned for five minutes. *)
Definition auto_ban (now : Z) (p : Peer) : Peer := if p_Score p <? -20 then ban_peer (now + 5 * minute) p else p.

Definition report_failure (severity : Z) (now : Z) (p : Peer) : Peer :=
  set_seen now (auto_ban now (clamp_low (set_score (s64 (p_Score p - severity))
    (set_counts (p_MessageCount p) (u64 (p_FailCount p + 1)) p)))).

Definition ReportFailure (id : PeerID) (severity : Z) (now : Z) : PeerManager → PeerManager := on_peer id (report_failure severity now).

Definition update_score (delta : Z) (now : Z) (p : Peer) : Peer :=
  let p := clamp_low (clamp_high (set_score (s64 (p_Score p + delta)) p)) in
  if negb (p_State p =? PeerBanned) then auto_ban now p else p.

Definition UpdateScore (id : PeerID) (delta : Z) (now : Z) : PeerManager → PeerManager := on_peer id (update_score delta now).

Definition Ban (id : PeerID) (duration : Z) (now : Z) : PeerManager → PeerManager := on_peer id (ban_peer (now + duration)).

(** ** Connections *)

(** [dialed] is the outcome of [net.Dial]. *)
Definition connect_peer (dialed : bool) (now : Z) (p : Peer) : Peer :=
  let p := set_state PeerConnecting p in
  if dialed then set_seen now (set_connected_since now (set_state PeerConnected (set_conn true p)))
  else set_state PeerDisconnected p.

Definition ConnectToPeer (id : PeerID) (addr : string) (dialed : bool) (now : Z) (pm : PeerManager) : PeerManager * res unit :=
  let '(pm, ptr) :=
    match pm_peers pm !! id with
    | Some ptr => (pm, ptr)
    | None => AddPeer id addr now pm
    end in
  (update_peer ptr (connect_peer dialed now) pm,
   if dialed then Ok tt else Err (Wrapf "failed to connect to peer" (Errorf "dial"))).

Definition DisconnectPeer (id : PeerID) : PeerManager → PeerManager :=
  on_peer id (λ p, set_state PeerDisconnected (set_conn false p)).

(** [Start] and [Stop] of the goroutine that lifts bans. *)
Definition PeerManager_Start (pm : PeerManager) : PeerManager := mkPeerManager (pm_heap pm) (pm_peers pm) (pm_peersByAddr pm) true.
Definition PeerManager_Stop (pm : PeerManager) : PeerManager := mkPeerManager (pm_heap pm) (pm_peers pm) (pm_peersByAddr pm) false.

Definition lift_ban (now : Z) (p : Peer) : Peer :=
  if (p_State p =? PeerBanned) && negb (p_BanExpiry p =? zeroTime) && (p_BanExpiry p <? now)
  then set_expiry zeroTime (set_state PeerDisconnected p) else p.

Definition cleanupExpiredBans (now : Z) (pm : PeerManager) : PeerManager :=
  fold_left (λ pm (e : PeerID * nat), update_peer e.2 (lift_ban now) pm) (map_to_list (pm_peers pm)) pm.

(** ** Persistence *)

Definition peersBucket : bytes := str_bytes "peers".

Section persistence.
Context {DB Tx : Type} `{BoltDB DB Tx}.

(** Without a database both methods do nothing. *)
Definition persist_tx (pm : PeerManager) : go Tx unit :=
  wrap "failed to create peers bucket" (CreateBucketIfNotExists peersBucket);;
  for_each (map_to_list (pm_peers pm)) (λ e : PeerID * nat,
    match pm_heap pm !! e.2 with
    | Some peer => wrap "failed to put peer" (Put peersBucket (arr_bytes e.1) (MarshalBinary (peerToRecord peer)))
    | None => gopanic
    end).

Definition Persist (pm : PeerManager) : go DB unit := Update (persist_tx pm).

(** One entry: [gob] decodes the format of older versions. *)
Definition load_peer (gob : bytes → option Peer) (pm : PeerManager) (e : bytes * bytes) : PeerManager :=
  if negb (bool_decide (length e.1 = 32%nat)) then pm else
  let peer :=
    match DecodePeerRecord e.2 with
    | Ok pr => Some (recordToPeer pr)
    | _ => gob e.2
    end in
  match peer with
  | None => pm
  | Some peer =>
      let ptr := length (pm_heap pm) in
      mkPeerManager (pm_heap pm ++ [peer]) (<[arr_copy 32 e.1 := ptr]> (pm_peers pm))
        (<[p_Address peer := ptr]> (pm_peersByAddr pm)) (pm_running pm)
  end.

Definition LoadPeers (gob : bytes → option Peer) (pm : PeerManager) : go DB PeerManager :=
  View (
    b ← Bucket peersBucket;
    mret match b with None => pm | Some m => fold_left (load_peer gob) (entries m) pm end).
End persistence.

(** ** Discovery (peer_discovery.go) *)

Record PeerDiscovery := mkPeerDiscovery {
  pd_pm : PeerManager;
  pd_pingFailures : gmap PeerID Z;
}.

Definition with_pm (f : PeerManager → PeerManager) (pd : PeerDiscovery) : PeerDiscovery :=
  mkPeerDiscovery (f (pd_pm pd)) (pd_pingFailures pd).

Definition backoffInterval : Z := 5 * second.
Definition maxBackoff : Z := 60 * second.

Definition trackPingFailure (id : PeerID) (pd : PeerDiscovery) : PeerDiscovery :=
  let failCount := default 0 (pd_pingFailures pd !! id) + 1 in
  if 3 <=? failCount then mkPeerDiscovery (DisconnectPeer id (pd_pm pd)) (delete id (pd_pingFailures pd))
  else mkPeerDiscovery (pd_pm pd) (<[id := failCount]> (pd_pingFailures pd)).

Definition resetPingFailure (id : PeerID) (pd : PeerDiscovery) : PeerDiscovery :=
  mkPeerDiscovery (pd_pm pd) (delete id (pd_pingFailures pd)).

(** [write] tells whether writing to the connection of a peer succeeds. *)
Definition SendPing (id : PeerID) (now : Z) (write : PeerID → bool) (pd : PeerDiscovery) : option bytes * bool :=
  match GetPeer (pd_pm pd) id with
  | Some peer =>
      if p_Conn peer then (Some (FrameMessage MsgTypePing (be 8 (u64 (unix now)))), write id) else (None, true)
  | None => (None, true)
  end.

Definition check_health (now : Z) (write : PeerID → bool) (pd : PeerDiscovery) (id : PeerID) : PeerDiscovery :=
  match GetPeer (pd_pm pd) id with
  | Some peer =>
      if negb (p_Conn peer) then pd else
      if (SendPing id now write pd).2 then pd
      else trackPingFailure id (with_pm (ReportFailure id 1 now) pd)
  | None => pd
  end.

(** The goroutines of one round, one after the other. *)
Definition performHealthCheck (now : Z) (write : PeerID → bool) (pd : PeerDiscovery) : PeerDiscovery :=
  fold_left (check_health now write) (p_ID <$> GetPeersByState (pd_pm pd) PeerConnected) pd.

Definition dead_peer (now : Z) (p : Peer) : bool :=
  (24 * hour <? time_sub now (p_LastSeen p)) ||
  ((p_Score p <? -10) && (p_State p =? PeerDisconnected) && (hour <? time_sub now (p_ConnectedSince p))).

Definition dead_ids (now : Z) (pm : PeerManager) : list PeerID :=
  omap (λ e : PeerID * nat, peer ← pm_heap pm !! e.2; if dead_peer now peer then Some e.1 else None) (map_to_list (pm_peers pm)).

Definition pruneDeadPeers (now : Z) (pd : PeerDiscovery) : PeerDiscovery :=
  with_pm (λ pm, fold_left (λ pm id, RemovePeer id pm) (dead_ids now pm) pm) pd.

(** The record of an announced peer is overwritten with what was announced. *)
Definition learn_peer (now : Z) (pm : PeerManager) (info : PeerInfo) : PeerManager :=
  let '(pm, ptr) := AddPeer (pi_ID info) (pi_Address info) now pm in
  update_peer ptr (λ p, set_seen (pi_LastSeen info) (set_score (pi_Score info) p)) pm.

Definition HandlePeerExchange (peerID : PeerID) (payload : bytes) (now : Z) (pd : PeerDiscovery) : PeerDiscovery :=
  match parsePeerInfo payload with
  | [] => with_pm (ReportFailure peerID 2 now) pd
  | peers => with_pm (λ pm, fold_left (learn_peer now) peers pm) pd
  end.

Definition peer_info (p : Peer) : PeerInfo := mkPeerInfo (p_ID p) (p_Address p) (p_Score p) (p_LastSeen p).

(** The message that [RequestPeerExchange] writes. *)
Definition exchange_message (pm : PeerManager) : res bytes :=
  best ← GetBestPeers pm 100;
  Ok (FrameMessage MsgTypePeerExchange (serializePeerInfo (peer_info <$> best))).

Definition RequestPeerExchange (peerID : PeerID) (now : Z) (write : PeerID → bool) (pd : PeerDiscovery) : PeerDiscovery :=
  match GetPeer (pd_pm pd) peerID with
  | Some peer =>
      if negb (p_Conn peer) || write peerID then pd else with_pm (ReportFailure peerID 1 now) pd
  | None => pd
  end.

Definition performPEX (now : Z) (write : PeerID → bool) (pd : PeerDiscovery) : PeerDiscovery :=
  match GetBestPeers (pd_pm pd) 100 with
  | Ok best =>
      fold_left (λ pd peer, if p_Conn peer then RequestPeerExchange (p_ID peer) now write pd else pd) best pd
  | _ => pd
  end.

(** The answer to a ping echoes its payload. *)
Definition HandlePing (peerID : PeerID) (payload : bytes) (pd : PeerDiscovery) : option bytes :=
  peer ← GetPeer (pd_pm pd) peerID;
  if p_Conn peer then Some (FrameMessage MsgTypePong payload) else None.

Definition pong_latency (payload : bytes) (now : Z) (p : Peer) : Peer :=
  if bool_decide (8 <= length payload)%nat then
    let latency := time_sub now (from_unix (s64 (unbe (take 8 payload)))) in
    if p_Latency p =? 0 then set_latency latency p
    else set_latency (Z.quot (s64 (s64 (p_Latency p * 4) + latency)) 5) p
  else p.

Definition HandlePong (peerID : PeerID) (payload : bytes) (now : Z) (pd : PeerDiscovery) : PeerDiscovery :=
  match GetPeer (pd_pm pd) peerID with
  | None => pd
  | Some _ => resetPingFailure peerID (with_pm (on_peer peerID (λ p, set_seen now (pong_latency payload now p))) pd)
  end.

(** One turn of the loop over the bootstrap addresses, and the delay before
    the next; [dial] tells which connections succeed. *)
Definition bootstrap_turn (addrs : list string) (dial : string → bool) (write : PeerID → bool) (now backoff : Z) (pd : PeerDiscovery)
    : PeerDiscovery * Z :=
  let turn '(pd, connected) addr :=
    let id := PeerIDFromBytes (str_bytes addr) in
    let '(pm, r) := ConnectToPeer id addr (dial addr) now (pd_pm pd) in
    let pd := mkPeerDiscovery pm (pd_pingFailures pd) in
    match r with
    | Ok _ => (RequestPeerExchange id now write pd, true)
    | _ => (pd, connected)
    end in
  let '(pd, connected) := fold_left turn addrs (pd, false) in
  (pd, if connected : bool then backoffInterval else if backoff <? maxBackoff then backoff * 2 else backoff).

(** ** Lemmas *)

(** The two maps of a manager describe the same peers. *)
Record pm_ok (pm : PeerManager) : Prop := {
  ok_by_id id ptr : pm_peers pm !! id = Some ptr →
    ∃ p, pm_heap pm !! ptr = Some p ∧ p_ID p = id ∧ pm_peersByAddr pm !! p_Address p = Some ptr;
  ok_by_addr a ptr : pm_peersByAddr pm !! a = Some ptr →
    ∃ p, pm_heap pm !! ptr = Some p ∧ p_Address p = a ∧ pm_peers pm !! p_ID p = Some ptr;
}.

(** Writes that keep the identity of a peer. *)
Definition keeps_identity (f : Peer → Peer) : Prop := ∀ p, p_ID (f p) = p_ID p ∧ p_Address (f p) = p_Address p.

Lemma update_peer_ok ptr f pm : keeps_identity f → pm_ok pm → pm_ok (update_peer ptr f pm).
Proof.
  intros Hf [Hi Ha]. split; cbn [pm_peers pm_peersByAddr pm_heap update_peer].
  - intros id q Hq. destruct (Hi id q Hq) as (p & Hp & Hid & Hb).
    destruct (decide (q = ptr)) as [->|Hne]; [|exists p; by rewrite list_lookup_alter_ne].
    exists (f p). rewrite list_lookup_alter, decide_True, Hp by done. destruct (Hf p) as [-> ->]. done.
  - intros a q Hq. destruct (Ha a q Hq) as (p & Hp & Hid & Hb).
    destruct (decide (q = ptr)) as [->|Hne]; [|exists p; by rewrite list_lookup_alter_ne].
    exists (f p). rewrite list_lookup_alter, decide_True, Hp by done. destruct (Hf p) as [-> ->]. done.
Qed.

Lemma on_peer_ok id f pm : keeps_identity f → pm_ok pm → pm_ok (on_peer id f pm).
Proof. intros Hf Hok. unfold on_peer. destruct (pm_peers pm !! id); [by apply update_peer_ok|done]. Qed.

Lemma AddPeer_ok id addr now pm : pm_ok pm → pm_ok (AddPeer id addr now pm).1.
Proof.
  intros [Hi Ha]. unfold AddPeer. destruct (pm_peers pm !! id) as [?|] eqn:Ei; [done|].
  destruct (pm_peersByAddr pm !! addr) as [?|] eqn:Ea; [done|]. split; cbn.
  - intros id' q. rewrite lookup_insert. case_decide as Hd; [subst id'|].
    + intros [= <-]. exists (fresh_peer id addr now). rewrite list_lookup_middle by done. cbn. by rewrite lookup_insert_eq.
    + intros Hq. destruct (Hi id' q Hq) as (p & Hp & Hid & Hb). exists p. split; [by apply lookup_app_l_Some|]. split; [done|].
      rewrite lookup_insert_ne; [done|]. intros ->. congruence.
  - intros a q. rewrite lookup_insert. case_decide as Hd; [subst a|].
    + intros [= <-]. exists (fresh_peer id addr now). rewrite list_lookup_middle by done. cbn. by rewrite lookup_insert_eq.
    + intros Hq. destruct (Ha a q Hq) as (p & Hp & Hid & Hb). exists p. split; [by apply lookup_app_l_Some|]. split; [done|].
      rewrite lookup_insert_ne; [done|]. intros ->. congruence.
Qed.

Lemma RemovePeer_ok id pm : pm_ok pm → pm_ok (RemovePeer id pm).
Proof.
  intros [Hi Ha]. unfold RemovePeer. destruct (pm_peers pm !! id) as [ptr|] eqn:Ei; [|done].
  destruct (Hi id ptr Ei) as (p & Hp & <- & Hb). rewrite Hp. split; cbn.
  - intros id' q [Hne Hq]%lookup_delete_Some. destruct (Hi id' q Hq) as (p' & Hp' & <- & Hb'). exists p'. split; [done|]. split; [done|].
    rewrite lookup_delete_ne; [done|]. intros He. rewrite <- He, Hb in Hb'. congruence.
  - intros a q [Hne Hq]%lookup_delete_Some. destruct (Ha a q Hq) as (p' & Hp' & <- & Hb'). exists p'. split; [done|]. split; [done|].
    rewrite lookup_delete_ne; [done|]. intros He. rewrite <- He, Ei in Hb'. congruence.
Qed.

(** Identity is kept by every write. *)
Ltac identity :=
  intros p; unfold report_success, report_failure, update_score, auto_ban, clamp_low, clamp_high, credit, reset_successes, connect_peer, ban_peer, lift_ban, pong_latency;
  repeat case_match; done.

Lemma fold_ok {A} (f : PeerManager → A → PeerManager) (l : list A) pm :
  (∀ pm x, pm_ok pm → pm_ok (f pm x)) → pm_ok pm → pm_ok (fold_left f l pm).
Proof. intros Hf. revert pm. induction l as [|x l IH]; intros pm Hok; [done|]. apply IH, Hf, Hok. Qed.

Lemma learn_peer_ok now pm info : pm_ok pm → pm_ok (learn_peer now pm info).
Proof.
  intros Hok. unfold learn_peer. pose proof (AddPeer_ok (pi_ID info) (pi_Address info) now pm Hok) as Ha.
  destruct (AddPeer _ _ now pm) as [pm1 ptr]. apply update_peer_ok; [by identity|done].
Qed.

Lemma ConnectToPeer_ok id addr dialed now pm : pm_ok pm → pm_ok (ConnectToPeer id addr dialed now pm).1.
Proof.
  intros Hok. unfold ConnectToPeer. pose proof (AddPeer_ok id addr now pm Hok) as Ha.
  destruct (pm_peers pm !! id) as [ptr|]; [|destruct (AddPeer id addr now pm) as [pm1 ptr]];
    (apply update_peer_ok; [by identity|done]).
Qed.

(** *** Steps *)

(** The operations of the manager with whatever arguments the other parts of
    the node and the network pass. *)
Inductive pm_op : (PeerManager → PeerManager) → Prop :=
  | op_add id addr now : pm_op (λ pm, (AddPeer id addr now pm).1)
  | op_remove id : pm_op (RemovePeer id)
  | op_success id msgType now : pm_op (ReportSuccess id msgType now)
  | op_failure id severity now : 0 <= severity <= 2 ^ 62 → pm_op (ReportFailure id severity now)
  | op_score id delta now : pm_op (UpdateScore id delta now)
  | op_ban id duration now : pm_op (Ban id duration now)
  | op_connect id addr dialed now : pm_op (λ pm, (ConnectToPeer id addr dialed now pm).1)
  | op_disconnect id : pm_op (DisconnectPeer id)
  | op_start : pm_op PeerManager_Start
  | op_stop : pm_op PeerManager_Stop
  | op_cleanup now : pm_op (cleanupExpiredBans now)
  | op_pong id payload now : pm_op (on_peer id (λ p, set_seen now (pong_latency payload now p))).

Inductive peer_step : PeerDiscovery → PeerDiscovery → Prop :=
  | step_manager pd f : pm_op f → peer_step pd (with_pm f pd)
  | step_health pd now write : peer_step pd (performHealthCheck now write pd)
  | step_prune pd now : peer_step pd (pruneDeadPeers now pd)
  | step_pong pd id payload now : peer_step pd (HandlePong id payload now pd)
  | step_pex pd now write : peer_step pd (performPEX now write pd)
  | step_bootstrap pd addrs dial write now backoff : peer_step pd (bootstrap_turn addrs dial write now backoff pd).1.

(** The same, with announcements of other peers taken in. *)
Inductive exchange_step : PeerDiscovery → PeerDiscovery → Prop :=
  | step_local pd pd' : peer_step pd pd' → exchange_step pd pd'
  | step_exchange pd id payload now : exchange_step pd (HandlePeerExchange id payload now pd).

Definition NewPeerDiscovery : PeerDiscovery := mkPeerDiscovery NewPeerManager ∅.

(** A property of managers that every operation keeps is kept by every step:
    the steps of discovery are made of operations. *)
Section lifting.
Context (P : PeerManager → Prop) (Hop : ∀ f pm, pm_op f → P pm → P (f pm)).

Lemma fold_lift {A} (f : PeerDiscovery → A → PeerDiscovery) (l : list A) pd :
  (∀ pd x, P (pd_pm pd) → P (pd_pm (f pd x))) → P (pd_pm pd) → P (pd_pm (fold_left f l pd)).
Proof. intros Hf. revert pd. induction l as [|x l IH]; intros pd HP; [done|]. apply IH, Hf, HP. Qed.

Lemma exchange_request_lift id now write pd : P (pd_pm pd) → P (pd_pm (RequestPeerExchange id now write pd)).
Proof.
  intros HP. unfold RequestPeerExchange. destruct (GetPeer _ id); [|done]. destruct (_ || _); [done|].
  apply (Hop (ReportFailure id 1 now)); [by constructor|done].
Qed.

Lemma health_lift now write pd : P (pd_pm pd) → P (pd_pm (performHealthCheck now write pd)).
Proof.
  apply fold_lift. clear pd. intros pd id HP. unfold check_health. destruct (GetPeer _ id) as [p|]; [|done]. destruct (negb _); [done|].
  destruct (SendPing id now write pd).2; [done|].
  assert (P (ReportFailure id 1 now (pd_pm pd))) as HP1 by (apply (Hop (ReportFailure id 1 now)); [by constructor|done]).
  unfold trackPingFailure. destruct (3 <=? _); [|done]. apply (Hop (DisconnectPeer id)); [by constructor|done].
Qed.

Lemma prune_lift now pd : P (pd_pm pd) → P (pd_pm (pruneDeadPeers now pd)).
Proof.
  intros HP. cbn. generalize (dead_ids now (pd_pm pd)). intros l. revert HP. generalize (pd_pm pd).
  induction l as [|id l IH]; intros pm HP; [done|]. cbn. apply IH, (Hop (RemovePeer id)); [by constructor|done].
Qed.

Lemma bootstrap_lift addrs dial write now backoff pd : P (pd_pm pd) → P (pd_pm (bootstrap_turn addrs dial write now backoff pd).1).
Proof.
  intros HP. unfold bootstrap_turn. set (turn := λ '(pd, connected) addr, _).
  assert (∀ l st, P (pd_pm st.1) → P (pd_pm (fold_left turn l st).1)) as Hl.
  { induction l as [|addr l IH]; intros st Hst; [done|]. cbn [fold_left]. apply IH. destruct st as [pd1 c]. cbn [turn fst].
    pose proof (Hop _ (pd_pm pd1) (op_connect (PeerIDFromBytes (str_bytes addr)) addr (dial addr) now) Hst) as Hc.
    cbn beta in Hc. destruct (ConnectToPeer _ addr (dial addr) now (pd_pm pd1)) as [pm r]. cbn [fst] in Hc.
    destruct r; [by apply exchange_request_lift|done..]. }
  specialize (Hl addrs (pd, false) HP). destruct (fold_left turn addrs (pd, false)) as [pd1 c]. exact Hl.
Qed.

Lemma step_lift pd pd' : peer_step pd pd' → P (pd_pm pd) → P (pd_pm pd').
Proof.
  destruct 1 as [pd f Hf|pd now write|pd now|pd id payload now|pd now write|pd addrs dial write now backoff]; intros HP.
  - by apply Hop.
  - by apply health_lift.
  - by apply prune_lift.
  - unfold HandlePong. destruct (GetPeer _ id); [|done]. by apply (Hop _ _ (op_pong id payload now)).
  - unfold performPEX. destruct (GetBestPeers _ _); [|done..]. apply fold_lift; [|done]. intros pd1 p HP1.
    destruct (p_Conn p); [by apply exchange_request_lift|done].
  - by apply bootstrap_lift.
Qed.

Lemma reachable_lift pd : rtc peer_step NewPeerDiscovery pd → P NewPeerManager → P (pd_pm pd).
Proof.
  intros Hr H0. assert (P (pd_pm NewPeerDiscovery)) as HP by done. revert HP.
  induction Hr as [|x y z Hxy _ IH]; [done|]. intros HP. by apply IH, (step_lift x).
Qed.
End lifting.

(** *** The index *)

Lemma op_index f pm : pm_op f → pm_ok pm → pm_ok (f pm).
Proof.
  intros Hf Hok. destruct Hf; try (apply on_peer_ok; [identity|done]).
  - by apply AddPeer_ok.
  - by apply RemovePeer_ok.
  - by apply ConnectToPeer_ok.
  - by destruct Hok.
  - by destruct Hok.
  - apply fold_ok; [|done]. intros pm1 e Hok1. apply update_peer_ok; [identity|done].
Qed.

(** *** Scores *)

Definition peer_ok (p : Peer) : Prop :=
  -100 <= p_Score p <= 100 ∧ 0 <= p_blockSuccesses p <= 10 ∧ (p_State p = PeerBanned → p_Conn p = false).

Definition scores_ok (pm : PeerManager) : Prop := Forall peer_ok (pm_heap pm).

Lemma s64_small v : - 2 ^ 63 <= v < 2 ^ 63 → s64 v = v.
Proof. intros Hv. unfold s64. rewrite Z.mod_small by lia. lia. Qed.

Lemma s64_range v : - 2 ^ 63 <= s64 v < 2 ^ 63.
Proof. unfold s64. pose proof (Z.mod_pos_bound (v + 2 ^ 63) (2 ^ 64)). lia. Qed.

Ltac peer_cases :=
  intros (?&?&?); repeat case_match; bool_hyps; unfold peer_ok; cbn; rewrite ?s64_small by lia; split_and!; try lia; auto.

(** Between the pieces of an update the score may leave the range by a
    little. *)
Lemma credit_range msgType p :
  peer_ok p → -100 <= p_Score (credit msgType p) <= 102 ∧ 0 <= p_blockSuccesses (credit msgType p) <= 10 ∧
    (p_State (credit msgType p) = PeerBanned → p_Conn (credit msgType p) = false).
Proof. unfold credit. peer_cases. Qed.

Lemma report_success_keeps msgType now p : peer_ok p → peer_ok (report_success msgType now p).
Proof.
  intros Hp. unfold report_success. set (q := set_counts _ _ p).
  assert (peer_ok (reset_successes now q)) as Hq by (revert Hp; unfold reset_successes, q; peer_cases).
  destruct (credit_range msgType _ Hq) as (Hs & Hb & Hc). set (r := credit _ _) in *.
  unfold peer_ok, clamp_high. destruct (Z.ltb_spec 100 (p_Score r)); cbn; split_and!; try lia; auto.
Qed.

Lemma auto_ban_keeps now p : peer_ok p → peer_ok (auto_ban now p).
Proof. unfold auto_ban. peer_cases. Qed.

Lemma report_failure_keeps severity now p : 0 <= severity <= 2 ^ 62 → peer_ok p → peer_ok (report_failure severity now p).
Proof.
  intros Hv Hp. unfold report_failure. set (q := clamp_low _).
  assert (peer_ok q) as Hq.
  { destruct Hp as (Hs & Hb & Hc). unfold q, clamp_low. cbn. rewrite s64_small by lia.
    destruct (Z.ltb_spec (p_Score p - severity) (-100)); split_and!; cbn; try lia; auto. }
  exact (auto_ban_keeps now q Hq).
Qed.

Lemma update_score_keeps delta now p : peer_ok p → peer_ok (update_score delta now p).
Proof.
  intros (Hs & Hb & Hc). unfold update_score. set (q := clamp_low _).
  assert (peer_ok q) as Hq.
  { unfold q, clamp_low, clamp_high. cbn. set (s := s64 _). destruct (Z.ltb_spec 100 s); cbn; [by repeat split; cbn; try lia|].
    destruct (Z.ltb_spec s (-100)); repeat split; cbn; try lia; auto. }
  destruct (negb _); [by apply auto_ban_keeps|done].
Qed.

Lemma alter_scores f ptr pm : (∀ p, peer_ok p → peer_ok (f p)) → scores_ok pm → scores_ok (update_peer ptr f pm).
Proof.
  intros Hf Hs. unfold scores_ok in *. cbn. rewrite Forall_lookup in *. intros i p. rewrite list_lookup_alter.
  case_decide; [|by apply Hs]. intros (q & Hq & ->)%fmap_Some. by eapply Hf, Hs.
Qed.

Lemma on_peer_scores id f pm : (∀ p, peer_ok p → peer_ok (f p)) → scores_ok pm → scores_ok (on_peer id f pm).
Proof. intros Hf Hs. unfold on_peer. destruct (_ !! id); [by apply alter_scores|done]. Qed.

Lemma AddPeer_scores id addr now pm : scores_ok pm → scores_ok (AddPeer id addr now pm).1.
Proof.
  intros Hs. unfold AddPeer. destruct (pm_peers pm !! id); [done|]. destruct (pm_peersByAddr pm !! addr); [done|].
  unfold scores_ok. cbn. rewrite Forall_app. split; [done|]. constructor; [|constructor]. by repeat split.
Qed.

Lemma op_scores f pm : pm_op f → scores_ok pm → scores_ok (f pm).
Proof.
  assert (∀ expiry p, peer_ok p → peer_ok (ban_peer expiry p)) as Hban by (by intros ? p (?&?&?); repeat split; cbn; lia).
  assert (∀ dialed now p, peer_ok p → peer_ok (connect_peer dialed now p)) as Hcon
    by (intros dialed now p (?&?&?); unfold connect_peer; destruct dialed; repeat split; cbn; try lia; done).
  intros Hf Hs. destruct Hf.
  - by apply AddPeer_scores.
  - unfold RemovePeer. by repeat case_match.
  - apply on_peer_scores; [apply report_success_keeps|done].
  - apply on_peer_scores; [intros p; by apply report_failure_keeps|done].
  - apply on_peer_scores; [apply update_score_keeps|done].
  - apply on_peer_scores; [apply Hban|done].
  - unfold ConnectToPeer. pose proof (AddPeer_scores id addr now pm Hs) as Ha.
    destruct (pm_peers pm !! id); [|destruct (AddPeer id addr now pm)]; (apply alter_scores; [apply Hcon|done]).
  - apply on_peer_scores; [by intros p (?&?&?); repeat split; cbn; lia|done].
  - done.
  - done.
  - unfold cleanupExpiredBans. generalize (map_to_list (pm_peers pm)). intros l. revert pm Hs.
    induction l as [|e l IH]; intros pm Hs; [done|]. apply IH, alter_scores; [|done].
    intros p. unfold lift_ban. peer_cases.
  - apply on_peer_scores; [|done]. intros p. unfold pong_latency. peer_cases.
Qed.

(** *** Selection *)

#[global] Instance better_peer_order : LessOrder better_peer.
Proof.
  split; unfold better_peer.
  - intros x y. destruct (Z.eqb_spec (p_Score x) (p_Score y)) as [E|E]; destruct (Z.eqb_spec (p_Score y) (p_Score x)); lia.
  - intros x y z. destruct (Z.eqb_spec (p_Score y) (p_Score x)), (Z.eqb_spec (p_Score z) (p_Score y)),
      (Z.eqb_spec (p_Score z) (p_Score x)); lia.
Qed.

Lemma elem_of_all_peers pm p : pm_ok pm → p ∈ all_peers pm ↔ GetPeer pm (p_ID p) = Some p.
Proof.
  intros [Hi _]. unfold all_peers, GetPeer. rewrite list_elem_of_omap. split.
  - intros ([id ptr] & Hin%elem_of_map_to_list & Hp). cbn in Hp. destruct (Hi id ptr Hin) as (q & Hq & Hid & _).
    rewrite Hq in Hp. injection Hp as ->. subst id. by rewrite Hin.
  - intros (ptr & Hptr & Hp)%bind_Some. exists (p_ID p, ptr). by rewrite elem_of_map_to_list.
Qed.

Lemma StronglySorted_split {A} (R : A → A → Prop) (l k : list A) x y :
  StronglySorted R (l ++ k) → x ∈ l → y ∈ k → R x y.
Proof.
  induction l as [|a l IH]; [by intros ? ?%not_elem_of_nil|]. intros [Hs Hf]%StronglySorted_inv Hx Hy.
  apply elem_of_cons in Hx as [->|Hx]; [|by apply IH]. rewrite Forall_forall in Hf. apply Hf, elem_of_app. by right.
Qed.

Lemma StronglySorted_take {A} (R : A → A → Prop) n (l : list A) : StronglySorted R l → StronglySorted R (take n l).
Proof.
  revert n. induction l as [|a l IH]; intros n Hs; [rewrite take_nil; constructor|]. destruct n as [|n]; [constructor|].
  apply StronglySorted_inv in Hs as [Hs Hf]. cbn. constructor; [by apply IH|]. by apply Forall_take.
Qed.

(** *** Blocks *)

(** What a message other than a block adds to the score. *)
Definition message_credit (msgType : byte) : Z :=
  if bool_decide (msgType = MsgTypeSnapshotChunk) then 2
  else if bool_decide (msgType = MsgTypePeerExchange) then 1 else 0.

(** Within a day of the start of the count a report moves the score by no more
    than the count of blocks and the message's own credit. *)
Lemma report_credit msgType now p :
  peer_ok p → time_sub now (p_lastBlockSuccess p) <= 24 * hour →
  let q := report_success msgType now p in
  p_lastBlockSuccess q = p_lastBlockSuccess p ∧
  p_Score q + p_blockSuccesses p <= p_Score p + p_blockSuccesses q + message_credit msgType.
Proof.
  intros (Hs & Hb & _) Hn. unfold report_success, reset_successes. cbn [p_lastBlockSuccess set_counts].
  destruct (Z.ltb_spec (24 * hour) (time_sub now (p_lastBlockSuccess p))); [lia|].
  unfold credit, clamp_high. cbn [p_blockSuccesses set_counts].
  destruct (decide (msgType = MsgTypeBlock)) as [->|Hne].
  - change (message_credit MsgTypeBlock) with 0. rewrite bool_decide_eq_true_2 by done.
    destruct (Z.ltb_spec (p_blockSuccesses p) 10); cbn; rewrite ?s64_small by lia; destruct (100 <? _) eqn:E; bool_hyps; cbn; (split; [done|lia]).
  - unfold message_credit. rewrite (bool_decide_eq_false_2 (msgType = MsgTypeBlock)) by done.
    repeat case_bool_decide; cbn; rewrite ?s64_small by lia; destruct (100 <? _) eqn:E; bool_hyps; cbn; (split; [done|lia]).
Qed.

Lemma reports_credit (reports : list (byte * Z)) p :
  peer_ok p → Forall (λ r, time_sub r.2 (p_lastBlockSuccess p) <= 24 * hour) reports →
  p_Score (fold_left (λ p r, report_success r.1 r.2 p) reports p)
  <= p_Score p + (10 - p_blockSuccesses p) + zsum (message_credit <$> reports.*1).
Proof.
  intros Hp Ht. remember (p_lastBlockSuccess p) as t0 eqn:E. revert p Hp E.
  induction Ht as [|r reports Hn _ IH]; intros p Hp ->; cbn [fold_left fmap list_fmap zsum].
  { destruct Hp as (?&?&?). lia. }
  destruct (report_credit r.1 r.2 p Hp Hn) as [Hl Hs].
  specialize (IH _ (report_success_keeps r.1 r.2 p Hp) (eq_sym Hl)). lia.
Qed.

(** Reports to the manager reach the peer. *)
Lemma get_on_peer id f pm : GetPeer (on_peer id f pm) id = f <$> GetPeer pm id.
Proof.
  unfold GetPeer, on_peer. destruct (pm_peers pm !! id) as [ptr|] eqn:E; cbn; [|by rewrite E].
  rewrite E. cbn. apply list_lookup_alter_eq.
Qed.

Lemma get_reported id reports pm :
  GetPeer (fold_left (λ pm r, ReportSuccess id r.1 r.2 pm) reports pm) id
  = (λ p, fold_left (λ p r, report_success r.1 r.2 p) reports p) <$> GetPeer pm id.
Proof.
  revert pm. induction reports as [|r reports IH]; intros pm; cbn [fold_left]; [by rewrite option_fmap_id|].
  rewrite IH. unfold ReportSuccess. rewrite get_on_peer. by destruct (GetPeer pm id).
Qed.

(** *** Persistence *)

(** A peer after a restart: times in seconds, no connection, the counter of
    blocks reset. *)
Definition reloaded (p : Peer) : Peer := recordToPeer (peerToRecord p).

Definition storable_peer (p : Peer) : Prop := PeerRecord_wf (peerToRecord p).

Lemma reloaded_identity p : p_ID (reloaded p) = p_ID p ∧ p_Address (reloaded p) = p_Address p.
Proof. done. Qed.

Definition peer_entry (p : Peer) : bytes * bytes := (arr_bytes (p_ID p), MarshalBinary (peerToRecord p)).

Lemma peer_entry_storable p : storable_peer p → storable (peer_entry p).1 (peer_entry p).2.
Proof.
  intros [_ Ha _ _ _ _]. cbn [pr_Address peerToRecord] in Ha. unfold storable, MaxKeySize, MaxValueSize, peer_entry, MarshalBinary. cbn [fst snd].
  rewrite !length_app, !length_le, !arr_length. cbn [length pr_Address peerToRecord]. lia.
Qed.

(** The registered peers, each once. *)
Lemma all_peers_entries pm :
  pm_ok pm → (λ e : PeerID * nat, match pm_heap pm !! e.2 with Some p => peer_entry p | None => ([], []) end) <$> map_to_list (pm_peers pm)
    = peer_entry <$> all_peers pm ∧ NoDup (p_ID <$> all_peers pm).
Proof.
  intros [Hi _]. unfold all_peers.
  assert (∀ l : list (PeerID * nat), (∀ id ptr, (id, ptr) ∈ l → pm_peers pm !! id = Some ptr) →
    (λ e : PeerID * nat, match pm_heap pm !! e.2 with Some p => peer_entry p | None => ([], []) end) <$> l
      = peer_entry <$> omap (λ e : PeerID * nat, pm_heap pm !! e.2) l ∧
    p_ID <$> omap (λ e : PeerID * nat, pm_heap pm !! e.2) l = l.*1) as Hl.
  { induction l as [|[id ptr] l IH]; intros Hin; [done|]. destruct IH as [E1 E2]; [intros; apply Hin; by right|].
    destruct (Hi id ptr) as (p & Hp & Hid & _); [apply Hin; by left|]. rewrite !fmap_cons. cbn [omap list_omap snd fst]. rewrite Hp.
    rewrite !fmap_cons, E1. split; [done|]. rewrite E2, Hid. done. }
  destruct (Hl (map_to_list (pm_peers pm))) as [E1 E2]; [intros id ptr; by rewrite elem_of_map_to_list|].
  split; [exact E1|]. rewrite E2. apply NoDup_fst_map_to_list.
Qed.

Lemma all_peers_addresses pm : pm_ok pm → NoDup (p_Address <$> all_peers pm).
Proof.
  intros Hok. destruct (all_peers_entries pm Hok) as [_ Hn]. apply NoDup_fmap_2_strong; [|by apply NoDup_fmap_1 in Hn].
  intros p q Hp Hq Ha. apply elem_of_all_peers in Hp, Hq; [|done..].
  unfold GetPeer in *. apply bind_Some in Hp as (i & Hi & Hip), Hq as (j & Hj & Hjq). destruct Hok as [Hb _].
  destruct (Hb _ _ Hi) as (p' & Hp' & _ & Hpa), (Hb _ _ Hj) as (q' & Hq' & _ & Hqa). rewrite Hip in Hp'. rewrite Hjq in Hq'.
  injection Hp' as <-. injection Hq' as <-. rewrite Ha in Hpa. congruence.
Qed.

Lemma load_one gob pm p :
  pm_ok pm → storable_peer p → pm_peers pm !! p_ID p = None → pm_peersByAddr pm !! p_Address p = None →
  let pm' := load_peer gob pm (peer_entry p) in
  pm_ok pm' ∧ pm_peers pm' = <[p_ID p := length (pm_heap pm)]> (pm_peers pm) ∧
  pm_peersByAddr pm' = <[p_Address p := length (pm_heap pm)]> (pm_peersByAddr pm) ∧ pm_heap pm' = pm_heap pm ++ [reloaded p].
Proof.
  intros Hok Hw Hi Ha. unfold load_peer, peer_entry. cbn [fst snd].
  rewrite bool_decide_eq_true_2 by (by rewrite arr_length). cbn [negb]. rewrite peer_record_roundtrip by exact Hw.
  rewrite arr_copy_arr. cbn zeta. split; [|done]. destruct Hok as [Hb1 Hb2]. split; cbn [pm_peers pm_peersByAddr pm_heap].
  - intros id q. rewrite lookup_insert. case_decide as Hd.
    + intros [= <-]. exists (reloaded p). rewrite list_lookup_middle by done. split; [done|]. split; [done|]. by rewrite lookup_insert_eq.
    + intros Hq. destruct (Hb1 id q Hq) as (r & Hr & Hid & Hra). exists r. split; [by apply lookup_app_l_Some|]. split; [done|].
      rewrite lookup_insert_ne; [done|]. cbn. intros E. rewrite E in Ha. congruence.
  - intros a q. rewrite lookup_insert. case_decide as Hd.
    + intros [= <-]. exists (reloaded p). rewrite list_lookup_middle by done. split; [done|]. split; [done|]. by rewrite lookup_insert_eq.
    + intros Hq. destruct (Hb2 a q Hq) as (r & Hr & Hid & Hra). exists r. split; [by apply lookup_app_l_Some|]. split; [done|].
      rewrite lookup_insert_ne; [done|]. cbn. intros E. rewrite <- E in Hra. congruence.
Qed.

Lemma load_all gob (ps : list Peer) pm :
  pm_ok pm → Forall storable_peer ps → NoDup (p_ID <$> ps) → NoDup (p_Address <$> ps) →
  Forall (λ p, pm_peers pm !! p_ID p = None ∧ pm_peersByAddr pm !! p_Address p = None) ps →
  let pm' := fold_left (load_peer gob) (peer_entry <$> ps) pm in
  pm_ok pm' ∧ (∀ p, p ∈ ps → GetPeer pm' (p_ID p) = Some (reloaded p)) ∧
  ∀ id, id ∉ p_ID <$> ps → GetPeer pm' id = GetPeer pm id.
Proof.
  revert pm. induction ps as [|p ps IH]; intros pm Hok Hw Hi Ha Hf.
  { split; [done|]. split; [by intros p Hp%not_elem_of_nil|done]. }
  rewrite fmap_cons in *. apply NoDup_cons in Hi as [Hi1 Hi], Ha as [Ha1 Ha]. apply Forall_cons in Hw as [Hw1 Hw], Hf as [[F1 F2] Hf].
  destruct (load_one gob pm p Hok Hw1 F1 F2) as (Hok1 & E1 & E2 & E3). cbn zeta. cbn [fold_left]. set (pm1 := load_peer gob pm _) in *.
  destruct (IH pm1 Hok1 Hw Hi Ha) as (Hok2 & Hin & Hout).
  { rewrite Forall_forall in *. intros q Hq. rewrite E1, E2. destruct (Hf q Hq) as [G1 G2].
    rewrite !lookup_insert_ne; [done|..]; intros E; [apply Ha1|apply Hi1]; rewrite E; by apply list_elem_of_fmap_2. }
  assert (GetPeer pm1 (p_ID p) = Some (reloaded p)) as Hp1.
  { unfold GetPeer. rewrite E1, lookup_insert_eq, E3. cbn. by rewrite list_lookup_middle. }
  split; [done|]. split.
  - intros q [->|Hq]%elem_of_cons; [by rewrite Hout|by apply Hin].
  - intros id [Hne Hid]%not_elem_of_cons. rewrite Hout by done. unfold GetPeer. rewrite E1, E3, lookup_insert_ne by done.
    destruct (pm_peers pm !! id) as [ptr|] eqn:Eptr; [|done]. cbn. destruct Hok as [Hb _]. destruct (Hb id ptr Eptr) as (r & Hr & _).
    rewrite Hr. by apply lookup_app_l_Some.
Qed.

Lemma Persist_ok {DB Tx} `{BoltLaws DB Tx, !BoltReliable DB Tx} pm (db : DB) :
  pm_ok pm → Forall storable_peer (all_peers pm) →
  ∃ db', Persist pm db = (db', Ok tt) ∧
    bucket_of db' peersBucket = list_to_map (peer_entry <$> all_peers pm) ∪ bucket_of db peersBucket.
Proof.
  intros Hok Hs. destruct (all_peers_entries pm Hok) as [He Hn].
  destruct (create_ok peersBucket (db_begin db)) as (t1 & Hc & B1); [done|].
  destruct (put_all peersBucket (peer_entry <$> all_peers pm) t1 (bucket_of db peersBucket)) as (t2 & Hp & B2).
  - by rewrite B1, with_bucket_lookup, decide_True.
  - apply Forall_fmap. eapply Forall_impl; [exact Hs|]. intros p. apply peer_entry_storable.
  - rewrite <- list_fmap_compose. change (NoDup ((arr_bytes ∘ p_ID) <$> all_peers pm)). rewrite list_fmap_compose.
    by apply (NoDup_fmap_2 arr_bytes).
  - apply (for_each_ok_mono _ _ (λ e, wrap "failed to put peer" (Put peersBucket e.1 e.2))) in Hp; [|by intros; apply wrap_ok].
    destruct (Update_ok (persist_tx pm) db t2 tt) as (db' & Hu & Hb).
    + unfold persist_tx. rewrite (go_bind_ok _ _ _ _ _ (wrap_ok _ _ _ _ _ Hc)), <- Hp, <- He. apply for_each_fmap.
      intros [id ptr] Hin%elem_of_map_to_list t. cbn [fst snd]. destruct Hok as [Hi _]. destruct (Hi id ptr Hin) as (p & -> & <- & _). done.
    + exists db'. split; [exact Hu|]. unfold bucket_of at 1. by rewrite Hb, B2, lookup_insert_eq.
Qed.

Lemma stored_peers pm :
  pm_ok pm → ∃ ps, entries (list_to_map (peer_entry <$> all_peers pm)) = peer_entry <$> ps ∧ all_peers pm ≡ₚ ps.
Proof.
  intros Hok. destruct (all_peers_entries pm Hok) as [_ Hn]. apply Permutation_map_inv.
  rewrite entries_perm. apply map_to_list_to_map. rewrite <- list_fmap_compose.
  change (NoDup ((arr_bytes ∘ p_ID) <$> all_peers pm)). rewrite list_fmap_compose. by apply (NoDup_fmap_2 arr_bytes).
Qed.

Lemma LoadPeers_run {DB Tx} `{BoltDB DB Tx} gob pm (db : DB) :
  LoadPeers gob pm db = (db, Ok (fold_left (load_peer gob) (entries (bucket_of db peersBucket)) pm)).
Proof.
  unfold LoadPeers, View, Bucket, gets, mbind, go_bind, bucket_of. fold (db_buckets db).
  by destruct (db_buckets db !! peersBucket).
Qed.

Lemma GetPeer_id pm id p : pm_ok pm → GetPeer pm id = Some p → p_ID p = id.
Proof.
  intros [Hi _] (ptr & Hptr & Hp)%bind_Some. destruct (Hi id ptr Hptr) as (q & Hq & <- & _). congruence.
Qed.

Lemma pm_ok_agree pm p : pm_ok pm → GetPeer pm (p_ID p) = Some p ↔ GetPeerByAddr pm (p_Address p) = Some p.
Proof.
  intros [Hi Ha]. unfold GetPeer, GetPeerByAddr. split; intros (ptr & Hptr & Hp)%bind_Some.
  - destruct (Hi _ _ Hptr) as (q & Hq & _ & Hqa). rewrite Hp in Hq. injection Hq as <-. by rewrite Hqa.
  - destruct (Ha _ _ Hptr) as (q & Hq & _ & Hqa). rewrite Hp in Hq. injection Hq as <-. by rewrite Hqa.
Qed.

(** ** Properties *)

(** Whatever sequence of registrations, reports, bans, connections, health
    checks, prunings and peer exchanges a node goes through, the index by id
    and the one by address describe the same peers: a peer is found under its
    id exactly when it is found under its address. *)
Theorem peer_index_consistent (pd : PeerDiscovery) (p : Peer) :
  rtc exchange_step NewPeerDiscovery pd →
  GetPeer (pd_pm pd) (p_ID p) = Some p ↔ GetPeerByAddr (pd_pm pd) (p_Address p) = Some p.
Proof.
  intros Hr. assert (pm_ok (pd_pm pd)) as Hok.
  { assert (pm_ok (pd_pm NewPeerDiscovery)) as H0 by (by split). revert H0. induction Hr as [|x y z Hxy _ IH]; [done|]. intros H0. apply IH.
    destruct Hxy as [x y Hxy|x id payload now]; [by apply (step_lift pm_ok op_index x)|].
    unfold HandlePeerExchange. destruct (parsePeerInfo payload) as [|i l]; [apply (op_index (ReportFailure id 2 now)); [by constructor|done]|].
    apply fold_ok; [|done]. intros pm1 info. apply learn_peer_ok. }
  by apply pm_ok_agree.
Qed.

(** C28: as long as no peer exchange is taken in, the score of every peer stays
    between -100 and 100, and the record of a banned peer holds no connection
    (the field [Conn], which is the connection that the manager dialled or was
    given; connections that the peer itself opened are not in the record and
    are not closed by a ban). Blocks are worth at most ten points a day: of any
    reports of messages from a peer that arrive within a day of the start of
    its count, in any number and order, the blocks raise its score by at most
    ten less those already counted, the snapshot chunks by two each and the
    peer exchanges by one each. *)
Theorem scores_bounded (pd : PeerDiscovery) (id : PeerID) (p : Peer) :
  rtc peer_step NewPeerDiscovery pd → GetPeer (pd_pm pd) id = Some p →
  -100 <= p_Score p <= 100 ∧ 0 <= p_blockSuccesses p <= 10 ∧ (p_State p = PeerBanned → p_Conn p = false) ∧
  ∀ reports : list (byte * Z),
    Forall (λ r, time_sub r.2 (p_lastBlockSuccess p) <= 24 * hour) reports →
    ∃ p', GetPeer (fold_left (λ pm r, ReportSuccess id r.1 r.2 pm) reports (pd_pm pd)) id = Some p' ∧
      p_Score p' <= p_Score p + (10 - p_blockSuccesses p) + zsum (message_credit <$> reports.*1).
Proof.
  intros Hr Hg. assert (scores_ok (pd_pm pd)) as Hs by (by apply (reachable_lift scores_ok op_scores); [|constructor]).
  assert (peer_ok p) as Hp.
  { pose proof Hg as (ptr & _ & Hp)%bind_Some. unfold scores_ok in Hs. rewrite Forall_lookup in Hs. exact (Hs ptr p Hp). }
  pose proof Hp as (H1 & H2 & H3). do 3 (split; [done|]). intros reports Ht.
  rewrite get_reported, Hg. eexists. split; [reflexivity|]. by apply reports_credit.
Qed.

(** The best peers are connected and have positive scores, come with falling
    scores and rising latencies, are as many as asked for if there are that
    many, and no peer that was left out is better than one that was chosen. *)
Theorem best_peers_exact (pd : PeerDiscovery) (n : Z) (best : list Peer) :
  rtc peer_step NewPeerDiscovery pd → GetBestPeers (pd_pm pd) n = Ok best →
  StronglySorted (λ a b, p_Score b < p_Score a ∨ (p_Score a = p_Score b ∧ p_Latency a <= p_Latency b)) best ∧
  (∀ p, p ∈ best → GetPeer (pd_pm pd) (p_ID p) = Some p ∧ p_State p = PeerConnected ∧ 0 < p_Score p) ∧
  ∀ p, GetPeer (pd_pm pd) (p_ID p) = Some p → p_State p = PeerConnected → 0 < p_Score p →
    p ∈ best ∨ (Z.of_nat (length best) = n ∧ ∀ q, q ∈ best → p_Score p < p_Score q ∨ (p_Score p = p_Score q ∧ p_Latency q <= p_Latency p)).
Proof.
  intros Hr. assert (pm_ok (pd_pm pd)) as Hok by (by apply (reachable_lift pm_ok op_index); [|split]).
  unfold GetBestPeers. set (cand := List.filter _ _). destruct (Z.ltb_spec n 0); [done|]. intros [= <-].
  assert (∀ p, p ∈ cand ↔ GetPeer (pd_pm pd) (p_ID p) = Some p ∧ p_State p = PeerConnected ∧ 0 < p_Score p) as Hc.
  { intros p. unfold cand. rewrite elem_of_filter_list, elem_of_all_peers, andb_true_iff, Z.eqb_eq, Z.ltb_lt by done. done. }
  assert (∀ a b, not_after better_peer a b → p_Score b < p_Score a ∨ (p_Score a = p_Score b ∧ p_Latency a <= p_Latency b)) as Hord.
  { intros a b. unfold not_after, better_peer. destruct (Z.eqb_spec (p_Score b) (p_Score a)); lia. }
  pose proof (sort_slice_sorted better_peer cand) as Hs. set (l := sort_slice better_peer cand) in *.
  assert (∀ p, p ∈ l ↔ p ∈ cand) as Hl by (intros p; unfold l; by rewrite sort_slice_perm).
  split; [|split].
  - eapply StronglySorted_mono; [exact Hord|by apply StronglySorted_take].
  - intros p Hp. apply Hc, Hl. rewrite <- (take_drop (Z.to_nat n) l), elem_of_app. by left.
  - intros p H1 H2 H3. assert (p ∈ l) as Hp by (by apply Hl, Hc). rewrite <- (take_drop (Z.to_nat n) l), elem_of_app in Hp.
    destruct Hp as [Hp|Hp]; [by left|]. right. split.
    + rewrite length_take. assert (Z.to_nat n < length l)%nat; [|lia]. apply list_elem_of_lookup in Hp as [i Hi].
      apply lookup_lt_Some in Hi. rewrite length_drop in Hi. lia.
    + intros q Hq. rewrite <- (take_drop (Z.to_nat n) l) in Hs. destruct (Hord q p); [|lia..].
      by apply (StronglySorted_split _ _ _ q p Hs).
Qed.

(** The peers that are persisted are those a fresh manager loads after a
    restart, under the same ids and addresses, each with its score, state and
    counters, its times in seconds, and without a connection. *)
Theorem peers_reload {DB Tx} `{BoltLaws DB Tx, !BoltReliable DB Tx}
    (pd : PeerDiscovery) (db : DB) (gob : bytes → option Peer) :
  rtc peer_step NewPeerDiscovery pd → Forall storable_peer (all_peers (pd_pm pd)) → bucket_of db peersBucket = ∅ →
  ∃ db' pm', Persist (pd_pm pd) db = (db', Ok tt) ∧ LoadPeers gob NewPeerManager db' = (db', Ok pm') ∧
    (∀ id, GetPeer pm' id = reloaded <$> GetPeer (pd_pm pd) id) ∧
    ∀ p, GetPeer pm' (p_ID p) = Some p ↔ GetPeerByAddr pm' (p_Address p) = Some p.
Proof.
  intros Hr Hs Hb. assert (pm_ok (pd_pm pd)) as Hok by (by apply (reachable_lift pm_ok op_index); [|split]).
  destruct (Persist_ok (pd_pm pd) db Hok Hs) as (db' & Hp & Hb'). rewrite Hb, map_union_empty in Hb'.
  destruct (stored_peers (pd_pm pd) Hok) as (ps & He & Hps). rewrite <- Hb' in He.
  destruct (load_all gob ps NewPeerManager) as (Hok' & Hin & Hout).
  - by split.
  - by rewrite <- Hps.
  - rewrite <- Hps. by apply all_peers_entries.
  - rewrite <- Hps. by apply all_peers_addresses.
  - by apply Forall_forall.
  - exists db', (fold_left (load_peer gob) (peer_entry <$> ps) NewPeerManager). split; [done|]. split; [by rewrite LoadPeers_run, He|].
    split; [|intros p; apply (pm_ok_agree _ p Hok')]. intros id. destruct (GetPeer (pd_pm pd) id) as [p|] eqn:Eid.
    + destruct (GetPeer_id _ _ _ Hok Eid). apply Hin. rewrite <- Hps. by apply elem_of_all_peers.
    + rewrite Hout; [done|]. rewrite <- Hps. intros (p & -> & Hp')%list_elem_of_fmap. apply elem_of_all_peers in Hp'; [|done]. congruence.
Qed.

(** A connection attempt lifts a ban, whether it succeeds or not. *)
Theorem connect_lifts_ban (pm : PeerManager) (id : PeerID) (p : Peer) (addr : string) (dialed : bool) (now : Z) :
  GetPeer pm id = Some p → p_State p = PeerBanned →
  ∃ q, GetPeer (ConnectToPeer id addr dialed now pm).1 id = Some q ∧ p_State q = (if dialed then PeerConnected else PeerDisconnected).
Proof.
  intros (ptr & Hptr & Hp)%bind_Some _. unfold ConnectToPeer. rewrite Hptr. exists (connect_peer dialed now p). split.
  - unfold GetPeer. cbn. rewrite Hptr. cbn. rewrite list_lookup_alter, decide_True, Hp by done. done.
  - by destruct dialed.
Qed.

(** A peer sets the score of any known peer, itself included, to a value of
    its choice, also outside the range. *)
Theorem exchange_sets_score (pd : PeerDiscovery) (p : Peer) (from : PeerID) (score now : Z) :
  GetPeer (pd_pm pd) (p_ID p) = Some p → 0 <= score < 2 ^ 32 → PeerInfo_wf (peer_info p) →
  ∃ q, GetPeer (pd_pm (HandlePeerExchange from (serializePeerInfo [peer_info (set_score score p)]) now pd)) (p_ID p) = Some q ∧
    p_Score q = score.
Proof.
  intros (ptr & Hptr & Hp)%bind_Some Hs Hw. unfold HandlePeerExchange.
  rewrite (peer_exchange_read [peer_info (set_score score p)]); [|constructor; [exact Hw|constructor]|done].
  cbn [fmap list_fmap with_pm pd_pm fold_left]. unfold learn_peer, AddPeer. cbn [pi_ID exchanged peer_info p_ID set_score].
  rewrite Hptr. unfold GetPeer. cbn [pm_peers update_peer]. rewrite Hptr. cbn. rewrite list_lookup_alter, decide_True, Hp by done.
  eexists. split; [reflexivity|]. cbn. by apply Z.mod_small.
Qed.

(** ** Examples *)

Definition some_peer : PeerID := arr_copy 32 [x07].

(** A peer that was added, connected and sent a block. *)
Definition one_peer : PeerDiscovery :=
  with_pm (ReportSuccess some_peer MsgTypeBlock 2) (with_pm (λ pm, (ConnectToPeer some_peer "10.0.0.7:1" true 1 pm).1) NewPeerDiscovery).

Lemma one_peer_reachable : rtc peer_step NewPeerDiscovery one_peer.
Proof. eapply rtc_l; [apply step_manager, op_connect|]. apply rtc_once, step_manager, op_success. Qed.

Definition active_peer : Peer := report_success MsgTypeBlock 2 (connect_peer true 1 (fresh_peer some_peer "10.0.0.7:1" 1)).

Lemma one_peer_get : GetPeer (pd_pm one_peer) some_peer = Some active_peer.
Proof. reflexivity. Qed.

Lemma peer_index_consistent_witness : GetPeerByAddr (pd_pm one_peer) "10.0.0.7:1" = Some active_peer.
Proof.
  apply (peer_index_consistent one_peer active_peer).
  - apply (rtc_subrel peer_step); [intros x y; apply step_local|apply one_peer_reachable].
  - apply one_peer_get.
Defined.

(** Thirty blocks and a snapshot chunk on the same day: at most 11 points more. *)
Lemma scores_bounded_witness :
  ∃ p', GetPeer (fold_left (λ pm r, ReportSuccess some_peer r.1 r.2 pm)
      (replicate 30 (MsgTypeBlock, 3) ++ [(MsgTypeSnapshotChunk, 4)]) (pd_pm one_peer)) some_peer = Some p' ∧
    p_Score p' <= 12.
Proof.
  destruct (scores_bounded one_peer some_peer active_peer) as (_ & _ & _ & Hall);
    [apply one_peer_reachable|apply one_peer_get|].
  destruct (Hall (replicate 30 (MsgTypeBlock, 3) ++ [(MsgTypeSnapshotChunk, 4)])) as (p' & Hp & Hs).
  - apply Forall_app. split; [apply Forall_replicate|apply Forall_singleton]; vm_compute; discriminate.
  - exists p'. split; [exact Hp|]. exact Hs.
Defined.

Lemma best_peers_exact_witness : ∃ best, GetBestPeers (pd_pm one_peer) 10 = Ok best ∧ active_peer ∈ best.
Proof.
  eexists. split; [reflexivity|].
  match goal with |- _ ∈ ?l => destruct (best_peers_exact one_peer 10 l) as (_ & _ & Hall) end.
  - apply one_peer_reachable.
  - reflexivity.
  - destruct (Hall active_peer) as [Hin|[Hlen _]].
    + reflexivity.
    + reflexivity.
    + reflexivity.
    + exact Hin.
    + exfalso. revert Hlen. vm_compute. discriminate.
Defined.

Lemma peers_reload_witness :
  ∃ db' pm', Persist (pd_pm one_peer) (∅ : contents) = (db', Ok tt) ∧ LoadPeers (λ _, None) NewPeerManager db' = (db', Ok pm') ∧
    GetPeer pm' some_peer = Some (reloaded active_peer).
Proof.
  destruct (peers_reload one_peer (∅ : contents) (λ _, None)) as (db' & pm' & Hp & Hl & Hg & _).
  - apply one_peer_reachable.
  - assert (all_peers (pd_pm one_peer) = [active_peer]) as -> by reflexivity. apply Forall_singleton.
    split; repeat constructor; vm_compute; (discriminate || reflexivity).
  - reflexivity.
  - exists db', pm'. split; [exact Hp|]. split; [exact Hl|]. rewrite Hg, one_peer_get. reflexivity.
Defined.
