(* ===== verification/P2p.v ===== *)
(** * Connections and gossip (network/p2p.go, snapshot.go, gossip.go, discovery.go)

    What a node does with the messages of its connections, what it writes to
    them, the gossip engine and the list of bootstrap peers. A connection is
    its remote address; the bytes that [Read] returns, whether [Dial] and
    [Write] succeed, the answers of the token buckets (which compute with
    floating-point numbers) and the random numbers are arguments. Goroutines
    that handle one message are run at once; the handlers they call are
    recorded as [delivery]. *)

From S2P Require Import Prelude Codec Sha256 Address Amount Tx Votes Block Smt Store Keys State Gossip Bolt Persist StateSync.
From S2P Require Import Wire Peers.

(** ** Limits on connections *)

Record connectionLimiter := mkConnectionLimiter {
  cl_peers : gset string;
  cl_tempBans : gmap string Z;
  cl_maxPeers : Z;
}.

Definition newConnectionLimiter : connectionLimiter := mkConnectionLimiter ∅ ∅ 50.

(** [rateOk] is the answer of the limiter of the address. *)
Definition allow (ip : string) (now : Z) (rateOk : bool) (cl : connectionLimiter) : connectionLimiter * bool :=
  let check cl := (cl, if cl_maxPeers cl <=? Z.of_nat (size (cl_peers cl)) then false else rateOk) in
  match cl_tempBans cl !! ip with
  | Some banTime =>
      if now <? banTime then (cl, false)
      else check (mkConnectionLimiter (cl_peers cl) (delete ip (cl_tempBans cl)) (cl_maxPeers cl))
  | None => check cl
  end.

Definition addPeer (peerID : string) (cl : connectionLimiter) : connectionLimiter :=
  mkConnectionLimiter ({[ peerID ]} ∪ cl_peers cl) (cl_tempBans cl) (cl_maxPeers cl).
Definition removePeer (peerID : string) (cl : connectionLimiter) : connectionLimiter :=
  mkConnectionLimiter (cl_peers cl ∖ {[ peerID ]}) (cl_tempBans cl) (cl_maxPeers cl).

(** ** The node *)

(** Calls of the handlers. *)
Inductive delivery :=
  | DeliverTx (tx : Transaction)
  | DeliverInfo (info : SnapshotInfo)
  | DeliverChunk (chunk : SnapshotChunk).

Record P2PNode := mkP2PNode {
  pn_pm : PeerManager;
  pn_connections : gset string;
  pn_limiter : connectionLimiter;
  pn_txHandler : bool;
  pn_blockHandler : bool;
  pn_blockCh : list (bytes * string);
  pn_delivered : list delivery;
  pn_written : list (string * bytes);
}.

Definition NewP2PNode : P2PNode := mkP2PNode NewPeerManager ∅ newConnectionLimiter false false [] [] [].

Definition node_pm (f : PeerManager → PeerManager) (n : P2PNode) : P2PNode :=
  mkP2PNode (f (pn_pm n)) (pn_connections n) (pn_limiter n) (pn_txHandler n) (pn_blockHandler n) (pn_blockCh n) (pn_delivered n) (pn_written n).
Definition node_conns (f : gset string → gset string) (n : P2PNode) : P2PNode :=
  mkP2PNode (pn_pm n) (f (pn_connections n)) (pn_limiter n) (pn_txHandler n) (pn_blockHandler n) (pn_blockCh n) (pn_delivered n) (pn_written n).
Definition node_limiter (f : connectionLimiter → connectionLimiter) (n : P2PNode) : P2PNode :=
  mkP2PNode (pn_pm n) (pn_connections n) (f (pn_limiter n)) (pn_txHandler n) (pn_blockHandler n) (pn_blockCh n) (pn_delivered n) (pn_written n).
Definition node_queue (q : list (bytes * string)) (n : P2PNode) : P2PNode :=
  mkP2PNode (pn_pm n) (pn_connections n) (pn_limiter n) (pn_txHandler n) (pn_blockHandler n) q (pn_delivered n) (pn_written n).
Definition deliver (d : delivery) (n : P2PNode) : P2PNode :=
  mkP2PNode (pn_pm n) (pn_connections n) (pn_limiter n) (pn_txHandler n) (pn_blockHandler n) (pn_blockCh n) (pn_delivered n ++ [d]) (pn_written n).
Definition write_out (addr : string) (data : bytes) (n : P2PNode) : P2PNode :=
  mkP2PNode (pn_pm n) (pn_connections n) (pn_limiter n) (pn_txHandler n) (pn_blockHandler n) (pn_blockCh n) (pn_delivered n)
    (pn_written n ++ [(addr, data)]).

Definition SetTxHandler (n : P2PNode) : P2PNode :=
  mkP2PNode (pn_pm n) (pn_connections n) (pn_limiter n) true (pn_blockHandler n) (pn_blockCh n) (pn_delivered n) (pn_written n).
Definition SetBlockHandler (n : P2PNode) : P2PNode :=
  mkP2PNode (pn_pm n) (pn_connections n) (pn_limiter n) (pn_txHandler n) true (pn_blockCh n) (pn_delivered n) (pn_written n).

Definition NumConnections (n : P2PNode) : Z := Z.of_nat (size (pn_connections n)).
Definition isConnected (addr : string) (n : P2PNode) : bool := bool_decide (addr ∈ pn_connections n).

(** ** Receiving *)

(** The id under which a connection is registered. *)
Definition addr_id (addr : string) : PeerID := PeerIDFromBytes (str_bytes addr).

(** The start and the end of [handleConnection]. *)
Definition open_connection (remoteAddr : string) (now : Z) (n : P2PNode) : P2PNode :=
  node_pm (λ pm, (AddPeer (addr_id remoteAddr) remoteAddr now pm).1)
    (node_limiter (addPeer remoteAddr) (node_conns (λ c, {[ remoteAddr ]} ∪ c) n)).

Definition close_connection (remoteAddr : string) (n : P2PNode) : P2PNode :=
  node_limiter (removePeer remoteAddr) (node_conns (λ c, c ∖ {[ remoteAddr ]}) n).

(** A full channel drops the block. *)
Definition blockChSize : nat := 128.

Definition handleBlock (data : bytes) (src : string) (n : P2PNode) : P2PNode :=
  if bool_decide (length (pn_blockCh n) < blockChSize)%nat then node_queue (pn_blockCh n ++ [(data, src)]) n else n.

(** The consumer takes one job; the handler is called with its data. *)
Definition consume_block (n : P2PNode) : option (bytes * P2PNode) :=
  match pn_blockCh n with
  | [] => None
  | (data, _) :: rest => Some (data, node_queue rest n)
  end.

(** The branch for bytes that should be a transaction. *)
Definition handleTransaction (data : bytes) (peerID : PeerID) (now : Z) (n : P2PNode) : P2PNode :=
  match run_reader Transaction_Decode data with
  | Ok tx => if pn_txHandler n then deliver (DeliverTx tx) n else n
  | _ => node_pm (ReportFailure peerID 2 now) n
  end.

Section snapshots.
(** The answers of the registered handlers, if any, and which connections can
    be written to. *)
Context (writes : string → bool) (onQuery : option (option SnapshotInfo)) (onInfo onChunk : bool) (onRequest : option (Hash → Z → option SnapshotChunk)).

(** [sendToPeer]: the type byte and the payload behind a length. *)
Definition sendToPeer (peer : string) (msgType : byte) (payload : bytes) (n : P2PNode) : P2PNode * res unit :=
  if isConnected peer n then
    let msg := msgType :: payload in
    if writes peer then (write_out peer (be 4 (u32 (Z.of_nat (length msg))) ++ msg) n, Ok tt)
    else (n, Err (Errorf "failed to write message"))
  else (n, Err (Errorf "peer not found")).

Definition SendSnapshotInfo (peer : string) (info : SnapshotInfo) : P2PNode → P2PNode * res unit :=
  sendToPeer peer MsgTypeSnapshotInfo (serializeSnapshotInfo info).
Definition SendSnapshotChunk (peer : string) (chunk : SnapshotChunk) : P2PNode → P2PNode * res unit :=
  sendToPeer peer MsgTypeSnapshotChunk (serializeSnapshotChunk chunk).
Definition RequestSnapshotChunk (peer : string) (snapshotHash : Hash) (index : Z) : P2PNode → P2PNode * res unit :=
  sendToPeer peer MsgTypeSnapshotRequest (snapshotRequest snapshotHash index).

(** A peer that is not registered, or has the zero id, is not penalised. *)
Definition malformed (peer : string) (now : Z) (n : P2PNode) : P2PNode :=
  match GetPeerByAddr (pn_pm n) peer with
  | Some p => if bool_decide (p_ID p = arr_zero 32) then n else node_pm (ReportFailure (p_ID p) 2 now) n
  | None => n
  end.

Definition handleSnapshotMessage (msgType : byte) (data : bytes) (peer : string) (now : Z) (n : P2PNode) : res P2PNode :=
  if bool_decide (msgType = MsgTypeSnapshotQuery) then
    Ok match onQuery with Some (Some info) => (SendSnapshotInfo peer info n).1 | _ => n end
  else if bool_decide (msgType = MsgTypeSnapshotInfo) then
    Ok match parseSnapshotInfo data with
       | None => malformed peer now n
       | Some info => if onInfo then deliver (DeliverInfo info) n else n
       end
  else if bool_decide (msgType = MsgTypeSnapshotRequest) then
    Ok match parseSnapshotRequest data with
       | None => malformed peer now n
       | Some (hash, index) =>
           match onRequest with
           | Some handler => match handler hash index with Some chunk => (SendSnapshotChunk peer chunk n).1 | None => n end
           | None => n
           end
       end
  else if bool_decide (msgType = MsgTypeSnapshotChunk) then
    chunk ← parseSnapshotChunk data;
    Ok match chunk with
       | None => malformed peer now n
       | Some chunk => if onChunk then deliver (DeliverChunk chunk) n else n
       end
  else Ok n.

(** One message of a connection, after the rate limiter let it through. *)
Definition dispatch (remoteAddr : string) (msgBuf : bytes) (now : Z) (n : P2PNode) : res P2PNode :=
  match msgBuf with
  | [] => Ok n
  | msgType :: msgData =>
      if (b2z MsgTypeSnapshotQuery <=? b2z msgType) && (b2z msgType <=? b2z MsgTypeSnapshotChunk)
      then handleSnapshotMessage msgType msgData remoteAddr now n
      else if bool_decide (msgType = MsgTypeBlock) then Ok (if pn_blockHandler n then handleBlock msgBuf remoteAddr n else n)
      else if bool_decide (msgType = MsgTypeTransaction) then Ok (handleTransaction msgData (addr_id remoteAddr) now n)
      else if IsKnownType msgType then Ok n
      else Ok (handleTransaction msgBuf (addr_id remoteAddr) now n)
  end.

(** What the loop of a connection does next: go on with a count of failures,
    or return. *)
Inductive verdict := Continue (failures : Z) | Disconnect.

(** [allowed] is the answer of the token bucket of the connection. *)
Definition process_message (remoteAddr : string) (msgBuf : bytes) (allowed : bool) (now failures : Z) (n : P2PNode)
    : res (P2PNode * verdict) :=
  if bool_decide (msgBuf = []) then Ok (n, Continue failures) else
  if negb allowed then
    let n := node_pm (ReportFailure (addr_id remoteAddr) 10 now) n in
    if 3 <=? failures + 1 then Ok (node_pm (Ban (addr_id remoteAddr) (5 * minute) now) n, Disconnect)
    else Ok (n, Continue (failures + 1))
  else
    n' ← dispatch remoteAddr msgBuf now n;
    Ok (n', Continue 0).

(** One turn of the loop: [read1] and [read2] are what the two calls of [Read]
    return, which may be less than was asked for. *)
Definition read_turn (remoteAddr : string) (read1 read2 : bytes) (allowed : bool) (now failures : Z) (n : P2PNode)
    : res (P2PNode * verdict) :=
  let msgLen := unbe (arr_copy 4 read1) in
  if MaxPayloadSize <? msgLen then Ok (n, Disconnect) else
  process_message remoteAddr (arr_bytes (arr_copy (Z.to_nat msgLen) read2)) allowed now failures n.
End snapshots.

(** ** Sending *)

(** What goes over the wire for a message. *)
Definition wire_message (data : bytes) : bytes := be 4 (u32 (Z.of_nat (length data))) ++ data.

Definition SendTo (addr : string) (data : bytes) (writes : bool) (n : P2PNode) : P2PNode * res unit :=
  if isConnected addr n then
    if writes then (write_out addr (wire_message data) n, Ok tt) else (n, Err (Errorf "failed to write data"))
  else (n, Err (Errorf "peer not found")).

(** Connections that cannot be written to are dropped. *)
Definition Broadcast (data : bytes) (writes : string → bool) (n : P2PNode) : P2PNode :=
  let addrs := elements (pn_connections n) in
  let n := fold_left (λ n addr, if writes addr : bool then write_out addr (wire_message data) n else n) addrs n in
  node_conns (λ c, list_to_set (List.filter writes (elements c))) n.

(** [P2PNode.GossipTransaction]: the encoding without a type byte. *)
Definition P2PNode_GossipTransaction (tx : Transaction) (writes : string → bool) (n : P2PNode) : P2PNode * res unit :=
  match encode_bytes (Transaction_Encode tx) with
  | Ok data => (Broadcast data writes n, Ok tt)
  | Err e => (n, Err e)
  | Panic => (n, Panic)
  end.

Definition BroadcastSnapshotQuery (writes : string → bool) : P2PNode → P2PNode := Broadcast [MsgTypeSnapshotQuery] writes.
Definition BroadcastSnapshotInfo (info : SnapshotInfo) (writes : string → bool) : P2PNode → P2PNode :=
  Broadcast (MsgTypeSnapshotInfo :: serializeSnapshotInfo info) writes.

Definition Connect (addr : string) (dialed : bool) (now : Z) (n : P2PNode) : P2PNode * res unit :=
  if isConnected addr n then (n, Err (Errorf "already connected"))
  else if negb dialed then (n, Err (Errorf "failed to dial"))
  else (node_pm (λ pm, (AddPeer (addr_id addr) addr now pm).1) (node_conns (λ c, {[ addr ]} ∪ c) n), Ok tt).

Definition P2PNode_Close (n : P2PNode) : P2PNode := node_conns (λ _, ∅) n.

(** ** The gossip engine (gossip.go) *)

Record GossipEngine := mkGossipEngine {
  ge_p2p : P2PNode;
  ge_seenSet : SeenSet;
}.

Definition NewGossipEngine (p2p : P2PNode) : res GossipEngine :=
  seen ← NewSeenSet 110000;
  Ok (mkGossipEngine p2p seen).

(** The hasher is SHA-256, which does not fail. *)
Definition computeHash (data : bytes) : Hash := Sum256 data.

(** [i + r % (len - i)] for the random number [r], and the swap. *)
Definition pick (i : nat) (r : Z) (indices : list nat) : nat * list nat :=
  let randIdx := (i + Z.to_nat (r mod (Z.of_nat (length indices) - Z.of_nat i)))%nat in
  let a := default 0%nat (indices !! i) in
  let b := default 0%nat (indices !! randIdx) in
  (b, <[randIdx := a]> (<[i := b]> indices)).

(** The loop of the shuffle from position [i], with one random number per
    turn. *)
Fixpoint shuffle (i : nat) (rs : list Z) (indices : list nat) : list nat :=
  match rs with
  | [] => []
  | r :: rs' => let '(b, indices') := pick i r indices in b :: shuffle (S i) rs' indices'
  end.

(** [rs] are the random numbers; one is drawn for each of the [n] peers. *)
Definition selectPeers {A} (peers : list A) (n : nat) (rs : list Z) : list A :=
  if bool_decide (length peers <= n)%nat then peers
  else omap (λ j, peers !! j) (shuffle 0 (take n rs) (seq 0 (length peers))).

Definition fan_out (connected : nat) : nat := Nat.max 3 (Nat.sqrt connected).

(** Send to the peers whose bucket has a token left. *)
Definition send_each (allowed : PeerID → bool) (writes : string → bool) (framed : bytes) (peers : list Peer) (n : P2PNode) : P2PNode :=
  fold_left (λ n p, if allowed (p_ID p) : bool then (SendTo (p_Address p) framed (writes (p_Address p)) n).1 else n) peers n.

Definition GossipBlock (data : bytes) (rs : list Z) (allowed : PeerID → bool) (writes : string → bool) (ge : GossipEngine) : GossipEngine :=
  let blockHash := computeHash data in
  if Seen (ge_seenSet ge) blockHash then ge else
  let seen := Mark blockHash (ge_seenSet ge) in
  match GetPeersByState (pn_pm (ge_p2p ge)) PeerConnected with
  | [] => mkGossipEngine (ge_p2p ge) seen
  | connectedPeers =>
      let selected := selectPeers connectedPeers (fan_out (length connectedPeers)) rs in
      mkGossipEngine (send_each allowed writes (FrameMessage MsgTypeBlock data) selected (ge_p2p ge)) seen
  end.

Definition GossipEngine_GossipTransaction (data : bytes) (allowed : PeerID → bool) (writes : string → bool) (ge : GossipEngine) : GossipEngine :=
  let txHash := computeHash data in
  if Seen (ge_seenSet ge) txHash then ge else
  let seen := Mark txHash (ge_seenSet ge) in
  mkGossipEngine
    (send_each allowed writes (FrameMessage MsgTypeTransaction data) (GetPeersByState (pn_pm (ge_p2p ge)) PeerConnected) (ge_p2p ge)) seen.

(** Whether a message is accepted, and the penalty. *)
Definition HandleIncoming (msgType : byte) (data : bytes) (allowed : bool) (ge : GossipEngine) : GossipEngine * (bool * Z) :=
  if negb allowed then (ge, (false, 10)) else
  if bool_decide (msgType = MsgTypeBlock) then
    let hash := computeHash data in
    if Seen (ge_seenSet ge) hash then (ge, (false, 0))
    else (mkGossipEngine (ge_p2p ge) (Mark hash (ge_seenSet ge)), (true, 0))
  else (ge, (true, 0)).

(** ** Bootstrap peers (discovery.go) *)

Record Discovery := mkDiscovery {
  ds_bootstrapPeers : list string;
  ds_connected : gmap string bool;
}.

Definition NewDiscovery (bootstrapPeers : list string) : Discovery := mkDiscovery bootstrapPeers ∅.

Definition mark_connected (addr : string) (d : Discovery) : Discovery := mkDiscovery (ds_bootstrapPeers d) (<[addr := true]> (ds_connected d)).

Definition connectBootstrap (addr : string) (dialed : bool) (now : Z) (d : Discovery) (n : P2PNode) : Discovery * P2PNode * res unit :=
  if isConnected addr n then (mark_connected addr d, n, Ok tt) else
  match Connect addr dialed now n with
  | (n', Ok _) => (mark_connected addr d, n', Ok tt)
  | (n', Err e) => (d, n', Err (Wrapf "failed to connect" e))
  | (n', Panic) => (d, n', Panic)
  end.

Definition backoffSchedule : list Z := [second; 2 * second; 4 * second; 8 * second; 30 * second].

(** The delay after a failed attempt, and the next attempt. *)
Definition backoff_step (attempt : nat) : Z * nat :=
  (default 0 (backoffSchedule !! attempt), if bool_decide (attempt < length backoffSchedule - 1)%nat then S attempt else attempt).

(** [connectWithBackoff] with the outcomes of its attempts: the delays it waits
    and what it leaves; it ends with the first success or when it is stopped. *)
Fixpoint connectWithBackoff (addr : string) (attempt : nat) (dials : list (bool * Z)) (d : Discovery) (n : P2PNode)
    : list Z * Discovery * P2PNode :=
  match dials with
  | [] => ([], d, n)
  | (dialed, now) :: dials' =>
      match connectBootstrap addr dialed now d n with
      | (d', n', Ok _) => ([], d', n')
      | (d', n', _) =>
          let '(delay, attempt') := backoff_step attempt in
          let '(delays, d'', n'') := connectWithBackoff addr attempt' dials' d' n' in
          (delay :: delays, d'', n'')
      end
  end.

(** The bootstrap peers that a maintenance round dials again. *)
Definition maintainConnections (d : Discovery) : list string :=
  List.filter (λ peer, negb (default false (ds_connected d !! peer))) (ds_bootstrapPeers d).

Definition IsConnected (addr : string) (d : Discovery) : bool := default false (ds_connected d !! addr).

Definition ConnectedPeers (d : Discovery) : list string :=
  fst <$> List.filter (λ e : string * bool, e.2) (map_to_list (ds_connected d)).

(** The answer to a request for the peer list; [json] encodes it. *)
Definition HandlePeerListRequest (json : list string → option bytes) (src : string) (writes : bool) (n : P2PNode) : P2PNode :=
  match json (p_Address <$> GetPeersByState (pn_pm n) PeerConnected) with
  | Some data => (SendTo src (FrameMessage MsgTypePeerListResponse data) writes n).1
  | None => n
  end.

(** [peers] is the decoded answer. *)
Definition HandlePeerListResponse (peers : option (list string)) (now : Z) (n : P2PNode) : P2PNode * res unit :=
  match peers with
  | None => (n, Err (Errorf "failed to parse peer list response"))
  | Some addrs => (node_pm (λ pm, fold_left (λ pm a, (AddPeer (addr_id a) a now pm).1) addrs pm) n, Ok tt)
  end.

(** ** Lemmas *)

(** *** A message that is read in full *)

Section reading.
Context (writes : string → bool) (onQuery : option (option SnapshotInfo)) (onInfo onChunk : bool)
  (onRequest : option (Hash → Z → option SnapshotChunk)).
Abbreviation read_turn := (read_turn writes onQuery onInfo onChunk onRequest).
Abbreviation dispatch := (dispatch writes onQuery onInfo onChunk onRequest).

Lemma read_full addr msg allowed now failures n :
  Z.of_nat (length msg) <= MaxPayloadSize →
  read_turn addr (take 4 (wire_message msg)) (drop 4 (wire_message msg)) allowed now failures n
  = process_message writes onQuery onInfo onChunk onRequest addr msg allowed now failures n.
Proof.
  intros Hl. unfold MaxPayloadSize in *. unfold P2p.read_turn, wire_message.
  rewrite take_app_length', drop_app_length' by (by rewrite length_be).
  rewrite arr_copy_exact by (by rewrite length_be). unfold u32. rewrite Z.mod_small by lia.
  rewrite unbe_be_small by (unfold fits; lia). unfold MaxPayloadSize.
  destruct (Z.ltb_spec (1 * 1024 * 1024) (Z.of_nat (length msg))); [lia|]. rewrite Nat2Z.id. by rewrite arr_copy_exact.
Qed.

Lemma process_allowed addr msg now failures n :
  msg ≠ [] → process_message writes onQuery onInfo onChunk onRequest addr msg true now failures n
  = (n' ← dispatch addr msg now n; Ok (n', Continue 0)).
Proof. intros Hm. unfold process_message. by rewrite bool_decide_eq_false_2. Qed.

(** A first byte that is no type means a transaction. *)
Lemma dispatch_untyped addr rest now n : dispatch addr (x00 :: rest) now n = Ok (handleTransaction (x00 :: rest) (addr_id addr) now n).
Proof. reflexivity. Qed.

Lemma dispatch_block addr body now n :
  dispatch addr (MsgTypeBlock :: body) now n = Ok (if pn_blockHandler n then handleBlock (MsgTypeBlock :: body) addr n else n).
Proof. reflexivity. Qed.

(** A frame starts with a zero byte, its length being below 2^24. *)
Lemma frame_head t payload :
  Z.of_nat (length payload) + 1 < 2 ^ 24 → ∃ rest, FrameMessage t payload = x00 :: rest.
Proof.
  intros Hl. unfold FrameMessage, u32. rewrite Z.mod_small by lia. set (v := 1 + Z.of_nat (length payload)).
  assert (be 4 v = x00 :: be 3 v) as ->; [|by eexists].
  apply unbe_inj; [by cbn [length]; rewrite !length_be|]. rewrite unbe_cons, length_be. change (b2z x00) with 0.
  rewrite !unbe_be_small; unfold fits; lia.
Qed.

Lemma handleTransaction_queue data id now n : pn_blockCh (handleTransaction data id now n) = pn_blockCh n.
Proof. unfold handleTransaction. destruct (run_reader _ _); [destruct (pn_txHandler n)|..]; done. Qed.

End reading.

(** The encoding of a transaction starts with the high byte of its version. *)
Lemma tx_head tx : Transaction_wf tx → tx_Version tx < 2 ^ 8 → ∃ rest, wire (Transaction_Encode tx) = x00 :: rest.
Proof.
  intros Hwf Hv. assert (∃ bs, emits (Transaction_Encode tx) (be 2 (tx_Version tx) ++ bs)) as [bs Hbs].
  { destruct Hwf as (H1 & Hc & Hn & Hp & Hk & Hf & Hg & Ht & Hs & Hy).
    eexists. unfold Transaction_Encode.
    rewrite u8_len by done. eapply emits_bind; [apply emits_uint|]. emit. }
  pose proof (emits_fun _ _ _ (rt_emits tx Hwf) Hbs) as ->. destruct Hwf as ([H0 _] & _).
  assert (be 2 (tx_Version tx) = x00 :: be 1 (tx_Version tx)) as ->; [|by eexists].
  apply unbe_inj; [by cbn [length]; rewrite !length_be|]. rewrite unbe_cons, length_be. change (b2z x00) with 0.
  rewrite !unbe_be_small; unfold fits; lia.
Qed.

(** *** The shuffle *)

(** The positions after the turns of [shuffle]. *)
Fixpoint shuffled (i : nat) (rs : list Z) (indices : list nat) : list nat :=
  match rs with
  | [] => indices
  | r :: rs' => shuffled (S i) rs' (pick i r indices).2
  end.

Definition permuted (N : nat) (l : list nat) : Prop := length l = N ∧ NoDup l ∧ Forall (λ j, j < N)%nat l.

Lemma NoDup_swap {A} (l : list A) i j a b :
  NoDup l → l !! i = Some a → l !! j = Some b → NoDup (<[j := a]> (<[i := b]> l)).
Proof.
  intros Hn Hi Hj. pose proof (lookup_lt_Some _ _ _ Hi). pose proof (lookup_lt_Some _ _ _ Hj).
  assert (∀ k, <[j := a]> (<[i := b]> l) !! k = l !! (if decide (k = j) then i else if decide (k = i) then j else k)) as Hl.
  { intros k. case_decide as Hd; [subst k; rewrite list_lookup_insert_eq by (by rewrite length_insert); by rewrite Hi|].
    rewrite list_lookup_insert_ne by done. case_decide as Hd2; [subst k; by rewrite list_lookup_insert_eq, Hj|].
    by rewrite list_lookup_insert_ne. }
  apply NoDup_alt. intros p q x. rewrite !Hl. intros Hp Hq. rewrite NoDup_alt in Hn. specialize (Hn _ _ _ Hp Hq).
  repeat case_decide; congruence.
Qed.

Lemma pick_spec N i r l :
  permuted N l → (i < N)%nat → permuted N (pick i r l).2 ∧ (pick i r l).2 !! i = Some (pick i r l).1 ∧
    ∀ k, (k < i)%nat → (pick i r l).2 !! k = l !! k.
Proof.
  intros (Hl & Hn & Hf) Hi. unfold pick. cbn [fst snd]. set (j := (i + _)%nat).
  assert (i <= j < N)%nat as Hj.
  { unfold j. pose proof (Z.mod_pos_bound r (Z.of_nat (length l) - Z.of_nat i)). lia. }
  destruct (lookup_lt_is_Some_2 l i) as [a Ha]; [lia|]. destruct (lookup_lt_is_Some_2 l j) as [b Hb]; [lia|]. rewrite Ha, Hb. cbn [default]. unfold id.
  pose proof (Forall_lookup_1 _ _ _ _ Hf Ha). pose proof (Forall_lookup_1 _ _ _ _ Hf Hb). split_and!.
  - split_and!; [by rewrite !length_insert|by apply NoDup_swap|]. by apply Forall_insert; [apply Forall_insert|].
  - destruct (decide (i = j)) as [<-|Hne]; [|by rewrite list_lookup_insert_ne, list_lookup_insert_eq by lia].
    rewrite list_lookup_insert_eq by (rewrite length_insert; lia). congruence.
  - intros k Hk. rewrite !list_lookup_insert_ne by lia. done.
Qed.

Lemma shuffle_spec N rs : ∀ i l,
  permuted N l → (i + length rs <= N)%nat →
  permuted N (shuffled i rs l) ∧ (∀ k, (k < i)%nat → shuffled i rs l !! k = l !! k) ∧
  ∀ k, (k < length rs)%nat → shuffle i rs l !! k = shuffled i rs l !! (i + k)%nat.
Proof.
  induction rs as [|r rs IH]; intros i l Hp Hi; cbn [shuffled shuffle length] in *; [split; [done|]; split; [done|lia]|].
  destruct (pick_spec N i r l Hp) as (Hp1 & Hb & Hk1); [lia|]. destruct (pick i r l) as [b l1]. cbn [fst snd] in *.
  destruct (IH (S i) l1 Hp1) as (Hp2 & Hk2 & Hs2); [lia|]. split; [done|]. split; [intros k Hk; rewrite Hk2, Hk1 by lia; done|].
  intros [|k] Hk.
  - rewrite Nat.add_0_r, Hk2 by lia. by rewrite Hb.
  - change ((b :: shuffle (S i) rs l1) !! S k) with (shuffle (S i) rs l1 !! k). rewrite (Hs2 k) by lia. f_equal. lia.
Qed.

Lemma shuffle_length rs : ∀ i l, length (shuffle i rs l) = length rs.
Proof. induction rs as [|r rs IH]; intros i l; [done|]. cbn [shuffle]. destruct (pick i r l). cbn. by rewrite IH. Qed.

(** *** Steps of a node *)

(** What happens to a node without peer discovery: connections come and go,
    messages arrive in pieces of any size, messages are sent, lists of peers
    are taken in. *)
Inductive p2p_step : P2PNode → P2PNode → Prop :=
  | st_open n addr now : p2p_step n (open_connection addr now n)
  | st_close n addr : p2p_step n (close_connection addr n)
  | st_read n n' writes onQuery onInfo onChunk onRequest addr read1 read2 allowed now failures v :
      read_turn writes onQuery onInfo onChunk onRequest addr read1 read2 allowed now failures n = Ok (n', v) → p2p_step n n'
  | st_connect n addr dialed now : p2p_step n (Connect addr dialed now n).1
  | st_broadcast n data writes : p2p_step n (Broadcast data writes n)
  | st_send n addr data writes : p2p_step n (SendTo addr data writes n).1
  | st_consume n data n' : consume_block n = Some (data, n') → p2p_step n n'
  | st_peer_list n peers now : p2p_step n (HandlePeerListResponse peers now n).1
  | st_tx_handler n : p2p_step n (SetTxHandler n)
  | st_block_handler n : p2p_step n (SetBlockHandler n).

Definition unconnected (n : P2PNode) : Prop := Forall (λ p, p_State p ≠ PeerConnected) (pm_heap (pn_pm n)).

Lemma AddPeer_unconnected id addr now n :
  unconnected n → unconnected (node_pm (λ pm, (AddPeer id addr now pm).1) n).
Proof.
  intros Hu. unfold unconnected in *. cbn. unfold AddPeer. destruct (pm_peers _ !! id); [done|]. destruct (pm_peersByAddr _ !! addr); [done|].
  cbn. apply Forall_app. split; [done|]. by constructor.
Qed.

Lemma on_peer_unconnected id f n :
  (∀ p, p_State p ≠ PeerConnected → p_State (f p) ≠ PeerConnected) → unconnected n → unconnected (node_pm (on_peer id f) n).
Proof.
  intros Hf Hu. unfold unconnected in *. cbn. unfold on_peer. destruct (pm_peers _ !! id) as [ptr|]; [|done]. cbn.
  rewrite Forall_lookup in *. intros i p. rewrite list_lookup_alter. case_decide; [|by apply Hu].
  intros (q & Hq & ->)%fmap_Some. by eapply Hf, Hu.
Qed.

Lemma failure_unconnected id severity now n : unconnected n → unconnected (node_pm (ReportFailure id severity now) n).
Proof.
  apply on_peer_unconnected. intros p Hp. unfold report_failure, auto_ban, clamp_low. cbn. by repeat case_match.
Qed.

Lemma fold_pm_unchanged {A} (f : P2PNode → A → P2PNode) (l : list A) n :
  (∀ n x, pn_pm (f n x) = pn_pm n) → pn_pm (fold_left f l n) = pn_pm n.
Proof. intros Hf. revert n. induction l as [|x l IH]; intros n; [done|]. cbn. by rewrite IH, Hf. Qed.

Lemma same_pm n n' : pn_pm n' = pn_pm n → unconnected n → unconnected n'.
Proof. unfold unconnected. by intros ->. Qed.

Lemma sendToPeer_pm writes peer t payload n : pn_pm (sendToPeer writes peer t payload n).1 = pn_pm n.
Proof. unfold sendToPeer. destruct (isConnected peer n); [|done]. by destruct (writes peer). Qed.

Lemma malformed_unconnected peer now n : unconnected n → unconnected (malformed peer now n).
Proof.
  intros Hu. unfold malformed. destruct (GetPeerByAddr _ peer); [|done]. case_bool_decide; [done|]. by apply failure_unconnected.
Qed.

Lemma snapshot_unconnected writes onQuery onInfo onChunk onRequest t data peer now n n' :
  handleSnapshotMessage writes onQuery onInfo onChunk onRequest t data peer now n = Ok n' → unconnected n → unconnected n'.
Proof.
  unfold handleSnapshotMessage. intros Hh Hu. repeat case_bool_decide.
  - injection Hh as <-. destruct onQuery as [[info|]|]; [|done..]. by eapply same_pm; [apply sendToPeer_pm|].
  - injection Hh as <-. destruct (parseSnapshotInfo data); [by destruct onInfo|by apply malformed_unconnected].
  - injection Hh as <-. destruct (parseSnapshotRequest data) as [[h i]|]; [|by apply malformed_unconnected].
    destruct onRequest as [handler|]; [|done]. destruct (handler h i); [|done]. by eapply same_pm; [apply sendToPeer_pm|].
  - destruct (parseSnapshotChunk data) as [[c|]| |]; [..|done|done]; injection Hh as <-; [by destruct onChunk|by apply malformed_unconnected].
  - by injection Hh as <-.
Qed.

Lemma handleTransaction_unconnected data id now n : unconnected n → unconnected (handleTransaction data id now n).
Proof.
  intros Hu. unfold handleTransaction. destruct (run_reader _ _); [by destruct (pn_txHandler n)|by apply failure_unconnected..].
Qed.

Lemma dispatch_unconnected writes onQuery onInfo onChunk onRequest addr msg now n n' :
  dispatch writes onQuery onInfo onChunk onRequest addr msg now n = Ok n' → unconnected n → unconnected n'.
Proof.
  destruct msg as [|t rest]; [by intros [= <-]|]. unfold dispatch. intros Hd Hu.
  destruct (_ && _); [by eapply snapshot_unconnected|]. repeat case_bool_decide.
  - injection Hd as <-. destruct (pn_blockHandler n); [|done]. unfold handleBlock. by case_bool_decide.
  - injection Hd as <-. by apply handleTransaction_unconnected.
  - destruct (IsKnownType t); injection Hd as <-; [done|]. by apply handleTransaction_unconnected.
Qed.

Lemma read_unconnected writes onQuery onInfo onChunk onRequest addr read1 read2 allowed now failures n n' v :
  read_turn writes onQuery onInfo onChunk onRequest addr read1 read2 allowed now failures n = Ok (n', v) → unconnected n → unconnected n'.
Proof.
  unfold read_turn, process_message. intros Hr Hu. destruct (_ <? _); [by injection Hr as <- _|]. case_bool_decide; [by injection Hr as <- _|].
  destruct allowed; cbn [negb] in Hr.
  - destruct (dispatch _ _ _ _ _ _ _ _ _) as [n1| |] eqn:Ed; [|done..]. injection Hr as <- _. by eapply dispatch_unconnected.
  - pose proof (failure_unconnected (addr_id addr) 10 now n Hu) as Hf. destruct (3 <=? _); injection Hr as <- _; [|done].
    apply (on_peer_unconnected _ (ban_peer (now + 5 * minute))); done.
Qed.

Lemma step_unconnected n n' : p2p_step n n' → unconnected n → unconnected n'.
Proof.
  destruct 1 as [n addr now|n addr|n n' writes onQuery onInfo onChunk onRequest addr read1 read2 allowed now failures v Hr|n addr dialed now|n data writes
    |n addr data writes|n data n' Hc|n peers now|n|n]; intros Hu.
  - by apply AddPeer_unconnected.
  - done.
  - by eapply read_unconnected.
  - unfold Connect. destruct (isConnected addr n); [done|]. destruct (negb dialed); [done|]. by apply AddPeer_unconnected.
  - eapply same_pm; [|exact Hu]. unfold Broadcast. cbn. apply (fold_pm_unchanged). intros m x. by destruct (writes x).
  - unfold SendTo. destruct (isConnected addr n); [|done]. by destruct writes.
  - unfold consume_block in Hc. destruct (pn_blockCh n) as [|[d s] q]; [done|]. by injection Hc as <- <-.
  - destruct peers as [addrs|]; [|done]. cbn [HandlePeerListResponse fst]. unfold unconnected in *. cbn. revert Hu. generalize (pn_pm n).
    induction addrs as [|a addrs IH]; intros pm Hu; [done|]. cbn. apply IH.
    exact (AddPeer_unconnected (addr_id a) a now (mkP2PNode pm ∅ newConnectionLimiter false false [] [] []) Hu).
  - done.
  - done.
Qed.

Lemma on_peer_get id f pm p : GetPeer pm id = Some p → GetPeer (on_peer id f pm) id = Some (f p).
Proof.
  intros (ptr & Hptr & Hp)%bind_Some. unfold on_peer. rewrite Hptr. unfold GetPeer. cbn. rewrite Hptr. cbn.
  by rewrite list_lookup_alter, decide_True, Hp by done.
Qed.

(** Distinct positions select distinct elements. *)
Lemma select_by {A} (peers : list A) (l : list nat) :
  NoDup peers → NoDup l → Forall (λ j, j < length peers)%nat l →
  NoDup (omap (λ j, peers !! j) l) ∧ (∀ p, p ∈ omap (λ j, peers !! j) l → p ∈ peers) ∧ length (omap (λ j, peers !! j) l) = length l.
Proof.
  intros Hn Hl Hf. split; [|split].
  - induction Hl as [|j l Hj Hl IH]; [constructor|]. apply Forall_cons in Hf as [Hj' Hf]. cbn [omap list_omap].
    destruct (lookup_lt_is_Some_2 peers j Hj') as [p Hp]. rewrite Hp. constructor; [|by apply IH].
    intros (i & Hi & Hip)%list_elem_of_omap. rewrite NoDup_alt in Hn. by rewrite (Hn _ _ _ Hp Hip) in Hj.
  - intros p (j & _ & Hp)%list_elem_of_omap. by eapply list_elem_of_lookup_2.
  - clear Hl. induction Hf as [|j l Hj _ IH]; [done|]. cbn [omap list_omap]. destruct (lookup_lt_is_Some_2 peers j Hj) as [p ->]. cbn. by rewrite IH.
Qed.

(** ** Properties *)

(** C29: a transaction that a node broadcasts is handed to the transaction
    handler of the receiver unchanged, under these conditions: its version is
    below 256, its fields fit the encoding and it fits into a message, the
    receiver has a transaction handler, both reads of the receiver (of the
    length and of the message) return in full, and the rate limiter lets the
    message through. Nothing in the receiver makes sure of the full reads: a
    short one loses the message. *)
Theorem transactions_arrive (writes : string → bool) (onQuery : option (option SnapshotInfo)) (onInfo onChunk : bool)
    (onRequest : option (Hash → Z → option SnapshotChunk)) (addr : string) (tx : Transaction) (now failures : Z) (n : P2PNode) :
  Transaction_wf tx → tx_Version tx < 2 ^ 8 → Z.of_nat (length (wire (Transaction_Encode tx))) <= MaxPayloadSize →
  pn_txHandler n = true →
  ∃ data, encode_bytes (Transaction_Encode tx) = Ok data ∧
    read_turn writes onQuery onInfo onChunk onRequest addr (take 4 (wire_message data)) (drop 4 (wire_message data)) true now failures n
    = Ok (deliver (DeliverTx tx) n, Continue 0).
Proof.
  intros Hwf Hv Hl Ht. exists (wire (Transaction_Encode tx)). split; [by apply encode_bytes_emits, rt_emits|].
  rewrite read_full by done. destruct (tx_head tx Hwf Hv) as [rest E]. rewrite process_allowed by (by rewrite E).
  rewrite E, dispatch_untyped, <- E. cbn [mbind res_bind]. unfold handleTransaction, run_reader.
  pose proof (rt_parses tx Hwf []) as Hp. rewrite app_nil_r in Hp. rewrite Hp. cbn [snd]. by rewrite Ht.
Qed.

(** A block that is broadcast reaches the queue of the receiver (while it is
    not full); a block or transaction that the gossip engine sends does not: it
    is framed twice, the receiver takes the frame for a transaction without a
    type byte, and penalises the sender if it does not decode as one. *)
Theorem gossiped_frames_lost (writes : string → bool) (onQuery : option (option SnapshotInfo)) (onInfo onChunk : bool)
    (onRequest : option (Hash → Z → option SnapshotChunk)) (addr : string) (data : bytes) (now failures : Z) (n : P2PNode) :
  Z.of_nat (length data) + 5 <= MaxPayloadSize →
  let arrives msg := read_turn writes onQuery onInfo onChunk onRequest addr (take 4 (wire_message msg)) (drop 4 (wire_message msg)) true now failures n in
  (pn_blockHandler n = true → (length (pn_blockCh n) < blockChSize)%nat →
     arrives (MsgTypeBlock :: data) = Ok (node_queue (pn_blockCh n ++ [(MsgTypeBlock :: data, addr)]) n, Continue 0)) ∧
  ∀ msgType, ∃ n', arrives (FrameMessage msgType data) = Ok (n', Continue 0) ∧ pn_blockCh n' = pn_blockCh n ∧
    ∀ e, run_reader Transaction_Decode (FrameMessage msgType data) = Err e → n' = node_pm (ReportFailure (addr_id addr) 2 now) n.
Proof.
  intros Hl arrives. unfold arrives. clear arrives. unfold MaxPayloadSize in Hl. split.
  - intros Hh Hq. rewrite read_full by (unfold MaxPayloadSize; cbn [length]; lia). rewrite process_allowed, dispatch_block by done. rewrite Hh.
    unfold handleBlock. by rewrite bool_decide_eq_true_2.
  - intros t. destruct (frame_head t data) as [rest E]; [lia|].
    rewrite read_full by (unfold MaxPayloadSize, FrameMessage; rewrite length_app, length_be; cbn [length]; lia).
    rewrite process_allowed by (by rewrite E). exists (handleTransaction (FrameMessage t data) (addr_id addr) now n).
    rewrite E at 1 2. rewrite dispatch_untyped, <- E. split; [done|]. split; [apply handleTransaction_queue|].
    intros e He. unfold handleTransaction. by rewrite He.
Qed.

(** Connections and lists of peers never make a peer count as connected, so
    without peer discovery the gossip engine sends blocks and transactions to
    nobody, however many connections the node has. *)
Theorem gossip_reaches_nobody (n : P2PNode) (seen : SeenSet) (data : bytes) (rs : list Z) (allowed : PeerID → bool) (writes : string → bool) :
  rtc p2p_step NewP2PNode n →
  pn_written (ge_p2p (GossipBlock data rs allowed writes (mkGossipEngine n seen))) = pn_written n ∧
  pn_written (ge_p2p (GossipEngine_GossipTransaction data allowed writes (mkGossipEngine n seen))) = pn_written n.
Proof.
  intros Hr. assert (unconnected n) as Hu.
  { assert (unconnected NewP2PNode) as H0 by constructor. revert H0. induction Hr as [|x y z Hxy _ IH]; [done|].
    intros H0. by apply IH, (step_unconnected x). }
  assert (GetPeersByState (pn_pm n) PeerConnected = []) as He.
  { unfold GetPeersByState. destruct (List.filter _ _) as [|p l] eqn:E; [done|]. exfalso.
    assert (p ∈ List.filter (λ p, p_State p =? PeerConnected) (all_peers (pn_pm n))) as Hp by (rewrite E; by left).
    apply elem_of_filter_list in Hp as [Hp Hs%Z.eqb_eq]. unfold all_peers in Hp. apply list_elem_of_omap in Hp as ([id ptr] & _ & Hl).
    unfold unconnected in Hu. rewrite Forall_lookup in Hu. by apply (Hu ptr p). }
  unfold GossipBlock, GossipEngine_GossipTransaction. cbn [ge_p2p ge_seenSet]. rewrite He. by destruct (Seen seen (computeHash data)).
Qed.

(** Three messages in a row beyond the rate limit end the connection and
    leave the peer banned for five minutes, without a connection. *)
Theorem rate_limit_bans (writes : string → bool) (onQuery : option (option SnapshotInfo)) (onInfo onChunk : bool)
    (onRequest : option (Hash → Z → option SnapshotChunk)) (addr : string) (m1 m2 m3 : bytes) (t1 t2 t3 : Z) (n : P2PNode) (p : Peer) :
  GetPeer (pn_pm n) (addr_id addr) = Some p → m1 ≠ [] → m2 ≠ [] → m3 ≠ [] →
  let process := process_message writes onQuery onInfo onChunk onRequest addr in
  ∃ n1 n2 n3 q, process m1 false t1 0 n = Ok (n1, Continue 1) ∧ process m2 false t2 1 n1 = Ok (n2, Continue 2) ∧
    process m3 false t3 2 n2 = Ok (n3, Disconnect) ∧ GetPeer (pn_pm n3) (addr_id addr) = Some q ∧
    p_State q = PeerBanned ∧ p_BanExpiry q = t3 + 5 * minute ∧ p_Conn q = false.
Proof.
  intros Hp H1 H2 H3 process. unfold process, process_message. rewrite !bool_decide_eq_false_2 by done. cbn [negb].
  do 3 eexists. eexists. split; [reflexivity|]. split; [reflexivity|]. split; [reflexivity|]. cbn [pn_pm node_pm].
  unfold ReportFailure, Ban. erewrite on_peer_get; [|by apply on_peer_get, on_peer_get, on_peer_get]. split; [reflexivity|]. done.
Qed.

(** The peers a block is sent to are distinct, are connected peers, and are as
    many as the fan-out asks for if there are that many. *)
Theorem fan_out_distinct {A} (peers : list A) (n : nat) (rs : list Z) :
  NoDup peers → (n <= length rs)%nat →
  NoDup (selectPeers peers n rs) ∧ (∀ p, p ∈ selectPeers peers n rs → p ∈ peers) ∧
  length (selectPeers peers n rs) = Nat.min n (length peers).
Proof.
  intros Hn Hr. unfold selectPeers. case_bool_decide as Hl; [split; [done|]; split; [done|lia]|].
  set (N := length peers) in *. set (l := shuffle 0 (take n rs) (seq 0 N)).
  assert (length (take n rs) = n) as Hlen by (rewrite length_take; lia).
  destruct (shuffle_spec N (take n rs) 0 (seq 0 N)) as ((Hfl & Hfn & Hff) & _ & Hs).
  { split; [apply length_seq|]. split; [apply NoDup_seq|]. apply Forall_forall. intros j [_ Hj]%elem_of_seq. lia. }
  { lia. }
  rewrite Hlen in Hs. set (final := shuffled 0 (take n rs) (seq 0 N)) in *.
  assert (l = take n final) as El.
  { apply list_eq. intros k. destruct (decide (k < n)%nat) as [Hk|Hk]; [unfold l; by rewrite lookup_take_lt, (Hs k Hk)|].
    rewrite !lookup_ge_None_2; [done|rewrite length_take; lia|unfold l; rewrite shuffle_length; lia]. }
  assert (NoDup l ∧ Forall (λ j, j < N)%nat l) as [Hnl Hfl'].
  { rewrite El. split; [|by apply Forall_take]. rewrite <- (take_drop n final) in Hfn. by apply NoDup_app in Hfn as [? _]. }
  assert (length l = n) as Ell by (unfold l; by rewrite shuffle_length).
  destruct (select_by peers l Hn Hnl Hfl') as (? & ? & ->). split; [done|]. split; [done|]. lia.
Qed.

(** A bootstrap peer whose connection was lost is never dialled again. *)
Theorem lost_bootstrap_peer_forgotten (addr : string) (now : Z) (d d' : Discovery) (n n' : P2PNode) (dialed : bool) :
  connectBootstrap addr dialed now d n = (d', n', Ok tt) →
  isConnected addr (close_connection addr n') = false ∧ addr ∉ maintainConnections d'.
Proof.
  intros Hc. split; [apply bool_decide_eq_false_2; cbn; set_solver|].
  assert (ds_connected d' !! addr = Some true) as Hd.
  { unfold connectBootstrap in Hc. destruct (isConnected addr n).
    - injection Hc as <- _. unfold mark_connected. cbn [ds_connected]. by rewrite lookup_insert_eq.
    - destruct (Connect addr dialed now n) as [m [u|e|]]; [|done..]. injection Hc as <- _. unfold mark_connected. cbn [ds_connected]. by rewrite lookup_insert_eq. }
  unfold maintainConnections. rewrite elem_of_filter_list. intros [_ Hn]. by rewrite Hd in Hn.
Qed.

(** ** Examples *)

Definition sent_tx : Transaction :=
  mkTransaction 1 1 ZeroHash (arr_zero 20) 0 [] [] 1 1 1 [] 0.

Lemma sent_tx_wf : Transaction_wf sent_tx.
Proof. repeat split; vm_compute; (discriminate || reflexivity). Qed.

Definition listening : P2PNode := SetBlockHandler (SetTxHandler (open_connection "10.0.0.8:1" 0 NewP2PNode)).

Lemma transactions_arrive_witness :
  ∃ data, encode_bytes (Transaction_Encode sent_tx) = Ok data ∧
    read_turn (λ _, true) None false false None "10.0.0.8:1" (take 4 (wire_message data)) (drop 4 (wire_message data)) true 1 0 listening
    = Ok (deliver (DeliverTx sent_tx) listening, Continue 0).
Proof.
  apply (transactions_arrive (λ _, true) None false false None "10.0.0.8:1" sent_tx 1 0 listening).
  - apply sent_tx_wf.
  - reflexivity.
  - vm_compute. discriminate.
  - reflexivity.
Defined.

Lemma gossiped_frames_lost_witness :
  ∃ n', read_turn (λ _, true) None false false None "10.0.0.8:1" (take 4 (wire_message (FrameMessage MsgTypeBlock [x05])))
    (drop 4 (wire_message (FrameMessage MsgTypeBlock [x05]))) true 1 0 listening = Ok (n', Continue 0) ∧ pn_blockCh n' = [].
Proof.
  destruct (gossiped_frames_lost (λ _, true) None false false None "10.0.0.8:1" [x05] 1 0 listening) as [_ Hg]; [vm_compute; discriminate|].
  destruct (Hg MsgTypeBlock) as (n' & Hr & Hq & _). exists n'. split; [exact Hr|exact Hq].
Defined.

Lemma gossip_reaches_nobody_witness :
  pn_written (ge_p2p (GossipBlock [x05] [] (λ _, true) (λ _, true) (mkGossipEngine listening (mkSeenSet ∅ [] 10)))) = [].
Proof.
  rewrite (proj1 (gossip_reaches_nobody listening (mkSeenSet ∅ [] 10) [x05] [] (λ _, true) (λ _, true)
    (rtc_l _ _ _ _ (st_open NewP2PNode "10.0.0.8:1" 0) (rtc_l _ _ _ _ (st_tx_handler _) (rtc_once _ _ (st_block_handler _)))))).
  reflexivity.
Defined.

Definition known_addr : string := "10.0.0.8:1".

Lemma rate_limit_bans_witness :
  ∃ n1 n2 n3 q, process_message (λ _, true) None false false None known_addr [x01] false 1 0 listening = Ok (n1, Continue 1) ∧
    process_message (λ _, true) None false false None known_addr [x01] false 2 1 n1 = Ok (n2, Continue 2) ∧
    process_message (λ _, true) None false false None known_addr [x01] false 3 2 n2 = Ok (n3, Disconnect) ∧
    GetPeer (pn_pm n3) (addr_id known_addr) = Some q ∧ p_State q = PeerBanned.
Proof.
  destruct (rate_limit_bans (λ _, true) None false false None known_addr [x01] [x01] [x01] 1 2 3 listening
    (fresh_peer (addr_id known_addr) known_addr 0)) as (n1 & n2 & n3 & q & H1 & H2 & H3 & Hq & Hs & _).
  - unfold GetPeer, listening, open_connection. cbn [pn_pm node_pm SetBlockHandler SetTxHandler]. unfold AddPeer. cbn [NewP2PNode pn_pm node_limiter node_conns NewPeerManager pm_peers pm_peersByAddr].
    rewrite !lookup_empty. cbn [fst pm_peers pm_heap]. unfold known_addr. rewrite lookup_insert_eq. reflexivity.
  - discriminate.
  - discriminate.
  - discriminate.
  - exists n1, n2, n3, q. split; [exact H1|]. split; [exact H2|]. split; [exact H3|]. split; [exact Hq|exact Hs].
Defined.

Lemma fan_out_distinct_witness : NoDup (selectPeers [10; 20; 30; 40; 50] 3 [7; 8; 9]).
Proof.
  apply (fan_out_distinct [10; 20; 30; 40; 50] 3 [7; 8; 9]).
  - repeat (constructor; [set_solver|]). constructor.
  - cbn. lia.
Defined.
