(* ===== verification/BlockSync.v ===== *)
(** * Block synchronisation (network/blocksync.go)

    Serving ranges of stored blocks, taking in the answers, and the requests
    of a node that is behind. The engine only exists on a node with a
    database. The loops over heights count in 64 bits, so they need not end:
    they have fuel, and the theorems say for which heights they end. *)

From S2P Require Import Prelude Codec Sha256 Address Amount Tx Votes Block Smt Store Keys State.
From S2P Require Import Gossip Bolt Chain Persist StateSync Wire Peers P2p.

(** [N] is the state of the node behind the block handler. *)
Record BlockSyncEngine (N DB : Type) := mkBlockSyncEngine {
  bs_pm : PeerManager;
  bs_node : N;
  bs_db : DB;
  bs_lastSyncedHeight : Z;
  bs_targetHeight : Z;
  bs_isSyncing : bool;
}.
Arguments mkBlockSyncEngine {_ _}. Arguments bs_pm {_ _}. Arguments bs_node {_ _}. Arguments bs_db {_ _}.
Arguments bs_lastSyncedHeight {_ _}. Arguments bs_targetHeight {_ _}. Arguments bs_isSyncing {_ _}.

Definition blockSyncBucket : bytes := str_bytes "block_sync".
Definition lastSyncedHeightKey : bytes := str_bytes "last_synced_height".

(** The message without its type byte. *)
Definition encodeBlockAsWireFromBlock (block : Block) : res bytes :=
  encoded ← EncodeBlockMessage block;
  match encoded with [] => Err (Errorf "encoded block too short") | _ :: rest => Ok rest end.

Section engine.
Context {N DB Tx : Type} `{BoltDB DB Tx}.
Abbreviation BlockSyncEngine := (BlockSyncEngine N DB).

Definition NewBlockSyncEngine (pm : PeerManager) (node : N) (db : DB) : BlockSyncEngine := mkBlockSyncEngine pm node db 0 0 false.

(** ** Serving *)

(** The block at a height as it is sent, if it is stored. *)
Definition serve_height (db : DB) (height : Z) : option bytes :=
  match (LoadBlock height db).2 with
  | Ok block => match encodeBlockAsWireFromBlock block with Ok data => Some data | _ => None end
  | _ => None
  end.

(** [for height := startHeight; height <= endHeight; height++]; [None] means
    that the fuel did not suffice. *)
Fixpoint range_loop (fuel : nat) (db : DB) (height endHeight : Z) : option (list bytes) :=
  match fuel with
  | O => None
  | S fuel' =>
      if endHeight <? height then Some [] else
      rest ← range_loop fuel' db (u64 (height + 1)) endHeight;
      Some match serve_height db height with Some data => data :: rest | None => rest end
  end.

(** The answer; the inner [None] is nil. *)
Definition HandleBlockRangeRequest (fuel : nat) (payload : bytes) (db : DB) : option (option bytes) :=
  match decodeBlockRangeRequest payload with
  | Ok (startHeight, endHeight) =>
      if endHeight <? startHeight then Some None else
      if 100 <? u64 (endHeight - startHeight) then Some None else
      blocks ← range_loop fuel db startHeight endHeight;
      Some (Some (encodeBlockList blocks))
  | _ => Some None
  end.

(** ** Progress *)

Definition persistProgress (height : Z) : go DB unit :=
  Update (CreateBucketIfNotExists blockSyncBucket;; Put blockSyncBucket lastSyncedHeightKey (be 8 height)).

Definition loadProgress : go DB Z :=
  View (
    b ← Bucket blockSyncBucket;
    mret match b with
         | None => 0
         | Some m =>
             match m !! lastSyncedHeightKey with
             | Some data => if bool_decide (length data = 8%nat) then unbe data else 0
             | None => 0
             end
         end).

(** [Start] reads the progress; the loop it starts calls [startCatchUp]. *)
Definition BlockSyncEngine_Start (e : BlockSyncEngine) : BlockSyncEngine :=
  match (loadProgress (bs_db e)).2 with
  | Ok height => mkBlockSyncEngine (bs_pm e) (bs_node e) (bs_db e) height (bs_targetHeight e) (bs_isSyncing e)
  | _ => e
  end.

(** ** Taking in answers *)

(** The blocks one after the other, until the handler refuses one. *)
Fixpoint apply_blocks (handler : bytes → N → N * bool) (blocks : list bytes) (node : N) : N * bool :=
  match blocks with
  | [] => (node, true)
  | data :: blocks' =>
      match handler data node with
      | (node', true) => apply_blocks handler blocks' node'
      | (node', false) => (node', false)
      end
  end.

Definition report (f : PeerManager → PeerManager) (e : BlockSyncEngine) : BlockSyncEngine :=
  mkBlockSyncEngine (f (bs_pm e)) (bs_node e) (bs_db e) (bs_lastSyncedHeight e) (bs_targetHeight e) (bs_isSyncing e).
Definition set_node (node : N) (e : BlockSyncEngine) : BlockSyncEngine :=
  mkBlockSyncEngine (bs_pm e) node (bs_db e) (bs_lastSyncedHeight e) (bs_targetHeight e) (bs_isSyncing e).

Definition advance (count : Z) (e : BlockSyncEngine) : BlockSyncEngine :=
  let height := u64 (bs_lastSyncedHeight e + count) in
  let db := if height mod 100 =? 0 then (persistProgress height (bs_db e)).1 else bs_db e in
  mkBlockSyncEngine (bs_pm e) (bs_node e) db height (bs_targetHeight e) (bs_isSyncing e).

Definition HandleBlockRangeResponse (handler : option (bytes → N → N * bool)) (payload : bytes) (from : PeerID) (now : Z)
    (e : BlockSyncEngine) : BlockSyncEngine :=
  match decodeBlockList payload with
  | Ok blocks =>
      match handler with
      | None => e
      | Some h =>
          match apply_blocks h blocks (bs_node e) with
          | (node, false) => report (ReportFailure from 5 now) (set_node node e)
          | (node, true) =>
              if bool_decide (blocks = []) then set_node node e
              else advance (Z.of_nat (length blocks)) (report (ReportSuccess from MsgTypeBlock now) (set_node node e))
          end
      end
  | _ => report (ReportFailure from 2 now) e
  end.

(** ** Catching up *)

(** The highest peer above the own height. *)
Definition highest_peer (currentHeight : Z) (peers : list Peer) : Z * option Peer :=
  fold_left (λ '(maxPeerHeight, target) p,
    if maxPeerHeight <? p_SyncHeight p then (p_SyncHeight p, Some p) else (maxPeerHeight, target)) peers (currentHeight, None).

(** [for from := ...; from <= maxPeerHeight; from += 100]: the ranges that are
    requested. *)
Fixpoint batches (fuel : nat) (from maxPeerHeight : Z) : option (list (Z * Z)) :=
  match fuel with
  | O => None
  | S fuel' =>
      if maxPeerHeight <? from then Some [] else
      let to := u64 (from + 99) in
      let to := if maxPeerHeight <? to then maxPeerHeight else to in
      rest ← batches fuel' (u64 (from + 100)) maxPeerHeight;
      Some ((from, to) :: rest)
  end.

(** The message of a request. *)
Definition requestBlockRange (startHeight endHeight : Z) : bytes :=
  FrameMessage MsgTypeBlockRangeRequest (encodeBlockRangeRequest startHeight endHeight).

(** The requests that are sent to the chosen peer, and the engine afterwards;
    [None] means that the loop needs more fuel. *)
Definition startCatchUp (fuel : nat) (e : BlockSyncEngine) : option (BlockSyncEngine * list (string * bytes)) :=
  if bs_isSyncing e then Some (e, []) else
  let currentHeight := match (LoadTip (bs_db e)).2 with Ok tip => h_Height tip | _ => 0 end in
  match GetBestPeers (bs_pm e) 10 with
  | Ok bestPeers =>
      let '(maxPeerHeight, target) := highest_peer currentHeight bestPeers in
      if maxPeerHeight <=? currentHeight then Some (e, []) else
      ranges ← batches fuel (u64 (currentHeight + 1)) maxPeerHeight;
      let sent := match target with
                  | Some p => (λ r : Z * Z, (p_Address p, requestBlockRange r.1 r.2)) <$> ranges
                  | None => []
                  end in
      Some (mkBlockSyncEngine (bs_pm e) (bs_node e) (persistProgress maxPeerHeight (bs_db e)).1 maxPeerHeight maxPeerHeight false, sent)
  | _ => Some (e, [])
  end.
End engine.

(** ** Lemmas *)

(** The heights from [a] on. *)
Definition heights (a : Z) (count : nat) : list Z := (λ k, a + Z.of_nat k) <$> seq 0 count.

Lemma heights_S a count : heights a (S count) = a :: heights (a + 1) count.
Proof.
  unfold heights. cbn [seq]. rewrite fmap_cons. f_equal; [lia|]. rewrite <- seq_shift, <- list_fmap_compose.
  apply list_fmap_ext. intros i k _. cbn. lia.
Qed.

Lemma heights_app a i j : heights a (i + j) = heights a i ++ heights (a + Z.of_nat i) j.
Proof.
  revert a. induction i as [|i IH]; intros a; [by rewrite Z.add_0_r|].
  rewrite Nat.add_succ_l, !heights_S, IH. cbn [app]. do 3 f_equal. lia.
Qed.

Section ranges.
Context {DB Tx : Type} `{BoltDB DB Tx}.

(** Below the largest height the loop ends. *)
Lemma range_loop_ends (db : DB) count : ∀ a fuel,
  0 <= a → a + Z.of_nat count < 2 ^ 64 → (count < fuel)%nat →
  range_loop fuel db a (a + Z.of_nat count - 1) = Some (omap (serve_height db) (heights a count)).
Proof.
  induction count as [|count IH]; intros a fuel Ha Hb Hf; (destruct fuel as [|fuel]; [lia|]); cbn [range_loop].
  - destruct (Z.ltb_spec (a + Z.of_nat 0 - 1) a); [done|lia].
  - destruct (Z.ltb_spec (a + Z.of_nat (S count) - 1) a); [lia|]. rewrite u64_small by (unfold is_u64; lia).
    replace (a + Z.of_nat (S count) - 1) with ((a + 1) + Z.of_nat count - 1) by lia.
    rewrite IH by lia. rewrite heights_S. cbn [omap list_omap mbind option_bind]. by destruct (serve_height db a).
Qed.

(** With the largest height it never does. *)
Lemma range_loop_diverges (db : DB) fuel a : is_u64 a → range_loop fuel db a (2 ^ 64 - 1) = None.
Proof.
  revert a. induction fuel as [|fuel IH]; intros a Ha; [done|]. cbn [range_loop]. unfold is_u64 in Ha.
  destruct (Z.ltb_spec (2 ^ 64 - 1) a); [lia|]. by rewrite IH by apply u64_is_u64.
Qed.
End ranges.

(** The heights of a list of ranges. *)
Definition covered (ranges : list (Z * Z)) : list Z := concat ((λ r : Z * Z, heights r.1 (Z.to_nat (r.2 - r.1 + 1))) <$> ranges).

Lemma batches_cover fuel : ∀ from top,
  0 <= from → top + 100 < 2 ^ 64 → from <= top + 1 → top + 1 - from <= 100 * (Z.of_nat fuel - 1) →
  ∃ ranges, batches fuel from top = Some ranges ∧ covered ranges = heights from (Z.to_nat (top + 1 - from)) ∧
    Forall (λ r : Z * Z, r.1 <= r.2 ∧ r.2 - r.1 < 100) ranges.
Proof.
  induction fuel as [|fuel IH]; intros from top Hf Ht Hl Hn; [lia|]. cbn [batches].
  destruct (Z.ltb_spec top from); [exists []; replace (top + 1 - from) with 0 by lia; done|].
  rewrite !u64_small by (unfold is_u64; lia).
  destruct (Z.ltb_spec top (from + 99)) as [Hs|Hs].
  - destruct fuel as [|fuel]; [lia|]. cbn [batches]. destruct (Z.ltb_spec top (from + 100)); [|lia]. cbn. eexists. split; [reflexivity|].
    split; [|constructor; [cbn; lia|constructor]]. unfold covered. cbn. rewrite app_nil_r. f_equal. lia.
  - destruct (IH (from + 100) top) as (ranges & Hb & Hc & Hr); [lia..|]. rewrite Hb. cbn. eexists. split; [reflexivity|].
    split; [|constructor; [cbn; lia|done]]. unfold covered in *. rewrite fmap_cons. cbn [concat fst snd]. rewrite Hc.
    replace (Z.to_nat (top + 1 - from)) with (Z.to_nat (from + 99 - from + 1) + Z.to_nat (top + 1 - (from + 100)))%nat by lia.
    rewrite heights_app. do 2 f_equal. lia.
Qed.

(** ** Properties *)

(** C27: a request for the heights [a] to [b] (at most 101 of them, below the
    largest height) is always answered, with exactly the blocks that are
    stored at these heights, in order; the receiver reads back exactly those
    blocks, except that it refuses the whole answer if all 101 were there. The
    encodings of the blocks are shorter than 2^32 bytes each. *)
Theorem ranges_served_exactly {DB Tx} `{BoltDB DB Tx} (db : DB) (a b : Z) (fuel : nat) :
  0 <= a <= b → b - a <= 100 → b < 2 ^ 64 - 1 → (101 < fuel)%nat →
  Forall (λ d : bytes, Z.of_nat (length d) < 2 ^ 32) (omap (serve_height db) (heights a (Z.to_nat (b - a + 1)))) →
  let blocks := omap (serve_height db) (heights a (Z.to_nat (b - a + 1))) in
  ∃ answer, HandleBlockRangeRequest fuel (encodeBlockRangeRequest a b) db = Some (Some answer) ∧
    decodeBlockList answer = if 100 <? Z.of_nat (length blocks) then Err (Errorf "too many blocks in response") else Ok blocks.
Proof.
  intros Hab Hn Hb Hf Hs blocks. unfold HandleBlockRangeRequest. rewrite block_range_roundtrip by (unfold fits; lia).
  destruct (Z.ltb_spec b a); [lia|]. rewrite u64_small by (unfold is_u64; lia). destruct (Z.ltb_spec 100 (b - a)); [lia|].
  pose proof (range_loop_ends db (Z.to_nat (b - a + 1)) a fuel) as Hr. replace (a + Z.of_nat (Z.to_nat (b - a + 1)) - 1) with b in Hr by lia.
  rewrite Hr by lia. cbn [mbind option_bind]. eexists. split; [reflexivity|]. apply block_list_read; [done|].
  assert (length blocks <= Z.to_nat (b - a + 1))%nat; [|lia].
  unfold blocks. etransitivity; [apply omap_length_le|]. unfold heights. by rewrite length_fmap, length_seq.
Qed.

(** A request that ends at the largest height is never answered: the loop
    over the heights wraps around and runs forever, whatever is stored. *)
Theorem range_request_diverges {DB Tx} `{BoltDB DB Tx} (db : DB) (a : Z) (fuel : nat) :
  2 ^ 64 - 101 <= a < 2 ^ 64 → HandleBlockRangeRequest fuel (encodeBlockRangeRequest a (2 ^ 64 - 1)) db = None.
Proof.
  intros Ha. unfold HandleBlockRangeRequest. rewrite block_range_roundtrip by (unfold fits; lia).
  destruct (Z.ltb_spec (2 ^ 64 - 1) a); [lia|]. rewrite u64_small by (unfold is_u64; lia).
  destruct (Z.ltb_spec 100 (2 ^ 64 - 1 - a)); [lia|]. by rewrite range_loop_diverges by (unfold is_u64; lia).
Qed.

(** A node that is behind asks for every missing height exactly once, in
    order, in ranges that a server accepts and whose answers are not too long;
    it then counts itself as synchronised, whether or not anything arrives. *)
Theorem catch_up_covers {N DB Tx} `{BoltDB DB Tx} (e : BlockSyncEngine N DB) (fuel : nat) (tip : BlockHeader) (best : list Peer) (top : Z) (p : Peer) :
  bs_isSyncing e = false → LoadTip (bs_db e) = (bs_db e, Ok tip) → GetBestPeers (bs_pm e) 10 = Ok best →
  highest_peer (h_Height tip) best = (top, Some p) → 0 <= h_Height tip < top → top + 100 < 2 ^ 64 → top <= 100 * (Z.of_nat fuel - 1) →
  ∃ e' ranges, startCatchUp fuel e = Some (e', (λ r : Z * Z, (p_Address p, requestBlockRange r.1 r.2)) <$> ranges) ∧
    covered ranges = heights (h_Height tip + 1) (Z.to_nat (top - h_Height tip)) ∧
    Forall (λ r : Z * Z, r.1 <= r.2 ∧ r.2 - r.1 < 100) ranges ∧ bs_lastSyncedHeight e' = top.
Proof.
  intros Hi Ht Hb Hh Hl Hm Hf. unfold startCatchUp. rewrite Hi, Ht, Hb. cbn [snd]. rewrite Hh.
  destruct (Z.leb_spec top (h_Height tip)); [lia|]. rewrite u64_small by (unfold is_u64; lia).
  destruct (batches_cover fuel (h_Height tip + 1) top) as (ranges & Hr & Hc & Ha); [lia..|]. rewrite Hr. cbn [mbind option_bind].
  eexists _, ranges. split; [reflexivity|]. split; [|done]. rewrite Hc. f_equal. lia.
Qed.

(** ** Examples *)

Lemma nothing_served (l : list Z) : omap (serve_height (∅ : contents)) l = [].
Proof. induction l as [|h l IH]; [reflexivity|]. exact IH. Qed.

Lemma ranges_served_exactly_witness :
  ∃ answer, HandleBlockRangeRequest 200 (encodeBlockRangeRequest 3 5) (∅ : contents) = Some (Some answer) ∧ decodeBlockList answer = Ok [].
Proof.
  destruct (ranges_served_exactly (∅ : contents) 3 5 200) as (answer & Ha & Hd).
  - lia.
  - lia.
  - lia.
  - lia.
  - rewrite nothing_served. constructor.
  - exists answer. split; [exact Ha|]. rewrite Hd, nothing_served. reflexivity.
Defined.

Lemma range_request_diverges_witness :
  HandleBlockRangeRequest 1000 (encodeBlockRangeRequest (2 ^ 64 - 1) (2 ^ 64 - 1)) (∅ : contents) = None.
Proof. apply (range_request_diverges (∅ : contents) (2 ^ 64 - 1) 1000). lia. Defined.

(** A peer at height 250. *)
Definition ahead_peer : Peer := mkPeer some_peer "10.0.0.7:1" true PeerConnected 5 0 1 250 0 0 0 zeroTime zeroTime 0.
Definition ahead_manager : PeerManager := mkPeerManager [ahead_peer] {[ some_peer := 0%nat ]} {[ "10.0.0.7:1" := 0%nat ]} false.
Definition low_tip : BlockHeader :=
  mkBlockHeader 1 2 ZeroHash ZeroHash ZeroHash ZeroHash ZeroHash ZeroHash 0 0 ZeroAddress ZeroHash.
Definition low_db : contents := {[ chainBucket := {[ tipKey := encodeHeader low_tip ]} ]}.

Lemma catch_up_covers_witness :
  ∃ e' ranges, startCatchUp 10 (mkBlockSyncEngine ahead_manager tt low_db 0 0 false)
    = Some (e', (λ r : Z * Z, ("10.0.0.7:1", requestBlockRange r.1 r.2)) <$> ranges) ∧ covered ranges = heights 3 248.
Proof.
  destruct (catch_up_covers (mkBlockSyncEngine ahead_manager tt low_db 0 0 false) 10 low_tip [ahead_peer] 250 ahead_peer)
    as (e' & ranges & Hs & Hc & _).
  - reflexivity.
  - apply (View_read (DB := contents)) with (data := encodeHeader low_tip); [eexists; split; reflexivity|].
    intros tx. unfold wrap, lift. rewrite decode_encode_header by (repeat split; vm_compute; (discriminate || reflexivity)). reflexivity.
  - reflexivity.
  - reflexivity.
  - cbn. lia.
  - lia.
  - lia.
  - exists e', ranges. split; [exact Hs|exact Hc].
Defined.
