(* ===== verification/FastSync.v ===== *)
(** * Fast synchronisation (network/fastsync.go)

    The engine that downloads a snapshot from peers, with its mutex. The mutex
    is not reentrant: a call that locks it while it is held by the same
    goroutine never returns ([Blocked]), and unlocking it twice or an index
    out of range ends the program ([Crashed]). A goroutine that is started
    becomes a task; running a task is a step of its own, and so is the
    expiry of the timer it waits for. Callbacks are arguments, as are the
    clock, the random order of requests and the outcome of writes. *)

From S2P Require Import Prelude Codec Sha256 Address Amount Tx Votes Block Smt Store Keys State.
From S2P Require Import Gossip Bolt Chain Persist StateSync Wire Peers P2p.

(** ** Outcomes *)

Inductive outcome (A : Type) : Type :=
  | Done (a : A)
  | Blocked
  | Crashed.
Arguments Done {A}. Arguments Blocked {A}. Arguments Crashed {A}.

Definition sync (S A : Type) : Type := S → S * outcome A.

#[global] Instance sync_ret {S} : MRet (sync S) := λ A a s, (s, Done a).
#[global] Instance sync_bind {S} : MBind (sync S) := λ A B f m s,
  match m s with
  | (s', Done a) => f a s'
  | (s', Blocked) => (s', Blocked)
  | (s', Crashed) => (s', Crashed)
  end.

Definition sget {S A} (f : S → A) : sync S A := λ s, (s, Done (f s)).
Definition smod {S} (f : S → S) : sync S unit := λ s, (f s, Done tt).
Definition crash {S A} : sync S A := λ s, (s, Crashed).

(** ** States *)

Inductive SyncState :=
  | SyncIdle | SyncQuerying | SyncSelecting | SyncDownloading | SyncVerifying | SyncRestoring | SyncReplaying | SyncLive.

#[global] Instance SyncState_eq_dec : EqDecision SyncState.
Proof. solve_decision. Defined.

Definition SyncState_String (s : SyncState) : string :=
  match s with
  | SyncIdle => "Idle"
  | SyncQuerying => "Querying"
  | SyncSelecting => "Selecting"
  | SyncDownloading => "Downloading"
  | SyncVerifying => "Verifying"
  | SyncRestoring => "Restoring"
  | SyncReplaying => "Replaying"
  | SyncLive => "Live"
  end.

(** ** The chunk scheduler *)

Record ChunkScheduler := mkChunkScheduler {
  cs_totalChunks : Z;
  cs_received : list bool;
  cs_peerChunks : gmap PeerID (list Z);
  cs_peerIndex : gmap PeerID Z;
}.

Definition NewChunkScheduler (totalChunks : Z) : ChunkScheduler :=
  mkChunkScheduler totalChunks (replicate (Z.to_nat totalChunks) false) ∅ ∅.

Definition with_received (l : list bool) (cs : ChunkScheduler) : ChunkScheduler :=
  mkChunkScheduler (cs_totalChunks cs) l (cs_peerChunks cs) (cs_peerIndex cs).

(** [cs.received[i]], unless it is out of range. *)
Definition received_at (cs : ChunkScheduler) (i : Z) : option bool := cs_received cs !! Z.to_nat i.

Definition MarkReceived (index : Z) (cs : ChunkScheduler) : ChunkScheduler * bool :=
  if cs_totalChunks cs <=? index then (cs, false) else
  match received_at cs index with
  | Some false => (with_received (<[Z.to_nat index := true]> (cs_received cs)) cs, true)
  | _ => (cs, false)
  end.

Definition IsComplete (cs : ChunkScheduler) : bool := forallb id (cs_received cs).

Definition ReceivedCount (cs : ChunkScheduler) : Z := Z.of_nat (length (List.filter id (cs_received cs))).

Definition AssignPeer (peer : PeerID) (chunks : list Z) (cs : ChunkScheduler) : ChunkScheduler :=
  mkChunkScheduler (cs_totalChunks cs) (cs_received cs)
    (<[peer := default [] (cs_peerChunks cs !! peer) ++ chunks]> (cs_peerChunks cs)) (<[peer := 0]> (cs_peerIndex cs)).

(** The loop over the peers that have chunks: the next chunk of the first one
    whose turn is not at a received chunk. *)
Fixpoint next_assigned (pids : list PeerID) (cs : ChunkScheduler) : ChunkScheduler * outcome (option (PeerID * Z)) :=
  match pids with
  | [] => (cs, Done None)
  | pid :: pids' =>
      let chunks := default [] (cs_peerChunks cs !! pid) in
      if bool_decide (chunks = []) then next_assigned pids' cs else
      let turn := default 0 (cs_peerIndex cs !! pid) in
      let idx := Z.to_nat (turn mod Z.of_nat (length chunks)) in
      let chunkIdx := default 0 (chunks !! idx) in
      let cs1 := mkChunkScheduler (cs_totalChunks cs) (cs_received cs) (cs_peerChunks cs) (<[pid := turn + 1]> (cs_peerIndex cs)) in
      match received_at cs chunkIdx with
      | None => (cs1, Crashed)
      | Some false => (cs1, Done (Some (pid, chunkIdx)))
      | Some true =>
          next_assigned pids' (mkChunkScheduler (cs_totalChunks cs) (cs_received cs)
            (<[pid := delete idx chunks]> (cs_peerChunks cs)) (cs_peerIndex cs1))
      end
  end.

(** The first missing chunk. *)
Definition first_missing (cs : ChunkScheduler) : option Z :=
  match list_find (λ b, b = false) (cs_received cs) with Some (i, _) => Some (Z.of_nat i) | None => None end.

Definition NextTask (cs : ChunkScheduler) : ChunkScheduler * outcome (option (PeerID * Z)) :=
  let available := fst <$> List.filter (λ e : PeerID * list Z, negb (bool_decide (e.2 = []))) (map_to_list (cs_peerChunks cs)) in
  match available with
  | [] => (cs, Done None)
  | first :: _ =>
      match next_assigned available cs with
      | (cs', Done None) => (cs', Done (option_map (pair first) (first_missing cs')))
      | r => r
      end
  end.

Definition Bitmap (cs : ChunkScheduler) : list bool := cs_received cs.

Definition RestoreBitmap (bitmap : list bool) (cs : ChunkScheduler) : ChunkScheduler :=
  if bool_decide (length bitmap = length (cs_received cs)) then with_received bitmap cs else cs.

(** ** The engine *)

(** Goroutines that were started and have not run, or wait for a timer. *)
Inductive task := QueryPeers | QueryTimeout | StartDownloading | DownloadTick | PersistSyncState | ClearSyncState.

(** [W] is the persistent state behind the callbacks. *)
Record FastSyncEngine (W : Type) := mkFastSyncEngine {
  e_locked : bool;
  e_state : SyncState;
  e_p2p : P2PNode;
  e_world : W;
  e_infos : list SnapshotInfo;
  e_selected : option SnapshotInfo;
  e_advertising : list string;
  e_scheduler : option ChunkScheduler;
  e_totalChunks : Z;
  e_snapData : option bytes;
  e_chunks : gmap Z SnapshotChunk;
  e_requestTimes : gmap Z Z;
  e_retries : Z;
  e_tasks : list task;
  e_changes : list (SyncState * SyncState);
}.
Arguments mkFastSyncEngine {_}. Arguments e_locked {_}. Arguments e_state {_}. Arguments e_p2p {_}. Arguments e_world {_}.
Arguments e_infos {_}. Arguments e_selected {_}. Arguments e_advertising {_}. Arguments e_scheduler {_}. Arguments e_totalChunks {_}.
Arguments e_snapData {_}. Arguments e_chunks {_}. Arguments e_requestTimes {_}. Arguments e_retries {_}. Arguments e_tasks {_}.
Arguments e_changes {_}.

Definition NewFastSyncEngine {W} (p2p : P2PNode) (world : W) : FastSyncEngine W :=
  mkFastSyncEngine false SyncIdle p2p world [] None [] None 0 None ∅ ∅ 0 [] [].

Definition maxQueryRetries : Z := 3.
Definition maxConcurrent : Z := 4.

Section setters.
Context {W : Type}.
Implicit Types e : FastSyncEngine W.
Definition set_locked (x : bool) e := mkFastSyncEngine x (e_state e) (e_p2p e) (e_world e) (e_infos e) (e_selected e) (e_advertising e) (e_scheduler e)
  (e_totalChunks e) (e_snapData e) (e_chunks e) (e_requestTimes e) (e_retries e) (e_tasks e) (e_changes e).
Definition set_sync (s : SyncState) (c : list (SyncState * SyncState)) e := mkFastSyncEngine (e_locked e) s (e_p2p e) (e_world e) (e_infos e) (e_selected e)
  (e_advertising e) (e_scheduler e) (e_totalChunks e) (e_snapData e) (e_chunks e) (e_requestTimes e) (e_retries e) (e_tasks e) c.
Definition set_p2p (x : P2PNode) e := mkFastSyncEngine (e_locked e) (e_state e) x (e_world e) (e_infos e) (e_selected e) (e_advertising e) (e_scheduler e)
  (e_totalChunks e) (e_snapData e) (e_chunks e) (e_requestTimes e) (e_retries e) (e_tasks e) (e_changes e).
Definition set_world (x : W) e := mkFastSyncEngine (e_locked e) (e_state e) (e_p2p e) x (e_infos e) (e_selected e) (e_advertising e) (e_scheduler e)
  (e_totalChunks e) (e_snapData e) (e_chunks e) (e_requestTimes e) (e_retries e) (e_tasks e) (e_changes e).
Definition set_infos (x : list SnapshotInfo) e := mkFastSyncEngine (e_locked e) (e_state e) (e_p2p e) (e_world e) x (e_selected e) (e_advertising e) (e_scheduler e)
  (e_totalChunks e) (e_snapData e) (e_chunks e) (e_requestTimes e) (e_retries e) (e_tasks e) (e_changes e).
Definition set_selection (x : option SnapshotInfo) (s : option ChunkScheduler) (t : Z) e := mkFastSyncEngine (e_locked e) (e_state e) (e_p2p e) (e_world e) (e_infos e) x
  (e_advertising e) s t (e_snapData e) (e_chunks e) (e_requestTimes e) (e_retries e) (e_tasks e) (e_changes e).
Definition set_download (a : list string) (c : gmap Z SnapshotChunk) (t : gmap Z Z) e := mkFastSyncEngine (e_locked e) (e_state e) (e_p2p e) (e_world e) (e_infos e)
  (e_selected e) a (e_scheduler e) (e_totalChunks e) (e_snapData e) c t (e_retries e) (e_tasks e) (e_changes e).
Definition set_data (x : option bytes) e := mkFastSyncEngine (e_locked e) (e_state e) (e_p2p e) (e_world e) (e_infos e) (e_selected e) (e_advertising e) (e_scheduler e)
  (e_totalChunks e) x (e_chunks e) (e_requestTimes e) (e_retries e) (e_tasks e) (e_changes e).
Definition set_retries (x : Z) e := mkFastSyncEngine (e_locked e) (e_state e) (e_p2p e) (e_world e) (e_infos e) (e_selected e) (e_advertising e) (e_scheduler e)
  (e_totalChunks e) (e_snapData e) (e_chunks e) (e_requestTimes e) x (e_tasks e) (e_changes e).
Definition set_tasks (x : list task) e := mkFastSyncEngine (e_locked e) (e_state e) (e_p2p e) (e_world e) (e_infos e) (e_selected e) (e_advertising e) (e_scheduler e)
  (e_totalChunks e) (e_snapData e) (e_chunks e) (e_requestTimes e) (e_retries e) x (e_changes e).
End setters.

Section engine.
Context {W : Type}.
(** The callbacks of the node, the height of the stored tip, and whether a
    message can be written to an address. *)
Context (onRestore : bytes → Hash → go W unit) (onReplay : option (Z → go W unit)) (tipHeight : W → option Z) (writes : string → bool).
Abbreviation Engine := (FastSyncEngine W).
Abbreviation sync := (sync Engine).

Definition Lock : sync unit := λ e, if e_locked e then (e, Blocked) else (set_locked true e, Done tt).
Definition Unlock : sync unit := λ e, if e_locked e then (set_locked false e, Done tt) else (e, Crashed).

(** [mu.Lock(); defer mu.Unlock()]. *)
Definition with_lock {A} (m : sync A) : sync A := Lock;; a ← m; Unlock;; mret a.

Definition spawn (t : task) : sync unit := smod (λ e, set_tasks (e_tasks e ++ [t]) e).

Definition setStateLocked (newState : SyncState) : sync unit :=
  smod (λ e, set_sync newState
    (if bool_decide (e_state e = newState) then e_changes e else e_changes e ++ [(e_state e, newState)]) e).

(** A getter takes the lock for reading. *)
Definition State : sync SyncState := λ e, if e_locked e then (e, Blocked) else (e, Done (e_state e)).

(** [GetScheduler] locks for reading and unlocks for writing. *)
Definition GetScheduler : sync (option ChunkScheduler) := λ e, if e_locked e then (e, Blocked) else (e, Crashed).

(** ** Selection *)

(** The higher snapshot, the later one among equals; zero hashes do not
    count. *)
Definition better_snapshot (best : option SnapshotInfo) (info : SnapshotInfo) : option SnapshotInfo :=
  if bool_decide (si_SnapshotHash info = ZeroHash) then best else
  match best with
  | None => Some info
  | Some b =>
      if si_Height b <? si_Height info then Some info
      else if (si_Height info =? si_Height b) && (si_Timestamp b <? si_Timestamp info) then Some info
      else best
  end.

Definition best_snapshot (infos : list SnapshotInfo) : option SnapshotInfo := fold_left better_snapshot infos None.

(** The end of a synchronisation that failed. *)
Definition fallBackToLiveSyncLocked (now : Z) : sync unit :=
  smod (λ e, set_p2p (fold_left (λ n addr,
    match GetPeerByAddr (pn_pm n) addr with
    | Some p => node_pm (ReportFailure (p_ID p) 3 now) n
    | None => n
    end) (e_advertising e) (e_p2p e)) e);;
  setStateLocked SyncLive.

Definition fallBackToLiveSync (now : Z) : sync unit := with_lock (fallBackToLiveSyncLocked now).

(** A callback, run without the lock. *)
Definition call (m : go W unit) : sync (res unit) := λ e,
  let '(w, r) := m (e_world e) in (set_world w e, match r with Panic => Crashed | _ => Done r end).

Definition go_live : sync unit := with_lock (setStateLocked SyncLive).

Definition replayBlocks (snapshotHeight now : Z) : sync unit :=
  world ← sget e_world;
  let tip := default 0 (tipHeight world) in
  if tip <=? snapshotHeight then go_live else
  match onReplay with
  | None => go_live
  | Some replay =>
      r ← call (replay (u64 (snapshotHeight + 1)));
      match r with
      | Ok _ => go_live
      | _ => fallBackToLiveSync now
      end
  end.

Definition restoreSnapshot (now : Z) : sync unit :=
  Lock;;
  snapData ← sget e_snapData;
  let data := default [] snapData in
  if bool_decide (data = []) then Unlock;; fallBackToLiveSync now else
  selected ← sget e_selected;
  match selected with
  | None => crash
  | Some info =>
      Unlock;;
      r ← call (onRestore data (si_SnapshotHash info));
      match r with
      | Ok _ =>
          with_lock (setStateLocked SyncReplaying);;
          replayBlocks (si_Height info) now
      | _ => fallBackToLiveSync now
      end
  end.

(** [selectBestSnapshot], up to the call of [Advance] at its end; without any
    announcement it returns early. It runs with the lock held. *)
Definition select_best (advance : sync unit) : sync unit :=
  infos ← sget e_infos;
  if bool_decide (infos = []) then smod (λ e, set_selection None (e_scheduler e) (e_totalChunks e) e)
  else
    match best_snapshot infos with
    | Some best => smod (set_selection (Some best) (Some (NewChunkScheduler (si_ChunkCount best))) (si_ChunkCount best))
    | None => smod (λ e, set_selection None (e_scheduler e) (e_totalChunks e) e)
    end;;
    advance.

(** [Advance], which selects when a query is over; [selectBestSnapshot] calls
    [Advance] again. With the lock held the inner call does not return, so no
    more fuel than two is ever used. *)
Fixpoint Advance (fuel : nat) (now : Z) : sync unit :=
  match fuel with
  | O => λ e, (e, Blocked)
  | S fuel' =>
      Lock;;
      st ← sget e_state;
      match st with
      | SyncQuerying =>
          setStateLocked SyncSelecting;;
          select_best (Advance fuel' now);;
          Unlock
      | SyncSelecting =>
          selected ← sget e_selected;
          (if bool_decide (is_Some selected) then setStateLocked SyncDownloading;; spawn StartDownloading
           else setStateLocked SyncLive);;
          Unlock
      | SyncVerifying =>
          setStateLocked SyncRestoring;;
          snapData ← sget e_snapData;
          selected ← sget e_selected;
          Unlock;;
          match snapData, selected with
          | Some data, Some info => call (onRestore data (si_SnapshotHash info));; mret tt
          | _, _ => mret tt
          end;;
          Lock;;
          setStateLocked SyncReplaying;;
          Unlock;;
          match selected with Some info => replayBlocks (si_Height info) now | None => mret tt end;;
          Unlock
      | SyncRestoring => setStateLocked SyncReplaying;; Unlock
      | SyncReplaying => setStateLocked SyncLive;; spawn ClearSyncState;; Unlock
      | _ => Unlock
      end
  end.

Definition selectBestSnapshot (now : Z) : sync unit := select_best (Advance 2 now).

(** ** Querying *)

Definition Start : sync unit :=
  with_lock (
    st ← sget e_state;
    if bool_decide (st = SyncIdle) then
      setStateLocked SyncQuerying;;
      smod (λ e, set_infos [] (set_retries 0 e));;
      spawn QueryPeers
    else mret tt).

(** The goroutines that wait for a timer return. *)
Definition Stop : sync unit :=
  smod (λ e, set_tasks (List.filter (λ t, match t with QueryTimeout | DownloadTick => false | _ => true end) (e_tasks e)) e).

Definition queryPeers : sync unit :=
  smod (λ e, set_p2p (BroadcastSnapshotQuery writes (e_p2p e)) e);;
  spawn QueryTimeout.

(** The wait between the attempts is spent with the lock held; [stopped] tells
    whether it ends because the engine is stopped. *)
Definition handleQueryRetry (stopped : bool) : sync unit :=
  smod (λ e, set_retries (e_retries e + 1) e);;
  retries ← sget e_retries;
  if maxQueryRetries <=? retries then setStateLocked SyncLive
  else if stopped then mret tt else spawn QueryPeers.

Definition query_timeout (stopped : bool) (now : Z) : sync unit :=
  Lock;;
  infos ← sget e_infos;
  (if bool_decide (infos = []) then handleQueryRetry stopped else setStateLocked SyncSelecting;; selectBestSnapshot now);;
  Unlock.

Definition HandleSnapshotInfo (info : SnapshotInfo) : sync unit :=
  with_lock (
    st ← sget e_state;
    infos ← sget e_infos;
    if negb (bool_decide (st = SyncQuerying)) then mret tt
    else if bool_decide (si_SnapshotHash info ∈ si_SnapshotHash <$> infos) then mret tt
    else smod (set_infos (infos ++ [info]))).

(** ** Verification *)

(** The branch without chunks locks again, and the branch that succeeds has
    unlocked before the deferred unlock. *)
Definition verifyDownloadedSnapshot (now : Z) : sync unit :=
  Lock;;
  chunks ← sget e_chunks;
  if bool_decide (chunks = ∅) then fallBackToLiveSync now;; Unlock else
  match ReassembleSnapshot (snd <$> map_to_list chunks) with
  | Ok assembled =>
      selected ← sget e_selected;
      if match selected with
         | Some info => negb (bool_decide (SnapshotHash assembled = si_SnapshotHash info))
         | None => false
         end
      then fallBackToLiveSyncLocked now;; Unlock
      else smod (set_data (Some assembled));; setStateLocked SyncRestoring;; Unlock;; restoreSnapshot now;; Unlock
  | _ => fallBackToLiveSyncLocked now;; Unlock
  end.

Definition advanceToVerifying (now : Z) : sync unit :=
  Lock;;
  st ← sget e_state;
  if negb (bool_decide (st = SyncDownloading)) then Unlock
  else setStateLocked SyncVerifying;; Unlock;; verifyDownloadedSnapshot now.

(** ** Downloading *)

(** The chunks that are missing and were not asked for in the last ten
    seconds. *)
Definition missing_chunks (now : Z) (cs : ChunkScheduler) (times : gmap Z Z) (total : Z) : list Z :=
  List.filter (λ i, negb (default true (received_at cs i)) &&
                 match times !! i with Some t => 10 * second <=? time_sub now t | None => true end)
    (Z.of_nat <$> seq 0 (Z.to_nat total)).

(** The requests in the order of the shuffle, at most four per peer, each to
    the next peer. *)
Fixpoint request_chunks (hash : Hash) (peers : list string) (chunks : list Z) (requested : nat) (n : P2PNode) : P2PNode :=
  match chunks with
  | [] => n
  | idx :: chunks' =>
      if bool_decide (Z.to_nat maxConcurrent * length peers <= requested)%nat then n else
      let addr := default "" (peers !! (requested mod length peers)%nat) in
      if bool_decide (addr = "") then request_chunks hash peers chunks' requested n else
      match RequestSnapshotChunk writes addr hash idx n with
      | (n', Ok _) => request_chunks hash peers chunks' (S requested) n'
      | (n', _) => request_chunks hash peers chunks' requested n'
      end
  end.

(** [shuffle] is the order that [rand.Shuffle] makes. *)
Definition requestMissingChunks (now : Z) (order : list Z → list Z) : sync unit :=
  smod (λ e,
    match e_scheduler e, e_selected e with
    | Some cs, Some info =>
        let missing := missing_chunks now cs (e_requestTimes e) (e_totalChunks e) in
        if bool_decide (missing = []) then e else
        let e := set_download (e_advertising e) (e_chunks e) (fold_left (λ m i, <[i := now]> m) missing (e_requestTimes e)) e in
        if bool_decide (e_advertising e = []) then e else
        set_p2p (request_chunks (si_SnapshotHash info) (e_advertising e) (order missing) 0 (e_p2p e)) e
    | _, _ => e
    end).

Definition startDownloading (now : Z) (order : list Z → list Z) : sync unit :=
  Lock;;
  selected ← sget e_selected;
  scheduler ← sget e_scheduler;
  n ← sget e_p2p;
  match selected, scheduler with
  | Some _, Some _ =>
      let connectedPeers := GetPeersByState (pn_pm n) PeerConnected in
      if bool_decide (connectedPeers = []) then Unlock;; setStateLocked SyncLive else
      smod (set_download (p_Address <$> connectedPeers) ∅ ∅);;
      Unlock;;
      requestMissingChunks now order;;
      spawn DownloadTick
  | _, _ => Unlock;; setStateLocked SyncLive
  end.

(** One tick of the download manager. *)
Definition download_tick (now : Z) (order : list Z → list Z) : sync unit :=
  Lock;;
  st ← sget e_state;
  if negb (bool_decide (st = SyncDownloading)) then Unlock else
  requestMissingChunks now order;;
  scheduler ← sget e_scheduler;
  match scheduler with
  | Some cs => if IsComplete cs then advanceToVerifying now else mret tt
  | None => mret tt
  end;;
  Unlock;;
  spawn DownloadTick.

Definition HandleSnapshotChunk (chunk : SnapshotChunk) (from : PeerID) (now : Z) : sync unit :=
  with_lock (
    st ← sget e_state;
    scheduler ← sget e_scheduler;
    if negb (bool_decide (st = SyncDownloading)) then mret tt else
    match scheduler with
    | None => mret tt
    | Some cs =>
        match received_at cs (ch_Index chunk) with
        | None => crash
        | Some true => mret tt
        | Some false =>
            if negb (VerifyChunk chunk) then smod (λ e, set_p2p (node_pm (ReportFailure from 5 now) (e_p2p e)) e) else
            let '(cs', received) := MarkReceived (ch_Index chunk) cs in
            smod (λ e, set_selection (e_selected e) (Some cs') (e_totalChunks e) e);;
            if negb received then mret tt else
            smod (λ e, set_p2p (node_pm (ReportSuccess from MsgTypeSnapshotChunk now) (e_p2p e)) e);;
            smod (λ e, set_download (e_advertising e) (<[ch_Index chunk := chunk]> (e_chunks e)) (e_requestTimes e) e);;
            (if ReceivedCount cs' mod 10 =? 0 then spawn PersistSyncState else mret tt);;
            (if IsComplete cs' then advanceToVerifying now else mret tt)
        end
    end).
End engine.

(** ** Persisted progress *)

Definition syncStateBucket : bytes := str_bytes "sync_state".
Definition keySnapshotHash : bytes := str_bytes "snapshot_hash".
Definition keyLastHeight : bytes := str_bytes "last_synced_height".
Definition keyChunkBitmap : bytes := str_bytes "chunk_bitmap".
Definition keySyncMode : bytes := str_bytes "sync_mode".

Section progress.
Context {W DB Tx : Type} `{BoltDB DB Tx}.

Definition put_if {A} (o : option A) (msg : string) (key : bytes) (data : A → bytes) : go Tx unit :=
  match o with
  | Some a => wrap msg (Put syncStateBucket key (data a))
  | None => mret tt
  end.

Definition bitmap_bytes (cs : ChunkScheduler) : bytes := (λ b : bool, if b then x01 else x00) <$> Bitmap cs.

(** The error of [persistSyncState] is only printed. *)
Definition persist_sync_tx (e : FastSyncEngine W) : go Tx unit :=
  wrap "create sync_state bucket" (CreateBucketIfNotExists syncStateBucket);;
  put_if (e_selected e) "write snapshot hash" keySnapshotHash (λ info, arr_bytes (si_SnapshotHash info));;
  put_if (e_selected e) "write last height" keyLastHeight (λ info, be 8 (si_Height info));;
  put_if (e_scheduler e) "write chunk bitmap" keyChunkBitmap bitmap_bytes;;
  wrap "write sync mode" (Put syncStateBucket keySyncMode (str_bytes (SyncState_String (e_state e)))).

Definition persistSyncState (e : FastSyncEngine W) : go DB unit := Update (persist_sync_tx e).

(** Hash, height, bitmap and mode, each zero if it is not there. *)
Definition loadSyncState : go DB (Hash * Z * list bool * string) :=
  View (
    b ← Bucket syncStateBucket;
    mret match b with
         | None => (ZeroHash, 0, [], "")
         | Some m =>
             (match m !! keySnapshotHash with
              | Some data => if bool_decide (length data = 32%nat) then arr_copy 32 data else ZeroHash
              | None => ZeroHash
              end,
              match m !! keyLastHeight with
              | Some data => if bool_decide (length data = 8%nat) then unbe data else 0
              | None => 0
              end,
              (λ b : byte, negb (bool_decide (b = x00))) <$> default [] (m !! keyChunkBitmap),
              bytes_str (default [] (m !! keySyncMode)))
         end).

Definition clearSyncState : go DB unit := Update (DeleteBucket syncStateBucket).
End progress.

(** ** Steps *)

Section steps.
Context {W : Type} (onRestore : bytes → Hash → go W unit) (onReplay : option (Z → go W unit)) (tipHeight : W → option Z)
  (writes : string → bool).
(** [persistSyncState] and [clearSyncState] on the database of [W]. *)
Context (persist : FastSyncEngine W → go W unit) (clear : go W unit).
Abbreviation Engine := (FastSyncEngine W).

Definition run_task (t : task) (stopped : bool) (now : Z) (order : list Z → list Z) : sync Engine unit :=
  match t with
  | QueryPeers => queryPeers writes
  | QueryTimeout => query_timeout onRestore onReplay tipHeight stopped now
  | StartDownloading => startDownloading writes now order
  | DownloadTick => download_tick onRestore onReplay tipHeight writes now order
  | PersistSyncState => with_lock (e ← sget id; call (persist e);; mret tt)
  | ClearSyncState => call clear;; mret tt
  end.

(** What can happen to an engine, in any order: calls from outside, messages
    of peers, and the tasks. Between two steps the lock is only held by a
    goroutine that will never release it, so a call that finds it held does
    not return either. *)
Inductive engine_step : Engine → Engine → Prop :=
  | es_start e e' o : Start e = (e', o) → engine_step e e'
  | es_stop e e' o : Stop e = (e', o) → engine_step e e'
  | es_advance e e' o now : Advance onRestore onReplay tipHeight 2 now e = (e', o) → engine_step e e'
  | es_info e e' o info : HandleSnapshotInfo info e = (e', o) → engine_step e e'
  | es_chunk e e' o chunk from now :
      HandleSnapshotChunk onRestore onReplay tipHeight chunk from now e = (e', o) → engine_step e e'
  | es_task e e' o t l1 l2 stopped now order :
      e_tasks e = l1 ++ t :: l2 → run_task t stopped now order (set_tasks (l1 ++ l2) e) = (e', o) → engine_step e e'.

(** ** Lemmas *)

(** An engine that has not selected a snapshot, or has blocked doing so. *)
Record unselected (w : W) (e : Engine) : Prop := {
  us_state : e_state e ∈ [SyncIdle; SyncQuerying; SyncSelecting; SyncLive];
  us_selected : e_locked e = false → e_selected e = None;
  us_world : e_world e = w;
  us_chunks : e_chunks e = ∅;
  us_tasks : Forall (λ t, t ∈ [QueryPeers; QueryTimeout]) (e_tasks e);
}.

Definition keeps {A} (w : W) (m : sync Engine A) : Prop := ∀ e e' o, unselected w e → m e = (e', o) → unselected w e'.

Lemma Advance_locked fuel now (e : Engine) : e_locked e = true → Advance onRestore onReplay tipHeight fuel now e = (e, Blocked).
Proof. intros He. destruct fuel; [done|]. cbn. unfold mbind, sync_bind, Lock. by rewrite He. Qed.

Lemma sync_bind_done {A B} (m : sync Engine A) (f : A → sync Engine B) e e' a : m e = (e', Done a) → (m ≫= f) e = f a e'.
Proof. intros Hm. unfold mbind, sync_bind. by rewrite Hm. Qed.

Lemma Lock_keeps {A} w (k : unit → sync Engine A) :
  (∀ e e' o, e_locked e = true → e_selected e = None → unselected w e → k tt e = (e', o) → unselected w e') →
  keeps w (Lock ≫= k).
Proof.
  intros Hk e e' o Hu. unfold mbind, sync_bind, Lock. destruct (e_locked e) eqn:El; [by intros [= <- <-]|].
  apply Hk; [done|by apply Hu|]. by destruct Hu; split.
Qed.

Lemma states_distinct s : s ∈ [SyncIdle; SyncQuerying; SyncSelecting; SyncLive] ↔
  s = SyncIdle ∨ s = SyncQuerying ∨ s = SyncSelecting ∨ s = SyncLive.
Proof. rewrite !elem_of_cons, elem_of_nil. tauto. Qed.

Ltac engine_run := unfold setStateLocked, spawn, smod, sget, Lock, Unlock, mbind, sync_bind, mret, sync_ret; cbn.

Lemma Advance_keeps w now : keeps w (Advance onRestore onReplay tipHeight 2 now).
Proof.
  cbn [Advance]. apply Lock_keeps. intros e e' o Hl Hs Hu. pose proof (us_state w e Hu) as Hst. rewrite states_distinct in Hst.
  destruct Hu as [_ _ Hw Hc Ht]. rewrite (sync_bind_done _ _ e e (e_state e)) by done.
  destruct Hst as [E|[E|[E|E]]]; rewrite E; engine_run.
  - rewrite Hl. intros [= <- <-]. split; cbn; rewrite ?E; [set_solver|done..].
  - unfold select_best. engine_run. case_bool_decide as Hi; cbn.
    + rewrite Hl. intros [= <- <-]. split; cbn; rewrite ?E; [set_solver|done..].
    + destruct (fold_left better_snapshot (e_infos e) None); cbn; rewrite Hl; intros [= <- <-]; (split; cbn; [set_solver|congruence|done..]).
  - rewrite Hs. cbn. rewrite Hl. intros [= <- <-]. split; cbn; rewrite ?E; [set_solver|done..].
  - rewrite Hl. intros [= <- <-]. split; cbn; rewrite ?E; [set_solver|done..].
Qed.

Lemma Start_keeps w : keeps w Start.
Proof.
  apply Lock_keeps. intros e e' o Hl Hs [Hst _ Hw Hc Ht]. engine_run. case_bool_decide as Hi; cbn; rewrite Hl; intros [= <- <-].
  - split; cbn; [set_solver|done..|]. apply Forall_app. split; [done|]. constructor; [set_solver|constructor].
  - by split.
Qed.

Lemma HandleSnapshotInfo_keeps w info : keeps w (HandleSnapshotInfo info).
Proof.
  apply Lock_keeps. intros e e' o Hl Hs [Hst _ Hw Hc Ht]. engine_run.
  destruct (negb _); cbn; [rewrite Hl; by intros [= <- <-]; split|].
  case_bool_decide; cbn; rewrite Hl; by intros [= <- <-]; split.
Qed.

Lemma HandleSnapshotChunk_keeps w chunk from now : keeps w (HandleSnapshotChunk onRestore onReplay tipHeight chunk from now).
Proof.
  apply Lock_keeps. intros e e' o Hl Hs Hu. pose proof (us_state w e Hu) as Hst. destruct Hu as [_ _ Hw Hc Ht].
  engine_run. rewrite bool_decide_eq_false_2 by (intros E; rewrite E in Hst; revert Hst; set_solver). cbn. rewrite Hl.
  by intros [= <- <-]; split.
Qed.

Lemma query_timeout_keeps w stopped now : keeps w (query_timeout onRestore onReplay tipHeight stopped now).
Proof.
  apply Lock_keeps. intros e e' o Hl Hs [Hst _ Hw Hc Ht]. engine_run. case_bool_decide as Hi.
  - unfold handleQueryRetry. engine_run. destruct (maxQueryRetries <=? _); [|destruct stopped]; cbn; rewrite Hl; intros [= <- <-].
    + split; cbn; [set_solver|done..].
    + by split.
    + split; cbn; [done..|]. apply Forall_app. split; [done|]. constructor; [set_solver|constructor].
  - unfold selectBestSnapshot, select_best. engine_run. rewrite bool_decide_eq_false_2 by done.
    destruct (fold_left better_snapshot (e_infos e) None); engine_run; rewrite Hl; cbn; intros [= <- <-]; (split; cbn; [set_solver|congruence|done..]).
Qed.

Lemma step_keeps w e e' : engine_step e e' → unselected w e → unselected w e'.
Proof.
  destruct 1 as [e e' o Hr|e e' o Hr|e e' o now Hr|e e' o info Hr|e e' o chunk from now Hr|e e' o t l1 l2 stopped now order Ht Hr]; intros Hu.
  - by apply (Start_keeps w e e' o).
  - injection Hr as <- <-. destruct Hu as [Hst Hs Hw Hc Ht]. split; cbn; [done..|]. rewrite Forall_forall in *.
    intros t [Hin _]%elem_of_filter_list. by apply Ht.
  - by apply (Advance_keeps w now e e' o).
  - by apply (HandleSnapshotInfo_keeps w info e e' o).
  - by apply (HandleSnapshotChunk_keeps w chunk from now e e' o).
  - destruct Hu as [Hst Hs Hw Hc Htk]. rewrite Ht, Forall_app, Forall_cons in Htk. destruct Htk as (F1 & Hin & F2).
    assert (unselected w (set_tasks (l1 ++ l2) e)) as Hu by (split; cbn; [done..|by apply Forall_app]).
    rewrite !elem_of_cons, elem_of_nil in Hin. destruct Hin as [-> |[-> |[]]].
    + cbn in Hr. unfold queryPeers in Hr. revert Hr. engine_run. intros [= <- <-]. destruct Hu as [? ? ? ? Hf]. split; cbn in *; [done..|].
      apply Forall_app. split; [done|]. constructor; [set_solver|constructor].
    + by apply (query_timeout_keeps w stopped now _ e' o Hu).
Qed.

(** Once the lock is lost nothing changes any more. *)
Lemma locked_step e e' :
  engine_step e e' → e_locked e = true → e_locked e' = true ∧ e_state e' = e_state e.
Proof.
  assert (∀ {A} (k : unit → sync Engine A) e e' o, e_locked e = true → (Lock ≫= k) e = (e', o) → e' = e) as HL.
  { intros A k x x' o Hx. unfold mbind, sync_bind, Lock. rewrite Hx. by intros [= <- <-]. }
  destruct 1 as [e e' o Hr|e e' o Hr|e e' o now Hr|e e' o info Hr|e e' o chunk from now Hr|e e' o t l1 l2 stopped now order Ht Hr]; intros Hl.
  - by apply HL in Hr as ->.
  - by injection Hr as <- <-.
  - rewrite Advance_locked in Hr by done. by injection Hr as <- <-.
  - by apply HL in Hr as ->.
  - by apply HL in Hr as ->.
  - destruct t; cbn in Hr.
    + by injection Hr as <- <-.
    + by apply HL in Hr as ->.
    + by apply HL in Hr as ->.
    + by apply HL in Hr as ->.
    + by apply HL in Hr as ->.
    + revert Hr. unfold call. engine_run. destruct (clear (e_world e)) as [w [[]|err|]]; by intros [= <- <-].
Qed.

(** The first task runs. *)
Definition run_next (now : Z) (order : list Z → list Z) : sync Engine unit := λ e,
  match e_tasks e with
  | [] => (e, Done tt)
  | t :: l => run_task t false now order (set_tasks l e)
  end.

(** A query that nobody answers. *)
Lemma query_round now order (e : Engine) :
  e_locked e = false → e_tasks e = [QueryPeers] → e_infos e = [] →
  (run_next now order;; run_next now order) e =
    (let n := BroadcastSnapshotQuery writes (e_p2p e) in
     let e' := set_retries (e_retries e + 1) (set_p2p n (set_tasks [] e)) in
     if maxQueryRetries <=? e_retries e + 1
     then set_sync SyncLive (if bool_decide (e_state e = SyncLive) then e_changes e else e_changes e ++ [(e_state e, SyncLive)]) e'
     else set_tasks [QueryPeers] e', Done tt).
Proof.
  destruct e as [l st n w infos sel adv sch tot data ch times r tasks changes]; cbn. intros -> -> ->.
  unfold run_next, run_task, queryPeers, query_timeout, handleQueryRetry. engine_run.
  destruct (maxQueryRetries <=? r + 1); reflexivity.
Qed.
End steps.

(** *** The scheduler *)

Definition mark_all (l : list Z) (cs : ChunkScheduler) : ChunkScheduler := fold_left (λ cs i, (MarkReceived i cs).1) l cs.

Definition scheduler_ok (cs : ChunkScheduler) : Prop := 0 <= cs_totalChunks cs ∧ length (cs_received cs) = Z.to_nat (cs_totalChunks cs).

Lemma MarkReceived_spec i cs :
  scheduler_ok cs → 0 <= i → scheduler_ok (MarkReceived i cs).1 ∧ cs_totalChunks (MarkReceived i cs).1 = cs_totalChunks cs ∧
    ∀ j, received_at (MarkReceived i cs).1 j = if decide (Z.to_nat j = Z.to_nat i) then (λ _, true) <$> received_at cs j else received_at cs j.
Proof.
  intros [Ht Hl] Hi. unfold MarkReceived. destruct (Z.leb_spec (cs_totalChunks cs) i) as [Ho|Ho].
  { split; [done|]. split; [done|]. intros j. cbn. case_decide as Hd; [|done].
    unfold received_at. rewrite Hd, lookup_ge_None_2 by lia. done. }
  destruct (lookup_lt_is_Some_2 (cs_received cs) (Z.to_nat i)) as [b Hb]; [lia|].
  assert (received_at cs i = Some b) as Hr by done. rewrite Hr.
  destruct b; cbn [fst].
  - split; [done|]. split; [done|]. intros j. case_decide as Hd; [|done]. unfold received_at. by rewrite Hd, Hb.
  - split; [split; cbn; [done|by rewrite length_insert]|]. split; [done|]. intros j. unfold received_at. cbn.
    case_decide as Hd; [|by rewrite list_lookup_insert_ne by done]. rewrite Hd, Hb, list_lookup_insert_eq by lia. done.
Qed.

Lemma mark_all_spec l cs :
  scheduler_ok cs → Forall (Z.le 0) l → scheduler_ok (mark_all l cs) ∧ cs_totalChunks (mark_all l cs) = cs_totalChunks cs ∧
    ∀ j, 0 <= j → received_at (mark_all l cs) j = if decide (j ∈ l) then (λ _, true) <$> received_at cs j else received_at cs j.
Proof.
  revert cs. induction l as [|i l IH]; intros cs Hok Hl.
  { split; [done|]. split; [done|]. intros j Hj. cbn. by rewrite decide_False by set_solver. }
  apply Forall_cons in Hl as [Hi Hl]. destruct (MarkReceived_spec i cs Hok Hi) as (Hok1 & Ht1 & H1).
  destruct (IH _ Hok1 Hl) as (Hok2 & Ht2 & H2). cbn [mark_all fold_left]. fold (mark_all l (MarkReceived i cs).1).
  split; [done|]. split; [congruence|]. intros j Hj. rewrite H2, H1 by done.
  destruct (decide (j = i)) as [->|Hne].
  - rewrite (decide_True (P := Z.to_nat i = Z.to_nat i)), (decide_True (P := i ∈ i :: l)) by (done || by left).
    by case_decide; destruct (received_at cs i).
  - rewrite (decide_False (P := Z.to_nat j = Z.to_nat i)) by lia.
    destruct (decide (j ∈ l)); [rewrite decide_True by (by right)|rewrite decide_False by (by intros [?|?]%elem_of_cons)]; done.
Qed.

(** *** Progress *)

Lemma put_if_ok {DB Tx} `{BoltLaws DB Tx, !BoltReliable DB Tx} {A} (o : option A) msg key (data : A → bytes) (tx : Tx) m :
  tx_buckets tx !! syncStateBucket = Some m → (∀ a, o = Some a → storable key (data a)) →
  ∃ tx', put_if o msg key data tx = (tx', Ok tt) ∧
    tx_buckets tx' !! syncStateBucket = Some match o with Some a => <[key := data a]> m | None => m end.
Proof.
  intros Hm Hs. destruct o as [a|]; [|by exists tx]. destruct (Put_ok syncStateBucket key (data a) tx m Hm (Hs a eq_refl)) as (tx' & Hp & Hb).
  exists tx'. split; [by apply wrap_ok|]. by rewrite Hb, lookup_insert_eq.
Qed.

(** The entries of the bucket after the progress was saved. *)
Definition progress_entries {W} (e : FastSyncEngine W) (info : SnapshotInfo) (cs : ChunkScheduler) (m : gmap bytes bytes) : gmap bytes bytes :=
  <[keySyncMode := str_bytes (SyncState_String (e_state e))]> (<[keyChunkBitmap := bitmap_bytes cs]>
    (<[keyLastHeight := be 8 (si_Height info)]> (<[keySnapshotHash := arr_bytes (si_SnapshotHash info)]> m))).

Lemma progress_keys_distinct : NoDup [keySnapshotHash; keyLastHeight; keyChunkBitmap; keySyncMode].
Proof. apply (bool_decide_unpack _). vm_compute. exact I. Qed.

Lemma progress_lookups {W} (e : FastSyncEngine W) info cs m :
  progress_entries e info cs m !! keySnapshotHash = Some (arr_bytes (si_SnapshotHash info)) ∧
  progress_entries e info cs m !! keyLastHeight = Some (be 8 (si_Height info)) ∧
  progress_entries e info cs m !! keyChunkBitmap = Some (bitmap_bytes cs) ∧
  progress_entries e info cs m !! keySyncMode = Some (str_bytes (SyncState_String (e_state e))).
Proof.
  pose proof progress_keys_distinct as Hd. rewrite !NoDup_cons, !not_elem_of_cons in Hd. destruct Hd as ((?&?&?&_)&(?&?&_)&(?&_)&_).
  unfold progress_entries. split_and!; rewrite ?lookup_insert_ne, lookup_insert_eq by congruence; done.
Qed.

Lemma bitmap_decode cs : (λ b : byte, negb (bool_decide (b = x00))) <$> bitmap_bytes cs = cs_received cs.
Proof.
  unfold bitmap_bytes, Bitmap. rewrite <- list_fmap_compose. rewrite <- (list_fmap_id (cs_received cs)) at 2.
  apply list_fmap_ext. by intros _ [] _.
Qed.

Lemma persist_sync_ok {W DB Tx} `{BoltLaws DB Tx, !BoltReliable DB Tx} (e : FastSyncEngine W) (db : DB) info cs :
  e_selected e = Some info → e_scheduler e = Some cs → Z.of_nat (length (cs_received cs)) <= MaxValueSize →
  ∃ tx m, persist_sync_tx e (db_begin db) = (tx, Ok tt) ∧ tx_buckets tx !! syncStateBucket = Some (progress_entries e info cs m).
Proof.
  intros Hs Hc Hlen. destruct (create_ok syncStateBucket (db_begin db)) as (tx0 & Hp0 & B0); [done|].
  assert (∃ m, tx_buckets tx0 !! syncStateBucket = Some m) as [m Hm] by (rewrite B0, with_bucket_lookup, decide_True by done; by eexists).
  destruct (put_if_ok (e_selected e) "write snapshot hash" keySnapshotHash (λ info, arr_bytes (si_SnapshotHash info)) tx0 m Hm) as (tx1 & Hp1 & B1).
  { intros a _. split; [done|]. rewrite arr_length. done. }
  destruct (put_if_ok (e_selected e) "write last height" keyLastHeight (λ info, be 8 (si_Height info)) tx1 _ B1) as (tx2 & Hp2 & B2).
  { intros a _. split; [done|]. rewrite length_be. done. }
  destruct (put_if_ok (e_scheduler e) "write chunk bitmap" keyChunkBitmap bitmap_bytes tx2 _ B2) as (tx3 & Hp3 & B3).
  { intros a Ha. split; [done|]. unfold bitmap_bytes, Bitmap. rewrite length_fmap. congruence. }
  destruct (put_if_ok (Some tt) "write sync mode" keySyncMode (λ _, str_bytes (SyncState_String (e_state e))) tx3 _ B3) as (tx4 & Hp4 & B4).
  { intros a _. split; [done|]. by destruct (e_state e). }
  exists tx4, m. rewrite Hs, Hc in B4. split; [|exact B4]. unfold persist_sync_tx.
  rewrite (go_bind_ok _ _ _ _ _ (wrap_ok _ _ _ _ _ Hp0)), (go_bind_ok _ _ _ _ _ Hp1), (go_bind_ok _ _ _ _ _ Hp2), (go_bind_ok _ _ _ _ _ Hp3).
  exact Hp4.
Qed.

(** ** Properties *)

(** C11: whatever is announced, sent or called, and in whatever order the
    goroutines run, an engine never starts to download: it never gets beyond
    selecting a snapshot, collects no chunk, and leaves the persistent state
    as it was. *)
Theorem fast_sync_never_downloads {W} (onRestore : bytes → Hash → go W unit) (onReplay : option (Z → go W unit)) (tipHeight : W → option Z)
    (writes : string → bool) (persist : FastSyncEngine W → go W unit) (clear : go W unit) (p2p : P2PNode) (w : W) (e : FastSyncEngine W) :
  rtc (engine_step onRestore onReplay tipHeight writes persist clear) (NewFastSyncEngine p2p w) e →
  e_state e ∈ [SyncIdle; SyncQuerying; SyncSelecting; SyncLive] ∧ e_world e = w ∧ e_chunks e = ∅.
Proof.
  intros Hr. assert (unselected w e) as [? _ ? ? _]; [|done].
  assert (unselected w (NewFastSyncEngine p2p w)) as H0 by (by split; cbn; [set_solver|..]).
  revert H0. induction Hr as [|x y z Hxy _ IH]; [done|]. intros H0. by apply IH, (step_keeps onRestore onReplay tipHeight writes persist clear w x).
Qed.

(** If any snapshot was announced when the query times out, the engine
    locks its mutex twice: it stays in the selecting state forever, so a node
    that waits for it never takes part in consensus. *)
Theorem answered_query_blocks {W} (onRestore : bytes → Hash → go W unit) (onReplay : option (Z → go W unit)) (tipHeight : W → option Z)
    (writes : string → bool) (persist : FastSyncEngine W → go W unit) (clear : go W unit) (stopped : bool) (now : Z) (e : FastSyncEngine W) :
  e_locked e = false → e_infos e ≠ [] →
  ∃ e', query_timeout onRestore onReplay tipHeight stopped now e = (e', Blocked) ∧
    ∀ e'', rtc (engine_step onRestore onReplay tipHeight writes persist clear) e' e'' → e_state e'' = SyncSelecting.
Proof.
  intros Hl Hi.
  assert (∃ e', query_timeout onRestore onReplay tipHeight stopped now e = (e', Blocked) ∧ e_locked e' = true ∧ e_state e' = SyncSelecting)
    as (e' & Hq & Hl' & Hs').
  { unfold query_timeout. rewrite (sync_bind_done Lock _ e (set_locked true e) tt) by (unfold Lock; by rewrite Hl).
    unfold selectBestSnapshot, select_best, setStateLocked, smod, sget, mbind, sync_bind. cbn -[Advance best_snapshot].
    rewrite !bool_decide_eq_false_2 by done. destruct (best_snapshot (e_infos (set_locked true e))); cbv beta iota; rewrite Advance_locked by done; by eexists. }
  exists e'. split; [done|]. intros e'' Hr. rewrite <- Hs'. clear Hq Hs'. revert Hl'.
  induction Hr as [|x y z Hxy _ IH]; [done|]. intros Hx. destruct (locked_step _ _ _ _ _ _ x y Hxy Hx) as (Hy & <-). by apply IH.
Qed.

(** If nobody answers, three queries are made and the engine goes live. *)
Theorem unanswered_query_goes_live {W} (onRestore : bytes → Hash → go W unit) (onReplay : option (Z → go W unit)) (tipHeight : W → option Z)
    (writes : string → bool) (persist : FastSyncEngine W → go W unit) (clear : go W unit) (p2p : P2PNode) (w : W) (now : Z) (order : list Z → list Z) :
  let turn := run_next onRestore onReplay tipHeight writes persist clear now order in
  let round := turn;; turn in
  ∃ e, (Start;; round;; round;; round) (NewFastSyncEngine p2p w) = (e, Done tt) ∧
    e_state e = SyncLive ∧ e_tasks e = [] ∧ e_retries e = 3 ∧ e_changes e = [(SyncIdle, SyncQuerying); (SyncQuerying, SyncLive)].
Proof.
  intros turn round. unfold round, turn. eexists.
  split.
  { erewrite (sync_bind_done Start) by reflexivity. do 2 (erewrite sync_bind_done by (by apply query_round)). by apply query_round. }
  cbn -[BroadcastSnapshotQuery]. split_and!; reflexivity.
Qed.

(** While downloading, a chunk whose index is out of range ends the program,
    and the chunk that completes the download blocks the engine. *)
Theorem downloads_cannot_finish {W} (onRestore : bytes → Hash → go W unit) (onReplay : option (Z → go W unit)) (tipHeight : W → option Z)
    (e : FastSyncEngine W) (cs : ChunkScheduler) (chunk : SnapshotChunk) (from : PeerID) (now : Z) :
  e_locked e = false → e_state e = SyncDownloading → e_scheduler e = Some cs → scheduler_ok cs → 0 <= ch_Index chunk →
  (cs_totalChunks cs <= ch_Index chunk → (HandleSnapshotChunk onRestore onReplay tipHeight chunk from now e).2 = Crashed) ∧
  (received_at cs (ch_Index chunk) = Some false → VerifyChunk chunk = true → IsComplete (MarkReceived (ch_Index chunk) cs).1 = true →
     (HandleSnapshotChunk onRestore onReplay tipHeight chunk from now e).2 = Blocked).
Proof.
  intros Hl Hs Hc [Ht Hlen] Hi. unfold HandleSnapshotChunk, with_lock.
  rewrite !(sync_bind_done Lock _ e (set_locked true e) tt) by (unfold Lock; by rewrite Hl).
  unfold sget, mbind, sync_bind. cbn -[received_at VerifyChunk MarkReceived advanceToVerifying]. rewrite Hs, Hc.
  rewrite bool_decide_eq_true_2 by done. cbn [negb]. split.
  - intros Ho. assert (received_at cs (ch_Index chunk) = None) as -> by (apply lookup_ge_None_2; lia). done.
  - intros Hr Hv Hcomp. rewrite Hr, Hv. cbn [negb]. destruct (MarkReceived (ch_Index chunk) cs) as [cs' b] eqn:Em. cbn [fst] in Hcomp.
    assert (b = true) as ->.
    { unfold MarkReceived in Em. destruct (Z.leb_spec (cs_totalChunks cs) (ch_Index chunk)) as [Ho|]; [|rewrite Hr in Em; by injection Em].
      assert (received_at cs (ch_Index chunk) = None) by (apply lookup_ge_None_2; lia). congruence. }
    cbn [negb]. unfold smod, spawn. rewrite Hcomp. destruct (ReceivedCount cs' mod 10 =? 0); reflexivity.
Qed.

(** The scheduler is complete exactly when every chunk was marked, in
    whatever order and however often. *)
Theorem scheduler_complete_iff (total : Z) (l : list Z) :
  0 <= total → Forall (Z.le 0) l → IsComplete (mark_all l (NewChunkScheduler total)) = true ↔ ∀ i, 0 <= i < total → i ∈ l.
Proof.
  intros Ht Hl. assert (scheduler_ok (NewChunkScheduler total)) as H0 by (split; cbn; [done|by rewrite length_replicate]).
  destruct (mark_all_spec l _ H0 Hl) as ([_ Hlen] & Htot & Hr). cbn in Htot. rewrite Htot in Hlen.
  assert (∀ i, 0 <= i < total → received_at (mark_all l (NewChunkScheduler total)) i = Some (bool_decide (i ∈ l))) as Hat.
  { intros i Hi. rewrite Hr by lia. unfold received_at. cbn. rewrite lookup_replicate_2 by lia. case_decide; by case_bool_decide. }
  unfold IsComplete. rewrite forallb_forall. split.
  - intros Hall i Hi. specialize (Hat i Hi). unfold received_at in Hat. apply list_elem_of_lookup_2, list_elem_of_In, Hall in Hat.
    by apply bool_decide_eq_true in Hat.
  - intros Hall b [i Hb]%list_elem_of_In%list_elem_of_lookup. pose proof (lookup_lt_Some _ _ _ Hb) as Hlt.
    specialize (Hat (Z.of_nat i) ltac:(lia)). unfold received_at in Hat. rewrite Nat2Z.id, Hb in Hat. injection Hat as ->.
    apply bool_decide_eq_true. apply Hall. lia.
Qed.

(** Progress that is saved while a snapshot is downloaded is loaded after a
    restart: the snapshot, its height, the chunks received and the state. *)
Theorem sync_state_reload {W DB Tx} `{BoltLaws DB Tx, !BoltReliable DB Tx} (e : FastSyncEngine W) (info : SnapshotInfo) (cs : ChunkScheduler) (db : DB) :
  e_selected e = Some info → e_scheduler e = Some cs → fits 8 (si_Height info) → Z.of_nat (length (cs_received cs)) <= MaxValueSize →
  ∃ db', persistSyncState e db = (db', Ok tt) ∧
    loadSyncState db' = (db', Ok (si_SnapshotHash info, si_Height info, cs_received cs, SyncState_String (e_state e))).
Proof.
  intros Hs Hc Hf Hlen.
  destruct (persist_sync_ok e db info cs Hs Hc Hlen) as (tx & m & Hp & Hm). destruct (Update_ok _ db tx tt Hp) as (db' & Hu & Hb).
  exists db'. split; [done|]. unfold loadSyncState, View, Bucket, gets, mbind, go_bind, mret, go_ret. cbn [snd].
  unfold db_buckets in Hb. rewrite Hb, Hm. destruct (progress_lookups e info cs m) as (-> & -> & -> & ->). do 2 f_equal. cbn [default from_option id].
  rewrite bitmap_decode, bytes_str_bytes, arr_copy_arr, unbe_be_small by done.
  by rewrite !bool_decide_eq_true_2 by (apply arr_length || apply length_be).
Qed.

(** ** Witnesses *)

(** A node with a database, whose callbacks do nothing. *)
Definition no_restore : bytes → Hash → go contents unit := λ _ _, mret tt.
Definition fresh_engine : FastSyncEngine contents := NewFastSyncEngine NewP2PNode ∅.
Definition querying_engine : FastSyncEngine contents := (Start fresh_engine).1.
Definition announced : SnapshotInfo := mkSnapshotInfo 7 (arr_copy 32 [x01]) 0 0 1.
Definition answered_engine : FastSyncEngine contents := (HandleSnapshotInfo announced querying_engine).1.
(** An engine that would be downloading the snapshot of one chunk. *)
Definition downloading_engine : FastSyncEngine contents :=
  set_sync SyncDownloading [] (set_selection (Some announced) (Some (NewChunkScheduler 1)) 1 fresh_engine).

Lemma answered_reachable : rtc (engine_step no_restore None (λ _, None) (λ _, true) persistSyncState clearSyncState) fresh_engine answered_engine.
Proof.
  eapply rtc_l; [exact (es_start _ _ _ _ _ _ fresh_engine querying_engine (Done tt) eq_refl)|].
  apply rtc_once. exact (es_info _ _ _ _ _ _ querying_engine answered_engine (Done tt) announced eq_refl).
Defined.

Lemma fast_sync_never_downloads_witness : e_infos answered_engine = [announced] ∧ e_chunks answered_engine = ∅.
Proof.
  split; [reflexivity|].
  apply (fast_sync_never_downloads no_restore None (λ _, None) (λ _, true) persistSyncState clearSyncState NewP2PNode ∅ answered_engine answered_reachable).
Defined.

Lemma answered_query_blocks_witness :
  ∃ e', query_timeout no_restore None (λ _, None) false 5 answered_engine = (e', Blocked) ∧ e_state e' = SyncSelecting.
Proof.
  destruct (answered_query_blocks no_restore None (λ _, None) (λ _, true) persistSyncState clearSyncState false 5 answered_engine) as (e' & Hq & Hstay).
  - reflexivity.
  - discriminate.
  - exists e'. split; [exact Hq|]. apply (Hstay e' (rtc_refl _ e')).
Defined.

Lemma downloads_cannot_finish_witness :
  (HandleSnapshotChunk no_restore None (λ _, None) (mkSnapshotChunk 1 1 ZeroHash ZeroHash []) some_peer 5 downloading_engine).2 = Crashed.
Proof.
  apply (downloads_cannot_finish no_restore None (λ _, None) downloading_engine (NewChunkScheduler 1)
    (mkSnapshotChunk 1 1 ZeroHash ZeroHash []) some_peer 5); first [reflexivity | split; vm_compute; (discriminate || reflexivity) | vm_compute; discriminate].
Defined.

Lemma scheduler_complete_iff_witness : IsComplete (mark_all [1; 0; 1] (NewChunkScheduler 2)) = true.
Proof.
  apply (scheduler_complete_iff 2 [1; 0; 1]).
  - lia.
  - repeat constructor; lia.
  - intros i Hi. assert (i = 0 ∨ i = 1) as [-> | ->] by lia; set_solver.
Defined.

Lemma sync_state_reload_witness :
  ∃ db', persistSyncState downloading_engine (∅ : contents) = (db', Ok tt) ∧
    loadSyncState db' = (db', Ok (arr_copy 32 [x01], 7, [false], "Downloading")).
Proof.
  apply (sync_state_reload downloading_engine announced (NewChunkScheduler 1) (∅ : contents)).
  - reflexivity.
  - reflexivity.
  - vm_compute; split; (discriminate || reflexivity).
  - vm_compute. discriminate.
Defined.
