(* ===== verification/Client.v ===== *)
(** * Clients (package wallet, sdk/txbuilder.go, sdk/wallet.go)

    Keys and key files, the transaction builder of the SDK and what the node
    makes of the transactions it builds. Writing and reading files is left out:
    a key file is its contents. Creating keys is part of crypto/ed25519. *)

From S2P Require Import Prelude Codec Sha256 Address Amount Tx Votes Block Smt Store Keys State.
From S2P Require Import Applier Registry Gossip Genesis Node Startup.

(** ** Keys (wallet/wallet.go) *)

Definition KeyPair_Sign `{Hasher} `{Ed25519} (kp : KeyPair) (tx : Transaction) : res Transaction :=
  intentID ← ComputeIntentID tx;
  Ok {| tx_Version := tx_Version tx; tx_ChainID := tx_ChainID tx; tx_IntentID := intentID; tx_Sender := tx_Sender tx;
        tx_Nonce := tx_Nonce tx; tx_Payload := tx_Payload tx; tx_Constraints := tx_Constraints tx; tx_MaxFee := tx_MaxFee tx;
        tx_GasLimit := tx_GasLimit tx; tx_Timestamp := tx_Timestamp tx;
        tx_Signature := ed25519_Sign (kp_PrivateKey kp) intentID; tx_TxType := tx_TxType tx |}.

(** [priv.Public()]: the second half of the private key. *)
Definition private_Public (priv : bytes) : bytes := drop 32 priv.

(** ** Validator key files (wallet/validator.go) *)

Definition ErrInvalidKeyFile : error := Errorf "invalid key file".

Definition deriveAddress (pubKey : bytes) : Address := arr_copy 20 (take 20 (Sum256 pubKey)).

Definition newline : bytes := [x0a].

(** The contents of the file that [SaveValidatorKey] writes. *)
Definition SaveValidatorKey (privKey pubKey : bytes) : bytes :=
  str_bytes (hex privKey) ++ newline ++ str_bytes (hex pubKey) ++ newline ++ str_bytes (hex (deriveAddress pubKey)) ++ newline.

(** [string(line)] of a byte: the character with this code in UTF-8. *)
Definition byte_string (b : byte) : bytes :=
  if b2z b <? 128 then [b] else [z2b (192 + b2z b / 64); z2b (128 + b2z b mod 64)].

(** The loop of [splitLines], with the lines in reverse order. *)
Definition split_step (lines : list bytes) (b : byte) : list bytes :=
  if bool_decide (b = x0a) then
    match lines with
    | (_ :: _) :: _ => [] :: lines
    | _ => lines
    end
  else if bool_decide (b = x0d) then lines
  else
    match lines with
    | [] => [byte_string b]
    | line :: rest => (line ++ byte_string b) :: rest
    end.

Definition splitLines (s : bytes) : list bytes :=
  let lines := fold_left split_step s [] in
  rev match lines with
      | [] :: rest => rest
      | _ => lines
      end.

(** One line of the file: hexadecimal digits for [n] bytes. *)
Definition key_line (what : string) (n : nat) (line : bytes) : res bytes :=
  match hex_decode line with
  | None => Err (Wrapf ("invalid " +:+ what +:+ " hex") ErrInvalidKeyFile)
  | Some b => if bool_decide (length b = n) then Ok b else Err (Wrapf (what +:+ " has the wrong length") ErrInvalidKeyFile)
  end.

Definition LoadValidatorKey (data : bytes) : res ValidatorKey :=
  match splitLines data with
  | l1 :: l2 :: l3 :: _ =>
      privBytes ← key_line "private key" 64 l1;
      pubBytes ← key_line "public key" 32 l2;
      addrBytes ← key_line "address" 20 l3;
      if negb (bool_decide (hex (private_Public privBytes) = hex pubBytes))
      then Err (Wrapf "public key does not match private key" ErrInvalidKeyFile) else
      let storedAddr : Address := arr_copy 20 addrBytes in
      if negb (bool_decide (deriveAddress pubBytes = storedAddr))
      then Err (Wrapf "address does not match public key" ErrInvalidKeyFile)
      else Ok {| vk_PrivateKey := privBytes; vk_PublicKey := pubBytes; vk_Address := storedAddr |}
  | _ => Err (Wrapf "expected 3 lines" ErrInvalidKeyFile)
  end.

(** ** Keys in the SDK (sdk/wallet.go) *)

Definition ErrInvalidParams : error := Errorf "invalid params".

(** [fromSeed] is [ed25519.NewKeyFromSeed]. *)
Definition NewKeyFromSeed (fromSeed : bytes → bytes) (seed : bytes) : res KeyPair :=
  if negb (bool_decide (length seed = 32%nat)) then Err ErrInvalidParams else
  let priv := fromSeed seed in
  Ok (mkKeyPair (arr_copy 32 (private_Public priv)) (arr_copy 64 priv)).

Definition deriveSeedFromMnemonic (mnemonic : string) : bytes := Sum256 (str_bytes mnemonic).

Definition NewKeyFromMnemonic (fromSeed : bytes → bytes) (mnemonic : string) : res KeyPair :=
  NewKeyFromSeed fromSeed (deriveSeedFromMnemonic mnemonic).

Definition KeyToHex (kp : KeyPair) : string := hex (kp_PrivateKey kp).

Definition ErrHex : error := Errorf "encoding/hex: invalid byte".

Definition KeyFromHex (hexStr : string) : res KeyPair :=
  match hex_decode (str_bytes hexStr) with
  | None => Err ErrHex
  | Some privBytes =>
      if negb (bool_decide (length privBytes = 64%nat)) then Err ErrInvalidParams
      else Ok (mkKeyPair (arr_copy 32 (private_Public privBytes)) (arr_copy 64 privBytes))
  end.

(** ** The transaction builder (sdk/txbuilder.go) *)

Record TxBuilder := mkTxBuilder {
  tb_from : string;
  tb_to : string;
  tb_nonce : Z;
  tb_value : option Z;
  tb_data : bytes;
  tb_gasLimit : Z;
  tb_gasPrice : Z;
  tb_maxFee : Z;
  tb_timestamp : Z;
  tb_chainID : Z;
  tb_version : Z;
}.

(** [now] is the clock in seconds. *)
Definition NewTxBuilder (now : Z) : TxBuilder := mkTxBuilder "" "" 0 None [] 21000 1 0 now 1 1.

Definition TxBuilder_From (addr : string) (b : TxBuilder) : TxBuilder :=
  mkTxBuilder addr (tb_to b) (tb_nonce b) (tb_value b) (tb_data b) (tb_gasLimit b) (tb_gasPrice b) (tb_maxFee b) (tb_timestamp b) (tb_chainID b) (tb_version b).
Definition TxBuilder_To (addr : string) (b : TxBuilder) : TxBuilder :=
  mkTxBuilder (tb_from b) addr (tb_nonce b) (tb_value b) (tb_data b) (tb_gasLimit b) (tb_gasPrice b) (tb_maxFee b) (tb_timestamp b) (tb_chainID b) (tb_version b).
Definition TxBuilder_Nonce (nonce : Z) (b : TxBuilder) : TxBuilder :=
  mkTxBuilder (tb_from b) (tb_to b) nonce (tb_value b) (tb_data b) (tb_gasLimit b) (tb_gasPrice b) (tb_maxFee b) (tb_timestamp b) (tb_chainID b) (tb_version b).
Definition TxBuilder_Value (value : Z) (b : TxBuilder) : TxBuilder :=
  mkTxBuilder (tb_from b) (tb_to b) (tb_nonce b) (Some value) (tb_data b) (tb_gasLimit b) (tb_gasPrice b) (tb_maxFee b) (tb_timestamp b) (tb_chainID b) (tb_version b).
Definition TxBuilder_DataBytes (data : bytes) (b : TxBuilder) : TxBuilder :=
  mkTxBuilder (tb_from b) (tb_to b) (tb_nonce b) (tb_value b) data (tb_gasLimit b) (tb_gasPrice b) (tb_maxFee b) (tb_timestamp b) (tb_chainID b) (tb_version b).
Definition TxBuilder_GasLimit (gasLimit : Z) (b : TxBuilder) : TxBuilder :=
  mkTxBuilder (tb_from b) (tb_to b) (tb_nonce b) (tb_value b) (tb_data b) gasLimit (tb_gasPrice b) (tb_maxFee b) (tb_timestamp b) (tb_chainID b) (tb_version b).
Definition TxBuilder_GasPrice (gasPrice : Z) (b : TxBuilder) : TxBuilder :=
  mkTxBuilder (tb_from b) (tb_to b) (tb_nonce b) (tb_value b) (tb_data b) (tb_gasLimit b) gasPrice (tb_maxFee b) (tb_timestamp b) (tb_chainID b) (tb_version b).
Definition TxBuilder_MaxFee (maxFee : Z) (b : TxBuilder) : TxBuilder :=
  mkTxBuilder (tb_from b) (tb_to b) (tb_nonce b) (tb_value b) (tb_data b) (tb_gasLimit b) (tb_gasPrice b) maxFee (tb_timestamp b) (tb_chainID b) (tb_version b).
Definition TxBuilder_ChainID (chainID : Z) (b : TxBuilder) : TxBuilder :=
  mkTxBuilder (tb_from b) (tb_to b) (tb_nonce b) (tb_value b) (tb_data b) (tb_gasLimit b) (tb_gasPrice b) (tb_maxFee b) (tb_timestamp b) chainID (tb_version b).

(** Data that is not hexadecimal is taken as it is. *)
Definition TxBuilder_Data (data : string) (b : TxBuilder) : TxBuilder :=
  TxBuilder_DataBytes match hex_decode (str_bytes data) with Some d => d | None => str_bytes data end b.

(** The sign of the value is dropped; a value of more than 32 bytes makes the
    slice expression panic; the length of the data is a single byte. *)
Definition encodeTransferPayload (recipient : Address) (value : Z) (data : bytes) : res bytes :=
  let valueBytes := big_bytes (Z.abs value) in
  if bool_decide (32 < length valueBytes)%nat then Panic else
  let valuePadded := replicate (32 - length valueBytes) x00 ++ valueBytes in
  Ok (arr_bytes recipient ++ valuePadded ++ [z2b (u8 (Z.of_nat (length data)))] ++ data).

Definition Build : go TxBuilder Transaction :=
  b ← gets id;
  guard_err (bool_decide (tb_from b = "")) ErrInvalidParams;;
  sender ← wrap "invalid sender address" (lift (ParseAddress (tb_from b)));
  recipient ← (if bool_decide (tb_to b = "") then mret ZeroAddress
               else wrap "invalid recipient address" (lift (ParseAddress (tb_to b))));
  modify (λ b, if tb_maxFee b =? 0 then TxBuilder_MaxFee (u64 (tb_gasLimit b * tb_gasPrice b)) b else b);;
  maxFee ← gets tb_maxFee;
  payload ← lift (encodeTransferPayload recipient (default 0 (tb_value b)) (tb_data b));
  mret (NewTransaction (tb_version b) (tb_chainID b) sender (tb_nonce b) payload [] maxFee (tb_gasLimit b) (tb_timestamp b)).

Definition SignAndBuild `{Ed25519} (key : KeyPair) : go TxBuilder Transaction :=
  tx ← Build;
  wrap "sign transaction" (lift (KeyPair_Sign (H := SHA256Hasher) key tx)).

Definition SignTransaction `{Ed25519} (tx : Transaction) (key : KeyPair) : res Transaction := KeyPair_Sign (H := SHA256Hasher) key tx.

Definition TransactionToHex (tx : Transaction) : res string :=
  data ← encode_bytes (Transaction_Encode tx);
  Ok (hex data).

Definition ParseTransaction (hexStr : string) : res Transaction :=
  match hex_decode (str_bytes hexStr) with
  | None => Err ErrHex
  | Some data => run_reader Transaction_Decode data
  end.

(** What the SDK shows of a transaction; the value is the whole payload read
    as a number. *)
Record SDKTransaction := mkSDKTransaction {
  st_Hash : string;
  st_Sender : string;
  st_Recipient : string;
  st_Nonce : Z;
  st_Value : string;
  st_MaxFee : string;
  st_GasLimit : Z;
  st_Data : string;
}.

Definition transactionToSDK (tx : Transaction) : SDKTransaction :=
  {| st_Hash := hex (tx_IntentID tx); st_Sender := Address_String (tx_Sender tx);
     st_Recipient := if bool_decide (20 <= length (tx_Payload tx))%nat
                     then Address_String (arr_copy 20 (take 20 (tx_Payload tx))) else "";
     st_Nonce := tx_Nonce tx; st_Value := dec (unbe (tx_Payload tx)); st_MaxFee := dec (tx_MaxFee tx);
     st_GasLimit := tx_GasLimit tx; st_Data := hex (tx_Payload tx) |}.

(** ** Lemmas *)

(** *** Hexadecimal *)

(** A digit is neither the end of a line nor outside of ASCII. *)
Definition plain (b : byte) : Prop := b ≠ x0a ∧ b ≠ x0d ∧ b2z b < 128.

Lemma hex_char_plain d : 0 <= d < 16 → plain (Ascii.byte_of_ascii (hex_char d)).
Proof. revert d. apply nibble_cases. intros n Hn. do 16 (destruct n as [|n]; [done|]). lia. Qed.

Lemma hex_plain l : Forall plain (str_bytes (hex l)).
Proof.
  induction l as [|b l IH]; [constructor|].
  change (str_bytes (hex (b :: l)))
    with (Ascii.byte_of_ascii (hex_char (b2z b / 16)) :: Ascii.byte_of_ascii (hex_char (b2z b mod 16)) :: str_bytes (hex l)).
  destruct (nibbles b). constructor; [|constructor; [|done]]; by apply hex_char_plain.
Qed.

Lemma hex_nonempty l : l ≠ [] → str_bytes (hex l) ≠ [].
Proof. by destruct l. Qed.

(** *** Lines *)

Lemma split_plain line l rest : Forall plain l → fold_left split_step l (line :: rest) = (line ++ l) :: rest.
Proof.
  intros Hl. revert line. induction Hl as [|b l (Hn & Hr & Ha) _ IH]; intros line; [by rewrite app_nil_r|].
  cbn [fold_left]. unfold split_step at 2. rewrite !bool_decide_eq_false_2 by done.
  unfold byte_string. destruct (Z.ltb_spec (b2z b) 128); [|lia]. by rewrite IH, <- app_assoc.
Qed.

Lemma split_first l : Forall plain l → l ≠ [] → fold_left split_step l [] = [l].
Proof.
  destruct 1 as [|b l (Hn & Hr & Ha) Hl]; [done|]. intros _. cbn [fold_left]. unfold split_step at 2.
  rewrite !bool_decide_eq_false_2 by done. unfold byte_string. destruct (Z.ltb_spec (b2z b) 128); [|lia]. by rewrite split_plain.
Qed.

Lemma split_line line l rest :
  Forall plain l → l ≠ [] → line ≠ [] → fold_left split_step (newline ++ l) (line :: rest) = l :: line :: rest.
Proof.
  intros Hl _ Hline. unfold newline. cbn [app fold_left]. unfold split_step at 2. rewrite bool_decide_eq_true_2 by done.
  destruct line as [|c line]; [done|]. by rewrite split_plain.
Qed.

Lemma splitLines_three l1 l2 l3 :
  Forall plain l1 → Forall plain l2 → Forall plain l3 → l1 ≠ [] → l2 ≠ [] → l3 ≠ [] →
  splitLines (l1 ++ newline ++ l2 ++ newline ++ l3 ++ newline) = [l1; l2; l3].
Proof.
  intros P1 P2 P3 N1 N2 N3. unfold splitLines. rewrite fold_left_app, split_first by done.
  rewrite (app_assoc newline l2), fold_left_app, split_line by done.
  rewrite (app_assoc newline l3), fold_left_app, split_line by done.
  cbn. by destruct l3.
Qed.

Lemma key_line_hex what n l : length l = n → key_line what n (str_bytes (hex l)) = Ok l.
Proof. intros Hl. unfold key_line. rewrite hex_decode_hex. by rewrite bool_decide_eq_true_2. Qed.

Lemma key_line_inv what n line b : key_line what n line = Ok b → length b = n.
Proof. unfold key_line. destruct (hex_decode line); [|done]. case_bool_decide; [|done]. by intros [= <-]. Qed.

(** *** Transactions of the builder *)

(** The leading bytes of a number. *)
Lemma unbe_take_be k n v : fits (k + n) v → unbe (take k (be (k + n) v)) = v / 256 ^ Z.of_nat n.
Proof.
  intros Hf. pose proof (pow256_pos n) as Hp. pose proof (take_drop k (be (k + n) v)) as E. apply (f_equal unbe) in E.
  rewrite unbe_app, length_drop, length_be, (unbe_be_small (k + n)) in E by done.
  replace (k + n - k)%nat with n in E by lia.
  pose proof (unbe_range (drop k (be (k + n) v))) as Hr. rewrite length_drop, length_be in Hr. replace (k + n - k)%nat with n in Hr by lia.
  apply (Z.div_unique _ _ _ (unbe (drop k (be (k + n) v)))); [by left|]. lia.
Qed.

Lemma payload_length recipient value data payload : encodeTransferPayload recipient value data = Ok payload → (28 <= length payload)%nat.
Proof.
  unfold encodeTransferPayload. case_bool_decide; [done|]. intros [= <-]. rewrite !length_app, arr_length, length_replicate. cbn. lia.
Qed.

(** The first eight of the 32 bytes of the value are what the node takes for
    the amount. *)
Lemma payload_fields recipient value data :
  0 <= value < 2 ^ 256 →
  ∃ payload, encodeTransferPayload recipient value data = Ok payload ∧ arr_copy 20 (take 20 payload) = recipient ∧
    unbe (take 8 (drop 20 payload)) = value / 2 ^ 192.
Proof.
  intros Hv. assert (fits 32 value) as Hf by (unfold fits; change (256 ^ Z.of_nat 32) with (2 ^ 256); lia).
  unfold encodeTransferPayload. rewrite Z.abs_eq by lia. pose proof (length_big_bytes_le 32 value Hf) as Hlen.
  rewrite bool_decide_eq_false_2 by lia. eexists. split; [reflexivity|].
  rewrite (pad_big_bytes 32) by done. split.
  - rewrite take_app_length' by (by rewrite arr_length). apply arr_copy_arr.
  - rewrite drop_app_length' by (by rewrite arr_length). rewrite take_app_le by (rewrite length_be; lia).
    apply (unbe_take_be 8 24). exact Hf.
Qed.

(** The conditions under which the builder and the node work on a transfer from
    the account of the key. *)
Record sendable `{Ed25519} (key : KeyPair) (to : Address) (value now : Z) (acc : Account) (b : TxBuilder) : Prop := {
  sb_from : tb_from b = Address_String (KeyPair_Address key);
  sb_to : tb_to b = Address_String to;
  sb_value : tb_value b = Some value;
  sb_range : 0 <= value < 2 ^ 256;
  sb_nonce : tb_nonce b = u64 (acc_Nonce acc + 1);
  sb_nonzero : tb_nonce b ≠ 0;
  sb_fee : 0 < tb_maxFee b < 2 ^ 64;
  sb_time : ValidateTimestamp now (tb_timestamp b) = Ok tt;
  sb_public : acc_PublicKey acc = kp_PublicKey key;
  sb_verifies : ∀ msg, ed25519_Verify (kp_PublicKey key) msg (ed25519_Sign (kp_PrivateKey key) msg) = true;
  sb_nonempty : ∀ msg, ed25519_Sign (kp_PrivateKey key) msg ≠ [];
}.

Lemma Address_String_nonempty a : Address_String a ≠ "".
Proof. apply base58Encode_nonempty. Qed.

Lemma Build_ok `{Ed25519} key to value now acc b :
  sendable key to value now acc b →
  ∃ payload, encodeTransferPayload to value (tb_data b) = Ok payload ∧
    Build b = (b, Ok (NewTransaction (tb_version b) (tb_chainID b) (KeyPair_Address key) (tb_nonce b) payload [] (tb_maxFee b)
                        (tb_gasLimit b) (tb_timestamp b))).
Proof.
  intros [Hf Ht Hv Hr _ _ Hm _ _ _ _]. destruct (payload_fields to value (tb_data b) Hr) as (payload & Hp & _). exists payload.
  split; [done|]. unfold Build. rewrite (go_bind_ok _ _ b b b) by done.
  rewrite Hf, Ht, Hv. unfold default, from_option. cbn [id].
  rewrite (go_bind_ok _ _ b b tt) by (unfold guard_err; by rewrite bool_decide_eq_false_2 by apply Address_String_nonempty).
  rewrite (go_bind_ok _ _ b b (KeyPair_Address key)) by (apply wrap_ok; unfold lift; by rewrite Address_String_parse).
  rewrite (go_bind_ok _ _ b b to).
  2:{ rewrite bool_decide_eq_false_2 by apply Address_String_nonempty. apply wrap_ok. unfold lift. by rewrite Address_String_parse. }
  assert ((modify (λ b, if tb_maxFee b =? 0 then TxBuilder_MaxFee (u64 (tb_gasLimit b * tb_gasPrice b)) b else b) : go TxBuilder unit) b = (b, Ok tt)) as Hmod.
  { unfold modify. destruct (Z.eqb_spec (tb_maxFee b) 0); [lia|done]. }
  rewrite (go_bind_ok _ _ _ _ _ Hmod), (go_bind_ok _ _ b b (tb_maxFee b)) by done.
  by rewrite (go_bind_ok _ _ b b payload) by (unfold lift; by rewrite Hp).
Qed.

(** The transaction with another recipient and amount, but the intent id and
    the signature it had. *)
Definition redirect (a : Address) (v : Z) (tx : Transaction) : Transaction :=
  {| tx_Version := tx_Version tx; tx_ChainID := tx_ChainID tx; tx_IntentID := tx_IntentID tx; tx_Sender := tx_Sender tx;
     tx_Nonce := tx_Nonce tx; tx_Payload := arr_bytes a ++ be 8 v; tx_Constraints := tx_Constraints tx; tx_MaxFee := tx_MaxFee tx;
     tx_GasLimit := tx_GasLimit tx; tx_Timestamp := tx_Timestamp tx; tx_Signature := tx_Signature tx; tx_TxType := tx_TxType tx |}.

(** What a transfer that is admitted and funded does to the two balances. *)
Lemma transfer_moves {S} `{StakingStore S} `{Ed25519} now height tx (s : S) acc :
  is_transfer tx → balances_ok s → is_u64 (tx_MaxFee tx) → admitted now tx s acc → transfer_funded tx s acc →
  payload_to tx ≠ tx_Sender tx →
  ∃ s', ApplyTransaction now tx height s = (s', Ok (tx_IntentID tx)) ∧
    balance_at s' (payload_to tx) = balance_at s (payload_to tx) + payload_amount tx ∧
    balance_at s' (tx_Sender tx) = balance_at s (tx_Sender tx) - payload_amount tx - tx_MaxFee tx.
Proof.
  intros Ht Hs Hf Ha Hfu Hne.
  destruct (ApplyTransaction_transfer now tx height s Ht Hs Hf) as [(r & _ & _ & Hno)|(acc' & s' & _ & _ & Hr & _)]; [by destruct (Hno acc)|].
  exists s'. split; [done|]. by destruct (transfer_effect now height tx s s' (tx_IntentID tx) Ht Hs Hf Hne Hr) as (-> & -> & _).
Qed.

(** ** Properties *)

(** A transfer that the SDK builds and signs is applied by the node, but
    the two sides disagree on the format of the amount: the node takes the
    first eight of the 32 bytes for it. So the recipient receives the value
    divided by 2^192, which is nothing for every value that exists, and the
    sender pays the fee. *)
Theorem sdk_transfer_moves_nothing {S} `{StakingStore S} `{Ed25519} (key : KeyPair) (to : Address) (value now height : Z) (acc : Account)
    (b : TxBuilder) (s : S) :
  let sender := KeyPair_Address key in
  sendable key to value now acc b → balances_ok s → acc_map s !! sender = Some acc → to ≠ sender →
  tb_maxFee b + value / 2 ^ 192 <= acc_Balance acc → balance_at s to + value / 2 ^ 192 < 2 ^ 128 →
  ∃ tx s', SignAndBuild key b = (b, Ok tx) ∧ ApplyTransaction now tx height s = (s', Ok (tx_IntentID tx)) ∧
    balance_at s' to = balance_at s to + value / 2 ^ 192 ∧
    balance_at s' sender = balance_at s sender - value / 2 ^ 192 - tb_maxFee b.
Proof.
  intros sender Hb Hs Hacc Hne Hfund Hover. destruct (Build_ok key to value now acc b Hb) as (payload & Hp & Hbuild).
  destruct (payload_fields to value (tb_data b) (sb_range _ _ _ _ _ _ Hb)) as (payload' & Hp' & Hto & Hamt).
  rewrite Hp in Hp'. injection Hp' as <-. pose proof (payload_length _ _ _ _ Hp) as Hlen.
  destruct Hb as [_ _ _ Hrange Hn Hnz Hfee Htime Hpub Hver Hsig].
  set (unsigned := NewTransaction _ _ _ _ _ _ _ _ _) in Hbuild.
  set (id := Sum256 (intent_preimage unsigned)).
  set (tx := {| tx_Version := tb_version b; tx_ChainID := tb_chainID b; tx_IntentID := id; tx_Sender := sender; tx_Nonce := tb_nonce b;
    tx_Payload := payload; tx_Constraints := []; tx_MaxFee := tb_maxFee b; tx_GasLimit := tb_gasLimit b; tx_Timestamp := tb_timestamp b;
    tx_Signature := ed25519_Sign (kp_PrivateKey key) id; tx_TxType := TxTypeStandard |}).
  assert (SignAndBuild key b = (b, Ok tx)) as Hsb by (unfold SignAndBuild; by rewrite (go_bind_ok _ _ _ _ _ Hbuild)).
  assert (payload_to tx = to ∧ payload_amount tx = value / 2 ^ 192) as [Et Ea] by done.
  exists tx. destruct (transfer_moves now height tx s acc) as (s' & Hr & Hb1 & Hb2).
  - by split.
  - done.
  - unfold is_u64. cbn. lia.
  - split; cbn; [|done| |done|].
    + unfold Transaction_Validate. cbn. rewrite arr_length, bool_decide_eq_true_2 by done. cbn [negb].
      rewrite (proj2 (Z.eqb_neq _ _)) by done. rewrite bool_decide_eq_false_2 by (by intros E%nil_length_inv%Hsig).
      rewrite Htime. by rewrite (proj2 (Z.eqb_neq _ _)) by lia.
    + rewrite Hpub. apply Hver.
    + pose proof (Z.div_pos value (2 ^ 192) (proj1 Hrange) ltac:(lia)). lia.
  - unfold transfer_funded. rewrite Et, Ea. done.
  - by rewrite Et.
  - exists s'. rewrite Et, Ea in Hb1. rewrite Ea in Hb2. done.
Qed.

(** C38: the intent id that is signed is never compared with the transaction. Of
    an admitted transfer anybody can replace the recipient and the amount: with
    the signature of the sender the node moves any amount the sender can pay
    to any other account. *)
Theorem forged_transfer_applied {S} `{StakingStore S} `{Ed25519} (now height : Z) (tx : Transaction) (s : S) (acc : Account) (a : Address) (v : Z) :
  admitted now tx s acc → tx_TxType tx = TxTypeStandard → balances_ok s → is_u64 (tx_MaxFee tx) → is_u64 v → a ≠ tx_Sender tx →
  tx_MaxFee tx + v <= acc_Balance acc → balance_at s a + v < 2 ^ 128 →
  ∃ s', ApplyTransaction now (redirect a v tx) height s = (s', Ok (tx_IntentID tx)) ∧
    balance_at s' a = balance_at s a + v ∧ balance_at s' (tx_Sender tx) = balance_at s (tx_Sender tx) - v - tx_MaxFee tx.
Proof.
  intros Ha Hty Hs Hf Hv Hne Hfund Hover.
  assert (payload_to (redirect a v tx) = a ∧ payload_amount (redirect a v tx) = v) as [Et Ea].
  { unfold payload_to, payload_amount. cbn [redirect tx_Payload]. rewrite take_app_length', drop_app_length' by (by rewrite arr_length).
    rewrite (take_ge (be 8 v)) by (rewrite length_be; lia). split; [apply arr_copy_arr|]. by apply unbe_be_small, fits_u64. }
  destruct (transfer_moves now height (redirect a v tx) s acc) as (s' & Hr & Hb1 & Hb2).
  - split; [done|]. cbn [redirect tx_Payload]. rewrite length_app, arr_length, length_be. lia.
  - done.
  - done.
  - by destruct Ha; split.
  - unfold transfer_funded. rewrite Et, Ea. done.
  - by rewrite Et.
  - exists s'. rewrite Et, Ea in Hb1. rewrite Ea in Hb2. done.
Qed.

(** A validator key file is read back as it was saved, and whatever file is
    accepted, its three parts belong together. *)
Theorem validator_key_file (priv : bytes) :
  (length priv = 64%nat →
   LoadValidatorKey (SaveValidatorKey priv (private_Public priv))
   = Ok {| vk_PrivateKey := priv; vk_PublicKey := private_Public priv; vk_Address := deriveAddress (private_Public priv) |}) ∧
  ∀ data k, LoadValidatorKey data = Ok k →
    length (vk_PrivateKey k) = 64%nat ∧ vk_PublicKey k = private_Public (vk_PrivateKey k) ∧ vk_Address k = deriveAddress (vk_PublicKey k).
Proof.
  split.
  - intros Hl. assert (length (private_Public priv) = 32%nat) as Hp by (unfold private_Public; rewrite length_drop; lia).
    unfold LoadValidatorKey, SaveValidatorKey. rewrite splitLines_three.
    2-4: apply hex_plain.
    2-4: apply hex_nonempty; intros E; apply (f_equal length) in E; rewrite ?Hl, ?Hp, ?arr_length in E; done.
    rewrite !key_line_hex by (done || apply arr_length). cbn [mbind res_bind]. rewrite arr_copy_arr, !bool_decide_eq_true_2 by done. done.
  - intros data k. unfold LoadValidatorKey. destruct (splitLines data) as [|l1 [|l2 [|l3 rest]]]; [done..|].
    destruct (key_line _ 64 l1) as [priv'| |] eqn:E1; [|done..]. destruct (key_line _ 32 l2) as [pub| |]; [|done..].
    destruct (key_line _ 20 l3) as [addr| |]; [|done..]. cbn [mbind res_bind].
    case_bool_decide as Hpub; [|done]. case_bool_decide as Haddr; [|done]. intros [= <-]. cbn.
    split; [by eapply key_line_inv|]. split; [by apply hex_inj|done].
Qed.

(** The hexadecimal form of a transaction is parsed back. *)
Theorem tx_hex_roundtrip (tx : Transaction) :
  Transaction_wf tx → ∃ s, TransactionToHex tx = Ok s ∧ ParseTransaction s = Ok tx.
Proof.
  intros Hwf. exists (hex (wire (Transaction_Encode tx))). unfold TransactionToHex, ParseTransaction. rewrite hex_decode_hex.
  rewrite (encode_bytes_emits _ _ (rt_emits tx Hwf)). split; [done|]. unfold run_reader.
  pose proof (rt_parses tx Hwf []) as Hp. rewrite app_nil_r in Hp. by rewrite Hp.
Qed.

(** ** Examples *)

(** Keys whose two halves are equal, with the echo of the public half for a
    signature. *)
Definition half_ed25519 : Ed25519 :=
  {| ed25519_Sign privKey msg := drop 32 privKey ++ msg;
     ed25519_Verify pubKey msg sig := bool_decide (sig = pubKey ++ msg) |}.

Definition sdk_key : KeyPair := mkKeyPair (arr_copy 32 (replicate 32 x05)) (arr_copy 64 (replicate 64 x05)).

Definition sdk_account : Account := set_balance (NewAccount (KeyPair_Address sdk_key) (kp_PublicKey sdk_key)) 5000000.

Definition sdk_state : InMemoryState := acc_put (KeyPair_Address sdk_key) sdk_account NewInMemoryState.

Definition sdk_builder (value : Z) : TxBuilder :=
  TxBuilder_Value value (TxBuilder_To (Address_String (addr_of 2)) (TxBuilder_From (Address_String (KeyPair_Address sdk_key))
    (TxBuilder_MaxFee 21000 (TxBuilder_Nonce 1 (NewTxBuilder 100))))).

Lemma sdk_state_ok : balances_ok sdk_state.
Proof. unfold sdk_state. apply balances_ok_put; [|done]. intros a acc. by store. Qed.

Lemma sdk_builder_sendable : sendable (H := half_ed25519) sdk_key (addr_of 2) 1000000 101 sdk_account (sdk_builder 1000000).
Proof.
  split; try done; try (cbn; lia).
  - intros msg. apply bool_decide_eq_true_2. done.
Qed.

Lemma sdk_transfer_moves_nothing_witness :
  ∃ tx s', SignAndBuild (H := half_ed25519) sdk_key (sdk_builder 1000000) = (sdk_builder 1000000, Ok tx) ∧
    ApplyTransaction (H1 := half_ed25519) 101 tx 7 sdk_state = (s', Ok (tx_IntentID tx)) ∧
    balance_at s' (addr_of 2) = 0 ∧ balance_at s' (KeyPair_Address sdk_key) = 5000000 - 21000.
Proof.
  destruct (sdk_transfer_moves_nothing (H2 := half_ed25519) sdk_key (addr_of 2) 1000000 101 7 sdk_account (sdk_builder 1000000) sdk_state)
    as (tx & s' & H1 & H2 & H3 & H4).
  - exact sdk_builder_sendable.
  - exact sdk_state_ok.
  - vm_compute. reflexivity.
  - vm_compute. discriminate.
  - vm_compute. discriminate.
  - vm_compute. reflexivity.
  - exists tx, s'. rewrite H3, H4. split_and!; [exact H1|exact H2|vm_compute; reflexivity..].
Defined.

Lemma forged_transfer_applied_witness :
  ∃ s', ApplyTransaction (H1 := echo_ed25519) 101 (redirect (addr_of 3) 90 sample_transfer) 7 two_accounts = (s', Ok ZeroHash) ∧
    balance_at s' (addr_of 3) = 90 ∧ balance_at s' (addr_of 1) = 0.
Proof.
  destruct (forged_transfer_applied (H2 := echo_ed25519) 101 7 sample_transfer two_accounts (acct (addr_of 1) 100) (addr_of 3) 90)
    as (s' & H1 & H2 & H3).
  - split; vm_compute; reflexivity || discriminate.
  - reflexivity.
  - exact two_accounts_ok.
  - split; vm_compute; reflexivity || discriminate.
  - split; vm_compute; reflexivity || discriminate.
  - vm_compute. discriminate.
  - vm_compute. discriminate.
  - vm_compute. reflexivity.
  - exists s'. rewrite H2. split; [exact H1|]. split; [vm_compute; reflexivity|].
    transitivity (balance_at two_accounts (addr_of 1) - 90 - 10); [exact H3|vm_compute; reflexivity].
Defined.

Lemma validator_key_file_witness :
  LoadValidatorKey (SaveValidatorKey (replicate 64 x05) (replicate 32 x05))
  = Ok {| vk_PrivateKey := replicate 64 x05; vk_PublicKey := replicate 32 x05; vk_Address := deriveAddress (replicate 32 x05) |}.
Proof. apply (proj1 (validator_key_file (replicate 64 x05))). reflexivity. Defined.
