(* ===== verification/Indexer.v ===== *)
(** * The indexer (package indexer)

    Blocks, transactions and events by key in a bbolt database of its own. The
    JSON form of the stored records is a parameter ([Json]). The channel of the
    indexer is the list of blocks that were sent; metrics and log messages are
    left out. *)

From S2P Require Import Prelude Codec Sha256 Address Amount Tx Votes Block Bolt.

(** ** Data *)

Record IndexableBlock := mkIndexableBlock {
  ib_Number : Z;
  ib_Hash : Hash;
  ib_Header : BlockHeader;
  ib_Txns : list Transaction;
  ib_Events : list Event;
  ib_StateRoot : Hash;
}.

Record BlockData := mkBlockData {
  bd_Header : BlockHeader;
  bd_TxCount : Z;
  bd_EventCount : Z;
}.

Record TransactionReceipt := mkTransactionReceipt {
  tr_Hash : Hash;
  tr_Data : Transaction;
  tr_Status : bool;
  tr_GasUsed : Z;
  tr_BlockNumber : Z;
  tr_Events : list Event;
}.

Record EventData := mkEventData {
  ed_Event : Event;
  ed_BlockNumber : Z;
}.

(** The zero value of a field of the filter means that it does not filter. *)
Record EventFilter := mkEventFilter {
  ef_Contract : option Hash;
  ef_Topic0 : string;
  ef_FromBlock : Z;
  ef_ToBlock : Z;
}.

(** encoding/json for one type. *)
Class Json (A : Type) : Type := {
  json_Marshal : A → res bytes;
  json_Unmarshal : bytes → res A;
}.

(** ** Keys (indexer/types.go, indexer/schema.go) *)

Definition Uint64ToBigEndian (n : Z) : bytes := be 8 n.

(** [binary.BigEndian.Uint64] reads the first eight bytes and panics if there
    are fewer. *)
Definition BigEndianToUint64 (b : bytes) : res Z :=
  if bool_decide (length b < 8)%nat then Panic else Ok (unbe (take 8 b)).

Definition encodeBlockNumber (height : Z) : bytes := Uint64ToBigEndian height.

Definition EventsIndexKey (contractID : Hash) (topic : string) (blockNumber txIndex : Z) : bytes :=
  take 20 contractID ++ Sum256 (str_bytes topic) ++ be 8 blockNumber ++ be 4 txIndex.

Definition blocksBucket : bytes := str_bytes "blocks".
Definition transactionsBucket : bytes := str_bytes "transactions".
Definition eventsBucket : bytes := str_bytes "events".
Definition validatorsBucket : bytes := str_bytes "validators".
Definition stateBucket : bytes := str_bytes "state".
Definition latestIndexedHeightKey : bytes := str_bytes "latest_indexed_height".

(** [node]: the block retriever, if there is one. *)
Record Indexer (DB : Type) := mkIndexer {
  ix_db : DB;
  ix_ch : list IndexableBlock;
  ix_height : Z;
  ix_enabled : bool;
  ix_blockRetriever : option (Z → res Block);
}.
Arguments mkIndexer {DB}.
Arguments ix_db {DB}.
Arguments ix_ch {DB}.
Arguments ix_height {DB}.
Arguments ix_enabled {DB}.
Arguments ix_blockRetriever {DB}.

(** [b.Get(key)], where the bucket may be missing. *)
Definition get_entry (b : option (gmap bytes bytes)) (key : bytes) : option bytes :=
  match b with Some m => m !! key | None => None end.

Section indexer.
Context {DB Tx_ : Type} `{BoltDB DB Tx_} `{Json BlockData} `{Json TransactionReceipt} `{Json EventData}.

Definition initSchema : go DB unit :=
  Update (
    CreateBucketIfNotExists blocksBucket;;
    CreateBucketIfNotExists transactionsBucket;;
    CreateBucketIfNotExists eventsBucket;;
    CreateBucketIfNotExists validatorsBucket;;
    CreateBucketIfNotExists stateBucket).

Definition getLatestIndexedHeight : go DB Z :=
  View (
    b ← Bucket stateBucket;
    match get_entry b latestIndexedHeightKey with
    | Some data => if bool_decide (length data = 8%nat) then lift (BigEndianToUint64 data) else mret 0
    | None => mret 0
    end).

Definition setLatestIndexedHeight (height : Z) : go DB unit :=
  Update (
    CreateBucketIfNotExists stateBucket;;
    Put stateBucket latestIndexedHeightKey (Uint64ToBigEndian height)).

(** ** Writing (indexer/blocks.go, transactions.go, events.go, indexer.go) *)

Definition block_data (ib : IndexableBlock) : BlockData :=
  mkBlockData (ib_Header ib) (Z.of_nat (length (ib_Txns ib))) (Z.of_nat (length (ib_Events ib))).

(** The functions of blocks.go, transactions.go and events.go that write one
    record each. *)
Definition put_block (ib : IndexableBlock) : go DB unit :=
  Update (
    CreateBucketIfNotExists blocksBucket;;
    serialized ← lift (json_Marshal (block_data ib));
    Put blocksBucket (encodeBlockNumber (ib_Number ib)) serialized).

Definition indexTransaction (tx : Transaction) (blockNumber : Z) (events : list Event) : go DB unit :=
  Update (
    CreateBucketIfNotExists transactionsBucket;;
    serialized ← lift (json_Marshal (mkTransactionReceipt (tx_IntentID tx) tx true (tx_GasLimit tx) blockNumber events));
    Put transactionsBucket (tx_IntentID tx) serialized).

Definition indexEvent (event : Event) : go DB unit :=
  Update (
    CreateBucketIfNotExists eventsBucket;;
    serialized ← lift (json_Marshal (mkEventData event (ev_BlockHeight event)));
    Put eventsBucket (EventsIndexKey (ev_ContractID event) (ev_Topic event) (ev_BlockHeight event) (ev_TxIndex event)) serialized).

(** The receipt and the record of an event that [indexBlock] stores. *)
Definition block_receipt (number : Z) (tx : Transaction) : TransactionReceipt :=
  mkTransactionReceipt (tx_IntentID tx) tx true (tx_GasLimit tx) number [].

Definition event_key (number : Z) (event : Event) : bytes :=
  EventsIndexKey (ev_ContractID event) (ev_Topic event) number (ev_TxIndex event).

Definition indexBlock (ib : IndexableBlock) : go DB unit :=
  Update (
    CreateBucketIfNotExists blocksBucket;;
    serialized ← lift (json_Marshal (block_data ib));
    Put blocksBucket (encodeBlockNumber (ib_Number ib)) serialized;;
    CreateBucketIfNotExists transactionsBucket;;
    for_each (ib_Txns ib) (λ tx,
      txSerialized ← lift (json_Marshal (block_receipt (ib_Number ib) tx));
      Put transactionsBucket (tx_IntentID tx) txSerialized);;
    CreateBucketIfNotExists eventsBucket;;
    for_each (ib_Events ib) (λ event,
      eventSerialized ← lift (json_Marshal (mkEventData event (ib_Number ib)));
      Put eventsBucket (event_key (ib_Number ib) event) eventSerialized);;
    CreateBucketIfNotExists stateBucket;;
    Put stateBucket latestIndexedHeightKey (Uint64ToBigEndian (ib_Number ib))).

(** ** Reading *)

(** [bucket.Get(key)] and [json.Unmarshal], nil without the bucket or the
    entry. *)
Definition get_json {A} `{Json A} (name key : bytes) : go DB (option A) :=
  View (
    b ← Bucket name;
    match get_entry b key with
    | Some serialized => a ← lift (json_Unmarshal serialized : res A); mret (Some a)
    | None => mret None
    end).

Definition GetBlock (height : Z) : go DB (option BlockData) := get_json blocksBucket (encodeBlockNumber height).

Definition GetTransaction (hash : Hash) : go DB (option TransactionReceipt) := get_json transactionsBucket hash.

Definition decoded {A} `{Json A} (v : bytes) : option A :=
  match json_Unmarshal v with Ok a => Some a | _ => None end.

Definition GetTransactionsByBlock (blockNumber : Z) : go DB (list TransactionReceipt) :=
  View (
    b ← Bucket transactionsBucket;
    mret match b with
         | None => []
         | Some m => List.filter (λ r, tr_BlockNumber r =? blockNumber) (omap (λ e, decoded e.2) (entries m))
         end).

Definition event_prefix (f : EventFilter) : option bytes :=
  match ef_Contract f with
  | None => None
  | Some contract => Some (take 20 contract ++ (if bool_decide (ef_Topic0 f = "") then [] else Sum256 (str_bytes (ef_Topic0 f))))
  end.

(** The checks of one key in the loop of [GetEvents]. *)
Definition event_matches (f : EventFilter) (k : bytes) : bool :=
  let blockNum := unbe (take 8 (drop 52 k)) in
  bool_decide (64 <= length k)%nat
  && negb ((0 <? ef_FromBlock f) && (blockNum <? ef_FromBlock f))
  && negb ((0 <? ef_ToBlock f) && (ef_ToBlock f <? blockNum))
  && negb (bool_decide (ef_Contract f = None) && bool_decide (ef_Topic0 f ≠ "")
           && bool_decide (take 32 (drop 20 k) ≠ Sum256 (str_bytes (ef_Topic0 f)))).

Fixpoint scan_events (f : EventFilter) (prefix : option bytes) (l : list (bytes * bytes)) : list EventData :=
  match l with
  | [] => []
  | (k, v) :: l =>
      if match prefix with Some p => negb (bool_decide (p `prefix_of` k)) | None => false end then [] else
      if event_matches f k then
        match json_Unmarshal v with
        | Ok ed => ed :: scan_events f prefix l
        | _ => scan_events f prefix l
        end
      else scan_events f prefix l
  end.

Definition GetEvents (f : EventFilter) : go DB (list EventData) :=
  View (
    b ← Bucket eventsBucket;
    mret match b with
         | None => []
         | Some m => scan_events f (event_prefix f) (seek (default [] (event_prefix f)) m)
         end).

Definition GetEventsByBlock (blockNumber : Z) : go DB (list EventData) := GetEvents (mkEventFilter None "" blockNumber blockNumber).

(** ** The indexer (indexer/indexer.go, indexer/recovery.go) *)

(** [db]: the outcome of opening the database file. *)
Definition New (dataDir : string) (enabled : bool) (db : res DB) : res (option (Indexer DB)) :=
  if negb enabled || bool_decide (dataDir = "") then Ok None else
  match db with
  | Err e => Err (Wrapf "failed to open indexer db" e)
  | Panic => Panic
  | Ok db =>
      match initSchema db with
      | (_, Err e) => Err (Wrapf "failed to init indexer schema" e)
      | (_, Panic) => Panic
      | (db, Ok _) =>
          match getLatestIndexedHeight db with
          | (_, Panic) => Panic
          | (_, r) => Ok (Some (mkIndexer db [] match r with Ok height => height | _ => 0 end true None))
          end
      end
  end.

Definition set_height (h : Z) (idx : Indexer DB) : Indexer DB :=
  mkIndexer (ix_db idx) (ix_ch idx) h (ix_enabled idx) (ix_blockRetriever idx).

Definition Enqueue (ib : IndexableBlock) (idx : option (Indexer DB)) : option (Indexer DB) :=
  (λ idx, if negb (ix_enabled idx) then idx
          else mkIndexer (ix_db idx) (ix_ch idx ++ [ib]) (ix_height idx) (ix_enabled idx) (ix_blockRetriever idx)) <$> idx.

(** [idx.indexBlock(ib)] on the database of the indexer. *)
Definition index_in (ib : IndexableBlock) : go (Indexer DB) unit := λ idx,
  let (db, r) := indexBlock ib (ix_db idx) in
  (mkIndexer db (ix_ch idx) (ix_height idx) (ix_enabled idx) (ix_blockRetriever idx), r).

(** One turn of [run]: the next block of the channel. A block that fails is
    logged and dropped. *)
Definition run_block (ib : IndexableBlock) : go (Indexer DB) unit :=
  r ← try (index_in ib);
  match r with
  | inl _ => mret tt
  | inr _ => modify (λ idx, if ix_height idx <? ib_Number ib then set_height (ib_Number ib) idx else idx)
  end.

(** [run] until the channel is empty: [Stop] closes the channel and waits for
    this. *)
Definition run : go (Indexer DB) unit :=
  ch ← gets ix_ch;
  modify (λ idx, mkIndexer (ix_db idx) [] (ix_height idx) (ix_enabled idx) (ix_blockRetriever idx));;
  for_each ch run_block.

Definition SetBlockRetriever (br : option (Z → res Block)) (idx : option (Indexer DB)) : option (Indexer DB) :=
  (λ idx, mkIndexer (ix_db idx) (ix_ch idx) (ix_height idx) (ix_enabled idx) br) <$> idx.

Definition IsEnabled (idx : option (Indexer DB)) : bool := match idx with Some idx => ix_enabled idx | None => false end.

Definition Height (idx : option (Indexer DB)) : Z := match idx with Some idx => ix_height idx | None => 0 end.

(** [Recover] only reads. *)
Definition Recover (idx : option (Indexer DB)) : res unit :=
  match idx with
  | None => Ok tt
  | Some idx =>
      if negb (ix_enabled idx) || bool_decide (ix_blockRetriever idx = None) then Ok tt
      else match (getLatestIndexedHeight (ix_db idx)).2 with Ok _ => Ok tt | Err e => Err e | Panic => Panic end
  end.

(** The block as [CatchUp] passes it on. *)
Definition indexable (block : Block) : IndexableBlock :=
  mkIndexableBlock (h_Height (b_Header block))
    match HeaderHash (H := SHA256Hasher) (b_Header block) with Ok h => h | _ => ZeroHash end
    (b_Header block) (b_Transactions block) (b_Events block) (h_StateRoot (b_Header block)).

(** One turn of the loop of [CatchUp]. *)
Definition catch_up_one (GetBlock : Z → res Block) (height : Z) : go (Indexer DB) unit :=
  block ← try (lift (GetBlock height));
  match block with
  | inl _ => mret tt
  | inr block =>
      r ← try (index_in (indexable block));
      match r with inl _ => mret tt | inr _ => modify (set_height height) end
  end.

(** [for height := startHeight; height <= tipHeight; height++]: [None] when the
    turns run out. *)
Fixpoint catch_up (turns : nat) (GetBlock : Z → res Block) (height tipHeight : Z) (idx : Indexer DB) : option (Indexer DB * res unit) :=
  match turns with
  | O => None
  | S turns =>
      if tipHeight <? height then Some (idx, Ok tt) else
      match catch_up_one GetBlock height idx with
      | (idx, Ok _) => catch_up turns GetBlock (u64 (height + 1)) tipHeight idx
      | (idx, r) => Some (idx, r)
      end
  end.

Definition CatchUp (turns : nat) (startHeight tipHeight : Z) (idx : option (Indexer DB)) : option (option (Indexer DB) * res unit) :=
  match idx with
  | Some i =>
      match ix_enabled i, ix_blockRetriever i with
      | true, Some GetBlock => prod_map Some id <$> catch_up turns GetBlock startHeight tipHeight i
      | _, _ => Some (idx, Ok tt)
      end
  | None => Some (None, Ok tt)
  end.
End indexer.

(** ** Specification *)

(** The entries that a sequence of writes leaves behind. *)
Definition fold_puts {A B} (key : A → bytes) (val : A → B) (l : list A) : gmap bytes B :=
  fold_left (λ m a, <[key a := val a]> m) l ∅.

(** The last element with a property. *)
Definition find_last {A} (p : A → bool) (l : list A) : option A := head (List.filter p (rev l)).

Definition txs_of (hist : list IndexableBlock) : list (Z * Transaction) :=
  hist ≫= λ ib, pair (ib_Number ib) <$> ib_Txns ib.

Definition events_of (hist : list IndexableBlock) : list EventData :=
  hist ≫= λ ib, (λ e, mkEventData e (ib_Number ib)) <$> ib_Events ib.

Definition data_key (ed : EventData) : bytes := event_key (ed_BlockNumber ed) (ed_Event ed).

(** The events of a history in the order of their keys; of events with the same
    key the last one. *)
Definition stored_events (hist : list IndexableBlock) : list EventData :=
  snd <$> sort_slice (less_by fst) (map_to_list (fold_puts data_key id (events_of hist))).

(** What a filter means for an event. *)
Definition event_wanted (f : EventFilter) (ed : EventData) : bool :=
  match ef_Contract f with Some c => bool_decide (take 20 (ev_ContractID (ed_Event ed)) = take 20 c) | None => true end
  && (bool_decide (ef_Topic0 f = "") || bool_decide (Sum256 (str_bytes (ev_Topic (ed_Event ed))) = Sum256 (str_bytes (ef_Topic0 f))))
  && ((ef_FromBlock f <=? 0) || (ef_FromBlock f <=? ed_BlockNumber ed))
  && ((ef_ToBlock f <=? 0) || (ed_BlockNumber ed <=? ef_ToBlock f)).

(** A value that comes back from its JSON form. *)
Definition json_ok {A} `{Json A} (a : A) : Prop :=
  ∃ b, json_Marshal a = Ok b ∧ json_Unmarshal b = Ok a ∧ Z.of_nat (length b) <= MaxValueSize.

Record ib_ok `{Json BlockData} `{Json TransactionReceipt} `{Json EventData} (ib : IndexableBlock) : Prop := {
  io_number : is_u64 (ib_Number ib);
  io_block : json_ok (block_data ib);
  io_txs : Forall (λ tx, json_ok (block_receipt (ib_Number ib) tx)) (ib_Txns ib);
  io_events : Forall (λ e, json_ok (mkEventData e (ib_Number ib))) (ib_Events ib);
}.

(** A bucket holds the JSON form of a map. *)
Definition holds {A} `{Json A} (m : gmap bytes bytes) (M : gmap bytes A) : Prop :=
  ∀ k, option_Forall2 (λ b a, json_Unmarshal b = Ok a) (m !! k) (M !! k).

Definition number_key (ib : IndexableBlock) : bytes := encodeBlockNumber (ib_Number ib).
Definition pair_key (p : Z * Transaction) : bytes := tx_IntentID p.2.
Definition pair_receipt (p : Z * Transaction) : TransactionReceipt := block_receipt p.1 p.2.

(** The database holds the history. *)
Record indexed {DB Tx_} `{BoltDB DB Tx_} `{Json BlockData} `{Json TransactionReceipt} `{Json EventData}
    (db : DB) (hist : list IndexableBlock) : Prop := {
  in_blocks : holds (bucket_of db blocksBucket) (fold_puts number_key block_data hist);
  in_txs : holds (bucket_of db transactionsBucket) (fold_puts pair_key pair_receipt (txs_of hist));
  in_events : holds (bucket_of db eventsBucket) (fold_puts data_key id (events_of hist));
  in_latest : bucket_of db stateBucket !! latestIndexedHeightKey = number_key <$> last hist;
}.

(** ** Lemmas *)

(** *** Sequences of writes *)

Lemma fold_puts_app {A B} (key : A → bytes) (val : A → B) l k :
  fold_puts key val (l ++ k) = fold_left (λ m a, <[key a := val a]> m) k (fold_puts key val l).
Proof. apply fold_left_app. Qed.

Lemma find_last_snoc {A} (p : A → bool) l x : find_last p (l ++ [x]) = if p x then Some x else find_last p l.
Proof. unfold find_last. rewrite rev_app_distr. cbn. by destruct (p x). Qed.

Lemma fold_puts_lookup {A B} (key : A → bytes) (val : A → B) l k :
  fold_puts key val l !! k = val <$> find_last (λ a, bool_decide (key a = k)) l.
Proof.
  induction l as [|a l IH] using rev_ind; [done|]. rewrite fold_puts_app, find_last_snoc. cbn [fold_left].
  case_bool_decide as E; [by rewrite E, lookup_insert_eq|by rewrite lookup_insert_ne].
Qed.

Lemma find_last_elem {A} (p : A → bool) l x : find_last p l = Some x → x ∈ l ∧ p x = true.
Proof.
  unfold find_last. intros E%head_Some_elem_of. apply elem_of_filter_list in E as [Hx Hp]. split; [|done].
  apply list_elem_of_In, in_rev, list_elem_of_In, Hx.
Qed.

Lemma find_last_ext {A} (p q : A → bool) l : (∀ x, x ∈ l → p x = q x) → find_last p l = find_last q l.
Proof.
  induction l as [|x l IH] using rev_ind; intros Hpq; [done|]. rewrite !find_last_snoc, (Hpq x) by set_solver.
  destruct (q x); [done|]. apply IH. intros y Hy. apply Hpq. set_solver.
Qed.

Lemma holds_insert {A} `{Json A} m M k b (a : A) : json_Unmarshal b = Ok a → holds m M → holds (<[k := b]> m) (<[k := a]> M).
Proof.
  intros Hb Hm k'. destruct (decide (k' = k)) as [->|Hk].
  - rewrite !lookup_insert_eq. by constructor.
  - rewrite !lookup_insert_ne by done. apply Hm.
Qed.

(** *** Prefixes and the order of keys *)

Lemma prefix_not_lt p t : bytes_lt (p ++ t) p = false.
Proof.
  induction p as [|b p IH]; [by destruct t|]. unfold bytes_lt. cbn [app bytes_compare]. rewrite Z.compare_refl. exact IH.
Qed.

(** Past the keys with a prefix there is none any more. *)
Lemma above_prefix p k t : bytes_lt k p = false → ¬ p `prefix_of` k → bytes_lt (p ++ t) k = true.
Proof.
  revert k. induction p as [|b p IH]; intros k Hk Hn; [destruct Hn; apply prefix_nil|].
  destruct k as [|c k]; [done|]. revert Hk. unfold bytes_lt. cbn [app bytes_compare].
  rewrite (Z.compare_antisym (b2z b) (b2z c)). destruct (Z.compare_spec (b2z b) (b2z c)) as [E| |]; cbn; [|done|done].
  apply b2z_inj in E as ->. intros Hk. apply IH; [done|]. intros Hp. by apply Hn, prefix_cons.
Qed.

(** The keys that the loop of [GetEvents] gets past. *)
Definition key_wanted (f : EventFilter) (k : bytes) : bool :=
  match event_prefix f with Some p => bool_decide (p `prefix_of` k) | None => true end && event_matches f k.

Section scans.
Context `{Json EventData}.

Lemma omap_step k v (l : list (bytes * bytes)) :
  omap (λ e, decoded e.2) ((k, v) :: l)
  = match json_Unmarshal v with Ok ed => ed :: omap (λ e, decoded e.2) l | _ => omap (λ e, decoded (A := EventData) e.2) l end.
Proof. unfold decoded at 1. cbn. by destruct (json_Unmarshal v). Qed.

Lemma scan_none f l : event_prefix f = None →
  scan_events f (event_prefix f) l = omap (λ e, decoded e.2) (List.filter (λ e, key_wanted f e.1) l).
Proof.
  intros Hp. unfold key_wanted. rewrite Hp. induction l as [|[k v] l IH]; [done|]. cbn [scan_events List.filter fst].
  change (true && event_matches f k) with (event_matches f k). destruct (event_matches f k); [|done]. rewrite omap_step, <- IH. by destruct (json_Unmarshal v).
Qed.

Lemma scan_some f p l : event_prefix f = Some p →
  StronglySorted (not_after (less_by fst)) l → Forall (λ e, bytes_lt e.1 p = false) l →
  scan_events f (event_prefix f) l = omap (λ e, decoded e.2) (List.filter (λ e, key_wanted f e.1) l).
Proof.
  intros Hp. unfold key_wanted. rewrite Hp. induction 1 as [|[k v] l Hl IH Hx]; [done|]. intros [Hk Hge]%Forall_cons.
  cbn [scan_events List.filter fst]. destruct (bool_decide_reflect (p `prefix_of` k)) as [Hpk|Hpk]; cbn [negb andb].
  - rewrite IH by done. destruct (event_matches f k); [|done]. rewrite omap_step. by destruct (json_Unmarshal v).
  - replace (List.filter _ l) with ([] : list (bytes * bytes)); [done|]. symmetry. clear IH Hge. induction Hx as [|[k' v'] l Hk' _ IH]; [done|].
    cbn [List.filter fst]. rewrite bool_decide_eq_false_2; [apply IH; by apply StronglySorted_inv in Hl as [Hl _]|].
    intros [t ->]. unfold not_after, less_by in Hk'. cbn in Hk'. by rewrite (above_prefix p k t Hk Hpk) in Hk'.
Qed.

Lemma filter_filter_imp {A} (p q : A → bool) l : (∀ x, p x = true → q x = true) → List.filter p (List.filter q l) = List.filter p l.
Proof.
  intros Hpq. induction l as [|x l IH]; [done|]. cbn. destruct (q x) eqn:Eq; cbn; rewrite IH; [done|].
  destruct (p x) eqn:Ep; [|done]. by rewrite (Hpq x Ep) in Eq.
Qed.

(** The prefix scan finds what a scan of the whole bucket finds. *)
Lemma scan_seek f m :
  scan_events f (event_prefix f) (seek (default [] (event_prefix f)) m)
  = omap (λ e, decoded e.2) (List.filter (λ e, key_wanted f e.1) (entries m)).
Proof.
  destruct (event_prefix f) as [p|] eqn:Hp; cbn [default].
  - rewrite <- Hp, (scan_some f p) by (done || apply seek_sorted ||
      (apply Forall_forall; intros [k v] [_ Hk]%elem_of_seek; done)).
    f_equal. apply filter_filter_imp. intros [k v]. unfold key_wanted. rewrite Hp. cbn.
    destruct (bool_decide_reflect (p `prefix_of` k)) as [[t ->]|]; [|done]. by rewrite prefix_not_lt.
  - rewrite <- Hp, scan_none by done. f_equal. unfold seek. apply filter_filter_imp. intros [k v] _. by destruct k.
Qed.
End scans.

(** *** Writing a block *)

Lemma fold_left_fmap {A B C} (f : C → B → C) (g : A → B) l c : fold_left f (g <$> l) c = fold_left (λ c a, f c (g a)) l c.
Proof. revert c. induction l as [|a l IH]; intros c; [done|]. apply IH. Qed.

Lemma event_key_length n e : length (event_key n e) = 64%nat.
Proof. unfold event_key, EventsIndexKey. rewrite !length_app, length_take, !arr_length, !length_be. lia. Qed.

Section refinement.
Context {DB Tx_ : Type} `{BoltLaws DB Tx_, !BoltReliable DB Tx_}.
Implicit Types (db : DB) (tx : Tx_).

Definition short_key (k : bytes) : Prop := 0 < Z.of_nat (length k) <= MaxKeySize.

Lemma put_each {A B} `{Json B} name (key : A → bytes) (val : A → B) l tx m M :
  tx_buckets tx !! name = Some m → holds m M → Forall (λ a, json_ok (val a)) l → (∀ a, short_key (key a)) →
  ∃ tx' m', for_each l (λ a, s ← lift (json_Marshal (val a)); Put name (key a) s) tx = (tx', Ok tt) ∧
    tx_buckets tx' = <[name := m']> (tx_buckets tx) ∧ holds m' (fold_left (λ M a, <[key a := val a]> M) l M).
Proof.
  intros Hm HM Hl Hk. revert tx m M Hm HM. induction Hl as [|a l (b & Hb & Hu & Hlen) _ IH]; intros tx m M Hm HM.
  - exists tx, m. split; [done|]. split; [by rewrite insert_id|done].
  - destruct (Put_ok name (key a) b tx m Hm) as (tx1 & Hp & Hb1); [by split; [apply Hk|]|].
    destruct (IH tx1 (<[key a := b]> m) (<[key a := val a]> M)) as (tx' & m' & Hr & Hb' & Hh).
    + by rewrite Hb1, lookup_insert_eq.
    + by apply holds_insert.
    + exists tx', m'. cbn [for_each fold_left]. split; [|split; [|done]].
      * rewrite (go_bind_ok _ _ tx tx1 tt); [done|]. by rewrite (go_bind_ok _ _ tx tx b) by (unfold lift; by rewrite Hb).
      * by rewrite Hb', Hb1, insert_insert_eq.
Qed.

(** A bucket is created and filled. *)
Lemma fill_bucket {A B} `{Json B} name (key : A → bytes) (val : A → B) l tx M :
  name ≠ [] → holds (default ∅ (tx_buckets tx !! name)) M → Forall (λ a, json_ok (val a)) l → (∀ a, short_key (key a)) →
  ∃ tx' m', (∀ k : go Tx_ unit,
      (CreateBucketIfNotExists name;; (for_each l (λ a, s ← lift (json_Marshal (val a)); Put name (key a) s);; k)) tx = k tx') ∧
    tx_buckets tx' = <[name := m']> (tx_buckets tx) ∧ holds m' (fold_left (λ M a, <[key a := val a]> M) l M).
Proof.
  intros Hn HM Hl Hk. destruct (create_ok name tx Hn) as (tx1 & Hc & Hb1).
  destruct (put_each name key val l tx1 (default ∅ (tx_buckets tx !! name)) M) as (tx' & m' & Hr & Hb & Hh); [|done..|].
  - by rewrite Hb1, with_bucket_lookup, decide_True.
  - exists tx', m'. split; [intros k; by rewrite (go_bind_ok _ _ _ _ _ Hc), (go_bind_ok _ _ _ _ _ Hr)|]. split; [|done]. rewrite Hb, Hb1.
    apply map_eq. intros b. destruct (decide (b = name)) as [->|Hne]; [by rewrite !lookup_insert_eq|].
    by rewrite !lookup_insert_ne, with_bucket_lookup, decide_False by done.
Qed.

Context `{Json BlockData} `{Json TransactionReceipt} `{Json EventData}.

(** The transaction of [indexBlock], with one turn of a loop for the block. *)
Lemma index_tx_ok (t : Tx_) hist ib :
  holds (default ∅ (tx_buckets t !! blocksBucket)) (fold_puts number_key block_data hist) →
  holds (default ∅ (tx_buckets t !! transactionsBucket)) (fold_puts pair_key pair_receipt (txs_of hist)) →
  holds (default ∅ (tx_buckets t !! eventsBucket)) (fold_puts data_key id (events_of hist)) →
  ib_ok ib →
  ∃ t' m1 m2 m3,
    (CreateBucketIfNotExists blocksBucket;;
     (for_each [ib] (λ ib, s ← lift (json_Marshal (block_data ib)); Put blocksBucket (number_key ib) s);;
     (CreateBucketIfNotExists transactionsBucket;;
     (for_each (ib_Txns ib) (λ x, s ← lift (json_Marshal (block_receipt (ib_Number ib) x)); Put transactionsBucket (tx_IntentID x) s);;
     (CreateBucketIfNotExists eventsBucket;;
     (for_each (ib_Events ib) (λ e, s ← lift (json_Marshal (mkEventData e (ib_Number ib))); Put eventsBucket (event_key (ib_Number ib) e) s);;
     (CreateBucketIfNotExists stateBucket;; Put stateBucket latestIndexedHeightKey (number_key ib)))))))) t = (t', Ok tt) ∧
    tx_buckets t' = put_in stateBucket latestIndexedHeightKey (number_key ib)
      (<[eventsBucket := m3]> (<[transactionsBucket := m2]> (<[blocksBucket := m1]> (tx_buckets t)))) ∧
    holds m1 (fold_puts number_key block_data (hist ++ [ib])) ∧
    holds m2 (fold_puts pair_key pair_receipt (txs_of (hist ++ [ib]))) ∧
    holds m3 (fold_puts data_key id (events_of (hist ++ [ib]))).
Proof.
  intros Ib It Ie [Hn Hb Ht He].
  destruct (fill_bucket blocksBucket number_key block_data [ib] t (fold_puts number_key block_data hist)) as (t1 & m1 & R1 & B1 & H1'); [done|exact Ib|by constructor| |].
  { intros a. unfold short_key, number_key, encodeBlockNumber, Uint64ToBigEndian. by rewrite length_be. }
  destruct (fill_bucket transactionsBucket (λ x, arr_bytes (tx_IntentID x)) (block_receipt (ib_Number ib)) (ib_Txns ib) t1
    (fold_puts pair_key pair_receipt (txs_of hist)))
    as (t2 & m2 & R2 & B2 & H2'); [done|rewrite B1, lookup_insert_ne by done; exact It|done| |].
  { intros a. unfold short_key. by rewrite arr_length. }
  destruct (fill_bucket eventsBucket (event_key (ib_Number ib)) (λ e, mkEventData e (ib_Number ib)) (ib_Events ib) t2
    (fold_puts data_key id (events_of hist)))
    as (t3 & m3 & R3 & B3 & H3'); [done|rewrite B2, B1, !lookup_insert_ne by done; exact Ie|done| |].
  { intros a. unfold short_key. by rewrite event_key_length. }
  destruct (create_put stateBucket latestIndexedHeightKey (number_key ib) t3) as (t4 & R4 & B4); [done|split; [done|]|].
  { unfold number_key, encodeBlockNumber, Uint64ToBigEndian. by rewrite length_be. }
  exists t4, m1, m2, m3. split; [rewrite R1, R2, R3; exact R4|]. split; [by rewrite B4, B3, B2, B1|].
  unfold txs_of, events_of. rewrite !bind_app, !fold_puts_app. cbn [mbind list_bind]. rewrite !app_nil_r, !fold_left_fmap. done.
Qed.

Lemma indexed_snoc db hist ib :
  indexed db hist → ib_ok ib → ∃ db', indexBlock ib db = (db', Ok tt) ∧ indexed db' (hist ++ [ib]).
Proof.
  intros [Ib It Ie Il] Hib. destruct (index_tx_ok (db_begin db) hist ib Ib It Ie Hib) as (t' & m1 & m2 & m3 & R & B & H1' & H2' & H3').
  destruct (io_block ib Hib) as (b & Hb & _).
  unfold indexBlock. match goal with |- context [Update ?f db] => destruct (Update_ok f db t' tt) as (db' & Hu & Hb') end.
  { rewrite <- R. cbn [for_each]. unfold number_key, mbind, go_bind, lift. destruct (CreateBucketIfNotExists _ _) as [t1 [u|e|]]; [|done..].
    rewrite Hb. by destruct (Put _ _ _ _) as [t2 [u'|e|]]. }
  exists db'. split; [exact Hu|]. rewrite B in Hb'. split; unfold bucket_of; rewrite Hb', put_in_lookup.
  - by rewrite decide_False, !lookup_insert_ne, lookup_insert_eq by done.
  - by rewrite decide_False, lookup_insert_ne, lookup_insert_eq by done.
  - by rewrite decide_False, lookup_insert_eq by done.
  - rewrite decide_True by done. cbn. by rewrite lookup_insert_eq, last_snoc.
Qed.
End refinement.

(** *** Reading *)

Lemma prefix_same_length {A} (a a' r : list A) : length a = length a' → a `prefix_of` a' ++ r ↔ a = a'.
Proof.
  intros Hl. split; [|intros ->; by apply prefix_app_r]. intros [t E]. by apply app_inj_1 in E as [-> _].
Qed.

Lemma event_key_fields n e : is_u64 n →
  take 32 (drop 20 (event_key n e)) = Sum256 (str_bytes (ev_Topic e)) ∧ unbe (take 8 (drop 52 (event_key n e))) = n.
Proof.
  intros Hn. assert (length (take 20 (ev_ContractID e)) = 20%nat) as Hc by (rewrite length_take, arr_length; done).
  unfold event_key, EventsIndexKey. split.
  - rewrite drop_app_length' by done. by rewrite take_app_length' by (by rewrite arr_length).
  - rewrite app_assoc, drop_app_length' by (rewrite length_app, Hc, arr_length; done).
    rewrite take_app_length' by (by rewrite length_be). by apply unbe_be_small, fits_u64.
Qed.

Lemma range_test a b : negb ((0 <? a) && (b <? a)) = (a <=? 0) || (a <=? b).
Proof. destruct (Z.ltb_spec 0 a), (Z.ltb_spec b a), (Z.leb_spec a 0), (Z.leb_spec a b); done || lia. Qed.

Lemma range_test' a b : negb ((0 <? a) && (a <? b)) = (a <=? 0) || (b <=? a).
Proof. destruct (Z.ltb_spec 0 a), (Z.ltb_spec a b), (Z.leb_spec a 0), (Z.leb_spec b a); done || lia. Qed.

(** A key is wanted if its event is. *)
Lemma key_wanted_event f n e : is_u64 n → key_wanted f (event_key n e) = event_wanted f (mkEventData e n).
Proof.
  intros Hn. destruct (event_key_fields n e Hn) as [Ht Hb]. unfold key_wanted, event_matches, event_wanted. cbv zeta.
  rewrite Hb, Ht, event_key_length, range_test, range_test', (bool_decide_eq_true_2 (64 <= 64)%nat) by done. cbn [ed_Event ed_BlockNumber].
  unfold event_prefix. destruct (ef_Contract f) as [c|] eqn:Ec.
  - rewrite (bool_decide_eq_false_2 (Some c = None)) by done. cbn [andb negb]. rewrite andb_true_r, !andb_assoc. do 2 f_equal.
    assert (length (take 20 c) = length (take 20 (ev_ContractID e))) as Hl by (by rewrite !length_take, !arr_length).
    unfold event_key, EventsIndexKey. destruct (bool_decide_reflect (ef_Topic0 f = "")) as [E0|E0]; cbn [orb].
    + rewrite app_nil_r, andb_true_r. apply bool_decide_ext. rewrite prefix_same_length by done. done.
    + rewrite <- bool_decide_and. apply bool_decide_ext. rewrite app_assoc, prefix_same_length.
      * split; [intros [E1 E2]%app_inj_1; [|done]; split; [done|]; by apply arr_eq|by intros [-> ->]].
      * by rewrite !length_app, Hl, !arr_length.
  - rewrite (bool_decide_eq_true_2 (None = None)) by done. cbn [andb]. rewrite andb_comm, !andb_assoc. do 2 f_equal.
    rewrite !bool_decide_not, negb_andb, !negb_involutive. f_equal. apply bool_decide_ext. split; [apply arr_eq|by intros ->].
Qed.

Lemma sorted_fst {A} (l : list (bytes * A)) (k : list (bytes * bytes)) :
  l.*1 = k.*1 → StronglySorted (not_after (less_by fst)) k → StronglySorted (not_after (less_by fst)) l.
Proof.
  intros E Hk. revert l E. induction Hk as [|[a x] k Hk IH Hx]; intros [|[b y] l] E; try done; [constructor|].
  cbn in E. injection E as -> E. constructor; [by apply IH|]. revert l E. clear IH Hk.
  induction Hx as [|[c z] k Hc Hx IH]; intros [|[d w] l] E; try done. cbn in E. injection E as -> E.
  constructor; [exact Hc|by apply IH].
Qed.

Section reads.
Context {A : Type} `{Json A}.

Lemma holds_decoded (m : gmap bytes bytes) (M : gmap bytes A) (k : bytes) :
  holds m M → M !! k = match m !! k with Some b => decoded b | None => None end.
Proof.
  intros Hh. specialize (Hh k). unfold decoded. destruct Hh as [b a E|]; [cbn; by rewrite E|done].
Qed.

Lemma holds_entries (m : gmap bytes bytes) (M : gmap bytes A) :
  holds m M → omap (λ e, pair e.1 <$> decoded e.2) (entries m) = sort_slice (less_by fst) (map_to_list M).
Proof.
  intros Hh.
  assert (∀ e, e ∈ entries m → ∃ a, decoded e.2 = Some a) as Hdec.
  { intros [k v] Hk%elem_of_entries. specialize (Hh k). rewrite Hk in Hh. unfold decoded. inversion Hh as [? a E|]. exists a. cbn. by rewrite E. }
  assert ((omap (λ e, pair e.1 <$> decoded (A := A) e.2) (entries m)).*1 = (entries m).*1) as Hfst.
  { clear Hh. induction (entries m) as [|[k v] l IH]; [done|]. destruct (Hdec (k, v)) as [a E]; [by left|]. cbn in *. rewrite E. cbn.
    f_equal. apply IH. intros e He. apply Hdec. by right. }
  apply sort_by_key_unique.
  - intros [k1 a1] [k2 a2] E1%elem_of_map_to_list E2%elem_of_map_to_list. cbn. congruence.
  - apply NoDup_Permutation.
    + apply (NoDup_fmap_1 fst). rewrite Hfst. apply entries_NoDup.
    + apply NoDup_map_to_list.
    + intros [k a]. rewrite elem_of_map_to_list, (holds_decoded m M k Hh), list_elem_of_omap. split.
      * intros ([k' v] & Hk & E). apply elem_of_entries in Hk. cbn in E. destruct (decoded v) eqn:Ev; [|done].
        cbn in E. injection E as -> ->. by rewrite Hk.
      * destruct (m !! k) as [v|] eqn:Ek; [|done]. intros E. exists (k, v). rewrite elem_of_entries. cbn in *. by rewrite E.
  - apply (sorted_fst _ (entries m)); [done|apply entries_sorted].
Qed.

Lemma filter_entries (p : bytes → bool) l :
  omap (λ e : bytes * bytes, decoded e.2) (List.filter (λ e, p e.1) l)
  = snd <$> List.filter (λ e, p e.1) (omap (λ e, pair e.1 <$> decoded (A := A) e.2) l).
Proof.
  induction l as [|[k v] l IH]; [done|]. cbn. destruct (p k) eqn:Ep; cbn; destruct (decoded v); cbn; rewrite ?Ep; cbn; by rewrite IH.
Qed.

Lemma get_json_holds {DB Tx_} `{BoltDB DB Tx_} (name k : bytes) (db : DB) (M : gmap bytes A) :
  holds (bucket_of db name) M → get_json name k db = (db, Ok (M !! k)).
Proof.
  intros Hh. specialize (Hh k). unfold get_json, View, Bucket, gets, mbind, go_bind, bucket_of, db_buckets in *.
  unfold get_entry. destruct (tx_buckets (db_begin db) !! name) as [m|]; cbn in *.
  - destruct Hh as [b a E|]; [|done]. cbn. by rewrite E.
  - rewrite lookup_empty in Hh. by inversion Hh.
Qed.
End reads.

(** *** Histories *)

Lemma GetEvents_entries {DB Tx_} `{BoltDB DB Tx_} `{Json EventData} f (db : DB) :
  GetEvents f db = (db, Ok (omap (λ e, decoded e.2) (List.filter (λ e, key_wanted f e.1) (entries (bucket_of db eventsBucket))))).
Proof.
  rewrite <- scan_seek. unfold GetEvents, View, Bucket, gets, mbind, go_bind, bucket_of, db_buckets.
  destruct (tx_buckets (db_begin db) !! eventsBucket) as [m|]; cbn [default snd]; [done|]. by rewrite seek_empty.
Qed.

Section histories.
Context {DB Tx_ : Type} `{BoltLaws DB Tx_} `{Json BlockData} `{Json TransactionReceipt} `{Json EventData}.
Implicit Types (db : DB).

Lemma events_of_numbers hist ed : Forall (λ ib, is_u64 (ib_Number ib)) hist → ed ∈ events_of hist → is_u64 (ed_BlockNumber ed).
Proof.
  intros Hn Hed. apply list_elem_of_bind in Hed as (ib & Hed & Hib). apply list_elem_of_fmap in Hed as (e & -> & _).
  rewrite Forall_forall in Hn. by apply Hn.
Qed.

Lemma stored_entry hist k ed :
  (k, ed) ∈ map_to_list (fold_puts data_key id (events_of hist)) → k = data_key ed ∧ ed ∈ events_of hist.
Proof.
  rewrite elem_of_map_to_list, fold_puts_lookup, fmap_Some. intros (ed' & [Hed E]%find_last_elem & ->).
  apply bool_decide_eq_true in E. done.
Qed.

Lemma filter_fmap_snd {A} (p : bytes → bool) (q : A → bool) (l : list (bytes * A)) :
  (∀ k a, (k, a) ∈ l → p k = q a) → snd <$> List.filter (λ e, p e.1) l = List.filter q (snd <$> l).
Proof.
  induction l as [|[k a] l IH]; intros Hpq; [done|]. cbn. rewrite (Hpq k a) by (by left).
  destruct (q a); cbn; rewrite IH; try done; intros k' a' Hk; apply Hpq; by right.
Qed.

Lemma indexed_events db hist f :
  indexed db hist → Forall (λ ib, is_u64 (ib_Number ib)) hist →
  GetEvents f db = (db, Ok (List.filter (event_wanted f) (stored_events hist))).
Proof.
  intros [_ _ Ie _] Hn. rewrite GetEvents_entries, filter_entries, (holds_entries _ _ Ie). do 2 f_equal.
  apply filter_fmap_snd. intros k ed. rewrite sort_slice_perm. intros [-> Hed]%stored_entry.
  destruct ed as [e n]. apply (key_wanted_event f n e). exact (events_of_numbers hist (mkEventData e n) Hn Hed).
Qed.

Lemma indexed_block db hist h :
  indexed db hist → Forall (λ ib, is_u64 (ib_Number ib)) hist → is_u64 h →
  GetBlock h db = (db, Ok (block_data <$> find_last (λ ib, ib_Number ib =? h) hist)).
Proof.
  intros [Ib _ _ _] Hn Hh. unfold GetBlock. rewrite (get_json_holds _ _ _ _ Ib), fold_puts_lookup. do 3 f_equal. apply find_last_ext.
  intros ib Hib. rewrite Forall_forall in Hn. specialize (Hn ib Hib). unfold number_key, encodeBlockNumber, Uint64ToBigEndian.
  destruct (Z.eqb_spec (ib_Number ib) h) as [->|Hne]; [by apply bool_decide_eq_true_2|]. apply bool_decide_eq_false_2.
  intros E. apply (f_equal unbe) in E. by rewrite !unbe_be_small in E by (by apply fits_u64).
Qed.

Lemma indexed_transaction db hist id :
  indexed db hist →
  GetTransaction id db = (db, Ok (pair_receipt <$> find_last (λ p, bool_decide (tx_IntentID p.2 = id)) (txs_of hist))).
Proof.
  intros [_ It _ _]. unfold GetTransaction. rewrite (get_json_holds _ _ _ _ It), fold_puts_lookup. do 3 f_equal. apply find_last_ext.
  intros p _. apply bool_decide_ext. unfold pair_key. split; [apply arr_eq|by intros ->].
Qed.

Lemma indexed_latest db hist :
  indexed db hist → Forall (λ ib, is_u64 (ib_Number ib)) hist →
  getLatestIndexedHeight db = (db, Ok (default 0 (ib_Number <$> last hist))).
Proof.
  intros [_ _ _ Il] Hn. unfold getLatestIndexedHeight, View, Bucket, gets, mbind, go_bind, bucket_of, db_buckets in *.
  assert (get_entry (tx_buckets (db_begin db) !! stateBucket) latestIndexedHeightKey = number_key <$> last hist) as ->.
  { rewrite <- Il. unfold get_entry. by destruct (tx_buckets (db_begin db) !! stateBucket). }
  destruct (last hist) as [ib|] eqn:El; cbn [fmap option_fmap option_map default]; [|done].
  rewrite Forall_forall in Hn. pose proof (Hn ib (last_Some_elem_of _ _ El)) as Hu.
  unfold number_key, encodeBlockNumber, Uint64ToBigEndian. rewrite length_be, bool_decide_eq_true_2 by done.
  unfold BigEndianToUint64, lift. rewrite length_be, bool_decide_eq_false_2 by lia. cbn [snd].
  rewrite take_ge by (rewrite length_be; lia). by rewrite unbe_be_small by (by apply fits_u64).
Qed.


Lemma with_bucket_default name m b : default ∅ (with_bucket name m !! b) = default ∅ (m !! b).
Proof. rewrite with_bucket_lookup. by case_decide; subst. Qed.
End histories.

Section sessions.
Context {DB Tx_ : Type} `{BoltLaws DB Tx_, !BoltReliable DB Tx_} `{Json BlockData} `{Json TransactionReceipt} `{Json EventData}.
Implicit Types (db : DB) (idx : Indexer DB).

Lemma create_all names (t : Tx_) :
  Forall (λ n, n ≠ []) names →
  ∃ t', for_each names CreateBucketIfNotExists t = (t', Ok tt) ∧ ∀ b, default ∅ (tx_buckets t' !! b) = default ∅ (tx_buckets t !! b).
Proof.
  intros Hn. revert t. induction Hn as [|n names Hne _ IH]; intros t; [by exists t|].
  destruct (create_ok n t Hne) as (t1 & Hc & Hb). destruct (IH t1) as (t' & Hr & Hk). exists t'. cbn [for_each].
  rewrite (go_bind_ok _ _ _ _ _ Hc). split; [done|]. intros b. by rewrite Hk, Hb, with_bucket_default.
Qed.

Lemma initSchema_ok db : ∃ db', initSchema db = (db', Ok tt) ∧ ∀ b, bucket_of db' b = bucket_of db b.
Proof.
  destruct (create_all [blocksBucket; transactionsBucket; eventsBucket; validatorsBucket; stateBucket] (db_begin db)) as (t & Hr & Hk);
    [by repeat constructor|].
  unfold initSchema. match goal with |- context [Update ?f db] => destruct (Update_ok f db t tt) as (db' & Hu & Hb) end.
  - revert Hr. cbn [for_each]. unfold mbind, go_bind.
    destruct (CreateBucketIfNotExists _ _) as [? [[]|?|]]; [|done..]. destruct (CreateBucketIfNotExists _ _) as [? [[]|?|]]; [|done..].
    destruct (CreateBucketIfNotExists _ _) as [? [[]|?|]]; [|done..]. destruct (CreateBucketIfNotExists _ _) as [? [[]|?|]]; [|done..].
    by destruct (CreateBucketIfNotExists _ _) as [? [[]|?|]].
  - exists db'. split; [done|]. intros b. unfold bucket_of. rewrite Hb. apply Hk.
Qed.

Lemma indexed_same db db' hist : (∀ b, bucket_of db' b = bucket_of db b) → indexed db hist → indexed db' hist.
Proof. intros Hb [H1' H2' H3' H4']. by split; rewrite Hb. Qed.

Lemma New_ok dir db hist :
  dir ≠ "" → indexed db hist → Forall (λ ib, is_u64 (ib_Number ib)) hist →
  ∃ db', New dir true (Ok db) = Ok (Some (mkIndexer db' [] (default 0 (ib_Number <$> last hist)) true None)) ∧ indexed db' hist.
Proof.
  intros Hd Hi Hn. destruct (initSchema_ok db) as (db' & Hs & Hb). exists db'. pose proof (indexed_same _ _ _ Hb Hi) as Hi'.
  unfold New. rewrite bool_decide_eq_false_2 by done. cbn [negb orb]. by rewrite Hs, (indexed_latest db' hist Hi' Hn).
Qed.

Lemma Enqueue_all blocks idx :
  ix_enabled idx = true →
  fold_left (λ i ib, Enqueue ib i) blocks (Some idx)
  = Some (mkIndexer (ix_db idx) (ix_ch idx ++ blocks) (ix_height idx) true (ix_blockRetriever idx)).
Proof.
  revert idx. induction blocks as [|ib blocks IH]; intros [db ch h e br] He; cbn in He; subst e; cbn [fold_left Enqueue fmap option_fmap option_map].
  - by rewrite app_nil_r.
  - cbn [ix_enabled negb]. rewrite IH by done. cbn. by rewrite <- app_assoc.
Qed.

Lemma index_in_ok idx hist ib :
  indexed (ix_db idx) hist → ib_ok ib →
  ∃ db', index_in ib idx = (mkIndexer db' (ix_ch idx) (ix_height idx) (ix_enabled idx) (ix_blockRetriever idx), Ok tt) ∧
    indexed db' (hist ++ [ib]).
Proof.
  intros Hi Hib. destruct (indexed_snoc _ _ _ Hi Hib) as (db' & Hr & Hi'). exists db'. unfold index_in. by rewrite Hr.
Qed.

Lemma run_blocks_ok blocks idx hist :
  indexed (ix_db idx) hist → Forall ib_ok blocks →
  ∃ idx', for_each blocks run_block idx = (idx', Ok tt) ∧ indexed (ix_db idx') (hist ++ blocks) ∧
    ix_height idx' = fold_left Z.max (ib_Number <$> blocks) (ix_height idx).
Proof.
  intros Hi Hb. revert idx hist Hi. induction Hb as [|ib blocks Hib _ IH]; intros idx hist Hi.
  - exists idx. by rewrite app_nil_r.
  - destruct (index_in_ok idx hist ib Hi Hib) as (db' & Hr & Hi').
    set (idx1 := mkIndexer db' (ix_ch idx) (ix_height idx) (ix_enabled idx) (ix_blockRetriever idx)) in *.
    set (idx2 := if ix_height idx1 <? ib_Number ib then set_height (ib_Number ib) idx1 else idx1).
    assert (run_block ib idx = (idx2, Ok tt)) as Hrun.
    { unfold run_block. by rewrite (go_bind_ok _ _ idx idx1 (inr tt)) by (unfold try; by rewrite Hr). }
    assert (ix_db idx2 = db' ∧ ix_height idx2 = Z.max (ix_height idx) (ib_Number ib)) as [Ed Eh].
    { unfold idx2. destruct (Z.ltb_spec (ix_height idx1) (ib_Number ib)) as [Hl|Hl]; cbn in *; split; try done; lia. }
    destruct (IH idx2 (hist ++ [ib])) as (idx' & Hf & Hi2 & Hh); [by rewrite Ed|].
    exists idx'. cbn [for_each]. rewrite (go_bind_ok _ _ _ _ _ Hrun). rewrite <- app_assoc in Hi2. split; [done|]. split; [done|].
    by rewrite Hh, Eh.
Qed.

(** One turn of [CatchUp] and all of them. *)
Lemma catch_up_one_ok GetBlock h b idx hist :
  GetBlock h = Ok b → indexed (ix_db idx) hist → ib_ok (indexable b) →
  ∃ idx', catch_up_one GetBlock h idx = (idx', Ok tt) ∧ indexed (ix_db idx') (hist ++ [indexable b]) ∧ ix_height idx' = h.
Proof.
  intros Hb Hi Hib. destruct (index_in_ok idx hist _ Hi Hib) as (db' & Hr & Hi').
  exists (mkIndexer db' (ix_ch idx) h (ix_enabled idx) (ix_blockRetriever idx)). split; [|by split].
  unfold catch_up_one. rewrite (go_bind_ok _ _ idx idx (inr b)) by (unfold try, lift; by rewrite Hb).
  by erewrite (go_bind_ok _ _ idx _ (inr tt)) by (unfold try; by rewrite Hr).
Qed.

(** A block that the node does not have is passed over. *)
Lemma catch_up_one_missing GetBlock h e idx : GetBlock h = Err e → catch_up_one GetBlock h idx = (idx, Ok tt).
Proof. intros He. unfold catch_up_one. by rewrite (go_bind_ok _ _ idx idx (inl e)) by (unfold try, lift; by rewrite He). Qed.

(** A turn never reports an error. *)
Lemma catch_up_one_no_error GetBlock h idx e : (catch_up_one GetBlock h idx).2 ≠ Err e.
Proof.
  unfold catch_up_one, mbind, go_bind, try, lift. destruct (GetBlock h); cbn; try done.
  by destruct (index_in _ _) as [? [?|?|]].
Qed.

Lemma catch_up_ends GetBlock n start tip idx :
  tip < 2 ^ 64 - 1 → 0 <= start → tip - start + 1 <= Z.of_nat n →
  ∃ idx' r, catch_up (S n) GetBlock start tip idx = Some (idx', r) ∧ ∀ e, r ≠ Err e.
Proof.
  intros Ht. revert start idx. induction n as [|n IH]; intros start idx Hs Hn.
  { exists idx, (Ok tt). cbn [catch_up]. by rewrite (proj2 (Z.ltb_lt _ _)) by lia. }
  cbn [catch_up]. destruct (Z.ltb_spec tip start) as [Hlt|Hge]; [by exists idx, (Ok tt)|].
  pose proof (catch_up_one_no_error GetBlock start idx) as Hne.
  destruct (catch_up_one GetBlock start idx) as [idx1 [u|e|]]; cbn in Hne; [|by destruct (Hne e)|by exists idx1, Panic].
  rewrite u64_small by (unfold is_u64; lia). apply IH; lia.
Qed.

(** What a node has of a range of heights, and the height it ends on. *)
Definition available (GetBlock : Z → res Block) (heights : list Z) : list IndexableBlock :=
  omap (λ h, match GetBlock h with Ok b => Some (indexable b) | _ => None end) heights.

Definition last_available (GetBlock : Z → res Block) (heights : list Z) (height : Z) : Z :=
  fold_left (λ x h, match GetBlock h with Ok _ => h | _ => x end) heights height.

Lemma catch_up_ok GetBlock n start tip idx hist :
  tip < 2 ^ 64 - 1 → 0 <= start → tip = start + Z.of_nat n - 1 →
  (∀ h, start <= h <= tip → match GetBlock h with Ok b => ib_ok (indexable b) | Err _ => True | Panic => False end) →
  indexed (ix_db idx) hist →
  ∃ idx', catch_up (S n) GetBlock start tip idx = Some (idx', Ok tt) ∧
    indexed (ix_db idx') (hist ++ available GetBlock (seqZ start (Z.of_nat n))) ∧
    ix_height idx' = last_available GetBlock (seqZ start (Z.of_nat n)) (ix_height idx).
Proof.
  intros Htip. revert start idx hist. induction n as [|n IH]; intros start idx hist Hs Ht Hc Hi.
  { exists idx. cbn [catch_up]. rewrite (proj2 (Z.ltb_lt _ _)) by lia. cbn. by rewrite app_nil_r. }
  assert (∃ idx1, catch_up_one GetBlock start idx = (idx1, Ok tt) ∧
    indexed (ix_db idx1) (hist ++ available GetBlock [start]) ∧
    ix_height idx1 = last_available GetBlock [start] (ix_height idx)) as (idx1 & H1' & Hi1 & Hh1).
  { pose proof (Hc start ltac:(lia)) as Hg. unfold available, last_available. cbn [omap list_omap fold_left].
    destruct (GetBlock start) as [b|e|] eqn:E; [| |done].
    - by apply (catch_up_one_ok GetBlock).
    - exists idx. rewrite (catch_up_one_missing GetBlock start e) by done. by rewrite app_nil_r. }
  destruct (IH (start + 1) idx1 (hist ++ available GetBlock [start])) as (idx' & Hr & Hi' & Hh'); [lia|lia| |done|].
  { intros h Hh. apply Hc. lia. }
  exists idx'. cbn [catch_up] in Hr |- *. rewrite (proj2 (Z.ltb_ge tip start)) by lia. rewrite H1'.
  rewrite (u64_small (start + 1)) by (unfold is_u64; lia). split; [exact Hr|].
  rewrite seqZ_cons by lia. replace (Z.pred (Z.of_nat (S n))) with (Z.of_nat n) by lia.
  rewrite <- app_assoc in Hi'. unfold available in *. rewrite <- omap_app in Hi'. split; [exact Hi'|].
  rewrite Hh', Hh1. done.
Qed.
End sessions.

(** ** Properties *)

(** C30: an indexer that is opened on the records of earlier blocks and given more
    blocks answers like the list of all these blocks: a block by its number and
    a transaction by its id come from the last block that has them, and a
    filter of events selects by contract, topic and range from the last event
    of each key, in the order of the keys. The disk does not fail, the records
    fit the database's limits and read back from JSON as they were written. *)
Theorem indexer_answers {DB Tx_} `{BoltLaws DB Tx_, !BoltReliable DB Tx_} `{Json BlockData} `{Json TransactionReceipt} `{Json EventData}
    (dir : string) (db : DB) (hist blocks : list IndexableBlock) :
  dir ≠ "" → indexed db hist → Forall (λ ib, is_u64 (ib_Number ib)) hist → Forall ib_ok blocks →
  ∃ idx idx1 idx', New dir true (Ok db) = Ok (Some idx) ∧
    fold_left (λ i ib, Enqueue ib i) blocks (Some idx) = Some idx1 ∧ run idx1 = (idx', Ok tt) ∧
    let all := hist ++ blocks in
    indexed (ix_db idx') all ∧
    (∀ h, is_u64 h → (GetBlock h (ix_db idx')).2 = Ok (block_data <$> find_last (λ ib, ib_Number ib =? h) all)) ∧
    (∀ id, (GetTransaction id (ix_db idx')).2
           = Ok ((λ p, block_receipt p.1 p.2) <$> find_last (λ p, bool_decide (tx_IntentID p.2 = id)) (txs_of all))) ∧
    (∀ f, (GetEvents f (ix_db idx')).2 = Ok (List.filter (event_wanted f) (stored_events all))) ∧
    Height (Some idx') = fold_left Z.max (ib_Number <$> blocks) (default 0 (ib_Number <$> last hist)).
Proof.
  intros Hd Hi Hn Hb. destruct (New_ok dir db hist Hd Hi Hn) as (db' & HN & Hi').
  eexists _, _. rewrite HN.
  set (idx1 := mkIndexer db' blocks (default 0 (ib_Number <$> last hist)) true None).
  destruct (run_blocks_ok blocks (mkIndexer db' [] (ix_height idx1) true None) hist Hi' Hb) as (idx' & Hr & Hi2 & Hh).
  exists idx'. split; [done|]. split; [by rewrite Enqueue_all|]. split; [exact Hr|].
  assert (Forall (λ ib, is_u64 (ib_Number ib)) (hist ++ blocks)) as Hall.
  { apply Forall_app. split; [done|]. eapply Forall_impl; [exact Hb|]. apply io_number. }
  cbv zeta. split; [done|]. split; [|split; [|split; [|exact Hh]]].
  - intros h Hh64. by rewrite (indexed_block _ _ _ Hi2 Hall Hh64).
  - intros id. by rewrite (indexed_transaction _ _ _ Hi2).
  - intros f. by rewrite (indexed_events _ _ _ Hi2 Hall).
Qed.

(** C31: [GetEvents] seeks the prefix of the contract and the topic and stops at
    the first key without it, and this finds, on every database, what a scan of
    the whole bucket with a test of each key finds, in the order of the keys. *)
Theorem prefix_scan_exact {DB Tx_} `{BoltDB DB Tx_} `{Json EventData} (f : EventFilter) (db : DB) :
  GetEvents f db
  = (db, Ok (omap (λ e, decoded e.2) (List.filter (λ e, key_wanted f e.1) (entries (bucket_of db eventsBucket))))).
Proof. apply GetEvents_entries. Qed.

(** C37: [CatchUp] comes to an end and indexes what the node has. With a tip
    below 2^64 - 1 the loop ends, within one turn for each height of the range
    and a last one, whatever the node's blocks, the indexer's state and the
    disk: failures to read or to index a block are passed over and never
    reported, and only a panic of the retriever or of the disk ends it early. On an enabled indexer with a block retriever, on a disk that does
    not fail and when every block of the range that the retriever returns can
    be indexed (its keys and records are within their limits and read back as
    they were written), exactly the blocks that the retriever returns are
    indexed, in order, the heights it has no block for are skipped, and the
    indexer's height is the last height of the range with a block. *)
Theorem catch_up_complete {DB Tx_} `{BoltLaws DB Tx_} `{Json BlockData} `{Json TransactionReceipt} `{Json EventData}
    (start tip : Z) :
  0 <= start → tip < 2 ^ 64 - 1 →
  let heights := seqZ start (tip - start + 1) in
  let turns := S (length heights) in
  (∀ idx : option (Indexer DB), ∃ idx' r, CatchUp turns start tip idx = Some (idx', r) ∧ ∀ e, r ≠ Err e) ∧
  (BoltReliable DB Tx_ → ∀ (GetBlock : Z → res Block) (idx : Indexer DB) (hist : list IndexableBlock),
   (∀ h, start <= h <= tip → match GetBlock h with Ok b => ib_ok (indexable b) | Err _ => True | Panic => False end) →
   indexed (ix_db idx) hist → ix_enabled idx = true → ix_blockRetriever idx = Some GetBlock →
   ∃ idx', CatchUp turns start tip (Some idx) = Some (Some idx', Ok tt) ∧
     indexed (ix_db idx') (hist ++ omap (λ h, match GetBlock h with Ok b => Some (indexable b) | _ => None end) heights) ∧
     Height (Some idx') = fold_left (λ x h, match GetBlock h with Ok _ => h | _ => x end) heights (ix_height idx)).
Proof.
  intros Hs Ht heights turns. split.
  - intros [idx|]; [|by exists None, (Ok tt)]. unfold CatchUp, turns.
    destruct (ix_enabled idx); [|by exists (Some idx), (Ok tt)].
    destruct (ix_blockRetriever idx) as [GetBlock|]; [|by exists (Some idx), (Ok tt)].
    destruct (catch_up_ends GetBlock (length heights) start tip idx) as (idx' & r & -> & Hr);
      [done|done|unfold heights; rewrite length_seqZ; lia|]. by exists (Some idx'), r.
  - intros Hrel GetBlock idx hist Hc Hi He Hg. unfold CatchUp. rewrite He, Hg.
    destruct (decide (start <= tip)) as [Hle|Hgt].
    + destruct (catch_up_ok GetBlock (length heights) start tip idx hist) as (idx' & Hr & Hi' & Hh);
        [done|done|unfold heights; rewrite length_seqZ; lia|done|done|].
      assert (seqZ start (Z.of_nat (length heights)) = heights) as E
        by (unfold heights; rewrite length_seqZ; f_equal; lia).
      rewrite E in Hi', Hh. exists idx'. unfold turns. by rewrite Hr.
    + assert (heights = []) as E by (unfold heights; apply seqZ_nil; lia). exists idx.
      unfold turns. rewrite E. cbn. rewrite (proj2 (Z.ltb_lt _ _)) by lia. by rewrite app_nil_r.
Qed.

(** With the largest number for a tip the loop never ends: the height wraps
    around. *)
Theorem catch_up_never_ends {DB Tx_} `{BoltDB DB Tx_} `{Json BlockData} `{Json TransactionReceipt} `{Json EventData}
    (GetBlock : Z → res Block) (start : Z) (turns : nat) (idx : Indexer DB) :
  is_u64 start → (∀ h i, (catch_up_one GetBlock h i).2 ≠ Panic) → catch_up turns GetBlock start (2 ^ 64 - 1) idx = None.
Proof.
  intros Hs Hp. revert start idx Hs. induction turns as [|turns IH]; intros start idx Hs; [done|]. cbn [catch_up].
  rewrite (proj2 (Z.ltb_ge _ _)) by (unfold is_u64 in Hs; lia). pose proof (Hp start idx) as Hone.
  pose proof (catch_up_one_no_error GetBlock start idx) as Herr.
  destruct (catch_up_one GetBlock start idx) as [idx' [u|e|]]; cbn in *; [|by destruct (Herr e)|done].
  apply IH, u64_is_u64.
Qed.

(** Events of the same transaction, contract and topic have one key: of two of
    them only one is found. *)
Theorem same_topic_events_collide {DB Tx_} `{BoltLaws DB Tx_} `{Json BlockData} `{Json TransactionReceipt} `{Json EventData}
    (db : DB) (hist : list IndexableBlock) (f : EventFilter) (l : list EventData) (e1 e2 : EventData) :
  indexed db hist → Forall (λ ib, is_u64 (ib_Number ib)) hist → (GetEvents f db).2 = Ok l → e1 ∈ l → e2 ∈ l →
  ev_ContractID (ed_Event e1) = ev_ContractID (ed_Event e2) → ev_Topic (ed_Event e1) = ev_Topic (ed_Event e2) →
  ev_TxIndex (ed_Event e1) = ev_TxIndex (ed_Event e2) → ed_BlockNumber e1 = ed_BlockNumber e2 → e1 = e2.
Proof.
  intros Hi Hn Hl H1' H2' Ec Et Ei Eb. rewrite (indexed_events _ _ f Hi Hn) in Hl. injection Hl as <-.
  apply elem_of_filter_list in H1' as [H1' _], H2' as [H2' _]. unfold stored_events in H1', H2'. rewrite sort_slice_perm in H1', H2'.
  apply list_elem_of_fmap in H1' as ([k1 d1] & -> & H1'), H2' as ([k2 d2] & -> & H2'). cbn [snd] in *.
  destruct (stored_entry _ _ _ H1') as [-> _], (stored_entry _ _ _ H2') as [-> _].
  apply elem_of_map_to_list in H1', H2'. assert (data_key d1 = data_key d2) as E.
  { unfold data_key, event_key. by rewrite Ec, Et, Ei, Eb. }
  rewrite E in H1'. congruence.
Qed.

(** The transactions of a block in the order of their ids; a transaction that is
    in several blocks belongs to the last one. *)
Theorem transactions_by_block {DB Tx_} `{BoltLaws DB Tx_} `{Json BlockData} `{Json TransactionReceipt} `{Json EventData}
    (db : DB) (hist : list IndexableBlock) (n : Z) :
  indexed db hist →
  (GetTransactionsByBlock n db).2
  = Ok (List.filter (λ r, tr_BlockNumber r =? n)
          (snd <$> sort_slice (less_by fst) (map_to_list (fold_puts pair_key pair_receipt (txs_of hist))))).
Proof.
  intros [_ It _ _]. rewrite <- (holds_entries _ _ It).
  pose proof (filter_entries (A := TransactionReceipt) (λ _, true) (entries (bucket_of db transactionsBucket))) as E.
  rewrite !List.filter_true in E. rewrite <- E.
  unfold GetTransactionsByBlock, View, Bucket, gets, mbind, go_bind, bucket_of, db_buckets.
  destruct (tx_buckets (db_begin db) !! transactionsBucket) as [m|]; cbn [default snd]; [done|].
  unfold entries. by rewrite map_to_list_empty.
Qed.

(** The events of block 0 are those of all blocks, since 0 stands for no bound. *)
Theorem events_of_block_zero {DB Tx_} `{BoltLaws DB Tx_} `{Json BlockData} `{Json TransactionReceipt} `{Json EventData}
    (db : DB) (hist : list IndexableBlock) :
  indexed db hist → Forall (λ ib, is_u64 (ib_Number ib)) hist → (GetEventsByBlock 0 db).2 = Ok (stored_events hist).
Proof.
  intros Hi Hn. unfold GetEventsByBlock. rewrite (indexed_events _ _ _ Hi Hn). cbn [snd]. f_equal. etransitivity; [apply List.filter_ext; intros ed; reflexivity|apply List.filter_true].
Qed.

(** ** Examples *)

(** A JSON form for a single value. *)
Definition fixed_json {A} (a : A) : Json A := {| json_Marshal _ := Ok [x00]; json_Unmarshal _ := Ok a |}.

Lemma fixed_json_ok {A} (a : A) : json_ok (H := fixed_json a) a.
Proof. exists [x00]. done. Qed.

Definition example_event : Event := mkEvent ZeroHash "moved" [] 1 0.

Definition example_block : Block :=
  mkBlock (mkBlockHeader 1 1 ZeroHash ZeroHash ZeroHash ZeroHash ZeroHash ZeroHash 0 100 ZeroAddress ZeroHash) []
    (mkFeeSummary 0 0 0 0) [] None [example_event] [].

Definition example_tx : Transaction := NewTransaction 1 1 ZeroAddress 1 [] [] 1 21000 100.

Definition example_ib : IndexableBlock :=
  mkIndexableBlock 1 ZeroHash (b_Header example_block) [example_tx] [example_event] ZeroHash.

Definition json_block : Json BlockData := fixed_json (block_data example_ib).
Definition json_receipt : Json TransactionReceipt := fixed_json (block_receipt 1 example_tx).
Definition json_event : Json EventData := fixed_json (mkEventData example_event 1).

Lemma example_ib_ok : ib_ok (H := json_block) (H0 := json_receipt) (H1 := json_event) example_ib.
Proof. split; [done|apply fixed_json_ok|constructor; [apply fixed_json_ok|constructor]..]. Qed.

Lemma empty_indexed `{Json BlockData} `{Json TransactionReceipt} `{Json EventData} : indexed (∅ : contents) [].
Proof. split; try (intros k; vm_compute; constructor). done. Qed.

Lemma indexer_answers_witness :
  ∃ idx' : Indexer contents,
    (GetTransaction (H1 := json_receipt) (tx_IntentID example_tx) (ix_db idx')).2 = Ok (Some (block_receipt 1 example_tx)) ∧
    (GetEvents (H2 := json_event) (mkEventFilter (Some ZeroHash) "moved" 1 1) (ix_db idx')).2 = Ok [mkEventData example_event 1].
Proof.
  destruct (indexer_answers (H1 := json_block) (H2 := json_receipt) (H3 := json_event) "data" (∅ : contents) [] [example_ib])
    as (idx & idx1 & idx' & _ & _ & _ & _ & _ & Ht & He & _).
  - discriminate.
  - apply (empty_indexed (H := json_block) (H0 := json_receipt) (H1 := json_event)).
  - constructor.
  - constructor; [exact example_ib_ok|constructor].
  - exists idx'. rewrite Ht, He. split; vm_compute; reflexivity.
Defined.

Definition json_example : Json BlockData := fixed_json (block_data (indexable example_block)).

(** A node that has the blocks of even heights only. *)
Definition even_blocks (h : Z) : res Block := if Z.even h then Ok example_block else Err (Errorf "block not found").

Definition gappy_indexer : Indexer contents := mkIndexer ∅ [] 0 true (Some even_blocks).

Lemma catch_up_complete_witness :
  ∃ idx', CatchUp (H0 := json_example) (H1 := json_receipt) (H2 := json_event) 4 1 3 (Some gappy_indexer) = Some (Some idx', Ok tt) ∧
    Height (Some idx') = 2.
Proof.
  destruct (catch_up_complete (DB := contents) (H1 := json_example) (H2 := json_receipt) (H3 := json_event) 1 3) as [_ Hc].
  - discriminate.
  - reflexivity.
  - destruct (Hc _ even_blocks gappy_indexer []) as (idx' & Hr & _ & Hh).
    + intros h _. unfold even_blocks. destruct (Z.even h); [|exact I].
      split; [split; vm_compute; reflexivity || discriminate|apply fixed_json_ok|constructor|].
      constructor; [apply fixed_json_ok|constructor].
    + apply (empty_indexed (H := json_example) (H0 := json_receipt) (H1 := json_event)).
    + reflexivity.
    + reflexivity.
    + exists idx'. split; [exact Hr|]. exact Hh.
Defined.
