(* ===== verification/Rpc.v ===== *)
(** * JSON-RPC (package rpc and its subpackages service and middleware)

    The service that answers from the node, the handlers, the dispatch of
    requests and the validation of inputs. JSON is a parameter ([RequestJson]):
    what the requests decode to. HTTP headers, CORS, the rate limiter (floating
    point), metrics and WebSockets are left out. *)

From S2P Require Import Prelude Codec Sha256 Address Amount Votes Block Smt Store Keys State.
From S2P Require Import Applier Registry BlockExec Vm Bolt Gossip Chain Mempool Persist Genesis Node Tx.

(** ** Results (rpc/service/types.go) *)

Record ReceiptResult := mkReceiptResult {
  rr_Status : string;
  rr_GasUsed : Z;
  rr_BlockNumber : Z;
  rr_BlockHash : string;
}.

Record TransactionResult := mkTransactionResult {
  tre_Hash : string;
  tre_Sender : string;
  tre_Recipient : string;
  tre_IntentID : string;
  tre_Nonce : Z;
  tre_Value : string;
  tre_MaxFee : string;
  tre_GasLimit : Z;
  tre_Data : string;
  tre_Receipt : option ReceiptResult;
}.

Record EventResult := mkEventResult {
  er_Contract : string;
  er_Topics : list string;
  er_Data : string;
  er_BlockNumber : Z;
  er_TxHash : string;
}.

Record BlockResult := mkBlockResult {
  br_Number : Z;
  br_Hash : string;
  br_ParentHash : string;
  br_Timestamp : Z;
  br_Transactions : list TransactionResult;
  br_Events : list EventResult;
}.

Record AccountResult := mkAccountResult {
  ar_Address : string;
  ar_Balance : string;
  ar_Nonce : Z;
  ar_CodeHash : string;
  ar_StorageRoot : string;
}.

Record ContractMeta := mkContractMeta {
  cm_Name : string;
  cm_Version : string;
  cm_Entrypoint : string;
}.

Record ContractResult := mkContractResult {
  cr_Address : string;
  cr_Metadata : option ContractMeta;
  cr_CodeHash : string;
}.

Record CallResult := mkCallResult {
  ca_Data : string;
  ca_GasUsed : Z;
  ca_Reverted : bool;
  ca_Events : list EventResult;
}.

Record TxReceipt := mkTxReceipt {
  tc_TxHash : string;
  tc_BlockNumber : Z;
  tc_BlockHash : string;
  tc_GasUsed : Z;
  tc_GasLimit : Z;
  tc_Status : string;
  tc_ReturnData : string;
}.

Record ValidatorResult := mkValidatorResult {
  vr_Address : string;
  vr_Power : Z;
  vr_Commission : Z;
}.

Record SupplyResult := mkSupplyResult {
  su_Total : string;
  su_Circulating : string;
  su_Staked : string;
}.

Record EventFilter := mkEventFilter {
  rf_Contract : string;
  rf_Topics : list string;
  rf_FromBlock : Z;
  rf_ToBlock : Z;
  rf_Offset : Z;
  rf_Limit : Z;
}.

Record PaginationParams := mkPagination {
  pg_Offset : Z;
  pg_Limit : Z;
}.

Definition DefaultPagination : PaginationParams := mkPagination 0 20.

Definition Pagination_Normalize (p : PaginationParams) : PaginationParams :=
  let limit := if pg_Limit p =? 0 then 20 else pg_Limit p in
  let limit := if 100 <? limit then 100 else limit in
  mkPagination (pg_Offset p) (if (0 <? pg_Offset p) && (limit =? 0) then 20 else limit).

(** Parameters of dsn_getEvents; [None] for a field that is missing. *)
Record EventFilterParams := mkEventFilterParams {
  fp_Contract : string;
  fp_Topics : list string;
  fp_FromBlock : option Z;
  fp_ToBlock : option Z;
  fp_Offset : option Z;
  fp_Limit : option Z;
}.

Definition ToEventFilter (p : EventFilterParams) : EventFilter :=
  let pagination := Pagination_Normalize (mkPagination (default (pg_Offset DefaultPagination) (fp_Offset p))
                                                       (default (pg_Limit DefaultPagination) (fp_Limit p))) in
  mkEventFilter (fp_Contract p) (fp_Topics p) (default 0 (fp_FromBlock p)) (default 0 (fp_ToBlock p))
    (pg_Offset pagination) (pg_Limit pagination).

Definition hashToHex (h : Hash) : string := "0x" +:+ hex h.

Definition bytesToHex (b : bytes) : string := if bool_decide (length b = 0%nat) then "0x" else "0x" +:+ hex b.

Definition receiptStatusToString (status : Z) : string := if status =? 1 then "success" else "failure".

Definition TransactionToResult (tx : Transaction) (receiptStatus gasUsed blockNumber : Z) (blockHash : Hash) : TransactionResult :=
  {| tre_Hash := hashToHex (tx_IntentID tx); tre_Sender := Address_String (tx_Sender tx); tre_Recipient := "";
     tre_IntentID := hashToHex (tx_IntentID tx); tre_Nonce := tx_Nonce tx; tre_Value := ""; tre_MaxFee := dec (tx_MaxFee tx);
     tre_GasLimit := tx_GasLimit tx; tre_Data := bytesToHex (tx_Payload tx);
     tre_Receipt := if 0 <? blockNumber
                    then Some (mkReceiptResult (receiptStatusToString receiptStatus) gasUsed blockNumber (hashToHex blockHash))
                    else None |}.

(** [BlockToResult], which ignores the error of the hash. *)
Definition BlockToResult (block : Block) : BlockResult :=
  let blockHash := match HeaderHash (H := SHA256Hasher) (b_Header block) with Ok h => h | _ => ZeroHash end in
  {| br_Number := h_Height (b_Header block); br_Hash := hashToHex blockHash; br_ParentHash := hashToHex (h_PreviousHash (b_Header block));
     br_Timestamp := h_Timestamp (b_Header block);
     br_Transactions := (λ tx, TransactionToResult tx 0 0 0 ZeroHash) <$> b_Transactions block; br_Events := [] |}.

Definition AccountToResult (addr balance : string) (nonce : Z) (codeHash storageRoot : Hash) : AccountResult :=
  mkAccountResult addr balance nonce (hashToHex codeHash) (hashToHex storageRoot).

Definition ContractToResult (addr : string) (meta : option ContractMetadata) (codeHash : Hash) : ContractResult :=
  mkContractResult addr ((λ m, mkContractMeta (hashToHex (m_ContractID m)) (dec (m_BlockHeight m)) "") <$> meta) (hashToHex codeHash).

Definition EventToResult (evt : Event) : EventResult :=
  mkEventResult (hashToHex (ev_ContractID evt)) [ev_Topic evt] (bytesToHex (ev_Data evt)) (ev_BlockHeight evt) "".

(** [bigIntToString] and [SupplyToResult]; [None] for nil. *)
Definition bigIntToString (bi : option Z) : string := match bi with None => "0" | Some v => dec v end.

Definition SupplyToResult (total circulating staked : option Z) : SupplyResult :=
  mkSupplyResult (bigIntToString total) (bigIntToString circulating) (bigIntToString staked).

(** Events of a call carry no prefix, block or transaction. *)
Definition eventsToResults (events : list Event) : list EventResult :=
  (λ ev, mkEventResult (hex (ev_ContractID ev)) [ev_Topic ev] (hex (ev_Data ev)) 0 "") <$> events.

(** ** The service (rpc/service/node_service.go) *)

Definition ErrNotFound : error := Errorf "not found".
Definition ErrInvalidParams : error := Errorf "invalid parameters".

(** The transaction of dsn_sendTransaction. *)
Record RawTx := mkRawTx {
  raw_Sender : string;
  raw_Nonce : Z;
  raw_ChainID : Z;
  raw_Payload : string;
  raw_Constraints : string;
  raw_GasLimit : Z;
  raw_MaxFee : Z;
  raw_Timestamp : Z;
  raw_Signature : string;
  raw_TxType : Z;
}.

(** A positional parameter: a string, a number as [uint64(x)] converts it, or
    anything else. *)
Inductive json_value :=
  | JString (s : string)
  | JNumber (n : Z)
  | JOther.

(** The readings of the clock during one call. *)
Record Clock := mkClock {
  ck_validate : Z;
  ck_submit : Z;
  ck_submitted : Z;
  ck_expire : Hash → Z;
  ck_list : Hash → Z;
}.

Definition starts0x (s : string) : bool := match str_bytes s with x30 :: x78 :: _ => true | _ => false end.

Definition hex_field (what s : string) : res bytes :=
  match hex_decode (stripHexPrefix s) with Some b => Ok b | None => Err (Errorf ("invalid " +:+ what)) end.

(** Payload and constraints are optional. *)
Definition hex_optional (what s : string) : res bytes := if bool_decide (s = "") then Ok [] else hex_field what s.

Definition sender_of (s : string) : res Address :=
  if starts0x s then
    addrBytes ← hex_field "sender address" s;
    wrap_res "invalid sender address" (AddressFromBytes addrBytes)
  else wrap_res "invalid sender address" (ParseAddress s).

(** The transaction that is submitted, with its intent id computed. *)
Definition transaction_of (raw : RawTx) : res Transaction :=
  sender ← sender_of (raw_Sender raw);
  signature ← hex_field "signature" (raw_Signature raw);
  payload ← hex_optional "payload" (raw_Payload raw);
  constraints ← hex_optional "constraints" (raw_Constraints raw);
  let tx := {| tx_Version := 0; tx_ChainID := raw_ChainID raw; tx_IntentID := ZeroHash; tx_Sender := sender; tx_Nonce := raw_Nonce raw;
               tx_Payload := payload; tx_Constraints := constraints; tx_MaxFee := raw_MaxFee raw; tx_GasLimit := raw_GasLimit raw;
               tx_Timestamp := raw_Timestamp raw; tx_Signature := signature; tx_TxType := raw_TxType raw |} in
  intentID ← wrap_res "failed to compute intent ID" (ComputeIntentID (H := SHA256Hasher) tx);
  Ok {| tx_Version := tx_Version tx; tx_ChainID := tx_ChainID tx; tx_IntentID := intentID; tx_Sender := tx_Sender tx;
        tx_Nonce := tx_Nonce tx; tx_Payload := tx_Payload tx; tx_Constraints := tx_Constraints tx; tx_MaxFee := tx_MaxFee tx;
        tx_GasLimit := tx_GasLimit tx; tx_Timestamp := tx_Timestamp tx; tx_Signature := tx_Signature tx; tx_TxType := tx_TxType tx |}.

Definition parse_address (address : string) : res Address :=
  match ParseAddress address with Err _ => Err (Wrapf "invalid address" ErrInvalidParams) | r => r end.

(** [copy(contractID[:], addr.Bytes())]: the address followed by twelve zeros. *)
Definition contract_of (addr : Address) : Hash := arr_copy 32 addr.

Definition MaxCallGas : Z := 1000000.
Definition gasLimitMin : Z := 21000.
Definition gasLimitMax : Z := 10000000.

Section service.
Context {DB Tx_ : Type} `{BoltDB DB Tx_} `{Ed25519}.
Abbreviation Node := (Node DB).

Definition nodeService_GetBlock (blockNumber : option Z) (blockHash : option string) : go Node BlockResult :=
  guard_err (bool_decide (blockNumber = None) && bool_decide (default "" blockHash = "")) (Errorf "block number or hash is required");;
  match blockNumber with
  | None => throw (Errorf "block lookup by hash not available: requires block indexer")
  | Some height =>
      r ← try (Node.GetBlock height);
      match r with
      | inl _ => throw (Errorf "block store not available: full block indexing requires an active node with synchronized state")
      | inr block =>
          let header := b_Header block in
          headerHash ← wrap "failed to compute block hash" (lift (HeaderHash (H := SHA256Hasher) header));
          mret {| br_Number := h_Height header; br_Hash := hashToHex headerHash; br_ParentHash := hashToHex (h_PreviousHash header);
                  br_Timestamp := h_Timestamp header;
                  br_Transactions := (λ tx, TransactionToResult tx 0 0 (h_Height header) (h_PreviousHash header)) <$> b_Transactions block;
                  br_Events := [] |}
      end
  end.

(** The first pending transaction whose hash is written like this. *)
Definition find_pending (show : Hash → string) (txHash : string) (txs : list Transaction) : option Transaction :=
  head (List.filter (λ tx, bool_decide (show (tx_IntentID tx) = txHash)) txs).

Definition nodeService_GetTransaction (ck : Clock) (txHash : string) : go Node TransactionResult :=
  txs ← Node_PendingTxs (ck_expire ck) (ck_list ck);
  match find_pending hashToHex txHash txs with
  | Some tx => mret (TransactionToResult tx 0 0 0 ZeroHash)
  | None => throw ErrNotFound
  end.

(** [s.node.State().GetAccount(addr)]. *)
Definition account_of (addr : Address) : go Node (option Account) := gets (λ n, accounts (nd_state n) !! addr).

Definition nodeService_GetAccount (address : string) : go Node AccountResult :=
  addr ← lift (parse_address address);
  acc ← account_of addr;
  mret match acc with
       | None => mkAccountResult address "0" 0 "0x" "0x"
       | Some acc => mkAccountResult address (dec (acc_Balance acc)) (acc_Nonce acc) (hashToHex (acc_CodeHash acc)) (hashToHex (acc_StorageRoot acc))
       end.

(** The decimal form of the balance is parsed again, which gives the balance. *)
Definition nodeService_GetBalance (address : string) : go Node Z :=
  addr ← lift (parse_address address);
  acc ← account_of addr;
  mret match acc with None => 0 | Some acc => acc_Balance acc end.

Definition nodeService_GetContract (address : string) : go Node ContractResult :=
  addr ← lift (parse_address address);
  acc ← account_of addr;
  match acc with
  | None => throw ErrNotFound
  | Some acc =>
      guard_err (bool_decide (acc_CodeHash acc = ZeroHash)) ErrNotFound;;
      meta ← try (on_state (GetContractMeta (acc_CodeHash acc)));
      mret (ContractToResult address match meta with inl _ => None | inr m => Some m end (acc_CodeHash acc))
  end.

(** [Snapshot], [Execute] and [RevertToSnapshot], whose error is ignored. *)
Definition nodeService_CallContract (address entrypoint data : string) (gasLimit : Z) : go Node CallResult :=
  let gasLimit := if gasLimit =? 0 then MaxCallGas else gasLimit in
  guard_err (MaxCallGas <? gasLimit) (Wrapf "gas limit exceeds maximum (1,000,000)" ErrInvalidParams);;
  addr ← lift (parse_address address);
  snapID ← on_state Snapshot;
  match (if bool_decide (data = "") then Some [] else hex_decode (stripHexPrefix data)) with
  | None =>
      try (on_state (RevertToSnapshot snapID));;
      throw (Wrapf "invalid calldata" ErrInvalidParams)
  | Some calldata =>
      let tx := mkCallContractTx ZeroAddress 0 (contract_of addr) entrypoint calldata 0 gasLimit [] in
      vm ← gets (λ n, w_vm (nd_wiring n));
      match vm with
      | None => gopanic
      | Some execute =>
          r ← try (on_state (execute (CallTx tx) 0 0 0));
          try (on_state (RevertToSnapshot snapID));;
          match r with
          | inl e => throw e
          | inr result => mret (mkCallResult (hex (ReturnData result)) (GasUsed result) (Reverted result) (eventsToResults (Events result)))
          end
      end
  end.

(** The binary search, [None] when the turns run out: 25 are enough
    ([estimate_enough]). *)
Fixpoint estimate (turns : nat) (address data : string) (lo hi lastSuccess : Z) : go Node (option Z) :=
  match turns with
  | O => mret None
  | S turns =>
      if hi <? lo then mret (Some lastSuccess) else
      let mid := u64 (lo + hi) / 2 in
      r ← try (nodeService_CallContract address "call" data mid);
      match r with
      | inl _ => estimate turns address data (u64 (mid + 1)) hi lastSuccess
      | inr result =>
          if ca_Reverted result then estimate turns address data (u64 (mid + 1)) hi lastSuccess
          else if mid =? gasLimitMin then mret (Some mid)
          else estimate turns address data lo (u64 (mid - 1)) mid
      end
  end.

Definition estimate_turns : nat := 25.

Definition nodeService_EstimateGas (address data : string) : go Node (option Z) :=
  lift (parse_address address);;
  r ← estimate estimate_turns address data gasLimitMin gasLimitMax 0;
  match r with
  | None => mret None
  | Some lastSuccess =>
      guard_err (lastSuccess =? 0) (Errorf "gas estimation failed: call reverts at all gas limits");;
      mret (Some lastSuccess)
  end.

(** [raw]: what the JSON decodes to. *)
Definition nodeService_SendTransaction (ck : Clock) (raw : res RawTx) : go Node string :=
  raw ← wrap "failed to parse transaction JSON" (lift raw);
  tx ← lift (transaction_of raw);
  wrap "transaction validation failed" (lift (Transaction_Validate (ck_validate ck) tx));;
  wrap "failed to submit transaction to mempool" (SubmitTx (ck_submit ck) (ck_submitted ck) tx);;
  mret (hashToHex (tx_IntentID tx)).

Definition nodeService_GetEvents (filter : EventFilter) : go Node (list EventResult) :=
  throw (Errorf "event querying not available: requires event indexer (Phase 6)").

Definition nodeService_GetValidators (epoch : option Z) : go Node (list ValidatorResult) :=
  throw (Errorf "validator set query not available: requires active staking state synchronization").

(** The loop over the accounts, with the two sums. *)
Definition nodeService_GetSupply : go Node SupplyResult :=
  accs ← gets (λ n, accounts (nd_state n));
  let '(total, circulating) :=
    fold_left (λ sums e, (sums.1 + acc_Balance e.2, sums.2 + acc_Balance e.2)) (map_to_list accs) (0, 0) in
  mret (mkSupplyResult (dec total) (dec circulating) (dec 0)).

Definition nodeService_GetCurrentHeight : Z := 0.

Definition nodeService_GetContractState (address key : string) : go Node string :=
  addr ← lift (parse_address address);
  value ← try (on_state (GetContractStorage (contract_of addr) (str_bytes key)));
  mret match value with
       | inl _ => ""
       | inr value => if bool_decide (length value = 0%nat) then "" else hex value
       end.

(** [strings.TrimPrefix(txHash, "0x")] as a string. *)
Definition trim0x (s : string) : string := bytes_str (strip0x (str_bytes s)).

Definition nodeService_GetTransactionReceipt (ck : Clock) (txHash : string) : go Node TxReceipt :=
  guard_err (bool_decide (txHash = "")) (Wrapf "txHash is required" ErrInvalidParams);;
  let txHash := trim0x txHash in
  txs ← Node_PendingTxs (ck_expire ck) (ck_list ck);
  match find_pending (λ h, hex h) txHash txs with
  | Some tx => mret (mkTxReceipt ("0x" +:+ txHash) 0 "" 0 (tx_GasLimit tx) "pending" "")
  | None => throw ErrNotFound
  end.
End service.

(** ** Requests (rpc/handlers.go) *)

Record GetBlockRequest := mkGetBlockRequest { gb_BlockNumber : option Z; gb_BlockHash : option string }.
Record CallContractRequest := mkCallContractRequest { cc_Address : string; cc_Entrypoint : string; cc_Data : string; cc_GasLimit : Z }.
Record EstimateGasRequest := mkEstimateGasRequest { eg_Address : string; eg_Data : string }.
Record GetContractStateRequest := mkGetContractStateRequest { gs_Address : string; gs_Key : string }.

(** encoding/json on the parameters: the requests with a single field are that
    field; a list for positional parameters; [unmarshal_tx] reads the
    transaction of dsn_sendTransaction. *)
Class RequestJson : Type := {
  unmarshal_getBlock : bytes → res GetBlockRequest;
  unmarshal_txHash : bytes → res string;
  unmarshal_address : bytes → res string;
  unmarshal_callContract : bytes → res CallContractRequest;
  unmarshal_estimateGas : bytes → res EstimateGasRequest;
  unmarshal_sendTransaction : bytes → res bytes;
  unmarshal_getEvents : bytes → res EventFilterParams;
  unmarshal_getValidators : bytes → res (option Z);
  unmarshal_getContractState : bytes → res GetContractStateRequest;
  unmarshal_args : bytes → res (list json_value);
  unmarshal_raws : bytes → res (list bytes);
  unmarshal_tx : bytes → res RawTx;
}.

(** The named form, or else the first positional parameter. *)
Definition positional {A B} (named : res A) (args : res (list B)) (zero : A) (first : B → A) : res A :=
  match named with
  | Err _ => match args with Ok (a :: _) => Ok (first a) | Ok [] => Ok zero | Err e => Err e | Panic => Panic end
  | r => r
  end.

Definition string_arg (v : json_value) : string := match v with JString s => s | _ => "" end.

Section requests.
Context `{RequestJson}.

Definition parseGetBalanceRequest (params : bytes) : res string :=
  positional (unmarshal_address params) (unmarshal_args params) "" string_arg.

Definition parseSendTransactionRequest (params : bytes) : res bytes :=
  positional (unmarshal_sendTransaction params) (unmarshal_raws params) [] id.

Definition parseGetValidatorsRequest (params : bytes) : res (option Z) :=
  positional (unmarshal_getValidators params) (unmarshal_args params) None (λ v, match v with JNumber n => Some n | _ => None end).

Definition parseGetTransactionReceiptRequest (params : bytes) : res string :=
  positional (unmarshal_txHash params) (unmarshal_args params) "" string_arg.
End requests.

(** [hexToBytes]; a string of the two characters 0x is empty. *)
Definition hexToBytes (s : string) : option bytes :=
  if bool_decide (s = "") || bool_decide (s = "0x") then Some [] else hex_decode (stripHexPrefix s).

(** A request id: a number, a string or null; every other value is null. *)
Inductive request_id :=
  | IdNumber (n : Z)
  | IdString (s : string)
  | IdNull.

(** ** Responses and dispatch (rpc/server.go) *)

Inductive rpc_result :=
  | RBlock (b : BlockResult)
  | RTransaction (t : TransactionResult)
  | RTxHash (h : string)
  | RAccount (a : AccountResult)
  | RBalance (b : string)
  | RContract (c : ContractResult)
  | RCall (c : CallResult)
  | RGas (gas : Z)
  | RValue (v : string)
  | RReceipt (r : TxReceipt)
  | REvents (l : list EventResult)
  | RValidators (l : list ValidatorResult)
  | RSupply (s : SupplyResult)
  | RStateRoot (s : string)
  | RPendingTxs.

Record RPCRequest := mkRPCRequest {
  rq_JSONRPC : string;
  rq_Method : string;
  rq_Params : bytes;
  rq_ID : request_id;
}.

(** The message of an error is the error whose text it is. *)
Record RPCError := mkRPCError {
  re_Code : Z;
  re_Message : error;
}.

Record RPCResponse := mkRPCResponse {
  rp_JSONRPC : string;
  rp_Result : option rpc_result;
  rp_Error : option RPCError;
  rp_ID : request_id;
}.

Definition successResponse (i : request_id) (result : rpc_result) : RPCResponse := mkRPCResponse "2.0" (Some result) None i.
Definition errorResponse (i : request_id) (code : Z) (message : error) : RPCResponse :=
  mkRPCResponse "2.0" None (Some (mkRPCError code message)) i.

Definition ParseError : Z := -32700.
Definition InvalidRequest : Z := -32600.
Definition MethodNotFound : Z := -32601.
Definition InvalidParams : Z := -32602.
Definition ServerError : Z := -32000.

(** ** Validation (rpc/middleware/validation.go) *)

Definition ValidateRequest (jsonrpc method : string) : option RPCError :=
  if negb (bool_decide (jsonrpc = "2.0")) then Some (mkRPCError InvalidRequest (Errorf "invalid jsonrpc version, must be 2.0"))
  else if bool_decide (method = "") then Some (mkRPCError InvalidRequest (Errorf "method is required"))
  else None.

Fixpoint trim_space (data : bytes) : bytes :=
  match data with
  | b :: rest => if bool_decide (b = x20) || bool_decide (b = x0a) || bool_decide (b = x09) || bool_decide (b = x0d)
                 then trim_space rest else data
  | [] => []
  end.

Definition ValidateBatchRequest (data : bytes) : option RPCError :=
  match trim_space data with
  | x5b :: _ => Some (mkRPCError InvalidRequest (Errorf "batch requests not supported in v1"))
  | _ => None
  end.

(** Characters outside of ASCII are not digits, nor are their bytes. *)
Definition isValidHex (s : bytes) : bool := forallb (λ c, bool_decide (is_Some (hex_digit c))) s.

Definition ValidateHexString (s : string) (maxLen : Z) : option RPCError :=
  if bool_decide (s = "") then None else
  let s := stripHexPrefix s in
  if maxLen <? Z.of_nat (length s) then Some (mkRPCError InvalidParams (Errorf "hex string exceeds maximum length"))
  else if negb (isValidHex s) then Some (mkRPCError InvalidParams (Errorf "invalid hex string: contains non-hex characters"))
  else None.

(** The regular expression: 0x and 40 hexadecimal digits. *)
Definition address_match (s : bytes) : bool :=
  match s with
  | x30 :: x78 :: rest => bool_decide (length rest = 40%nat) && isValidHex rest
  | _ => false
  end.

Definition ValidateAddress (addr : string) : option RPCError :=
  if bool_decide (addr = "") then Some (mkRPCError InvalidParams (Errorf "address is required"))
  else if negb (address_match (str_bytes addr))
  then Some (mkRPCError InvalidParams (Errorf "invalid address format: must be 0x followed by 40 hex characters"))
  else None.

Definition ValidateBlockHash (hash : string) : option RPCError :=
  let s := str_bytes hash in
  if bool_decide (hash = "") then None
  else if negb (bool_decide (length s = 64%nat)) then Some (mkRPCError InvalidParams (Errorf "invalid block hash: must be 64 hex characters"))
  else if negb (isValidHex s) then Some (mkRPCError InvalidParams (Errorf "invalid block hash: contains non-hex characters"))
  else None.

Definition MaxTransactionHash : Z := 64.

Definition ValidateTransactionHash (hash : string) : option RPCError :=
  let n := length (str_bytes hash) in
  if bool_decide (hash = "") then None
  else if negb (bool_decide (n = 64%nat)) && negb (bool_decide (n = 66%nat))
  then Some (mkRPCError InvalidParams (Errorf "invalid transaction hash: must be 64 hex characters"))
  else ValidateHexString hash MaxTransactionHash.

Definition ValidateGasLimit (gasLimit : Z) : option RPCError :=
  if MaxCallGas <? gasLimit then Some (mkRPCError InvalidParams (Errorf "gas limit exceeds maximum (1,000,000)")) else None.

(** Here the prefix counts for the length. *)
Definition ParseAndValidateHex (s : string) (maxLen : Z) : bytes * option RPCError :=
  if bool_decide (s = "") then ([], None) else
  if maxLen <? Z.of_nat (length (str_bytes s)) then ([], Some (mkRPCError InvalidParams (Errorf "hex string exceeds maximum length"))) else
  let s := stripHexPrefix s in
  if negb (isValidHex s) then ([], Some (mkRPCError InvalidParams (Errorf "invalid hex string: contains non-hex characters"))) else
  match hex_decode s with
  | None => ([], Some (mkRPCError InvalidParams (Errorf "invalid hex string: ")))
  | Some data => (data, None)
  end.

Definition NormalizeHex (s : string) : string :=
  match str_bytes s with
  | [] => ""
  | x30 :: x78 :: rest | x30 :: x58 :: rest => "0x" +:+ bytes_str rest
  | _ => "0x" +:+ s
  end.

Section server.
Context {DB Tx_ : Type} `{BoltDB DB Tx_} `{Ed25519} `{RequestJson}.
Abbreviation Node := (Node DB).

Definition required {A} (what s : string) (call : go Node A) : go Node A :=
  guard_err (bool_decide (s = "")) (Wrapf (what +:+ " is required") ErrInvalidParams);; call.

(** The handlers of handlers.go that add checks or defaults. *)
Definition handleCallContract (req : CallContractRequest) : go Node CallResult :=
  required "address" (cc_Address req) (
    nodeService_CallContract (cc_Address req) (if bool_decide (cc_Entrypoint req = "") then "call" else cc_Entrypoint req)
      (cc_Data req) (if cc_GasLimit req =? 0 then MaxCallGas else cc_GasLimit req)).

Definition handleGetBalance (address : string) : go Node string :=
  required "address" address (balance ← nodeService_GetBalance address; mret (dec balance)).

Definition handleSendTransaction (ck : Clock) (txJSON : bytes) : go Node string :=
  guard_err (bool_decide (txJSON = [])) (Wrapf "transaction is required" ErrInvalidParams);;
  nodeService_SendTransaction ck (unmarshal_tx txJSON).

Definition handleGetContractState (req : GetContractStateRequest) : go Node string :=
  required "address" (gs_Address req) (required "key" (gs_Key req) (nodeService_GetContractState (gs_Address req) (gs_Key req))).

(** One method: parse the parameters, call, and answer with the result or an
    error. [special] is the text for [ErrNotFound], if there is one. *)
Definition respond {A B} (req : RPCRequest) (params : res A) (call : A → go Node B) (special : option string) (result : B → rpc_result)
    : go Node RPCResponse :=
  match params with
  | Panic => gopanic
  | Err e => mret (errorResponse (rq_ID req) InvalidParams (Wrapf "invalid params" e))
  | Ok p =>
      r ← try (call p);
      mret match r with
           | inl e => errorResponse (rq_ID req) ServerError
                        match special with
                        | Some msg => if bool_decide (e = ErrNotFound) then Errorf msg else e
                        | None => e
                        end
           | inr a => successResponse (rq_ID req) (result a)
           end
  end.

Definition handleGetTransaction (ck : Clock) (txHash : string) : go Node TransactionResult :=
  required "txHash" txHash (nodeService_GetTransaction ck txHash).
Definition handleGetAccount (address : string) : go Node AccountResult := required "address" address (nodeService_GetAccount address).
Definition handleGetContract (address : string) : go Node ContractResult := required "address" address (nodeService_GetContract address).
Definition handleEstimateGas (req : EstimateGasRequest) : go Node (option Z) :=
  required "address" (eg_Address req) (nodeService_EstimateGas (eg_Address req) (eg_Data req)).
Definition handleGetTransactionReceipt (ck : Clock) (txHash : string) : go Node TxReceipt :=
  required "txHash" txHash (nodeService_GetTransactionReceipt ck txHash).

(** The handler of each method (rpc/server.go). *)
Definition handleRPCGetBlock (req : RPCRequest) : go Node RPCResponse :=
  respond req (unmarshal_getBlock (rq_Params req)) (λ p, nodeService_GetBlock (gb_BlockNumber p) (gb_BlockHash p)) None RBlock.
Definition handleRPCGetTransaction (ck : Clock) (req : RPCRequest) : go Node RPCResponse :=
  respond req (unmarshal_txHash (rq_Params req)) (handleGetTransaction ck) (Some "transaction not found") RTransaction.
Definition handleRPCSendTransaction (ck : Clock) (req : RPCRequest) : go Node RPCResponse :=
  respond req (parseSendTransactionRequest (rq_Params req)) (handleSendTransaction ck) None RTxHash.
Definition handleRPCGetAccount (req : RPCRequest) : go Node RPCResponse :=
  respond req (unmarshal_address (rq_Params req)) handleGetAccount None RAccount.
Definition handleRPCGetBalance (req : RPCRequest) : go Node RPCResponse :=
  respond req (parseGetBalanceRequest (rq_Params req)) handleGetBalance None RBalance.
Definition handleRPCGetContract (req : RPCRequest) : go Node RPCResponse :=
  respond req (unmarshal_address (rq_Params req)) handleGetContract (Some "contract not found") RContract.
Definition handleRPCCallContract (req : RPCRequest) : go Node RPCResponse :=
  respond req (unmarshal_callContract (rq_Params req)) handleCallContract None RCall.
Definition handleRPCEstimateGas (req : RPCRequest) : go Node RPCResponse :=
  respond req (unmarshal_estimateGas (rq_Params req)) handleEstimateGas None (λ gas, RGas (default 0 gas)).
Definition handleRPCGetContractState (req : RPCRequest) : go Node RPCResponse :=
  respond req (unmarshal_getContractState (rq_Params req)) handleGetContractState None RValue.
Definition handleRPCGetTransactionReceipt (ck : Clock) (req : RPCRequest) : go Node RPCResponse :=
  respond req (parseGetTransactionReceiptRequest (rq_Params req)) (handleGetTransactionReceipt ck) None RReceipt.
Definition handleRPCGetEvents (req : RPCRequest) : go Node RPCResponse :=
  respond req (unmarshal_getEvents (rq_Params req)) (λ p, nodeService_GetEvents (ToEventFilter p)) None REvents.
Definition handleRPCGetValidators (req : RPCRequest) : go Node RPCResponse :=
  respond req (parseGetValidatorsRequest (rq_Params req)) nodeService_GetValidators None RValidators.
Definition handleRPCGetSupply (req : RPCRequest) : go Node RPCResponse := respond req (Ok tt) (λ _, nodeService_GetSupply) None RSupply.
Definition handleLegacyGetStateRoot (req : RPCRequest) : go Node RPCResponse :=
  mret (successResponse (rq_ID req) (RStateRoot "0x0000000000000000000000000000000000000000000000000000000000000000")).
Definition handleLegacyGetPendingTxs (req : RPCRequest) : go Node RPCResponse := mret (successResponse (rq_ID req) RPendingTxs).

Definition handleRequest (ck : Clock) (req : RPCRequest) : go Node RPCResponse :=
  let called (m : string) := bool_decide (rq_Method req = m) in
  if called "dsn_getBlock" then handleRPCGetBlock req
  else if called "dsn_getTransaction" then handleRPCGetTransaction ck req
  else if called "dsn_sendTransaction" then handleRPCSendTransaction ck req
  else if called "dsn_getAccount" then handleRPCGetAccount req
  else if called "dsn_getBalance" then handleRPCGetBalance req
  else if called "dsn_getContract" then handleRPCGetContract req
  else if called "dsn_callContract" then handleRPCCallContract req
  else if called "dsn_estimateGas" then handleRPCEstimateGas req
  else if called "dsn_getContractState" then handleRPCGetContractState req
  else if called "dsn_getTransactionReceipt" then handleRPCGetTransactionReceipt ck req
  else if called "dsn_getEvents" then handleRPCGetEvents req
  else if called "dsn_getValidators" then handleRPCGetValidators req
  else if called "dsn_getSupply" then handleRPCGetSupply req
  else if called "dsn_getStateRoot" then handleLegacyGetStateRoot req
  else if called "dsn_getPendingTxs" then handleLegacyGetPendingTxs req
  else mret (errorResponse (rq_ID req) MethodNotFound (Errorf ("method not found: " +:+ rq_Method req))).

(** [ServeHTTP]: the method and the body of the request, [None] for a response
    without a body; [unmarshal_request] is [json.Unmarshal]. *)
Definition ServeHTTP (ck : Clock) (unmarshal_request : bytes → res RPCRequest) (method : string) (body : res bytes)
    : go Node (option RPCResponse) :=
  if bool_decide (method = "OPTIONS") then mret None else
  if negb (bool_decide (method = "POST")) then mret (Some (errorResponse IdNull InvalidRequest (Errorf "only POST allowed"))) else
  match body with
  | Panic => gopanic
  | Err _ => mret (Some (errorResponse IdNull ParseError (Errorf "read error")))
  | Ok body =>
      match ValidateBatchRequest body with
      | Some e => mret (Some (errorResponse IdNull (re_Code e) (re_Message e)))
      | None =>
          match unmarshal_request body with
          | Panic => gopanic
          | Err e => mret (Some (errorResponse IdNull ParseError (Wrapf "parse error" e)))
          | Ok req =>
              match ValidateRequest (rq_JSONRPC req) (rq_Method req) with
              | Some e => mret (Some (errorResponse (rq_ID req) (re_Code e) (re_Message e)))
              | None => resp ← handleRequest ck req; mret (Some resp)
              end
          end
      end
  end.
End server.

(** ** Lemmas *)

(** *** Calls that change nothing *)

Section quiet.
Context {DB Tx_ : Type} `{BoltDB DB Tx_} `{Ed25519} `{Wazero}.
Abbreviation Node := (Node DB).
Implicit Types n : Node.

(** On a node with its virtual machine, unless it panics. *)
Definition quiet {A} (m : go Node A) : Prop := ∀ n n' r,
  w_vm (nd_wiring n) = Some Execute → m n = (n', r) → r ≠ Panic → n' = n.

Lemma quiet_fixed {A} (m : go Node A) : (∀ n, (m n).1 = n) → quiet m.
Proof. intros Hm n n' r _ E _. by rewrite <- (Hm n), E. Qed.

Lemma quiet_bind {A B} (m : go Node A) (f : A → go Node B) : quiet m → (∀ a, quiet (f a)) → quiet (m ≫= f).
Proof.
  intros Hm Hf n n' r Hv E Hr. unfold mbind, go_bind in E. destruct (m n) as [n1 r1] eqn:E1.
  destruct r1 as [a|e|].
  - pose proof (Hm n n1 (Ok a) Hv E1 ltac:(done)) as ->. by apply (Hf a n n' r).
  - injection E as <- <-. by apply (Hm n n1 (Err e)).
  - injection E as <- <-. done.
Qed.

Lemma quiet_try {A} (m : go Node A) : quiet m → quiet (try m).
Proof.
  intros Hm n n' r Hv E Hr. unfold try in E. destruct (m n) as [n1 r1] eqn:E1.
  destruct r1 as [a|e|]; injection E as <- <-; [by apply (Hm n n1 (Ok a))|by apply (Hm n n1 (Err e))|done].
Qed.

Lemma quiet_wrap {A} msg (m : go Node A) : quiet m → quiet (wrap msg m).
Proof.
  intros Hm n n' r Hv E Hr. unfold wrap in E. destruct (m n) as [n1 r1] eqn:E1.
  destruct r1 as [a|e|]; injection E as <- <-; [by apply (Hm n n1 (Ok a))|by apply (Hm n n1 (Err e))|done].
Qed.

Lemma quiet_guard c e : quiet (guard_err c e).
Proof. apply quiet_fixed. intros n. unfold guard_err. by destruct c. Qed.

Lemma with_state_id n : with_state (nd_state n) n = n.
Proof. by destruct n. Qed.

Lemma quiet_on_state {A} (m : go InMemoryState A) : (∀ s, (m s).1 = s) → quiet (on_state m).
Proof.
  intros Hm. apply quiet_fixed. intros n. unfold on_state, zoom. specialize (Hm (nd_state n)).
  destruct (m (nd_state n)) as [s r]. cbn in *. subst s. apply with_state_id.
Qed.

Lemma quiet_GetBlock height : quiet (Node.GetBlock height).
Proof.
  apply quiet_fixed. intros n. unfold Node.GetBlock, has_persistent, gets, guard_err, mbind, go_bind.
  destruct (nd_persistent n) as [[ps db]|] eqn:E; cbn; [|done].
  unfold on_disk, on_persistent, zoom. rewrite E. unfold LoadBlock, View. cbn [snd fst]. rewrite <- E. by destruct n.
Qed.
End quiet.

Create HintDb quiet.
#[export] Hint Resolve quiet_bind quiet_try quiet_wrap quiet_guard quiet_on_state quiet_GetBlock : quiet.
#[export] Hint Extern 5 (quiet _) => (apply quiet_fixed; intros n; by repeat case_match) : quiet.

(** [hush]: go through a sequence of calls. *)
Ltac hush := repeat first
  [ progress eauto with quiet
  | progress intros
  | apply quiet_bind
  | match goal with |- quiet (match ?x with _ => _ end) => destruct x end ].

(** Whatever was pushed on top of the first snapshot, going back to it restores
    the state. *)
Lemma revert_to_start (s s1 : InMemoryState) :
  smt s1 = smt s → (∃ later, snapshots s1 = snapshots (Snapshot s).1 ++ later) →
  RevertToSnapshot (Z.of_nat (length (snapshots s))) s1 = (s, Ok tt).
Proof.
  intros Hm [later Hs]. unfold RevertToSnapshot. rewrite Hs, Hm. cbn [Snapshot fst snapshots].
  rewrite !length_app, Nat2Z.id. cbn [length].
  rewrite (proj2 (Z.ltb_ge _ 0)) by lia. rewrite (proj2 (Z.leb_gt _ _)) by lia. cbn [orb].
  rewrite <- app_assoc, lookup_app_r, Nat.sub_diag by lia. cbn [app lookup list_lookup snap_accounts snap_kvstore].
  rewrite take_app_length. by destruct s.
Qed.

(** What an execution does to the parts that matter for going back. *)
Lemma Execute_keeps `{Wazero} tx h ts i s s' r :
  Execute tx h ts i s = (s', r) → r ≠ Panic → smt s' = smt s ∧ ∃ later, snapshots s' = snapshots s ++ later.
Proof.
  intros He Hr. destruct (Execute_cases _ _ _ _ _ _ _ He Hr) as [(s1 & e & _ & _ & ->)|[(s1 & res & _ & _ & -> & _)|(res & Hx & _ & _)]].
  - split; [done|]. exists []. by rewrite app_nil_r.
  - split; [done|]. exists []. by rewrite app_nil_r.
  - destruct (execute_touches tx h ts i (Snapshot s).1) as (_ & Hm & Hs & _). rewrite Hx in Hm, Hs. cbn in Hm, Hs.
    split; [done|]. by eexists.
Qed.

Section calls.
Context {DB Tx_ : Type} `{BoltDB DB Tx_} `{Ed25519}.
Abbreviation Node := (Node DB).
Implicit Types n : Node.

Lemma on_state_run {A} (m : go InMemoryState A) n s r : m (nd_state n) = (s, r) → on_state m n = (with_state s n, r).
Proof. intros E. unfold on_state, zoom. by rewrite E. Qed.

Lemma quiet_CallContract `{Wazero} address entrypoint data gasLimit : quiet (nodeService_CallContract (DB := DB) address entrypoint data gasLimit).
Proof.
  unfold nodeService_CallContract. apply quiet_bind; [apply quiet_guard|intros _]. apply quiet_bind; [by apply quiet_fixed|intros addr].
  intros n n' r Hv E Hr. set (s := nd_state n) in *.
  rewrite (go_bind_ok _ _ n (with_state (Snapshot s).1 n) (Z.of_nat (length (snapshots s)))) in E by (by apply on_state_run).
  destruct (if bool_decide (data = "") then _ else _) as [calldata|].
  - unfold gets in E. rewrite (go_bind_ok _ _ _ (with_state (Snapshot s).1 n) (Some Execute)) in E by (by rewrite <- Hv).
    match type of E with context [Execute ?t 0 0 0] => destruct (Execute t 0 0 0 (Snapshot s).1) as [s2 r2] eqn:Ex end.
    assert (r2 = Panic ∨ r2 ≠ Panic) as [-> | Hr2] by (destruct r2; [by right|by right|by left]).
    { unfold mbind, go_bind, try in E. rewrite (on_state_run _ (with_state (Snapshot s).1 n) s2 Panic Ex) in E. injection E as <- <-. done. }
    destruct (Execute_keeps _ _ _ _ _ _ _ Ex Hr2) as (Hm & Hs).
    pose proof (revert_to_start s s2 Hm Hs) as Hback.
    assert (on_state (RevertToSnapshot (Z.of_nat (length (snapshots s)))) (with_state s2 n) = (n, Ok tt)) as Hrev.
    { rewrite (on_state_run _ (with_state s2 n) s (Ok tt) Hback). rewrite with_state_twice; unfold s; by rewrite with_state_id. }
    unfold mbind, go_bind in E. unfold try at 1 in E. rewrite (on_state_run _ (with_state (Snapshot s).1 n) s2 r2 Ex) in E.
    destruct r2 as [res|e|]; [| |done]; rewrite with_state_twice in E; unfold try in E; rewrite Hrev in E;
      by injection E as <- <-.
  - unfold mbind, go_bind, try in E.
    assert (on_state (RevertToSnapshot (Z.of_nat (length (snapshots s)))) (with_state (Snapshot s).1 n) = (n, Ok tt)) as Hrev.
    { rewrite (on_state_run _ (with_state (Snapshot s).1 n) s (Ok tt)); [rewrite with_state_twice; unfold s; by rewrite with_state_id|].
      apply revert_to_start; [done|]. exists []. by rewrite app_nil_r. }
    rewrite Hrev in E. by injection E as <- <-.
Qed.
End calls.

(** *** The binary search of the gas *)

Section gas.
Context {DB Tx_ : Type} `{BoltDB DB Tx_} `{Ed25519}.
Abbreviation Node := (Node DB).
Implicit Types n : Node.

Lemma call_over_limit address entrypoint data gas n :
  MaxCallGas < gas → nodeService_CallContract address entrypoint data gas n
  = (n, Err (Wrapf "gas limit exceeds maximum (1,000,000)" ErrInvalidParams)).
Proof.
  intros Hg. unfold nodeService_CallContract. rewrite (proj2 (Z.eqb_neq gas 0)) by (unfold MaxCallGas in Hg; lia).
  unfold guard_err. by rewrite (proj2 (Z.ltb_lt _ _) Hg).
Qed.

Lemma mid_bounds lo hi : 0 <= lo → lo <= hi → hi <= gasLimitMax → u64 (lo + hi) / 2 = (lo + hi) / 2 ∧ lo <= (lo + hi) / 2 <= hi.
Proof.
  unfold gasLimitMax. intros Hl Hle Hh. rewrite u64_small by (unfold is_u64; lia). split; [done|].
  split; [apply Z.div_le_lower_bound; lia|apply Z.div_le_upper_bound; lia].
Qed.

(** While the middle is above the limit of a call, the search only goes up. *)
Lemma estimate_up turns address data lo hi n :
  0 <= lo → hi <= gasLimitMax → hi - lo + 1 < 2 ^ Z.of_nat turns → (hi < lo ∨ MaxCallGas < (lo + hi) / 2) →
  estimate (S turns) address data lo hi 0 n = (n, Ok (Some 0)).
Proof.
  revert lo. induction turns as [|turns IH]; intros lo Hlo Hhi Hsize Hmid.
  - cbn in Hsize. cbn [estimate]. by rewrite (proj2 (Z.ltb_lt hi lo)) by lia.
  - destruct (Z.ltb_spec hi lo) as [Hl|Hl]; [cbn [estimate]; by rewrite (proj2 (Z.ltb_lt hi lo) Hl)|].
    destruct Hmid as [Hmid|Hmid]; [lia|]. destruct (mid_bounds lo hi Hlo Hl Hhi) as [Em [Hm1 Hm2]].
    remember (S turns) as t eqn:Et. cbn [estimate]. rewrite (proj2 (Z.ltb_ge hi lo) Hl), Em. cbv zeta.
    rewrite (go_bind_ok _ _ n n (inl (Wrapf "gas limit exceeds maximum (1,000,000)" ErrInvalidParams)))
      by (unfold try; by rewrite call_over_limit). cbv beta iota.
    rewrite u64_small by (unfold is_u64, gasLimitMax in *; lia). subst t. apply IH; [lia|done| |].
    + rewrite Nat2Z.inj_succ, Z.pow_succ_r in Hsize by lia. pose proof (Z.div_mod (lo + hi) 2 ltac:(lia)).
      pose proof (Z.mod_pos_bound (lo + hi) 2 ltac:(lia)). lia.
    + destruct (Z.ltb_spec hi ((lo + hi) / 2 + 1)); [by left|right]. eapply Z.lt_le_trans; [exact Hmid|].
      apply Z.div_le_mono; lia.
Qed.

(** Whatever the calls answer, the turns do not run out. *)
Lemma estimate_enough turns address data lo hi last n n' r :
  gasLimitMin <= lo → hi <= gasLimitMax → hi - lo + 1 < 2 ^ Z.of_nat turns →
  estimate (S turns) address data lo hi last n = (n', Ok r) → r ≠ None.
Proof.
  revert lo hi last n. induction turns as [|turns IH]; intros lo hi last n Hlo Hhi Hsize.
  { cbn in Hsize. cbn [estimate]. rewrite (proj2 (Z.ltb_lt hi lo)) by lia. by intros [= _ <-]. }
  destruct (Z.ltb_spec hi lo) as [Hl|Hl]; [cbn [estimate]; rewrite (proj2 (Z.ltb_lt hi lo) Hl); by intros [= _ <-]|].
  destruct (mid_bounds lo hi ltac:(unfold gasLimitMin in *; lia) Hl Hhi) as [Em [Hm1 Hm2]].
  rewrite Nat2Z.inj_succ, Z.pow_succ_r in Hsize by lia. pose proof (Z.div_mod (lo + hi) 2 ltac:(lia)).
  pose proof (Z.mod_pos_bound (lo + hi) 2 ltac:(lia)).
  remember (S turns) as t eqn:Et. cbn [estimate]. rewrite (proj2 (Z.ltb_ge hi lo) Hl), Em. cbv zeta.
  rewrite !u64_small by (unfold is_u64, gasLimitMin, gasLimitMax in *; lia).
  intros (n1 & o & _ & E)%go_bind_inv. subst t. destruct o as [e|res].
  - revert E. apply IH; lia.
  - destruct (ca_Reverted res); [revert E; apply IH; lia|].
    destruct (Z.eqb_spec ((lo + hi) / 2) gasLimitMin); [by injection E as _ <-|]. revert E. apply IH; lia.
Qed.
End gas.

(** *** Pending transactions *)

Lemma hashToHex_inj h1 h2 : hashToHex h1 = hashToHex h2 → h1 = h2.
Proof. unfold hashToHex. intros [= E]. by apply arr_eq, hex_inj. Qed.

Lemma trim0x_hashToHex h : trim0x (hashToHex h) = hex h.
Proof. apply bytes_str_bytes. Qed.

Lemma find_pending_self show txs tx :
  tx ∈ txs → NoDup (tx_IntentID <$> txs) → (∀ h1 h2 : Hash, show h1 = show h2 → h1 = h2) →
  find_pending show (show (tx_IntentID tx)) txs = Some tx.
Proof.
  intros Hin Hnd Hinj. unfold find_pending. destruct (head (List.filter _ txs)) as [tx'|] eqn:E.
  - apply head_Some_elem_of, elem_of_filter_list in E as [Hin' E%bool_decide_eq_true%Hinj].
    f_equal. by apply (NoDup_fmap_inj_on tx_IntentID txs).
  - apply head_None in E. exfalso.
    assert (tx ∈ List.filter (λ t, bool_decide (show (tx_IntentID t) = show (tx_IntentID tx))) txs) as Hc.
    { apply elem_of_filter_list. split; [done|]. by apply bool_decide_eq_true_2. }
    rewrite E in Hc. by apply not_elem_of_nil in Hc.
Qed.

Lemma Submit_stored {DB Tx_} `{BoltDB DB Tx_} `{Ed25519} state nowUnix now tx (mp mp' : Mempool DB) u :
  Submit state nowUnix now tx mp = (mp', Ok u) →
  mp_txs mp' !! tx_IntentID tx = Some (mkPendingTx tx now) ∧ mp_ttl mp' = mp_ttl mp.
Proof.
  unfold Submit. destruct (admit_tx _ _ _ _) as [[]| |]; [|done..]. cbn [inserted mp_db].
  destruct (mp_db mp) as [db|].
  - destruct (encode_bytes _) as [buf| |]; [|done..]. destruct (Update _ db) as [db' [[]| |]]; [|done..].
    intros [= <- _]. cbn. split; [apply lookup_insert_eq|done].
  - intros [= <- _]. cbn. split; [apply lookup_insert_eq|done].
Qed.

(** *** Responses *)

Section effects.
Context {DB Tx_ : Type} `{BoltDB DB Tx_} `{Ed25519} `{RequestJson}.
Abbreviation Node := (Node DB).
Implicit Types n : Node.

(** A well-formed answer to a request. *)
Definition answers (req : RPCRequest) (resp : RPCResponse) : Prop :=
  rp_JSONRPC resp = "2.0" ∧ rp_ID resp = rq_ID req ∧ (is_Some (rp_Result resp) ↔ rp_Error resp = None).

Lemma answers_success req result : answers req (successResponse (rq_ID req) result).
Proof. split; [done|]. split; [done|]. by split; [|eexists]. Qed.

Lemma answers_error req code e : answers req (errorResponse (rq_ID req) code e).
Proof. split; [done|]. split; [done|]. split; [by intros [? ?]|done]. Qed.

Lemma respond_inv {A B} req (params : res A) (call : A → go Node B) special result n n' resp :
  respond req params call special result n = (n', Ok resp) →
  answers req resp ∧ (n' = n ∨ ∃ p r, params = Ok p ∧ call p n = (n', r) ∧ r ≠ Panic).
Proof.
  unfold respond. destruct params as [p|e|]; [| |done].
  - unfold try, mbind, go_bind. destruct (call p n) as [n1 r] eqn:E. destruct r as [b|e|]; [..|done]; intros [= <- <-].
    + split; [apply answers_success|]. right. by exists p, (Ok b).
    + split; [apply answers_error|]. right. by exists p, (Err e).
  - intros [= <- <-]. split; [apply answers_error|by left].
Qed.

(** The node with the expired transactions gone from its pool. *)
Definition swept (ck : Clock) n : Node := with_mempool (expire (ck_expire ck) (nd_mempool n)) n.

Lemma pending_call {A} (f : list Transaction → go Node A) ck n n' r :
  (∀ l m, (f l m).1 = m) → (Node_PendingTxs (ck_expire ck) (ck_list ck) ≫= f) n = (n', r) → n' = swept ck n.
Proof.
  intros Hf E. unfold mbind, go_bind, Node_PendingTxs, on_pool, zoom, PendingTxs in E. cbn in E.
  match type of E with f ?l ?m = _ => specialize (Hf l m) end. rewrite E in Hf. exact Hf.
Qed.

Lemma required_inv {A} what s (call : go Node A) n n' r :
  required what s call n = (n', r) → n' = n ∨ call n = (n', r).
Proof.
  unfold required, guard_err, mbind, go_bind. destruct (bool_decide (s = "")); cbn; [intros [= <- _]; by left|by right].
Qed.

Lemma required_pending {A} what s (f : list Transaction → go Node A) ck n n' r :
  (∀ l m, (f l m).1 = m) → required what s (Node_PendingTxs (ck_expire ck) (ck_list ck) ≫= f) n = (n', r) → n' = n ∨ n' = swept ck n.
Proof. intros Hf [->|E]%required_inv; [by left|right]. by eapply pending_call. Qed.

Lemma quiet_required `{Wazero} {A} what s (call : go Node A) : quiet call → quiet (required what s call).
Proof. intros Hc. apply quiet_bind; [apply quiet_guard|done]. Qed.

Lemma send_effect ck tx n n' r : handleSendTransaction ck tx n = (n', r) → n' = with_mempool (nd_mempool n') n.
Proof.
  unfold handleSendTransaction, nodeService_SendTransaction, guard_err, mbind, go_bind, lift, wrap.
  assert (n = with_mempool (nd_mempool n) n) as Hid by (by destruct n).
  destruct (bool_decide _); cbn; [by intros [= <- _]|]. destruct (unmarshal_tx tx) as [raw| |]; cbn; [|by intros [= <- _]..].
  destruct (transaction_of raw) as [t| |]; [|by intros [= <- _]..].
  destruct (Transaction_Validate _ t) as [[]| |]; [|by intros [= <- _]..].
  unfold SubmitTx, on_pool, zoom. destruct (Submit _ _ _ _ _) as [mp [[]| |]]; by intros [= <- _].
Qed.
End effects.

#[export] Hint Resolve quiet_required quiet_CallContract : quiet.

Section quiet_handlers.
Context {DB Tx_ : Type} `{BoltDB DB Tx_} `{Ed25519} `{RequestJson} `{Wazero}.
Abbreviation Node := (Node DB).

Lemma quiet_nodeService_GetBlock number hash : quiet (nodeService_GetBlock (DB := DB) number hash).
Proof. unfold nodeService_GetBlock. hush. Qed.

Lemma quiet_nodeService_GetAccount a : quiet (nodeService_GetAccount (DB := DB) a).
Proof. unfold nodeService_GetAccount, account_of. hush. Qed.

Lemma quiet_handleGetBalance a : quiet (handleGetBalance (DB := DB) a).
Proof. unfold handleGetBalance, nodeService_GetBalance, account_of. hush. Qed.

Lemma GetContractMeta_reads c (s : InMemoryState) : (GetContractMeta c s).1 = s.
Proof. unfold GetContractMeta, GetBytes, gets, mbind, go_bind, lift. cbn. by destruct (kvstore s !! _). Qed.

Lemma GetContractStorage_reads c k (s : InMemoryState) : (GetContractStorage c k s).1 = s.
Proof. unfold GetContractStorage, GetBytes, gets, mbind, go_bind. cbn. by destruct (kvstore s !! _). Qed.

Lemma quiet_nodeService_GetContract a : quiet (nodeService_GetContract (DB := DB) a).
Proof.
  unfold nodeService_GetContract, account_of. hush. apply quiet_try, quiet_on_state, GetContractMeta_reads.
Qed.

Lemma quiet_handleCallContract req : quiet (handleCallContract (DB := DB) req).
Proof. unfold handleCallContract. hush. Qed.

Lemma quiet_estimate turns a d lo hi last : quiet (estimate (DB := DB) turns a d lo hi last).
Proof.
  revert lo hi last. induction turns as [|turns IH]; intros lo hi last; cbn [estimate]; [by apply quiet_fixed|].
  destruct (hi <? lo); [by apply quiet_fixed|]. cbv zeta. apply quiet_bind; [apply quiet_try, quiet_CallContract|].
  intros [e|res]; [apply IH|]. destruct (ca_Reverted res); [apply IH|]. case_match; [by apply quiet_fixed|apply IH].
Qed.

Lemma quiet_nodeService_EstimateGas a d : quiet (nodeService_EstimateGas (DB := DB) a d).
Proof. unfold nodeService_EstimateGas. apply quiet_bind; [by apply quiet_fixed|intros _]. apply quiet_bind; [apply quiet_estimate|]. hush. Qed.

Lemma quiet_handleGetContractState req : quiet (handleGetContractState (DB := DB) req).
Proof.
  unfold handleGetContractState, nodeService_GetContractState. do 2 apply quiet_required.
  apply quiet_bind; [by apply quiet_fixed|intros addr]. apply quiet_bind; [|intros v; by apply quiet_fixed].
  apply quiet_try, quiet_on_state, GetContractStorage_reads.
Qed.

Lemma quiet_nodeService_GetSupply : quiet (nodeService_GetSupply (DB := DB)).
Proof. apply quiet_fixed. intros n. unfold nodeService_GetSupply, gets, mbind, go_bind. by destruct (fold_left _ _ _). Qed.

Lemma quiet_nodeService_GetEvents f : quiet (nodeService_GetEvents (DB := DB) f).
Proof. by apply quiet_fixed. Qed.

Lemma quiet_nodeService_GetValidators e : quiet (nodeService_GetValidators (DB := DB) e).
Proof. by apply quiet_fixed. Qed.
End quiet_handlers.

#[export] Hint Resolve quiet_nodeService_GetBlock quiet_nodeService_GetAccount quiet_handleGetBalance quiet_nodeService_GetContract
  quiet_handleCallContract quiet_nodeService_EstimateGas quiet_handleGetContractState quiet_nodeService_GetSupply
  quiet_nodeService_GetEvents quiet_nodeService_GetValidators : quiet.

Section dispatch.
Context {DB Tx_ : Type} `{BoltDB DB Tx_} `{Ed25519} `{RequestJson} `{Wazero}.
Abbreviation Node := (Node DB).
Implicit Types n : Node.

Lemma respond_quiet {A B} req (params : res A) (call : A → go Node B) special result n n' resp :
  w_vm (nd_wiring n) = Some Execute → (∀ p, quiet (call p)) →
  respond req params call special result n = (n', Ok resp) → answers req resp ∧ n' = n.
Proof.
  intros Hv Hq (Ha & [->|(p & r & _ & E & Hr)])%respond_inv; [done|]. split; [done|]. by apply (Hq p n n' r).
Qed.

(** What a request does: nothing, or the sweep of the pool, or a submission. *)
Lemma handleRequest_effect ck req n n' resp :
  w_vm (nd_wiring n) = Some Execute → handleRequest ck req n = (n', Ok resp) →
  answers req resp ∧
  (n' = n ∨ n' = swept ck n ∨ (rq_Method req = "dsn_sendTransaction" ∧ n' = with_mempool (nd_mempool n') n)).
Proof.
  intros Hv. unfold handleRequest. cbv zeta.
  repeat (case_bool_decide as Hm; [clear - Hv Hm|clear Hm]).
  all: cbv beta delta [handleRPCGetBlock handleRPCGetTransaction handleRPCSendTransaction handleRPCGetAccount handleRPCGetBalance handleRPCGetContract handleRPCCallContract handleRPCEstimateGas handleRPCGetContractState handleRPCGetTransactionReceipt handleRPCGetEvents handleRPCGetValidators handleRPCGetSupply handleLegacyGetStateRoot handleLegacyGetPendingTxs handleGetTransaction handleGetAccount handleGetContract handleEstimateGas handleGetTransactionReceipt].
  all: try (intros [= <- <-]; split; [apply answers_success || apply answers_error|by left]).
  all: try (intros [Ha ->]%respond_quiet; [split; [done|by left]|done|intros p; by eauto with quiet]).
  - intros (Ha & [->|(p & r & _ & E & _)])%respond_inv; (split; [done|]); [by left|].
    apply required_pending in E as [-> | ->]; [by left|by right; left|]. intros l m. by case_match.
  - intros (Ha & [->|(p & r & _ & E & _)])%respond_inv; (split; [done|]); [by left|]. right; right. split; [done|]. by eapply send_effect.
  - intros (Ha & [->|(p & r & _ & E & _)])%respond_inv; (split; [done|]); [by left|].
    apply required_inv in E as [->|E]; [by left|]. unfold nodeService_GetTransactionReceipt, guard_err in E.
    destruct (bool_decide (p = "")); [injection E as <- _; by left|]. right; left.
    rewrite (go_bind_ok _ _ n n tt) in E by done. revert E. apply pending_call. intros l m. by case_match.
Qed.
End dispatch.

(** ** Properties *)

(** C32: a request is answered once, in version 2.0 and with its id, by a result or
    by an error and never by both, and apart from dsn_sendTransaction no
    request changes the node: contract calls and gas estimates are undone
    whatever the contract does, and the pool at most drops what has expired. A
    submission changes the pool alone. *)
Theorem rpc_requests_read_only {DB Tx_} `{BoltDB DB Tx_} `{Ed25519} `{RequestJson} `{Wazero}
    (ck : Clock) (req : RPCRequest) (n n' : Node DB) (resp : RPCResponse) :
  w_vm (nd_wiring n) = Some Execute → handleRequest ck req n = (n', Ok resp) →
  (rp_JSONRPC resp = "2.0" ∧ rp_ID resp = rq_ID req ∧ (is_Some (rp_Result resp) ↔ rp_Error resp = None)) ∧
  (rq_Method req ≠ "dsn_sendTransaction" → n' = n ∨ n' = with_mempool (expire (ck_expire ck) (nd_mempool n)) n) ∧
  n' = with_mempool (nd_mempool n') n.
Proof.
  intros Hv [Ha He]%(handleRequest_effect ck req n n' resp Hv). split; [exact Ha|].
  destruct He as [->|[->|[Hm He]]].
  - split; [by left|by destruct n].
  - split; [by right|done].
  - split; [by intros ?|exact He].
Qed.

(** C33: a transaction that dsn_sendTransaction accepts is found under the hash
    that was returned: dsn_getTransaction shows it and the receipt is pending,
    until it expires. *)
Theorem sent_transaction_pending {DB Tx_} `{BoltLaws DB Tx_} `{Ed25519} (ck ck' : Clock) (raw : res RawTx) (n n' : Node DB) (hash : string) :
  pool_ok (nd_mempool n) → nodeService_SendTransaction ck raw n = (n', Ok hash) →
  (∀ h, ck_expire ck' h - ck_submitted ck <= mp_ttl (nd_mempool n)) → (∀ h, ck_list ck' h - ck_submitted ck <= mp_ttl (nd_mempool n)) →
  ∃ r tx, raw = Ok r ∧ transaction_of r = Ok tx ∧ hash = hashToHex (tx_IntentID tx) ∧
    (nodeService_GetTransaction ck' hash n').2 = Ok (TransactionToResult tx 0 0 0 ZeroHash) ∧
    (nodeService_GetTransactionReceipt ck' hash n').2 = Ok (mkTxReceipt hash 0 "" 0 (tx_GasLimit tx) "pending" "").
Proof.
  intros Hok Hs He Hl. unfold nodeService_SendTransaction in Hs.
  apply go_bind_inv in Hs as (n1 & r & H1' & Hs). apply wrap_inv in H1'. unfold lift in H1'. injection H1' as <- ->.
  apply go_bind_inv in Hs as (n2 & tx & H2' & Hs). unfold lift in H2'. injection H2' as <- H2'.
  apply go_bind_inv in Hs as (n3 & u & H3' & Hs). apply wrap_inv in H3'. unfold lift in H3'. injection H3' as <- _.
  apply go_bind_inv in Hs as (n4 & v & H4' & Hs). apply wrap_inv in H4'. injection Hs as -> <-.
  unfold SubmitTx, on_pool, zoom in H4'. destruct (Submit _ _ _ _ _) as [mp [v'| |]] eqn:E; [|done..]. injection H4' as <- <-.
  pose proof (pool_ok_Submit _ _ _ _ _ _ _ Hok E ltac:(done)) as Hok'. apply Submit_stored in E as [Hst Httl].
  exists r, tx. split; [done|]. split; [done|]. split; [done|].
  assert (tx ∈ pending_list (ck_list ck') (expire (ck_expire ck') mp)) as Hin.
  { apply pending_elem; [done|]. eexists. split; [exact Hst|]. cbn. rewrite Httl. by split_and!. }
  assert (NoDup (tx_IntentID <$> pending_list (ck_list ck') (expire (ck_expire ck') mp))) as Hnd.
  { apply pending_ids_NoDup. by apply (expire_spec (ck_expire ck') mp). }
  assert (Node_PendingTxs (ck_expire ck') (ck_list ck') (with_mempool mp n)
    = (with_mempool (expire (ck_expire ck') mp) (with_mempool mp n), Ok (pending_list (ck_list ck') (expire (ck_expire ck') mp)))) as Hp by done.
  split.
  - unfold nodeService_GetTransaction. rewrite (go_bind_ok _ _ _ _ _ Hp). by rewrite (find_pending_self hashToHex) by (done || apply hashToHex_inj).
  - unfold nodeService_GetTransactionReceipt. rewrite trim0x_hashToHex. unfold guard_err. rewrite bool_decide_eq_false_2 by done.
    rewrite (go_bind_ok _ _ _ (with_mempool mp n) tt) by done. cbv zeta. rewrite (go_bind_ok _ _ _ _ _ Hp).
    by rewrite (find_pending_self (λ h, hex h)) by (done || (intros h1 h2 E; by apply arr_eq, hex_inj)).
Qed.

(** Dsn_estimateGas fails on every node, for every contract and every call: the
    search starts at five million, above the limit of a call, takes the refusal
    for a call that needs more gas, and only goes up. *)
Theorem estimate_gas_always_fails {DB Tx_} `{BoltDB DB Tx_} `{Ed25519} (address data : string) (n : Node DB) :
  ∃ e, nodeService_EstimateGas address data n = (n, Err e).
Proof.
  unfold nodeService_EstimateGas. unfold parse_address. destruct (ParseAddress address) as [addr|e|] eqn:E.
  - rewrite (go_bind_ok _ _ n n addr) by done.
    rewrite (go_bind_ok _ _ n n (Some 0)); [by eexists|].
    apply (estimate_up 24); [done..|]. by right.
  - by eexists.
  - exfalso. revert E. unfold ParseAddress, base58CheckDecode, AddressFromBytes. cbv zeta. repeat (case_bool_decide; cbn [mbind res_bind negb]; try done).
Qed.

(** Dsn_getSupply is the sum of all balances, in whatever order the accounts are
    visited; bonded stake does not count and is reported as zero. *)
Theorem supply_exact {DB Tx_} `{BoltDB DB Tx_} `{Ed25519} (n : Node DB) :
  nodeService_GetSupply n
  = (n, Ok (mkSupplyResult (dec (total_balance (nd_state n))) (dec (total_balance (nd_state n))) "0")) ∧
  ∀ l, l ≡ₚ map_to_list (accounts (nd_state n)) →
    fold_left (λ sums e, (sums.1 + acc_Balance e.2, sums.2 + acc_Balance e.2)) l (0, 0)
    = (total_balance (nd_state n), total_balance (nd_state n)).
Proof.
  assert (∀ l a b, fold_left (λ sums (e : Address * Account), (sums.1 + acc_Balance e.2, sums.2 + acc_Balance e.2)) l (a, b)
    = (a + zsum (acc_Balance <$> l.*2), b + zsum (acc_Balance <$> l.*2))) as Hfold.
  { induction l as [|e l IH]; intros a b; cbn; [f_equal; lia|]. rewrite IH. cbn. f_equal; lia. }
  split.
  - unfold nodeService_GetSupply, gets, mbind, go_bind. by rewrite Hfold.
  - intros l Hl. rewrite Hfold, !Z.add_0_l. assert (zsum (acc_Balance <$> l.*2) = total_balance (nd_state n)) as ->; [|done].
    unfold total_balance, map_zsum. change (acc_map (nd_state n)) with (accounts (nd_state n)). by rewrite Hl.
Qed.

(** dsn_getBlock shows every transaction of a block above the first as failed,
    without gas, and with the hash of the parent for that of the block. *)
Theorem block_receipts_wrong {DB Tx_} `{BoltDB DB Tx_} `{Ed25519} (height : Z) (hash : option string) (n n' : Node DB) (b : BlockResult) :
  nodeService_GetBlock (Some height) hash n = (n', Ok b) → 0 < br_Number b →
  Forall (λ t, tre_Receipt t = Some (mkReceiptResult "failure" 0 (br_Number b) (br_ParentHash b))) (br_Transactions b).
Proof.
  unfold nodeService_GetBlock. rewrite (bool_decide_eq_false_2 (Some height = None)) by done. cbn [andb].
  rewrite (go_bind_ok _ _ n n tt) by done. intros (n1 & r & _ & E)%go_bind_inv Hb. destruct r as [e|block]; [done|].
  apply go_bind_inv in E as (n2 & hh & _ & E). injection E as _ <-. cbn in Hb |- *. apply Forall_fmap, Forall_true.
  intros tx. cbn. by rewrite (proj2 (Z.ltb_lt _ _) Hb).
Qed.

(** Of a transaction that comes through the service the intent id is computed. *)
Theorem sent_transaction_intent (raw : RawTx) (tx : Transaction) :
  transaction_of raw = Ok tx → ComputeIntentID (H := SHA256Hasher) tx = Ok (tx_IntentID tx) ∧ tx_Version tx = 0.
Proof.
  unfold transaction_of. destruct (sender_of _) as [sender| |]; [|done..]. cbn [mbind res_bind].
  destruct (hex_field _ _) as [signature| |]; [|done..]. cbn [mbind res_bind].
  destruct (hex_optional "payload" _) as [payload| |]; [|done..]. cbn [mbind res_bind].
  destruct (hex_optional _ _) as [constraints| |]; [|done..]. cbn [mbind res_bind]. by intros [= <-].
Qed.

(** The validation of hexadecimal input accepts what can be decoded, apart from
    an odd number of digits. *)
Theorem hex_input_decodes (s : bytes) : is_Some (hex_decode s) ↔ isValidHex s = true ∧ Nat.even (length s) = true.
Proof.
  unfold isValidHex. induction s as [s IH] using (induction_ltof1 _ (@length byte)). unfold ltof in IH.
  destruct s as [|a [|b s]]; cbn [hex_decode forallb length Nat.even].
  - split; [done|by eexists].
  - split; [by intros [? ?]|by intros [_ ?]].
  - specialize (IH s ltac:(cbn; lia)).
    destruct (hex_digit a) as [x|] eqn:Ea; cbn; [|split; [by intros [? ?]|by intros [? ?]]].
    destruct (hex_digit b) as [y|] eqn:Eb; cbn; [|split; [by intros [? ?]|by intros [? ?]]].
    rewrite <- IH. destruct (hex_decode s); cbn; split; intros [? ?]; by eexists.
Qed.

(** Whatever limit is asked for, a page has between 1 and 100 entries. *)
Theorem page_limit_bounds (p : EventFilterParams) :
  match fp_Limit p with Some l => is_u64 l | None => True end → 1 <= rf_Limit (ToEventFilter p) <= 100.
Proof.
  intros Hl. unfold ToEventFilter, Pagination_Normalize. cbn. destruct (fp_Limit p) as [l|]; cbn.
  - unfold is_u64 in Hl. destruct (Z.eqb_spec l 0) as [->|Hne]; cbn; [by rewrite andb_false_r|].
    destruct (Z.ltb_spec 100 l); cbn; [by rewrite andb_false_r|]. rewrite (proj2 (Z.eqb_neq l 0)), andb_false_r by done. lia.
  - by rewrite andb_false_r.
Qed.

(** ** Examples *)

Definition rpc_node : Node contents :=
  with_state two_accounts (fresh_node example_config (Execute (H := byte_wazero)) None false).

Definition rpc_clock : Clock := mkClock 101 101 101 (λ _, 102) (λ _, 102).

Definition rpc_call : CallContractRequest := mkCallContractRequest (Address_String (addr_of 2)) "" "0x01" 0.

(** A decoder that knows one request. *)
Definition rpc_json : RequestJson := {|
  unmarshal_getBlock _ := Ok (mkGetBlockRequest None None); unmarshal_txHash _ := Ok ""; unmarshal_address _ := Ok "";
  unmarshal_callContract _ := Ok rpc_call; unmarshal_estimateGas _ := Err EOF; unmarshal_sendTransaction _ := Err EOF;
  unmarshal_getEvents _ := Err EOF; unmarshal_getValidators _ := Err EOF; unmarshal_getContractState _ := Err EOF;
  unmarshal_args _ := Err EOF; unmarshal_raws _ := Err EOF; unmarshal_tx _ := Err EOF |}.

Definition rpc_request : RPCRequest := mkRPCRequest "2.0" "dsn_callContract" [] (IdNumber 7).

Lemma rpc_requests_read_only_witness :
  let n' := (handleRequest (H0 := echo_ed25519) (H1 := rpc_json) rpc_clock rpc_request rpc_node).1 in
  n' = rpc_node ∨ n' = with_mempool (expire (ck_expire rpc_clock) (nd_mempool rpc_node)) rpc_node.
Proof.
  intros n'.
  set (resp := errorResponse (IdNumber 7) ServerError (Wrapf "" ErrVmContractNotFound)).
  assert ((handleRequest (H0 := echo_ed25519) (H1 := rpc_json) rpc_clock rpc_request rpc_node).2 = Ok resp) as E by (vm_compute; reflexivity).
  destruct (rpc_requests_read_only (H0 := echo_ed25519) (H1 := rpc_json) (H2 := byte_wazero) rpc_clock rpc_request rpc_node n' resp)
    as (_ & Hr & _).
  - reflexivity.
  - rewrite <- E. apply surjective_pairing.
  - apply Hr. discriminate.
Defined.

Definition rpc_intent : Hash := Sum256 (addr_of 1 ++ be 8 1 ++ addr_of 2 ++ be 8 40).

Definition rpc_raw : RawTx :=
  mkRawTx (Address_String (addr_of 1)) 1 1 ("0x" +:+ hex (addr_of 2 ++ be 8 40)) "" 0 10 100 (hex (arr_bytes (arr_zero 32) ++ rpc_intent)) 0.

Lemma sent_transaction_pending_witness :
  ∃ r tx, nodeService_SendTransaction (H0 := echo_ed25519) rpc_clock (Ok rpc_raw) rpc_node
    = ((nodeService_SendTransaction (H0 := echo_ed25519) rpc_clock (Ok rpc_raw) rpc_node).1, Ok (hashToHex rpc_intent)) ∧
    transaction_of r = Ok tx ∧
    (nodeService_GetTransaction rpc_clock (hashToHex rpc_intent)
      (nodeService_SendTransaction (H0 := echo_ed25519) rpc_clock (Ok rpc_raw) rpc_node).1).2 = Ok (TransactionToResult tx 0 0 0 ZeroHash).
Proof.
  assert ((nodeService_SendTransaction (H0 := echo_ed25519) rpc_clock (Ok rpc_raw) rpc_node).2 = Ok (hashToHex rpc_intent)) as E
    by (vm_compute; reflexivity).
  destruct (sent_transaction_pending (H1 := echo_ed25519) rpc_clock rpc_clock (Ok rpc_raw) rpc_node
    (nodeService_SendTransaction (H0 := echo_ed25519) rpc_clock (Ok rpc_raw) rpc_node).1 (hashToHex rpc_intent))
    as (r & tx & _ & Ht & _ & Hg & _).
  - exact (pool_ok_New 10 300).
  - rewrite <- E. apply surjective_pairing.
  - intros h. vm_compute. discriminate.
  - intros h. vm_compute. discriminate.
  - exists r, tx. split; [rewrite <- E; apply surjective_pairing|]. split; [exact Ht|exact Hg].
Defined.
