(* ===== verification/Explorer.v ===== *)
(** * The block explorer (package explorer)

    The handlers of the REST API over the indexer and the JSON-RPC service: the
    status and the body of each response. [Get] is what the query of the URL
    gives for a name, the empty string if the name is missing. Routing,
    headers, metrics and the HTTP server are left out. *)

From S2P Require Import Prelude Codec Sha256 Address Amount Tx Votes Block Smt Store Keys State.
From S2P Require Import Bolt Gossip Genesis Node Rpc Indexer.

(** ** Data (explorer/types.go) *)

Record BlockSummary := mkBlockSummary {
  bs_Number : Z;
  bs_Hash : string;
  bs_Timestamp : Z;
  bs_TxCount : Z;
}.

Record TransactionItem := mkTransactionItem {
  ti_Hash : string;
  ti_Sender : string;
  ti_Nonce : Z;
  ti_Status : Z;
  ti_GasUsed : Z;
  ti_BlockNum : Z;
}.

Record BlockDetail := mkBlockDetail {
  bt_Summary : BlockSummary;
  bt_ParentHash : string;
  bt_StateRoot : string;
  bt_Transactions : list TransactionItem;
}.

Record AccountInfo := mkAccountInfo {
  ai_Address : string;
  ai_Balance : string;
  ai_Nonce : Z;
  ai_IsContract : bool;
  ai_RecentTxs : list string;
}.

Record EventItem := mkEventItem {
  ei_Contract : string;
  ei_Topics : list string;
  ei_Data : string;
  ei_BlockNumber : Z;
}.

Record ContractInfo := mkContractInfo {
  co_Address : string;
  co_CodeHash : string;
  co_Metadata : option ContractMeta;
  co_RecentEvents : list EventItem;
}.

Record PaginatedResponse (A : Type) := mkPaginated {
  pr_Data : list A;
  pr_Offset : Z;
  pr_Limit : Z;
  pr_TotalCount : Z;
}.
Arguments mkPaginated {_}.
Arguments pr_Data {_}.
Arguments pr_Offset {_}.
Arguments pr_Limit {_}.
Arguments pr_TotalCount {_}.

Inductive reply_body :=
  | BlocksBody (p : PaginatedResponse BlockSummary)
  | BlockBody (b : BlockDetail)
  | TransactionBody (t : TransactionItem)
  | AccountBody (a : AccountInfo)
  | ContractBody (c : ContractInfo)
  | ValidatorsBody (l : list ValidatorResult)
  | EventsBody (p : PaginatedResponse EventItem)
  | SupplyBody (s : SupplyResult)
  | ErrorBody (msg : string) (code : Z).

Record reply := mkReply {
  re_status : Z;
  re_body : reply_body;
}.

Definition WriteJSON (b : reply_body) : reply := mkReply 200 b.

(** The codes of the program are the HTTP statuses it writes with them. *)
Definition WriteError (code : Z) (msg : string) : reply := mkReply code (ErrorBody msg code).

Definition indexer_missing : reply := WriteError 503 "indexer not available".

(** ** Numbers (package strconv) *)

Definition digit_of (b : byte) : option Z := if (48 <=? b2z b) && (b2z b <=? 57) then Some (b2z b - 48) else None.

(** Digits in a base; [None] for a character that is none, and when the number
    does not fit. *)
Fixpoint parse_digits (digit : byte → option Z) (base acc : Z) (l : bytes) : option Z :=
  match l with
  | [] => Some acc
  | b :: l =>
      match digit b with
      | None => None
      | Some d => let acc := acc * base + d in if acc <? 2 ^ 64 then parse_digits digit base acc l else None
      end
  end.

(** [strconv.ParseUint(s, 10, 64)]. *)
Definition ParseUint10 (s : string) : option Z :=
  match str_bytes s with [] => None | l => parse_digits digit_of 10 0 l end.

(** Underscores stand between digits only, where the prefix counts as a digit. *)
Fixpoint underscores_ok (after_digit : bool) (l : bytes) : bool :=
  match l with
  | [] => after_digit
  | b :: l => if bool_decide (b = x5f) then after_digit && underscores_ok false l else underscores_ok true l
  end.

(** [strconv.ParseUint(s, 0, 64)] of a string that starts with 0x. *)
Definition ParseUint0x (s : string) : option Z :=
  match strip0x (str_bytes s) with
  | [] => None
  | l => if underscores_ok true l
         then parse_digits hex_digit 16 0 (List.filter (λ b, negb (bool_decide (b = x5f))) l)
         else None
  end.

Definition parsePagination (Get : string → string) : Z * Z :=
  let param name default := match ParseUint10 (Get name) with Some v => v | None => default end in
  let limit := param "limit" 20 in
  (param "offset" 0, if 100 <? limit then 100 else limit).

(** ** Handlers that read the indexer (explorer/handlers.go) *)

(** [fmt.Sprintf("0x%032x", height)]. *)
Definition placeholder_hash (height : Z) : string := "0x" +:+ hex (be 16 height).

Section reads.
Context {DB Tx_ : Type} `{BoltDB DB Tx_} `{Json BlockData} `{Json TransactionReceipt} `{Json EventData}.

Definition available (idx : option (Indexer DB)) : option (Indexer DB) :=
  match idx with Some i => if ix_enabled i then Some i else None | None => None end.

Definition summary_of (height : Z) (d : BlockData) : BlockSummary :=
  mkBlockSummary height (placeholder_hash height) (h_Timestamp (bd_Header d)) (bd_TxCount d).

(** First and last number of a page, newest first; both wrap around as the code
    writes them. *)
Definition page_start (latest offset : Z) : Z := if offset <=? latest then latest - offset else 0.
Definition page_end (start limit : Z) : Z := if limit <=? start then u64 (start - limit + 1) else 0.

(** The loop over the heights: [None] when the turns run out. *)
Fixpoint fetch_blocks (turns : nat) (i : Indexer DB) (latest height endBlock : Z) : option (res (list BlockSummary)) :=
  match turns with
  | O => None
  | S turns =>
      if negb ((endBlock <=? height) && (height <? u64 (latest + 1))) then Some (Ok []) else
      match (GetBlock height (ix_db i)).2 with
      | Panic => Some Panic
      | Ok (Some d) =>
          match fetch_blocks turns i latest (u64 (height - 1)) endBlock with
          | Some (Ok l) => Some (Ok (summary_of height d :: l))
          | r => r
          end
      | _ => fetch_blocks turns i latest (u64 (height - 1)) endBlock
      end
  end.

(** A page has at most 100 numbers: 101 turns are enough ([page_fetched]). *)
Definition handleBlocks (idx : option (Indexer DB)) (Get : string → string) : option (res reply) :=
  let '(offset, limit) := parsePagination Get in
  match available idx with
  | None => Some (Ok indexer_missing)
  | Some i =>
      let latest := ix_height i in
      if latest =? 0 then Some (Ok (WriteJSON (BlocksBody (mkPaginated [] offset limit 0)))) else
      let start := page_start latest offset in
      match fetch_blocks 101 i latest start (page_end start limit) with
      | None => None
      | Some (Ok blocks) => Some (Ok (WriteJSON (BlocksBody (mkPaginated blocks offset limit (u64 (latest + 1))))))
      | Some (Err e) => Some (Err e)
      | Some Panic => Some Panic
      end
  end.

Definition item_of (r : TransactionReceipt) : TransactionItem :=
  mkTransactionItem (hashToHex (tr_Hash r)) (Address_String (tx_Sender (tr_Data r))) (tx_Nonce (tr_Data r))
    (if tr_Status r then 1 else 0) (tr_GasUsed r) (tr_BlockNumber r).

Definition hash_or_empty (h : Hash) : string := if bool_decide (h = ZeroHash) then "0x" else hashToHex h.

Definition handleBlockDetail (idx : option (Indexer DB)) (numberOrHash : string) : res reply :=
  match available idx with
  | None => Ok indexer_missing
  | Some i =>
      match (if starts0x numberOrHash then (ParseUint0x numberOrHash, "invalid block identifier")
             else (ParseUint10 numberOrHash, "invalid block number")) with
      | (None, msg) => Ok (WriteError 400 msg)
      | (Some height, _) =>
          match (GetBlock height (ix_db i)).2 with
          | Panic => Panic
          | Ok (Some d) =>
              match (GetTransactionsByBlock height (ix_db i)).2 with
              | Panic => Panic
              | r =>
                  let txs := match r with Ok l => l | _ => [] end in
                  Ok (WriteJSON (BlockBody (mkBlockDetail (summary_of height d) (hash_or_empty (h_PreviousHash (bd_Header d)))
                                              (hash_or_empty (h_StateRoot (bd_Header d))) (item_of <$> txs))))
              end
          | _ => Ok (WriteError 404 "block not found")
          end
      end
  end.

Definition handleTransaction (idx : option (Indexer DB)) (hashStr : string) : res reply :=
  match available idx with
  | None => Ok indexer_missing
  | Some i =>
      match hex_decode (stripHexPrefix hashStr) with
      | Some hashBytes =>
          if negb (bool_decide (length hashBytes = 32%nat)) then Ok (WriteError 400 "invalid transaction hash") else
          match (GetTransaction (arr_copy 32 hashBytes) (ix_db i)).2 with
          | Panic => Panic
          | Ok (Some receipt) => Ok (WriteJSON (TransactionBody (item_of receipt)))
          | _ => Ok (WriteError 404 "transaction not found")
          end
      | None => Ok (WriteError 400 "invalid transaction hash")
      end
  end.

Definition event_item (e : EventData) : EventItem :=
  mkEventItem (hashToHex (ev_ContractID (ed_Event e))) [ev_Topic (ed_Event e)] (bytesToHex (ev_Data (ed_Event e))) (ed_BlockNumber e).

(** Parameters that do not parse are ignored. *)
Definition event_filter (Get : string → string) : Indexer.EventFilter :=
  Indexer.mkEventFilter
    (if bool_decide (Get "contract" = "") then None
     else match ParseAddress (Get "contract") with Ok addr => Some (contract_of addr) | _ => None end)
    (Get "topic0") (default 0 (ParseUint10 (Get "fromBlock"))) (default 0 (ParseUint10 (Get "toBlock"))).

(** [events[offset:endIdx]] after the two are capped. *)
Definition page_of {A} (offset limit : Z) (l : list A) : list A :=
  let totalCount := Z.of_nat (length l) in
  let offset := if totalCount <? offset then totalCount else offset in
  let endIdx := u64 (offset + limit) in
  let endIdx := if totalCount <? endIdx then totalCount else endIdx in
  take (Z.to_nat (endIdx - offset)) (drop (Z.to_nat offset) l).

(** The offset that is shown is the capped one. *)
Definition handleEvents (idx : option (Indexer DB)) (Get : string → string) : res reply :=
  match available idx with
  | None => Ok indexer_missing
  | Some i =>
      let '(offset, limit) := parsePagination Get in
      match (GetEvents (event_filter Get) (ix_db i)).2 with
      | Panic => Panic
      | Err _ => Ok (WriteError 500 "failed to get events")
      | Ok events =>
          let totalCount := Z.of_nat (length events) in
          Ok (WriteJSON (EventsBody (mkPaginated (event_item <$> page_of offset limit events)
                (if totalCount <? offset then totalCount else offset) limit totalCount)))
      end
  end.
End reads.

(** ** Handlers that ask the service *)

Section services.
Context {DB Tx_ DBI TxI : Type} `{BoltDB DB Tx_} `{BoltDB DBI TxI} `{Ed25519} `{Json EventData}.
Abbreviation Node := (Node DB).

Definition handleAccount (address : string) : go Node reply :=
  match ParseAddress address with
  | Ok addr =>
      r ← try (nodeService_GetAccount (Address_String addr));
      mret match r with
           | inl _ => WriteError 500 "failed to get account"
           | inr acc =>
               WriteJSON (AccountBody (mkAccountInfo address (ar_Balance acc) (ar_Nonce acc)
                 (negb (bool_decide (ar_CodeHash acc = "")) && negb (bool_decide (ar_CodeHash acc = "0x"))) []))
           end
  | Err _ => mret (WriteError 400 "invalid address format")
  | Panic => gopanic
  end.

(** The first ten events in the order of the index. *)
Definition recent_events (idx : option (Indexer DBI)) (addr : Address) : res (list EventItem) :=
  match available idx with
  | None => Ok []
  | Some i =>
      match (GetEvents (Indexer.mkEventFilter (Some (contract_of addr)) "" 0 0) (ix_db i)).2 with
      | Ok events => Ok (event_item <$> take 10 events)
      | Err _ => Ok []
      | Panic => Panic
      end
  end.

Definition handleContract (idx : option (Indexer DBI)) (address : string) : go Node reply :=
  match ParseAddress address with
  | Ok addr =>
      r ← try (nodeService_GetContract (Address_String addr));
      match r with
      | inl e => mret (if bool_decide (e = ErrNotFound) then WriteError 404 "contract not found" else WriteError 500 "failed to get contract")
      | inr c =>
          events ← lift (recent_events idx addr);
          mret (WriteJSON (ContractBody (mkContractInfo address (cr_CodeHash c) (cr_Metadata c) events)))
      end
  | Err _ => mret (WriteError 400 "invalid address format")
  | Panic => gopanic
  end.

Definition handleValidators (Get : string → string) : go Node reply :=
  match (if bool_decide (Get "epoch" = "") then Some None else Some <$> ParseUint10 (Get "epoch")) with
  | None => mret (WriteError 400 "invalid epoch parameter")
  | Some epoch =>
      r ← try (nodeService_GetValidators epoch);
      mret match r with
           | inl _ => WriteError 500 "failed to get validators"
           | inr l => WriteJSON (ValidatorsBody l)
           end
  end.

Definition handleSupply : go Node reply :=
  r ← try nodeService_GetSupply;
  mret match r with
       | inl _ => WriteError 500 "failed to get supply"
       | inr s => WriteJSON (SupplyBody s)
       end.
End services.

(** ** Specification *)

(** The numbers on a page, newest first. *)
Definition page_numbers (latest offset limit : Z) : list Z :=
  let start := page_start latest offset in
  (λ k, start - k) <$> seqZ 0 (Z.min limit (start + 1)).

(** The summary of a block of a history. *)
Definition indexed_summary (hist : list IndexableBlock) (height : Z) : option BlockSummary :=
  (λ ib, summary_of height (block_data ib)) <$> find_last (λ ib, ib_Number ib =? height) hist.

(** ** Lemmas *)

Lemma parsePagination_limit Get offset limit : parsePagination Get = (offset, limit) → limit <= 100.
Proof.
  unfold parsePagination. cbv zeta. intros [= _ <-]. match goal with |- context [100 <? ?l] => destruct (Z.ltb_spec 100 l) end; lia.
Qed.

Lemma parse_digits_range digit base acc l v :
  0 <= acc → 0 <= base → (∀ b d, digit b = Some d → 0 <= d) → acc < 2 ^ 64 → parse_digits digit base acc l = Some v → is_u64 v.
Proof.
  intros Ha Hb Hd. revert acc Ha. induction l as [|b l IH]; intros acc Ha Hlt; cbn [parse_digits].
  - intros [= <-]. unfold is_u64. lia.
  - destruct (digit b) as [d|] eqn:E; [|done]. pose proof (Hd _ _ E). destruct (Z.ltb_spec (acc * base + d) (2 ^ 64)); [|done].
    apply IH; nia.
Qed.

Lemma ParseUint10_range s v : ParseUint10 s = Some v → is_u64 v.
Proof.
  unfold ParseUint10. destruct (str_bytes s) as [|b l]; [done|]. apply parse_digits_range; try lia.
  intros c d. unfold digit_of. destruct (_ && _) eqn:E; [|done]. intros [= <-]. apply andb_true_iff in E as [?%Z.leb_le ?%Z.leb_le]. lia.
Qed.

Lemma parsePagination_range Get offset limit : parsePagination Get = (offset, limit) → 0 <= offset ∧ 0 <= limit <= 100.
Proof.
  intros E. pose proof (parsePagination_limit _ _ _ E) as Hl. unfold parsePagination in E. cbv zeta in E. injection E as Ho Hlim.
  split.
  - rewrite <- Ho. destruct (ParseUint10 (Get "offset")) as [v|] eqn:Ev; [|lia]. apply ParseUint10_range in Ev. apply Ev.
  - split; [|done]. rewrite <- Hlim. match goal with |- context [100 <? ?l] => destruct (Z.ltb_spec 100 l) end; [lia|].
    destruct (ParseUint10 (Get "limit")) as [v|] eqn:Ev; [|lia]. apply ParseUint10_range in Ev. apply Ev.
Qed.

Section pages.
Context {DB Tx_ : Type} `{BoltLaws DB Tx_} `{Json BlockData} `{Json TransactionReceipt} `{Json EventData}.

(** The loop over a page of [n] numbers that ends with [endBlock]. *)
Lemma fetch_page (i : Indexer DB) hist latest n turns endBlock :
  indexed (ix_db i) hist → Forall (λ ib, is_u64 (ib_Number ib)) hist → 0 <= endBlock →
  endBlock + Z.of_nat n - 1 <= latest → 0 <= latest < 2 ^ 64 - 1 → (n < turns)%nat →
  fetch_blocks turns i latest (u64 (endBlock + Z.of_nat n - 1)) endBlock
  = Some (Ok (omap (indexed_summary hist) ((λ k, endBlock + Z.of_nat n - 1 - k) <$> seqZ 0 (Z.of_nat n)))).
Proof.
  intros Hi Hn He Hle Hlat. revert turns Hle. induction n as [|n IH]; intros [|turns] Hle Ht; [lia| |lia|]; cbn [fetch_blocks].
  - rewrite (u64_small (latest + 1)) by (unfold is_u64; lia). change (Z.of_nat 0) with 0. rewrite Z.add_0_r.
    replace ((endBlock <=? u64 (endBlock - 1)) && (u64 (endBlock - 1) <? latest + 1)) with false; [done|]. symmetry. apply andb_false_iff.
    destruct (decide (endBlock = 0)) as [->|Hne].
    + right. apply Z.ltb_ge. change (u64 (0 - 1)) with (2 ^ 64 - 1). lia.
    + left. apply Z.leb_gt. rewrite u64_small by (unfold is_u64; lia). lia.
  - set (h := endBlock + Z.of_nat (S n) - 1) in *. assert (is_u64 h) as Hh by (unfold is_u64; lia).
    rewrite (u64_small (latest + 1)) by (unfold is_u64; lia). rewrite (u64_small h) by done.
    rewrite (proj2 (Z.leb_le endBlock h)), (proj2 (Z.ltb_lt h (latest + 1))) by lia. cbn [andb negb].
    rewrite (indexed_block _ _ _ Hi Hn Hh). cbn [snd]. replace (h - 1) with (endBlock + Z.of_nat n - 1) by lia.
    rewrite (IH turns) by lia. rewrite (seqZ_cons 0 (Z.of_nat (S n))) by lia. replace (Z.pred (Z.of_nat (S n))) with (Z.of_nat n) by lia.
    cbn [fmap list_fmap]. rewrite Z.sub_0_r. cbn [omap list_omap].
    replace ((λ k, h - k) <$> seqZ (Z.succ 0) (Z.of_nat n)) with ((λ k, endBlock + Z.of_nat n - 1 - k) <$> seqZ 0 (Z.of_nat n)).
    2:{ apply list_eq. intros j. rewrite !list_lookup_fmap.
        destruct (decide (j < n)%nat) as [Hj|Hj].
        - rewrite !lookup_seqZ_lt by lia. cbn. f_equal. unfold h. lia.
        - by rewrite !lookup_seqZ_ge by lia. }
    assert (indexed_summary hist h = summary_of h <$> (block_data <$> find_last (λ ib, ib_Number ib =? h) hist)) as Eh by (unfold indexed_summary; by destruct (find_last _ hist)).
    rewrite Eh. by destruct (find_last _ hist).
Qed.

Lemma page_fetched (i : Indexer DB) hist latest offset limit :
  indexed (ix_db i) hist → Forall (λ ib, is_u64 (ib_Number ib)) hist → 0 <= latest < 2 ^ 64 - 1 → 0 <= offset → 0 <= limit <= 100 →
  fetch_blocks 101 i latest (page_start latest offset) (page_end (page_start latest offset) limit)
  = Some (Ok (omap (indexed_summary hist) (page_numbers latest offset limit))).
Proof.
  intros Hi Hn Hlat Ho Hlim. unfold page_numbers. cbv zeta. set (start := page_start latest offset).
  assert (0 <= start <= latest) as Hs by (unfold start, page_start; destruct (Z.leb_spec offset latest); lia).
  assert (∃ e, page_end start limit = e ∧ 0 <= e ∧ start = e + Z.min limit (start + 1) - 1) as (e & -> & He & Es).
  { unfold page_end. destruct (Z.leb_spec limit start).
    - exists (start - limit + 1). rewrite u64_small by (unfold is_u64; lia). split; [done|]. lia.
    - exists 0. split; [done|]. lia. }
  set (c := Z.min limit (start + 1)) in *.
  pose proof (fetch_page i hist latest (Z.to_nat c) 101 e Hi Hn He) as Hf.
  rewrite Z2Nat.id in Hf by lia. rewrite <- Es in Hf. rewrite u64_small in Hf by (unfold is_u64; lia).
  apply Hf; lia.
Qed.
End pages.

Lemma page_at latest limit k :
  0 < limit → 0 <= k → k * limit <= latest →
  page_numbers latest (k * limit) limit = (λ j, latest - j) <$> seqZ (k * limit) (Z.min limit (latest - k * limit + 1)).
Proof.
  intros Hl Hk Hle. unfold page_numbers, page_start. cbv zeta. rewrite (proj2 (Z.leb_le _ _)) by lia.
  replace (seqZ (k * limit)) with (seqZ (k * limit + 0)) by (f_equal; lia). rewrite <- fmap_add_seqZ, <- list_fmap_compose. apply list_fmap_ext. intros i j _. cbn. lia.
Qed.

(** Consecutive pages list every number once. *)
Lemma pages_cover latest limit n :
  0 < limit → Z.of_nat n * limit <= latest →
  seqZ 0 (Z.of_nat (S n)) ≫= (λ k, page_numbers latest (k * limit) limit)
  = (λ k, latest - k) <$> seqZ 0 (Z.min (Z.of_nat (S n) * limit) (latest + 1)).
Proof.
  intros Hl. induction n as [|n IH]; intros Hn.
  - change (seqZ 0 (Z.of_nat 1)) with [0]. cbn [mbind list_bind]. rewrite app_nil_r, page_at by lia. f_equal. f_equal; lia.
  - rewrite seqZ_S, bind_app, IH by lia. cbn [mbind list_bind]. rewrite app_nil_r, Z.add_0_l, page_at by lia.
    rewrite <- fmap_app. f_equal. rewrite (Z.min_l (Z.of_nat (S n) * limit)) by lia.
    replace (seqZ (Z.of_nat (S n) * limit)) with (seqZ (0 + Z.of_nat (S n) * limit)) by (f_equal; lia).
    rewrite <- seqZ_app by lia. f_equal. lia.
Qed.

(** *** Pages of events *)

Lemma page_of_spec {A} offset limit (l : list A) :
  0 <= offset → 0 <= limit <= 100 → Z.of_nat (length l) < 2 ^ 63 →
  page_of offset limit l = take (Z.to_nat limit) (drop (Z.to_nat offset) l).
Proof.
  intros Ho Hl Hlen. unfold page_of. cbv zeta. set (t := Z.of_nat (length l)) in *.
  destruct (Z.ltb_spec t offset) as [Hlt|Hge].
  - rewrite !drop_ge by lia. by rewrite !take_nil.
  - rewrite u64_small by (unfold is_u64; lia). destruct (Z.ltb_spec t (offset + limit)).
    + rewrite (take_ge _ (Z.to_nat (t - offset))), (take_ge _ (Z.to_nat limit)) by (rewrite length_drop; lia). done.
    + do 2 f_equal; lia.
Qed.

(** ** Properties *)

(** A page of the block list shows the blocks of its numbers, newest first and
    skipping what is not indexed, and consecutive pages go through all numbers
    from the latest to 0, each once. *)
Theorem block_pages {DB Tx_} `{BoltLaws DB Tx_} `{Json BlockData} `{Json TransactionReceipt} `{Json EventData}
    (i : Indexer DB) (hist : list IndexableBlock) (Get : string → string) (offset limit : Z) :
  ix_enabled i = true → 0 < ix_height i < 2 ^ 64 - 1 → indexed (ix_db i) hist → Forall (λ ib, is_u64 (ib_Number ib)) hist →
  parsePagination Get = (offset, limit) →
  handleBlocks (Some i) Get
  = Some (Ok (WriteJSON (BlocksBody
      (mkPaginated (omap (indexed_summary hist) (page_numbers (ix_height i) offset limit)) offset limit (ix_height i + 1))))) ∧
  (0 < limit →
   seqZ 0 (ix_height i / limit + 1) ≫= (λ k, page_numbers (ix_height i) (k * limit) limit)
   = (λ k, ix_height i - k) <$> seqZ 0 (ix_height i + 1)).
Proof.
  intros He Hh Hi Hn Hp. destruct (parsePagination_range _ _ _ Hp) as [Ho Hl]. split.
  - unfold handleBlocks. rewrite Hp. unfold available. rewrite He. cbv zeta. rewrite (proj2 (Z.eqb_neq _ _)) by lia.
    rewrite (page_fetched i hist) by (done || lia). by rewrite u64_small by (unfold is_u64; lia).
  - intros Hpos. pose proof (Z.div_pos (ix_height i) limit ltac:(lia) Hpos) as Hq.
    pose proof (Z.mul_div_le (ix_height i) limit Hpos) as Hle.
    pose proof (pages_cover (ix_height i) limit (Z.to_nat (ix_height i / limit)) Hpos ltac:(rewrite Z2Nat.id; lia)) as E.
    rewrite Nat2Z.inj_succ, Z2Nat.id in E by done. rewrite Z.min_r in E; [exact E|].
    pose proof (Z.mul_succ_div_gt (ix_height i) limit Hpos). lia.
Qed.

(** The list of events: filter, then page. *)
Theorem event_pages {DB Tx_} `{BoltLaws DB Tx_} `{Json BlockData} `{Json TransactionReceipt} `{Json EventData}
    (i : Indexer DB) (hist : list IndexableBlock) (Get : string → string) (offset limit : Z) :
  let events := List.filter (event_wanted (event_filter Get)) (stored_events hist) in
  ix_enabled i = true → indexed (ix_db i) hist → Forall (λ ib, is_u64 (ib_Number ib)) hist → Z.of_nat (length events) < 2 ^ 63 →
  parsePagination Get = (offset, limit) →
  handleEvents (Some i) Get
  = Ok (WriteJSON (EventsBody (mkPaginated (event_item <$> take (Z.to_nat limit) (drop (Z.to_nat offset) events))
          (if Z.of_nat (length events) <? offset then Z.of_nat (length events) else offset) limit (Z.of_nat (length events))))).
Proof.
  intros events He Hi Hn Hlen Hp. destruct (parsePagination_range _ _ _ Hp) as [Ho Hl].
  unfold handleEvents, available. rewrite He, Hp, (indexed_events _ _ _ Hi Hn). cbn [snd]. fold events.
  by rewrite page_of_spec.
Qed.

(** An indexed transaction is found under its hash. *)
Theorem explorer_finds_transaction {DB Tx_} `{BoltLaws DB Tx_} `{Json BlockData} `{Json TransactionReceipt} `{Json EventData}
    (i : Indexer DB) (hist : list IndexableBlock) (id : Hash) :
  ix_enabled i = true → indexed (ix_db i) hist →
  handleTransaction (Some i) (hashToHex id)
  = Ok match find_last (λ p, bool_decide (tx_IntentID p.2 = id)) (txs_of hist) with
       | Some p => WriteJSON (TransactionBody (item_of (block_receipt p.1 p.2)))
       | None => WriteError 404 "transaction not found"
       end.
Proof.
  intros He Hi. unfold handleTransaction, available. rewrite He.
  change (stripHexPrefix (hashToHex id)) with (str_bytes (hex id)). rewrite hex_decode_hex, arr_length, bool_decide_eq_true_2 by done.
  cbn [negb]. rewrite arr_copy_arr, (indexed_transaction _ _ _ Hi). cbn [snd]. by destruct (find_last _ _).
Qed.

(** Every account that exists is shown as a contract, since an empty code hash
    is shown as 64 zeros. *)
Theorem accounts_shown_as_contracts {DB Tx_} `{BoltDB DB Tx_} `{Ed25519} (n : Node DB) (addr : Address) (acc : Account) :
  accounts (nd_state n) !! addr = Some acc →
  ∃ info, handleAccount (Address_String addr) n = (n, Ok (WriteJSON (AccountBody info))) ∧ ai_IsContract info = true.
Proof.
  intros Ha. unfold handleAccount. rewrite Address_String_parse. eexists. split.
  - rewrite (go_bind_ok _ _ n n (inr (mkAccountResult (Address_String addr) (dec (acc_Balance acc)) (acc_Nonce acc)
      (hashToHex (acc_CodeHash acc)) (hashToHex (acc_StorageRoot acc))))); [reflexivity|].
    unfold try, nodeService_GetAccount, parse_address, account_of, gets, lift, mbind, go_bind. rewrite Address_String_parse. cbn. by rewrite Ha.
  - cbn [ai_IsContract ar_CodeHash]. rewrite !bool_decide_eq_false_2; [done| |done].
    intros E. assert (length (str_bytes (hashToHex (acc_CodeHash acc))) = 2%nat) as Hl by (by rewrite E).
    change (str_bytes (hashToHex (acc_CodeHash acc))) with (x30 :: x78 :: str_bytes (hex (acc_CodeHash acc))) in Hl.
    pose proof (hex_decode_hex (acc_CodeHash acc)) as Hd. destruct (str_bytes (hex (acc_CodeHash acc))); [|done].
    cbn in Hd. injection Hd as Hd. pose proof (arr_length (acc_CodeHash acc)) as Hz. by rewrite <- Hd in Hz.
Qed.

(** A contract that does not parse does not restrict the events. *)
Theorem bad_contract_ignored (Get : string → string) (e : error) :
  ParseAddress (Get "contract") = Err e → ef_Contract (event_filter Get) = None.
Proof. intros E. unfold event_filter. cbn. rewrite E. by case_bool_decide. Qed.

(** ** Examples *)

Definition page_query (name : string) : string := if bool_decide (name = "limit") then "2" else "".

Definition example_explorer (db : contents) : Indexer contents := mkIndexer db [] 1 true None.

Lemma block_pages_witness :
  ∃ db : contents, handleBlocks (H0 := json_block) (Some (example_explorer db)) page_query
  = Some (Ok (WriteJSON (BlocksBody (mkPaginated [summary_of 1 (block_data example_ib)] 0 2 2)))).
Proof.
  exists (run (H0 := json_block) (H1 := json_receipt) (H2 := json_event) (mkIndexer ∅ [example_ib] 0 true None)).1.(ix_db).
  destruct (run_blocks_ok (H1 := json_block) (H2 := json_receipt) (H3 := json_event) [example_ib]
    (mkIndexer (∅ : contents) [] 0 true None) [] (empty_indexed (H := json_block) (H0 := json_receipt) (H1 := json_event)))
    as (idx' & Hr & Hi & _); [constructor; [exact example_ib_ok|constructor]|].
  destruct (block_pages (H1 := json_block) (H2 := json_receipt) (H3 := json_event) (example_explorer (ix_db idx')) [example_ib] page_query 0 2)
    as [Hp _].
  - reflexivity.
  - split; vm_compute; reflexivity.
  - exact Hi.
  - constructor; [split; vm_compute; reflexivity || discriminate|constructor].
  - vm_compute. reflexivity.
  - assert ((run (H0 := json_block) (H1 := json_receipt) (H2 := json_event) (mkIndexer (∅ : contents) [example_ib] 0 true None)).1 = idx') as ->
      by (exact (f_equal fst Hr)).
    rewrite Hp. vm_compute. reflexivity.
Defined.
