(* ===== verification/Hub.v ===== *)
(** * The WebSocket hub (package rpc/ws)

    The hub with its loop, the clients with their goroutines and the channels
    between them, as a machine: an action of one goroutine is one step, and a
    step that would block is not possible. Clients are numbered in the order in
    which they connect. [marshal] is [json.Marshal]. Timers, pings and what the
    network does are actions that may happen at any time.

    A step is at most one critical section. [Subscribe] and [Unsubscribe] have
    two, the first under the lock of the client (its own table), the second
    under the lock of the hub (the table of subscribers): between them the
    client is in the phase [Subscribing] or [Unsubscribing], and other steps may
    come in between. [registerClient] makes the client's table and then, still
    holding the lock of the hub, reads it without the client's lock.
    [broadcastMessage] takes the entry of the event under the lock and visits
    the clients in it after releasing the lock, so subscriptions may change
    the very map it ranges over: an entry that is removed is not visited any
    more, one that is added may be visited or not. When the Go runtime notices
    that a map is written while another goroutine ranges over it, the program
    ends; the actions that write carry flags for whether the runtime notices
    ([caught]) and whether the loop gets to a new entry ([seen]). *)

From S2P Require Import Prelude.

(** ** Data (rpc/ws/hub.go) *)

Record Message := mkMessage {
  m_Type : string;
  m_Event : string;
  m_Data : string;
  m_Error : option (Z * string);
}.

Definition MaxConnections : Z := 100.
Definition MaxSubscriptions : Z := 10.
Definition sendBuffer : Z := 256.
Definition broadcastBuffer : Z := 256.

(** What the goroutine that reads from a client does: it waits for the hub to
    take the registration, reads, is between the two halves of a subscription
    or of its end, waits to put an answer into the send buffer, waits for the
    hub to take the end of the connection, or has ended. *)
Inductive phase :=
  | Waiting
  | Reading
  | Subscribing (event : string)
  | Unsubscribing (event : string)
  | Replying (data : string)
  | Closing
  | Gone.

#[global] Instance phase_eq_dec : EqDecision phase.
Proof. solve_decision. Defined.

(** [cl_subs]: [None] is the nil map. [cl_writing]: the other goroutine runs. *)
Record Client := mkClient {
  cl_send : list string;
  cl_subs : option (gset string);
  cl_phase : phase;
  cl_writing : bool;
}.

(** The loop of the hub waits for a channel, has received a client, has made
    the client's table and holds the lock, ranges over the entry of an event
    with the clients [todo] still to come, or is blocked for ever. The range is
    over a map of its own ([attached = false]) when there was no entry or it
    has been deleted since. *)
Inductive hub_loop :=
  | Idle
  | Registering (c : Z)
  | Registered (c : Z)
  | Delivering (event : string) (attached : bool) (data : string) (todo : gset Z)
  | Stuck.

Record Hub := mkHub {
  hb_subscribers : gmap string (gset Z);
  hb_slots : Z;
  hb_broadcast : list Message;
  hb_clients : gmap Z Client;
  hb_loop : hub_loop;
  hb_next : Z;
}.

(** [hb_next] counts the connections. *)
Definition NewHub : Hub := mkHub ∅ 0 [] ∅ Idle 0.

Definition with_clients (m : gmap Z Client) (h : Hub) : Hub := mkHub (hb_subscribers h) (hb_slots h) (hb_broadcast h) m (hb_loop h) (hb_next h).
Definition with_subscribers (m : gmap string (gset Z)) (h : Hub) : Hub := mkHub m (hb_slots h) (hb_broadcast h) (hb_clients h) (hb_loop h) (hb_next h).
Definition with_slots (n : Z) (h : Hub) : Hub := mkHub (hb_subscribers h) n (hb_broadcast h) (hb_clients h) (hb_loop h) (hb_next h).
Definition with_queue (l : list Message) (h : Hub) : Hub := mkHub (hb_subscribers h) (hb_slots h) l (hb_clients h) (hb_loop h) (hb_next h).
Definition with_loop (l : hub_loop) (h : Hub) : Hub := mkHub (hb_subscribers h) (hb_slots h) (hb_broadcast h) (hb_clients h) l (hb_next h).

Definition set_subs (s : option (gset string)) (cl : Client) : Client := mkClient (cl_send cl) s (cl_phase cl) (cl_writing cl).
Definition set_phase (p : phase) (cl : Client) : Client := mkClient (cl_send cl) (cl_subs cl) p (cl_writing cl).
Definition set_send (l : list string) (cl : Client) : Client := mkClient l (cl_subs cl) (cl_phase cl) (cl_writing cl).
Definition set_writing (b : bool) (cl : Client) : Client := mkClient (cl_send cl) (cl_subs cl) (cl_phase cl) b.

Definition on_client (c : Z) (f : Client → Client) (h : Hub) : Hub := with_clients (alter f c (hb_clients h)) h.

(** The client's own table; the nil map reads as empty. *)
Definition own_events (c : Z) (h : Hub) : gset string :=
  match hb_clients h !! c with Some cl => default ∅ (cl_subs cl) | None => ∅ end.

(** ** The tables *)

Definition add_subscriber (c : Z) (event : string) (m : gmap string (gset Z)) : gmap string (gset Z) :=
  <[event := {[c]} ∪ default ∅ (m !! event)]> m.

(** The entry of an event goes with its last subscriber. *)
Definition drop_subscriber (c : Z) (event : string) (m : gmap string (gset Z)) : gmap string (gset Z) :=
  match m !! event with
  | None => m
  | Some s => let s := s ∖ {[c]} in if decide (s = ∅) then delete event m else <[event := s]> m
  end.

(** [registerClient] up to the release of the client's lock. *)
Definition registerClient (c : Z) (h : Hub) : Hub := on_client c (set_subs (Some ∅)) h.

(** The rest of it: the loop over the client's table, which the client may have
    changed since. *)
Definition registerClient_events (c : Z) (h : Hub) : Hub :=
  with_subscribers (fold_left (λ m event, add_subscriber c event m) (elements (own_events c h)) (hb_subscribers h)) h.

Definition unregisterClient (c : Z) (h : Hub) : Hub :=
  let h := with_subscribers (fold_left (λ m event, drop_subscriber c event m) (elements (own_events c h)) (hb_subscribers h)) h in
  with_slots (if 0 <? hb_slots h then hb_slots h - 1 else hb_slots h) h.

(** The loop of the hub ranges over the entry of the event. *)
Definition ranging (event : string) (h : Hub) : bool :=
  match hb_loop h with Delivering e true _ _ => bool_decide (e = event) | _ => false end.

(** The loop of the hub holds the lock of the table of subscribers. *)
Definition hub_locked (h : Hub) : bool := match hb_loop h with Registered _ => true | _ => false end.

(** The loop of the hub reads the table of the client. *)
Definition table_read (c : Z) (h : Hub) : bool := match hb_loop h with Registered c' => c' =? c | _ => false end.

(** What a change of an entry does to a range over it. *)
Definition range_added (c : Z) (event : string) (seen : bool) (h : Hub) : hub_loop :=
  match hb_loop h with
  | Delivering e true data todo =>
      if bool_decide (e = event) && negb (bool_decide (c ∈ default ∅ (hb_subscribers h !! event))) && seen
      then Delivering e true data ({[c]} ∪ todo) else hb_loop h
  | l => l
  end.

Definition range_dropped (c : Z) (event : string) (h : Hub) : hub_loop :=
  match hb_loop h with
  | Delivering e true data todo =>
      if bool_decide (e = event)
      then match drop_subscriber c event (hb_subscribers h) !! event with
           | None => Delivering e false data ∅
           | Some _ => Delivering e true data (todo ∖ {[c]})
           end
      else hb_loop h
  | l => l
  end.

Inductive sub_result :=
  | Accepted (h : Hub)
  | LimitExceeded
  | NilMap.

(** [Subscribe], first half: writing to the nil map ends the program. *)
Definition Subscribe (c : Z) (event : string) (h : Hub) : sub_result :=
  match hb_clients h !! c with
  | None => NilMap
  | Some cl =>
      if MaxSubscriptions <=? Z.of_nat (size (default ∅ (cl_subs cl))) then LimitExceeded else
      match cl_subs cl with
      | None => NilMap
      | Some s => Accepted (on_client c (λ cl, set_phase (Subscribing event) (set_subs (Some ({[event]} ∪ s)) cl)) h)
      end
  end.

(** Second half, under the lock of the hub. *)
Definition Subscribe_table (c : Z) (event : string) (seen : bool) (h : Hub) : Hub :=
  with_loop (range_added c event seen h) (with_subscribers (add_subscriber c event (hb_subscribers h)) h).

(** [Unsubscribe], first half; deleting from the nil map does nothing. *)
Definition Unsubscribe (c : Z) (event : string) (h : Hub) : Hub :=
  on_client c (λ cl, set_phase (Unsubscribing event) (set_subs ((λ s, s ∖ {[event]}) <$> cl_subs cl) cl)) h.

Definition Unsubscribe_table (c : Z) (event : string) (h : Hub) : Hub :=
  with_loop (range_dropped c event h) (with_subscribers (drop_subscriber c event (hb_subscribers h)) h).

Section hub.
Context (marshal : Message → option string).

(** [broadcastMessage] up to its loop: the entry is read under the lock. *)
Definition broadcastMessage (msg : Message) (h : Hub) : Hub :=
  if bool_decide (m_Event msg = "") then h else
  match marshal msg with
  | None => h
  | Some data =>
      match hb_subscribers h !! m_Event msg with
      | Some s => with_loop (Delivering (m_Event msg) true data s) h
      | None => with_loop (Delivering (m_Event msg) false data ∅) h
      end
  end.

(** One turn of the loop: a full buffer makes the hub send to its own channel,
    which nobody else reads. *)
Definition deliver (c : Z) (data : string) (rest : hub_loop) (h : Hub) : Hub :=
  match hb_clients h !! c with
  | Some cl =>
      if Z.of_nat (length (cl_send cl)) <? sendBuffer
      then with_loop rest (on_client c (λ cl, set_send (cl_send cl ++ [data]) cl) h)
      else with_loop Stuck h
  | None => with_loop rest h
  end.

Definition AcquireConnection (h : Hub) : option Hub :=
  if hb_slots h <? MaxConnections then Some (with_slots (hb_slots h + 1) h) else None.

Definition ReleaseConnection (h : Hub) : Hub :=
  with_slots (if 0 <? hb_slots h then hb_slots h - 1 else hb_slots h) h.

Definition error_text (code : Z) (message : string) : string :=
  default "" (marshal (mkMessage "error" "" "" (Some (code, message)))).

Definition quoted (s : string) : string := String (Ascii.ascii_of_nat 34) (s +:+ String (Ascii.ascii_of_nat 34) "").

Definition confirmation (what event : string) : string :=
  "{" +:+ quoted "type" +:+ ":" +:+ quoted what +:+ "," +:+ quoted "event" +:+ ":" +:+ quoted event +:+ "}".

(** [handleMessage] up to the first lock of the hub or the answer: the new hub,
    or [None] if the program ends. While the hub reads the client's table in
    [registerClient] the runtime may notice the write to it. *)
Definition handleMessage (c : Z) (msg : Message) (caught : bool) (h : Hub) : option Hub :=
  if bool_decide (m_Type msg = "subscribe") then
    match Subscribe c (m_Event msg) h with
    | Accepted h' => if table_read c h && caught then None else Some h'
    | LimitExceeded => Some (on_client c (set_phase (Replying (error_text (-32602) "subscription limit exceeded (max 10)"))) h)
    | NilMap => None
    end
  else if bool_decide (m_Type msg = "unsubscribe") then Some (Unsubscribe c (m_Event msg) h)
  else Some (on_client c (set_phase (Replying (error_text (-32600) "invalid message type"))) h).

(** ** Steps *)

Inductive action :=
  | Connect (upgraded : bool)
  | TakeRegister (c : Z)
  | MakeTable
  | FinishRegister
  | TakeUnregister (c : Z)
  | TakeBroadcast
  | Deliver (c : Z)
  | FinishBroadcast
  | Publish (msg : Message)
  | Receive (c : Z) (msg : option Message) (caught : bool)
  | UpdateTable (c : Z) (caught seen : bool)
  | Disconnect (c : Z)
  | Reply (c : Z)
  | WriteOut (c : Z) (n : nat)
  | StopWriting (c : Z).

Inductive outcome :=
  | Next (h : Hub)
  | Blocked
  | Crash.

Definition running (c : Z) (h : Hub) (p : phase) (next : Client → outcome) : outcome :=
  match hb_clients h !! c with
  | Some cl => if decide (cl_phase cl = p) then next cl else Blocked
  | None => Blocked
  end.

(** [HandleWebSocket] up to the point where it waits for the hub. *)
Definition HandleWebSocket (upgraded : bool) (h : Hub) : outcome :=
  match AcquireConnection h with
  | None => Next h
  | Some h' =>
      if upgraded
      then Next (mkHub (hb_subscribers h') (hb_slots h') (hb_broadcast h') (<[hb_next h' := mkClient [] None Waiting false]> (hb_clients h'))
                   (hb_loop h') (hb_next h' + 1))
      else Next (ReleaseConnection h')
  end.

(** [Run] receives from one of its three channels; of a registration it first
    only takes the client, then makes its table, and then reads it. The pumps
    start when the client has been taken. *)
Definition run_register (c : Z) (h : Hub) : outcome :=
  match hb_loop h with
  | Idle => running c h Waiting (λ _, Next (with_loop (Registering c) (on_client c (λ cl, set_writing true (set_phase Reading cl)) h)))
  | _ => Blocked
  end.

Definition run_made (h : Hub) : outcome :=
  match hb_loop h with Registering c => Next (with_loop (Registered c) (registerClient c h)) | _ => Blocked end.

Definition run_registered (h : Hub) : outcome :=
  match hb_loop h with Registered c => Next (with_loop Idle (registerClient_events c h)) | _ => Blocked end.

Definition run_unregister (c : Z) (h : Hub) : outcome :=
  match hb_loop h with
  | Idle => running c h Closing (λ _, Next (on_client c (set_phase Gone) (unregisterClient c h)))
  | _ => Blocked
  end.

Definition run_broadcast (h : Hub) : outcome :=
  match hb_loop h, hb_broadcast h with
  | Idle, msg :: rest => Next (broadcastMessage msg (with_queue rest h))
  | _, _ => Blocked
  end.

Definition run_deliver (c : Z) (h : Hub) : outcome :=
  match hb_loop h with
  | Delivering event attached data todo =>
      if bool_decide (c ∈ todo) then Next (deliver c data (Delivering event attached data (todo ∖ {[c]})) h) else Blocked
  | _ => Blocked
  end.

Definition run_delivered (h : Hub) : outcome :=
  match hb_loop h with
  | Delivering _ _ _ todo => if bool_decide (todo = ∅) then Next (with_loop Idle h) else Blocked
  | _ => Blocked
  end.

Definition Broadcast (msg : Message) (h : Hub) : outcome :=
  if Z.of_nat (length (hb_broadcast h)) <? broadcastBuffer then Next (with_queue (hb_broadcast h ++ [msg]) h) else Blocked.

(** [readPump]: a message, or [None] for one that does not parse. *)
Definition read_message (c : Z) (msg : option Message) (caught : bool) (h : Hub) : outcome :=
  running c h Reading (λ _,
    match msg with
    | None => Next (on_client c (set_phase (Replying (error_text (-32700) "parse error"))) h)
    | Some msg => match handleMessage c msg caught h with Some h => Next h | None => Crash end
    end).

(** The second half of a subscription or of its end, and the answer. *)
Definition update_table (c : Z) (caught seen : bool) (h : Hub) : outcome :=
  match hb_clients h !! c with
  | Some cl =>
      match cl_phase cl with
      | Subscribing event =>
          if hub_locked h then Blocked else if ranging event h && caught then Crash else
          Next (on_client c (set_phase (Replying (confirmation "subscribed" event))) (Subscribe_table c event seen h))
      | Unsubscribing event =>
          if hub_locked h then Blocked else if ranging event h && caught then Crash else
          Next (on_client c (set_phase (Replying (confirmation "unsubscribed" event))) (Unsubscribe_table c event h))
      | _ => Blocked
      end
  | None => Blocked
  end.

(** [c.send <- data]. *)
Definition send_answer (c : Z) (h : Hub) : outcome :=
  match hb_clients h !! c with
  | Some cl =>
      match cl_phase cl with
      | Replying data =>
          if Z.of_nat (length (cl_send cl)) <? sendBuffer
          then Next (on_client c (λ cl, set_phase Reading (set_send (cl_send cl ++ [data]) cl)) h) else Blocked
      | _ => Blocked
      end
  | None => Blocked
  end.

(** [writePump] takes the next [n] messages out of the buffer. *)
Definition write_messages (c : Z) (n : nat) (h : Hub) : outcome :=
  match hb_clients h !! c with
  | Some cl => if cl_writing cl && (0 <? n)%nat && (n <=? length (cl_send cl))%nat
               then Next (on_client c (λ cl, set_send (drop n (cl_send cl)) cl) h) else Blocked
  | None => Blocked
  end.

Definition stop_writing (c : Z) (h : Hub) : outcome :=
  match hb_clients h !! c with
  | Some cl => if cl_writing cl then Next (on_client c (set_writing false) h) else Blocked
  | None => Blocked
  end.

Definition step (a : action) (h : Hub) : outcome :=
  match a with
  | Connect upgraded => HandleWebSocket upgraded h
  | TakeRegister c => run_register c h
  | MakeTable => run_made h
  | FinishRegister => run_registered h
  | TakeUnregister c => run_unregister c h
  | TakeBroadcast => run_broadcast h
  | Deliver c => run_deliver c h
  | FinishBroadcast => run_delivered h
  | Publish msg => Broadcast msg h
  | Receive c msg caught => read_message c msg caught h
  | UpdateTable c caught seen => update_table c caught seen h
  | Disconnect c => running c h Reading (λ _, Next (on_client c (set_phase Closing) h))
  | Reply c => send_answer c h
  | WriteOut c n => write_messages c n h
  | StopWriting c => stop_writing c h
  end.
End hub.

(** ** Filters (rpc/ws/subscriptions.go) *)

Record LogFilter := mkLogFilter { lf_Contract : string; lf_Topics : list string }.

Definition LogFilter_Matches (f : LogFilter) (contract : string) (topics : list string) : bool :=
  (bool_decide (lf_Contract f = "") || bool_decide (lf_Contract f = contract))
  && forallb (λ ft, existsb (λ t, bool_decide (ft = t)) topics) (lf_Topics f).

Definition BroadcastNewHead (block : string) : action := Publish (mkMessage "" "newHeads" block None).
Definition BroadcastLog (log : string) : action := Publish (mkMessage "" "logs" log None).
Definition BroadcastPendingTransaction (txHash : string) : action := Publish (mkMessage "" "pendingTransactions" txHash None).

(** ** Specification *)

Definition hub_step (marshal : Message → option string) (h h' : Hub) : Prop := ∃ a, step marshal a h = Next h'.

Definition live (cl : Client) : Z := match cl_phase cl with Gone => 0 | _ => 1 end.

(** Client [c] is connected and subscribes to the event by its own table. *)
Definition subscribes (h : Hub) (c : Z) (event : string) : Prop :=
  ∃ cl s, hb_clients h !! c = Some cl ∧ cl_phase cl ≠ Gone ∧ cl_subs cl = Some s ∧ event ∈ s.

(** A phase between the two halves of a change to the event. *)
Definition mid (p : phase) (event : string) : Prop := p = Subscribing event ∨ p = Unsubscribing event.

(** Client [c] is in the middle of subscribing to the event or of ending it. *)
Definition changing (h : Hub) (c : Z) (event : string) : Prop :=
  ∃ cl, hb_clients h !! c = Some cl ∧ mid (cl_phase cl) event.

(** In the middle of a change the own table is ahead. *)
Definition ahead (cl : Client) : Prop :=
  match cl_phase cl with
  | Subscribing event => event ∈ default ∅ (cl_subs cl)
  | Unsubscribing event => event ∉ default ∅ (cl_subs cl)
  | _ => True
  end.

(** The range of the hub's loop: what is still to be visited is in the entry,
    as long as the range is over the entry. *)
Definition range_ok (l : hub_loop) (m : gmap string (gset Z)) : Prop :=
  match l with
  | Delivering event true _ todo => ∃ s, m !! event = Some s ∧ todo ⊆ s
  | Delivering _ false _ todo => todo = ∅
  | _ => True
  end.

(** What the loop holds of a client whose registration it took. *)
Definition taken (l : hub_loop) (c : Z) (cl : Client) : Prop :=
  match l with
  | Registering c' => c' = c → cl_subs cl = None ∧ cl_phase cl ≠ Gone ∧ cl_phase cl ≠ Waiting
  | Registered c' => c' = c → cl_phase cl ≠ Gone
  | _ => True
  end.

Record hub_ok (h : Hub) : Prop := {
  ho_tables event c : ¬ changing h c event → c ∈ default ∅ (hb_subscribers h !! event) ↔ subscribes h c event;
  ho_ahead c cl : hb_clients h !! c = Some cl → ahead cl;
  ho_nonempty event s : hb_subscribers h !! event = Some s → s ≠ ∅;
  ho_limit c cl s : hb_clients h !! c = Some cl → cl_subs cl = Some s → Z.of_nat (size s) <= MaxSubscriptions;
  ho_slots : hb_slots h = map_zsum live (hb_clients h) ∧ hb_slots h <= MaxConnections;
  ho_nil c cl : hb_clients h !! c = Some cl → cl_subs cl = None → cl_phase cl = Waiting ∨ hb_loop h = Registering c;
  ho_waiting c cl : hb_clients h !! c = Some cl → cl_phase cl = Waiting → cl_subs cl = None;
  ho_taken c cl : hb_clients h !! c = Some cl → taken (hb_loop h) c cl;
  ho_known c : hb_loop h = Registering c ∨ hb_loop h = Registered c → is_Some (hb_clients h !! c);
  ho_range : range_ok (hb_loop h) (hb_subscribers h);
  ho_next c cl : hb_clients h !! c = Some cl → 0 <= c < hb_next h;
  ho_count : 0 <= hb_next h;
}.

(** ** Lemmas *)

(** *** The tables *)

Lemma elem_add_subscriber c event m c' event' :
  c' ∈ default ∅ (add_subscriber c event m !! event') ↔ (c' = c ∧ event' = event) ∨ c' ∈ default ∅ (m !! event').
Proof.
  unfold add_subscriber. destruct (decide (event' = event)) as [->|Hne].
  - rewrite lookup_insert_eq. cbn. set_solver.
  - rewrite lookup_insert_ne by done. naive_solver.
Qed.

Lemma elem_drop_subscriber c event m c' event' :
  c' ∈ default ∅ (drop_subscriber c event m !! event') ↔ c' ∈ default ∅ (m !! event') ∧ ¬ (c' = c ∧ event' = event).
Proof.
  unfold drop_subscriber. destruct (m !! event) as [s|] eqn:E; cbv zeta.
  - destruct (decide (event' = event)) as [->|Hne].
    + case_decide as Hs; [rewrite lookup_delete_eq|rewrite lookup_insert_eq]; rewrite E; cbn; set_solver.
    + case_decide as Hs; [rewrite lookup_delete_ne by done|rewrite lookup_insert_ne by done]; naive_solver.
  - split; [|naive_solver]. intros Hc. split; [done|]. intros [-> ->]. rewrite E in Hc. set_solver.
Qed.

Lemma elem_add_all c events m c' event' :
  c' ∈ default ∅ (fold_left (λ m e, add_subscriber c e m) events m !! event')
  ↔ c' ∈ default ∅ (m !! event') ∨ (c' = c ∧ event' ∈ events).
Proof.
  revert m. induction events as [|e events IH]; intros m; cbn [fold_left]; [set_solver|].
  rewrite IH, elem_add_subscriber. set_solver.
Qed.

Lemma add_nonempty c event m event' s :
  (∀ e t, m !! e = Some t → t ≠ ∅) → add_subscriber c event m !! event' = Some s → s ≠ ∅.
Proof.
  intros Hm. unfold add_subscriber. destruct (decide (event' = event)) as [->|Hne].
  - rewrite lookup_insert_eq. intros [= <-]. set_solver.
  - rewrite lookup_insert_ne by done. apply Hm.
Qed.

Lemma add_all_nonempty c events m event' s :
  (∀ e t, m !! e = Some t → t ≠ ∅) → fold_left (λ m e, add_subscriber c e m) events m !! event' = Some s → s ≠ ∅.
Proof.
  revert m. induction events as [|e events IH]; intros m Hm; cbn [fold_left]; [by apply Hm|].
  apply IH. intros e' t. by apply add_nonempty.
Qed.

Lemma drop_nonempty c event m event' s :
  (∀ e t, m !! e = Some t → t ≠ ∅) → drop_subscriber c event m !! event' = Some s → s ≠ ∅.
Proof.
  intros Hm. unfold drop_subscriber. destruct (m !! event) as [t|] eqn:E; cbv zeta; [|by apply Hm].
  case_decide as Hs; destruct (decide (event' = event)) as [->|Hne].
  - by rewrite lookup_delete_eq.
  - rewrite lookup_delete_ne by done. apply Hm.
  - rewrite lookup_insert_eq. by intros [= <-].
  - rewrite lookup_insert_ne by done. apply Hm.
Qed.

Lemma elem_drop_all c events m c' event' :
  c' ∈ default ∅ (fold_left (λ m e, drop_subscriber c e m) events m !! event')
  ↔ c' ∈ default ∅ (m !! event') ∧ ¬ (c' = c ∧ event' ∈ events).
Proof.
  revert m. induction events as [|e events IH]; intros m; cbn [fold_left]; [set_solver|].
  rewrite IH, elem_drop_subscriber. set_solver.
Qed.

Lemma drop_all_nonempty c events m event' s :
  (∀ e t, m !! e = Some t → t ≠ ∅) → fold_left (λ m e, drop_subscriber c e m) events m !! event' = Some s → s ≠ ∅.
Proof.
  revert m. induction events as [|e events IH]; intros m Hm; cbn [fold_left]; [by apply Hm|].
  apply IH. intros e' t. by apply drop_nonempty.
Qed.

(** *** Clients *)

Lemma alter_insert_lookup (f : Client → Client) c (m : gmap Z Client) cl : m !! c = Some cl → alter f c m = <[c := f cl]> m.
Proof.
  intros Hc. apply map_eq. intros k. destruct (decide (k = c)) as [->|Hk].
  - by rewrite lookup_alter_eq, Hc, lookup_insert_eq.
  - by rewrite lookup_alter_ne, lookup_insert_ne.
Qed.

Lemma live_1 cl : cl_phase cl ≠ Gone → live cl = 1.
Proof. unfold live. by destruct (cl_phase cl). Qed.

(** The agreement of the tables for one client. *)
Definition agrees (m : gmap string (gset Z)) (c : Z) (cl : Client) : Prop :=
  ∀ event, ¬ mid (cl_phase cl) event →
    c ∈ default ∅ (m !! event) ↔ cl_phase cl ≠ Gone ∧ event ∈ default ∅ (cl_subs cl).

Lemma ho_agrees h c cl : hub_ok h → hb_clients h !! c = Some cl → agrees (hb_subscribers h) c cl.
Proof.
  intros Hok Hc event Hm. rewrite (ho_tables _ Hok).
  - unfold subscribes. rewrite Hc. split; [intros (cl1 & s & [= <-] & ? & E & ?); by rewrite E|].
    intros [Hg He]. destruct (cl_subs cl) as [s|] eqn:E; [by exists cl, s|set_solver].
  - intros (cl1 & E & Hm'). rewrite Hc in E. by injection E as <-.
Qed.

Lemma subs_limit h c cl : hub_ok h → hb_clients h !! c = Some cl → Z.of_nat (size (default ∅ (cl_subs cl))) <= MaxSubscriptions.
Proof.
  intros Hok Hc. destruct (cl_subs cl) as [s|] eqn:E; [by apply (ho_limit _ Hok c cl)|].
  cbn. rewrite size_empty. vm_compute. discriminate.
Qed.

(** What a client must satisfy on its own, in the loop [l]. *)
Record client_ok (l : hub_loop) (c : Z) (cl : Client) : Prop := {
  co_ahead : ahead cl;
  co_limit : Z.of_nat (size (default ∅ (cl_subs cl))) <= MaxSubscriptions;
  co_nil : cl_subs cl = None → cl_phase cl = Waiting ∨ l = Registering c;
  co_waiting : cl_phase cl = Waiting → cl_subs cl = None;
  co_taken : taken l c cl;
}.

Lemma ho_client h c cl : hub_ok h → hb_clients h !! c = Some cl → client_ok (hb_loop h) c cl.
Proof.
  intros Hok Hc. split.
  - by apply (ho_ahead _ Hok c).
  - by apply (subs_limit h c).
  - by apply (ho_nil _ Hok c cl).
  - by apply (ho_waiting _ Hok c cl).
  - by apply (ho_taken _ Hok).
Qed.

(** Everything an action can change for one client: its entry, the tables, the
    slots and the loop. *)
Lemma hub_ok_change h c cl' m' n' q l' next' :
  hub_ok h →
  (∀ event c', c' ≠ c → c' ∈ default ∅ (m' !! event) ↔ c' ∈ default ∅ (hb_subscribers h !! event)) →
  agrees m' c cl' → (∀ event s, m' !! event = Some s → s ≠ ∅) → client_ok l' c cl' →
  n' = hb_slots h - from_option live 0 (hb_clients h !! c) + live cl' → n' <= MaxConnections →
  (∀ c' cl1, c' ≠ c → hb_clients h !! c' = Some cl1 → client_ok (hb_loop h) c' cl1 → client_ok l' c' cl1) →
  (∀ c', l' = Registering c' ∨ l' = Registered c' → c' = c ∨ is_Some (hb_clients h !! c')) →
  range_ok l' m' → hb_next h <= next' → 0 <= c < next' →
  hub_ok (mkHub m' n' q (<[c := cl']> (hb_clients h)) l' next').
Proof.
  intros Hok Hm Hag Hne Hco En Hmax Hoth Hkn Hra Hle Hc.
  assert (∀ c' cl1, <[c := cl']> (hb_clients h) !! c' = Some cl1 → client_ok l' c' cl1) as Hall.
  { intros c' cl1. destruct (decide (c' = c)) as [->|Hd]; [rewrite lookup_insert_eq; by intros [= <-]|].
    rewrite lookup_insert_ne by done. intros E. apply Hoth; [done..|]. by apply ho_client. }
  split; cbn [hb_subscribers hb_slots hb_broadcast hb_clients hb_loop hb_next].
  - intros event c' Hch. destruct (decide (c' = c)) as [->|Hd].
    + rewrite (Hag event); [|intros Hmid; apply Hch; exists cl'; cbn [hb_clients]; by rewrite lookup_insert_eq].
      unfold subscribes. cbn [hb_clients]. rewrite lookup_insert_eq. split.
      * intros [Hg He]. destruct (cl_subs cl') as [s|] eqn:E; [by exists cl', s|set_solver].
      * intros (cl1 & s & [= <-] & ? & E & ?). by rewrite E.
    + rewrite Hm by done. unfold subscribes, changing in *. cbn [hb_clients] in *.
      rewrite lookup_insert_ne in * by done. by apply (ho_tables _ Hok).
  - intros c' cl1 E. apply (Hall _ _ E).
  - done.
  - intros c' cl1 s E Es. pose proof (co_limit _ _ _ (Hall _ _ E)) as Hs. by rewrite Es in Hs.
  - split; [|done]. rewrite En, (proj1 (ho_slots _ Hok)). destruct (hb_clients h !! c) as [cl|] eqn:E; cbn [from_option].
    + rewrite (map_zsum_insert_Some live _ _ cl) by done. lia.
    + rewrite map_zsum_insert_None by done. lia.
  - intros c' cl1 E. apply (Hall _ _ E).
  - intros c' cl1 E. apply (Hall _ _ E).
  - intros c' cl1 E. apply (Hall _ _ E).
  - intros c' E. destruct (decide (c' = c)) as [->|Hd]; [rewrite lookup_insert_eq; by eexists|].
    rewrite lookup_insert_ne by done. by destruct (Hkn c' E).
  - done.
  - intros c' cl1. destruct (decide (c' = c)) as [->|Hd]; [by intros _|].
    rewrite lookup_insert_ne by done. intros E. pose proof (ho_next _ Hok _ _ E). lia.
  - pose proof (ho_count _ Hok). lia.
Qed.

(** A client changes on its own: tables and loop stay. *)
Lemma hub_ok_client h c f cl :
  hub_ok h → hb_clients h !! c = Some cl →
  client_ok (hb_loop h) c (f cl) → agrees (hb_subscribers h) c (f cl) → live (f cl) = live cl →
  hub_ok (on_client c f h).
Proof.
  intros Hok Hc Hco Hag Hl. unfold on_client, with_clients.
  rewrite (alter_insert_lookup f c _ cl Hc). apply hub_ok_change; try done.
  - apply (ho_nonempty _ Hok).
  - rewrite Hc. cbn [from_option]. lia.
  - apply (ho_slots _ Hok).
  - intros c' E. right. by apply (ho_known _ Hok).
  - apply (ho_range _ Hok).
  - by apply (ho_next _ Hok c cl).
Qed.

(** A change that neither the tables nor the loop can see: of the buffers, and
    between the phases in which nothing is being changed. *)
Definition quiet (p : phase) : bool := match p with Reading | Replying _ | Closing => true | _ => false end.

Definition alike (cl cl' : Client) : Prop :=
  cl_subs cl' = cl_subs cl ∧ (cl_phase cl' = cl_phase cl ∨ (quiet (cl_phase cl) = true ∧ quiet (cl_phase cl') = true)).

Lemma hub_ok_alike h c f cl :
  hub_ok h → hb_clients h !! c = Some cl → alike cl (f cl) → hub_ok (on_client c f h).
Proof.
  intros Hok Hc [Es Hp]. pose proof (ho_client h c cl Hok Hc) as [Ha Hl Hn Hw Ht].
  pose proof (ho_agrees h c cl Hok Hc) as Hag. apply (hub_ok_client h c f cl); [done|done|..].
  - split; unfold ahead, taken in *; rewrite ?Es; (destruct Hp as [E|[H1 H2]]; [by rewrite ?E|]);
      destruct (cl_phase cl), (cl_phase (f cl)); destruct (hb_loop h); try done; naive_solver.
  - unfold agrees in *. intros event. specialize (Hag event). rewrite Es. destruct Hp as [->|[H1 H2]]; [done|]. intros _.
    assert (∀ p, quiet p = true → ¬ mid p event ∧ p ≠ Gone) as Hq by (intros p Hq; unfold mid; split; destruct p; naive_solver).
    rewrite Hag by (by apply Hq). split; intros [_ ?]; (split; [by apply Hq|done]).
  - unfold live. destruct Hp as [->|[H1 H2]]; [done|]. by destruct (cl_phase cl), (cl_phase (f cl)).
Qed.

Lemma hub_ok_queue h l : hub_ok h → hub_ok (with_queue l h).
Proof. intros []. by split. Qed.

(** The loop changes while it holds no registration. *)
Lemma hub_ok_loop h l :
  hub_ok h → (∀ c, hb_loop h ≠ Registering c) → (∀ c, l ≠ Registering c ∧ l ≠ Registered c) → range_ok l (hb_subscribers h) →
  hub_ok (with_loop l h).
Proof.
  intros [Ht Ha Hne Hl Hs Hn Hw Htk Hkn Hr Hx Hk] Hi Hnl Hrange. split; cbn [with_loop hb_subscribers hb_slots hb_broadcast hb_clients hb_loop hb_next]; try done.
  - intros c cl E1 E2. destruct (Hn c cl E1 E2) as [?|E]; [by left|]. by destruct (Hi c).
  - intros c cl E. unfold taken. destruct l as [|c'|c'| |]; try done; by destruct (Hnl c') as [? ?].
  - intros c [->| ->]; by destruct (Hnl c) as [? ?].
Qed.

(** *** The operations keep the tables consistent *)

Lemma client_ok_loop l l' c cl :
  (∀ c', l = Registering c' → c' ≠ c) → (∀ c', l' = Registering c' ∨ l' = Registered c' → c' ≠ c) → client_ok l c cl → client_ok l' c cl.
Proof.
  intros H1 H2 [Ha Hl Hn Hw Ht]. split; try done.
  - intros E. destruct (Hn E) as [?|E']; [by left|]. by destruct (H1 c E').
  - unfold taken. destruct l' as [|c'|c'| |]; try done; intros ->; exfalso; eapply H2; eauto.
Qed.

Lemma connect_ok h :
  hub_ok h → hb_slots h < MaxConnections →
  hub_ok (mkHub (hb_subscribers h) (hb_slots h + 1) (hb_broadcast h) (<[hb_next h := mkClient [] None Waiting false]> (hb_clients h)) (hb_loop h) (hb_next h + 1)).
Proof.
  intros Hok Hs.
  assert (Hc : hb_clients h !! hb_next h = None).
  { destruct (hb_clients h !! hb_next h) as [cl|] eqn:E; [|done]. pose proof (ho_next _ Hok _ _ E). lia. }
  assert (∀ c, hb_loop h = Registering c ∨ hb_loop h = Registered c → c ≠ hb_next h) as Hn.
  { intros c E ->. destruct (ho_known _ Hok _ E) as [cl E1]. by rewrite Hc in E1. }
  apply hub_ok_change; try done; try lia.
  - intros event Hm. rewrite (ho_tables _ Hok); [|intros (cl & E & _); by rewrite Hc in E].
    cbn. split; [|set_solver]. intros (cl & s & E & _). by rewrite Hc in E.
  - apply (ho_nonempty _ Hok).
  - split; cbn; try done; [by left|]. unfold taken. destruct (hb_loop h) as [|c|c| |] eqn:El; try done; intros ->; exfalso; eapply Hn; eauto.
  - rewrite Hc. cbn. lia.
  - intros c E. right. by apply (ho_known _ Hok).
  - apply (ho_range _ Hok).
  - pose proof (ho_count _ Hok). lia.
Qed.

(** The loop of the hub takes a registration; then it makes the table; then it
    reads it. *)
Lemma take_register_ok h c cl :
  hub_ok h → hb_loop h = Idle → hb_clients h !! c = Some cl → cl_phase cl = Waiting →
  hub_ok (with_loop (Registering c) (on_client c (λ cl, set_writing true (set_phase Reading cl)) h)).
Proof.
  intros Hok Hi Hc Hp. unfold on_client, with_clients, with_loop. cbn [hb_subscribers hb_slots hb_broadcast hb_clients hb_loop hb_next].
  rewrite (alter_insert_lookup _ c _ cl Hc). pose proof (ho_waiting _ Hok c cl Hc Hp) as Es.
  apply hub_ok_change; try done.
  - intros event Hm. rewrite (ho_agrees h c cl Hok Hc event) by (rewrite Hp; unfold mid; naive_solver). cbn. rewrite Hp. naive_solver.
  - apply (ho_nonempty _ Hok).
  - split; try done; [exact (subs_limit h c cl Hok Hc)|by right].
  - rewrite Hc. cbn [from_option]. rewrite !live_1 by (cbn; congruence). lia.
  - apply (ho_slots _ Hok).
  - intros c' cl1 Hd _. rewrite Hi. apply client_ok_loop; [done|]. intros c1 [[= <-]|[=]]. done.
  - intros c' [[= <-]|[=]]. by left.
  - by apply (ho_next _ Hok c cl).
Qed.

Lemma make_table_ok h c : hub_ok h → hb_loop h = Registering c → hub_ok (with_loop (Registered c) (registerClient c h)).
Proof.
  intros Hok Hl. destruct (ho_known _ Hok c) as [cl Hc]; [by left|].
  pose proof (ho_taken _ Hok c cl Hc) as Ht. rewrite Hl in Ht. destruct (Ht eq_refl) as (Es & Hg & Hw).
  pose proof (ho_ahead _ Hok c cl Hc) as Ha.
  unfold registerClient, on_client, with_clients, with_loop. cbn [hb_subscribers hb_slots hb_broadcast hb_clients hb_loop hb_next].
  rewrite (alter_insert_lookup _ c _ cl Hc). apply hub_ok_change; try done.
  - intros event Hm. rewrite (ho_agrees h c cl Hok Hc event) by done. cbn. by rewrite Es.
  - apply (ho_nonempty _ Hok).
  - split; try done; [|by intros _].
    unfold ahead in *. cbn. rewrite Es in Ha. by destruct (cl_phase cl).
  - rewrite Hc. cbn [from_option]. rewrite !live_1 by done. lia.
  - apply (ho_slots _ Hok).
  - intros c' cl1 Hd _. rewrite Hl. apply client_ok_loop; [by intros c1 [= <-]|]. by intros c1 [[=]|[= <-]].
  - intros c' [[=]|[= <-]]. by left.
  - by apply (ho_next _ Hok c cl).
Qed.

Lemma finish_register_ok h c : hub_ok h → hb_loop h = Registered c → hub_ok (with_loop Idle (registerClient_events c h)).
Proof.
  intros Hok Hl. destruct (ho_known _ Hok c) as [cl Hc]; [by right|].
  pose proof (ho_taken _ Hok c cl Hc) as Hg. rewrite Hl in Hg. specialize (Hg eq_refl). cbn in Hg.
  unfold registerClient_events, own_events, with_subscribers, with_loop. rewrite Hc.
  cbn [hb_subscribers hb_slots hb_broadcast hb_clients hb_loop hb_next]. rewrite <- (insert_id (hb_clients h) c cl Hc).
  apply hub_ok_change; try done.
  - intros event c' Hd. rewrite elem_add_all. naive_solver.
  - intros event Hm. rewrite elem_add_all, elem_of_elements, (ho_agrees h c cl Hok Hc event) by done. naive_solver.
  - intros event s. apply add_all_nonempty, (ho_nonempty _ Hok).
  - pose proof (ho_client h c cl Hok Hc) as [Ha Hli Hn Hw Ht]. split; try done.
    intros E. destruct (Hn E) as [?|E']; [by left|]. by rewrite Hl in E'.
  - rewrite Hc. cbn [from_option]. lia.
  - apply (ho_slots _ Hok).
  - intros c' cl1 Hd _. rewrite Hl. apply client_ok_loop; [done|]. by intros c1 [[=]|[=]].
  - by intros c' [[=]|[=]].
  - by apply (ho_next _ Hok c cl).
Qed.

Lemma release_slot n : 0 < n → (if 0 <? n then n - 1 else n) = n - 1.
Proof. intros H. destruct (Z.ltb_spec 0 n); lia. Qed.

Lemma slots_pos h c cl : hub_ok h → hb_clients h !! c = Some cl → cl_phase cl ≠ Gone → 0 < hb_slots h.
Proof.
  intros Hok Hc Hg. rewrite (proj1 (ho_slots _ Hok)).
  assert (live cl <= map_zsum live (hb_clients h)) as Hle.
  { apply (map_zsum_lookup_le live _ c); [|done]. intros k a _. unfold live. by destruct (cl_phase a). }
  rewrite live_1 in Hle by done. lia.
Qed.

Lemma take_unregister_ok h c cl :
  hub_ok h → hb_loop h = Idle → hb_clients h !! c = Some cl → cl_phase cl = Closing →
  hub_ok (on_client c (set_phase Gone) (unregisterClient c h)).
Proof.
  intros Hok Hi Hc Hp. assert (Hg : cl_phase cl ≠ Gone) by congruence.
  unfold unregisterClient, own_events, on_client, with_clients, with_slots, with_subscribers. cbv zeta.
  cbn [hb_subscribers hb_slots hb_broadcast hb_clients hb_loop hb_next].
  rewrite (alter_insert_lookup _ c _ cl Hc), Hc, release_slot by (by eapply slots_pos).
  apply hub_ok_change; try done.
  - intros event c' Hd. rewrite elem_drop_all. naive_solver.
  - intros event Hm. rewrite elem_drop_all, elem_of_elements, (ho_agrees h c cl Hok Hc event) by (rewrite Hp; unfold mid; naive_solver).
    cbn. naive_solver.
  - intros event s. apply drop_all_nonempty, (ho_nonempty _ Hok).
  - pose proof (ho_client h c cl Hok Hc) as [Ha Hli Hn Hw Ht]. split; try done; [|by rewrite Hi].
    cbn. intros E. destruct (Hn E) as [?|E']; [congruence|]. by rewrite Hi in E'.
  - rewrite Hc. cbn [from_option]. rewrite live_1 by done. cbn. lia.
  - pose proof (ho_slots _ Hok). lia.
  - intros c' E. right. by apply (ho_known _ Hok).
  - by rewrite Hi.
  - by apply (ho_next _ Hok c cl).
Qed.

(** *** Broadcasts *)

Lemma broadcast_ok marshal msg h : hub_ok h → hb_loop h = Idle → hub_ok (broadcastMessage marshal msg h).
Proof.
  intros Hok Hi. unfold broadcastMessage. case_bool_decide; [done|]. destruct (marshal msg) as [data|]; [|done].
  destruct (hb_subscribers h !! m_Event msg) as [s|] eqn:E; (apply hub_ok_loop; [done|by rewrite Hi|done|]); [by exists s|done].
Qed.

Lemma deliver_ok c event attached data todo h :
  hub_ok h → hb_loop h = Delivering event attached data todo →
  hub_ok (deliver c data (Delivering event attached data (todo ∖ {[c]})) h).
Proof.
  intros Hok Hl. assert (range_ok (Delivering event attached data (todo ∖ {[c]})) (hb_subscribers h)) as Hr.
  { pose proof (ho_range _ Hok) as Hr. rewrite Hl in Hr. destruct attached; cbn in *; [|set_solver].
    destruct Hr as (s & Hs & Hsub). exists s. split; [done|set_solver]. }
  unfold deliver. destruct (hb_clients h !! c) as [cl|] eqn:Hc; [|by apply hub_ok_loop; rewrite ?Hl].
  case_match; [|by apply hub_ok_loop; rewrite ?Hl].
  apply hub_ok_loop; [|by cbn; rewrite Hl|done|done]. apply (hub_ok_alike h c _ cl); [done..|]. split; [done|by left].
Qed.

(** *** Subscriptions *)

Lemma size_insert (event : string) (s : gset string) : (size ({[event]} ∪ s) ≤ S (size s))%nat.
Proof.
  rewrite size_union_alt, size_singleton. assert (size (s ∖ {[event]}) ≤ size s)%nat by (apply subseteq_size; set_solver). lia.
Qed.

(** First halves. *)
Lemma subscribe_ok c event h h' cl :
  hub_ok h → hb_clients h !! c = Some cl → cl_phase cl = Reading → Subscribe c event h = Accepted h' → hub_ok h'.
Proof.
  intros Hok Hc Hp. unfold Subscribe. rewrite Hc. destruct (Z.leb_spec MaxSubscriptions (Z.of_nat (size (default ∅ (cl_subs cl))))) as [|Hs]; [done|].
  destruct (cl_subs cl) as [s|] eqn:Es; [|done]. intros [= <-]. cbn [default] in Hs.
  pose proof (ho_client h c cl Hok Hc) as [Ha Hli Hn Hw Ht]. pose proof (ho_agrees h c cl Hok Hc) as Hag.
  apply (hub_ok_client h c _ cl); [done|done|..].
  - split; cbn; try done.
    + set_solver.
    + pose proof (size_insert event s). cbn [default] in *. unfold MaxSubscriptions, id in *. lia.
    + unfold taken in *. destruct (hb_loop h) as [|c1|c1| |]; try done. intros ->. destruct (Ht eq_refl) as [? _]. congruence.
  - intros event' Hm. cbn in *. rewrite (Hag event') by (rewrite Hp; unfold mid; naive_solver). rewrite Hp, Es. cbn.
    assert (event' ≠ event) by (intros ->; apply Hm; by left). set_solver.
  - rewrite !live_1; [done|by rewrite Hp|done].
Qed.

Lemma unsubscribe_ok c event h cl :
  hub_ok h → hb_clients h !! c = Some cl → cl_phase cl = Reading → hub_ok (Unsubscribe c event h).
Proof.
  intros Hok Hc Hp. pose proof (ho_client h c cl Hok Hc) as [Ha Hli Hn Hw Ht]. pose proof (ho_agrees h c cl Hok Hc) as Hag.
  assert (default ∅ ((λ s, s ∖ {[event]}) <$> cl_subs cl) = default ∅ (cl_subs cl) ∖ {[event]}) as Ed
    by (destruct (cl_subs cl); cbn; set_solver).
  apply (hub_ok_client h c _ cl); [done|done|..].
  - split; cbn [set_phase set_subs cl_subs cl_phase ahead]; try done.
    + unfold ahead. cbn [set_phase set_subs cl_subs cl_phase]. rewrite Ed. set_solver.
    + rewrite Ed. assert (size (default ∅ (cl_subs cl) ∖ {[event]}) ≤ size (default ∅ (cl_subs cl)))%nat by (apply subseteq_size; set_solver). lia.
    + destruct (cl_subs cl); [done|]. intros _. destruct Hn as [?|?]; [done|congruence|by right].
    + unfold taken in *. destruct (hb_loop h) as [|c1|c1| |]; try done. intros ->. destruct (Ht eq_refl) as [E _]. cbn. by rewrite E.
  - intros event' Hm. cbn [set_phase set_subs cl_subs cl_phase] in *. rewrite Ed, (Hag event') by (rewrite Hp; unfold mid; naive_solver). rewrite Hp.
    assert (event' ≠ event) by (intros ->; apply Hm; by right). set_solver.
  - rewrite !live_1; [done|by rewrite Hp|done].
Qed.

(** Two loops that hold the same registration. *)
Definition same_hold (l l' : hub_loop) : Prop :=
  ∀ c, (l' = Registering c ↔ l = Registering c) ∧ (l' = Registered c ↔ l = Registered c).

Lemma client_ok_same l l' c cl : same_hold l l' → client_ok l c cl → client_ok l' c cl.
Proof.
  intros Hs [Ha Hl Hn Hw Ht]. split; try done.
  - intros E. destruct (Hn E) as [?|E']; [by left|]. right. by apply Hs.
  - unfold taken in *. destruct l' as [|c'|c'| |]; try done.
    + by rewrite (proj1 (proj1 (Hs c')) eq_refl) in Ht.
    + by rewrite (proj1 (proj2 (Hs c')) eq_refl) in Ht.
Qed.

Lemma range_added_hold c event seen h : same_hold (hb_loop h) (range_added c event seen h).
Proof. intros c'. unfold range_added. repeat case_match; naive_solver. Qed.

Lemma range_dropped_hold c event h : same_hold (hb_loop h) (range_dropped c event h).
Proof. intros c'. unfold range_dropped. repeat case_match; naive_solver. Qed.

Lemma range_added_ok c event seen h :
  range_ok (hb_loop h) (hb_subscribers h) → range_ok (range_added c event seen h) (add_subscriber c event (hb_subscribers h)).
Proof.
  unfold range_added, add_subscriber. destruct (hb_loop h) as [| | |e [|] data todo|]; try done. cbn. intros (s & Hs & Hsub).
  destruct (decide (e = event)) as [->|Hne].
  - rewrite bool_decide_eq_true_2, Hs by done. cbn. destruct (negb _ && seen); cbn; rewrite lookup_insert_eq; eexists; (split; [done|set_solver]).
  - rewrite bool_decide_eq_false_2 by done. cbn. rewrite lookup_insert_ne by done. by exists s.
Qed.

Lemma range_dropped_ok c event h :
  range_ok (hb_loop h) (hb_subscribers h) → range_ok (range_dropped c event h) (drop_subscriber c event (hb_subscribers h)).
Proof.
  unfold range_dropped. destruct (hb_loop h) as [| | |e [|] data todo|]; try done. cbn. intros (s & Hs & Hsub).
  destruct (decide (e = event)) as [->|Hne].
  - rewrite bool_decide_eq_true_2 by done. destruct (drop_subscriber c event (hb_subscribers h) !! event) as [s'|] eqn:E; cbn; [|done].
    exists s'. split; [done|]. intros c' [Hc Hd%not_elem_of_singleton]%elem_of_difference.
    assert (c' ∈ default ∅ (drop_subscriber c event (hb_subscribers h) !! event)) as H; [|by rewrite E in H].
    rewrite elem_drop_subscriber, Hs. cbn. set_solver.
  - rewrite bool_decide_eq_false_2 by done. cbn. exists s. split; [|done].
    unfold drop_subscriber. destruct (hb_subscribers h !! event); [|done]. cbv zeta. case_decide; [by rewrite lookup_delete_ne|by rewrite lookup_insert_ne].
Qed.

(** Second halves. *)
Lemma table_change_ok h c cl event m' l' answer :
  hub_ok h → hb_clients h !! c = Some cl → mid (cl_phase cl) event → same_hold (hb_loop h) l' → range_ok l' m' →
  (∀ event' c', ¬ (c' = c ∧ event' = event) → c' ∈ default ∅ (m' !! event') ↔ c' ∈ default ∅ (hb_subscribers h !! event')) →
  (c ∈ default ∅ (m' !! event) ↔ event ∈ default ∅ (cl_subs cl)) →
  (∀ event' s, m' !! event' = Some s → s ≠ ∅) →
  hub_ok (on_client c (set_phase (Replying answer)) (with_loop l' (with_subscribers m' h))).
Proof.
  intros Hok Hc Hp Hhold Hr Hm Hown Hne. assert (cl_phase cl ≠ Gone ∧ cl_phase cl ≠ Waiting) as [Hg Hw'] by (by destruct Hp as [-> | ->]).
  pose proof (ho_client h c cl Hok Hc) as Hco. unfold on_client, with_clients, with_loop, with_subscribers.
  cbn [hb_subscribers hb_slots hb_broadcast hb_clients hb_loop hb_next]. rewrite (alter_insert_lookup _ c _ cl Hc).
  apply hub_ok_change; try done.
  - intros event' c' Hd. apply Hm. naive_solver.
  - intros event' _. cbn. destruct (decide (event' = event)) as [->|He].
    + rewrite Hown. split; [by split|by intros [_ ?]].
    + rewrite Hm by (by intros [_ ?]). rewrite (ho_agrees h c cl Hok Hc event').
      * split; intros [_ ?]; by split.
      * intros [E|E]; destruct Hp as [E'|E']; congruence.
  - apply (client_ok_same (hb_loop h)); [done|]. destruct Hco as [Ha Hli Hn Hw Ht]. split; try done.
    + cbn. intros E. destruct (Hn E) as [?|?]; [done|by right].
    + unfold taken in *. destruct (hb_loop h) as [|c1|c1| |]; try done. cbn. intros E. by destruct (Ht E).
  - rewrite Hc. cbn [from_option]. rewrite !live_1 by done. lia.
  - apply (ho_slots _ Hok).
  - intros c' cl1 _ _. by apply client_ok_same.
  - intros c' E. right. apply (ho_known _ Hok). destruct (Hhold c') as [E1 E2]. by rewrite <- E1, <- E2.
  - by apply (ho_next _ Hok c cl).
Qed.

Lemma subscribe_table_ok h c cl event seen answer :
  hub_ok h → hb_clients h !! c = Some cl → cl_phase cl = Subscribing event →
  hub_ok (on_client c (set_phase (Replying answer)) (Subscribe_table c event seen h)).
Proof.
  intros Hok Hc Hp. pose proof (ho_ahead _ Hok c cl Hc) as Ha. unfold ahead in Ha. rewrite Hp in Ha.
  apply (table_change_ok h c cl event); try done.
  - by left.
  - apply range_added_hold.
  - apply range_added_ok, (ho_range _ Hok).
  - intros event' c' Hn. rewrite elem_add_subscriber. naive_solver.
  - rewrite elem_add_subscriber. naive_solver.
  - intros event' s. apply add_nonempty, (ho_nonempty _ Hok).
Qed.

Lemma unsubscribe_table_ok h c cl event answer :
  hub_ok h → hb_clients h !! c = Some cl → cl_phase cl = Unsubscribing event →
  hub_ok (on_client c (set_phase (Replying answer)) (Unsubscribe_table c event h)).
Proof.
  intros Hok Hc Hp. pose proof (ho_ahead _ Hok c cl Hc) as Ha. unfold ahead in Ha. rewrite Hp in Ha.
  apply (table_change_ok h c cl event); try done.
  - by right.
  - apply range_dropped_hold.
  - apply range_dropped_ok, (ho_range _ Hok).
  - intros event' c' Hn. rewrite elem_drop_subscriber. naive_solver.
  - rewrite elem_drop_subscriber. naive_solver.
  - intros event' s. apply drop_nonempty, (ho_nonempty _ Hok).
Qed.

(** *** Steps *)

(** An action as the code it runs. *)
Ltac unfold_step := cbv beta iota delta [step HandleWebSocket run_register run_made run_registered run_unregister run_broadcast run_deliver
  run_delivered Broadcast read_message update_table send_answer write_messages stop_writing].
Tactic Notation "unfold_step" "in" ident(E) := cbv beta iota delta [step HandleWebSocket run_register run_made run_registered run_unregister
  run_broadcast run_deliver run_delivered Broadcast read_message update_table send_answer write_messages stop_writing] in E.

Lemma running_inv c h p next h' :
  running c h p next = Next h' → ∃ cl, hb_clients h !! c = Some cl ∧ cl_phase cl = p ∧ next cl = Next h'.
Proof.
  unfold running. destruct (hb_clients h !! c) as [cl|]; [|done]. case_decide; [|done]. intros E. by exists cl.
Qed.

Lemma reply_ok h c cl answer :
  hub_ok h → hb_clients h !! c = Some cl → quiet (cl_phase cl) = true → hub_ok (on_client c (set_phase (Replying answer)) h).
Proof. intros Hok Hc Hq. apply (hub_ok_alike h c _ cl); [done..|]. split; [done|by right]. Qed.

Lemma handle_ok marshal c msg caught h h' cl :
  hub_ok h → hb_clients h !! c = Some cl → cl_phase cl = Reading → handleMessage marshal c msg caught h = Some h' → hub_ok h'.
Proof.
  intros Hok Hc Hp. unfold handleMessage. case_bool_decide; [|case_bool_decide].
  - destruct (Subscribe c (m_Event msg) h) as [h1| |] eqn:E; [|intros [= <-]; apply (reply_ok h c cl); [done..|by rewrite Hp]|done].
    case_match; [done|]. intros [= <-]. by eapply subscribe_ok.
  - intros [= <-]. by eapply unsubscribe_ok.
  - intros [= <-]. apply (reply_ok h c cl); [done..|by rewrite Hp].
Qed.

Lemma update_ok c caught seen h h' : hub_ok h → update_table c caught seen h = Next h' → hub_ok h'.
Proof.
  intros Hok. unfold update_table. destruct (hb_clients h !! c) as [cl|] eqn:Hc; [|done].
  destruct (cl_phase cl) as [| |event|event| | |] eqn:Hp; try done.
  all: destruct (hub_locked h); [done|]; destruct (ranging event h && caught); [done|]; intros [= <-].
  - by apply (subscribe_table_ok h c cl).
  - by apply (unsubscribe_table_ok h c cl).
Qed.

Lemma step_ok marshal a h h' : hub_ok h → step marshal a h = Next h' → hub_ok h'.
Proof.
  intros Hok. destruct a as [up|c| | |c| |c| |msg|c msg caught|c caught seen|c|c|c n|c]; [..|by apply update_ok| | | |]; unfold_step.
  - unfold AcquireConnection. destruct (Z.ltb_spec (hb_slots h) MaxConnections) as [Hs|]; [|by intros [= <-]].
    destruct up; intros [= <-]; [by apply connect_ok|]. unfold ReleaseConnection, with_slots.
    cbn [hb_subscribers hb_slots hb_broadcast hb_clients hb_loop hb_next].
    assert (0 <= hb_slots h).
    { rewrite (proj1 (ho_slots _ Hok)). apply map_zsum_nonneg. intros k cl _. unfold live. by destruct (cl_phase cl). }
    rewrite release_slot by lia. replace (hb_slots h + 1 - 1) with (hb_slots h) by lia. by destruct h.
  - destruct (hb_loop h) eqn:Hi; [|done..]. intros (cl & Hc & Hp & [= <-])%running_inv. by apply (take_register_ok h c cl).
  - destruct (hb_loop h) as [|c| | |] eqn:Hi; [done| |done..]. intros [= <-]. by apply make_table_ok.
  - destruct (hb_loop h) as [| |c| |] eqn:Hi; [done..| |done|done]. intros [= <-]. by apply finish_register_ok.
  - destruct (hb_loop h) eqn:Hi; [|done..]. intros (cl & Hc & Hp & [= <-])%running_inv. by apply (take_unregister_ok h c cl).
  - destruct (hb_loop h) eqn:Hi; [|done..]. destruct (hb_broadcast h) as [|msg rest] eqn:Hb; [done|]. intros [= <-].
    apply broadcast_ok; [by apply hub_ok_queue|done].
  - destruct (hb_loop h) as [| | |event attached data todo|] eqn:Hi; try done. case_bool_decide; [|done]. intros [= <-]. by apply deliver_ok.
  - destruct (hb_loop h) as [| | |event attached data todo|] eqn:Hi; try done. case_bool_decide; [|done]. intros [= <-].
    by apply hub_ok_loop; rewrite ?Hi.
  - case_match; [|done]. intros [= <-]. by apply hub_ok_queue.
  - intros (cl & Hc & Hp & E)%running_inv. destruct msg as [msg|].
    + destruct (handleMessage marshal c msg caught h) as [h1|] eqn:Eh; [|done]. injection E as <-. by eapply handle_ok.
    + injection E as <-. apply (reply_ok h c cl); [done..|by rewrite Hp].
  - intros (cl & Hc & Hp & [= <-])%running_inv. apply (hub_ok_alike h c _ cl); [done..|]. split; [done|]. right. by rewrite Hp.
  - destruct (hb_clients h !! c) as [cl|] eqn:Hc; [|done]. destruct (cl_phase cl) eqn:Hp; try done.
    case_match; [|done]. intros [= <-]. apply (hub_ok_alike h c _ cl); [done..|]. split; [done|]. right. by rewrite Hp.
  - destruct (hb_clients h !! c) as [cl|] eqn:Hc; [|done]. case_match; [|done]. intros [= <-].
    apply (hub_ok_alike h c _ cl); [done..|]. split; [done|by left].
  - destruct (hb_clients h !! c) as [cl|] eqn:Hc; [|done]. case_match; [|done]. intros [= <-].
    apply (hub_ok_alike h c _ cl); [done..|]. split; [done|by left].
Qed.

Lemma reachable_ok marshal h : rtc (hub_step marshal) NewHub h → hub_ok h.
Proof.
  intros Hr. assert (Hi : hub_ok NewHub).
  { split; unfold NewHub, subscribes; cbn [hb_subscribers hb_slots hb_clients hb_loop hb_next]; try done; [|by intros c [|]].
    intros event c _. rewrite lookup_empty. cbn. split; [set_solver|]. intros (cl & s & E & _). by rewrite lookup_empty in E. }
  induction Hr as [h|h h1 h2 (a & Hs) _ IH] in Hi |- *; [done|]. apply IH. by eapply step_ok.
Qed.

(** *** Delivery *)

(** A run of actions. *)
Fixpoint run (marshal : Message → option string) (l : list action) (h : Hub) : option Hub :=
  match l with
  | [] => Some h
  | a :: l => match step marshal a h with Next h' => run marshal l h' | _ => None end
  end.

Lemma run_reachable marshal l h h' : run marshal l h = Some h' → rtc (hub_step marshal) h h'.
Proof.
  revert h. induction l as [|a l IH]; intros h E; cbn in *; [by injection E as <-|].
  destruct (step marshal a h) as [h1| |] eqn:Es; [|done..]. apply rtc_l with h1; [by exists a|by apply IH].
Qed.

Lemma run_app marshal l1 l2 h h1 : run marshal l1 h = Some h1 → run marshal (l1 ++ l2) h = run marshal l2 h1.
Proof.
  revert h. induction l1 as [|a l1 IH]; intros h E; cbn in *; [by injection E as ->|].
  destruct (step marshal a h); [by apply IH|done..].
Qed.

(** The uninterrupted loop: a buffer with room takes the message; the others
    stay. *)
Lemma deliver_room marshal event attached data order h :
  NoDup order → Forall (λ c, ∃ cl, hb_clients h !! c = Some cl ∧ Z.of_nat (length (cl_send cl)) < sendBuffer) order →
  hb_loop h = Delivering event attached data (list_to_set order) →
  ∃ m, run marshal ((Deliver <$> order) ++ [FinishBroadcast]) h = Some (with_loop Idle (with_clients m h))
  ∧ ∀ c, m !! c = if bool_decide (c ∈ order) then (λ cl, set_send (cl_send cl ++ [data]) cl) <$> hb_clients h !! c else hb_clients h !! c.
Proof.
  revert h. induction order as [|c order IH]; intros h Hnd Hall Hl; cbn [fmap list_fmap app run].
  { exists (hb_clients h). unfold_step. rewrite Hl, bool_decide_eq_true_2 by done. by destruct h. }
  apply NoDup_cons in Hnd as [Hc Hnd]. apply Forall_cons_1 in Hall as [(cl & Hcl & Hroom) Hall].
  unfold_step. rewrite Hl, bool_decide_eq_true_2 by set_solver. unfold deliver. rewrite Hcl, (proj2 (Z.ltb_lt _ _) Hroom).
  set (h1 := with_loop _ _). destruct (IH h1) as (m & Em & Hm).
  - done.
  - apply Forall_forall. intros c' Hc'. pose proof (proj1 (Forall_forall _ _) Hall c' Hc') as (cl' & E & ?).
    exists cl'. cbn [h1 with_loop on_client with_clients hb_clients]. by rewrite lookup_alter_ne by (intros ->; done).
  - unfold h1. cbn [with_loop hb_loop]. f_equal. cbn [list_to_set]. set_solver.
  - exists m. split; [exact Em|]. intros c'. rewrite Hm. cbn [h1 with_loop on_client with_clients hb_clients].
    destruct (decide (c' = c)) as [->|Hd].
    + rewrite lookup_alter_eq, bool_decide_false, bool_decide_true by set_solver. done.
    + rewrite lookup_alter_ne by done. by rewrite (bool_decide_ext (c' ∈ c :: order) (c' ∈ order)) by set_solver.
Qed.

(** *** A full buffer *)

Definition full (c : Z) (h : Hub) : Prop := ∃ cl, hb_clients h !! c = Some cl ∧ sendBuffer <= Z.of_nat (length (cl_send cl)).

(** The hub's loop has to send to client [c] before it can do anything else, or
    is blocked already. *)
Definition waits_for (c : Z) (h : Hub) : Prop :=
  match hb_loop h with Delivering _ _ _ todo => c ∈ todo | Stuck => True | _ => False end.

(** Client [c] fetches nothing and completes no change of its subscriptions. *)
Definition inactive (c : Z) (a : action) : bool :=
  match a with WriteOut c' _ | UpdateTable c' _ _ => negb (c' =? c) | _ => true end.

Lemma full_alter c c' f h h' :
  full c h → hb_clients h' = alter f c' (hb_clients h) →
  (∀ cl, (c' = c → sendBuffer <= Z.of_nat (length (cl_send cl))) → (length (cl_send cl) <= length (cl_send (f cl)))%nat ∨ c' ≠ c) → full c h'.
Proof.
  intros (cl & Hc & Hf) E Hl. unfold full. rewrite E. destruct (decide (c' = c)) as [->|Hd].
  - exists (f cl). rewrite lookup_alter_eq, Hc. split; [done|]. destruct (Hl cl) as [?|?]; [done|lia|done].
  - exists cl. by rewrite lookup_alter_ne.
Qed.

Lemma waits_added c c' event seen h : waits_for c h → waits_for c (Subscribe_table c' event seen h).
Proof.
  unfold waits_for, Subscribe_table, range_added. cbn [with_loop hb_loop].
  destruct (hb_loop h) as [| | |e [|] data todo|]; try done.
  intros Hc. destruct (bool_decide (e = event) && _ && seen); [set_solver|done].
Qed.

Lemma waits_dropped c c' event h : hub_ok h → c' ≠ c → waits_for c h → waits_for c (Unsubscribe_table c' event h).
Proof.
  intros Hok Hd. unfold waits_for, Unsubscribe_table, range_dropped. cbn [with_loop hb_loop].
  pose proof (ho_range _ Hok) as Hr. destruct (hb_loop h) as [| | |e [|] data todo|]; try done. intros Hc.
  destruct Hr as (s & Hs & Hsub). case_bool_decide as He; [|done]. subst e.
  assert (c ∈ default ∅ (drop_subscriber c' event (hb_subscribers h) !! event)) as Hin.
  { apply elem_drop_subscriber. rewrite Hs. cbn. split; [by apply Hsub|]. naive_solver. }
  destruct (drop_subscriber c' event (hb_subscribers h) !! event); [set_solver|by apply not_elem_of_empty in Hin].
Qed.

Lemma stays_full c h h' f c' :
  full c h → hb_clients h' = alter f c' (hb_clients h) → (∀ cl, cl_send (f cl) = cl_send cl) → full c h'.
Proof. intros Hf E Hs. apply (full_alter c c' f h h' Hf E). intros cl _. left. by rewrite Hs. Qed.

(** Nothing that others do, and nothing that the client does short of that,
    sets the hub free. *)
Lemma waits_step marshal c a h h' :
  hub_ok h → full c h → waits_for c h → inactive c a = true → step marshal a h = Next h' →
  full c h' ∧ waits_for c h' ∧ hb_slots h <= hb_slots h'.
Proof.
  intros Hok Hf Hw Ha. assert (∀ c1, hb_loop h ≠ Registering c1 ∧ hb_loop h ≠ Registered c1) as Hnr.
  { intros c1. unfold waits_for in Hw. by destruct (hb_loop h). }
  assert (hb_loop h ≠ Idle) as Hni by (intros E; unfold waits_for in Hw; by rewrite E in Hw).
  destruct a as [up|c1| | |c1| |c1| |msg|c1 msg caught|c1 caught seen|c1|c1|c1 n|c1]; unfold_step.
  - unfold AcquireConnection. destruct (Z.ltb_spec (hb_slots h) MaxConnections); [|by intros [= <-]].
    destruct up; intros [= <-].
    + split; [|split; [done|cbn; lia]]. destruct Hf as (cl & Hc & Hl). exists cl. split; [|done]. cbn.
      rewrite lookup_insert_ne; [done|]. intros E. pose proof (ho_next _ Hok _ _ Hc). lia.
    + split; [done|split; [done|]]. cbn. case_match; lia.
  - by destruct (hb_loop h).
  - destruct (hb_loop h) as [|c1| | |] eqn:E; try done. by destruct (Hnr c1).
  - destruct (hb_loop h) as [| |c1| |] eqn:E; try done. by destruct (Hnr c1).
  - by destruct (hb_loop h).
  - by destruct (hb_loop h).
  - unfold waits_for in Hw. destruct (hb_loop h) as [| | |e att data todo|] eqn:El; try done. case_bool_decide; [|done].
    intros [= <-]. unfold deliver. destruct Hf as (cl & Hc & Hl). destruct (hb_clients h !! c1) as [cl1|] eqn:Hc1.
    + destruct (Z.ltb_spec (Z.of_nat (length (cl_send cl1))) sendBuffer) as [Hr|Hr].
      * assert (c1 ≠ c) by (intros ->; rewrite Hc in Hc1; injection Hc1 as <-; lia).
        split; [|split; [unfold waits_for; cbn; set_solver|done]]. exists cl. cbn. by rewrite lookup_alter_ne.
      * split; [by exists cl|done].
    + assert (c1 ≠ c) by congruence. split; [by exists cl|]. split; [unfold waits_for; cbn; set_solver|done].
  - unfold waits_for in Hw. destruct (hb_loop h) as [| | |e att data todo|] eqn:El; try done. case_bool_decide; [set_solver|done].
  - case_match; [|done]. by intros [= <-].
  - intros (cl & Hc & Hp & E)%running_inv. destruct msg as [msg|].
    + unfold handleMessage, Subscribe, Unsubscribe in E. rewrite Hc in E.
      repeat case_match; simplify_eq; (split; [by eapply stays_full|done]).
    + injection E as <-. split; [by eapply stays_full|done].
  - cbn [inactive] in Ha. assert (c1 ≠ c) as Hd by (intros ->; by rewrite Z.eqb_refl in Ha).
    unfold update_table. destruct (hb_clients h !! c1) as [cl|] eqn:Hc; [|done].
    destruct (cl_phase cl) as [| |event|event| | |]; try done;
      (destruct (hub_locked h); [done|]); (destruct (ranging event h && caught); [done|]); intros [= <-];
      (split; [by eapply stays_full|split; [|done]]).
    + by apply waits_added.
    + by apply waits_dropped.
  - intros (cl & Hc & Hp & [= <-])%running_inv. split; [by eapply stays_full|done].
  - destruct (hb_clients h !! c1) as [cl|] eqn:Hc; [|done]. destruct (cl_phase cl); try done. case_match; [|done]. intros [= <-].
    split; [|done]. eapply full_alter; [done|reflexivity|]. intros cl' _. left. cbn. rewrite length_app. lia.
  - cbn [inactive] in Ha. assert (c1 ≠ c) as Hd by (intros ->; by rewrite Z.eqb_refl in Ha).
    destruct (hb_clients h !! c1) as [cl|] eqn:Hc; [|done]. case_match; [|done]. intros [= <-].
    split; [|done]. eapply full_alter; [done|reflexivity|]. intros cl' _. by right.
  - destruct (hb_clients h !! c1) as [cl|] eqn:Hc; [|done]. case_match; [|done]. intros [= <-]. split; [by eapply stays_full|done].
Qed.

Lemma waits_run marshal c l h h' :
  hub_ok h → full c h → waits_for c h → forallb (inactive c) l = true → run marshal l h = Some h' →
  waits_for c h' ∧ hb_slots h <= hb_slots h'.
Proof.
  revert h. induction l as [|a l IH]; intros h Hok Hf Hw Hl E; cbn in *; [by injection E as <-|].
  apply andb_true_iff in Hl as [Ha Hl]. destruct (step marshal a h) as [h1| |] eqn:Es; [|done..].
  destruct (waits_step marshal c a h h1 Hok Hf Hw Ha Es) as (Hf1 & Hw1 & Hs1).
  destruct (IH h1) as [? ?]; [by eapply step_ok|done..|]. split; [done|lia].
Qed.

(** A blocked loop stays blocked. *)
Lemma stuck_step marshal h h' : hb_loop h = Stuck → hub_step marshal h h' → hb_loop h' = Stuck ∧ hb_slots h <= hb_slots h'.
Proof.
  intros Hs (a & E). destruct a as [up|c1| | |c1| |c1| |msg|c1 msg caught|c1 caught seen|c1|c1|c1 n|c1]; unfold_step in E; try (by rewrite Hs in E).
  - unfold AcquireConnection in E. destruct (hb_slots h <? MaxConnections); [|by (injection E as <-; split; [|lia])].
    destruct up; injection E as <-; [cbn; split; [done|lia]|]. cbn. split; [done|]. case_match; lia.
  - case_match; [|done]. injection E as <-. split; [done|cbn; lia].
  - apply running_inv in E as (cl & Hc & Hp & E). destruct msg as [msg|]; [|by (injection E as <-; split; [|cbn; lia])].
    unfold handleMessage, Subscribe, Unsubscribe in E. rewrite Hc in E. repeat case_match; simplify_eq; (split; [done|cbn; lia]).
  - unfold update_table, Subscribe_table, Unsubscribe_table, range_added, range_dropped in E. rewrite Hs in E.
    repeat case_match; simplify_eq; (split; [done|cbn; lia]).
  - apply running_inv in E as (cl & Hc & Hp & E). by (injection E as <-; split; [|cbn; lia]).
  - repeat case_match; simplify_eq; (split; [done|cbn; lia]).
  - repeat case_match; simplify_eq; (split; [done|cbn; lia]).
  - repeat case_match; simplify_eq; (split; [done|cbn; lia]).
Qed.

Lemma stuck_forever marshal h h' : hb_loop h = Stuck → rtc (hub_step marshal) h h' → hb_loop h' = Stuck ∧ hb_slots h <= hb_slots h'.
Proof.
  intros Hs Hr. induction Hr as [h|h h1 h2 H1 _ IH]; [done|]. destruct (stuck_step marshal h h1 Hs H1) as [Hs1 Hle].
  destruct (IH Hs1). split; [done|lia].
Qed.

(** Whoever is in an entry is connected. *)
Lemma entry_connected h (Hok : hub_ok h) event c :
  c ∈ default ∅ (hb_subscribers h !! event) → ∃ cl, hb_clients h !! c = Some cl ∧ cl_phase cl ≠ Gone.
Proof.
  intros Hc. destruct (hb_clients h !! c) as [cl|] eqn:E.
  - exists cl. split; [done|]. intros Hg. assert (¬ mid (cl_phase cl) event) as Hm by (rewrite Hg; by intros [?|?]).
    by destruct (proj1 (ho_agrees h c cl Hok E event Hm) Hc).
  - assert (¬ changing h c event) as Hn by (intros (cl & E' & _); congruence).
    apply (ho_tables _ Hok event c Hn) in Hc as (cl & s & E' & _). congruence.
Qed.

(** *** Example runs *)

(** A client connects, subscribes to new blocks and gets its answer. *)
Definition subscription (c : Z) : list action :=
  [Receive c (Some (mkMessage "subscribe" "newHeads" "" None)) false; UpdateTable c false false; Reply c].

Definition registration (c : Z) : list action := [Connect true; TakeRegister c; MakeTable; FinishRegister].

Definition newHeads_subscription : list action := registration 0 ++ subscription 0.

Definition marshal_data (msg : Message) : option string := Some (m_Data msg).

(** Blocks that the client does not fetch. *)
Fixpoint unread_blocks (n : nat) : list action :=
  match n with O => [] | S n => [BroadcastNewHead "block"; TakeBroadcast; Deliver 0; FinishBroadcast] ++ unread_blocks n end.

Definition run_or_new (l : list action) : Hub := default NewHub (run marshal_data l NewHub).

(** After the first half of a subscription, with a client subscribed, and with
    its buffer full. *)
Definition half_subscribed_hub : Hub := run_or_new (registration 0 ++ take 1 (subscription 0)).
Definition subscribed_hub : Hub := run_or_new (newHeads_subscription ++ [BroadcastNewHead "block"]).
Definition slow_hub : Hub := run_or_new (newHeads_subscription ++ unread_blocks 255 ++ [BroadcastNewHead "block"]).

Lemma half_subscribed_reachable : rtc (hub_step marshal_data) NewHub half_subscribed_hub.
Proof. apply (run_reachable _ (registration 0 ++ take 1 (subscription 0))); vm_compute; reflexivity. Qed.

Lemma subscribed_hub_reachable : rtc (hub_step marshal_data) NewHub subscribed_hub.
Proof. apply (run_reachable _ (newHeads_subscription ++ [BroadcastNewHead "block"])); vm_compute; reflexivity. Qed.

Lemma slow_hub_reachable : rtc (hub_step marshal_data) NewHub slow_hub.
Proof. apply (run_reachable _ (newHeads_subscription ++ unread_blocks 255 ++ [BroadcastNewHead "block"])); vm_compute; reflexivity. Qed.

(** ** The hub *)

(** C34: In every state that the goroutines can bring about, in any interleaving
    of their critical sections, the hub's table and the clients' own tables
    agree but for the changes that are half done: a client is in the entry of
    an event exactly if it is connected and its own table has the event, unless
    it is between the two halves of subscribing to this very event or of ending
    the subscription; and then its own table is ahead (it has the event, or has
    it no more) and the client is connected. A client that is half way does
    not have any other event half done. No entry is empty, every client in an
    entry is connected, no client has more than ten subscriptions, the
    connection slots taken are the connections that exist, at most a hundred,
    and whom the hub's loop has still to visit is in the entry it ranges over. *)
Theorem hub_tables_agree (marshal : Message → option string) h :
  rtc (hub_step marshal) NewHub h →
  (∀ event c, ¬ changing h c event → c ∈ default ∅ (hb_subscribers h !! event) ↔ subscribes h c event)
  ∧ (∀ c cl event, hb_clients h !! c = Some cl → cl_phase cl = Subscribing event → subscribes h c event)
  ∧ (∀ c cl event, hb_clients h !! c = Some cl → cl_phase cl = Unsubscribing event → ¬ subscribes h c event)
  ∧ (∀ c event event', changing h c event → changing h c event' → event' = event)
  ∧ (∀ event c, c ∈ default ∅ (hb_subscribers h !! event) → ∃ cl, hb_clients h !! c = Some cl ∧ cl_phase cl ≠ Gone)
  ∧ (∀ event s, hb_subscribers h !! event = Some s → s ≠ ∅)
  ∧ (∀ c cl s, hb_clients h !! c = Some cl → cl_subs cl = Some s → Z.of_nat (size s) <= MaxSubscriptions)
  ∧ hb_slots h = map_zsum live (hb_clients h) ∧ hb_slots h <= MaxConnections
  ∧ (∀ event attached data todo, hb_loop h = Delivering event attached data todo → todo ⊆ default ∅ (hb_subscribers h !! event)).
Proof.
  intros Hr%reachable_ok. split; [apply (ho_tables _ Hr)|]. split; [|split; [|split; [|split; [|split; [|split; [|split; [|split]]]]]]].
  - intros c cl event Hc Hp. pose proof (ho_ahead _ Hr c cl Hc) as Ha. unfold ahead in Ha. rewrite Hp in Ha.
    destruct (cl_subs cl) as [s|] eqn:Es; [|by apply not_elem_of_empty in Ha]. exists cl, s. by rewrite Hp.
  - intros c cl event Hc Hp (cl1 & s & E & _ & Es & He). rewrite Hc in E. injection E as <-.
    pose proof (ho_ahead _ Hr c cl Hc) as Ha. unfold ahead in Ha. rewrite Hp, Es in Ha. done.
  - intros c event event' (cl & Hc & Hm) (cl1 & E & Hm'). rewrite Hc in E. injection E as <-.
    unfold mid in *. destruct Hm, Hm'; congruence.
  - apply (entry_connected h Hr).
  - apply (ho_nonempty _ Hr).
  - apply (ho_limit _ Hr).
  - apply (ho_slots _ Hr).
  - apply (ho_slots _ Hr).
  - intros event att data todo El. pose proof (ho_range _ Hr) as Ho. rewrite El in Ho.
    destruct att; [|by rewrite Ho]. destruct Ho as (s & -> & Hs). exact Hs.
Qed.

(** Subscribed, the tables agree; half way, only the own table has the event. *)
Lemma hub_tables_agree_witness :
  (0 ∈ default ∅ (hb_subscribers subscribed_hub !! "newHeads") ∧ subscribes subscribed_hub 0 "newHeads")
  ∧ (hb_subscribers half_subscribed_hub !! "newHeads" = None ∧ subscribes half_subscribed_hub 0 "newHeads").
Proof.
  pose proof (hub_tables_agree marshal_data subscribed_hub subscribed_hub_reachable) as (Ht & _).
  pose proof (hub_tables_agree marshal_data half_subscribed_hub half_subscribed_reachable) as (_ & Hs & _).
  split; split.
  - apply (bool_decide_unpack _). vm_compute. exact I.
  - apply Ht; [|apply (bool_decide_unpack _); vm_compute; exact I].
    assert (cl_phase <$> hb_clients subscribed_hub !! 0 = Some Reading) as E0 by (vm_compute; reflexivity).
    intros (cl & E & Hm). rewrite E in E0. injection E0 as E0. rewrite E0 in Hm. destruct Hm; discriminate.
  - vm_compute. reflexivity.
  - apply (Hs 0 (mkClient [] (Some {["newHeads"]}) (Subscribing "newHeads") true)); [|reflexivity].
    vm_compute. reflexivity.
Defined.

(** The two halves leave a window in which the tables disagree. *)
Example tables_disagree_reachable :
  rtc (hub_step marshal_data) NewHub half_subscribed_hub ∧ subscribes half_subscribed_hub 0 "newHeads"
  ∧ hb_subscribers half_subscribed_hub !! "newHeads" = None.
Proof.
  split; [apply half_subscribed_reachable|]. split; [|vm_compute; reflexivity].
  exists (mkClient [] (Some {["newHeads"]}) (Subscribing "newHeads") true), {["newHeads"]}.
  split_and!; [vm_compute; reflexivity|done|done|set_solver].
Qed.

(** A message of an event goes to the buffer of every client in the entry,
    once and behind what is there, and to no other, if each of these
    buffers has room, whatever order the hub visits them in, as long as nothing
    comes between; nothing else changes. *)
Theorem broadcast_delivers (marshal : Message → option string) h msg rest data order :
  rtc (hub_step marshal) NewHub h → hb_loop h = Idle → hb_broadcast h = msg :: rest →
  m_Event msg ≠ "" → marshal msg = Some data → order ≡ₚ elements (default ∅ (hb_subscribers h !! m_Event msg)) →
  (∀ c cl, c ∈ order → hb_clients h !! c = Some cl → Z.of_nat (length (cl_send cl)) < sendBuffer) →
  ∃ m, run marshal (TakeBroadcast :: (Deliver <$> order) ++ [FinishBroadcast]) h = Some (with_clients m (with_queue rest h))
  ∧ ∀ c cl, hb_clients h !! c = Some cl →
      (c ∈ order → m !! c = Some (set_send (cl_send cl ++ [data]) cl)) ∧ (c ∉ order → m !! c = Some cl).
Proof.
  intros Hr%reachable_ok Hi Hb He Hm Ho Hroom.
  assert (NoDup order) as Hnd by (rewrite Ho; apply NoDup_elements).
  assert (list_to_set order = default ∅ (hb_subscribers h !! m_Event msg)) as Es.
  { apply set_eq. intros c. rewrite elem_of_list_to_set, Ho. apply elem_of_elements. }
  assert (∃ att, broadcastMessage marshal msg (with_queue rest h)
    = with_loop (Delivering (m_Event msg) att data (list_to_set order)) (with_queue rest h)) as (att & Eb).
  { unfold broadcastMessage. rewrite bool_decide_false, Hm by done. rewrite Es.
    cbn [with_queue hb_subscribers]. destruct (hb_subscribers h !! m_Event msg); by eexists. }
  destruct (deliver_room marshal (m_Event msg) att data order (with_loop (Delivering (m_Event msg) att data (list_to_set order)) (with_queue rest h)))
    as (m & Em & Hl).
  - done.
  - apply Forall_forall. intros c Hc. destruct (entry_connected h Hr (m_Event msg) c) as (cl & Hcl & _).
    { apply elem_of_elements. by rewrite <- Ho. }
    exists cl. split; [done|]. by apply (Hroom c).
  - done.
  - exists m. split.
    + cbn [run]. unfold_step. rewrite Hi, Hb, Eb. rewrite Em. unfold with_loop, with_clients, with_queue. cbn. by rewrite Hi.
    + intros c cl Hcl. rewrite Hl. cbn [with_loop with_queue hb_clients]. rewrite Hcl.
      split; intros Hc; [by rewrite bool_decide_true|by rewrite bool_decide_false].
Qed.

Lemma broadcast_delivers_witness :
  ∃ m, run marshal_data [TakeBroadcast; Deliver 0; FinishBroadcast] subscribed_hub = Some (with_clients m (with_queue [] subscribed_hub)).
Proof.
  destruct (broadcast_delivers marshal_data subscribed_hub (mkMessage "" "newHeads" "block" None) [] "block" [0] subscribed_hub_reachable)
    as (m & E & _); try reflexivity.
  - done.
  - intros c cl _ E'. revert E'. unfold subscribed_hub in *.
    assert (Hall : map_Forall (λ _ cl, Z.of_nat (length (cl_send cl)) < sendBuffer) (hb_clients subscribed_hub)).
    { apply (bool_decide_unpack _). vm_compute. exact I. }
    apply Hall.
  - by exists m.
Defined.

(** C35: One subscriber that does not fetch its messages ends the service for
    all. Let the hub take a message of an event while a client in the event's
    entry has a full buffer. Then, first, whatever the other goroutines do, and
    whatever the client does short of fetching messages and completing a change
    of its subscriptions, no connection is registered, no connection is
    released and no further message is taken. Second, once the hub's loop gets
    to a client whose buffer is full, which makes it send to a channel that
    only the hub reads, this is so for ever, whatever happens, and no
    message is delivered any more. *)
Theorem slow_subscriber_blocks_hub (marshal : Message → option string) h msg rest data c cl h0 :
  rtc (hub_step marshal) NewHub h → hb_loop h = Idle → hb_broadcast h = msg :: rest →
  m_Event msg ≠ "" → marshal msg = Some data → c ∈ default ∅ (hb_subscribers h !! m_Event msg) →
  hb_clients h !! c = Some cl → sendBuffer <= Z.of_nat (length (cl_send cl)) →
  step marshal TakeBroadcast h = Next h0 →
  let unserved h1 h2 := hb_slots h1 <= hb_slots h2
    ∧ ∀ c', step marshal (TakeRegister c') h2 = Blocked ∧ step marshal (TakeUnregister c') h2 = Blocked
            ∧ step marshal TakeBroadcast h2 = Blocked in
  (∀ l h2, forallb (inactive c) l = true → run marshal l h0 = Some h2 → unserved h0 h2) ∧
  (∀ hd h1 h2 c1 cl1, rtc (hub_step marshal) h0 hd →
     hb_clients hd !! c1 = Some cl1 → sendBuffer <= Z.of_nat (length (cl_send cl1)) →
     step marshal (Deliver c1) hd = Next h1 → rtc (hub_step marshal) h1 h2 →
     unserved h1 h2 ∧ (∀ c', step marshal (Deliver c') h2 = Blocked) ∧ step marshal FinishBroadcast h2 = Blocked).
Proof.
  intros Hr Hi Hb He Hm Hc Hcl Hfull E unserved. pose proof (reachable_ok marshal h Hr) as Hok. split.
  - intros l h2 Hl Hrun. assert (waits_for c h0) as Hw.
    { unfold_step in E. rewrite Hi, Hb in E. injection E as <-. unfold broadcastMessage. rewrite bool_decide_false, Hm by done.
      cbn [with_queue hb_subscribers]. destruct (hb_subscribers h !! m_Event msg); [exact Hc|by apply not_elem_of_empty in Hc]. }
    assert (full c h0) as Hf.
    { exists cl. split; [|done]. unfold_step in E. rewrite Hi, Hb in E. injection E as <-. unfold broadcastMessage.
      rewrite bool_decide_false, Hm by done. by case_match. }
    destruct (waits_run marshal c l h0 h2) as [Hw2 Hs]; [by eapply step_ok|done..|].
    split; [done|]. intros c'. unfold waits_for in Hw2. unfold_step. by destruct (hb_loop h2).
  - intros hd h1 h2 c1 cl1 Hd Hc1 Hf1 E1 Hr2. assert (hb_loop h1 = Stuck) as Hst.
    { unfold_step in E1. destruct (hb_loop hd); try done. case_bool_decide; [|done]. injection E1 as <-. unfold deliver. rewrite Hc1.
      by rewrite (proj2 (Z.ltb_ge _ _) Hf1). }
    destruct (stuck_forever marshal h1 h2 Hst Hr2) as [Hs Hle]. unfold unserved. unfold_step. by rewrite Hs.
Qed.

(** The hub with the full buffer after the next message, blocked, and after the
    client has closed its connection and another one has come. *)
Definition taken_hub : Hub := default NewHub (run marshal_data [TakeBroadcast] slow_hub).
Definition blocked_hub : Hub := default NewHub (run marshal_data [Deliver 0] taken_hub).
Definition blocked_hub_later : Hub := default NewHub (run marshal_data [WriteOut 0 256; Disconnect 0; Connect true] blocked_hub).

Lemma slow_subscriber_blocks_hub_witness :
  hb_slots blocked_hub_later = 2 ∧ step marshal_data (TakeRegister 1) blocked_hub_later = Blocked.
Proof.
  split; [vm_compute; reflexivity|].
  destruct (slow_subscriber_blocks_hub marshal_data slow_hub (mkMessage "" "newHeads" "block" None) [] "block" 0
    (default (mkClient [] None Gone false) (hb_clients slow_hub !! 0)) taken_hub slow_hub_reachable) as [_ Hall].
  - vm_compute; reflexivity.
  - vm_compute; reflexivity.
  - done.
  - done.
  - apply (bool_decide_unpack _). vm_compute. exact I.
  - vm_compute; reflexivity.
  - vm_compute. discriminate.
  - vm_compute; reflexivity.
  - refine (proj1 (proj2 (proj1 (Hall taken_hub blocked_hub blocked_hub_later 0
      (default (mkClient [] None Gone false) (hb_clients taken_hub !! 0)) _ _ _ _ _)) 1)).
    + apply rtc_refl.
    + vm_compute; reflexivity.
    + vm_compute. discriminate.
    + vm_compute; reflexivity.
    + apply (run_reachable _ [WriteOut 0 256; Disconnect 0; Connect true]); vm_compute; reflexivity.
Defined.

(** In a reachable state a message whose handling the runtime does not
    interrupt ends the program exactly if it subscribes between the hand-over
    of the connection and the making of its table. *)
Theorem early_subscription_crashes (marshal : Message → option string) h c msg :
  rtc (hub_step marshal) NewHub h → (∃ cl, hb_clients h !! c = Some cl ∧ cl_phase cl = Reading) →
  step marshal (Receive c msg false) h = Crash ↔ hb_loop h = Registering c ∧ ∃ m, msg = Some m ∧ m_Type m = "subscribe".
Proof.
  intros Hr%reachable_ok (cl & Hc & Hp). unfold_step. unfold running. rewrite Hc, decide_True by done.
  destruct msg as [msg|]; [|split; [done|naive_solver]]. unfold handleMessage.
  case_bool_decide as Hs; [|case_bool_decide; (split; [done|naive_solver])]. unfold Subscribe. rewrite Hc.
  pose proof (ho_taken _ Hr c cl Hc) as Ht.
  destruct (Z.leb_spec MaxSubscriptions (Z.of_nat (size (default ∅ (cl_subs cl))))) as [Hle|_].
  - split; [done|]. intros [E _]. rewrite E in Ht. destruct (Ht eq_refl) as [E2 _]. by rewrite E2 in Hle.
  - destruct (cl_subs cl) as [s|] eqn:Es; (split; [|intros [E _]]).
    + by rewrite andb_false_r.
    + rewrite E in Ht. destruct (Ht eq_refl) as [E2 _]. congruence.
    + intros _. split; [|by eauto]. destruct (ho_nil _ Hr c cl Hc Es) as [?|?]; [congruence|done].
    + done.
Qed.

(** The sequences of steps in which it happens, and in which the hub ranges over
    the entry of an event without a lock: when a second client subscribes to
    the event meanwhile and the runtime notices the write, the program ends. *)
Definition early_hub : Hub := run_or_new [Connect true; TakeRegister 0].
Definition raced_hub : Hub :=
  run_or_new (newHeads_subscription ++ registration 1 ++ take 1 (subscription 1) ++ [BroadcastNewHead "block"; TakeBroadcast]).

Theorem crash_reachable :
  rtc (hub_step marshal_data) NewHub early_hub
  ∧ step marshal_data (Receive 0 (Some (mkMessage "subscribe" "newHeads" "" None)) false) early_hub = Crash.
Proof. split; [apply (run_reachable _ [Connect true; TakeRegister 0])|]; vm_compute; reflexivity. Qed.

Theorem range_race_crashes :
  rtc (hub_step marshal_data) NewHub raced_hub ∧ step marshal_data (UpdateTable 1 true false) raced_hub = Crash.
Proof.
  split; [|vm_compute; reflexivity].
  apply (run_reachable _ (newHeads_subscription ++ registration 1 ++ take 1 (subscription 1) ++ [BroadcastNewHead "block"; TakeBroadcast])).
  vm_compute. reflexivity.
Qed.

(** A log passes a filter of topics only if it has all of them. *)
Theorem log_filter_all_topics f contract topics :
  LogFilter_Matches f contract topics = true
  ↔ (lf_Contract f = "" ∨ lf_Contract f = contract) ∧ ∀ ft, ft ∈ lf_Topics f → ft ∈ topics.
Proof.
  unfold LogFilter_Matches. rewrite andb_true_iff, orb_true_iff, !bool_decide_eq_true, forallb_forall.
  apply and_iff_compat_l. split; intros H ft Hft.
  - apply list_elem_of_In in Hft. apply H, existsb_exists in Hft as (t & Ht & E%bool_decide_eq_true). subst. by apply list_elem_of_In.
  - apply existsb_exists. exists ft. split; [|by apply bool_decide_eq_true]. by apply list_elem_of_In, H, list_elem_of_In.
Qed.
