(* ===== verification/Harness.v ===== *)
(** * The BFT test harness (consensus/bft_harness.go)

    A simulation of rounds without a network: validators with fixed roles, one
    [VotingState] for each block of a height. The failures of [require], which
    end the test, are errors; [keys] are the generated keys, [t] and [header]
    the times that [BuildBlock] reads, and [visit] is the order in which a map
    of voting states is visited. *)

From S2P Require Import Prelude Codec Sha256 Address Amount Tx Votes Block Smt Store Keys State.
From S2P Require Import Validator Registry Applier Staking ValidatorSet Economics Epoch Voting System BlockExec.
From S2P Require Import Node Client.

(** ** Data *)

Inductive ByzantineType := Honest | ByzProposer | ByzVoter | ByzPartitioned.

#[global] Instance ByzantineType_eq_dec : EqDecision ByzantineType.
Proof. solve_decision. Defined.

Record SimValidator := mkSimValidator {
  sv_KeyPair : KeyPair;
  sv_ConsensusID : Address;
  sv_Byzantine : ByzantineType;
  sv_HasVoted : bool;
  sv_VotedBlock : Hash;
}.

Record BFTConfig := mkBFTConfig {
  bft_NumValidators : Z;
  bft_ByzantineIdx : Z;
  bft_ByzantineType : ByzantineType;
}.

Record BFTTestHarness := mkHarness {
  th_Validators : list SimValidator;
  th_State : InMemoryState;
  th_Snapshots : gmap Z ValidatorSnapshot;
  th_Height : Z;
  th_Blocks : gmap Z (list Block);
  th_Commits : gmap Z Block;
}.

Definition with_validators (vals : list SimValidator) (h : BFTTestHarness) : BFTTestHarness :=
  mkHarness vals (th_State h) (th_Snapshots h) (th_Height h) (th_Blocks h) (th_Commits h).
Definition with_state (s : InMemoryState) (h : BFTTestHarness) : BFTTestHarness :=
  mkHarness (th_Validators h) s (th_Snapshots h) (th_Height h) (th_Blocks h) (th_Commits h).
Definition with_height (height : Z) (h : BFTTestHarness) : BFTTestHarness :=
  mkHarness (th_Validators h) (th_State h) (th_Snapshots h) height (th_Blocks h) (th_Commits h).
Definition with_blocks (blocks : gmap Z (list Block)) (h : BFTTestHarness) : BFTTestHarness :=
  mkHarness (th_Validators h) (th_State h) (th_Snapshots h) (th_Height h) blocks (th_Commits h).
Definition with_commits (commits : gmap Z Block) (h : BFTTestHarness) : BFTTestHarness :=
  mkHarness (th_Validators h) (th_State h) (th_Snapshots h) (th_Height h) (th_Blocks h) commits.

Definition require (c : bool) (msg : string) : res unit := if c then Ok tt else Err (Errorf msg).

(** [block.HeaderHash(h.Hasher)], the error dropped. *)
Definition hash_of (block : Block) : Hash := hash_or_zero (HeaderHash (H := SHA256Hasher) (b_Header block)).

(** ** Setting up *)

Definition sim_validator (config : BFTConfig) (i : nat) (kp : KeyPair) : SimValidator :=
  let byzType := if (Z.of_nat i =? bft_ByzantineIdx config) && (0 <=? bft_ByzantineIdx config)
                 then bft_ByzantineType config else Honest in
  mkSimValidator kp (DeriveConsensusID (kp_PublicKey kp)) byzType false ZeroHash.

(** The error of the operation on the balance is dropped. *)
Definition ignoring (f : Account → res Account) (acc : Account) : Account :=
  match f acc with Ok acc' => acc' | _ => acc end.

(** The account with twice the stake, the registration, and the stake taken
    off again. *)
Definition setup_validator (stake : Z) (kp : KeyPair) : go InMemoryState unit :=
  let addr := KeyPair_Address kp in
  SetAccount addr (Fresh (ignoring (AddBalance (NewAmount (u64 (stake * 2)))) (NewAccount addr (kp_PublicKey kp))));;
  RegisterValidator (kp_PublicKey kp) addr (NewAmount stake) 0 0;;
  acc ← GetAccount addr;
  acc ← mutate acc (λ a, Ok (ignoring (SubBalance (NewAmount stake)) a));
  SetAccount addr acc.

Definition NewBFTTestHarness (keys : list KeyPair) (config : BFTConfig) : res BFTTestHarness :=
  require (0 <? bft_NumValidators config) "NewBFTTestHarness: must have at least 1 validator";;
  require (-1 <=? bft_ByzantineIdx config) "ByzantineIdx must be >= -1";;
  let validators := imap (sim_validator config) keys in
  let '(s, r) := for_each keys (setup_validator 100000) NewInMemoryState in
  r;;
  let '(s, r) := ProcessEpochTransition 100 s in
  r;;
  let '(s, r) := CreateSnapshot 1 s in
  snap ← r;
  Ok (mkHarness validators s {[1 := snap]} 0 ∅ ∅).

(** ** Voting *)

Section round.
Context `{Ed25519} (visit : gmap Hash VotingState → list Hash).

Definition sim_vote (voteType height : Z) (hash : Hash) (v : SimValidator) : res Vote :=
  Vote_Sign (kp_PrivateKey (sv_KeyPair v))
    {| v_VoteType := voteType; v_Height := height; v_Round := 0; v_BlockHash := hash;
       v_Validator := sv_ConsensusID v; v_Signature := [] |}.

Definition new_voting_states (height : Z) (blocks : list Block) (snap : ValidatorSnapshot) : gmap Hash VotingState :=
  fold_left (λ m b, <[hash_of b := NewVotingState height 0 (hash_of b) snap]> m) blocks ∅.

(** [AddPrevote] on the voting state of the hash, if there is one: the map, and
    whether the vote was added. *)
Definition add_prevote (hash : Hash) (vote : Vote) (m : gmap Hash VotingState) : res (gmap Hash VotingState * bool) :=
  match m !! hash with
  | None => Ok (m, false)
  | Some vs => match AddPrevote vote vs with
               | (vs, Ok _) => Ok (<[hash := vs]> m, true)
               | (vs, Err _) => Ok (<[hash := vs]> m, false)
               | (_, Panic) => Panic
               end
  end.

Definition set_voted (hash : Hash) (v : SimValidator) : SimValidator :=
  mkSimValidator (sv_KeyPair v) (sv_ConsensusID v) (sv_Byzantine v) true hash.

(** One turn of the first loop. Byzantine and honest voters alike vote for the
    first block; the Byzantine voter votes for the second too. *)
Definition cast_prevotes (height : Z) (blocks : list Block) (v : SimValidator) (m : gmap Hash VotingState)
  : res (SimValidator * gmap Hash VotingState) :=
  if bool_decide (sv_Byzantine v = ByzPartitioned) then Ok (v, m) else
  let voteHash := match blocks with b :: _ => hash_of b | [] => ZeroHash end in
  prevote ← sim_vote VotePrevote height voteHash v;
  r ← add_prevote voteHash prevote m;
  let '(m, added) := r in
  let v := if added : bool then set_voted voteHash v else v in
  match blocks with
  | _ :: b2 :: _ =>
      if bool_decide (sv_Byzantine v = ByzVoter) && negb (bool_decide (hash_of b2 = voteHash)) then
        prevote2 ← sim_vote VotePrevote height (hash_of b2) v;
        r ← add_prevote (hash_of b2) prevote2 m;
        Ok (v, r.1)
      else Ok (v, m)
  | _ => Ok (v, m)
  end.

Fixpoint prevote_phase (height : Z) (blocks : list Block) (l : list SimValidator) (m : gmap Hash VotingState)
  : res (list SimValidator * gmap Hash VotingState) :=
  match l with
  | [] => Ok ([], m)
  | v :: l =>
      r ← cast_prevotes height blocks v m;
      rest ← prevote_phase height blocks l r.2;
      Ok (r.1 :: rest.1, rest.2)
  end.

Definition with_majority (m : gmap Hash VotingState) : list Hash :=
  filter (λ hash, match m !! hash with Some vs => HasPrevoteMajority vs | None => false end = true) (visit m).

(** The block that is committed for a hash: the first that has it. *)
Definition commit_block (height : Z) (blocks : list Block) (hash : Hash) (commits : gmap Z Block) : gmap Z Block :=
  match find (λ b, bool_decide (hash_of b = hash)) blocks with
  | Some b => <[height := b]> commits
  | None => commits
  end.

(** One turn of the inner loop of the last phase; the error of [AddPrecommit]
    is dropped. *)
Definition cast_precommit (height : Z) (blocks : list Block) (v : SimValidator) (hash : Hash)
    (acc : gmap Hash VotingState * gmap Z Block) : res (gmap Hash VotingState * gmap Z Block) :=
  let '(m, commits) := acc in
  match m !! hash with
  | None => Panic
  | Some vs =>
      precommit ← sim_vote VotePrecommit height hash v;
      match AddPrecommit precommit vs with
      | (_, Panic) => Panic
      | (vs, _) => Ok (<[hash := vs]> m, if HasPrecommitMajority vs then commit_block height blocks hash commits else commits)
      end
  end.

Fixpoint each_hash (height : Z) (blocks : list Block) (v : SimValidator) (hashes : list Hash)
    (acc : gmap Hash VotingState * gmap Z Block) : res (gmap Hash VotingState * gmap Z Block) :=
  match hashes with
  | [] => Ok acc
  | hash :: hashes => acc ← cast_precommit height blocks v hash acc; each_hash height blocks v hashes acc
  end.

Fixpoint precommit_phase (height : Z) (blocks : list Block) (hashes : list Hash) (l : list SimValidator)
    (acc : gmap Hash VotingState * gmap Z Block) : res (gmap Hash VotingState * gmap Z Block) :=
  match l with
  | [] => Ok acc
  | v :: l =>
      if bool_decide (sv_Byzantine v = ByzPartitioned) then precommit_phase height blocks hashes l acc else
      acc ← each_hash height blocks v hashes acc; precommit_phase height blocks hashes l acc
  end.

Definition simulateVoting (height : Z) (blocks : list Block) (snap : ValidatorSnapshot) (h : BFTTestHarness) : res BFTTestHarness :=
  voted ← prevote_phase height blocks (th_Validators h) (new_voting_states height blocks snap);
  let '(vals, m) := voted in
  r ← precommit_phase height blocks (with_majority m) vals (m, th_Commits h);
  Ok (with_commits r.2 (with_validators vals h)).

(** ** Rounds *)

Definition buildBlock (t header : Z) (proposer : SimValidator) (height : Z) (prevHash : Hash) (h : BFTTestHarness)
  : res (Block * BFTTestHarness) :=
  let '(s, r) := BuildBlock (H := SHA256Hasher) None (λ _, t) t header [] height prevHash (sv_ConsensusID proposer)
                   (SignHash (sv_KeyPair proposer)) 100 [] (th_State h) in
  block ← r;
  Ok (block, with_state s h).

Definition getTipHash (h : BFTTestHarness) : Hash :=
  if th_Height h =? 0 then ZeroHash else
  match th_Commits h !! th_Height h with None => ZeroHash | Some b => hash_of b end.

(** The index of the proposer stays 0 if no validator has the identity. *)
Definition find_proposer (proposerAddr : Address) (vals : list SimValidator) : option SimValidator :=
  match find (λ v, bool_decide (sv_ConsensusID v = proposerAddr)) vals with
  | Some v => Some v
  | None => head vals
  end.

(** [t1], [header1] are the times of the first block built, [t2], [header2] of
    the second. *)
Definition RunRound (t1 header1 t2 header2 : Z) (h : BFTTestHarness) : res BFTTestHarness :=
  let '(s, r) := GetActiveValidators (th_State h) in
  activeVals ← r;
  let h := with_state s h in
  require (negb (bool_decide (activeVals = []))) "RunRound: no active validators";;
  let height := u64 (th_Height h + 1) in
  proposerAddr ← WeightedProposerAtHeight height activeVals;
  match find_proposer proposerAddr (th_Validators h) with
  | None => Panic
  | Some proposer =>
      built ←
        (if bool_decide (sv_Byzantine proposer = ByzProposer) then
           b1 ← buildBlock t1 header1 proposer height ZeroHash h;
           b2 ← buildBlock t2 header2 proposer height (h_PreviousHash (b_Header b1.1)) b1.2;
           Ok ([b1.1; b2.1], b2.2)
         else
           b ← buildBlock t1 header1 proposer height (getTipHash h) h;
           Ok ([b.1], b.2));
      let '(blocks, h) := built in
      let h := with_blocks (<[height := blocks]> (th_Blocks h)) h in
      match th_Snapshots h !! 1 with
      | None => Err (Errorf "RunRound: snapshot is nil")
      | Some snap => h ← simulateVoting height blocks snap h; Ok (with_height height h)
      end
  end.
End round.

(** ** Checks *)

Definition GetCommittedBlock (height : Z) (h : BFTTestHarness) : option Block := th_Commits h !! height.

(** The loop body for one committed block. *)
Definition safe_at (h : BFTTestHarness) (height : Z) (block : Block) : bool :=
  let blocksAtHeight := default [] (th_Blocks h !! height) in
  if (1 <? length blocksAtHeight)%nat then
    forallb (λ otherBlock,
      if bool_decide (hash_of otherBlock = hash_of block) then true else
      match th_Commits h !! height with
      | None => true
      | Some committed => bool_decide (hash_of committed = hash_of block)
      end) blocksAtHeight
  else true.

(** In whatever order the map is visited: the result is a conjunction. *)
Definition VerifySafety (h : BFTTestHarness) : bool :=
  forallb (λ p, safe_at h p.1 p.2) (map_to_list (th_Commits h)).

Definition VerifyLiveness (h : BFTTestHarness) : bool :=
  (0 <? th_Height h) && bool_decide (is_Some (th_Commits h !! th_Height h)).

(** ** Specification *)

Definition ids (l : list SimValidator) : gset Address := list_to_set (sv_ConsensusID <$> l).

Definition voters (l : list SimValidator) : list SimValidator := filter (λ v, sv_Byzantine v ≠ ByzPartitioned) l.
Definition double_voters (l : list SimValidator) : list SimValidator := filter (λ v, sv_Byzantine v = ByzVoter) l.

Section spec.
Context `{Ed25519}.

(** The validator is in the snapshot with the public key of its private key. *)
Definition can_vote (snap : ValidatorSnapshot) (v : SimValidator) : Prop :=
  ∃ val, ValidatorByID snap (sv_ConsensusID v) = Ok val
  ∧ ∀ msg, ed25519_Verify (val_PublicKey val) msg (ed25519_Sign (kp_PrivateKey (sv_KeyPair v)) msg) = true.

(** What a voting state has collected. *)
Record tallied (height : Z) (snap : ValidatorSnapshot) (hash : Hash) (A B : gset Address) (vs : VotingState) : Prop := {
  ta_ok : voting_ok height 0 hash snap vs;
  ta_prevotes : dom (vs_prevotes vs) = A;
  ta_precommits : dom (vs_precommits vs) = B;
}.

(** ** Lemmas *)

Lemma vote_collected height snap hash A B vs voteType v vote :
  tallied height snap hash A B vs → can_vote snap v → sim_vote voteType height hash v = Ok vote →
  collected vs vote ∧ v_Validator vote = sv_ConsensusID v.
Proof.
  intros [Hok _ _] (val & Hval & Hsig) E. unfold sim_vote, Vote_Sign in E. cbn [VoteHash hash_data SHA256Hasher mbind res_bind] in E.
  injection E as <-. split; [|reflexivity]. split_and!; cbn [v_Height v_Round v_BlockHash].
  - by rewrite (vok_height _ _ _ _ _ Hok).
  - by rewrite (vok_round _ _ _ _ _ Hok).
  - by rewrite (vok_hash _ _ _ _ _ Hok).
  - exists val. cbn [v_Validator]. rewrite (vok_snap _ _ _ _ _ Hok). split; [exact Hval|]. apply Hsig.
Qed.

Lemma prevote_counts height snap hash A B vs v vote :
  snapshot_ok snap → tallied height snap hash A B vs → can_vote snap v → sv_ConsensusID v ∉ A →
  sim_vote VotePrevote height hash v = Ok vote →
  ∃ vs', AddPrevote vote vs = (vs', Ok tt) ∧ tallied height snap hash ({[sv_ConsensusID v]} ∪ A) B vs'.
Proof.
  intros Hs Ht Hv Hnot E. destruct (vote_collected _ _ _ _ _ _ _ _ _ Ht Hv E) as [Hc Ev]. destruct Ht as [Hok HA HB].
  pose proof (voting_ok_step height 0 hash snap vs (CastPrevote vote) Hs Hok) as Hok'. cbn [run_vote] in Hok'.
  pose proof (addVote_ok vs vote (vs_prevotePower vs) (vs_prevotes vs)) as Ha.
  rewrite (vok_snap _ _ _ _ _ Hok) in Ha. specialize (Ha Hs (vok_prevotes _ _ _ _ _ Hok)).
  unfold AddPrevote in *. destruct (addVote vs vote _ _) as [[p m]|e|]; [| |done].
  - destruct Ha as (_ & -> & _). eexists. split; [reflexivity|]. split; [exact Hok'| |exact HB].
    cbn [set_prevotes vs_prevotes]. by rewrite dom_insert_L, Ev, HA.
  - destruct Ha. split; [exact Hc|]. rewrite Ev. apply not_elem_of_dom. by rewrite HA.
Qed.

Lemma precommit_counts height snap hash A B vs v vote :
  snapshot_ok snap → tallied height snap hash A B vs → can_vote snap v → sv_ConsensusID v ∉ B →
  sim_vote VotePrecommit height hash v = Ok vote →
  ∃ vs', AddPrecommit vote vs = (vs', Ok tt) ∧ tallied height snap hash A ({[sv_ConsensusID v]} ∪ B) vs'.
Proof.
  intros Hs Ht Hv Hnot E. destruct (vote_collected _ _ _ _ _ _ _ _ _ Ht Hv E) as [Hc Ev]. destruct Ht as [Hok HA HB].
  pose proof (voting_ok_step height 0 hash snap vs (CastPrecommit vote) Hs Hok) as Hok'. cbn [run_vote] in Hok'.
  pose proof (addVote_ok vs vote (vs_precommitPower vs) (vs_precommits vs)) as Ha.
  rewrite (vok_snap _ _ _ _ _ Hok) in Ha. specialize (Ha Hs (vok_precommits _ _ _ _ _ Hok)).
  unfold AddPrecommit in *. destruct (addVote vs vote _ _) as [[p m]|e|]; [| |done].
  - destruct Ha as (_ & -> & _). eexists. split; [reflexivity|]. split; [exact Hok'|exact HA|].
    cbn [set_precommits vs_precommits]. by rewrite dom_insert_L, Ev, HB.
  - destruct Ha. split; [exact Hc|]. rewrite Ev. apply not_elem_of_dom. by rewrite HB.
Qed.

(** The two thirds, in exact arithmetic. *)
Definition two_thirds (snap : ValidatorSnapshot) (X : gset Address) : Prop :=
  2 * snap_TotalPower snap <= 3 * weight X (snap_Validators snap).

#[global] Instance two_thirds_dec snap X : Decision (two_thirds snap X).
Proof. unfold two_thirds. apply _. Defined.

Lemma majority_iff snap power X :
  snapshot_ok snap → 0 < snap_TotalPower snap → power = weight X (snap_Validators snap) →
  (if snap_TotalPower snap =? 0 then false
   else u64 (snap_TotalPower snap * VotingThresholdNumerator) <=? u64 (power * VotingThresholdDenominator))
  = bool_decide (two_thirds snap X).
Proof.
  intros [Hp Hnd Ht Hr] Hpos ->. pose proof (weight_bounds _ X Hp). unfold VotingThresholdNumerator, VotingThresholdDenominator, two_thirds.
  rewrite (proj2 (Z.eqb_neq _ 0)) by lia. rewrite !u64_small by (unfold is_u64; lia).
  apply Bool.eq_iff_eq_true. rewrite bool_decide_eq_true, Z.leb_le. lia.
Qed.

Lemma prevote_majority height snap hash A B vs :
  snapshot_ok snap → 0 < snap_TotalPower snap → tallied height snap hash A B vs →
  HasPrevoteMajority vs = bool_decide (two_thirds snap A).
Proof.
  intros Hs Hpos [Hok HA _]. unfold HasPrevoteMajority. rewrite (vok_snap _ _ _ _ _ Hok). apply majority_iff; [done..|].
  rewrite (tally_power _ _ _ (vok_prevotes _ _ _ _ _ Hok)), HA. by rewrite (vok_snap _ _ _ _ _ Hok).
Qed.

Lemma precommit_majority height snap hash A B vs :
  snapshot_ok snap → 0 < snap_TotalPower snap → tallied height snap hash A B vs →
  HasPrecommitMajority vs = bool_decide (two_thirds snap B).
Proof.
  intros Hs Hpos [Hok _ HB]. unfold HasPrecommitMajority. rewrite (vok_snap _ _ _ _ _ Hok). apply majority_iff; [done..|].
  rewrite (tally_power _ _ _ (vok_precommits _ _ _ _ _ Hok)), HB. by rewrite (vok_snap _ _ _ _ _ Hok).
Qed.

Lemma two_thirds_more snap id X :
  snapshot_ok snap → id ∉ X → two_thirds snap X → two_thirds snap ({[id]} ∪ X).
Proof.
  intros Hs Hid. unfold two_thirds. pose proof (weight_union (snap_Validators snap) {[id]} X) as Hu.
  assert ({[id]} ∩ X = ∅) as E by set_solver. rewrite E, weight_empty in Hu.
  pose proof (weight_bounds _ {[id]} (sok_powers _ Hs)). lia.
Qed.

(** *** The prevotes *)

Section prevotes.
Context (height : Z) (snap : ValidatorSnapshot) (b0 : Block) (rest : list Block).
Context (Hsnap : snapshot_ok snap).

Definition expected (A D : gset Address) (hash : Hash) : gset Address :=
  if decide (hash = hash_of b0) then A
  else match rest with b2 :: _ => if decide (hash = hash_of b2) then D else ∅ | [] => ∅ end.

(** Every block has its voting state: the first with the votes of [A], another
    second one with those of [D]. *)
Record states_ok (A D : gset Address) (m : gmap Hash VotingState) : Prop := {
  so_tallied hash vs : m !! hash = Some vs → tallied height snap hash (expected A D hash) ∅ vs;
  so_dom : dom m = list_to_set (hash_of <$> b0 :: rest);
}.

Lemma new_states_ok : states_ok ∅ ∅ (new_voting_states height (b0 :: rest) snap).
Proof.
  assert (Hall : ∀ (blocks : list Block) (m : gmap Hash VotingState),
    (∀ hash vs, m !! hash = Some vs → vs = NewVotingState height 0 hash snap) →
    let m' : gmap Hash VotingState := fold_left (λ m b, <[hash_of b := NewVotingState height 0 (hash_of b) snap]> m) blocks m in
    (∀ hash vs, m' !! hash = Some vs → vs = NewVotingState height 0 hash snap)
    ∧ dom m' = (list_to_set (hash_of <$> blocks) ∪ dom m : gset Hash)).
  { induction blocks as [|b blocks IH]; intros m Hm; cbn [fold_left]; [split; [done|set_solver]|].
    destruct (IH (<[hash_of b := NewVotingState height 0 (hash_of b) snap]> m)) as [H1 H2].
    - intros hash vs [[<- <-]|[_ E]]%lookup_insert_Some; [done|by apply Hm].
    - split; [exact H1|]. rewrite H2, dom_insert_L, fmap_cons, list_to_set_cons. set_solver. }
  destruct (Hall (b0 :: rest) ∅) as [H1 H2]; [done|]. split.
  - intros hash vs E. rewrite (H1 hash vs E). replace (expected ∅ ∅ hash) with (∅ : gset Address).
    + split; [apply voting_ok_new|done|done].
    + unfold expected. repeat case_match; done.
  - unfold new_voting_states. rewrite H2, dom_empty_L. set_solver.
Qed.

Lemma add_prevote_ok A D A' D' m hash v vote :
  states_ok A D m → is_Some (m !! hash) → can_vote snap v → sv_ConsensusID v ∉ expected A D hash →
  sim_vote VotePrevote height hash v = Ok vote →
  expected A' D' hash = {[sv_ConsensusID v]} ∪ expected A D hash →
  (∀ hash', hash' ≠ hash → expected A' D' hash' = expected A D hash') →
  ∃ m', add_prevote hash vote m = Ok (m', true) ∧ states_ok A' D' m'.
Proof.
  intros [Hm Hd] [vs Hvs] Hv Hnot E E1 E2.
  destruct (prevote_counts _ _ _ _ _ _ _ _ Hsnap (Hm _ _ Hvs) Hv Hnot E) as (vs' & Ha & Ht).
  unfold add_prevote. rewrite Hvs, Ha. eexists. split; [reflexivity|]. split.
  - intros hash' vs1 [[<- <-]|[Hne E']]%lookup_insert_Some; [by rewrite E1|]. rewrite E2 by done. by apply Hm.
  - rewrite dom_insert_L, Hd. assert (hash ∈ dom m) as Hin by (by apply elem_of_dom). rewrite Hd in Hin. set_solver.
Qed.

(** What the roles of a list add. *)
Definition same_role (v v' : SimValidator) : Prop :=
  sv_KeyPair v' = sv_KeyPair v ∧ sv_ConsensusID v' = sv_ConsensusID v ∧ sv_Byzantine v' = sv_Byzantine v.

Lemma in_dom (hash : Hash) A D m : states_ok A D m → hash ∈ hash_of <$> b0 :: rest → is_Some (m !! hash).
Proof. intros [_ Hd] Hin. apply elem_of_dom. rewrite Hd. by apply elem_of_list_to_set. Qed.

Lemma sim_vote_ok t hash v : ∃ vote, sim_vote t height hash v = Ok vote.
Proof. by eexists. Qed.

Lemma cast_prevotes_ok A D m v :
  states_ok A D m → sv_Byzantine v ≠ ByzPartitioned → can_vote snap v → sv_ConsensusID v ∉ A → sv_ConsensusID v ∉ D →
  ∃ v' m', cast_prevotes height (b0 :: rest) v m = Ok (v', m') ∧ same_role v v'
  ∧ states_ok ({[sv_ConsensusID v]} ∪ A) (if decide (sv_Byzantine v = ByzVoter) then {[sv_ConsensusID v]} ∪ D else D) m'.
Proof.
  intros Hm Hp Hv HA HD. unfold cast_prevotes. rewrite bool_decide_false by done.
  destruct (sim_vote_ok VotePrevote (hash_of b0) v) as [vote E]. rewrite E. cbn [mbind res_bind].
  assert (E0 : ∀ D, expected A D (hash_of b0) = A) by (intros; unfold expected; by rewrite decide_True).
  destruct (add_prevote_ok A D ({[sv_ConsensusID v]} ∪ A) D m (hash_of b0) v vote Hm) as (m1 & E1 & Hm1); [|done|by rewrite E0|done| | |].
  { apply (in_dom _ A D m Hm). rewrite fmap_cons. left. }
  { unfold expected. by rewrite !decide_True. }
  { intros hash' Hne. unfold expected. by rewrite !decide_False. }
  rewrite E1. cbn [mbind res_bind]. cbv zeta. set (v1 := set_voted (hash_of b0) v).
  assert (Hmono : ∀ D', (∀ hash, expected ({[sv_ConsensusID v]} ∪ A) D' hash = expected ({[sv_ConsensusID v]} ∪ A) D hash) →
            states_ok ({[sv_ConsensusID v]} ∪ A) D' m1).
  { intros D' He. destruct Hm1 as [H1 H2]. split; [|done]. intros hash vs Ev. rewrite He. by apply H1. }
  destruct rest as [|b2 rest'] eqn:Er.
  { exists v1, m1. split; [done|]. split; [done|]. apply Hmono. intros hash. unfold expected. by rewrite Er. }
  change (sv_Byzantine v1) with (sv_Byzantine v). case_bool_decide as Hb; [|case_decide; [done|by exists v1, m1]].
  rewrite decide_True by done. case_bool_decide as H2; cbn [andb negb].
  { exists v1, m1. split; [done|]. split; [done|]. apply Hmono. intros hash. unfold expected. rewrite Er, H2. by repeat case_decide. }
  destruct (sim_vote_ok VotePrevote (hash_of b2) v1) as [vote2 Ev2]. rewrite Ev2. cbn [mbind res_bind].
  assert (Ee : ∀ A D, expected A D (hash_of b2) = D).
  { intros A' D'. unfold expected. rewrite Er, decide_False, decide_True; done. }
  destruct (add_prevote_ok ({[sv_ConsensusID v]} ∪ A) D ({[sv_ConsensusID v]} ∪ A) ({[sv_ConsensusID v]} ∪ D) m1 (hash_of b2) v1 vote2 Hm1)
    as (m2 & E2 & Hm2); [|done|by rewrite Ee|exact Ev2|by rewrite !Ee| |].
  { apply (in_dom _ _ _ _ Hm1). rewrite Er, !fmap_cons. right. left. }
  { intros hash' Hne. unfold expected. rewrite Er. case_decide; [done|]. by rewrite !decide_False. }
  rewrite E2. by exists v1, m2.
Qed.

Lemma ids_cons v l : ids (v :: l) = {[sv_ConsensusID v]} ∪ ids l.
Proof. unfold ids. by rewrite fmap_cons, list_to_set_cons. Qed.

Lemma prevote_phase_ok l A D m :
  states_ok A D m → NoDup (sv_ConsensusID <$> l) → (∀ v, v ∈ l → sv_ConsensusID v ∉ A ∪ D) → Forall (can_vote snap) (voters l) →
  ∃ l' m', prevote_phase height (b0 :: rest) l m = Ok (l', m') ∧ Forall2 same_role l l'
  ∧ states_ok (ids (voters l) ∪ A) (ids (double_voters l) ∪ D) m'.
Proof.
  revert A D m. induction l as [|v l IH]; intros A D m Hm Hnd Hfresh Hv; cbn [prevote_phase].
  { exists [], m. split; [done|]. split; [constructor|]. unfold voters, double_voters, ids. cbn. by rewrite !(left_id_L ∅ (∪)). }
  rewrite fmap_cons in Hnd. apply NoDup_cons in Hnd as [Hn Hnd].
  assert (Hother : ∀ w, w ∈ l → sv_ConsensusID w ≠ sv_ConsensusID v).
  { intros w Hw E. apply Hn. rewrite <- E. by apply list_elem_of_fmap_2. }
  pose proof (Hfresh v ltac:(left)) as Hv0. unfold voters, double_voters in *.
  destruct (decide (sv_Byzantine v = ByzPartitioned)) as [Hp|Hp].
  - rewrite (filter_cons_False _ v) in Hv |- * by tauto. rewrite filter_cons_False by congruence.
    unfold cast_prevotes. rewrite bool_decide_true by done. cbn [mbind res_bind fst snd].
    destruct (IH A D m Hm Hnd) as (l' & m' & E & Hl & Hm'); [intros w Hw; apply Hfresh; by right|done|].
    rewrite E. cbn [mbind res_bind fst snd]. exists (v :: l'), m'. split; [done|]. split; [by constructor|done].
  - rewrite (filter_cons_True _ v) in Hv |- * by done. apply Forall_cons_1 in Hv as [Hv Hl].
    destruct (cast_prevotes_ok A D m v Hm Hp Hv) as (v' & m1 & E & Hr & Hm1); [set_solver..|].
    rewrite E. cbn [mbind res_bind fst snd].
    destruct (IH _ _ m1 Hm1 Hnd) as (l' & m' & E' & Hl' & Hm'); [|done|].
    { intros w Hw. pose proof (Hfresh w ltac:(by right)). pose proof (Hother w Hw). case_decide; set_solver. }
    rewrite E'. cbn [mbind res_bind fst snd]. exists (v' :: l'), m'. split; [done|]. split; [by constructor|].
    rewrite ids_cons. rewrite (filter_cons _ v). clear -Hm'. case_decide; rewrite ?ids_cons.
    + replace (_ ∪ ids _ ∪ A) with (ids (filter (λ v, sv_Byzantine v ≠ ByzPartitioned) l) ∪ ({[sv_ConsensusID v]} ∪ A)) by set_solver.
      replace (_ ∪ ids _ ∪ D) with (ids (filter (λ v, sv_Byzantine v = ByzVoter) l) ∪ ({[sv_ConsensusID v]} ∪ D)) by set_solver. done.
    + replace (_ ∪ ids _ ∪ A) with (ids (filter (λ v, sv_Byzantine v ≠ ByzPartitioned) l) ∪ ({[sv_ConsensusID v]} ∪ A)) by set_solver. done.
Qed.

(** *** The precommits *)

Lemma precommit_same blocks hashes l l' acc :
  Forall2 same_role l l' → precommit_phase height blocks hashes l' acc = precommit_phase height blocks hashes l acc.
Proof.
  intros Hl. revert acc. induction Hl as [|v v' l l' (Hk & Hi & Hb) _ IH]; intros acc; cbn [precommit_phase]; [done|].
  rewrite Hb. case_bool_decide; [apply IH|].
  assert (E : ∀ hashes acc, each_hash height blocks v' hashes acc = each_hash height blocks v hashes acc).
  { clear acc. induction hashes0 as [|hash hashes0 IHh]; intros acc; cbn [each_hash]; [done|].
    unfold cast_precommit, sim_vote. rewrite Hk, Hi. destruct acc as [m commits]. destruct (m !! hash); [|done].
    destruct (Vote_Sign _ _) as [vote|e|]; [|done|done]. cbn [mbind res_bind]. destruct (AddPrecommit _ _) as [vs [?|?|]]; try done; apply IHh. }
  rewrite E. destruct (each_hash height blocks v hashes acc) as [a|e|]; [|done|done]. cbn [mbind res_bind]. apply IH.
Qed.

Lemma precommit_none blocks l acc : precommit_phase height blocks [] l acc = Ok acc.
Proof. revert acc. induction l as [|v l IH]; intros acc; cbn [precommit_phase]; [done|]. case_bool_decide; [apply IH|]. cbn [each_hash mbind res_bind]. apply IH. Qed.

(** Precommits for the first block: once the weight is there, it is
    committed. *)
Lemma precommit_phase_ok P l A B m vs commits :
  0 < snap_TotalPower snap → m !! hash_of b0 = Some vs → tallied height snap (hash_of b0) A B vs →
  NoDup (sv_ConsensusID <$> l) → (∀ v, v ∈ l → sv_ConsensusID v ∉ B) → Forall (can_vote snap) (voters l) →
  P = ids (voters l) ∪ B →
  ∃ m', precommit_phase height (b0 :: rest) [hash_of b0] l (m, if bool_decide (two_thirds snap B) then <[height := b0]> commits else commits)
        = Ok (m', if bool_decide (two_thirds snap P) then <[height := b0]> commits else commits).
Proof.
  intros Hpos. revert B m vs. induction l as [|v l IH]; intros B m vs Hvs Ht Hnd Hfresh Hv HP; cbn [precommit_phase].
  { exists m. subst P. unfold voters, ids. cbn. by rewrite (left_id_L ∅ (∪)). }
  rewrite fmap_cons in Hnd. apply NoDup_cons in Hnd as [Hn Hnd]. unfold voters in *.
  destruct (decide (sv_Byzantine v = ByzPartitioned)) as [Hb|Hb];
    [rewrite (bool_decide_true (sv_Byzantine v = _)) by done|rewrite (bool_decide_false (sv_Byzantine v = _)) by done].
  - rewrite (filter_cons_False _ v) in Hv, HP by tauto. apply (IH B m vs); try done. intros w Hw. apply Hfresh. by right.
  - rewrite (filter_cons_True _ v) in Hv, HP by done. apply Forall_cons_1 in Hv as [Hv Hl].
    cbn [each_hash cast_precommit]. rewrite Hvs. destruct (sim_vote_ok VotePrecommit (hash_of b0) v) as [vote E]. rewrite E. cbn [mbind res_bind].
    assert (Hv0 : sv_ConsensusID v ∉ B) by (apply Hfresh; left).
    destruct (precommit_counts _ _ _ _ _ _ _ _ Hsnap Ht Hv Hv0 E) as (vs' & Ha & Ht'). rewrite Ha.
    rewrite (precommit_majority _ _ _ _ _ _ Hsnap Hpos Ht'). cbn [mbind res_bind].
    replace (if bool_decide (two_thirds snap ({[sv_ConsensusID v]} ∪ B)) then commit_block height (b0 :: rest) (hash_of b0) _ else _)
      with (if bool_decide (two_thirds snap ({[sv_ConsensusID v]} ∪ B)) then <[height := b0]> commits else commits).
    + apply (IH _ _ vs'); [apply lookup_insert_eq|done|done| |done|].
      * intros w Hw. pose proof (Hfresh w ltac:(by right)).
        assert (sv_ConsensusID w ≠ sv_ConsensusID v) by (intros Ew; apply Hn; rewrite <- Ew; by apply list_elem_of_fmap_2). set_solver.
      * rewrite HP, ids_cons. set_solver.
    + unfold commit_block. cbn [find]. rewrite (bool_decide_true (hash_of b0 = hash_of b0)) by done.
      destruct (decide (two_thirds snap B)) as [H2|H2]; [|by rewrite (bool_decide_false (two_thirds snap B))].
      rewrite !(bool_decide_true (two_thirds snap _)) by (done || by apply two_thirds_more). by rewrite insert_insert_eq.
Qed.

(** *** The blocks with a majority of the prevotes *)

Lemma with_majority_first visit A D m :
  (∀ m : gmap Hash VotingState, visit m ≡ₚ elements (dom m)) → 0 < snap_TotalPower snap →
  states_ok A D m → ¬ two_thirds snap D →
  with_majority visit m = if bool_decide (two_thirds snap A) then [hash_of b0] else [].
Proof.
  intros Hvisit Hpos Hm HD. unfold with_majority.
  assert (Hone : ∀ hash, hash ∈ visit m →
    (match m !! hash with Some vs => HasPrevoteMajority vs | None => false end = true ↔ hash = hash_of b0 ∧ two_thirds snap A)).
  { intros hash Hin. rewrite Hvisit in Hin. apply elem_of_elements, elem_of_dom in Hin as [vs Hvs]. rewrite Hvs.
    rewrite (prevote_majority _ _ _ _ _ _ Hsnap Hpos (so_tallied _ _ _ Hm _ _ Hvs)), bool_decide_eq_true.
    unfold expected. case_decide as Hh; [tauto|]. split; [|tauto]. intros Ht. exfalso.
    assert (two_thirds snap ∅ → False) as Hempty by (unfold two_thirds; rewrite weight_empty; lia).
    destruct rest as [|b2 r]; [done|]. case_decide; [done|]. done. }
  assert (Hnd : NoDup (visit m)) by (rewrite Hvisit; apply NoDup_elements).
  assert (Hin0 : hash_of b0 ∈ visit m).
  { rewrite Hvisit. apply elem_of_elements, elem_of_dom, (in_dom _ A D m Hm). rewrite fmap_cons. left. }
  case_bool_decide as HA.
  - apply Permutation_singleton_r, NoDup_Permutation; [by apply NoDup_filter|apply NoDup_singleton|].
    intros hash. rewrite list_elem_of_filter, list_elem_of_singleton. split.
    + intros [Hf Hin]. by apply Hone in Hf as [-> _].
    + intros ->. split; [|done]. by apply Hone.
  - destruct (filter _ (visit m)) as [|hash l] eqn:E; [done|].
    assert (Hin : hash ∈ hash :: l) by left. rewrite <- E in Hin. apply list_elem_of_filter in Hin as [Hf Hin].
    by apply Hone in Hf as [_ Ht].
Qed.
End prevotes.

(** ** The harness *)

(** C36: A simulated height commits exactly when it should. With a snapshot of
    distinct validators whose nonnegative powers add up to its recorded total,
    which is positive and below 2^64 / 3, at least one block, distinct
    validators whose keys are in the snapshot, and double voters below two
    thirds of the power, the first block is committed if the
    validators that are not partitioned have two thirds of the power, and
    nothing is committed otherwise, in whatever order the voting states are
    visited. A second block of an equivocating proposer is never committed. *)
Theorem simulated_height visit height b0 rest snap h :
  (∀ m : gmap Hash VotingState, visit m ≡ₚ elements (dom m)) →
  snapshot_ok snap → 0 < snap_TotalPower snap → NoDup (sv_ConsensusID <$> th_Validators h) →
  Forall (can_vote snap) (voters (th_Validators h)) → ¬ two_thirds snap (ids (double_voters (th_Validators h))) →
  ∃ h', simulateVoting visit height (b0 :: rest) snap h = Ok h'
  ∧ th_Commits h' = if bool_decide (two_thirds snap (ids (voters (th_Validators h))))
                    then <[height := b0]> (th_Commits h) else th_Commits h.
Proof.
  intros Hvisit Hsnap Hpos Hnd Hv HD. unfold simulateVoting.
  destruct (prevote_phase_ok height snap b0 rest Hsnap (th_Validators h) ∅ ∅ _ (new_states_ok height snap b0 rest Hsnap) Hnd)
    as (l' & m & E & Hl & Hm); [set_solver|done|].
  rewrite E. cbn [mbind res_bind]. rewrite !(right_id_L ∅ (∪)) in Hm.
  rewrite (with_majority_first height snap b0 rest Hsnap visit _ _ m Hvisit Hpos Hm HD), (precommit_same height (b0 :: rest) _ _ _ _ Hl).
  case_bool_decide as HA.
  - destruct (in_dom height snap b0 rest (hash_of b0) _ _ m Hm) as [vs Hvs]; [rewrite fmap_cons; left|].
    pose proof (so_tallied _ _ _ _ _ _ _ Hm _ _ Hvs) as Ht. unfold expected in Ht. rewrite decide_True in Ht by done.
    destruct (precommit_phase_ok height snap b0 rest Hsnap (ids (voters (th_Validators h)) ∪ ∅) (th_Validators h) _ ∅ m vs (th_Commits h) Hpos Hvs Ht Hnd) as (m' & Ep);
      [set_solver|done|reflexivity|].
    rewrite (bool_decide_false (two_thirds snap ∅)) in Ep by (unfold two_thirds; rewrite weight_empty; lia).
    rewrite (right_id_L ∅ (∪)), (bool_decide_true _ HA) in Ep. rewrite Ep. cbn [mbind res_bind fst snd]. by eexists.
  - rewrite precommit_none. cbn [mbind res_bind fst snd]. by eexists.
Qed.
End spec.

(** The check for conflicting commits cannot fail: whatever blocks and
    commits the harness holds, [VerifySafety] is true, because the map of
    commits has one block for each height and the block is compared with
    itself. *)
Theorem verify_safety_vacuous h : VerifySafety h = true.
Proof.
  unfold VerifySafety. apply forallb_forall. intros [height block] Hin. apply list_elem_of_In, elem_of_map_to_list in Hin.
  unfold safe_at. cbn [fst snd]. rewrite Hin. case_match; [|done]. apply forallb_forall. intros other _.
  by case_bool_decide; [|rewrite bool_decide_true].
Qed.

(** ** Examples *)

Definition harness_pub (n : Z) : arr 32 := arr_copy 32 (be 20 n ++ be 12 n).
Definition harness_key (n : Z) : KeyPair := mkKeyPair (harness_pub n) (arr_copy 64 (replicate 32 x05 ++ harness_pub n)).

Definition harness_block (t : Z) : Block :=
  {| b_Header := {| h_Version := 1; h_Height := 1; h_PreviousHash := ZeroHash; h_StateRoot := ZeroHash;
                    h_TxRoot := ZeroHash; h_ReceiptRoot := ZeroHash; h_ValidatorRoot := ZeroHash;
                    h_ValidatorSetHash := ZeroHash; h_Epoch := 1; h_Timestamp := t;
                    h_Proposer := ZeroAddress; h_EventsRoot := ZeroHash |};
     b_Transactions := []; b_FeeSummary := NewFeeSummary 0; b_Signature := [];
     b_CommitProof := None; b_Events := []; b_Evidence := [] |}.

(** Four validators of which the last votes twice. *)
Definition sample_harness : BFTTestHarness :=
  match NewBFTTestHarness [harness_key 1; harness_key 2; harness_key 3; harness_key 4] (mkBFTConfig 4 3 ByzVoter) with
  | Ok h => h
  | _ => mkHarness [] NewInMemoryState ∅ 0 ∅ ∅
  end.

Definition harness_snapshot : ValidatorSnapshot :=
  default (mkValidatorSnapshot 0 [] 0 ZeroHash) (th_Snapshots sample_harness !! 1).

Lemma harness_verifies (n : Z) msg :
  ed25519_Verify (Ed25519 := half_ed25519) (harness_pub n) msg (ed25519_Sign (Ed25519 := half_ed25519) (kp_PrivateKey (harness_key n)) msg) = true.
Proof. by apply bool_decide_eq_true_2. Qed.

Lemma harness_snapshot_ok : snapshot_ok harness_snapshot.
Proof. split; [apply (bool_decide_unpack _); vm_compute; exact I..|vm_compute; reflexivity|vm_compute; reflexivity]. Qed.

(** The validator with key [n] can vote. *)
Lemma harness_member (n : Z) v :
  sv_ConsensusID v = DeriveConsensusID (harness_pub n) → kp_PrivateKey (sv_KeyPair v) = kp_PrivateKey (harness_key n) →
  match ValidatorByID harness_snapshot (DeriveConsensusID (harness_pub n)) with Ok val => bool_decide (val_PublicKey val = harness_pub n) | _ => false end = true →
  can_vote (H := half_ed25519) harness_snapshot v.
Proof.
  intros Ei Ek E. unfold can_vote. rewrite Ei, Ek. destruct (ValidatorByID harness_snapshot (DeriveConsensusID (harness_pub n))) as [val|e|]; [|done..].
  apply bool_decide_eq_true in E. exists val. split; [done|]. intros msg. rewrite E. apply harness_verifies.
Qed.

Lemma harness_voters : Forall (can_vote (H := half_ed25519) harness_snapshot) (voters (th_Validators sample_harness)).
Proof.
  replace (voters (th_Validators sample_harness)) with
    [sim_validator (mkBFTConfig 4 3 ByzVoter) 0 (harness_key 1); sim_validator (mkBFTConfig 4 3 ByzVoter) 1 (harness_key 2);
     sim_validator (mkBFTConfig 4 3 ByzVoter) 2 (harness_key 3); sim_validator (mkBFTConfig 4 3 ByzVoter) 3 (harness_key 4)]
    by (vm_compute; reflexivity).
  repeat (apply Forall_cons; split); [by apply (harness_member 1); [..|vm_compute]|by apply (harness_member 2); [..|vm_compute]
    |by apply (harness_member 3); [..|vm_compute]|by apply (harness_member 4); [..|vm_compute]|by apply Forall_nil].
Qed.

Lemma simulated_height_witness :
  ∃ h', simulateVoting (H := half_ed25519) (λ m, elements (dom m)) 1 [harness_block 1; harness_block 2] harness_snapshot sample_harness = Ok h'
  ∧ GetCommittedBlock 1 h' = Some (harness_block 1).
Proof.
  destruct (simulated_height (H := half_ed25519) (λ m, elements (dom m)) 1 (harness_block 1) [harness_block 2] harness_snapshot sample_harness)
    as (h' & E & Ec).
  - done.
  - exact harness_snapshot_ok.
  - vm_compute. reflexivity.
  - apply (bool_decide_unpack _). vm_compute. exact I.
  - exact harness_voters.
  - apply (bool_decide_unpack _). vm_compute. exact I.
  - exists h'. split; [exact E|]. unfold GetCommittedBlock. rewrite Ec, bool_decide_true; [apply lookup_insert_eq|].
    apply (bool_decide_unpack _). vm_compute. exact I.
Defined.
