(* ===== verification/Config.v ===== *)
(** * Configuration (package config, node/config.go, BuildConfig and
      runNodeStart of cmd/dsn)

    The settings, where they come from and how they are merged, checked and
    handed to the node. [getenv] is the environment, [ParseDuration] reads a
    duration, [toml] decodes a file into a configuration. *)

From S2P Require Import Prelude Codec Address Keys Genesis Startup.

(** ** Data (config/config.go) *)

Record P2PConfig := mkP2PConfig {
  p2p_ListenAddr : string; p2p_Port : Z; p2p_MaxPeers : Z;
  p2p_BootstrapPeers : list string; p2p_PingInterval : Z;
}.

Record RPCConfig := mkRPCConfig {
  rpc_Enabled : bool; rpc_ListenAddr : string; rpc_Port : Z; rpc_CORSOrigins : list string;
}.

Record MetricsConfig := mkMetricsConfig { mt_Enabled : bool; mt_ListenAddr : string; mt_Port : Z }.

Record StorageConfig := mkStorageConfig { sg_DataDir : string; sg_MaxDBSize : Z; sg_FSync : bool }.

Record SnapshotConfig := mkSnapshotConfig {
  sn_Enable : bool; sn_Interval : Z; sn_MaxSnapshots : Z; sn_OutputDir : string;
}.

Record ValidatorConfig := mkValidatorConfig { vc_KeyFile : string; vc_Stake : Z; vc_CommissionRate : Z }.

Record LoggingConfig := mkLoggingConfig {
  lg_Level : string; lg_Format : string; lg_Output : string; lg_EnableFileLogging : bool;
}.

Record ChainConfig := mkChainConfig {
  ch_ChainID : Z; ch_MempoolMaxSize : Z; ch_MempoolTTL : Z; ch_MaxTxPerBlock : Z; ch_ProposerTimeout : Z;
  ch_IndexerEnabled : bool; ch_FastSyncEnabled : bool;
  ch_TrustedCheckpointHeight : Z; ch_TrustedCheckpointHash : string;
}.

Record Config := mkConfig {
  c_P2P : P2PConfig; c_RPC : RPCConfig; c_Metrics : MetricsConfig; c_Storage : StorageConfig;
  c_Snapshot : SnapshotConfig; c_Validator : ValidatorConfig; c_Logging : LoggingConfig;
  c_Chain : ChainConfig; c_GenesisFile : string;
}.

(** [time.Second]. *)
Definition second : Z := 1000000000.

Definition DefaultConfig : Config :=
  mkConfig (mkP2PConfig "0.0.0.0" 0 50 [] (30 * second))
    (mkRPCConfig true "0.0.0.0" 8545 [])
    (mkMetricsConfig true "0.0.0.0" 9464)
    (mkStorageConfig "" (10 * 1024 * 1024 * 1024) false)
    (mkSnapshotConfig true 10 5 "")
    (mkValidatorConfig "validator_key.json" 0 1000)
    (mkLoggingConfig "info" "text" "stdout" false)
    (mkChainConfig 0 10000 (300 * second) 100 (5 * second) false false 0 "")
    "".

(** ** Strings *)

(** [strconv.ParseUint(s, 10, bits)], [strconv.ParseInt(s, 10, 64)] and
    [strconv.Atoi]. *)
Fixpoint digits (n : Z) (l : bytes) : option Z :=
  match l with
  | [] => Some n
  | b :: l => if is_digit (b2z b) then digits (10 * n + (b2z b - 48)) l else None
  end.

Definition parse_digits (l : bytes) : option Z := if bool_decide (l = []) then None else digits 0 l.

Definition ParseUint (bits : Z) (s : string) : option Z :=
  n ← parse_digits (str_bytes s); if n <? 2 ^ bits then Some n else None.

Definition ParseInt64 (s : string) : option Z :=
  match str_bytes s with
  | x2d :: l => n ← parse_digits l; if n <=? 2 ^ 63 then Some (- n) else None
  | x2b :: l => n ← parse_digits l; if n <? 2 ^ 63 then Some n else None
  | l => n ← parse_digits l; if n <? 2 ^ 63 then Some n else None
  end.

Definition Atoi (s : string) : option Z := ParseInt64 s.

(** [strings.Split(s, ",")]. *)
Fixpoint split_commas (l : bytes) (current : bytes) : list bytes :=
  match l with
  | [] => [current]
  | x2c :: l => current :: split_commas l []
  | b :: l => split_commas l (current ++ [b])
  end.

Definition Split (s : string) : list string := bytes_str <$> split_commas (str_bytes s) [].

(** [strings.TrimSpace]: the encodings of the code points that
    [unicode.IsSpace] accepts, at both ends. *)
Definition space_encodings : list bytes :=
  ((λ c, [z2b c]) <$> [9; 10; 11; 12; 13; 32])
  ++ [[xc2; x85]; [xc2; xa0]; [xe1; x9a; x80]]
  ++ ((λ c, [xe2; x80; z2b c]) <$> [128; 129; 130; 131; 132; 133; 134; 135; 136; 137; 138; 168; 169; 175])
  ++ [[xe2; x81; x9f]; [xe3; x80; x80]].

Definition strip_one (spaces : list bytes) (l : bytes) : option bytes :=
  head (omap (λ e, if bool_decide (take (length e) l = e) then Some (drop (length e) l) else None) spaces).

Fixpoint strip (fuel : nat) (spaces : list bytes) (l : bytes) : bytes :=
  match fuel with
  | O => l
  | S fuel => match strip_one spaces l with Some l => strip fuel spaces l | None => l end
  end.

Definition TrimSpace (s : string) : string :=
  let l := str_bytes s in
  let l := strip (length l) space_encodings l in
  bytes_str (reverse (strip (length l) (reverse <$> space_encodings) (reverse l))).

Definition parseBootstrapPeers (s : string) : list string :=
  if bool_decide (s = "") then [] else List.filter (λ p, negb (bool_decide (p = ""))) (TrimSpace <$> Split s).

(** ** The environment (config/env.go) *)

Section env.
Context (getenv : string → string) (ParseDuration : string → option Z).

(** Each variable sets one field; an empty one, and one that cannot be read,
    leaves it. *)
Definition env_string (name old : string) : string := if bool_decide (getenv name = "") then old else getenv name.
Definition env_bool (name : string) (old : bool) : bool :=
  if bool_decide (getenv name = "") then old else bool_decide (getenv name = "true") || bool_decide (getenv name = "1").
Definition env_read {A} (read : string → option A) (name : string) (old : A) : A :=
  if bool_decide (getenv name = "") then old else default old (read (getenv name)).

Definition positive (o : option Z) : option Z := n ← o; if 0 <? n then Some n else None.
Definition env_pos : string → Z → Z := env_read (λ v, positive (Atoi v)).
Definition env_pos64 : string → Z → Z := env_read (λ v, positive (ParseInt64 v)).
Definition env_uint (bits : Z) : string → Z → Z := env_read (ParseUint bits).
Definition env_duration : string → Z → Z := env_read (λ v, positive (ParseDuration v)).

Definition env_p2p (c : P2PConfig) : P2PConfig :=
  mkP2PConfig (env_string "DSN_P2P_LISTEN_ADDR" (p2p_ListenAddr c)) (env_pos "DSN_P2P_PORT" (p2p_Port c))
    (env_pos "DSN_P2P_MAX_PEERS" (p2p_MaxPeers c))
    (env_read (λ v, Some (parseBootstrapPeers v)) "DSN_P2P_BOOTSTRAP_PEERS" (p2p_BootstrapPeers c))
    (env_duration "DSN_P2P_PING_INTERVAL" (p2p_PingInterval c)).

Definition env_rpc (c : RPCConfig) : RPCConfig :=
  mkRPCConfig (env_bool "DSN_RPC_ENABLED" (rpc_Enabled c)) (env_string "DSN_RPC_LISTEN_ADDR" (rpc_ListenAddr c))
    (env_pos "DSN_RPC_PORT" (rpc_Port c)) (env_read (λ v, Some (Split v)) "DSN_RPC_CORS_ORIGINS" (rpc_CORSOrigins c)).

Definition env_metrics (c : MetricsConfig) : MetricsConfig :=
  mkMetricsConfig (env_bool "DSN_METRICS_ENABLED" (mt_Enabled c)) (env_string "DSN_METRICS_LISTEN_ADDR" (mt_ListenAddr c))
    (env_pos "DSN_METRICS_PORT" (mt_Port c)).

Definition env_storage (c : StorageConfig) : StorageConfig :=
  mkStorageConfig (env_string "DSN_DATA_DIR" (sg_DataDir c)) (env_pos64 "DSN_MAX_DB_SIZE" (sg_MaxDBSize c)) (sg_FSync c).

Definition env_snapshot (c : SnapshotConfig) : SnapshotConfig :=
  mkSnapshotConfig (env_bool "DSN_SNAPSHOT_ENABLED" (sn_Enable c)) (env_uint 64 "DSN_SNAPSHOT_INTERVAL" (sn_Interval c))
    (env_uint 64 "DSN_SNAPSHOT_MAX" (sn_MaxSnapshots c)) (env_string "DSN_SNAPSHOT_OUTPUT_DIR" (sn_OutputDir c)).

Definition env_validator (c : ValidatorConfig) : ValidatorConfig :=
  mkValidatorConfig (env_string "DSN_VALIDATOR_KEY_FILE" (vc_KeyFile c)) (env_uint 64 "DSN_VALIDATOR_STAKE" (vc_Stake c))
    (env_uint 64 "DSN_VALIDATOR_COMMISSION_RATE" (vc_CommissionRate c)).

Definition env_logging (c : LoggingConfig) : LoggingConfig :=
  mkLoggingConfig (env_string "DSN_LOG_LEVEL" (lg_Level c)) (env_string "DSN_LOG_FORMAT" (lg_Format c))
    (env_string "DSN_LOG_OUTPUT" (lg_Output c)) (env_bool "DSN_LOG_FILE_ENABLED" (lg_EnableFileLogging c)).

Definition env_chain (c : ChainConfig) : ChainConfig :=
  mkChainConfig (env_uint 32 "DSN_CHAIN_ID" (ch_ChainID c)) (env_pos "DSN_MEMPOOL_SIZE" (ch_MempoolMaxSize c))
    (env_duration "DSN_MEMPOOL_TTL" (ch_MempoolTTL c)) (env_pos "DSN_MAX_TX_PER_BLOCK" (ch_MaxTxPerBlock c))
    (env_duration "DSN_PROPOSER_TIMEOUT" (ch_ProposerTimeout c)) (env_bool "DSN_INDEXER" (ch_IndexerEnabled c))
    (env_bool "DSN_FAST_SYNC" (ch_FastSyncEnabled c)) (env_uint 64 "DSN_TRUSTED_HEIGHT" (ch_TrustedCheckpointHeight c))
    (env_string "DSN_TRUSTED_HASH" (ch_TrustedCheckpointHash c)).

Definition LoadConfigFromEnv (cfg : option Config) : Config :=
  let c := default DefaultConfig cfg in
  mkConfig (env_p2p (c_P2P c)) (env_rpc (c_RPC c)) (env_metrics (c_Metrics c)) (env_storage (c_Storage c))
    (env_snapshot (c_Snapshot c)) (env_validator (c_Validator c)) (env_logging (c_Logging c)) (env_chain (c_Chain c))
    (c_GenesisFile c).
End env.

(** ** Merging (config/env.go) *)

(** A zero value of [src] does not override. *)
Definition over_string (dst src : string) : string := if bool_decide (src = "") then dst else src.
Definition over_Z (dst src : Z) : Z := if src =? 0 then dst else src.
Definition over_pos (dst src : Z) : Z := if 0 <? src then src else dst.
Definition over_list (dst src : list string) : list string := if bool_decide (src = []) then dst else src.

Definition merge_p2p (d s : P2PConfig) : P2PConfig :=
  mkP2PConfig (over_string (p2p_ListenAddr d) (p2p_ListenAddr s)) (over_Z (p2p_Port d) (p2p_Port s))
    (over_Z (p2p_MaxPeers d) (p2p_MaxPeers s)) (over_list (p2p_BootstrapPeers d) (p2p_BootstrapPeers s))
    (over_pos (p2p_PingInterval d) (p2p_PingInterval s)).

Definition merge_rpc (d s : RPCConfig) : RPCConfig :=
  mkRPCConfig (rpc_Enabled s) (over_string (rpc_ListenAddr d) (rpc_ListenAddr s)) (over_Z (rpc_Port d) (rpc_Port s))
    (over_list (rpc_CORSOrigins d) (rpc_CORSOrigins s)).

Definition merge_metrics (d s : MetricsConfig) : MetricsConfig :=
  mkMetricsConfig (mt_Enabled s) (over_string (mt_ListenAddr d) (mt_ListenAddr s)) (over_Z (mt_Port d) (mt_Port s)).

(** [FSync] stays. *)
Definition merge_storage (d s : StorageConfig) : StorageConfig :=
  mkStorageConfig (over_string (sg_DataDir d) (sg_DataDir s)) (over_Z (sg_MaxDBSize d) (sg_MaxDBSize s)) (sg_FSync d).

Definition merge_snapshot (d s : SnapshotConfig) : SnapshotConfig :=
  mkSnapshotConfig (sn_Enable s) (over_Z (sn_Interval d) (sn_Interval s)) (over_Z (sn_MaxSnapshots d) (sn_MaxSnapshots s))
    (over_string (sn_OutputDir d) (sn_OutputDir s)).

Definition merge_validator (d s : ValidatorConfig) : ValidatorConfig :=
  mkValidatorConfig (over_string (vc_KeyFile d) (vc_KeyFile s)) (over_Z (vc_Stake d) (vc_Stake s))
    (over_Z (vc_CommissionRate d) (vc_CommissionRate s)).

Definition merge_logging (d s : LoggingConfig) : LoggingConfig :=
  mkLoggingConfig (over_string (lg_Level d) (lg_Level s)) (over_string (lg_Format d) (lg_Format s))
    (over_string (lg_Output d) (lg_Output s)) (lg_EnableFileLogging s).

Definition merge_chain (d s : ChainConfig) : ChainConfig :=
  mkChainConfig (over_Z (ch_ChainID d) (ch_ChainID s)) (over_Z (ch_MempoolMaxSize d) (ch_MempoolMaxSize s))
    (over_pos (ch_MempoolTTL d) (ch_MempoolTTL s)) (over_Z (ch_MaxTxPerBlock d) (ch_MaxTxPerBlock s))
    (over_pos (ch_ProposerTimeout d) (ch_ProposerTimeout s)) (ch_IndexerEnabled s) (ch_FastSyncEnabled s)
    (over_Z (ch_TrustedCheckpointHeight d) (ch_TrustedCheckpointHeight s))
    (over_string (ch_TrustedCheckpointHash d) (ch_TrustedCheckpointHash s)).

(** The genesis file stays. *)
Definition MergeConfig (dst src : option Config) : Config :=
  let d := default DefaultConfig dst in
  match src with
  | None => d
  | Some s =>
      mkConfig (merge_p2p (c_P2P d) (c_P2P s)) (merge_rpc (c_RPC d) (c_RPC s)) (merge_metrics (c_Metrics d) (c_Metrics s))
        (merge_storage (c_Storage d) (c_Storage s)) (merge_snapshot (c_Snapshot d) (c_Snapshot s))
        (merge_validator (c_Validator d) (c_Validator s)) (merge_logging (c_Logging d) (c_Logging s))
        (merge_chain (c_Chain d) (c_Chain s)) (c_GenesisFile d)
  end.

(** ** Checking (config/validation.go, config/errors.go) *)

Definition ErrConfigPathRequired : error := Errorf "CONFIG_PATH_REQUIRED".
Definition ErrConfigFileNotFound : error := Errorf "CONFIG_FILE_NOT_FOUND".
Definition ErrConfigReadFailed : error := Errorf "CONFIG_READ_FAILED".
Definition ErrConfigParseFailed : error := Errorf "CONFIG_PARSE_FAILED".
Definition ErrConfigValidationFailed : error := Errorf "CONFIG_VALIDATION_FAILED".
Definition ErrInvalidPort (what : string) : error := Wrapf what (Errorf "CONFIG_INVALID_PORT").
Definition ErrInvalidMaxPeers (what : string) : error := Wrapf what (Errorf "CONFIG_INVALID_MAX_PEERS").
Definition ErrDataDirRequired : error := Errorf "CONFIG_DATA_DIR_REQUIRED".

Definition port_outside (port : Z) : bool := (port <? 1024) || (65535 <? port).

Definition ValidateConfig (cfg : option Config) : res unit :=
  match cfg with
  | None => Err (Wrapf "configuration is nil" ErrConfigValidationFailed)
  | Some c =>
      if negb (p2p_Port (c_P2P c) =? 0) && port_outside (p2p_Port (c_P2P c)) then Err (ErrInvalidPort "P2P") else
      if p2p_MaxPeers (c_P2P c) <=? 0 then Err (ErrInvalidMaxPeers "P2P max peers") else
      if port_outside (rpc_Port (c_RPC c)) then Err (ErrInvalidPort "RPC") else
      if negb (mt_Port (c_Metrics c) =? 0) && port_outside (mt_Port (c_Metrics c)) then Err (ErrInvalidPort "Metrics") else
      if ch_IndexerEnabled (c_Chain c) && bool_decide (sg_DataDir (c_Storage c) = "") then Err ErrDataDirRequired else
      if ch_MempoolMaxSize (c_Chain c) <=? 0 then Err (ErrInvalidMaxPeers "Mempool max size") else
      if ch_MaxTxPerBlock (c_Chain c) <=? 0 then Err (ErrInvalidMaxPeers "Max transactions per block") else
      if 10000 <? vc_CommissionRate (c_Validator c) then Err ErrConfigValidationFailed else
      Ok tt
  end.

(** ** Building (config/config.go, cmd/dsn/root.go, cmd/dsn/node_cmd.go) *)

Record ConfigFlags := mkConfigFlags {
  cf_configPath : string; cf_p2pPort : Z; cf_p2pMaxPeers : Z; cf_bootstrapPeers : string; cf_rpcPort : Z;
  cf_metricsPort : Z; cf_dataDir : string; cf_chainID : Z; cf_mempoolSize : Z; cf_indexer : bool;
  cf_fastSync : bool; cf_logLevel : string;
}.

(** No flag given. *)
Definition no_flags : ConfigFlags := mkConfigFlags "" 0 0 "" 0 0 "" 0 0 false false "".

Record NodeFlags := mkNodeFlags {
  nf_genesisFile : string; nf_validatorKey : string; nf_dataDir : string; nf_configPath : string;
}.

(** [cfgFlags] for [node start]: the command has a [config] and a [data-dir]
    flag of its own, which hide those of the root command. *)
Definition hide_flags (f : ConfigFlags) : ConfigFlags :=
  mkConfigFlags "" (cf_p2pPort f) (cf_p2pMaxPeers f) (cf_bootstrapPeers f) (cf_rpcPort f) (cf_metricsPort f) ""
    (cf_chainID f) (cf_mempoolSize f) (cf_indexer f) (cf_fastSync f) (cf_logLevel f).

Definition parseBootstrapPeersFromString : string → list string := parseBootstrapPeers.

Definition flag_string (flag old : string) : string := if bool_decide (flag = "") then old else flag.
Definition flag_Z (flag old : Z) : Z := if flag =? 0 then old else flag.

Definition applyCLIFlags (f : ConfigFlags) (c : Config) : Config :=
  let p := c_P2P c in let r := c_RPC c in let m := c_Metrics c in let s := c_Storage c in let l := c_Logging c in let ch := c_Chain c in
  mkConfig
    (mkP2PConfig (p2p_ListenAddr p) (flag_Z (cf_p2pPort f) (p2p_Port p)) (flag_Z (cf_p2pMaxPeers f) (p2p_MaxPeers p))
       (if bool_decide (cf_bootstrapPeers f = "") then p2p_BootstrapPeers p else parseBootstrapPeersFromString (cf_bootstrapPeers f))
       (p2p_PingInterval p))
    (mkRPCConfig (rpc_Enabled r) (rpc_ListenAddr r) (flag_Z (cf_rpcPort f) (rpc_Port r)) (rpc_CORSOrigins r))
    (mkMetricsConfig (mt_Enabled m) (mt_ListenAddr m) (flag_Z (cf_metricsPort f) (mt_Port m)))
    (mkStorageConfig (flag_string (cf_dataDir f) (sg_DataDir s)) (sg_MaxDBSize s) (sg_FSync s))
    (c_Snapshot c) (c_Validator c)
    (mkLoggingConfig (flag_string (cf_logLevel f) (lg_Level l)) (lg_Format l) (lg_Output l) (lg_EnableFileLogging l))
    (mkChainConfig (flag_Z (cf_chainID f) (ch_ChainID ch)) (flag_Z (cf_mempoolSize f) (ch_MempoolMaxSize ch)) (ch_MempoolTTL ch)
       (ch_MaxTxPerBlock ch) (ch_ProposerTimeout ch) (cf_indexer f) (cf_fastSync f)
       (ch_TrustedCheckpointHeight ch) (ch_TrustedCheckpointHash ch))
    (c_GenesisFile c).

(** [node.Config] with its own defaults and variables (node/config.go);
    [Validators] is always empty here and left out. *)
Record NodeConfig := mkNodeConfig {
  nc_ChainID : Z; nc_DataDir : string; nc_MempoolMaxSize : Z; nc_MempoolTTL : Z; nc_RPCPort : Z; nc_P2PPort : Z;
  nc_MaxTxPerBlock : Z; nc_ProposerTimeout : Z; nc_GenesisFile : string; nc_ValidatorKeyFile : string;
  nc_MaxPeers : Z; nc_MetricsPort : Z; nc_IndexerEnabled : bool; nc_SnapshotInterval : Z; nc_FastSyncEnabled : bool;
  nc_TrustedCheckpointHeight : Z; nc_TrustedCheckpointHash : string; nc_BootstrapPeers : list string;
  nc_VMTimeoutSeconds : Z; nc_FSync : bool;
}.

Definition node_DefaultConfig : NodeConfig :=
  mkNodeConfig 0 "" 10000 (300 * second) 8545 0 100 (5 * second) "" "" 50 9464 false 10 false 0 "" [] 30 false.

(** The fields that are not named are zero. *)
Definition convertToNodeConfig (c : Config) : NodeConfig :=
  mkNodeConfig (ch_ChainID (c_Chain c)) (sg_DataDir (c_Storage c)) (ch_MempoolMaxSize (c_Chain c)) (ch_MempoolTTL (c_Chain c))
    (rpc_Port (c_RPC c)) (p2p_Port (c_P2P c)) (ch_MaxTxPerBlock (c_Chain c)) (ch_ProposerTimeout (c_Chain c)) (c_GenesisFile c)
    (vc_KeyFile (c_Validator c)) (p2p_MaxPeers (c_P2P c)) (mt_Port (c_Metrics c)) (ch_IndexerEnabled (c_Chain c))
    (sn_Interval (c_Snapshot c)) (ch_FastSyncEnabled (c_Chain c)) (ch_TrustedCheckpointHeight (c_Chain c))
    (ch_TrustedCheckpointHash (c_Chain c)) (p2p_BootstrapPeers (c_P2P c)) 0 false.

(** What reading a file gives: [None], no such file. *)
Definition Files : Type := string → option (res bytes).

Section build.
Context (getenv : string → string) (ParseDuration : string → option Z).
Context (files : Files) (toml : bytes → Config → res Config).

Definition ConfigFromEnv : NodeConfig :=
  let d := node_DefaultConfig in
  mkNodeConfig (env_uint getenv 32 "DSN_CHAIN_ID" (nc_ChainID d)) (env_string getenv "DSN_DATA_DIR" (nc_DataDir d))
    (env_pos getenv "DSN_MEMPOOL_SIZE" (nc_MempoolMaxSize d)) (nc_MempoolTTL d) (env_pos getenv "DSN_RPC_PORT" (nc_RPCPort d))
    (env_pos getenv "DSN_P2P_PORT" (nc_P2PPort d)) (env_pos getenv "DSN_MAX_TX_PER_BLOCK" (nc_MaxTxPerBlock d))
    (env_duration getenv ParseDuration "DSN_PROPOSER_TIMEOUT" (nc_ProposerTimeout d)) (nc_GenesisFile d) (nc_ValidatorKeyFile d)
    (nc_MaxPeers d) (nc_MetricsPort d) (env_bool getenv "DSN_INDEXER" (nc_IndexerEnabled d))
    (env_uint getenv 64 "DSN_SNAPSHOT_INTERVAL" (nc_SnapshotInterval d)) (env_bool getenv "DSN_FAST_SYNC" (nc_FastSyncEnabled d))
    (env_uint getenv 64 "DSN_TRUSTED_HEIGHT" (nc_TrustedCheckpointHeight d)) (env_string getenv "DSN_TRUSTED_HASH" (nc_TrustedCheckpointHash d))
    (env_read getenv (λ v, Some (parseBootstrapPeers v)) "DSN_BOOTSTRAP_PEERS" (nc_BootstrapPeers d)) (nc_VMTimeoutSeconds d) (nc_FSync d).

Definition LoadConfig (path : string) : res Config :=
  if bool_decide (path = "") then Err ErrConfigPathRequired else
  match files path with
  | None => Err ErrConfigFileNotFound
  | Some (Ok data) => match toml data DefaultConfig with Err _ => Err ErrConfigParseFailed | r => r end
  | Some (Err _) => Err ErrConfigReadFailed
  | Some Panic => Panic
  end.

(** An error of [LoadConfig] is dropped. *)
Definition BuildConfig (f : ConfigFlags) : res Config :=
  cfg ← (if bool_decide (cf_configPath f = "") then Ok DefaultConfig else
         match LoadConfig (cf_configPath f) with Err _ => Ok DefaultConfig | r => r end);
  Ok (applyCLIFlags f (LoadConfigFromEnv getenv ParseDuration (Some cfg))).

(** [runNodeStart] up to the creation of the node. *)
Definition node_config (f : ConfigFlags) (nf : NodeFlags) : res NodeConfig :=
  c ← BuildConfig f;
  let s := c_Storage c in let v := c_Validator c in
  let c := mkConfig (c_P2P c) (c_RPC c) (c_Metrics c)
             (mkStorageConfig (flag_string (nf_dataDir nf) (sg_DataDir s)) (sg_MaxDBSize s) (sg_FSync s))
             (c_Snapshot c) (mkValidatorConfig (flag_string (nf_validatorKey nf) (vc_KeyFile v)) (vc_Stake v) (vc_CommissionRate v))
             (c_Logging c) (c_Chain c) (flag_string (nf_genesisFile nf) (c_GenesisFile c)) in
  wrap_res "config validation failed" (ValidateConfig (Some c));;
  if bool_decide (c_GenesisFile c = "") then Err (Errorf "genesis file is required") else
  if bool_decide (files (c_GenesisFile c) = None) then Err (Errorf "genesis file not found") else
  Ok (convertToNodeConfig c).
End build.

(** ** Specification *)

Definition port_ok (port : Z) : Prop := 1024 <= port <= 65535.

Record config_ok (c : Config) : Prop := {
  co_p2p : p2p_Port (c_P2P c) = 0 ∨ port_ok (p2p_Port (c_P2P c));
  co_peers : 0 < p2p_MaxPeers (c_P2P c);
  co_rpc : port_ok (rpc_Port (c_RPC c));
  co_metrics : mt_Port (c_Metrics c) = 0 ∨ port_ok (mt_Port (c_Metrics c));
  co_indexer : ch_IndexerEnabled (c_Chain c) = true → sg_DataDir (c_Storage c) ≠ "";
  co_mempool : 0 < ch_MempoolMaxSize (c_Chain c);
  co_txs : 0 < ch_MaxTxPerBlock (c_Chain c);
  co_commission : vc_CommissionRate (c_Validator c) <= 10000;
}.

(** ** Lemmas *)

Lemma port_outside_spec port : port_outside port = false ↔ port_ok port.
Proof. unfold port_outside, port_ok. rewrite orb_false_iff, !Z.ltb_ge. lia. Qed.

Lemma optional_port_spec port : negb (port =? 0) && port_outside port = false ↔ port = 0 ∨ port_ok port.
Proof. rewrite andb_false_iff, port_outside_spec, negb_false_iff, Z.eqb_eq. done. Qed.

Lemma validate_cases c : ValidateConfig (Some c) = Ok tt ↔ config_ok c.
Proof.
  unfold ValidateConfig. split.
  - repeat (case_match; [done|]). intros _. split.
    + by apply optional_port_spec.
    + by apply Z.leb_gt.
    + by apply port_outside_spec.
    + by apply optional_port_spec.
    + intros Hi Hd. by rewrite Hi, bool_decide_true in *.
    + by apply Z.leb_gt.
    + by apply Z.leb_gt.
    + by apply Z.ltb_ge.
  - intros [H1 H2 H3 H4 H5 H6 H7 H8]. rewrite (proj2 (optional_port_spec _) H1), (proj2 (Z.leb_gt _ _) H2), (proj2 (port_outside_spec _) H3),
      (proj2 (optional_port_spec _) H4), (proj2 (Z.leb_gt _ _) H6), (proj2 (Z.leb_gt _ _) H7), (proj2 (Z.ltb_ge _ _) H8).
    destruct (ch_IndexerEnabled (c_Chain c)); [|done]. by rewrite bool_decide_false by auto.
Qed.

(** *** Decimal numbers *)

Lemma digit_char (n : N) s : (n < 10)%N → ∃ b, str_bytes (String (pretty_N_char n) s) = b :: str_bytes s ∧ is_digit (b2z b) = true ∧ b2z b - 48 = Z.of_N n.
Proof.
  intros Hn. exists (Ascii.byte_of_ascii (pretty_N_char n)). split; [done|].
  assert (n ∈ [0; 1; 2; 3; 4; 5; 6; 7; 8; 9])%N as Hin by (rewrite !elem_of_cons, elem_of_nil; lia).
  revert n Hn Hin. intros n _ Hin. repeat (apply elem_of_cons in Hin as [->|Hin]; [done|]). by apply not_elem_of_nil in Hin.
Qed.

Lemma digits_pretty n s : digits 0 (str_bytes (pretty_N_go n s)) = digits (Z.of_N n) (str_bytes s).
Proof.
  revert s. induction (N.lt_wf_0 n) as [n _ IH]; intros s. destruct (decide (0 < n)%N) as [Hp|Hp].
  - rewrite pretty_N_go_step by done. rewrite IH by (by apply N.div_lt).
    destruct (digit_char (n mod 10) s) as (b & E & Hd & Hb); [by apply N.mod_lt|]. rewrite E. cbn [digits]. rewrite Hd, Hb.
    f_equal. rewrite N2Z.inj_div, N2Z.inj_mod. pose proof (Z.div_mod (Z.of_N n) 10). lia.
  - replace n with 0%N by lia. by rewrite pretty_N_go_0.
Qed.

Lemma parse_digits_dec n : 0 <= n → parse_digits (str_bytes (dec n)) = Some n.
Proof.
  intros Hn. unfold dec, pretty, pretty_Z. destruct n as [|p|p]; [done| |lia].
  change (parse_digits (str_bytes (pretty (N.pos p))) = Some (Z.pos p)). unfold pretty, pretty_N. rewrite decide_False by done.
  unfold parse_digits. rewrite digits_pretty, bool_decide_false; [done|]. intros E.
  pose proof (digits_pretty (N.pos p) "") as Hd. rewrite E in Hd. cbn in Hd. congruence.
Qed.

Lemma dec_first n : 0 <= n → ∃ b l, str_bytes (dec n) = b :: l ∧ is_digit (b2z b) = true.
Proof.
  intros Hn. pose proof (parse_digits_dec n Hn) as E. unfold parse_digits in E. case_bool_decide; [done|].
  destruct (str_bytes (dec n)) as [|b l]; [done|]. exists b, l. split; [done|]. cbn [digits] in E. by destruct (is_digit (b2z b)).
Qed.

Lemma parse_int_dec n : - 2 ^ 63 <= n < 2 ^ 63 → ParseInt64 (dec n) = Some n.
Proof.
  intros Hn. unfold ParseInt64. destruct (Z.le_gt_cases 0 n) as [Hp|Hp].
  - destruct (dec_first n Hp) as (b & l & E & Hb). pose proof (parse_digits_dec n Hp) as Ed. rewrite E in Ed |- *.
    assert (b ≠ x2d ∧ b ≠ x2b) as [H1 H2] by (split; intros ->; done).
    transitivity (n0 ← parse_digits (b :: l); if n0 <? 2 ^ 63 then Some n0 else None); [by destruct b|].
    rewrite Ed. cbn [mbind option_bind]. by rewrite (proj2 (Z.ltb_lt _ _)) by lia.
  - destruct n as [|p|p]; [lia|lia|]. pose proof (parse_digits_dec (Z.pos p) ltac:(lia)) as Ed.
    transitivity (n0 ← parse_digits (str_bytes (dec (Z.pos p))); if n0 <=? 2 ^ 63 then Some (- n0) else None); [done|]. rewrite Ed. cbn [mbind option_bind].
    by rewrite (proj2 (Z.leb_le _ _)) by lia.
Qed.

(** *** Variables *)

Lemma env_pos_value getenv name old : env_pos getenv name old = old ∨ (getenv name ≠ "" ∧ Atoi (getenv name) = Some (env_pos getenv name old) ∧ 0 < env_pos getenv name old).
Proof.
  unfold env_pos, env_read, positive. case_bool_decide; [by left|]. destruct (Atoi (getenv name)) as [n|]; [|by left].
  cbn [mbind option_bind]. destruct (Z.ltb_spec 0 n); [right|by left]. done.
Qed.

Lemma env_uint_value getenv bits name old : env_uint getenv bits name old = old ∨ ParseUint bits (getenv name) = Some (env_uint getenv bits name old).
Proof. unfold env_uint, env_read. case_bool_decide; [by left|]. destruct (ParseUint bits (getenv name)); [by right|by left]. Qed.

Lemma env_pos_pos getenv name old : 0 < old → 0 < env_pos getenv name old.
Proof. intros H. destruct (env_pos_value getenv name old) as [->|(_ & _ & ?)]; done. Qed.

(** A port variable that is set to a positive number is set to a port. *)
Definition port_variable (getenv : string → string) (name : string) : Prop :=
  ∀ n, Atoi (getenv name) = Some n → 0 < n → port_ok n.

Lemma env_port getenv name old : port_variable getenv name → old = 0 ∨ port_ok old → env_pos getenv name old = 0 ∨ port_ok (env_pos getenv name old).
Proof. intros Hv Ho. destruct (env_pos_value getenv name old) as [->|(_ & E & Hp)]; [done|]. right. by apply Hv. Qed.

(** ** Properties *)

(** Checking a configuration is exact: it succeeds if and only if the P2P
    and metrics ports are 0 or in range, the RPC port is in range, the limits on
    peers, pool and block are positive, an enabled indexer has a data directory
    and the commission is at most 100 percent; and a configuration that passes
    also passes the checks of the node's first startup phase. *)
Theorem validate_config_exact c :
  (ValidateConfig (Some c) = Ok tt ↔ config_ok c)
  ∧ (ValidateConfig (Some c) ≠ Panic)
  ∧ (config_ok c → let nc := convertToNodeConfig c in
       bad_port (nc_P2PPort nc) = false ∧ bad_port (nc_RPCPort nc) = false ∧ 0 < nc_MaxPeers nc).
Proof.
  split; [apply validate_cases|]. split; [unfold ValidateConfig; by repeat case_match|].
  intros [H1 H2 H3 _ _ _ _ _]. cbn. unfold bad_port, port_ok in *.
  rewrite !andb_false_iff, !orb_false_iff, !Z.ltb_ge. lia.
Qed.

(** The environment keeps a configuration valid. Variables that are empty
    or cannot be read change nothing, numbers that must be positive stay
    positive; only a port out of range, a commission above 100 percent or an
    indexer without a data directory can break it. *)
Theorem env_keeps_valid getenv ParseDuration c :
  config_ok c → port_variable getenv "DSN_P2P_PORT" → port_variable getenv "DSN_RPC_PORT" → port_variable getenv "DSN_METRICS_PORT" →
  (∀ n, ParseUint 64 (getenv "DSN_VALIDATOR_COMMISSION_RATE") = Some n → n <= 10000) →
  (sg_DataDir (c_Storage c) = "" → getenv "DSN_DATA_DIR" = "" → getenv "DSN_INDEXER" ≠ "true" ∧ getenv "DSN_INDEXER" ≠ "1") →
  config_ok (LoadConfigFromEnv getenv ParseDuration (Some c)).
Proof.
  intros [H1 H2 H3 H4 H5 H6 H7 H8] Hp Hr Hm Hc Hi. unfold LoadConfigFromEnv. cbn [default]. split; cbn.
  - by apply env_port.
  - by apply env_pos_pos.
  - destruct (env_pos_value getenv "DSN_RPC_PORT" (rpc_Port (c_RPC c))) as [->|(_ & E & Hpos)]; [done|]. by apply Hr.
  - by apply env_port.
  - unfold env_string. destruct (decide (getenv "DSN_DATA_DIR" = "")) as [Hd|Hd]; [|by rewrite bool_decide_false].
    rewrite bool_decide_true by done. intros Hb Hs. destruct (Hi Hs Hd) as [Ht H1']. revert Hb. unfold env_bool.
    destruct (decide (getenv "DSN_INDEXER" = "")) as [He|He].
    + rewrite bool_decide_true by done. intros Hb. by apply H5.
    + by rewrite !bool_decide_false.
  - by apply env_pos_pos.
  - by apply env_pos_pos.
  - destruct (env_uint_value getenv 64 "DSN_VALIDATOR_COMMISSION_RATE" (vc_CommissionRate (c_Validator c))) as [->|E]; [done|]. by apply Hc.
Qed.

(** Numbers survive the environment: a variable that holds the decimal form
    of a number is read as that number, for every unsigned number of the width
    and for every signed 64-bit number. *)
Theorem decimal_variable_roundtrip n :
  (∀ bits, 0 <= n < 2 ^ bits → ParseUint bits (dec n) = Some n) ∧ (- 2 ^ 63 <= n < 2 ^ 63 → Atoi (dec n) = Some n).
Proof.
  split; [|apply parse_int_dec]. intros bits [H1 H2]. unfold ParseUint. rewrite parse_digits_dec by done. cbn [mbind option_bind].
  by rewrite (proj2 (Z.ltb_lt _ _)).
Qed.

(** The layers of the configuration may be merged in any grouping. *)
Lemma over_string_assoc a b c : over_string (over_string a b) c = over_string a (over_string b c).
Proof. unfold over_string. repeat case_bool_decide; congruence. Qed.
Lemma over_list_assoc a b c : over_list (over_list a b) c = over_list a (over_list b c).
Proof. unfold over_list. repeat case_bool_decide; congruence. Qed.
Lemma over_Z_assoc a b c : over_Z (over_Z a b) c = over_Z a (over_Z b c).
Proof. unfold over_Z. destruct (Z.eqb_spec c 0) as [->|Hc]; [|by rewrite (proj2 (Z.eqb_neq _ _) Hc)]. done. Qed.
Lemma over_pos_assoc a b c : over_pos (over_pos a b) c = over_pos a (over_pos b c).
Proof. unfold over_pos. destruct (Z.ltb_spec 0 c); [by rewrite (proj2 (Z.ltb_lt _ _))|]. done. Qed.

Theorem merge_associative a b c :
  MergeConfig (Some (MergeConfig (Some a) (Some b))) (Some c) = MergeConfig (Some a) (Some (MergeConfig (Some b) (Some c))).
Proof.
  unfold MergeConfig, merge_p2p, merge_rpc, merge_metrics, merge_storage, merge_snapshot, merge_validator, merge_logging, merge_chain. cbn.
  by rewrite !over_string_assoc, !over_list_assoc, !over_Z_assoc, !over_pos_assoc.
Qed.

(** The configuration file has no effect on a production node. [node start]
    has a flag of its own for the path, whose value is not used: whatever the
    files and the decoder, the node gets the settings of the defaults, the
    environment and the other flags. *)
Theorem config_file_ignored getenv ParseDuration files toml f nf path data :
  let files' := λ p, if bool_decide (p = path) then Some (Ok data) else files p in
  is_Some (files path) →
  node_config getenv ParseDuration files' toml (hide_flags f) (mkNodeFlags (nf_genesisFile nf) (nf_validatorKey nf) (nf_dataDir nf) path)
  = node_config getenv ParseDuration files toml (hide_flags f) nf.
Proof.
  intros files' Hp. unfold node_config, BuildConfig. cbn [hide_flags cf_configPath]. rewrite bool_decide_true by done. cbn [mbind res_bind].
  cbv zeta. cbn [nf_dataDir nf_validatorKey nf_genesisFile]. unfold wrap_res.
  destruct (ValidateConfig _) as [[]|e|]; [|done|done]. cbn [mbind res_bind]. case_bool_decide; [done|].
  set (p := c_GenesisFile _). replace (bool_decide (files' p = None)) with (bool_decide (files p = None)); [done|].
  apply bool_decide_ext. unfold files'. case_bool_decide as E; [|done]. destruct Hp as [r Hr]. rewrite E, Hr. done.
Qed.

(** Some settings of a production node cannot be changed: writes are never
    synchronous, the RPC port is never 0, and the indexer and fast sync are on
    only by flag. *)
Theorem fixed_settings getenv ParseDuration files toml f nf nc :
  node_config getenv ParseDuration files toml f nf = Ok nc →
  nc_FSync nc = false ∧ nc_VMTimeoutSeconds nc = 0 ∧ port_ok (nc_RPCPort nc)
  ∧ nc_IndexerEnabled nc = cf_indexer f ∧ nc_FastSyncEnabled nc = cf_fastSync f.
Proof.
  unfold node_config. destruct (BuildConfig getenv ParseDuration files toml f) as [c|e|] eqn:Eb; [|done|done]. cbn [mbind res_bind]. cbv zeta.
  match goal with |- context [ValidateConfig (Some ?c')] => destruct (ValidateConfig (Some c')) as [[]|e|] eqn:Ev end; [|done|done].
  cbn [wrap_res mbind res_bind]. case_bool_decide; [done|]. case_bool_decide; [done|]. intros [= <-]. apply validate_cases in Ev.
  split_and!; try done.
  - apply (co_rpc _ Ev).
  - revert Eb. unfold BuildConfig. destruct (if bool_decide _ then _ else _) as [c0|e|]; [|done|done]. by intros [= <-].
  - revert Eb. unfold BuildConfig. destruct (if bool_decide _ then _ else _) as [c0|e|]; [|done|done]. by intros [= <-].
Qed.

(** A file that cannot be read or decoded counts as no file. *)
Theorem bad_config_file_ignored getenv ParseDuration files toml f e :
  LoadConfig files toml (cf_configPath f) = Err e →
  BuildConfig getenv ParseDuration files toml f
  = Ok (applyCLIFlags f (LoadConfigFromEnv getenv ParseDuration (Some DefaultConfig))).
Proof. intros E. unfold BuildConfig. case_bool_decide; [done|]. by rewrite E. Qed.

(** *** Lists of peers *)

(** A visible ASCII character other than the comma. *)
Definition visible (b : byte) : bool := (33 <=? b2z b) && (b2z b <=? 126) && negb (b2z b =? 44).

Definition starts_invisible (e : bytes) : bool := match e with b :: _ => negb (visible b) | [] => false end.

Lemma strip_visible fuel spaces (l : bytes) :
  forallb starts_invisible spaces = true → Forall (λ b, visible b = true) l → strip fuel spaces l = l.
Proof.
  intros Hs Hl. destruct fuel as [|fuel]; [done|]. cbn [strip]. unfold strip_one.
  replace (omap _ spaces) with ([] : list bytes); [done|]. symmetry.
  induction spaces as [|e spaces IH]; [done|]. cbn [forallb] in Hs. apply andb_true_iff in Hs as [He Hs].
  cbn [omap list_omap]. rewrite bool_decide_false; [by apply IH|]. intros E. destruct e as [|b e]; [done|]. cbn [length take] in E.
  destruct l as [|c l]; [done|]. injection E as -> _. apply Forall_cons_1 in Hl as [Hv _]. cbn [starts_invisible] in He. by rewrite Hv in He.
Qed.

Lemma trim_visible s : Forall (λ b, visible b = true) (str_bytes s) → TrimSpace s = s.
Proof.
  intros Hs. unfold TrimSpace. rewrite (strip_visible _ space_encodings) by (reflexivity || exact Hs). cbv zeta.
  rewrite strip_visible; [by rewrite reverse_involutive, bytes_str_bytes|reflexivity|by apply Forall_reverse].
Qed.

Lemma split_visible (l r cur : bytes) :
  Forall (λ b, visible b = true) l → split_commas (l ++ r) cur = split_commas r (cur ++ l).
Proof.
  intros Hl. revert cur. induction Hl as [|b l Hb _ IH]; intros cur; [by rewrite app_nil_r|].
  transitivity (split_commas (l ++ r) (cur ++ [b])); [by destruct b|]. by rewrite IH, <- app_assoc.
Qed.

Fixpoint join_commas (l : list bytes) : bytes :=
  match l with
  | [] => []
  | [p] => p
  | p :: l => p ++ x2c :: join_commas l
  end.

Lemma split_join l : l ≠ [] → Forall (Forall (λ b, visible b = true)) l → split_commas (join_commas l) [] = l.
Proof.
  intros Hne Hl. induction l as [|p l IH]; [done|]. apply Forall_cons_1 in Hl as [Hp Hl]. destruct l as [|q l].
  - cbn [join_commas]. rewrite <- (app_nil_r p) at 1. by rewrite split_visible.
  - change (join_commas (p :: q :: l)) with (p ++ x2c :: join_commas (q :: l)). rewrite split_visible by done.
    change (split_commas (x2c :: join_commas (q :: l)) ([] ++ p)) with (p :: split_commas (join_commas (q :: l)) []). by rewrite IH.
Qed.

(** A list of peer addresses written with commas between them is read back:
    for addresses of visible characters without commas, each nonempty. *)
Theorem bootstrap_peers_roundtrip (peers : list string) :
  Forall (λ p, p ≠ "" ∧ Forall (λ b, visible b = true) (str_bytes p)) peers →
  parseBootstrapPeers (bytes_str (join_commas (str_bytes <$> peers))) = peers.
Proof.
  intros Hp. destruct (decide (peers = [])) as [->|Hne]; [done|]. unfold parseBootstrapPeers, Split.
  rewrite str_bytes_str, split_join.
  2:{ destruct peers; done. }
  2:{ apply Forall_fmap. eapply Forall_impl; [exact Hp|]. by intros p []. }
  rewrite bool_decide_false.
  - clear Hne. induction Hp as [|p peers [Hpne Hv] _ IH]; [done|]. cbn [fmap list_fmap List.filter].
    rewrite bytes_str_bytes, trim_visible by done. rewrite bool_decide_false by done. cbn [negb]. by rewrite IH.
  - intros E. destruct peers as [|p peers]; [done|]. apply Forall_cons_1 in Hp as [[Hpne _] _].
    apply (f_equal str_bytes) in E. rewrite str_bytes_str in E. destruct p as [|c p]; [done|]. by destruct peers.
Qed.

Lemma bootstrap_peers_roundtrip_witness : parseBootstrapPeers "10.0.0.1:30303,10.0.0.2:30303" = ["10.0.0.1:30303"; "10.0.0.2:30303"].
Proof.
  apply (bootstrap_peers_roundtrip ["10.0.0.1:30303"; "10.0.0.2:30303"]). apply (bool_decide_unpack _). vm_compute. exact I.
Defined.

(** ** Examples *)

Definition sample_env (name : string) : string :=
  if bool_decide (name = "DSN_P2P_PORT") then "30303" else
  if bool_decide (name = "DSN_MEMPOOL_SIZE") then "-5" else
  if bool_decide (name = "DSN_INDEXER") then "1" else
  if bool_decide (name = "DSN_DATA_DIR") then "/var/lib/dsn" else "".

Lemma default_config_ok : config_ok DefaultConfig.
Proof. apply validate_cases. reflexivity. Qed.

Lemma env_keeps_valid_witness : config_ok (LoadConfigFromEnv sample_env (λ _, None) (Some DefaultConfig)).
Proof.
  apply (env_keeps_valid sample_env (λ _, None) DefaultConfig default_config_ok).
  - intros n E _. vm_compute in E. injection E as <-. by vm_compute.
  - intros n E _. by vm_compute in E.
  - intros n E _. by vm_compute in E.
  - intros n E. by vm_compute in E.
  - done.
Defined.

Definition sample_files (p : string) : option (res bytes) :=
  if bool_decide (p = "genesis.json") then Some (Ok []) else if bool_decide (p = "node.toml") then Some (Ok []) else None.

Lemma config_file_ignored_witness :
  node_config sample_env (λ _, None) (λ p, if bool_decide (p = "node.toml") then Some (Ok [x2d]) else sample_files p)
    (λ _ _, Err EOF) (hide_flags no_flags) (mkNodeFlags "genesis.json" "" "" "node.toml")
  = Ok (mkNodeConfig 0 "/var/lib/dsn" 10000 (300 * second) 8545 30303 100 (5 * second) "genesis.json" "validator_key.json" 50 9464 false 10
          false 0 "" [] 0 false).
Proof.
  etransitivity.
  - apply (config_file_ignored sample_env (λ _, None) sample_files (λ _ _, Err EOF) no_flags (mkNodeFlags "genesis.json" "" "" "") "node.toml" [x2d]).
    by eexists.
  - vm_compute. reflexivity.
Defined.
