(* ===== verification/Devnet.v ===== *)
(** * The local network (cmd/dsn/devnet.go)

    One node that produces a block at every tick, with a faucet that sends
    tokens from the account of the only validator. The JSON text of the
    transaction that the faucet submits is read back as it was written; the
    servers, the metrics and the log are left out. The hasher of blocks is a
    parameter, as in Node.v. [SplitHostPort] is the function of package net. *)

From S2P Require Import Prelude Codec Sha256 Address Amount Tx Votes Block Smt Store Keys State.
From S2P Require Import Applier Registry Epoch Voting System BlockExec Gossip Bolt Persist Mempool Genesis Node Client Rpc Config.

(** ** The faucet *)

(** Times are nanoseconds. *)
Record FaucetConfig := mkFaucetConfig {
  fc_Amount : Z;
  fc_RateLimitSecs : Z;
}.

Record DevnetFaucet := mkDevnetFaucet {
  df_lastRequest : gmap string Z;
  df_rateLimitSec : Z;
  df_amount : Z;
  df_signer : KeyPair;
}.

Definition NewDevnetFaucet (key : KeyPair) (cfg : FaucetConfig) : DevnetFaucet :=
  mkDevnetFaucet ∅ (fc_RateLimitSecs cfg) (fc_Amount cfg) key.

(** The configuration that [runDevnet] uses: 60 is a duration. *)
Definition faucetCfg : FaucetConfig := mkFaucetConfig 100 60.

Definition with_requests (m : gmap string Z) (f : DevnetFaucet) : DevnetFaucet :=
  mkDevnetFaucet m (df_rateLimitSec f) (df_amount f) (df_signer f).

Definition minute : Z := 60 * second.

(** One turn of [cleanupOldEntries]. *)
Definition cleanup (now : Z) (f : DevnetFaucet) : DevnetFaucet :=
  with_requests (filter (λ e, now - e.2 <= 10 * minute) (df_lastRequest f)) f.

Definition rate_limited (f : DevnetFaucet) (ip : string) (now : Z) : bool :=
  match df_lastRequest f !! ip with
  | Some lastReq => now - lastReq <? df_rateLimitSec f
  | None => false
  end.

(** The first address in the header, or else the host of the connection. *)
Definition getClientIP (SplitHostPort : string → option string) (xff remoteAddr : string) : string :=
  match head (List.filter (λ ip, negb (bool_decide (ip = ""))) (if bool_decide (xff = "") then [] else TrimSpace <$> Split xff)) with
  | Some ip => ip
  | None => default remoteAddr (SplitHostPort remoteAddr)
  end.

(** [hr_Body]: the address in the body, if it can be decoded. *)
Record http_request := mkHttpRequest {
  hr_Method : string;
  hr_ForwardedFor : string;
  hr_RemoteAddr : string;
  hr_Body : res string;
}.

(** The readings of the clock, the ones for timestamps in seconds. *)
Record faucet_clock := mkFaucetClock {
  fk_since : Z;
  fk_request : Z;
  fk_signed : Z;
  fk_sent : Z;
  fk_rpc : Rpc.Clock;
}.

Inductive faucet_reply :=
  | MethodNotAllowed
  | Refused (e : error)
  | Sent (txHash amount : string).

(** The transaction that is signed. *)
Definition faucet_tx (f : DevnetFaucet) (addr : Address) (nonce timestamp : Z) : Transaction :=
  {| tx_Version := 0; tx_ChainID := 0; tx_IntentID := ZeroHash; tx_Sender := KeyPair_Address (df_signer f); tx_Nonce := nonce;
     tx_Payload := addr ++ be 8 (df_amount f); tx_Constraints := []; tx_MaxFee := 1000; tx_GasLimit := 21000;
     tx_Timestamp := timestamp; tx_Signature := []; tx_TxType := TxTypeStandard |}.

(** The transaction that is submitted; the service does not read the intent id. *)
Definition faucet_json (f : DevnetFaucet) (tx : Transaction) (timestamp : Z) (signature : bytes) : RawTx :=
  {| raw_Sender := Address_String (KeyPair_Address (df_signer f)); raw_Nonce := tx_Nonce tx; raw_ChainID := 0;
     raw_Payload := hex (tx_Payload tx); raw_Constraints := ""; raw_GasLimit := 21000; raw_MaxFee := 1000;
     raw_Timestamp := timestamp; raw_Signature := hex signature; raw_TxType := 0 |}.

(** ** The network *)

Record Devnet (DB : Type) := mkDevnet {
  dn_node : Node DB;
  dn_faucet : DevnetFaucet;
  dn_height : Z;
  dn_prevHash : Hash;
}.
Arguments mkDevnet {_} _ _ _ _.
Arguments dn_node {_} _.
Arguments dn_faucet {_} _.
Arguments dn_height {_} _.
Arguments dn_prevHash {_} _.

Section devnet.
Context {DB Tx_ : Type} `{BoltDB DB Tx_} `{Hasher} `{Ed25519}.
Abbreviation Node := (Node DB).
Abbreviation Devnet := (Devnet DB).

Definition with_node (n : Node) (d : Devnet) : Devnet := mkDevnet n (dn_faucet d) (dn_height d) (dn_prevHash d).
Definition with_faucet (f : DevnetFaucet) (d : Devnet) : Devnet := mkDevnet (dn_node d) f (dn_height d) (dn_prevHash d).
Definition with_position (height : Z) (prevHash : Hash) (d : Devnet) : Devnet := mkDevnet (dn_node d) (dn_faucet d) height prevHash.

Definition on_node {A} : go Node A → go Devnet A := zoom dn_node with_node.

(** The account of the validator and its wallet; the error of [SetAccount] is
    ignored. *)
Definition setup (key : KeyPair) : go Node unit :=
  ignore (acc ← lift (AddBalance (NewAmount 1000000) (NewAccount (KeyPair_Address key) (kp_PublicKey key)));
          on_state (SetAccount (KeyPair_Address key) (Fresh acc)));;
  wrap "failed to commit genesis state" (CommitState);;
  modify (SetWallet key).

Definition faucet_submit (ck : faucet_clock) (addr : Address) (nonce : Z) : go Devnet faucet_reply :=
  f ← gets dn_faucet;
  let tx := faucet_tx f addr nonce (u64 (fk_signed ck)) in
  match ComputeIntentID (H := SHA256Hasher) tx with
  | Panic => gopanic
  | Err _ => mret (Refused (Errorf "failed to compute intent ID"))
  | Ok intentID =>
      match SignHash (df_signer f) intentID with
      | Panic => gopanic
      | Err _ => mret (Refused (Errorf "failed to sign transaction"))
      | Ok signature =>
          r ← try (on_node (nodeService_SendTransaction (fk_rpc ck) (Ok (faucet_json f tx (u64 (fk_sent ck)) signature))));
          mret match r with
               | inl e => Refused e
               | inr txHash => Sent txHash (dec (df_amount f) +:+ " DSN")
               end
      end
  end.

(** The part of the handler after the rate limit. *)
Definition faucet_serve (ck : faucet_clock) (req : http_request) : go Devnet faucet_reply :=
  match hr_Body req with
  | Panic => gopanic
  | Err _ => mret (Refused (Errorf "invalid request body"))
  | Ok address =>
      if bool_decide (address = "") then mret (Refused (Errorf "address is required")) else
      match ParseAddress address with
      | Panic => gopanic
      | Err _ => mret (Refused (Errorf "invalid address format"))
      | Ok addr =>
          f ← gets dn_faucet;
          account ← try (on_node (nodeService_GetAccount (Address_String (KeyPair_Address (df_signer f)))));
          match account with
          | inl _ => mret (Refused (Errorf "failed to get account nonce"))
          | inr account => faucet_submit ck addr (u64 (ar_Nonce account + 1))
          end
      end
  end.

Definition HandleFaucet (SplitHostPort : string → option string) (ck : faucet_clock) (req : http_request) : go Devnet faucet_reply :=
  if negb (bool_decide (hr_Method req = "POST")) then mret MethodNotAllowed else
  let ip := getClientIP SplitHostPort (hr_ForwardedFor req) (hr_RemoteAddr req) in
  f ← gets dn_faucet;
  if rate_limited f ip (fk_since ck) then mret (Refused (Errorf "rate limited")) else
  modify (with_faucet (with_requests (<[ip := fk_request ck]> (df_lastRequest f)) f));;
  faucet_serve ck req.

(** ** Producing blocks *)

(** [BuildBlock] without a virtual machine, signed with the key of the
    validator. The pool drops what has expired once the block has begun. *)
Definition devnet_build (ck : Node.Clock) (key : KeyPair) (height : Z) (prevHash : Hash) : go Node Block := λ n,
  let '(mp, pending) := PendingTxs (Node.ck_expire ck) (Node.ck_list ck) (nd_mempool n) in
  match pending with
  | Err e => (with_mempool mp n, Err e)
  | Panic => (with_mempool mp n, Panic)
  | Ok pending =>
      let '(s, r) := BuildBlock None (ck_txs ck) (ck_block ck) (ck_header ck) pending height prevHash
                       (KeyPair_Address key) (SignHash key) 100 [] (nd_state n) in
      match (BeginBlock height (nd_state n)).2 with
      | Ok _ => (with_mempool mp (with_state s n), r)
      | _ => (with_state s n, r)
      end
  end.

(** One tick; errors are logged and the same height is tried again. *)
Definition produce (ck : Node.Clock) : go Devnet (option Block) :=
  d ← gets id;
  block ← try (on_node (devnet_build ck (df_signer (dn_faucet d)) (dn_height d) (dn_prevHash d)));
  match block with
  | inl _ => mret None
  | inr block =>
      committed ← try (on_node (CommitState));
      match committed, HeaderHash (b_Header block) with
      | inl _, _ | inr _, Err _ => mret None
      | inr _, Panic => gopanic
      | inr _, Ok blockHash =>
          on_node (clean_mempool (b_Transactions block));;
          modify (with_position (u64 (dn_height d + 1)) blockHash);;
          mret (Some block)
      end
  end.

(** What happens to a network while it runs. *)
Inductive event :=
  | Tick (ck : Node.Clock)
  | FaucetRequest (ck : faucet_clock) (req : http_request)
  | Cleanup (now : Z).

Definition handle (SplitHostPort : string → option string) (e : event) : go Devnet (option Block) :=
  match e with
  | Tick ck => produce ck
  | FaucetRequest ck req => HandleFaucet SplitHostPort ck req;; mret None
  | Cleanup now => modify (λ d, with_faucet (cleanup now (dn_faucet d)) d);; mret None
  end.

(** The blocks of a run, in the order in which they were produced. *)
Fixpoint run (SplitHostPort : string → option string) (l : list event) : go Devnet (list Block) :=
  match l with
  | [] => mret []
  | e :: l =>
      block ← handle SplitHostPort e;
      blocks ← run SplitHostPort l;
      mret (match block with Some b => b :: blocks | None => blocks end)
  end.
End devnet.

(** ** Lemmas *)

(** Each block continues the one before; [q] is the hash of the last one. *)
Fixpoint linked `{Hasher} (p : Hash) (l : list Block) (q : Hash) : Prop :=
  match l with
  | [] => q = p
  | b :: l => h_PreviousHash (b_Header b) = p ∧ ∃ h, HeaderHash (b_Header b) = Ok h ∧ linked h l q
  end.

Section chain.
Context {DB Tx_ : Type} `{BoltDB DB Tx_} `{Hasher} `{Ed25519}.
Abbreviation Node := (Node DB).
Abbreviation Devnet := (Devnet DB).
Implicit Types d : Devnet.

Lemma BuildBlock_header vm clock ts ht pending height prev proposer sign max evidence s s' b :
  BuildBlock vm clock ts ht pending height prev proposer sign max evidence s = (s', Ok b) →
  h_Height (b_Header b) = height ∧ h_PreviousHash (b_Header b) = prev ∧ h_Proposer (b_Header b) = proposer.
Proof.
  unfold BuildBlock. intros E. apply go_bind_inv in E as (s1 & u1 & _ & E).
  apply go_bind_inv in E as (s2 & [epoch set] & _ & E). cbv beta iota in E.
  apply go_bind_inv in E as (s3 & [[fees rs] es] & _ & E). cbv beta iota in E.
  apply go_bind_inv in E as (s4 & u2 & _ & E). apply go_bind_inv in E as (s5 & root & _ & E).
  apply go_bind_inv in E as (s6 & vals & _ & E). cbv zeta in E. apply go_bind_inv in E as (s7 & hh & _ & E).
  apply go_bind_inv in E as (s8 & sig & _ & E). injection E as _ <-. done.
Qed.

Lemma devnet_build_header ck key height prev (n n' : Node) b :
  devnet_build ck key height prev n = (n', Ok b) →
  h_Height (b_Header b) = height ∧ h_PreviousHash (b_Header b) = prev ∧ h_Proposer (b_Header b) = KeyPair_Address key.
Proof.
  unfold devnet_build. destruct (PendingTxs _ _ _) as [mp [pending| |]]; [|done..].
  destruct (BuildBlock _ _ _ _ _ _ _ _ _ _ _ _) as [s r] eqn:Eb. destruct (BeginBlock height (nd_state n)).2; intros E.
  all: assert (r = Ok b) as -> by congruence; by apply BuildBlock_header in Eb.
Qed.

(** A call on the node leaves the rest as it is. *)
Lemma on_node_inv {A} (m : go Node A) d d' r :
  on_node m d = (d', r) → ∃ n, m (dn_node d) = (n, r) ∧ d' = with_node n d.
Proof. unfold on_node, zoom. destruct (m (dn_node d)) as [n r']. intros [= <- <-]. by exists n. Qed.

(** What one tick does to the position. *)
Lemma produce_inv ck d d' r :
  produce ck d = (d', Ok r) → dn_faucet d' = dn_faucet d ∧
  match r with
  | Some b => h_Height (b_Header b) = dn_height d ∧ h_PreviousHash (b_Header b) = dn_prevHash d ∧
      h_Proposer (b_Header b) = KeyPair_Address (df_signer (dn_faucet d)) ∧
      dn_height d' = u64 (dn_height d + 1) ∧ HeaderHash (b_Header b) = Ok (dn_prevHash d')
  | None => dn_height d' = dn_height d ∧ dn_prevHash d' = dn_prevHash d
  end.
Proof.
  unfold produce. intros E. apply go_bind_inv in E as (d0 & d00 & [= <- <-] & E).
  apply go_bind_inv in E as (d1 & b & Eb & E). unfold id in *. unfold try in Eb.
  destruct (on_node _ d) as [d1' r1] eqn:E1. apply on_node_inv in E1 as (n1 & E1 & ->).
  destruct r1 as [blk|e|]; [|by injection Eb as <- <-; injection E as <- <-|done]. injection Eb as <- <-.
  apply devnet_build_header in E1 as (Hh & Hp & Hq).
  apply go_bind_inv in E as (d2 & c & Ec & E). unfold try in Ec.
  destruct (on_node CommitState _) as [d2' r2] eqn:E2. apply on_node_inv in E2 as (n2 & _ & ->).
  destruct r2 as [root|e|]; [|by injection Ec as <- <-; injection E as <- <-|done]. injection Ec as <- <-.
  destruct (HeaderHash (b_Header blk)) as [hh|e|] eqn:Ehh; [|by injection E as <- <-|done].
  apply go_bind_inv in E as (d3 & u & E3 & E). apply on_node_inv in E3 as (n3 & _ & ->).
  injection E as <- <-. done.
Qed.

(** A step that leaves the faucet and the position of the network alone. *)
Definition stays d d' : Prop :=
  dn_height d' = dn_height d ∧ dn_prevHash d' = dn_prevHash d ∧ dn_faucet d' = dn_faucet d.

#[local] Instance stays_preorder : PreOrder stays.
Proof.
  split; [by intros d|]. intros d1 d2 d3 (E1 & E2 & E3) (F1 & F2 & F3). unfold stays. by rewrite F1, F2, F3.
Qed.

Lemma stays_on_node {A} (m : go Node A) : preserves stays (on_node m).
Proof. intros d. destruct (on_node m d) as [d' r] eqn:E. apply on_node_inv in E as (n & _ & ->). done. Qed.

Lemma faucet_submit_stays ck addr nonce : preserves stays (faucet_submit ck addr nonce).
Proof.
  unfold faucet_submit. apply preserves_bind; [exact _|apply preserves_gets; exact _|]. intros f. cbv zeta.
  destruct (ComputeIntentID _); [|by intros d|by intros d]. destruct (SignHash _ _); [|by intros d|by intros d].
  apply preserves_bind; [exact _|apply preserves_try, stays_on_node|]. by intros r d.
Qed.

Lemma faucet_serve_stays ck req : preserves stays (faucet_serve ck req).
Proof.
  unfold faucet_serve. destruct (hr_Body req) as [address| |]; [|by intros d|by intros d].
  destruct (bool_decide _); [by intros d|]. destruct (ParseAddress address) as [addr| |]; [|by intros d|by intros d].
  apply preserves_bind; [exact _|apply preserves_gets; exact _|]. intros f.
  apply preserves_bind; [exact _|apply preserves_try, stays_on_node|]. intros [e|account]; [by intros d|]. apply faucet_submit_stays.
Qed.

(** The faucet remembers the client if it was not limited. *)
Lemma HandleFaucet_requests Split ck req d d' r :
  HandleFaucet Split ck req d = (d', r) →
  let f := dn_faucet d in
  let ip := getClientIP Split (hr_ForwardedFor req) (hr_RemoteAddr req) in
  dn_height d' = dn_height d ∧ dn_prevHash d' = dn_prevHash d ∧
  dn_faucet d' = if bool_decide (hr_Method req = "POST") && negb (rate_limited f ip (fk_since ck))
                 then with_requests (<[ip := fk_request ck]> (df_lastRequest f)) f else f.
Proof.
  intros E f ip. unfold HandleFaucet in E. destruct (bool_decide _); cbn [negb andb] in *; [|by injection E as <- _]. cbv zeta in E.
  rewrite (go_bind_ok _ _ d d f) in E by done. fold ip in E. destruct (rate_limited f ip (fk_since ck)); cbn [negb] in *; [by injection E as <- _|].
  set (d1 := with_faucet (with_requests (<[ip := fk_request ck]> (df_lastRequest f)) f) d) in E.
  rewrite (go_bind_ok _ _ d d1 tt) in E by done. pose proof (faucet_serve_stays ck req d1) as Hs. rewrite E in Hs. exact Hs.
Qed.

(** One event either produces the next block or keeps the position. *)
Lemma handle_inv Split e d d' r :
  handle Split e d = (d', Ok r) → df_signer (dn_faucet d') = df_signer (dn_faucet d) ∧
  match r with
  | Some b => h_Height (b_Header b) = dn_height d ∧ h_PreviousHash (b_Header b) = dn_prevHash d ∧
      h_Proposer (b_Header b) = KeyPair_Address (df_signer (dn_faucet d)) ∧
      dn_height d' = u64 (dn_height d + 1) ∧ HeaderHash (b_Header b) = Ok (dn_prevHash d')
  | None => dn_height d' = dn_height d ∧ dn_prevHash d' = dn_prevHash d
  end.
Proof.
  destruct e as [ck|ck req|now]; cbn [handle].
  - intros [-> E]%produce_inv. done.
  - intros E. apply go_bind_inv in E as (d1 & rep & E1 & E). injection E as <- <-.
    apply HandleFaucet_requests in E1 as (Hh & Hp & Hk). split; [|done]. rewrite Hk. by destruct (_ && _).
  - intros E. injection E as <- <-. done.
Qed.
End chain.

(** *** What the service makes of the transaction *)

Lemma Address_String_plain (a : Address) : starts0x (Address_String a) = false.
Proof.
  unfold starts0x, Address_String, base58CheckEncode, base58Encode. cbn [app fmap list_fmap count_leading].
  change (b2z x00 =? 0) with true. cbn [replicate app]. by rewrite str_bytes_str.
Qed.

Lemma stripHexPrefix_hex (l : bytes) : stripHexPrefix (hex l) = str_bytes (hex l).
Proof.
  unfold stripHexPrefix. destruct l as [|b l]; [done|].
  change (str_bytes (hex (b :: l)))
    with (Ascii.byte_of_ascii (hex_char (b2z b / 16)) :: Ascii.byte_of_ascii (hex_char (b2z b mod 16)) :: str_bytes (hex l)).
  pose proof (hex_digit_char (b2z b mod 16) (proj2 (nibbles b))) as Hd. revert Hd.
  generalize (Ascii.byte_of_ascii (hex_char (b2z b mod 16))) as y, (Ascii.byte_of_ascii (hex_char (b2z b / 16))) as x.
  intros y x Hd. destruct x; try done. destruct y; try done.
Qed.

Lemma hex_field_hex what (l : bytes) : hex_field what (hex l) = Ok l.
Proof. unfold hex_field. by rewrite stripHexPrefix_hex, hex_decode_hex. Qed.

Lemma hex_optional_hex what (l : bytes) : l ≠ [] → hex_optional what (hex l) = Ok l.
Proof.
  intros Hl. unfold hex_optional. rewrite bool_decide_eq_false_2; [apply hex_field_hex|].
  destruct l; [done|]. discriminate.
Qed.

(** The transaction that the service puts together. *)
Definition paid_tx (f : DevnetFaucet) (to : Address) (nonce timestamp : Z) (signature : bytes) : Transaction :=
  {| tx_Version := 0; tx_ChainID := 0; tx_IntentID := Sum256 (intent_preimage (faucet_tx f to nonce timestamp));
     tx_Sender := KeyPair_Address (df_signer f); tx_Nonce := nonce; tx_Payload := to ++ be 8 (df_amount f); tx_Constraints := [];
     tx_MaxFee := 1000; tx_GasLimit := 21000; tx_Timestamp := timestamp; tx_Signature := signature; tx_TxType := TxTypeStandard |}.

Lemma faucet_json_read f to nonce signed sent signature :
  transaction_of (faucet_json f (faucet_tx f to nonce signed) sent signature) = Ok (paid_tx f to nonce sent signature).
Proof.
  unfold transaction_of, faucet_json. cbn [raw_Sender raw_Signature raw_Payload raw_Constraints faucet_tx tx_Payload].
  unfold sender_of. rewrite Address_String_plain, Address_String_parse. cbn [wrap_res mbind res_bind].
  rewrite hex_field_hex. cbn [mbind res_bind].
  rewrite hex_optional_hex by (intros E%(f_equal length); rewrite length_app, arr_length in E; cbn in E; lia). done.
Qed.

(** The pool takes a transaction that passes its checks. *)
Lemma Submit_admitted {DB Tx_} `{BoltLaws DB Tx_, !BoltReliable DB Tx_} `{Ed25519} state nowUnix now tx buf (mp : Mempool DB) :
  pool_ok mp → admit_tx state nowUnix mp tx = Ok tt → encode_bytes (Transaction_Encode tx) = Ok buf →
  Z.of_nat (length buf) <= MaxValueSize →
  ∃ mp', Submit state nowUnix now tx mp = (mp', Ok tt) ∧ mp_txs mp' !! tx_IntentID tx = Some (mkPendingTx tx now).
Proof.
  intros Hok Ha Hb Hl. unfold Submit. rewrite Ha. cbn [inserted mp_db].
  destruct (mp_db mp) as [db|] eqn:Edb; [|eexists; split; [done|]; cbn; apply lookup_insert_eq].
  rewrite Hb. destruct (po_db _ Hok _ Edb) as [[m Hm] _].
  destruct (Put_ok pendingTxsBucket (tx_IntentID tx) buf (db_begin db) m) as (t & Ht & _); [done| |].
  { split; [rewrite arr_length|done]. split; unfold MaxKeySize; lia. }
  destruct (Update_ok _ db t tt Ht) as (db' & Hu & _). rewrite Hu. eexists. split; [done|]. cbn. apply lookup_insert_eq.
Qed.

Lemma encoded_length (tx : Transaction) :
  Transaction_wf tx →
  ∃ buf, encode_bytes (Transaction_Encode tx) = Ok buf ∧
    Z.of_nat (length buf) <= 400 + Z.of_nat (length (tx_Payload tx)) + Z.of_nat (length (tx_Constraints tx)).
Proof.
  intros (Hv & Hc & Hn & Hp & Hk & Hf & Hg & Ht & Hs & Hy).
  assert (∃ buf, emits (Transaction_Encode tx) buf ∧
    Z.of_nat (length buf) <= 400 + Z.of_nat (length (tx_Payload tx)) + Z.of_nat (length (tx_Constraints tx))) as (buf & He & Hl).
  { eexists. unfold Transaction_Encode. rewrite u8_len by done. split; [emit|].
    rewrite !length_app, !length_be, !arr_length. lia. }
  exists buf. split; [by apply encode_bytes_emits|done].
Qed.

Lemma Validate_no_panic now tx : Transaction_Validate now tx ≠ Panic.
Proof. unfold Transaction_Validate, ValidateTimestamp. by repeat case_match. Qed.

(** A standard transaction with another nonce than the pool expects is
    refused. *)
Lemma send_refused {DB Tx_} `{BoltDB DB Tx_} `{Ed25519} ck raw tx m (n : Node DB) :
  transaction_of raw = Ok tx → tx_TxType tx = TxTypeStandard →
  mp_nextNonce (nd_mempool n) !! tx_Sender tx = Some m → m ≠ 0 → tx_Nonce tx ≠ u64 (m + 1) →
  ∃ e, nodeService_SendTransaction ck (Ok raw) n = (n, Err e).
Proof.
  intros Ht Hty Hm Hm0 Hne. unfold nodeService_SendTransaction. rewrite (go_bind_ok _ _ n n raw) by done.
  rewrite (go_bind_ok _ _ n n tx) by (unfold lift; by rewrite Ht).
  destruct (Transaction_Validate (ck_validate ck) tx) as [[]|e|] eqn:Ev; [|by eexists|by destruct (Validate_no_panic _ _ Ev)].
  rewrite (go_bind_ok _ _ n n tt) by done.
  assert (∃ e, admit_tx (accounts (pool_state n)) (ck_submit ck) (nd_mempool n) tx = Err e) as (e & He).
  { unfold admit_tx. destruct (Transaction_Validate (ck_submit ck) tx) as [[]|e|] eqn:Ev2; [|by eexists|by destruct (Validate_no_panic _ _ Ev2)].
    cbn [mbind res_bind]. unfold check_payload. rewrite Hty. cbn [mbind res_bind]. 
    destruct (mp_maxSize _ <=? _); [by eexists|]. destruct (bool_decide _); [by eexists|].
    unfold expected_nonce. rewrite Hm. cbn [default from_option id]. rewrite (proj2 (Z.eqb_neq m 0)) by done. cbn [mbind res_bind].
    rewrite (proj2 (Z.eqb_neq _ _)) by done. by eexists. }
  exists (Wrapf "failed to submit transaction to mempool" e). unfold mbind, go_bind, wrap, SubmitTx, on_pool, zoom, Submit. rewrite He.
  by destruct n.
Qed.

(** What the faucet needs for a payment of its amount to [to]. *)
Record faucet_ready {DB Tx_} `{BoltDB DB Tx_} `{Ed25519} (ck : faucet_clock) (to : Address) (acc : Account) (d : Devnet DB) : Prop := {
  fy_account : accounts (nd_state (dn_node d)) !! KeyPair_Address (df_signer (dn_faucet d)) = Some acc;
  fy_key : ∀ hash : Hash, ed25519_Verify (acc_PublicKey acc) hash (ed25519_Sign (kp_PrivateKey (df_signer (dn_faucet d))) hash) = true;
  fy_length : ∀ hash : Hash, 0 < Z.of_nat (length (ed25519_Sign (kp_PrivateKey (df_signer (dn_faucet d))) hash)) <= 255;
  fy_nonce : 0 <= acc_Nonce acc < 2 ^ 64 - 1;
  fy_state : nd_pool_state (dn_node d) = None;
  fy_pool : pool_ok (nd_mempool (dn_node d));
  fy_room : Z.of_nat (size (mp_txs (nd_mempool (dn_node d)))) < mp_maxSize (nd_mempool (dn_node d));
  fy_idle : default (acc_Nonce acc) (mp_nextNonce (nd_mempool (dn_node d)) !! KeyPair_Address (df_signer (dn_faucet d))) = acc_Nonce acc;
  fy_new : mp_txs (nd_mempool (dn_node d))
    !! Sum256 (KeyPair_Address (df_signer (dn_faucet d)) ++ be 8 (acc_Nonce acc + 1) ++ to ++ be 8 (df_amount (dn_faucet d))) = None;
  fy_validate : ValidateTimestamp (ck_validate (fk_rpc ck)) (u64 (fk_sent ck)) = Ok tt;
  fy_submit : ValidateTimestamp (ck_submit (fk_rpc ck)) (u64 (fk_sent ck)) = Ok tt;
  fy_amount : is_u64 (df_amount (dn_faucet d));
  fy_balance : df_amount (dn_faucet d) + 1000 <= acc_Balance acc;
}.

Section payment.
Context {DB Tx_ : Type} `{BoltLaws DB Tx_, !BoltReliable DB Tx_} `{Ed25519}.
Context (ck : faucet_clock) (to : Address) (acc : Account) (d : Devnet DB) (Hr : faucet_ready ck to acc d).

Definition payment : Transaction :=
  let f := dn_faucet d in
  let nonce := acc_Nonce acc + 1 in
  paid_tx f to nonce (u64 (fk_sent ck))
    (ed25519_Sign (kp_PrivateKey (df_signer f)) (Sum256 (intent_preimage (faucet_tx f to nonce 0)))).

Lemma payment_valid now : ValidateTimestamp now (u64 (fk_sent ck)) = Ok tt → Transaction_Validate now payment = Ok tt.
Proof.
  intros Ht. destruct Hr as [_ _ Hl Hn _ _ _ _ _ _ _ _ _]. unfold Transaction_Validate, payment, paid_tx. cbn.
  rewrite arr_length, bool_decide_eq_true_2 by done. cbn [negb]. rewrite (proj2 (Z.eqb_neq _ _)) by lia.
  rewrite bool_decide_eq_false_2; [by rewrite Ht|]. intros E. specialize (Hl (Sum256 (intent_preimage (faucet_tx (dn_faucet d) to (acc_Nonce acc + 1) 0)))).
  lia.
Qed.

Lemma payment_wf : Transaction_wf payment.
Proof.
  destruct Hr as [_ _ Hl Hn _ _ _ _ _ _ _ _ _]. unfold Transaction_wf, payment, paid_tx. cbn -[be length Z.pow].
  rewrite length_app, arr_length, length_be. unfold fits, MaxVarBytesLength.
  change (256 ^ Z.of_nat 8) with (2 ^ 64). change (length (@nil byte)) with 0%nat.
  pose proof (u64_is_u64 (fk_sent ck)) as Hu. unfold is_u64 in Hu.
  destruct (Hl (Sum256 (intent_preimage (faucet_tx (dn_faucet d) to (acc_Nonce acc + 1) 0)))).
  split_and!; try lia; done.
Qed.

Lemma payment_admitted_pool :
  admit_tx (accounts (pool_state (dn_node d))) (ck_submit (fk_rpc ck)) (nd_mempool (dn_node d)) payment = Ok tt.
Proof.
  pose proof Hr as [Ha Hk Hl Hn Hst Hp Hroom Hidle Hnew _ Hsub Hamt Hbal]. unfold admit_tx.
  rewrite payment_valid by done. cbn [mbind res_bind]. change (check_payload payment) with (Ok tt : res unit). cbn [mbind res_bind].
  rewrite (proj2 (Z.leb_gt _ _)) by done. change (tx_IntentID payment)
    with (Sum256 (KeyPair_Address (df_signer (dn_faucet d)) ++ be 8 (acc_Nonce acc + 1) ++ (to ++ be 8 (df_amount (dn_faucet d))) ++ [])).
  rewrite app_nil_r. rewrite bool_decide_eq_false_2 by (rewrite Hnew; by intros [? ?]).
  assert (expected_nonce (accounts (pool_state (dn_node d))) (nd_mempool (dn_node d)) payment = Ok (acc_Nonce acc)) as ->.
  { unfold expected_nonce, pool_state. rewrite Hst. cbn [default from_option id tx_Sender payment paid_tx]. 
    assert (default 0 (mp_nextNonce (nd_mempool (dn_node d)) !! KeyPair_Address (df_signer (dn_faucet d))) = acc_Nonce acc ∨
      default 0 (mp_nextNonce (nd_mempool (dn_node d)) !! KeyPair_Address (df_signer (dn_faucet d))) = 0) as E.
    { destruct (mp_nextNonce _ !! _); cbn in *; [by left|by right]. }
    destruct (Z.eqb_spec (default 0 (mp_nextNonce (nd_mempool (dn_node d)) !! KeyPair_Address (df_signer (dn_faucet d)))) 0) as [E0|Hne];
      [|by destruct E as [->|E]].
    rewrite Ha. unfold check_account. cbn [tx_TxType payment paid_tx]. change (TxTypeStandard =? TxTypeValidatorRegistration) with false.
    cbv iota. cbn [tx_IntentID tx_Signature]. rewrite Hk. cbn [negb mbind res_bind]. rewrite Amount_lt_spec. cbn [tx_MaxFee].
    rewrite (proj2 (Z.ltb_ge _ _)); [done|]. unfold NewAmount. unfold is_u64 in Hamt. change (tx_MaxFee payment) with 1000. lia. }
  cbn [mbind res_bind]. cbn [tx_Nonce payment paid_tx]. rewrite u64_small by (unfold is_u64; lia). by rewrite Z.eqb_refl.
Qed.

Lemma payment_moves now height :
  balances_ok (nd_state (dn_node d)) → to ≠ KeyPair_Address (df_signer (dn_faucet d)) →
  balance_at (nd_state (dn_node d)) to + df_amount (dn_faucet d) < 2 ^ 128 → ValidateTimestamp now (tx_Timestamp payment) = Ok tt →
  ∃ s', ApplyTransaction now payment height (nd_state (dn_node d)) = (s', Ok (tx_IntentID payment)) ∧
    balance_at s' to = balance_at (nd_state (dn_node d)) to + df_amount (dn_faucet d) ∧
    balance_at s' (KeyPair_Address (df_signer (dn_faucet d)))
    = balance_at (nd_state (dn_node d)) (KeyPair_Address (df_signer (dn_faucet d))) - df_amount (dn_faucet d) - 1000.
Proof.
  intros Hs Hne Hover Ht. pose proof Hr as [Ha Hk _ Hn _ _ _ _ _ _ _ Hamt Hbal].
  assert (payload_to payment = to ∧ payload_amount payment = df_amount (dn_faucet d)) as [Et Ea].
  { unfold payload_to, payload_amount. cbn [payment paid_tx tx_Payload]. rewrite take_app_length', drop_app_length' by (by rewrite arr_length).
    rewrite (take_ge (be 8 _)) by (rewrite length_be; lia). split; [apply arr_copy_arr|]. by apply unbe_be_small, fits_u64. }
  destruct (transfer_moves now height payment (nd_state (dn_node d)) acc) as (s' & Hap & H1' & H2').
  - split; [done|]. cbn [payment paid_tx tx_Payload]. rewrite length_app, arr_length, length_be. lia.
  - done.
  - done.
  - split; [by apply payment_valid|exact Ha|apply Hk| |].
    + cbn [payment paid_tx tx_Nonce]. rewrite u64_small by (unfold is_u64; lia). done.
    + cbn [payment paid_tx tx_MaxFee]. unfold is_u64 in Hamt. lia.
  - unfold transfer_funded. rewrite Et, Ea. cbn [payment paid_tx tx_MaxFee]. split; [lia|done].
  - by rewrite Et.
  - exists s'. rewrite Et, Ea in H1'. rewrite Ea in H2'. done.
Qed.
End payment.

(** The handler runs through to the service. *)
Lemma HandleFaucet_reaches {DB Tx_} `{BoltDB DB Tx_} `{Ed25519} Split ck req to acc (d : Devnet DB) :
  let f := dn_faucet d in
  accounts (nd_state (dn_node d)) !! KeyPair_Address (df_signer f) = Some acc → hr_Method req = "POST" → hr_Body req = Ok (Address_String to) →
  rate_limited f (getClientIP Split (hr_ForwardedFor req) (hr_RemoteAddr req)) (fk_since ck) = false →
  HandleFaucet Split ck req d
  = faucet_submit ck to (u64 (acc_Nonce acc + 1)) (with_faucet (with_requests
      (<[getClientIP Split (hr_ForwardedFor req) (hr_RemoteAddr req) := fk_request ck]> (df_lastRequest f)) f) d).
Proof.
  intros f Ha Hm Hb Hl. unfold HandleFaucet. rewrite Hm, bool_decide_eq_true_2 by done. cbn [negb]. cbv zeta.
  rewrite (go_bind_ok _ _ d d f) by done. rewrite Hl. set (d1 := with_faucet _ d). rewrite (go_bind_ok _ _ d d1 tt) by done. unfold faucet_serve.
  rewrite Hb, bool_decide_eq_false_2 by apply Address_String_nonempty. rewrite Address_String_parse, (go_bind_ok _ _ d1 d1 (dn_faucet d1)) by done.
  rewrite (go_bind_ok _ _ d1 d1 (inr (mkAccountResult (Address_String (KeyPair_Address (df_signer f))) (dec (acc_Balance acc)) (acc_Nonce acc)
    (hashToHex (acc_CodeHash acc)) (hashToHex (acc_StorageRoot acc))))); [done|].
  unfold try, on_node, zoom, nodeService_GetAccount, parse_address, account_of, gets, lift, mbind, go_bind. rewrite Address_String_parse.
  subst d1. cbn [dn_node dn_faucet with_faucet with_requests df_signer]. rewrite Ha. done.
Qed.

Lemma faucet_answer {DB Tx_} `{BoltDB DB Tx_} `{Ed25519} Split ck req to acc mp' (d : Devnet DB) :
  let f := dn_faucet d in let n := dn_node d in
  faucet_ready ck to acc d → hr_Method req = "POST" → hr_Body req = Ok (Address_String to) →
  rate_limited f (getClientIP Split (hr_ForwardedFor req) (hr_RemoteAddr req)) (fk_since ck) = false →
  Submit (accounts (pool_state n)) (ck_submit (fk_rpc ck)) (ck_submitted (fk_rpc ck)) (payment ck to acc d) (nd_mempool n) = (mp', Ok tt) →
  HandleFaucet Split ck req d
  = (with_node (with_mempool mp' n) (with_faucet (with_requests
      (<[getClientIP Split (hr_ForwardedFor req) (hr_RemoteAddr req) := fk_request ck]> (df_lastRequest f)) f) d),
     Ok (Sent (hashToHex (tx_IntentID (payment ck to acc d))) (dec (df_amount f) +:+ " DSN"))).
Proof.
  intros f n Hr Hm Hb Hl Hs. pose proof Hr as [Ha _ _ Hn _ _ _ _ _ Hval _ _ _].
  rewrite (HandleFaucet_reaches _ _ _ to acc) by done. rewrite u64_small by (unfold is_u64; lia).
  set (d1 := with_faucet _ d). unfold faucet_submit. rewrite (go_bind_ok _ _ d1 d1 (dn_faucet d1)) by done. cbv zeta.
  cbn [ComputeIntentID hash_data SignHash]. unfold ComputeIntentID, hash_data, SHA256Hasher, SignHash.
  rewrite (go_bind_ok _ _ d1 (with_node (with_mempool mp' n) d1) (inr (hashToHex (tx_IntentID (payment ck to acc d))))); [done|].
  unfold try, on_node, zoom, nodeService_SendTransaction. rewrite (go_bind_ok _ _ _ (dn_node d1) (faucet_json (dn_faucet d1)
    (faucet_tx (dn_faucet d1) to (acc_Nonce acc + 1) (u64 (fk_signed ck))) (u64 (fk_sent ck))
    (ed25519_Sign (kp_PrivateKey (df_signer (dn_faucet d1))) (Sum256 (intent_preimage (faucet_tx (dn_faucet d1) to (acc_Nonce acc + 1) (u64 (fk_signed ck)))))))) by done.
  rewrite (go_bind_ok _ _ _ (dn_node d1) (payment ck to acc d)) by (unfold lift; rewrite faucet_json_read; done).
  rewrite (go_bind_ok _ _ _ (dn_node d1) tt) by (apply wrap_ok; unfold lift; by rewrite (payment_valid ck to acc d Hr)).
  rewrite (go_bind_ok _ _ _ (with_mempool mp' n) tt); [done|]. apply wrap_ok. unfold SubmitTx, on_pool, zoom.
  change (dn_node d1) with n. by rewrite Hs.
Qed.

(** ** Properties *)

(** C40: the blocks of the local network form one chain: whatever requests and
    failures happen in between, their heights are consecutive from the first
    on, each names the hash of the one before, and all are from the validator.
    The network continues from the last one. *)
Theorem devnet_chain_linked {DB Tx_} `{BoltDB DB Tx_} `{Hasher} `{Ed25519} (SplitHostPort : string → option string) (l : list event)
    (d d' : Devnet DB) (blocks : list Block) :
  run SplitHostPort l d = (d', Ok blocks) → 0 <= dn_height d → dn_height d + Z.of_nat (length blocks) < 2 ^ 64 →
  (λ b, h_Height (b_Header b)) <$> blocks = seqZ (dn_height d) (Z.of_nat (length blocks)) ∧
  linked (dn_prevHash d) blocks (dn_prevHash d') ∧ dn_height d' = dn_height d + Z.of_nat (length blocks) ∧
  Forall (λ b, h_Proposer (b_Header b) = KeyPair_Address (df_signer (dn_faucet d))) blocks.
Proof.
  revert d blocks. induction l as [|e l IH]; intros d blocks E H0' Hb; cbn [run] in E.
  { injection E as <- <-. cbn. rewrite Z.add_0_r. by repeat split. }
  apply go_bind_inv in E as (d1 & r & E1 & E). apply go_bind_inv in E as (d2 & bs & E2 & E). injection E as <- <-.
  apply handle_inv in E1 as [Hk E1]. destruct r as [b|].
  - destruct E1 as (Hh & Hp & Hq & Hn & Hhash). cbn [length] in Hb. rewrite Nat2Z.inj_succ in Hb.
    rewrite u64_small in Hn by (unfold is_u64; lia). destruct (IH d1 bs E2) as (I1 & I2 & I3 & I4); [lia..|].
    cbn [length fmap list_fmap linked]. rewrite Nat2Z.inj_succ, seqZ_cons by lia. split_and!.
    + rewrite Hh, I1, Hn. do 2 f_equal; lia.
    + done.
    + by exists (dn_prevHash d1).
    + lia.
    + constructor; [done|]. by rewrite <- Hk.
  - destruct E1 as [Hh Hp]. destruct (IH d1 bs E2) as (I1 & I2 & I3 & I4); [lia..|].
    rewrite <- Hh, <- Hp, <- Hk. done.
Qed.

(** C39: a faucet that is ready pays. Ready means: the account of the faucet is
    in the state, under the faucet's key, with the amount and the fee of 1000
    and a nonce below 2^64 - 1; no payment of the faucet is pending (the pool's
    nonce for it is the state's) and the pool has room and a database that does
    not fail; the node's own pool checks against the node's state; and the
    clock is within the time window when the payment is validated. If such a
    faucet gets a POST request with the text of an address other than its own,
    whose balance stays below 2^128, from a client that the rate limit lets
    through, it answers with the hash of a payment that is then pending; and
    applied to the state of the node within its time window, the payment moves
    the amount of the faucet to the address, at the cost of the fee. *)
Theorem faucet_pays {DB Tx_} `{BoltLaws DB Tx_, !BoltReliable DB Tx_} `{Ed25519} (SplitHostPort : string → option string)
    (ck : faucet_clock) (req : http_request) (to : Address) (acc : Account) (d : Devnet DB) :
  let f := dn_faucet d in let n := dn_node d in let sender := KeyPair_Address (df_signer f) in
  faucet_ready ck to acc d → balances_ok (nd_state n) → to ≠ sender → balance_at (nd_state n) to + df_amount f < 2 ^ 128 →
  hr_Method req = "POST" → hr_Body req = Ok (Address_String to) →
  rate_limited f (getClientIP SplitHostPort (hr_ForwardedFor req) (hr_RemoteAddr req)) (fk_since ck) = false →
  ∃ d' tx, HandleFaucet SplitHostPort ck req d = (d', Ok (Sent (hashToHex (tx_IntentID tx)) (dec (df_amount f) +:+ " DSN"))) ∧
    mp_txs (nd_mempool (dn_node d')) !! tx_IntentID tx = Some (mkPendingTx tx (ck_submitted (fk_rpc ck))) ∧
    nd_state (dn_node d') = nd_state n ∧ tx_Timestamp tx = u64 (fk_sent ck) ∧
    ∀ now height, ValidateTimestamp now (tx_Timestamp tx) = Ok tt →
      ∃ s', ApplyTransaction now tx height (nd_state n) = (s', Ok (tx_IntentID tx)) ∧
        balance_at s' to = balance_at (nd_state n) to + df_amount f ∧
        balance_at s' sender = balance_at (nd_state n) sender - df_amount f - 1000.
Proof.
  intros f n sender Hr Hs Hne Hover Hm Hb Hl.
  destruct (encoded_length _ (payment_wf ck to acc d Hr)) as (buf & Hbuf & Hlen).
  destruct (Submit_admitted (accounts (pool_state n)) (ck_submit (fk_rpc ck)) (ck_submitted (fk_rpc ck)) (payment ck to acc d) buf (nd_mempool n)
    (fy_pool _ _ _ _ Hr) (payment_admitted_pool ck to acc d Hr) Hbuf) as (mp' & Hsub & Hst).
  { etrans; [exact Hlen|]. cbn -[be length Z.pow]. rewrite length_app, arr_length, length_be. unfold MaxValueSize. cbn. lia. }
  exists (with_node (with_mempool mp' n) (with_faucet (with_requests
    (<[getClientIP SplitHostPort (hr_ForwardedFor req) (hr_RemoteAddr req) := fk_request ck]> (df_lastRequest f)) f) d)), (payment ck to acc d).
  split; [|split; [exact Hst|split; [done|split; [done|]]]].
  - by apply faucet_answer with (acc := acc).
  - intros now height Ht. by apply payment_moves.
Qed.

(** As long as a payment waits in the pool the next request fails: the nonce of
    the account is that of the state. *)
Theorem second_request_refused {DB Tx_} `{BoltDB DB Tx_} `{Ed25519} (SplitHostPort : string → option string)
    (ck : faucet_clock) (req : http_request) (to : Address) (acc : Account) (m : Z) (d : Devnet DB) :
  let f := dn_faucet d in let n := dn_node d in
  accounts (nd_state n) !! KeyPair_Address (df_signer f) = Some acc →
  mp_nextNonce (nd_mempool n) !! KeyPair_Address (df_signer f) = Some m → m ≠ 0 → u64 (acc_Nonce acc + 1) ≠ u64 (m + 1) →
  hr_Method req = "POST" → hr_Body req = Ok (Address_String to) →
  rate_limited f (getClientIP SplitHostPort (hr_ForwardedFor req) (hr_RemoteAddr req)) (fk_since ck) = false →
  ∃ d' e, HandleFaucet SplitHostPort ck req d = (d', Ok (Refused e)) ∧ dn_node d' = n.
Proof.
  intros f n Ha Hm Hm0 Hne Hmeth Hb Hl. rewrite (HandleFaucet_reaches _ _ _ to acc) by done. set (d1 := with_faucet _ d).
  unfold faucet_submit. rewrite (go_bind_ok _ _ d1 d1 (dn_faucet d1)) by done. cbv zeta. unfold ComputeIntentID, hash_data, SHA256Hasher, SignHash.
  set (signature := ed25519_Sign _ _).
  destruct (send_refused (fk_rpc ck) (faucet_json (dn_faucet d1) (faucet_tx (dn_faucet d1) to (u64 (acc_Nonce acc + 1)) (u64 (fk_signed ck)))
    (u64 (fk_sent ck)) signature) (paid_tx (dn_faucet d1) to (u64 (acc_Nonce acc + 1)) (u64 (fk_sent ck)) signature) m n) as (e & He); try done.
  { apply faucet_json_read. }
  exists (with_node n d1), e. split; [|done].
  rewrite (go_bind_ok _ _ d1 (with_node n d1) (inl e)); [done|].
  unfold try, on_node, zoom. change (dn_node d1) with n. by rewrite He.
Qed.

(** The limit of 60 is in nanoseconds: sixty nanoseconds after a request the
    same client is served again. *)
Theorem rate_limit_ends {DB Tx_} `{BoltDB DB Tx_} `{Ed25519} (SplitHostPort : string → option string)
    (ck : faucet_clock) (req : http_request) (now : Z) (d d' : Devnet DB) (r : res faucet_reply) :
  let ip := getClientIP SplitHostPort (hr_ForwardedFor req) (hr_RemoteAddr req) in
  df_rateLimitSec (dn_faucet d) = fc_RateLimitSecs faucetCfg → hr_Method req = "POST" → rate_limited (dn_faucet d) ip (fk_since ck) = false →
  HandleFaucet SplitHostPort ck req d = (d', r) → rate_limited (dn_faucet d') ip now = (now - fk_request ck <? 60).
Proof.
  intros ip Hc Hm Hl (_ & _ & ->)%HandleFaucet_requests. fold ip. rewrite Hl, Hm, bool_decide_eq_true_2 by done. cbn [andb negb].
  unfold rate_limited. cbn. by rewrite lookup_insert_eq, Hc.
Qed.

(** ** Examples *)

Definition example_devnet : Devnet contents :=
  mkDevnet (with_state sdk_state (fresh_node example_config idle_vm None false)) (NewDevnetFaucet sdk_key faucetCfg) 1 ZeroHash.

Definition faucet_times : faucet_clock := mkFaucetClock 1000 1000 100 100 (Rpc.mkClock 101 101 101 (λ _, 102) (λ _, 102)).

Definition pay_request : http_request := mkHttpRequest "POST" "" "10.0.0.1:4000" (Ok (Address_String (addr_of 2))).

Definition tick_times : Node.Clock := Node.mkClock (λ _, 102) 102 102 (λ _, 102) (λ _, 102) 102.

Definition empty_devnet : Devnet contents :=
  mkDevnet (fresh_node example_config idle_vm None false) (NewDevnetFaucet sdk_key faucetCfg) 1 ZeroHash.

Definition example_events : list event := [Cleanup 5; Tick tick_times].

Lemma devnet_chain_linked_witness :
  let r := run (H0 := constant_hasher) (H1 := half_ed25519) (λ _, None) example_events empty_devnet in
  ∃ blocks, r.2 = Ok blocks ∧ (λ b, h_Height (b_Header b)) <$> blocks = [1] ∧ dn_height r.1 = 2.
Proof.
  intros r. assert (match r.2 with Ok blocks => Some (length blocks) | _ => None end = Some 1%nat) as Hl by (vm_compute; reflexivity).
  destruct r.2 as [blocks|e|] eqn:E; [injection Hl as Hl|discriminate Hl..]. exists blocks. split; [reflexivity|].
  destruct (devnet_chain_linked (H0 := constant_hasher) (H1 := half_ed25519) (λ _, None) example_events empty_devnet r.1 blocks)
    as (Hh & _ & Hn & _).
  - rewrite <- E. apply surjective_pairing.
  - vm_compute. discriminate.
  - rewrite Hl. vm_compute. reflexivity.
  - rewrite Hl in Hh, Hn. split; [exact Hh|exact Hn].
Defined.

Lemma faucet_pays_witness :
  ∃ d' tx, HandleFaucet (H1 := half_ed25519) (λ _, None) faucet_times pay_request example_devnet
    = (d', Ok (Sent (hashToHex (tx_IntentID tx)) "100 DSN")) ∧
    ∃ s', ApplyTransaction (H1 := half_ed25519) 102 tx 1 (nd_state (dn_node example_devnet)) = (s', Ok (tx_IntentID tx)) ∧
      balance_at s' (addr_of 2) = 100 ∧ balance_at s' (KeyPair_Address sdk_key) = 4998900.
Proof.
  destruct (faucet_pays (H1 := half_ed25519) (λ _, None) faucet_times pay_request (addr_of 2) sdk_account example_devnet)
    as (d' & tx & Hd & _ & _ & Et & Hs).
  - split.
    + vm_compute. reflexivity.
    + intros hash. apply bool_decide_eq_true_2. reflexivity.
    + intros hash. cbn [half_ed25519 ed25519_Sign]. rewrite length_app, arr_length. vm_compute. split; [reflexivity|discriminate].
    + split; vm_compute; [discriminate|reflexivity].
    + reflexivity.
    + exact (pool_ok_New 10 300).
    + vm_compute. reflexivity.
    + reflexivity.
    + reflexivity.
    + vm_compute. reflexivity.
    + vm_compute. reflexivity.
    + split; vm_compute; [discriminate|reflexivity].
    + vm_compute. discriminate.
  - exact sdk_state_ok.
  - vm_compute. discriminate.
  - vm_compute. reflexivity.
  - reflexivity.
  - reflexivity.
  - vm_compute. reflexivity.
  - exists d', tx. split; [exact Hd|]. destruct (Hs 102 1) as (s' & H1' & H2' & H3').
    + rewrite Et. reflexivity.
    + exists s'. split; [exact H1'|]. split; [etransitivity; [exact H2'|]|etransitivity; [exact H3'|]]; vm_compute; reflexivity.
Defined.
