(* ===== verification/Cmd.v ===== *)
(** * Commands (package cmd/dsn, the key file of wallet/wallet.go)

    The commands that write genesis documents, sign transactions, deploy and
    call contracts and register validators, over the JSON-RPC interface of a
    node. Flags, files and the terminal are arguments and results; [post] is an
    HTTP request with the JSON value of its response. *)

From S2P Require Import Prelude Codec Sha256 Address Amount Votes Block Smt Store Keys State Vm Tx.
From S2P Require Import Applier Registry Gossip Bolt Persist Mempool Genesis Node Startup Peers Client Rpc Devnet.

(** ** Genesis documents (cmd/dsn/genesis_cmd.go) *)

(** [types.Address{0, ..., 0, 1}]. *)
Definition treasuryAddr : Address := arr_copy 20 (replicate 19 x00 ++ [x01]).

Definition hex0x (l : bytes) : string := "0x" +:+ hex l.

Definition devnet_validator (pub : arr 32) : ValidatorEntry :=
  mkValidatorEntry (hex0x (deriveAddress pub)) (hex0x pub) (hex0x pub) (100000000 * 10000000) "1000".

Definition devnet_balance (pub : arr 32) : BalanceEntry := mkBalanceEntry (hex0x (deriveAddress pub)) (1000000 * 10000000).

(** The parameters that both documents share. *)
Definition genesis_doc (now : Z) (chainID : string) (validators : list ValidatorEntry) (balances : list BalanceEntry) : GenesisDoc :=
  {| gd_GenesisTime := now; gd_ChainID := chainID; gd_InitialHeight := 1;
     gd_ConsensusParams := mkConsensusParams 1000 (2 * 1024 * 1024) 100000000;
     gd_EpochParams := mkEpochParams 100 2 100 (10000 * 10000000);
     gd_InflationParams := mkInflationParams false "" 0;
     gd_InitialValidators := validators; gd_InitialBalances := balances;
     gd_Treasury := mkTreasuryEntry (hex0x treasuryAddr) (1000000000 * 10000000) |}.

(** [keys] are the public keys that were generated, one for each validator. *)
Definition generateDevnetGenesis (now : Z) (chainID : string) (keys : list (arr 32)) : GenesisDoc :=
  genesis_doc now chainID (devnet_validator <$> keys)
    ((devnet_balance <$> keys) ++ [mkBalanceEntry (hex0x treasuryAddr) (1000000000 * 10000000)]).

Definition generateGenesisTemplate (now : Z) (chainID : string) : GenesisDoc :=
  genesis_doc now chainID
    [mkValidatorEntry (hex0x (arr_zero 20)) (hex0x (arr_zero 32)) (hex0x (arr_zero 32)) (100000000 * 10000000) "1000"]
    [mkBalanceEntry (hex0x (arr_zero 20)) (1000000 * 10000000)].

(** [t] is the clock cut to seconds, [now] the clock of the validation;
    [existing]: there is such a file. The result is what is written, and the
    outcome of the validation, which is only shown. *)
Definition runGenesisInit (existing devnet : bool) (chainID : string) (keys : list (arr 32)) (t now : Z) : res (GenesisDoc * res unit) :=
  let chainID := if bool_decide (chainID = "") then "dsn-localnet-1" else chainID in
  if existing then Err (Errorf "file already exists") else
  let doc := if devnet then generateDevnetGenesis t chainID keys else generateGenesisTemplate t chainID in
  Ok (doc, ValidateGenesis now doc).

(** [file] is the outcome of reading and decoding the file, if there is one. *)
Definition runGenesisValidate (CanonicalJSON : GenesisDoc → res bytes) (filePath : string) (file : option (res GenesisDoc)) (now zeroTime : Z)
    : res Hash :=
  let filePath := if bool_decide (filePath = "") then "genesis.json" else filePath in
  match file with
  | None => Err (Errorf "genesis file not found")
  | Some parsed =>
      doc ← wrap_res "failed to load genesis" (LoadGenesis filePath parsed zeroTime);
      wrap_res "genesis validation FAILED" (ValidateGenesis now doc);;
      wrap_res "failed to compute genesis hash" (HashGenesis CanonicalJSON doc)
  end.

(** ** Key files (wallet/wallet.go) *)

Record keyFile := mkKeyFile { kf_PublicKey : string; kf_PrivateKey : string }.

Definition SaveKey (kp : KeyPair) : keyFile := mkKeyFile (hex (kp_PublicKey kp)) (hex (kp_PrivateKey kp)).

(** Bytes that are missing are zero, and more than fit are dropped. *)
Definition LoadKey (kf : keyFile) : res KeyPair :=
  match hex_decode (str_bytes (kf_PublicKey kf)), hex_decode (str_bytes (kf_PrivateKey kf)) with
  | Some pubKey, Some privKey => Ok (mkKeyPair (arr_copy 32 pubKey) (arr_copy 64 privKey))
  | _, _ => Err ErrHex
  end.

(** ** Signing (cmd/dsn/wallet_cmd.go) *)

Record UnsignedTransaction := mkUnsignedTransaction {
  un_Sender : string;
  un_Nonce : Z;
  un_Payload : string;
  un_GasLimit : Z;
  un_MaxFee : Z;
}.

Record SignedTransaction := mkSignedTransaction {
  sg_Unsigned : UnsignedTransaction;
  sg_Signature : string;
  sg_IntentID : string;
}.

Definition unsigned_tx (kp : KeyPair) (un : UnsignedTransaction) (payload : bytes) : Transaction :=
  {| tx_Version := 0; tx_ChainID := 0; tx_IntentID := ZeroHash; tx_Sender := KeyPair_Address kp; tx_Nonce := un_Nonce un;
     tx_Payload := payload; tx_Constraints := []; tx_MaxFee := un_MaxFee un; tx_GasLimit := un_GasLimit un; tx_Timestamp := 0;
     tx_Signature := []; tx_TxType := TxTypeStandard |}.

Definition runWalletSign `{Ed25519} (file : res UnsignedTransaction) (key : res KeyPair) : res SignedTransaction :=
  unsignedTx ← wrap_res "failed to parse transaction file" file;
  kp ← wrap_res "failed to load wallet key" key;
  payload ← wrap_res "failed to decode payload" (hex_optional "payload" (un_Payload unsignedTx));
  tx ← wrap_res "failed to sign transaction" (KeyPair_Sign (H := SHA256Hasher) kp (unsigned_tx kp unsignedTx payload));
  Ok (mkSignedTransaction unsignedTx (hex (tx_Signature tx)) (hex (tx_IntentID tx))).

(** ** Talking to a node *)

(** JSON values as [map[string]interface{}] holds them. A number is what
    [uint64(x)] makes of it; the names of an object differ. *)
Inductive value :=
  | VNull
  | VNumber (n : Z)
  | VString (s : string)
  | VArray (l : list value)
  | VObject (m : list (string * value)).

Abbreviation object := (list (string * value)).

Fixpoint field (name : string) (m : object) : option value :=
  match m with
  | [] => None
  | (k, v) :: m => if bool_decide (k = name) then Some v else field name m
  end.

Definition object_field (name : string) (m : object) : option object :=
  match field name m with Some (VObject o) => Some o | _ => None end.

(** A field of type [map[string]interface{}]: [None] is the nil map. *)
Definition decode_map (name : string) (m : object) : res (option object) :=
  match field name m with
  | None | Some VNull => Ok None
  | Some (VObject o) => Ok (Some o)
  | Some _ => Err (Errorf ("json: cannot unmarshal " +:+ name))
  end.

Section commands.
Context {S : Type} (post : string → value → go S object).

(** *** cmd/dsn/wallet_cmd.go *)

Definition callRPC (method : string) (params : value) : go S (option object) :=
  rpcResp ← post method params;
  result ← lift (decode_map "result" rpcResp);
  err ← lift (decode_map "error" rpcResp);
  guard_err (bool_decide (is_Some err)) (Errorf "RPC error");;
  mret result.

Definition runWalletNonce (address : string) : go S object :=
  addr ← wrap "invalid address" (lift (ParseAddress address));
  result ← wrap "RPC call failed" (callRPC "dsn_getAccount" (VObject [("address", VString (Address_String addr))]));
  match result with
  | None => throw (Errorf "empty response from RPC")
  | Some result => mret result
  end.

(** *** cmd/dsn/validator_cmd.go *)

(** The result of the response; it must be an object. *)
Definition doRPCRequest (method : string) (params : value) : go S object :=
  rpcResp ← post method params;
  match object_field "error" rpcResp, object_field "result" rpcResp with
  | Some _, _ => throw (Errorf "RPC error")
  | None, None => throw (Errorf "invalid response: no result")
  | None, Some result => mret result
  end.

(** The callers look for a result once more. *)
Definition getNonce (addr : string) : go S Z :=
  resp ← doRPCRequest "dsn_getAccount" (VObject [("address", VString addr)]);
  mret match object_field "result" resp with
       | Some result => match field "nonce" result with Some (VNumber nonce) => nonce | _ => 1 end
       | None => 1
       end.

Definition tx_data (tx : Transaction) : value :=
  VObject [("version", VNumber (tx_Version tx)); ("chainId", VNumber (tx_ChainID tx)); ("sender", VString (Address_String (tx_Sender tx)));
           ("nonce", VNumber (tx_Nonce tx)); ("payload", VString (hex (tx_Payload tx))); ("maxFee", VNumber (tx_MaxFee tx));
           ("gasLimit", VNumber (tx_GasLimit tx)); ("timestamp", VNumber (tx_Timestamp tx)); ("signature", VString (hex (tx_Signature tx)));
           ("intentId", VString (hex (tx_IntentID tx))); ("txType", VNumber (tx_TxType tx))].

(** The type assertion panics if there is no object. *)
Definition submitTransaction (tx : Transaction) : go S object :=
  resp ← doRPCRequest "dsn_submitTransaction" (tx_data tx);
  match object_field "result" resp with
  | Some result => mret result
  | None => gopanic
  end.

Definition getValidatorStatus (addr : string) : go S (option object) :=
  resp ← doRPCRequest "dsn_getValidator" (VObject [("address", VString addr)]);
  mret (object_field "result" resp).

(** [encode] on the local copy of the registration message. *)
Definition registration_encode (m : ValidatorRegistrationMsg) : res bytes :=
  if negb (bool_decide (length (reg_PubKey m) = 32%nat)) then Err ErrInvalidEncoding
  else Ok (reg_Address m ++ reg_PubKey m ++ be 8 (reg_Stake m) ++ be 8 (reg_Commission m)).

Definition newValidatorRegistrationTx (sender : Address) (nonce : Z) (msg : ValidatorRegistrationMsg) (maxFee timestamp chainID : Z)
    : res Transaction :=
  payload ← registration_encode msg;
  Ok {| tx_Version := 1; tx_ChainID := chainID; tx_IntentID := ZeroHash; tx_Sender := sender; tx_Nonce := nonce; tx_Payload := payload;
        tx_Constraints := []; tx_MaxFee := maxFee; tx_GasLimit := 50000; tx_Timestamp := timestamp; tx_Signature := [];
        tx_TxType := TxTypeValidatorRegistration |}.

Definition registration_signed `{Ed25519} (kp : ValidatorKey) (tx : Transaction) : res Transaction :=
  intentID ← wrap_res "failed to compute intent ID" (ComputeIntentID (H := SHA256Hasher) tx);
  Ok {| tx_Version := tx_Version tx; tx_ChainID := tx_ChainID tx; tx_IntentID := intentID; tx_Sender := tx_Sender tx;
        tx_Nonce := tx_Nonce tx; tx_Payload := tx_Payload tx; tx_Constraints := tx_Constraints tx; tx_MaxFee := tx_MaxFee tx;
        tx_GasLimit := tx_GasLimit tx; tx_Timestamp := tx_Timestamp tx;
        tx_Signature := ed25519_Sign (vk_PrivateKey kp) intentID; tx_TxType := tx_TxType tx |}.

(** [now] is the clock in seconds. *)
Definition runValidatorRegister `{Ed25519} (stakeAmount commission : Z) (key : res ValidatorKey) (now : Z) : go S (Transaction * object) :=
  guard_err (stakeAmount <? 100000) (Errorf "minimum stake is 100,000 DSN");;
  guard_err (10000 <? commission) (Errorf "commission must be 0-10000 (0-100%)");;
  kp ← wrap "failed to load validator key" (lift key);
  nonce ← wrap "failed to get nonce" (getNonce (Address_String (vk_Address kp)));
  let msg := mkValidatorRegistrationMsg (vk_Address kp) (vk_PublicKey kp) stakeAmount commission in
  tx ← wrap "failed to create registration transaction" (lift (newValidatorRegistrationTx (vk_Address kp) nonce msg 1000 (u64 now) 1));
  tx ← lift (registration_signed kp tx);
  result ← wrap "failed to submit transaction" (submitTransaction tx);
  mret (tx, result).

(** An error of the request is shown and is not an error of the command. *)
Definition runValidatorStatus (key : res ValidatorKey) : go S (option object) :=
  kp ← wrap "failed to load validator key" (lift key);
  result ← try (getValidatorStatus (Address_String (vk_Address kp)));
  mret match result with inl _ => None | inr result => result end.

(** *** cmd/dsn/contract_cmd.go *)

Definition getAccountNonce (address : string) : go S Z :=
  result ← callRPC "dsn_getAccount" (VObject [("address", VString address)]);
  match field "nonce" (default [] result) with
  | Some (VNumber nonce) => mret nonce
  | _ => throw (Errorf "failed to get nonce from account")
  end.

(** What the JSON of [buildTransactionJSON] holds. *)
Definition transaction_json (tx : Transaction) : RawTx :=
  {| raw_Sender := Address_String (tx_Sender tx); raw_Nonce := tx_Nonce tx; raw_ChainID := tx_ChainID tx; raw_Payload := hex (tx_Payload tx);
     raw_Constraints := ""; raw_GasLimit := tx_GasLimit tx; raw_MaxFee := tx_MaxFee tx; raw_Timestamp := tx_Timestamp tx;
     raw_Signature := hex (tx_Signature tx); raw_TxType := tx_TxType tx |}.

Definition deriveContractAddress (sender : Address) (nonce : Z) (codeHash : Hash) : Address :=
  arr_copy 20 (take 20 (DeriveContractID sender nonce codeHash)).

(** The transaction that is signed; its timestamp is not set. *)
Definition deploy_tx (sender : Address) (nonce gasLimit : Z) (wasmData : bytes) : res Transaction :=
  let deployTx := mkDeployContractTx sender nonce wasmData (Sum256 wasmData) 1000000 gasLimit [] in
  payload ← wrap_res "failed to encode deploy transaction" (encode_bytes (DeployContractTx_Encode deployTx));
  Ok {| tx_Version := 0; tx_ChainID := 1; tx_IntentID := ZeroHash; tx_Sender := sender; tx_Nonce := nonce; tx_Payload := payload;
        tx_Constraints := []; tx_MaxFee := 1000000; tx_GasLimit := gasLimit; tx_Timestamp := 0; tx_Signature := [];
        tx_TxType := TxTypeDeployContract |}.

(** The address and the hash that are shown. [marshal] is [json.Marshal]. *)
Definition runContractDeploy `{Ed25519} (marshal : RawTx → string) (wasm : res bytes) (key : res KeyPair) (gasLimit : Z)
    : go S (Address * string) :=
  wasmData ← wrap "failed to read WASM file" (lift wasm);
  kp ← wrap "failed to load wallet" (lift key);
  let sender := KeyPair_Address kp in
  found ← try (getAccountNonce (Address_String sender));
  let nonce := match found with inl _ => 0 | inr nonce => nonce end in
  tx ← lift (deploy_tx sender nonce gasLimit wasmData);
  tx ← wrap "failed to sign transaction" (lift (KeyPair_Sign (H := SHA256Hasher) kp tx));
  result ← wrap "failed to deploy contract" (callRPC "dsn_sendTransaction" (VObject [("tx", VString (marshal (transaction_json tx)))]));
  match field "txHash" (default [] result) with
  | Some (VString txHash) => mret (deriveContractAddress sender nonce (Sum256 wasmData), txHash)
  | _ => throw (Errorf "invalid response from RPC: no txHash")
  end.

Definition runContractCall (address entrypoint data : string) (gasLimit : Z) : go S (option object) :=
  callData ← wrap "invalid call data" (lift (hex_optional "call data" data));
  wrap "contract call failed" (callRPC "dsn_callContract" (VObject
    ([("address", VString address); ("entrypoint", VString entrypoint); ("gasLimit", VNumber gasLimit)]
     ++ (if bool_decide (0 < length callData)%nat then [("data", VString (hex callData))] else [])))).

Definition runContractEstimate (address entrypoint data : string) : go S Z :=
  let callData := if bool_decide (data = "") then "" else bytes_str (stripHexPrefix data) in
  result ← wrap "gas estimation failed" (callRPC "dsn_estimateGas" (VObject
    ([("address", VString address); ("entrypoint", VString entrypoint)]
     ++ (if bool_decide (callData = "") then [] else [("data", VString callData)]))));
  match field "gas" (default [] result) with
  | Some (VNumber gas) => mret gas
  | _ => throw (Errorf "invalid response from RPC")
  end.

Definition runContractQuery (address key : string) : go S string :=
  result ← wrap "contract query failed" (callRPC "dsn_getContractState" (VObject [("address", VString address); ("key", VString key)]));
  mret match field "value" (default [] result) with
       | Some (VString val) => if bool_decide (val = "") then "null" else val
       | _ => "null"
       end.

Definition runContractReceipt (txHash : string) : go S (option object) :=
  wrap "failed to get receipt" (callRPC "dsn_getTransactionReceipt" (VObject [("txHash", VString txHash)])).
End commands.

(** ** A node that answers (rpc/server.go) *)

Section node.
Context {DB Tx_ : Type} `{BoltDB DB Tx_} `{Ed25519} `{RequestJson}.
Abbreviation Node := (Node DB).

(** encoding/json: the text of parameters and errors, and the results that no
    command looks into. *)
Context (marshal : value → bytes) (text : error → string) (other : rpc_result → value).

Definition result_value (r : rpc_result) : value :=
  match r with
  | RTxHash h => VObject [("txHash", VString h)]
  | RAccount a => VObject [("address", VString (ar_Address a)); ("balance", VString (ar_Balance a)); ("nonce", VNumber (ar_Nonce a));
                           ("codeHash", VString (ar_CodeHash a)); ("storageRoot", VString (ar_StorageRoot a))]
  | RBalance b => VObject [("balance", VString b)]
  | RGas gas => VObject [("gas", VNumber gas)]
  | RValue v => VObject [("value", VString v)]
  | r => other r
  end.

Definition id_value (i : request_id) : value :=
  match i with IdNumber n => VNumber n | IdString s => VString s | IdNull => VNull end.

Definition response_object (r : RPCResponse) : object :=
  [("jsonrpc", VString (rp_JSONRPC r))]
  ++ match rp_Result r with Some v => [("result", result_value v)] | None => [] end
  ++ match rp_Error r with
     | Some e => [("error", VObject [("code", VNumber (re_Code e)); ("message", VString (text (re_Message e)))])]
     | None => []
     end
  ++ [("id", id_value (rp_ID r))].

(** A request of a command, with the id 1, handled by the node. *)
Definition node_post (ck : Rpc.Clock) (method : string) (params : value) : go Node object :=
  resp ← handleRequest ck (mkRPCRequest "2.0" method (marshal params) (IdNumber 1));
  mret (response_object resp).
End node.

(** ** Lemmas *)

Lemma stripHexPrefix_hex0x (l : bytes) : stripHexPrefix (hex0x l) = str_bytes (hex l).
Proof. reflexivity. Qed.

Lemma str_bytes_hex_length (l : bytes) : length (str_bytes (hex l)) = (2 * length l)%nat.
Proof.
  induction l as [|b l IH]; [done|].
  change (str_bytes (hex (b :: l)))
    with (Ascii.byte_of_ascii (hex_char (b2z b / 16)) :: Ascii.byte_of_ascii (hex_char (b2z b mod 16)) :: str_bytes (hex l)).
  cbn [length]. lia.
Qed.

Lemma lower_hex (l : bytes) : ToLower (hex0x l) = str_bytes (hex0x l).
Proof.
  unfold ToLower. change (str_bytes (hex0x l)) with (x30 :: x78 :: str_bytes (hex l)). cbn [fmap list_fmap].
  change (lower x30) with x30. change (lower x78) with x78. do 2 f_equal.
  induction l as [|b l IH]; [done|].
  change (str_bytes (hex (b :: l)))
    with (Ascii.byte_of_ascii (hex_char (b2z b / 16)) :: Ascii.byte_of_ascii (hex_char (b2z b mod 16)) :: str_bytes (hex l)).
  cbn [fmap list_fmap]. rewrite IH.
  assert (∀ d, 0 <= d < 16 → lower (Ascii.byte_of_ascii (hex_char d)) = Ascii.byte_of_ascii (hex_char d)) as Hd.
  { apply nibble_cases. intros n Hn. do 16 (destruct n as [|n]; [reflexivity|]). lia. }
  by rewrite !Hd by apply nibbles.
Qed.

Lemma hex0x_inj (l k : bytes) : str_bytes (hex0x l) = str_bytes (hex0x k) → l = k.
Proof.
  intros E. assert (hex_decode (stripHexPrefix (hex0x l)) = hex_decode (stripHexPrefix (hex0x k))) as E' by (unfold stripHexPrefix; by rewrite E).
  rewrite !stripHexPrefix_hex0x, !hex_decode_hex in E'. by injection E'.
Qed.

Lemma parseAddress_hex0x (a : Address) : parseAddress (hex0x a) = Ok a.
Proof.
  unfold parseAddress. rewrite stripHexPrefix_hex0x, hex_decode_hex, bool_decide_eq_false_2; [apply AddressFromBytes_arr|].
  intros E%(f_equal length). rewrite str_bytes_hex_length, arr_length in E. cbn in E. lia.
Qed.

Lemma hex0x_plausible (a : Address) : address_plausible (hex0x a).
Proof.
  split; [rewrite stripHexPrefix_hex0x, str_bytes_hex_length, arr_length; cbn; lia|].
  apply hex_decode_hexadecimal. rewrite stripHexPrefix_hex0x, hex_decode_hex. by eexists.
Qed.

(** Entries of one amount: each address holds it, whatever was there before. *)
Lemma fund_equal (v : Z) (l : list Address) (a : Address) (m : gmap Address Account) :
  (fold_left fund_entry ((λ a : Address, (hex0x a, v)) <$> l) m) !! a
  = if decide (a ∈ l) then Some (funded_account a v) else m !! a.
Proof.
  revert m. induction l as [|b l IH]; intros m; cbn [fmap list_fmap fold_left].
  { by rewrite decide_False by set_solver. }
  rewrite IH. unfold fund_entry. cbn [fst snd]. rewrite parseAddress_hex0x.
  destruct (decide (a ∈ l)); [by rewrite decide_True by set_solver|].
  destruct (decide (a = b)) as [->|Hne]; [by rewrite lookup_insert_eq, decide_True by set_solver|].
  rewrite lookup_insert_ne by done. by rewrite decide_False by set_solver.
Qed.

Lemma genesis_doc_wf now chainID vals bals :
  Forall (λ v, is_u64 (ve_Stake v)) vals → Forall (λ b, is_u64 (be_Amount b)) bals → GenesisDoc_wf (genesis_doc now chainID vals bals).
Proof. intros Hv Hb. split; [|done]. cbn. repeat constructor; done || lia. Qed.

(** What both documents need. *)
Lemma genesis_doc_valid now t chainID vals bals :
  chainID ≠ "" → t <= now + 5 * 60 * 10 ^ 9 → vals ≠ [] →
  NoDup ((λ v, ToLower (ve_Address v)) <$> vals) → NoDup ((λ v, ToLower (ve_PubKey v)) <$> vals) →
  Forall (λ v, 100000000000 <= ve_Stake v < 2 ^ 64 ∧ address_plausible (ve_Address v) ∧ ve_Commission v = "1000") vals →
  Forall (λ b, is_u64 (be_Amount b) ∧ address_plausible (be_Address b)) bals →
  ValidateGenesis now (genesis_doc t chainID vals bals) = Ok tt.
Proof.
  intros Hc Ht Hne Ha Hp Hv Hb.
  assert (GenesisDoc_wf (genesis_doc t chainID vals bals)) as Hwf.
  { apply genesis_doc_wf; (eapply Forall_impl; [done|]); intros x Hx; unfold is_u64 in *; naive_solver lia. }
  unfold ValidateGenesis. rewrite (proj2 (genesis_errors_nil now _ Hwf)); [done|]. split; try done; try (eapply Forall_impl; [done|]).
  - intros v (Hs & _). cbn. lia.
  - by intros v (_ & ? & _).
  - by intros b [_ ?].
  - apply hex0x_plausible.
  - intros v (_ & _ & ->). split; [done|]. split; [by repeat constructor|by vm_compute].
Qed.

(** *** Requests to a node *)

Section requests.
Context {DB Tx_ : Type} `{BoltDB DB Tx_} `{Ed25519} `{RequestJson}.
Context (marshal : value → bytes) (text : error → string) (other : rpc_result → value) (ck : Rpc.Clock).
Abbreviation Node := (Node DB).
Abbreviation post := (node_post (DB := DB) marshal text other ck).
Implicit Types n : Node.

(** The node reads the address that a command writes. *)
Definition reads_address (a : Address) : Prop :=
  unmarshal_address (marshal (VObject [("address", VString (Address_String a))])) = Ok (Address_String a).

(** The answer for an account; a missing one is empty. *)
Definition shown_nonce (a : Address) n : Z := match accounts (nd_state n) !! a with Some acc => acc_Nonce acc | None => 0 end.

Definition shown_account (a : Address) n : AccountResult :=
  match accounts (nd_state n) !! a with
  | Some acc => mkAccountResult (Address_String a) (dec (acc_Balance acc)) (acc_Nonce acc) (hashToHex (acc_CodeHash acc)) (hashToHex (acc_StorageRoot acc))
  | None => mkAccountResult (Address_String a) "0" 0 "0x" "0x"
  end.

Lemma shown_account_nonce a n : ar_Nonce (shown_account a n) = shown_nonce a n.
Proof. unfold shown_account, shown_nonce. by destruct (accounts (nd_state n) !! a). Qed.

Lemma post_shown (a : Address) n :
  reads_address a →
  post "dsn_getAccount" (VObject [("address", VString (Address_String a))]) n
  = (n, Ok (response_object text other (successResponse (IdNumber 1) (RAccount (shown_account a n))))).
Proof.
  intros Hr. unfold node_post. set (req := mkRPCRequest _ _ _ _).
  change (handleRequest ck req) with (handleRPCGetAccount (DB := DB) req).
  unfold handleRPCGetAccount, respond. subst req. cbn [rq_Params]. rewrite Hr.
  unfold handleGetAccount, required, guard_err. rewrite bool_decide_eq_false_2 by apply Address_String_nonempty.
  unfold nodeService_GetAccount, parse_address, account_of, gets, lift, try, mbind, go_bind, shown_account. rewrite Address_String_parse.
  generalize (Address_String a). intros addr.
  destruct (accounts (nd_state n) !! a) as [acc|] eqn:E; cbn; by rewrite !E.
Qed.

Lemma post_account (a : Address) n :
  reads_address a →
  ∃ resp result, post "dsn_getAccount" (VObject [("address", VString (Address_String a))]) n = (n, Ok resp) ∧
    decode_map "error" resp = Ok None ∧ object_field "error" resp = None ∧
    decode_map "result" resp = Ok (Some result) ∧ object_field "result" resp = Some result ∧
    field "result" result = None ∧ field "nonce" result = Some (VNumber (shown_nonce a n)).
Proof.
  intros Hr. eexists _, _. rewrite (post_shown a n Hr), <- shown_account_nonce. split; [done|]. cbn. by split_and!.
Qed.

(** The nonce that the registration uses is 1 whatever the account says: the
    result is unwrapped twice. *)
Lemma getNonce_one (a : Address) n : reads_address a → getNonce post (Address_String a) n = (n, Ok 1).
Proof.
  intros Hr. destruct (post_account a n Hr) as (resp & result & Hp & _ & He & _ & Hres & Hn & _).
  unfold getNonce, doRPCRequest. rewrite (go_bind_ok _ _ n n result); [|by rewrite (go_bind_ok _ _ _ _ _ Hp), He, Hres].
  unfold object_field. by rewrite Hn.
Qed.

Lemma getAccountNonce_run (a : Address) n : reads_address a → getAccountNonce post (Address_String a) n = (n, Ok (shown_nonce a n)).
Proof.
  intros Hr. destruct (post_account a n Hr) as (resp & result & Hp & He & _ & Hres & _ & _ & Hn).
  unfold getAccountNonce, callRPC. rewrite (go_bind_ok _ _ n n (Some result)).
  - cbn [default from_option id]. by rewrite Hn.
  - by rewrite (go_bind_ok _ _ _ _ _ Hp), Hres, He.
Qed.

(** A command goes on only if the node answered without an error. *)
Lemma callRPC_inv method params n n' r :
  callRPC post method params n = (n', Ok r) →
  ∃ resp, handleRequest ck (mkRPCRequest "2.0" method (marshal params) (IdNumber 1)) n = (n', Ok resp) ∧ rp_Error resp = None.
Proof.
  intros (n1 & resp & (n2 & rp & Hh & [= -> <-])%go_bind_inv & Hr)%go_bind_inv. exists rp. revert Hr.
  unfold response_object, decode_map. destruct (rp_Result rp) as [v|], (rp_Error rp) as [e|]; try destruct (result_value other v); cbn; try done;
    intros [= -> _]; done.
Qed.

Lemma doRPCRequest_inv method params n n' r :
  doRPCRequest post method params n = (n', Ok r) →
  ∃ resp, handleRequest ck (mkRPCRequest "2.0" method (marshal params) (IdNumber 1)) n = (n', Ok resp) ∧ rp_Error resp = None.
Proof.
  intros (n1 & resp & (n2 & rp & Hh & [= -> <-])%go_bind_inv & Hr)%go_bind_inv. exists rp. revert Hr.
  unfold response_object, object_field. destruct (rp_Result rp) as [v|], (rp_Error rp) as [e|]; try destruct (result_value other v); cbn; try done;
    intros [= -> _]; done.
Qed.

(** The node takes no transaction whose timestamp was left at zero. *)
Lemma unset_timestamp_refused raw n n' h :
  raw_Timestamp raw = 0 → 5 < ck_validate ck < 2 ^ 63 → nodeService_SendTransaction ck (Ok raw) n ≠ (n', Ok h).
Proof.
  intros Ht Hc Hs. unfold nodeService_SendTransaction in Hs. go_inv Hs. go_inv Hrun. injection Hrun as <-. go_inv Hrun0. go_inv Hrun1.
  assert (tx_Timestamp a0 = 0) as E.
  { revert Hrun0. unfold transaction_of, mbind, res_bind. by repeat case_match; intros [= <-]. }
  revert Hrun1. unfold Transaction_Validate. rewrite E. unfold ValidateTimestamp.
  rewrite (s64_small (ck_validate ck)) by lia. change (s64 0) with 0. rewrite Z.sub_0_r, s64_small by lia.
  rewrite (proj2 (Z.ltb_lt 5 _)) by lia. rewrite orb_true_r. by repeat case_match.
Qed.

(** What encoding/json does with the transaction of a request: either the node
    reads its timestamp or it answers with an error. *)
Definition keeps_timestamp (marshal_tx : RawTx → string) (raw : RawTx) : Prop :=
  match parseSendTransactionRequest (marshal (VObject [("tx", VString (marshal_tx raw))])) with
  | Ok txJSON => match unmarshal_tx txJSON with Ok raw' => raw_Timestamp raw' = raw_Timestamp raw | _ => True end
  | _ => True
  end.

Lemma unset_timestamp_command (marshal_tx : RawTx → string) raw n n' r :
  keeps_timestamp marshal_tx raw → raw_Timestamp raw = 0 → 5 < ck_validate ck < 2 ^ 63 →
  callRPC post "dsn_sendTransaction" (VObject [("tx", VString (marshal_tx raw))]) n ≠ (n', Ok r).
Proof.
  intros Hk Ht Hc (resp & Hh & He)%callRPC_inv. set (req := mkRPCRequest _ _ _ _) in Hh.
  change (handleRequest ck req) with (handleRPCSendTransaction (DB := DB) ck req) in Hh. unfold handleRPCSendTransaction, respond in Hh.
  subst req. cbn [rq_Params] in Hh. unfold keeps_timestamp in Hk. destruct (parseSendTransactionRequest _) as [txJSON|e|]; [|by injection Hh as _ <-|done].
  go_inv Hh. unfold try in Hrun. destruct (handleSendTransaction ck txJSON n) as [n1 [h|e|]] eqn:E; [|injection Hrun as <- <-; done|done].
  unfold handleSendTransaction in E. go_inv E. go_inv Hrun0.
  destruct (unmarshal_tx txJSON) as [raw'|e|].
  - by eapply (unset_timestamp_refused raw'); [by rewrite Hk| |exact E].
  - unfold nodeService_SendTransaction in E. by go_inv E; go_inv Hrun1.
  - unfold nodeService_SendTransaction in E. by go_inv E; go_inv Hrun1.
Qed.
End requests.

(** ** Properties *)

(** The genesis document of a development network is accepted and the state
    can be initialised from it: every validator has its initial balance and the
    treasury its own, which the document lists twice without harm. *)
Theorem generated_genesis (t now : Z) (chainID : string) (keys : list (arr 32)) :
  chainID ≠ "" → keys ≠ [] → NoDup ((λ k : arr 32, deriveAddress k) <$> keys) → t <= now + 5 * 60 * 10 ^ 9 →
  treasuryAddr ∉ ((λ k : arr 32, deriveAddress k) <$> keys) →
  let doc := generateDevnetGenesis t chainID keys in
  ValidateGenesis now doc = Ok tt ∧ genesis_usable doc ∧
  (∀ a, a ∈ ((λ k : arr 32, deriveAddress k) <$> keys) → genesis_accounts doc !! a = Some (funded_account a 10000000000000)) ∧
  genesis_accounts doc !! treasuryAddr = Some (funded_account treasuryAddr 10000000000000000).
Proof.
  intros Hc Hk Hnd Ht Htr doc.
  assert (genesis_accounts doc = fold_left fund_entry ((λ a : Address, (hex0x a, 10000000000000000)) <$> [treasuryAddr])
    (fold_left fund_entry ((λ a : Address, (hex0x a, 10000000000000)) <$> ((λ k : arr 32, deriveAddress k) <$> keys))
      (fold_left fund_entry ((λ a : Address, (hex0x a, 10000000000000000)) <$> [treasuryAddr]) ∅))) as Hacc.
  { unfold genesis_accounts, genesis_entries, doc, generateDevnetGenesis, genesis_doc. cbn [gd_InitialBalances gd_Treasury].
    rewrite fmap_app, !fold_left_app, <- !list_fmap_compose. done. }
  split; [|split; [|split]].
  - apply genesis_doc_valid; try done.
    + by intros E%fmap_nil_inv.
    + rewrite <- list_fmap_compose.
      assert (((λ v, ToLower (ve_Address v)) ∘ devnet_validator) <$> keys = (λ a : Address, str_bytes (hex0x a)) <$> ((λ k : arr 32, deriveAddress k) <$> keys)) as ->.
      { rewrite <- list_fmap_compose. apply list_fmap_ext. intros i k _. apply lower_hex. }
      apply NoDup_fmap_2; [|done]. intros a b E. by apply arr_eq, hex0x_inj.
    + rewrite <- list_fmap_compose.
      assert (((λ v, ToLower (ve_PubKey v)) ∘ devnet_validator) <$> keys = (λ k : arr 32, str_bytes (hex0x k)) <$> keys) as ->.
      { apply list_fmap_ext. intros i k _. apply lower_hex. }
      apply NoDup_fmap_2; [|by apply (NoDup_fmap_1 (λ k : arr 32, deriveAddress k))]. intros a b E. by apply arr_eq, hex0x_inj.
    + apply Forall_fmap, Forall_true. intros k. split; [done|]. split; [apply hex0x_plausible|done].
    + apply Forall_app. split; [|apply Forall_singleton; split; [done|apply hex0x_plausible]].
      apply Forall_fmap, Forall_true. intros k. split; [done|]. apply hex0x_plausible.
  - split.
    + intros _ _. exists treasuryAddr. apply parseAddress_hex0x.
    + apply Forall_app. split; [|apply Forall_singleton; exists treasuryAddr; apply parseAddress_hex0x].
      apply Forall_fmap, Forall_true. intros k. eexists. apply parseAddress_hex0x.
    + apply Forall_fmap, Forall_true. intros k. unfold validator_data. cbn [compose devnet_validator ve_Address ve_PubKey ve_Commission].
      rewrite parseAddress_hex0x, stripHexPrefix_hex0x, hex_decode_hex. by eexists.
  - intros a Ha. rewrite Hacc, !fund_equal. rewrite (decide_True _ _ Ha). rewrite decide_False; [done|].
    intros ->%list_elem_of_singleton. done.
  - rewrite Hacc, fund_equal. by rewrite decide_True by set_solver.
Qed.

Theorem generated_genesis_witness :
  let keys := [arr_zero 32] in let doc := generateDevnetGenesis 7 "dsn-1" keys in
  ValidateGenesis 9 doc = Ok tt ∧ genesis_usable doc ∧
  (∀ a, a ∈ ((λ k : arr 32, deriveAddress k) <$> keys) → genesis_accounts doc !! a = Some (funded_account a 10000000000000)) ∧
  genesis_accounts doc !! treasuryAddr = Some (funded_account treasuryAddr 10000000000000000).
Proof.
  apply (generated_genesis 7 9 "dsn-1" [arr_zero 32]); [done|done|by apply NoDup_singleton|lia|].
  intros E%list_elem_of_singleton. apply (f_equal (λ a : Address, head (arr_bytes a))) in E. by vm_compute in E.
Defined.

(** A key that was saved is the key that is loaded. *)
Theorem saved_key_loads (kp : KeyPair) : LoadKey (SaveKey kp) = Ok kp.
Proof. unfold LoadKey, SaveKey. cbn [kf_PublicKey kf_PrivateKey]. rewrite !hex_decode_hex, !arr_copy_arr. by destruct kp. Qed.

(** What [wallet sign] prints is the signature and the intent id of every
    transaction that a node makes with the sender, the nonce and the payload of
    the file, if the file names the wallet as the sender: fee, gas limit,
    timestamp and chain are not signed. *)
Theorem wallet_signature `{Ed25519} (un : UnsignedTransaction) (kp : KeyPair) (signed : SignedTransaction) (raw : RawTx) (tx : Transaction) :
  runWalletSign (Ok un) (Ok kp) = Ok signed → sender_of (un_Sender un) = Ok (KeyPair_Address kp) →
  raw_Sender raw = un_Sender un → raw_Nonce raw = un_Nonce un → raw_Payload raw = un_Payload un → raw_Constraints raw = "" →
  raw_Signature raw = sg_Signature signed → transaction_of raw = Ok tx →
  sg_IntentID signed = hex (tx_IntentID tx) ∧ tx_Signature tx = ed25519_Sign (kp_PrivateKey kp) (tx_IntentID tx).
Proof.
  destruct raw as [rs rn rc rp rcs rg rf rt rsig rty]. cbn [raw_Sender raw_Nonce raw_Payload raw_Constraints raw_Signature].
  intros Hs Hsend -> -> -> -> ->. revert Hs. unfold runWalletSign, transaction_of. cbn [raw_Sender raw_Signature raw_Payload raw_Constraints]. rewrite Hsend.
  cbn [wrap_res mbind res_bind]. destruct (hex_optional "payload" (un_Payload un)) as [payload| |]; [|done..]. cbn [wrap_res mbind res_bind].
  unfold KeyPair_Sign. destruct (ComputeIntentID _) as [intentID| |] eqn:E; [|done..]. cbn. intros [= <-].
  cbn [sg_Signature sg_IntentID]. rewrite hex_field_hex. cbn [mbind res_bind]. change (hex_optional "constraints" "") with (Ok (A := bytes) []). cbn [mbind res_bind].
  unfold ComputeIntentID in *. change (intent_preimage _) with (intent_preimage (unsigned_tx kp un payload)). injection E as <-. by intros [= <-].
Qed.

(** The registration message of the command is that of the state machine. *)
Theorem registration_payload (m : ValidatorRegistrationMsg) : registration_encode m = encode_bytes (ValidatorRegistrationMsg_Encode m).
Proof.
  unfold registration_encode, encode_bytes, ValidatorRegistrationMsg_Encode, run_writer.
  destruct (decide (length (reg_PubKey m) = 32%nat)) as [E|E].
  - unfold guard_err. rewrite bool_decide_eq_true_2 by done. unfold Write, write_uint, Write, mbind, go_bind, mret, go_ret. cbn -[be]. by rewrite <- !app_assoc.
  - unfold guard_err. by rewrite bool_decide_eq_false_2 by done.
Qed.

Section never.
Context {DB Tx_ : Type} `{BoltDB DB Tx_} `{Ed25519} `{RequestJson}.
Context (marshal : value → bytes) (text : error → string) (other : rpc_result → value) (ck : Rpc.Clock).
Abbreviation post := (node_post (DB := DB) marshal text other ck).

(** No validator can be registered from the command line: a node has no method
    dsn_submitTransaction. *)
Theorem register_never_succeeds (stake commission now : Z) (key : res ValidatorKey) (n n' : Node DB) r :
  runValidatorRegister post stake commission key now n ≠ (n', Ok r).
Proof.
  intros Hr. unfold runValidatorRegister in Hr. go_inv Hr. clear -Hrun5. unfold submitTransaction in Hrun5. go_inv Hrun5.
  apply doRPCRequest_inv in Hrun as (resp & Hh & He). by injection Hh as _ <-.
Qed.

(** No contract can be deployed from the command line: the timestamp of the
    transaction is never set. *)
Theorem deploy_never_succeeds (marshal_tx : RawTx → string) (wasm : res bytes) (key : res KeyPair) (gasLimit : Z) (n n' : Node DB) r :
  (∀ raw, keeps_timestamp marshal marshal_tx raw) → 5 < ck_validate ck < 2 ^ 63 →
  runContractDeploy post marshal_tx wasm key gasLimit n ≠ (n', Ok r).
Proof.
  intros Hk Hc Hr. unfold runContractDeploy in Hr. go_inv Hr. go_inv Hrun2. go_inv Hrun3. go_inv Hrun4.
  assert (tx_Timestamp a3 = 0) as E.
  { revert Hrun2 Hrun3. unfold deploy_tx, KeyPair_Sign, mbind, res_bind. repeat case_match; try done; by intros [= <-] [= <-]. }
  exact (unset_timestamp_command marshal text other ck marshal_tx (transaction_json a3) _ _ _ (Hk _) E Hc Hrun4).
Qed.

End never.
