(* ===== verification/Sdk.v ===== *)
(** * The HTTP client of the SDK (package sdk)

    Requests with retries, the errors of the SDK, pages, and the methods of
    [Client] that a node of Rpc.v answers. HTTP is an argument: [Do] sends a
    body and returns the status with the outcome of reading the response, or
    fails with an error text. *)

From S2P Require Import Prelude Codec Sha256 Address Amount Votes Block Smt Store Keys State Vm Tx.
From S2P Require Import Applier Registry Gossip Bolt Chain Persist Mempool Genesis Node Startup Peers Client Rpc Config Devnet Cmd.

(** ** Pages (sdk/pagination.go) *)

Definition DefaultLimit : Z := 20.
Definition MaxLimit : Z := 100.

Record Pagination := mkPagination {
  pg_Offset : Z;
  pg_Limit : Z;
}.

Definition DefaultPagination : Pagination := mkPagination 0 DefaultLimit.

Definition Normalize (p : Pagination) : Pagination :=
  let limit := if pg_Limit p =? 0 then DefaultLimit else pg_Limit p in
  let limit := if MaxLimit <? limit then MaxLimit else limit in
  let limit := if (0 <? pg_Offset p) && (limit =? 0) then DefaultLimit else limit in
  mkPagination (pg_Offset p) limit.

Definition HasMore (p : Pagination) (total : Z) : bool := u64 (pg_Offset p + pg_Limit p) <? total.
Definition Next (p : Pagination) : Pagination := mkPagination (u64 (pg_Offset p + pg_Limit p)) (pg_Limit p).

Inductive PaginationOption :=
  | WithOffset (offset : Z)
  | WithLimit (limit : Z).

Definition apply_option (p : Pagination) (o : PaginationOption) : Pagination :=
  match o with
  | WithOffset offset => mkPagination offset (pg_Limit p)
  | WithLimit limit => mkPagination (pg_Offset p) limit
  end.

Definition ApplyOptions (opts : list PaginationOption) : Pagination := Normalize (fold_left apply_option opts DefaultPagination).

Record PageInfo := mkPageInfo {
  pi_Offset : Z;
  pi_Limit : Z;
  pi_Total : Z;
  pi_HasNextPage : bool;
  pi_HasPrevPage : bool;
}.

Definition NewPageInfo (p : Pagination) (total : Z) : PageInfo :=
  mkPageInfo (pg_Offset p) (pg_Limit p) total (HasMore p total) (0 <? pg_Offset p).

(** The pages that a caller visits who goes on while there is more; [n] bounds
    their number. *)
Fixpoint pages (n : nat) (p : Pagination) (total : Z) : option (list Pagination) :=
  match n with
  | O => None
  | S n => if HasMore p total then rest ← pages n (Next p) total; Some (p :: rest) else Some [p]
  end.

(** ** Errors (sdk/errors.go) *)

Inductive sentinel :=
  | SdkNotFound | SdkInvalidParams | SdkInternal | SdkMethodNotFound | SdkParse | SdkInvalidRequest | SdkServerError
  | SdkIndexerNotAvailable.

#[global] Instance sentinel_eq_dec : EqDecision sentinel.
Proof. solve_decision. Defined.

Record SDKError := mkSDKError {
  se_Code : Z;
  se_Message : string;
  se_err : sentinel;
}.

(** The method [Is]. *)
Definition SDKError_Is (e : SDKError) (target : sentinel) : bool :=
  match target with
  | SdkNotFound => (se_Code e =? -32601) || (se_Code e =? -32006)
  | SdkInvalidParams => se_Code e =? -32602
  | SdkInternal => (se_Code e =? -32603) || (se_Code e =? -32000)
  | SdkMethodNotFound => se_Code e =? -32601
  | SdkIndexerNotAvailable => se_Code e =? -32001
  | _ => false
  end.

(** [errors.Is]: the method, then the wrapped error. *)
Definition errors_Is (e : SDKError) (target : sentinel) : bool := SDKError_Is e target || bool_decide (se_err e = target).

Definition parseRPCError (code : Z) (message : string) : SDKError :=
  if code =? -32700 then mkSDKError code "Parse error" SdkParse
  else if code =? -32600 then mkSDKError code "Invalid Request" SdkInvalidRequest
  else if code =? -32601 then mkSDKError code "Method not found" SdkMethodNotFound
  else if code =? -32602 then mkSDKError code "Invalid params" SdkInvalidParams
  else if code =? -32603 then mkSDKError code "Internal error" SdkInternal
  else if code =? -32001 then mkSDKError code "Indexer not available" SdkIndexerNotAvailable
  else mkSDKError code message SdkServerError.

Definition NewSDKError (code : Z) (message : string) : SDKError := mkSDKError code message SdkServerError.

Definition IsNotFound (e : SDKError) : bool := errors_Is e SdkNotFound.
Definition IsInvalidParams (e : SDKError) : bool := errors_Is e SdkInvalidParams.
Definition IsInternal (e : SDKError) : bool := errors_Is e SdkInternal.
Definition IsIndexerNotAvailable (e : SDKError) : bool := errors_Is e SdkIndexerNotAvailable.

(** ** What is retried (sdk/retry.go) *)

(** The text of an error; the ones of this file are made of these two. *)
Fixpoint error_text (e : error) : string :=
  match e with
  | Errorf msg => msg
  | Wrapf msg e => msg +:+ ": " +:+ error_text e
  | _ => ""
  end.

Definition findSubstring (s substr : bytes) : bool :=
  existsb (λ i, bool_decide (take (length substr) (drop i s) = substr)) (seq 0 (length s - length substr + 1)).

Definition contains (s substr : bytes) : bool :=
  bool_decide (length substr <= length s)%nat && (bool_decide (length substr = 0%nat) || findSubstring s substr).

Definition containsIgnoreCase (s substr : string) : bool := contains (ToLower s) (ToLower substr).

Definition retryableIndicators : list string :=
  ["connection refused"; "connection reset"; "connection timeout"; "i/o timeout"; "no such host"; "network is unreachable";
   "server error"; "temporary failure"; "503"; "502"; "504"].

Definition isRetryableError (e : error) : bool := existsb (containsIgnoreCase (error_text e)) retryableIndicators.

(** [1 << uint(n)] as a duration. *)
Definition shl1 (n : Z) : Z := if (0 <=? n) && (n <? 64) then s64 (2 ^ n) else 0.

Record RetryConfig := mkRetryConfig {
  rc_MaxAttempts : Z;
  rc_Backoff : Z;
  rc_MaxBackoff : Z;
}.

Definition DefaultRetryConfig : RetryConfig := mkRetryConfig 3 second (10 * second).

Definition ExponentialBackoff (c : RetryConfig) (attempt : Z) : Z :=
  let backoff := s64 (rc_Backoff c * shl1 (attempt - 1)) in
  if rc_MaxBackoff c <? backoff then rc_MaxBackoff c else backoff.

Definition NewRetryHandler (config : RetryConfig) : RetryConfig :=
  mkRetryConfig (if rc_MaxAttempts config =? 0 then 3 else rc_MaxAttempts config)
                (if rc_Backoff config =? 0 then second else rc_Backoff config) (rc_MaxBackoff config).

(** ** The client (sdk/client.go) *)

Record Client := mkClient {
  cl_baseURL : string;
  cl_wsURL : string;
  cl_retryEnabled : bool;
  cl_maxRetries : Z;
  cl_retryBackoff : Z;
}.

(** [strings.HasPrefix] and [strings.TrimPrefix]. *)
Fixpoint after (prefix s : bytes) : option bytes :=
  match prefix, s with
  | [], _ => Some s
  | a :: prefix, b :: s => if bool_decide (a = b) then after prefix s else None
  | _ :: _, [] => None
  end.

Definition deriveWSURL (httpURL : string) : string :=
  match after (str_bytes "https://") (str_bytes httpURL), after (str_bytes "http://") (str_bytes httpURL) with
  | Some rest, _ => "wss://" +:+ bytes_str rest
  | None, Some rest => "ws://" +:+ bytes_str rest
  | None, None => httpURL
  end.

Definition NewWithClient (baseURL : string) : Client := mkClient baseURL (deriveWSURL baseURL) false 0 0.

Definition WithRetry (maxAttempts backoff : Z) (c : Client) : Client :=
  mkClient (cl_baseURL c) (cl_wsURL c) true maxAttempts backoff.

Definition WithRetryConfig (config : RetryConfig) (c : Client) : Client := WithRetry (rc_MaxAttempts config) (rc_Backoff config) c.

(** The world of a client: the network, and the durations it waited for. *)
Record World (S : Type) := mkWorld {
  w_net : S;
  w_slept : list Z;
}.
Arguments mkWorld {_} _ _.
Arguments w_net {_} _.
Arguments w_slept {_} _.

Section client.
Context {S : Type}.
Abbreviation World := (World S).

Definition with_net (s : S) (w : World) : World := mkWorld s (w_slept w).

(** Wait for a duration, unless the context ends before: [ctx] has its error
    for each wait, counted from 1. *)
Definition pause (ctx : Z → option error) (wait sleep : Z) : go World unit :=
  match ctx wait with
  | Some e => throw e
  | None => modify (λ w, mkWorld (w_net w) (w_slept w ++ [sleep]))
  end.

(** The loop of [Do]: [None] is a nil error. *)
Fixpoint do_loop (h : RetryConfig) (ctx : Z → option error) (fn : go World unit) (n : nat) (attempt : Z) (lastErr : option error)
    : go World (option error) :=
  match n with
  | O => mret lastErr
  | Datatypes.S n =>
      r ← try fn;
      match r with
      | inr _ => mret None
      | inl e =>
          if negb (isRetryableError e) then mret (Some e)
          else if attempt <? rc_MaxAttempts h then
            r ← try (pause ctx attempt (ExponentialBackoff h attempt));
            match r with
            | inl e => mret (Some e)
            | inr _ => do_loop h ctx fn n (attempt + 1) (Some e)
            end
          else do_loop h ctx fn n (attempt + 1) (Some e)
      end
  end.

Definition Do (h : RetryConfig) (ctx : Z → option error) (fn : go World unit) : go World (option error) :=
  do_loop h ctx fn (Z.to_nat (rc_MaxAttempts h)) 1 None.

(** ** Requests (sdk/client.go) *)

(** [httpClient.Do]: an error, or the status and what reading the body gives. *)
Context (http : string → bytes → go S (Z * res bytes)).

Definition doRequest (url : string) (body : bytes) : go World bytes :=
  resp ← wrap "do request" (zoom w_net with_net (http (url +:+ "/rpc") body));
  guard_err (500 <=? resp.1) (Errorf ("server error: " +:+ dec resp.1));;
  wrap "read response body" (lift resp.2).

(** The loop of [doWithRetry]; the text of a nil error is never needed as there
    is an attempt before. *)
Fixpoint retry_loop (backoff : Z) (ctx : Z → option error) (request : go World bytes) (n : nat) (attempt : Z) (lastErr : option error)
    : go World bytes :=
  match n with
  | O => throw match lastErr with
               | Some e => Wrapf "max retries exceeded" e
               | None => Errorf "max retries exceeded: %!w(<nil>)"
               end
  | Datatypes.S n =>
      (if 0 <? attempt then pause ctx attempt (s64 (backoff * shl1 (attempt - 1))) else mret tt);;
      r ← try request;
      match r with
      | inr respBody => mret respBody
      | inl e => if isRetryableError e then retry_loop backoff ctx request n (attempt + 1) (Some e) else throw e
      end
  end.

Definition doWithRetry (cl : Client) (ctx : Z → option error) (body : bytes) : go World bytes :=
  retry_loop (cl_retryBackoff cl) ctx (doRequest (cl_baseURL cl) body) (Z.to_nat (cl_maxRetries cl + 1)) 0 None.

(** encoding/json: the bytes of a request and the object of a response. *)
Context (marshal : string → value → bytes) (unmarshal : bytes → res object).

Definition http_post (cl : Client) (ctx : Z → option error) (method : string) (params : value) : go World object :=
  let body := marshal method params in
  respBody ← (if cl_retryEnabled cl then doWithRetry cl ctx body else doRequest (cl_baseURL cl) body);
  wrap "unmarshal response" (lift (unmarshal respBody)).
End client.

Section methods.
Context {S : Type} (post : string → value → go S object).

(** The error of a response: a missing one and null are nil. *)
Definition response_error (resp : object) : res (option SDKError) :=
  match field "error" resp with
  | None | Some VNull => Ok None
  | Some (VObject e) =>
      match field "code" e, field "message" e with
      | Some (VNumber code), Some (VString message) => Ok (Some (parseRPCError code message))
      | _, _ => Err (Errorf "unmarshal response")
      end
  | Some _ => Err (Errorf "unmarshal response")
  end.

(** [call]: the error of the node is a value; [decode] is [json.Unmarshal] into
    the type of the result. *)
Definition call {A} (method : string) (params : value) (decode : value → res A) : go S (SDKError + A) :=
  resp ← post method params;
  err ← lift (response_error resp);
  match err with
  | Some e => mret (inl e)
  | None =>
      match field "result" resp with
      | Some result => a ← wrap "unmarshal result" (lift (decode result)); mret (inr a)
      | None => throw (Errorf "unmarshal result: unexpected end of JSON input")
      end
  end.

(** *** Results (sdk/types.go)

    A missing field and null leave the zero value. *)

Definition decode_string (v : option value) : res string :=
  match v with
  | None | Some VNull => Ok ""
  | Some (VString s) => Ok s
  | Some _ => Err (Errorf "json: cannot unmarshal into Go value of type string")
  end.

Definition decode_uint64 (v : option value) : res Z :=
  match v with
  | None | Some VNull => Ok 0
  | Some (VNumber n) => Ok n
  | Some _ => Err (Errorf "json: cannot unmarshal into Go value of type uint64")
  end.

Definition decode_struct {A} (fields : object → res A) (v : value) : res A :=
  match v with
  | VObject m => fields m
  | VNull => fields []
  | _ => Err (Errorf "json: cannot unmarshal into Go value")
  end.

Record SdkAccount := mkSdkAccount {
  sa_Address : string;
  sa_Balance : string;
  sa_Nonce : Z;
  sa_CodeHash : string;
  sa_StorageRoot : string;
}.

Definition decode_account : value → res SdkAccount := decode_struct (λ m,
  address ← decode_string (field "address" m);
  balance ← decode_string (field "balance" m);
  nonce ← decode_uint64 (field "nonce" m);
  codeHash ← decode_string (field "codeHash" m);
  storageRoot ← decode_string (field "storageRoot" m);
  Ok (mkSdkAccount address balance nonce codeHash storageRoot)).

(** [new(big.Int).SetString(s, 10)]. *)
Definition SetString (s : string) : option Z :=
  match str_bytes s with
  | x2d :: l => Z.opp <$> parse_digits l
  | x2b :: l => parse_digits l
  | l => parse_digits l
  end.

(** *** Methods (sdk/methods.go) *)

Definition client_GetAccount (address : string) : go S (SDKError + SdkAccount) :=
  call "dsn_getAccount" (VObject [("address", VString address)]) decode_account.

Definition client_GetBalance (address : string) : go S (SDKError + Z) :=
  r ← call "dsn_getBalance" (VObject [("address", VString address)]) (λ v, decode_string (Some v));
  match r with
  | inl e => mret (inl e)
  | inr result => match SetString result with Some balance => mret (inr balance) | None => throw (Errorf "internal error") end
  end.

Definition client_EstimateGas (address data : string) : go S (SDKError + Z) :=
  call "dsn_estimateGas" (VObject [("address", VString address); ("data", VString data)]) (decode_struct (λ m, decode_uint64 (field "gas" m))).

Record SdkTransaction := mkSdkTransaction {
  st_Hash : string; st_Sender : string; st_Recipient : string; st_IntentID : string; st_Nonce : Z; st_Value : string;
  st_MaxFee : string; st_GasLimit : Z; st_Data : string;
}.

Definition transaction_value (tx : SdkTransaction) : value :=
  VObject [("hash", VString (st_Hash tx)); ("sender", VString (st_Sender tx)); ("recipient", VString (st_Recipient tx));
           ("intentId", VString (st_IntentID tx)); ("nonce", VNumber (st_Nonce tx)); ("value", VString (st_Value tx));
           ("maxFee", VString (st_MaxFee tx)); ("gasLimit", VNumber (st_GasLimit tx)); ("data", VString (st_Data tx))].

Definition client_SendTransaction (tx : SdkTransaction) : go S (SDKError + string) :=
  call "dsn_sendTransaction" (VObject [("transaction", transaction_value tx)]) (decode_struct (λ m, decode_string (field "txHash" m))).

Definition client_SendRawTransaction (txHex : string) : go S (SDKError + string) :=
  client_SendTransaction (mkSdkTransaction "" "" "" "" 0 "" "" 0 txHex).
End methods.

(** ** Lemmas *)

Lemma contains_spec (s substr : bytes) : contains s substr = true ↔ ∃ p q, s = p ++ substr ++ q.
Proof.
  unfold contains, findSubstring. rewrite andb_true_iff, orb_true_iff, !bool_decide_eq_true, existsb_exists. split.
  - intros [Hl [Hz|(i & Hi & E)]].
    + exists [], s. by rewrite (nil_length_inv substr Hz).
    + apply bool_decide_eq_true in E. exists (take i s), (drop (length substr) (drop i s)).
      rewrite <- E at 1. by rewrite take_drop, take_drop.
  - intros (p & q & ->). rewrite !length_app. split; [lia|]. right. exists (length p). split; [apply in_seq; lia|].
    apply bool_decide_eq_true. by rewrite drop_app_length, take_app_length.
Qed.

Lemma retryable_text (e : error) (ind : string) (p q : string) :
  ind ∈ retryableIndicators → error_text e = p +:+ ind +:+ q → isRetryableError e = true.
Proof.
  intros Hin E. unfold isRetryableError. apply existsb_exists. exists ind. split; [by apply list_elem_of_In|].
  unfold containsIgnoreCase. rewrite E. apply contains_spec. exists (ToLower p), (ToLower q).
  unfold ToLower. by rewrite !str_bytes_app, !fmap_app.
Qed.

(** Every answer of a server with a status from 500 on is tried again. *)
Lemma server_errors_retried (status : Z) : isRetryableError (Errorf ("server error: " +:+ dec status)) = true.
Proof. apply (retryable_text _ "server error" "" (": " +:+ dec status)); [|done]. cbn. set_solver. Qed.

(** *** Retries *)

Lemma shl1_pow n : 0 <= n < 63 → shl1 n = 2 ^ n.
Proof.
  intros Hn. unfold shl1. rewrite (proj2 (Z.leb_le 0 n)), (proj2 (Z.ltb_lt n 64)) by lia. cbn [andb]. apply s64_small.
  assert (2 ^ n < 2 ^ 63) by (apply Z.pow_lt_mono_r; lia). lia.
Qed.

(** The backoff doubles up to its maximum, as long as it does not overflow. *)
Lemma backoff_doubles c attempt :
  1 <= attempt → 0 <= rc_Backoff c → rc_Backoff c * 2 ^ (attempt - 1) < 2 ^ 63 →
  ExponentialBackoff c attempt = Z.min (rc_MaxBackoff c) (rc_Backoff c * 2 ^ (attempt - 1)).
Proof.
  intros Ha Hb Hlt. unfold ExponentialBackoff. destruct (decide (rc_Backoff c = 0)) as [E|E].
  { rewrite E, !Z.mul_0_l. change (s64 0) with 0. destruct (Z.ltb_spec (rc_MaxBackoff c) 0); lia. }
  assert (attempt - 1 < 63) as Hs by (apply (Z.pow_lt_mono_r_iff 2); nia).
  rewrite shl1_pow by lia. rewrite s64_small by nia. destruct (Z.ltb_spec (rc_MaxBackoff c) (rc_Backoff c * 2 ^ (attempt - 1))); lia.
Qed.

(** It does not stay at its maximum: from the sixty-fifth attempt on nothing is
    waited for. *)
Lemma backoff_vanishes c attempt : 65 <= attempt → 0 <= rc_MaxBackoff c → ExponentialBackoff c attempt = 0.
Proof.
  intros Ha Hm. unfold ExponentialBackoff, shl1. rewrite (proj2 (Z.ltb_ge (attempt - 1) 64)) by lia. rewrite andb_false_r, Z.mul_0_r.
  change (s64 0) with 0. by rewrite (proj2 (Z.ltb_ge _ 0)) by lia.
Qed.

(** A network whose answers are given in advance; its state counts the requests. *)
Section retries.
Context (reply : nat → res (Z * res bytes)).

Definition replies (url : string) (body : bytes) : go nat (Z * res bytes) := λ k, (S k, reply k).

Definition outcome (k : nat) : res bytes :=
  match reply k with
  | Ok (status, content) =>
      if 500 <=? status then Err (Errorf ("server error: " +:+ dec status)) else wrap_res "read response body" content
  | Err e => Err (Wrapf "do request" e)
  | Panic => Panic
  end.

Definition tried_again (r : res bytes) : Prop := ∃ e, r = Err e ∧ isRetryableError e = true.

(** The first [i] durations. *)
Definition waits (backoff : Z) (i : nat) : list Z := (λ j, s64 (backoff * shl1 (Z.of_nat j))) <$> seq 0 i.

Lemma doRequest_outcome url body k l : doRequest replies url body (mkWorld k l) = (mkWorld (S k) l, outcome k).
Proof.
  unfold doRequest, wrap, zoom, replies, with_net, outcome, guard_err, lift, mbind, go_bind. cbn [w_net w_slept].
  destruct (reply k) as [[status content]|e|]; cbn; [|done..].
  destruct (500 <=? status); [done|]. by destruct content.
Qed.

Context (backoff : Z) (ctx : Z → option error) (url : string) (body : bytes).

(** The loop before attempt [k]. *)
Abbreviation from k n lastErr :=
  (retry_loop backoff ctx (doRequest replies url body) n (Z.of_nat k) lastErr (mkWorld k (waits backoff (pred k)))).

Lemma retry_pause k :
  k = 0%nat ∨ ctx (Z.of_nat k) = None →
  (if 0 <? Z.of_nat k then pause ctx (Z.of_nat k) (s64 (backoff * shl1 (Z.of_nat k - 1))) else mret tt) (mkWorld k (waits backoff (pred k)))
  = (mkWorld k (waits backoff k), Ok tt).
Proof.
  destruct k as [|k]; [done|]. intros [?|Hc]; [done|]. cbn [pred]. rewrite (proj2 (Z.ltb_lt 0 _)) by lia.
  unfold pause, modify. rewrite Hc. cbn [w_net w_slept]. unfold waits. rewrite seq_S, fmap_app. cbn [fmap list_fmap].
  by replace (Z.of_nat (S k) - 1) with (Z.of_nat (0 + k)) by lia.
Qed.

Lemma retry_step k n lastErr :
  k = 0%nat ∨ ctx (Z.of_nat k) = None →
  from k (S n) lastErr = match outcome k with
                         | Ok b => (mkWorld (S k) (waits backoff k), Ok b)
                         | Err e => if isRetryableError e then from (S k) n (Some e) else (mkWorld (S k) (waits backoff k), Err e)
                         | Panic => (mkWorld (S k) (waits backoff k), Panic)
                         end.
Proof.
  intros Hc. cbn [retry_loop]. rewrite (go_bind_ok _ _ _ _ _ (retry_pause k Hc)).
  unfold try, mbind, go_bind. rewrite doRequest_outcome. destruct (outcome k) as [b|e|]; [done| |done].
  destruct (isRetryableError e); [|done]. by replace (Z.of_nat k + 1) with (Z.of_nat (S k)) by lia.
Qed.

Lemma retry_skip i n lastErr :
  (∀ j, (j < i)%nat → tried_again (outcome j)) → (∀ j, (1 <= j < i)%nat → ctx (Z.of_nat j) = None) → (i <= n)%nat →
  ∃ last, from 0 n lastErr = from i (n - i) last ∧ (last = lastErr ∧ i = 0%nat ∨ ∃ j e, i = S j ∧ last = Some e ∧ outcome j = Err e).
Proof.
  intros Hr Hc. induction i as [|i IH]; intros Hn.
  - exists lastErr. rewrite Nat.sub_0_r. split; [done|]. by left.
  - destruct IH as (last & E & _); [intros; apply Hr; lia|intros; apply Hc; lia|lia|].
    destruct (Hr i ltac:(lia)) as (e & He & Hre). exists (Some e). split; [|right; by exists i, e].
    rewrite E. replace (n - i)%nat with (S (n - S i)) by lia. rewrite retry_step, He, Hre; [done|].
    destruct i; [by left|right; apply Hc; lia].
Qed.
End retries.

(** *** Pages *)

Lemma Normalize_limit p : 0 <= pg_Limit p → 1 <= pg_Limit (Normalize p) <= MaxLimit ∧ Normalize (Normalize p) = Normalize p ∧ pg_Offset (Normalize p) = pg_Offset p.
Proof.
  intros Hl. unfold Normalize, DefaultLimit, MaxLimit. cbn [pg_Limit pg_Offset].
  destruct (Z.eqb_spec (pg_Limit p) 0) as [E|E]; [destruct (0 <? pg_Offset p); cbn; done|].
  destruct (Z.ltb_spec 100 (pg_Limit p)) as [E2|E2]; [destruct (0 <? pg_Offset p); cbn; done|].
  rewrite (proj2 (Z.eqb_neq _ _) E), andb_false_r. cbn [pg_Limit pg_Offset].
  rewrite (proj2 (Z.eqb_neq _ _) E), (proj2 (Z.ltb_ge 100 _)) by lia. rewrite (proj2 (Z.eqb_neq _ _) E), andb_false_r. split; [lia|done].
Qed.

(** The numbers of the items on a page. *)
Definition items (total : Z) (p : Pagination) : list Z := seqZ (pg_Offset p) (Z.min (pg_Limit p) (total - pg_Offset p)).

Lemma pages_items (n : nat) p total :
  0 <= pg_Offset p <= total → 1 <= pg_Limit p → total + pg_Limit p < 2 ^ 64 → total - pg_Offset p < Z.of_nat n →
  ∃ l, pages n p total = Some l ∧ mbind (items total) l = seqZ (pg_Offset p) (total - pg_Offset p).
Proof.
  revert p. induction n as [|n IH]; intros p Ho Hl Hb Hn; [lia|]. cbn [pages]. unfold HasMore. rewrite u64_small by (unfold is_u64; lia).
  destruct (Z.ltb_spec (pg_Offset p + pg_Limit p) total) as [Hm|Hm].
  - destruct (IH (Next p)) as (l & E & Hi); try (unfold Next; cbn [pg_Offset pg_Limit]; rewrite ?u64_small by (unfold is_u64; lia); lia).
    exists (p :: l). rewrite E. split; [done|]. cbn [mbind list_bind]. rewrite Hi. unfold Next, items. cbn [pg_Offset pg_Limit].
    rewrite u64_small by (unfold is_u64; lia). rewrite Z.min_l by lia.
    replace (total - pg_Offset p) with (pg_Limit p + (total - (pg_Offset p + pg_Limit p))) by lia. by rewrite seqZ_app by lia.
  - exists [p]. split; [done|]. cbn [mbind list_bind]. rewrite app_nil_r. unfold items. by rewrite Z.min_r by lia.
Qed.

(** *** Answers of a node *)

(** The methods of [handleRequest]. *)
Definition node_methods : list string :=
  ["dsn_getBlock"; "dsn_getTransaction"; "dsn_sendTransaction"; "dsn_getAccount"; "dsn_getBalance"; "dsn_getContract"; "dsn_callContract";
   "dsn_estimateGas"; "dsn_getContractState"; "dsn_getTransactionReceipt"; "dsn_getEvents"; "dsn_getValidators"; "dsn_getSupply";
   "dsn_getStateRoot"; "dsn_getPendingTxs"].

Section node.
Context {DB Tx_ : Type} `{BoltDB DB Tx_} `{Ed25519} `{RequestJson}.
Context (marshal : value → bytes) (text : error → string) (other : rpc_result → value) (ck : Rpc.Clock).
Abbreviation Node := (Node DB).
Abbreviation post := (node_post (DB := DB) marshal text other ck).
Implicit Types n : Node.

(** A response of [respond]: an error other than that of an unknown method, or
    a result of the kind of the method. *)
Lemma respond_kind {A B} req (params : res A) (callee : A → go Node B) special result n n' resp :
  respond req params callee special result n = (n', Ok resp) →
  (∃ e, rp_Error resp = Some e ∧ rp_Result resp = None ∧ (re_Code e = InvalidParams ∨ re_Code e = ServerError)) ∨
  (∃ b, rp_Error resp = None ∧ rp_Result resp = Some (result b)).
Proof.
  unfold respond. destruct params as [p|e|]; [| |done].
  - unfold try, mbind, go_bind. destruct (callee p n) as [n1 [b|e|]]; [..|done]; intros [= <- <-].
    + right. by exists b.
    + left. eexists. split; [done|]. split; [done|]. by right.
  - intros [= <- <-]. left. eexists. split; [done|]. split; [done|]. by left.
Qed.

Lemma handleRequest_codes req n n' resp e :
  handleRequest ck req n = (n', Ok resp) → rp_Error resp = Some e →
  rq_Method req ∈ node_methods ∧ (re_Code e = InvalidParams ∨ re_Code e = ServerError) ∨ rq_Method req ∉ node_methods ∧ re_Code e = MethodNotFound.
Proof.
  intros Hh He. unfold handleRequest in Hh. cbv zeta in Hh.
  repeat match type of Hh with
  | (if bool_decide (rq_Method req = ?m) then _ else _) _ = _ =>
      let E := fresh "Em" in destruct (bool_decide_reflect (rq_Method req = m)) as [E|E];
      [left; split; [rewrite E; unfold node_methods; set_solver|]|]
  end.
  all: try (unfold handleRPCGetSupply in Hh).
  all: try (apply respond_kind in Hh as [(e' & He' & _ & Hne)|(b & Hb & _)]; congruence).
  all: try (injection Hh as _ <-; discriminate He).
  injection Hh as _ <-. injection He as <-. right. split; [|done]. unfold node_methods. rewrite !not_elem_of_cons. by split_and!; [..|apply not_elem_of_nil].
Qed.

Lemma response_error_of resp :
  response_error (response_object text other resp)
  = Ok (match rp_Error resp with Some e => Some (parseRPCError (re_Code e) (text (re_Message e))) | None => None end).
Proof. unfold response_error, response_object. by destruct (rp_Result resp), (rp_Error resp). Qed.

Lemma result_of resp :
  field "result" (response_object text other resp) = match rp_Result resp with Some r => Some (result_value other r) | None => None end.
Proof. unfold response_object. by destruct (rp_Result resp), (rp_Error resp). Qed.

Lemma call_node {A} method params (decode : value → res A) n :
  call post method params decode n =
  match handleRequest ck (mkRPCRequest "2.0" method (marshal params) (IdNumber 1)) n with
  | (n', Ok resp) =>
      match rp_Error resp with
      | Some e => (n', Ok (inl (parseRPCError (re_Code e) (text (re_Message e)))))
      | None =>
          match rp_Result resp with
          | Some result => (n', match decode (result_value other result) with Ok a => Ok (inr a) | Err e => Err (Wrapf "unmarshal result" e) | Panic => Panic end)
          | None => (n', Err (Errorf "unmarshal result: unexpected end of JSON input"))
          end
      end
  | (n', Err e) => (n', Err e)
  | (n', Panic) => (n', Panic)
  end.
Proof.
  unfold call, node_post, mbind, go_bind. destruct (handleRequest _ _ _) as [n' [resp|e|]]; [|done..]. unfold mret, go_ret, lift. rewrite response_error_of. destruct (rp_Error resp) as [e|] eqn:E; [done|].
  rewrite result_of. destruct (rp_Result resp) as [r|]; [|done]. unfold wrap, lift. by destruct (decode (result_value other r)).
Qed.
End node.

(** ** Properties *)

(** A request with retries is sent until an answer is not worth another
    attempt, at most once more than the number of retries, with a doubled wait
    before each repetition; it gives the last answer, and if every attempt
    failed an error with the last failure. A context that ends during a wait
    ends the request. These are all the cases. *)
Theorem retries_exact (reply : nat → res (Z * res bytes)) (cl : Client) (ctx : Z → option error) (body : bytes) :
  let run := doWithRetry (replies reply) cl ctx body (mkWorld 0%nat []) in
  let answer := outcome reply in let slept := waits (cl_retryBackoff cl) in let retries := cl_maxRetries cl in
  let again i := ∀ j, (j < i)%nat → tried_again (answer j) in let quiet i := ∀ j, (1 <= j < i)%nat → ctx (Z.of_nat j) = None in
  0 <= retries →
  (∀ i, Z.of_nat i <= retries → again i → quiet (S i) → ¬ tried_again (answer i) → run = (mkWorld (S i) (slept i), answer i)) ∧
  (∀ i e, Z.of_nat i = retries → again (S i) → quiet (S i) → answer i = Err e →
    run = (mkWorld (S i) (slept i), Err (Wrapf "max retries exceeded" e))) ∧
  (∀ i e, (1 <= i)%nat → Z.of_nat i <= retries → again i → quiet i → ctx (Z.of_nat i) = Some e →
    run = (mkWorld i (slept (pred i)), Err e)).
Proof.
  intros run answer slept retries again quiet Hr. unfold run, doWithRetry. fold retries.
  assert (∀ i, Z.of_nat i <= retries → again i → quiet i →
    ∃ last, retry_loop (cl_retryBackoff cl) ctx (doRequest (replies reply) (cl_baseURL cl) body) (Z.to_nat (retries + 1)) 0 None (mkWorld 0%nat [])
      = retry_loop (cl_retryBackoff cl) ctx (doRequest (replies reply) (cl_baseURL cl) body) (S (Z.to_nat retries - i)) (Z.of_nat i) last
          (mkWorld i (slept (pred i)))) as Hat.
  { intros i Hi Ha Hq. destruct (retry_skip reply (cl_retryBackoff cl) ctx (cl_baseURL cl) body i (Z.to_nat (retries + 1)) None Ha Hq ltac:(lia)) as (last & E & _).
    exists last. replace (S (Z.to_nat retries - i)) with (Z.to_nat (retries + 1) - i)%nat by lia. exact E. }
  assert (∀ i, quiet (S i) → i = 0%nat ∨ ctx (Z.of_nat i) = None) as Hquiet.
  { intros [|i] Hq; [by left|right; apply Hq; lia]. }
  split; [|split].
  - intros i Hi Ha Hq Hs. destruct (Hat i Hi Ha) as (last & ->); [intros j Hj; apply Hq; lia|].
    rewrite retry_step by by apply Hquiet. fold (answer i). unfold tried_again in Hs. destruct (answer i) as [b|e|]; [done| |done].
    destruct (isRetryableError e) eqn:E; [|done]. destruct Hs. by exists e.
  - intros i e Hi Ha Hq He. destruct (Hat i) as (last & ->); [lia|intros j Hj; apply Ha; lia|intros j Hj; apply Hq; lia|].
    rewrite retry_step by by apply Hquiet. fold (answer i). rewrite He. destruct (Ha i ltac:(lia)) as (e' & He' & Hre).
    fold (answer i) in He'. rewrite He in He'. injection He' as <-. rewrite Hre. by replace (Z.to_nat retries - i)%nat with 0%nat by lia.
  - intros i e Hi1 Hi Ha Hq Hc. destruct (Hat i Hi Ha Hq) as (last & ->). cbn [retry_loop]. rewrite (proj2 (Z.ltb_lt 0 _)) by lia.
    unfold pause. rewrite Hc. done.
Qed.

(** Whoever starts at the first page and goes on while there is more sees
    every item exactly once and in order, and comes to an end. *)
Theorem sdk_pages_cover (opts : list PaginationOption) (total : Z) :
  let p := ApplyOptions opts in 0 <= pg_Limit (fold_left apply_option opts DefaultPagination) → pg_Offset p = 0 → 0 <= total < 2 ^ 64 - MaxLimit →
  ∃ l, pages (S (Z.to_nat total)) p total = Some l ∧ mbind (items total) l = seqZ 0 total.
Proof.
  intros p Hl Ho Ht. destruct (Normalize_limit _ Hl) as [Hb _]. fold (ApplyOptions opts) in Hb. fold p in Hb. unfold MaxLimit in *.
  destruct (pages_items (S (Z.to_nat total)) p total) as (l & E & Hi); try lia. exists l. rewrite Hi, Ho, Z.sub_0_r. done.
Qed.

(** With a negative number of attempts [Do] reports success although it did not
    call the function. *)
Theorem no_attempt_succeeds {S} (h : RetryConfig) (ctx : Z → option error) (fn : go (World S) unit) (w : World S) :
  rc_MaxAttempts h < 0 → Do (NewRetryHandler h) ctx fn w = (w, Ok None).
Proof.
  intros Hn. unfold Do, NewRetryHandler. cbn [rc_MaxAttempts]. rewrite (proj2 (Z.eqb_neq _ _)) by lia. by replace (Z.to_nat (rc_MaxAttempts h)) with 0%nat by lia.
Qed.

(** A handler that is made without a maximal backoff does not wait. *)
Theorem no_maximum_no_wait (h : RetryConfig) (attempt : Z) :
  rc_MaxBackoff h = 0 → 0 < rc_Backoff h → 1 <= attempt → rc_Backoff h * 2 ^ (attempt - 1) < 2 ^ 63 → ExponentialBackoff (NewRetryHandler h) attempt = 0.
Proof.
  intros Hm Hb Ha Hlt. rewrite backoff_doubles; unfold NewRetryHandler; cbn [rc_Backoff rc_MaxBackoff rc_MaxAttempts];
    rewrite ?(proj2 (Z.eqb_neq (rc_Backoff h) 0)) by lia; [|lia..]. rewrite Hm. assert (0 < 2 ^ (attempt - 1)) by (apply Z.pow_pos_nonneg; lia). nia.
Qed.

Section answers.
Context {DB Tx_ : Type} `{BoltDB DB Tx_} `{Ed25519} `{RequestJson}.
Context (marshal : value → bytes) (text : error → string) (other : rpc_result → value) (ck : Rpc.Clock).
Abbreviation Node := (Node DB).
Abbreviation post := (node_post (DB := DB) marshal text other ck).
Implicit Types n : Node.

(** [IsNotFound] holds of exactly the errors for an unknown method: what a node
    does not find is never recognised. *)
Theorem not_found_means_method {A} method params (decode : value → res A) n n' e :
  call post method params decode n = (n', Ok (inl e)) → IsNotFound e = bool_decide (method ∉ node_methods).
Proof.
  rewrite call_node. destruct (handleRequest _ _ _) as [n1 [resp|e'|]] eqn:E; [|done..].
  destruct (rp_Error resp) as [re|] eqn:Ee; [|destruct (rp_Result resp); [destruct (decode _)|]; done]. intros [= <- <-].
  unfold IsNotFound, errors_Is, parseRPCError, SDKError_Is.
  destruct (handleRequest_codes ck _ _ _ _ _ E Ee) as [[Hm [-> | ->]]|[Hm ->]]; cbn [rq_Method] in Hm; symmetry.
  1-2: by rewrite bool_decide_eq_false_2 by tauto.
  by rewrite bool_decide_eq_true_2 by done.
Qed.

(** The account of the SDK is that of the node. *)
Theorem sdk_account (a : Address) n :
  reads_address marshal a →
  let r := shown_account a n in
  client_GetAccount post (Address_String a) n
  = (n, Ok (inr (mkSdkAccount (ar_Address r) (ar_Balance r) (ar_Nonce r) (ar_CodeHash r) (ar_StorageRoot r)))).
Proof.
  intros Hr r. unfold client_GetAccount, call. rewrite (go_bind_ok _ _ _ _ _ (post_shown marshal text other ck a n Hr)).
  rewrite (go_bind_ok _ _ _ n None) by (unfold lift; by rewrite response_error_of). cbv beta iota. by rewrite result_of.
Qed.

(** The SDK never gets a balance: it expects a string and the node sends an
    object. *)
Theorem sdk_balance_fails (address : string) n n' b : client_GetBalance post address n ≠ (n', Ok (inr b)).
Proof.
  unfold client_GetBalance, mbind, go_bind. rewrite call_node.
  change (handleRequest ck (mkRPCRequest "2.0" "dsn_getBalance" ?p ?i)) with (handleRPCGetBalance (DB := DB) (mkRPCRequest "2.0" "dsn_getBalance" p i)).
  destruct (handleRPCGetBalance _ _) as [n1 [resp|e'|]] eqn:E; [|done..].
  apply respond_kind in E as [(e & -> & _)|(v & -> & ->)]; done.
Qed.

(** What encoding/json finds in the parameters of the SDK: no field tx. *)
Definition sends_no_tx : Prop := ∀ tx,
  match parseSendTransactionRequest (marshal (VObject [("transaction", transaction_value tx)])) with Ok txJSON => txJSON = [] | _ => True end.

(** No transaction can be sent with the SDK: the node reads the field tx and
    the SDK writes the field transaction. *)
Theorem sdk_send_fails (tx : SdkTransaction) n n' h : sends_no_tx → client_SendTransaction post tx n ≠ (n', Ok (inr h)).
Proof.
  intros Hs. specialize (Hs tx). unfold client_SendTransaction. rewrite call_node. set (req := mkRPCRequest _ _ _ _).
  change (handleRequest ck req) with (handleRPCSendTransaction (DB := DB) ck req). unfold handleRPCSendTransaction, respond. subst req. cbn [rq_Params].
  destruct (parseSendTransactionRequest _) as [txJSON|e|]; [subst txJSON|done..]. done.
Qed.
End answers.

(** ** Examples *)

(** Two answers with 503 and then one that is read. *)
Definition flaky (k : nat) : res (Z * res bytes) := if decide (k < 2)%nat then Ok (503, Ok []) else Ok (200, Ok [x7b; x7d]).

Definition patient : Client := WithRetry 2 second (NewWithClient "https://node.example").

Example flaky_answered :
  doWithRetry (replies flaky) patient (λ _, None) [] (mkWorld 0%nat []) = (mkWorld 3%nat [second; 2 * second], Ok [x7b; x7d]).
Proof. by vm_compute. Qed.

Example patient_urls : cl_wsURL patient = "wss://node.example".
Proof. by vm_compute. Qed.

Lemma retries_exact_witness :
  doWithRetry (replies flaky) patient (λ _, None) [] (mkWorld 0%nat []) = (mkWorld 3%nat (waits second 2), outcome flaky 2).
Proof.
  destruct (retries_exact flaky patient (λ _, None) [] ltac:(done)) as (Hstop & _). apply (Hstop 2%nat); [done| |done|].
  - intros [|[|j]] Hj; [..|lia]; eexists; (split; [done|apply server_errors_retried]).
  - intros (e & He & _). discriminate He.
Defined.

Lemma sdk_pages_cover_witness : ∃ l, pages 46 (ApplyOptions []) 45 = Some l ∧ mbind (items 45) l = seqZ 0 45.
Proof. by apply (sdk_pages_cover [] 45). Defined.

Example pages_of_45 : pages 46 (ApplyOptions []) 45 = Some [mkPagination 0 20; mkPagination 20 20; mkPagination 40 20].
Proof. by vm_compute. Qed.
